(* ===== verification/_CoqProject ===== *)
-Q . S2P
Prelude.v
Mem.v
KString.v
Spinlock.v
Machine.v
Kalloc.v
Printf.v
Vm.v
VmInv.v
VmCopy.v
KState.v
Proc.v
Start.v
StartSpec.v
VmCheck.v
VmSpec.v
Ringbuf.v
FsFmt.v
FsFmtSpec.v
Hw.v
Virtio.v
Console.v
Sleeplock.v
Bio.v
Log.v
Fs.v
FsBits.v
ProcInv.v
Smp.v
BioInv.v
BioSpec.v
VirtioSpec.v
LogInv.v
LogSpec.v
LogCrash.v
LogTx.v
Durability.v
FsTx.v
FsOp.v
FsAlloc.v
FsInode.v
FsFile.v
FsWrite.v
FsFileSpec.v
FsDir.v
FsName.v
FsTrunc.v
Pipe.v
PipeSpec.v
File.v
Kproc.v
Exec.v
Sysfile.v
Syscall.v
RingbufInv.v
RingbufSpec.v
RingbufCreate.v
RingbufClose.v
FastIpc.v
FastIpcSpec.v
Rg.v
RingTest.v
RingTestSpec.v
Ulib.v
UlibSpec.v
Umalloc.v
UmallocSpec.v
Cmds.v
CmdsSpec.v
Sh.v
ShGrammar.v
ShParse.v
ShSpec.v
ShRun.v
ShMain.v
Grep.v
GrepSpec.v
Mkfs.v
MkfsSpec.v
MkfsBuild.v
