(* ===== verification/Prelude.v ===== *)
(** * A verification of FastIPC: the xv6 kernel with ring buffers, and its user programs

    The repository is xv6 for RISC-V ([Xv6-Kernel/kernel], [Xv6-Kernel/user])
    extended with FastIPC: shared-memory ring buffers, of which the kernel maps
    the pages ([kernel/ringbuf.c]) and a user library keeps the counters
    ([user/fastipc.h]).  This development translates the C code function by
    function into executable definitions and proves what makes its parts
    correct.  Definitions carry the names of the C functions.

    ** How C becomes Rocq

    Every C integer is a [Z] reduced to its width where C reduces it ([u8],
    [u32], [i32], [u64] below).  A function that changes state is a computation
    in the monad [K S] of this file: a bound on the iterations of its loops and
    a state give a result [res S A], which is a value and a state, a panic, an
    access C leaves undefined, a loop over its bound, or a switch to the
    scheduler with the rest of the computation.  [wp c n s Q] says that [c],
    run with bound [n] from [s], returns and that its value and final state
    satisfy [Q]: it excludes panics, undefined behaviour and running out of
    the bound, so theorems stated with it are total.  Loops that the source
    bounds are recursions on the bound; the others ([loop]) use the bound [n]
    of the run, and every theorem about one either holds for all [n] above an
    explicit measure (the bytes left to read, the pages of the free list, the
    blocks of the heap) or says which [n] is enough.

    Memory ([Mem]) is a finite map of bytes.  The kernel's page tables, the free
    list of pages, the data of user processes, the pages of ring buffers and
    the headers of the user allocator all live in it at their addresses.  The
    static tables of the kernel are the fields of one record ([KState]), an
    entry being named by its index; an index out of range is undefined.

    ** The kernel

    - [Spinlock], [Machine], [Hw]: spin locks and interrupt nesting as one hart
      sees them, memory layout, registers.  [KString]: [string.c] and the copy
      loop of [vm.c].  [Printf], [Console]: [printf.c], [console.c], [uart.c].
    - [Kalloc], [Vm] model [kalloc.c] and [vm.c]; [VmInv] relates page tables
      in memory to maps from virtual addresses to entries, [VmCopy] the copy
      loops to the bytes they move, [VmCheck] decides the invariant on a
      concrete memory, and [VmSpec] has the theorems: pages are conserved by
      any sequence of calls, [mappages] and [uvmunmap] are inverse, [copyin] and
      [copyout] move exactly the bytes they should apart from the tail their
      word loop drops.
    - [Proc], [Kproc], [Exec] model [proc.c] and [exec.c]; [ProcInv] shows what
      [wakeup], [kill] and [sleep] do to the process table, on one hart.
      [Smp] models [sleep], [wakeup] and the scheduler's part in them once
      more, step by step, with any number of processes running at once, and
      shows that no wakeup is lost whatever the interleaving.
    - [Sleeplock], [Bio], [Log], [Fs], [Virtio] model [sleeplock.c], [bio.c],
      [log.c], [fs.c] and [virtio_disk.c], [FsFmt] the on-disk structures.
      The cache reaches the disk through the class [DiskDriver].  [BioInv] and
      [BioSpec] relate the linked cache to an abstract one, [LogInv], [LogSpec],
      [LogCrash] and [LogTx] the log to a set of pending block writes, against
      any driver that reads and writes blocks ([DriverOk]); [VirtioSpec] shows
      that [virtio_disk.c] is one, with a device that serves its requests as
      the virtio specification says ([DeviceOk]); [Durability] has the
      theorems: the order of the writes of a commit, that a group of writes is
      atomic under a crash at any point, that recovery can be interrupted.
    - On top of them the theorems about [fs.c].  [FsBits] is the bitmap of one
      block.  [FsTx] gives the view of the code between [begin_op] and [end_op]
      ([tx]: the contents of all blocks, the logged ones, the buffers held),
      [FsOp] shows that any such operation is atomic, [FsAlloc] that [balloc]
      and [bfree] manage the set of used blocks, [FsInode] follows [bmap]
      through direct and indirect blocks, [FsFile] and [FsWrite] [readi],
      [iupdate] and [writei]; [FsFileSpec] has the theorems about files as
      sequences of bytes: what is written is read, a write is atomic and
      durable and fits the log, but three operations at once need not.
      [FsDir] sees a directory as a map from names to inode numbers, of which
      [dirlookup] and [dirlink] are lookup and insertion; [FsName] splits paths
      and shows that [namei] follows them and keeps one reference; [FsTrunc]
      shows that [itrunc] frees the blocks of a file and no other.  The bound
      of these runs is [enough]: above 8192, the bits of a bitmap block, and above the
      number of bitmap blocks; a scan of a directory needs one iteration per
      entry, at most 17152.
    - [Pipe], [PipeSpec]: [pipe.c] as a queue of bytes; a write of any length
      sleeps when the pipe is full and loses nothing to a reader that drains
      it.  [File], [Sysfile], [Syscall]: [file.c], [sysfile.c], [syscall.c],
      [sysproc.c], [trap.c], [main.c]; the state at start is in [KState].  [Start], [StartSpec]:
      [start.c] and the timer interrupt [timervec], on a hart with its mode,
      registers and memory.
    - [Ringbuf] models [ringbuf.c].  [RingbufInv] and [RingbufSpec] show what
      the mapper does to an address space and that two processes see the same
      memory; [RingbufCreate] and [RingbufClose] follow the two system calls
      as wholes, on the branches where they do what they mean to and on those
      where they do not.

    ** User space

    Programs run over an abstract state of which they see the system calls
    ([Usys], [RingSys]); what the theorems use of those calls is stated by
    [StreamOk] (descriptors are streams) and has an instance ([world]).
    - [FastIpc], [FastIpcSpec]: [fastipc.h], with every atomic access to a
      shared counter a point where the other process may run; under every
      interleaving of a writer and a reader the counters hold exactly what the
      two have committed, and what is offered is exact.
      [RingTest] models [ringtest.c], which sends blocks through a buffer.
      [Rg] is a rely-guarantee logic for two processes whose accesses to the
      shared memory interleave; [RingTestSpec] uses it to show that blocks of
      which only one fits arrive intact, and that whenever two fit there is an
      interleaving in which they do not.
    - [Ulib], [UlibSpec]: [ulib.c] and [printf.c]; what [printf] writes for the
      conversions its comment promises, against a specification of formats as
      sequences of pieces.
    - [Umalloc], [UmallocSpec]: [umalloc.c] in byte memory; no sequence of
      well-behaved calls corrupts the heap, and every call returns.
    - [Sh] models [sh.c]: the line buffer, the heap of command structures, the
      scanner, the recursive-descent parser, [nulterminate], [runcmd], [main].
      [ShGrammar] is the language: tokens, the grammar of commands as an
      inductive relation, and a parser on tokens that decides it; [ShParse]
      follows each parsing function of [sh.c], [ShSpec] the whole of
      [parsecmd], [ShRun] relates [runcmd] on the heap to the meaning of the
      abstract command; [ShMain] has the theorems: the shell accepts exactly
      its language, runs what the line means, and reads its input line by
      line.
      The bounds are explicit: a line of length [l] needs [l + MAXARGS + 1]
      iterations at most and [2 l + 1] structures.
    - [Grep], [GrepSpec]: the matcher decides its regular language, and the
      program prints the matching lines.  [Cmds], [CmdsSpec]: [cat], [wc],
      [echo], [ls], [ln], [rm], [mkdir], [kill], [init] and [zombie].
    - [Mkfs] models [mkfs.c], which runs on the host; [MkfsSpec] follows the
      allocation of direct and indirect blocks and the loop of [iappend],
      [MkfsBuild] relates the image to a list of files and shows that [main]
      leaves the one its arguments mean, readable by the kernel's decoders.

    ** What is not modelled

    Other harts: the kernel code runs on one hart, and an [acquire] of a lock
    another hart holds spins; concurrency between kernel threads is present
    only at the switches to the scheduler, so the order of the lock operations
    inside a function such as [sleep] cannot be observed there ([Smp] apart,
    which has all harts but only [sleep], [wakeup] and the switch).  Assembly ([entry.S], [swtch.S],
    [trampoline.S], [kernelvec] of [kernelvec.S]); [ramdisk.c], which is not
    built; the test programs of [user/].  The disk behind the virtio driver is
    a parameter.  The theorems about [readi] and [writei] are for kernel
    memory, the case of directories and of [exec]'s headers; copies from and to
    a process are those of [VmSpec].  [ialloc] in [fs.c], and [sysfile.c],
    [exec.c], [trap.c], [console.c] and [uart.c] are modelled in full, without
    theorems of their own. *)

From stdpp Require Export ssreflect gmap list strings.
From Stdlib Require Export ZArith Lia.

#[global] Open Scope Z_scope.

(** ** Machine integers

    A C integer of width [w] is a [Z]; the conversions below are the
    reductions the C types impose ([types.h]: [uchar], [ushort], [uint],
    [uint64], and the signed [int]). *)

Definition u8  (z : Z) : Z := z mod 2 ^ 8.
Definition u16 (z : Z) : Z := z mod 2 ^ 16.
Definition u32 (z : Z) : Z := z mod 2 ^ 32.
Definition u64 (z : Z) : Z := z mod 2 ^ 64.

(** Two's complement reading of the low 32 (or 16) bits. *)
Definition i32 (z : Z) : Z :=
  let w := u32 z in if w <? 2 ^ 31 then w else w - 2 ^ 32.
Definition i16 (z : Z) : Z :=
  let w := u16 z in if w <? 2 ^ 15 then w else w - 2 ^ 16.

(** ** Outcomes of kernel and user code

    A run of a C function over a state [S] ends in one of five ways:
    - [Ok a s]: it returns [a];
    - [Panic msg s]: it calls [panic(msg)], which never returns;
    - [Undef s]: it performs an access C leaves undefined (an array index out
      of range, a null dereference);
    - [Spin]: a loop did not finish within the iteration bound of the run;
    - [Sched s k]: the kernel thread switched to the scheduler ([swtch] in
      [sched]); [k] is what it does when the scheduler switches back. *)
Inductive res (S A : Type) : Type :=
| Ok (a : A) (s : S)
| Panic (msg : string) (s : S)
| Undef (s : S)
| Spin
| Sched (s : S) (k : S -> res S A).
Arguments Ok {S A} _ _.
Arguments Panic {S A} _ _.
Arguments Undef {S A} _.
Arguments Spin {S A}.
Arguments Sched {S A} _ _.

(** A computation takes the iteration bound of its loops and a state. *)
Definition K (S A : Type) : Type := nat -> S -> res S A.

Fixpoint bindr {S A B} (r : res S A) (f : A -> S -> res S B) : res S B :=
  match r with
  | Ok a s => f a s
  | Panic m s => Panic m s
  | Undef s => Undef s
  | Spin => Spin
  | Sched s k => Sched s (fun s' => bindr (k s') f)
  end.

#[export] Instance K_ret {S} : MRet (K S) := fun A a _ s => Ok a s.
#[export] Instance K_bind {S} : MBind (K S) :=
  fun A B f m n s => bindr (m n s) (fun a s' => f a n s').

Definition panic {S A} (msg : string) : K S A := fun _ s => Panic msg s.
Definition undef {S A} : K S A := fun _ s => Undef s.
(** A loop whose exit condition nothing in this run can make true. *)
Definition spin {S A} : K S A := fun _ _ => Spin.
Definition gets {S A} (f : S -> A) : K S A := fun _ s => Ok (f s) s.
Definition modify {S} (f : S -> S) : K S unit := fun _ s => Ok tt (f s).

(** [if(c) body;] *)
Definition when {S} (c : bool) (body : K S unit) : K S unit :=
  if c then body else mret tt.

(** ** Loops

    [loop body a] is [for(;;)] around [body]: an iteration either goes on with
    new loop variables ([inl]) or leaves the loop ([inr]). *)
Fixpoint loop_n {S A B} (j : nat) (body : A -> K S (A + B)) (a : A) : K S B :=
  fun n s =>
    match j with
    | O => Spin
    | S j' => bindr (body a n s) (fun r s' =>
                match r with
                | inl a' => loop_n j' body a' n s'
                | inr b => Ok b s'
                end)
    end.
Definition loop {S A B} (body : A -> K S (A + B)) (a : A) : K S B :=
  fun n s => loop_n n body a n s.

(** [for(x in l) f(x);] over a range known in advance. *)
Fixpoint for_each {S A} (l : list A) (f : A -> K S unit) : K S unit :=
  match l with
  | [] => mret tt
  | x :: l' => f x;; for_each l' f
  end.

(** The same with a [break] or [return] from the body. *)
Fixpoint for_exit {S A B} (l : list A) (f : A -> K S (option B)) : K S (option B) :=
  match l with
  | [] => mret None
  | x :: l' => r ← f x; match r with Some b => mret (Some b) | None => for_exit l' f end
  end.

(** A range whose iterations thread a local variable. *)
Fixpoint for_fold {S A B} (l : list A) (b : B) (f : B -> A -> K S B) : K S B :=
  match l with
  | [] => mret b
  | x :: l' => b' ← f b x; for_fold l' b' f
  end.

(** [0 .. n-1] as C [int]s. *)
Definition rangeZ (n : nat) : list Z := Z.of_nat <$> seq 0 n.

(** [a[i]] for reading: undefined outside the array. *)
Definition arr_get {S A} (l : list A) (i : Z) : K S A :=
  if i <? 0 then undef else
  match l !! Z.to_nat i with Some x => mret x | None => undef end.
Definition arr_ok {A} (l : list A) (i : Z) : bool :=
  (0 <=? i) && (i <? Z.of_nat (length l)).
Definition arr_set {A} (l : list A) (i : Z) (x : A) : list A := <[Z.to_nat i := x]> l.

(** ** Sub-states: a component that owns part of a larger state *)
Class Sub (S T : Type) := {
  sget : T -> S;
  sput : S -> T -> T;
  sget_sput : forall s t, sget (sput s t) = s;
  sput_sget : forall t, sput (sget t) t = t;
  sput_sput : forall s s' t, sput s (sput s' t) = sput s t;
}.

Fixpoint lift_res {S T A} `{!Sub S T} (r : res S A) (t : T) : res T A :=
  match r with
  | Ok a s => Ok a (sput s t)
  | Panic m s => Panic m (sput s t)
  | Undef s => Undef (sput s t)
  | Spin => Spin
  | Sched s k => Sched (sput s t) (fun t' => lift_res (k (sget t')) t')
  end.
Definition lift {S T A} `{!Sub S T} (m : K S A) : K T A :=
  fun n t => lift_res (m n (sget t)) t.

(** ** Boolean tests *)

(** Boolean tests of the code into propositions [lia] understands. *)
Ltac zbool :=
  repeat match goal with
  | H : andb _ _ = true |- _ => apply andb_prop in H as [? ?]
  | H : orb _ _ = false |- _ => apply orb_false_elim in H as [? ?]
  | H : andb _ _ = false |- _ => apply andb_false_iff in H
  | H : orb _ _ = true |- _ => apply orb_prop in H
  | H : negb _ = true |- _ => apply negb_true_iff in H
  | H : negb _ = false |- _ => apply negb_false_iff in H
  | H : (_ =? _) = true |- _ => apply Z.eqb_eq in H
  | H : (_ =? _) = false |- _ => apply Z.eqb_neq in H
  | H : (_ <? _) = true |- _ => apply Z.ltb_lt in H
  | H : (_ <? _) = false |- _ => apply Z.ltb_ge in H
  | H : (_ <=? _) = true |- _ => apply Z.leb_le in H
  | H : (_ <=? _) = false |- _ => apply Z.leb_gt in H
  end.

(** Case on every boolean test of the goal, discarding absurd branches. *)
Ltac cases_bool :=
  repeat (case_match; zbool; simplify_eq/=; try (exfalso; lia)).

(** ** Total correctness *)

(** [wp m n s Q]: run with loop bound [n] from [s], [m] returns and the result
    satisfies [Q]; it does not panic, spin, block or hit undefined behaviour. *)
Definition wp {S A} (m : K S A) (n : nat) (s : S) (Q : A -> S -> Prop) : Prop :=
  match m n s with Ok a s' => Q a s' | _ => False end.

Section wp_rules.
Context {S : Type}.
Implicit Types (s : S) (n : nat).

Lemma wp_ret {A} (a : A) n s (Q : A -> S -> Prop) : Q a s -> wp (mret a) n s Q.
Proof. done. Qed.

Lemma wp_bind {A B} (m : K S A) (f : A -> K S B) n s Q :
  wp m n s (fun a s' => wp (f a) n s' Q) -> wp (m ≫= f) n s Q.
Proof. rw /wp /mbind /K_bind. by destruct (m n s). Qed.

(** A computation in two parts, the first of them in two. *)
Lemma wp_nest {A B C} (m : K S A) (f : A -> K S B) (k : B -> K S C) n s R Q :
  wp (m ≫= f) n s R -> (forall b s', R b s' -> wp (k b) n s' Q) -> wp (m ≫= fun a => f a ≫= k) n s Q.
Proof. rw /wp /mbind /K_bind. destruct (m n s) as [a s1| | | |]; try done. cbn [bindr]. destruct (f a n s1); try done. intros HR Hk. by apply Hk. Qed.

Lemma wp_bind_inv {A B} (m : K S A) (f : A -> K S B) n s Q :
  wp (m ≫= f) n s Q -> wp m n s (fun a s' => wp (f a) n s' Q).
Proof. rw /wp /mbind /K_bind. by destruct (m n s). Qed.

Lemma wp_mono {A} (m : K S A) n s (P Q : A -> S -> Prop) :
  wp m n s P -> (forall a s', P a s' -> Q a s') -> wp m n s Q.
Proof. rw /wp. destruct (m n s); auto. Qed.

Lemma wp_run {A} (m : K S A) n s Q :
  wp m n s Q <-> exists a s', m n s = Ok a s' /\ Q a s'.
Proof.
  rw /wp. split; [|by intros (? & ? & -> & ?)].
  destruct (m n s); [eauto|done..].
Qed.

Lemma wp_gets {A} (f : S -> A) n s (Q : A -> S -> Prop) : Q (f s) s -> wp (gets f) n s Q.
Proof. done. Qed.

Lemma wp_modify f n s (Q : unit -> S -> Prop) : Q tt (f s) -> wp (modify f) n s Q.
Proof. done. Qed.

Lemma wp_arr_get {A} (l : list A) i x n s (Q : A -> S -> Prop) :
  0 <= i -> l !! Z.to_nat i = Some x -> Q x s -> wp (arr_get l i) n s Q.
Proof.
  intros Hi Hx HQ. rw /wp /arr_get. destruct (i <? 0) eqn:E; [zbool; lia|]. by rw Hx.
Qed.

(** Loop rule: an invariant and a variant below the bound. *)
Lemma wp_loop_n {A B} (I : A -> S -> Prop) (v : A -> S -> nat) (body : A -> K S (A + B))
    n (Q : B -> S -> Prop) :
  (forall a s, I a s -> wp (body a) n s (fun r s' =>
     match r with inl a' => I a' s' /\ (v a' s' < v a s)%nat | inr b => Q b s' end)) ->
  forall j a s, I a s -> (v a s < j)%nat -> wp (loop_n j body a) n s Q.
Proof.
  intros Hbody j. induction j as [|j IH]; intros a s HI Hv; [lia|].
  specialize (Hbody a s HI). rw /wp /= in Hbody |- *.
  destruct (body a n s) as [[a'|b] s'| | | |]; simpl in *; try done.
  destruct Hbody as [HI' Hv']. apply IH; [done | lia].
Qed.

Lemma wp_loop {A B} (I : A -> S -> Prop) (v : A -> S -> nat) (body : A -> K S (A + B))
    n a s (Q : B -> S -> Prop) :
  I a s -> (v a s < n)%nat ->
  (forall a s, I a s -> wp (body a) n s (fun r s' =>
     match r with inl a' => I a' s' /\ (v a' s' < v a s)%nat | inr b => Q b s' end)) ->
  wp (loop body a) n s Q.
Proof. intros. by eapply wp_loop_n. Qed.

(** The same with the invariant and variant on ghost data. *)
Lemma wp_loop_ghost {A B G} (I : G -> A -> S -> Prop) (v : G -> nat) (body : A -> K S (A + B))
    n g a s (Q : B -> S -> Prop) :
  I g a s -> (v g < n)%nat ->
  (forall g a s, I g a s -> wp (body a) n s (fun r s' =>
     match r with inl a' => exists g', I g' a' s' /\ (v g' < v g)%nat | inr b => Q b s' end)) ->
  wp (loop body a) n s Q.
Proof.
  intros HI Hv Hbody. rw /loop. enough (forall j g a s, I g a s -> (v g < j)%nat -> wp (loop_n j body a) n s Q) by eauto.
  clear g a s HI Hv. intros j. induction j as [|j IH]; intros g a s HI Hv; [lia|].
  specialize (Hbody g a s HI). rw /wp /= in Hbody |- *.
  destruct (body a n s) as [[a'|b] s'| | | |]; simpl in *; try done.
  destruct Hbody as (g' & HI' & Hv'). apply (IH g'); [done | lia].
Qed.

(** Range loops: an invariant indexed by the elements already visited. *)
Lemma wp_for_each {A} (I : list A -> S -> Prop) (l : list A) (f : A -> K S unit) n s
    (Q : unit -> S -> Prop) :
  I [] s ->
  (forall pre x rest s, l = pre ++ x :: rest -> I pre s ->
     wp (f x) n s (fun _ s' => I (pre ++ [x]) s')) ->
  (forall s, I l s -> Q tt s) -> wp (for_each l f) n s Q.
Proof.
  intros H0 Hstep HQ.
  enough (forall rest pre s, l = pre ++ rest -> I pre s ->
            wp (for_each rest f) n s Q) by (eapply (H l []); done).
  induction rest as [|x rest IH]; intros pre s' -> HI; simpl.
  - apply wp_ret, HQ. by rw app_nil_r.
  - apply wp_bind. eapply wp_mono; [by apply (Hstep pre x rest)|].
    intros ? s'' HI'. apply (IH (pre ++ [x])); [by rw -app_assoc | done].
Qed.

Lemma wp_for_fold {A B} (I : list A -> B -> S -> Prop) (l : list A) (f : B -> A -> K S B)
    b n s (Q : B -> S -> Prop) :
  I [] b s ->
  (forall pre x rest b s, l = pre ++ x :: rest -> I pre b s ->
     wp (f b x) n s (fun b' s' => I (pre ++ [x]) b' s')) ->
  (forall b s, I l b s -> Q b s) -> wp (for_fold l b f) n s Q.
Proof.
  intros H0 Hstep HQ.
  enough (forall rest pre b s, l = pre ++ rest -> I pre b s ->
            wp (for_fold rest b f) n s Q) by (eapply (H l []); done).
  induction rest as [|x rest IH]; intros pre b' s' -> HI; simpl.
  - apply wp_ret, HQ. by rw app_nil_r.
  - apply wp_bind. eapply wp_mono; [by apply (Hstep pre x rest)|].
    intros b'' s'' HI'. apply (IH (pre ++ [x])); [by rw -app_assoc | done].
Qed.

(** A scan that leaves at the first element on which the body answers. *)
Lemma wp_for_exit {A B} (l : list A) (f : A -> K S (option B)) n s
    (I : list A -> S -> Prop) (Q : option B -> S -> Prop) :
  I [] s ->
  (forall pre x rest s, l = pre ++ x :: rest -> I pre s ->
     wp (f x) n s (fun r s' =>
       match r with Some b => Q (Some b) s' | None => I (pre ++ [x]) s' end)) ->
  (forall s, I l s -> Q None s) -> wp (for_exit l f) n s Q.
Proof.
  intros H0 Hstep HQ.
  enough (forall rest pre s, l = pre ++ rest -> I pre s ->
            wp (for_exit rest f) n s Q) by (eapply (H l []); done).
  induction rest as [|x rest IH]; intros pre s' -> HI; simpl.
  - apply wp_ret, HQ. by rw app_nil_r.
  - apply wp_bind. eapply wp_mono; [by apply (Hstep pre x rest)|].
    intros [b|] s'' HI'; [by apply wp_ret|].
    apply (IH (pre ++ [x])); [by rw -app_assoc | done].
Qed.
End wp_rules.

Lemma wp_lift {S T A} `{!Sub S T} (m : K S A) n (t : T) (Q : A -> T -> Prop) :
  wp m n (sget t) (fun a s' => Q a (sput s' t)) -> wp (lift m) n t Q.
Proof. rw /wp /lift. by destruct (m n (sget t)). Qed.

Lemma lift_Ok {S T A} `{!Sub S T} (m : K S A) n (t : T) a s' :
  m n (sget t) = Ok a s' -> lift m n t = Ok a (sput s' t).
Proof. rw /lift. by intros ->. Qed.

(** ** Automation *)

(** The hint base of the development: the [wp] rules, the byte-memory lemmas
    and the arithmetic of pages register here. *)
Create HintDb xv6.
Create Rewrite HintDb xv6.
#[export] Hint Resolve wp_ret wp_gets wp_modify : xv6.

(** Peel the monadic structure off a [wp] goal. *)
Ltac wstep :=
  lazymatch goal with
  | |- wp (mbind _ _) _ _ _ => apply wp_bind
  | |- wp (mret _) _ _ _ => apply wp_ret
  | |- wp (gets _) _ _ _ => apply wp_gets
  | |- wp (modify _) _ _ _ => apply wp_modify
  | |- wp (when ?c _) _ _ _ => rw /when; destruct c eqn:?
  | |- wp (if ?c then _ else _) _ _ _ => destruct c eqn:?
  | |- wp (lift _) _ _ _ => apply wp_lift
  end; simpl.
Ltac wsteps := repeat wstep.

(** ** Arithmetic lemmas *)

Lemma u64_small z : 0 <= z < 2 ^ 64 -> u64 z = z.
Proof. apply Z.mod_small. Qed.
Lemma u32_small z : 0 <= z < 2 ^ 32 -> u32 z = z.
Proof. apply Z.mod_small. Qed.
Lemma u8_small z : 0 <= z < 2 ^ 8 -> u8 z = z.
Proof. apply Z.mod_small. Qed.
Lemma u64_range z : 0 <= u64 z < 2 ^ 64.
Proof. by apply Z.mod_pos_bound. Qed.
Lemma u32_range z : 0 <= u32 z < 2 ^ 32.
Proof. by apply Z.mod_pos_bound. Qed.
Lemma u8_range z : 0 <= u8 z < 2 ^ 8.
Proof. by apply Z.mod_pos_bound. Qed.
Lemma i32_small z : - 2 ^ 31 <= z < 2 ^ 31 -> i32 z = z.
Proof.
  intros Hz. rw /i32 /u32.
  destruct (Z.ltb_spec z 0) as [Hneg|Hpos].
  - replace (z mod 2 ^ 32) with (z + 2 ^ 32)
      by (apply (Z.mod_unique_pos _ _ (-1)); lia).
    case_match; zbool; lia.
  - rw Z.mod_small; [|lia]. case_match; zbool; lia.
Qed.
Lemma i32_range z : - 2 ^ 31 <= i32 z < 2 ^ 31.
Proof. pose proof (u32_range z). rw /i32. case_match; zbool; lia. Qed.
Lemma i32_mod z : i32 z mod 2 ^ 32 = z mod 2 ^ 32.
Proof.
  rw /i32 /u32. case_match; [by rw Z.mod_mod|].
  rw -(Z.mod_add (z mod 2 ^ 32 - 2 ^ 32) 1); [|lia].
  replace (z mod 2 ^ 32 - 2 ^ 32 + 1 * 2 ^ 32) with (z mod 2 ^ 32) by lia.
  by rw Z.mod_mod.
Qed.
#[export] Hint Resolve u64_range u32_range u8_range i32_range : xv6.

Lemma elem_of_rangeZ n i : i ∈ rangeZ n <-> 0 <= i < Z.of_nat n.
Proof.
  rw /rangeZ list_elem_of_fmap. setoid_rewrite elem_of_seq. split.
  - intros (y & -> & ?). lia.
  - intros Hi. exists (Z.to_nat i). lia.
Qed.

Lemma length_rangeZ n : length (rangeZ n) = n.
Proof. by rw /rangeZ length_fmap length_seq. Qed.

Lemma rangeZ_S n : rangeZ (S n) = rangeZ n ++ [Z.of_nat n].
Proof. by rw /rangeZ seq_S fmap_app. Qed.
Lemma rangeZ_lookup n i : (i < n)%nat -> rangeZ n !! i = Some (Z.of_nat i).
Proof. intros Hi. rw /rangeZ list_lookup_fmap lookup_seq_lt //. Qed.

Lemma arr_ok_spec {A} (l : list A) i :
  arr_ok l i = true <-> 0 <= i < Z.of_nat (length l).
Proof. rw /arr_ok andb_true_iff Z.leb_le Z.ltb_lt. lia. Qed.

(** Counted loops: an invariant indexed by the number of iterations done. *)
Lemma rangeZ_split N pre x rest :
  rangeZ N = pre ++ x :: rest -> x = Z.of_nat (length pre) /\ (length pre < N)%nat.
Proof.
  intros E. assert ((length pre < N)%nat) as Hlt.
  { rw -(length_rangeZ N) E length_app /=. lia. }
  split; [|done]. pose proof (rangeZ_lookup N (length pre) Hlt) as Hx.
  rw E list_lookup_middle // in Hx. by simplify_eq.
Qed.
Lemma wp_for_fold_range {S B} (I : nat -> B -> S -> Prop) N (f : B -> Z -> K S B) b n s
    (Q : B -> S -> Prop) :
  I O b s ->
  (forall i b s, (i < N)%nat -> I i b s ->
     wp (f b (Z.of_nat i)) n s (fun b' s' => I (Datatypes.S i) b' s')) ->
  (forall b s, I N b s -> Q b s) -> wp (for_fold (rangeZ N) b f) n s Q.
Proof.
  intros H0 Hs HQ. apply (wp_for_fold (fun pre => I (length pre))); [done| |].
  - intros pre x rest b' s' [-> Hlt]%rangeZ_split HI. rw length_app Nat.add_1_r. by apply Hs.
  - intros b' s'. rw length_rangeZ. apply HQ.
Qed.
Lemma wp_for_each_range {S} (I : nat -> S -> Prop) N (f : Z -> K S unit) n s
    (Q : unit -> S -> Prop) :
  I O s ->
  (forall i s, (i < N)%nat -> I i s ->
     wp (f (Z.of_nat i)) n s (fun _ s' => I (Datatypes.S i) s')) ->
  (forall s, I N s -> Q tt s) -> wp (for_each (rangeZ N) f) n s Q.
Proof.
  intros H0 Hs HQ. apply (wp_for_each (fun pre => I (length pre))); [done| |].
  - intros pre x rest s' [-> Hlt]%rangeZ_split HI. rw length_app Nat.add_1_r. by apply Hs.
  - intros s'. rw length_rangeZ. apply HQ.
Qed.

(** ** List lemmas *)

Lemma filter_all {A} (P : A -> Prop) `{!forall x, Decision (P x)} (l : list A) :
  (forall x, x ∈ l -> P x) -> filter P l = l.
Proof.
  induction l as [|x l IH]; intros Hl; [done|]. rw filter_cons_True; [|by apply Hl; left].
  f_equal. apply IH. intros y Hy. apply Hl. by right.
Qed.
Lemma alter_insert {A} (f : A -> A) (l : list A) i x :
  l !! i = Some x -> alter f i l = <[i := f x]> l.
Proof.
  intros Hx. apply list_eq. intros j. rw list_lookup_alter list_lookup_insert.
  destruct (decide (i = j)) as [->|]; [|rw decide_False //; by intros []].
  rw Hx /= decide_True //. split; [done|]. by apply lookup_lt_Some in Hx.
Qed.
Lemma alter_id_at {A} (f : A -> A) (l : list A) i x : l !! i = Some x -> f x = x -> alter f i l = l.
Proof. intros Hx Hf. by rw (alter_insert f l i x) // Hf list_insert_id. Qed.

Lemma elem_take {A} (l : list A) i k x : l !! i = Some x -> (i < k)%nat -> x ∈ take k l.
Proof. intros Hx Hi. apply list_elem_of_lookup. exists i. by rw lookup_take decide_True. Qed.
Lemma elem_take_mono {A} (l : list A) k k' x : (k <= k')%nat -> x ∈ take k l -> x ∈ take k' l.
Proof.
  intros Hk (i & Hi)%list_elem_of_lookup. rw lookup_take in Hi. case_decide; [|done].
  eapply elem_take; [done|lia].
Qed.
Lemma elem_take_in {A} (l : list A) k x : x ∈ take k l -> x ∈ l.
Proof. intros Hx. rw -(take_drop k l) elem_of_app. by left. Qed.
Lemma elem_drop_in {A} (l : list A) k x : x ∈ drop k l -> x ∈ l.
Proof. intros Hx. rw -(take_drop k l) elem_of_app. by right. Qed.
