(* ===== verification/Mem.v ===== *)
(** * Byte-addressed memory

    The RAM a C pointer addresses: a finite map from addresses to bytes, an
    address outside the map reading as zero.  A cell stands for its value
    modulo 256, so two maps that read the same everywhere ([≡ₘ]) are the same
    memory; multi-byte values are little endian, as on RISC-V.  Both the
    kernel ([string.c], [vm.c], [kalloc.c]) and the user programs work on it. *)

From S2P Require Import Prelude.

Abbreviation memory := (gmap Z Z).

(** ** Loads and stores *)

Definition ld8 (m : memory) (a : Z) : Z := u8 (default 0 (m !! a)).
Definition st8 (m : memory) (a v : Z) : memory := <[a := u8 v]> m.

(** [n]-byte little-endian load and store. *)
Fixpoint ldn (n : nat) (m : memory) (a : Z) : Z :=
  match n with
  | O => 0
  | S n' => ld8 m a + 256 * ldn n' m (a + 1)
  end.
Fixpoint stn (n : nat) (m : memory) (a v : Z) : memory :=
  match n with
  | O => m
  | S n' => stn n' (st8 m a v) (a + 1) (v / 256)
  end.

Abbreviation ld16 := (ldn 2).
Abbreviation ld32 := (ldn 4).
Abbreviation ld64 := (ldn 8).
Abbreviation st16 := (stn 2).
Abbreviation st32 := (stn 4).
Abbreviation st64 := (stn 8).

(** The [n] bytes from [a] on, and a sequence of bytes placed at [a]. *)
Definition peek (m : memory) (a : Z) (n : nat) : list Z :=
  (fun i => ld8 m (a + i)) <$> rangeZ n.
Fixpoint poke (m : memory) (a : Z) (bs : list Z) : memory :=
  match bs with
  | [] => m
  | b :: bs' => poke (st8 m a b) (a + 1) bs'
  end.

(** Same contents at every address. *)
Definition meq (m m' : memory) : Prop := forall a, ld8 m a = ld8 m' a.
Infix "≡ₘ" := meq (at level 70).

(** ** Properties *)

Section mem.
Implicit Types (m : memory) (a b v : Z).

Lemma ld8_range m a : 0 <= ld8 m a < 256.
Proof. apply u8_range. Qed.

Lemma ld8_empty a : ld8 ∅ a = 0.
Proof. by rw /ld8 lookup_empty. Qed.

Lemma ld8_st8 m a v b : ld8 (st8 m a v) b = if decide (a = b) then u8 v else ld8 m b.
Proof.
  rw /ld8 /st8 lookup_insert. case_decide; [|done].
  by rw /= /u8 Z.mod_mod.
Qed.
Lemma ld8_st8_eq m a v : ld8 (st8 m a v) a = u8 v.
Proof. by rw ld8_st8 decide_True. Qed.
Lemma ld8_st8_ne m a v b : a <> b -> ld8 (st8 m a v) b = ld8 m b.
Proof. intros. by rw ld8_st8 decide_False. Qed.

(** [≡ₘ] is an equivalence every access respects. *)
#[global] Instance meq_equivalence : Equivalence meq.
Proof.
  split; [by intros m a | by intros m m' H a | intros m1 m2 m3 H1 H2 a].
  by rw H1.
Qed.
#[global] Instance ld8_proper : Proper (meq ==> eq ==> eq) ld8.
Proof. by intros m m' H a ? <-. Qed.
#[global] Instance st8_proper : Proper (meq ==> eq ==> eq ==> meq) st8.
Proof. intros m m' H a ? <- v ? <- b. by rw !ld8_st8 H. Qed.
#[global] Instance ldn_proper n : Proper (meq ==> eq ==> eq) (ldn n).
Proof.
  induction n as [|n IH]; intros m m' H a ? <-; [done|]. simpl. by rw H.
Qed.
#[global] Instance stn_proper n : Proper (meq ==> eq ==> eq ==> meq) (stn n).
Proof.
  induction n as [|n IH]; intros m m' H a ? <- v ? <-; [done|]. simpl.
  apply IH; [|done..]. by rw H.
Qed.
#[global] Instance poke_proper : Proper (meq ==> eq ==> eq ==> meq) poke.
Proof.
  intros m m' H a ? <- bs ? <-. revert m m' a H.
  induction bs as [|b bs IH]; intros m m' a H; [done|]. simpl. apply IH. by rw H.
Qed.

Lemma ldn_range n m a : 0 <= ldn n m a < 256 ^ Z.of_nat n.
Proof.
  revert a; induction n as [|n IH]; intros a; simpl ldn; [done|].
  pose proof (ld8_range m a). specialize (IH (a + 1)).
  rw Nat2Z.inj_succ Z.pow_succ_r; lia.
Qed.
Lemma ld64_range m a : 0 <= ld64 m a < 2 ^ 64.
Proof. apply (ldn_range 8). Qed.
Lemma ld32_range m a : 0 <= ld32 m a < 2 ^ 32.
Proof. apply (ldn_range 4). Qed.

(** A load depends only on the bytes it covers. *)
Lemma ldn_ext n m m' a :
  (forall i, a <= i < a + Z.of_nat n -> ld8 m i = ld8 m' i) -> ldn n m a = ldn n m' a.
Proof.
  revert a; induction n as [|n IH]; intros a H; simpl; [done|].
  rw H; [|lia]. rw (IH (a + 1)) //. intros i Hi. apply H. lia.
Qed.

(** A store changes only the bytes it covers. *)
Lemma ld8_stn_out n m a v b :
  ~ (a <= b < a + Z.of_nat n) -> ld8 (stn n m a v) b = ld8 m b.
Proof.
  revert m a v; induction n as [|n IH]; intros m a v H; simpl; [done|].
  rw IH; [|lia]. rw ld8_st8_ne //. lia.
Qed.

Lemma ldn_stn_eq n m a v : ldn n (stn n m a v) a = v mod 256 ^ Z.of_nat n.
Proof.
  revert m a v; induction n as [|n IH]; intros m a v.
  { simpl. by rw Z.mod_1_r. }
  simpl stn. simpl ldn. rw IH ld8_stn_out; [|lia]. rw ld8_st8_eq.
  rw Nat2Z.inj_succ Z.pow_succ_r; [|lia].
  rw Z.rem_mul_r; [|done|by apply Z.pow_pos_nonneg; lia]. done.
Qed.
Lemma ld64_st64_eq m a v : ld64 (st64 m a v) a = u64 v.
Proof. apply (ldn_stn_eq 8). Qed.
Lemma ld32_st32_eq m a v : ld32 (st32 m a v) a = u32 v.
Proof. apply (ldn_stn_eq 4). Qed.

(** Loads and stores of disjoint ranges commute with each other. *)
Lemma ldn_stn_ne n k m a b v :
  a + Z.of_nat k <= b \/ b + Z.of_nat n <= a -> ldn n (stn k m a v) b = ldn n m b.
Proof. intros H. apply ldn_ext. intros i Hi. apply ld8_stn_out. lia. Qed.
Lemma ld64_st64_ne m a b v : a + 8 <= b \/ b + 8 <= a -> ld64 (st64 m a v) b = ld64 m b.
Proof. intros. by apply (ldn_stn_ne 8 8). Qed.

Lemma ld8_poke m a bs b :
  ld8 (poke m a bs) b =
    match (if decide (a <= b) then bs !! Z.to_nat (b - a) else None) with
    | Some x => u8 x
    | None => ld8 m b
    end.
Proof.
  revert m a; induction bs as [|x bs IH]; intros m a; simpl.
  { by case_decide. }
  rw IH ld8_st8. destruct (decide (a = b)) as [->|Hne].
  - rw decide_False; [|lia]. rw decide_True; [|lia]. by rw Z.sub_diag.
  - destruct (decide (a <= b)).
    + rw decide_True; [|lia].
      replace (Z.to_nat (b - a)) with (S (Z.to_nat (b - (a + 1)))) by lia. done.
    + by rw decide_False; [|lia].
Qed.

Lemma ld8_poke_in m a bs i x :
  bs !! i = Some x -> ld8 (poke m a bs) (a + Z.of_nat i) = u8 x.
Proof.
  intros Hx. rw ld8_poke decide_True; [|lia].
  replace (Z.to_nat (a + Z.of_nat i - a)) with i by lia. by rw Hx.
Qed.
Lemma ld8_poke_out m a bs b :
  ~ (a <= b < a + Z.of_nat (length bs)) -> ld8 (poke m a bs) b = ld8 m b.
Proof.
  intros H. rw ld8_poke. case_decide; [|done].
  by rw lookup_ge_None_2; [|lia].
Qed.

Lemma length_peek m a n : length (peek m a n) = n.
Proof. by rw /peek length_fmap length_rangeZ. Qed.
Lemma peek_lookup m a n i :
  (i < n)%nat -> peek m a n !! i = Some (ld8 m (a + Z.of_nat i)).
Proof. intros Hi. by rw /peek list_lookup_fmap rangeZ_lookup. Qed.
Lemma peek_ext m m' a n :
  (forall i, a <= i < a + Z.of_nat n -> ld8 m i = ld8 m' i) -> peek m a n = peek m' a n.
Proof.
  intros H. apply list_eq_same_length with n; [by rw length_peek..|].
  intros i x y Hi. rw !peek_lookup //. intros. simplify_eq. apply H. lia.
Qed.
Lemma peek_poke m a bs :
  Forall (fun b => 0 <= b < 256) bs -> peek (poke m a bs) a (length bs) = bs.
Proof.
  intros Hb. apply list_eq_same_length with (length bs); [done|by rw length_peek|].
  intros i x y Hi. rw peek_lookup //. intros Hx Hy. simplify_eq.
  rw (ld8_poke_in _ _ _ _ y) // u8_small //.
  by apply (Forall_lookup_1 _ _ _ _ Hb Hy).
Qed.
End mem.

#[export] Hint Resolve ld8_range ld64_range ld32_range : xv6.
#[export] Hint Rewrite ld8_st8_eq ld64_st64_eq ld32_st32_eq ld8_empty length_peek : xv6.

(** Unfold a multi-byte access only where a proof asks for it. *)
#[global] Arguments ldn : simpl never.
#[global] Arguments stn : simpl never.
Lemma ldn_S n m a : ldn (S n) m a = ld8 m a + 256 * ldn n m (a + 1).
Proof. done. Qed.
Lemma stn_S n m a v : stn (S n) m a v = stn n (st8 m a v) (a + 1) (v / 256).
Proof. done. Qed.
