(* ===== verification/KString.v ===== *)
(** * [kernel/string.c], [mymemmove] of [kernel/vm.c] and [strcmp] of
    [kernel/ringbuf.c]

    The [mem*] routines act on the byte memory, with the addresses the callers
    pass.  The [str*] routines act on character arrays: a [char *] is the list
    of the characters from the pointer to the end of its array, and reading
    past that end is [None].  [mymemmove] is the copy loop [copyin] and
    [copyout] use in place of [memmove]. *)

From S2P Require Import Prelude Mem.

(** ** Memory blocks *)

(** [for(i = 0; i < n; i++) cdst[i] = c;] with [k] iterations left. *)
Fixpoint memset_loop (k : nat) (i : Z) (m : memory) (dst c : Z) : memory :=
  match k with
  | O => m
  | S k' => memset_loop k' (i + 1) (st8 m (dst + i) c) dst c
  end.
Definition memset (m : memory) (dst c n : Z) : memory :=
  memset_loop (Z.to_nat (u32 n)) 0 m dst c.

(** Compare byte by byte, returning the first difference. *)
Fixpoint memcmp_loop (k : nat) (m : memory) (s1 s2 : Z) : Z :=
  match k with
  | O => 0
  | S k' =>
    if ld8 m s1 =? ld8 m s2 then memcmp_loop k' m (s1 + 1) (s2 + 1)
    else ld8 m s1 - ld8 m s2
  end.
Definition memcmp (m : memory) (v1 v2 n : Z) : Z := memcmp_loop (Z.to_nat (u32 n)) m v1 v2.

(** [while(n-- > 0) *d++ = *s++;] *)
Fixpoint copy_up (k : nat) (m : memory) (d s : Z) : memory :=
  match k with
  | O => m
  | S k' => copy_up k' (st8 m d (ld8 m s)) (d + 1) (s + 1)
  end.
(** [while(n-- > 0) *--d = *--s;] *)
Fixpoint copy_down (k : nat) (m : memory) (d s : Z) : memory :=
  match k with
  | O => m
  | S k' => copy_down k' (st8 m (d - 1) (ld8 m (s - 1))) (d - 1) (s - 1)
  end.
Definition memmove (m : memory) (dst src n : Z) : memory :=
  let n := u32 n in
  if (src <? dst) && (dst <? src + n) then copy_down (Z.to_nat n) m (dst + n) (src + n)
  else copy_up (Z.to_nat n) m dst src.
Definition memcpy (m : memory) (dst src n : Z) : memory := memmove m dst src n.

(** The word loop [while(n >= 8)]: a 64-bit load from [s1] stored at [d1], then
    [n-=8; s1+=8; d1+=8]; [k] is the number of words left. *)
Fixpoint copy_words (k : nat) (m : memory) (d s : Z) : memory :=
  match k with
  | O => m
  | S k' => copy_words k' (st64 m d (ld64 m s)) (d + 8) (s + 8)
  end.
Definition mymemmove (m : memory) (dst src n : Z) : memory :=
  let n := u32 n in
  let overlap := (src <? dst) && (dst <? src + n) in
  if (8 <=? n) && (Z.land src 7 =? 0) && (Z.land dst 7 =? 0) && negb overlap
  then copy_words (Z.to_nat (n / 8)) m dst src
  else if overlap then copy_down (Z.to_nat n) m (dst + n) (src + n)
  else copy_up (Z.to_nat n) m dst src.

(** ** Character strings *)

(** [strcmp] of [ringbuf.c] (and of [user/ulib.c]). *)
Fixpoint strcmp (p q : list Z) : option Z :=
  match p, q with
  | x :: p', y :: q' => if negb (x =? 0) && (x =? y) then strcmp p' q' else Some (x - y)
  | _, _ => None
  end.

(** [while(n > 0 && *p && *p == *q) n--, p++, q++; ...] *)
Fixpoint strncmp_loop (n : nat) (p q : list Z) : option Z :=
  match n with
  | O => Some 0
  | S n' =>
    match p, q with
    | x :: p', y :: q' =>
        if negb (x =? 0) && (x =? y) then strncmp_loop n' p' q' else Some (x - y)
    | _, _ => None
    end
  end.
Definition strncmp (p q : list Z) (n : Z) : option Z := strncmp_loop (Z.to_nat n) p q.

(** The characters [strncpy] writes: up to the NUL of [t], then padding. *)
Fixpoint strncpy_loop (n : nat) (t : list Z) : option (list Z) :=
  match n with
  | O => Some []
  | S n' =>
    match t with
    | [] => None
    | 0 :: _ => Some (replicate n 0)
    | x :: t' => cons x <$> strncpy_loop n' t'
    end
  end.
(** [strncpy(s, t, n)]: the new contents of the array [s]. *)
Definition strncpy (s t : list Z) (n : Z) : option (list Z) :=
  w ← strncpy_loop (Z.to_nat n) t;
  if (length w <=? length s)%nat then Some (w ++ drop (length w) s) else None.

(** The characters [safestrcpy] writes: at most [n-1] of [t], then the NUL. *)
Fixpoint safestrcpy_loop (n : nat) (t : list Z) : option (list Z) :=
  match n with
  | O => Some []
  | S O => Some [0]
  | S n' =>
    match t with
    | [] => None
    | 0 :: _ => Some [0; 0]
    | x :: t' => cons x <$> safestrcpy_loop n' t'
    end
  end.
Definition safestrcpy (s t : list Z) (n : Z) : option (list Z) :=
  if n <=? 0 then Some s else
  w ← safestrcpy_loop (Z.to_nat n) t;
  if (length w <=? length s)%nat then Some (w ++ drop (length w) s) else None.

(** [for(n = 0; s[n]; n++) ;] *)
Fixpoint strlen (s : list Z) : option Z :=
  match s with
  | [] => None
  | 0 :: _ => Some 0
  | _ :: s' => Z.succ <$> strlen s'
  end.

(** The C string an array holds: its characters before the first NUL. *)
Fixpoint cstr (s : list Z) : option (list Z) :=
  match s with
  | [] => None
  | 0 :: _ => Some []
  | x :: s' => cons x <$> cstr s'
  end.

(** The bytes of a string literal, with its terminating NUL. *)
Definition bytes_of_string (s : string) : list Z :=
  (fun c => Z.of_N (Ascii.N_of_ascii c)) <$> String.list_ascii_of_string s.
Definition cstring (s : string) : list Z := bytes_of_string s ++ [0].

(** Does [mymemmove] take its word loop? *)
Definition word_path (dst src n : Z) : bool :=
  (8 <=? n) && (Z.land src 7 =? 0) && (Z.land dst 7 =? 0) &&
  negb ((src <? dst) && (dst <? src + n)).

(** ** Effect of the memory routines *)

Section effects.
Implicit Types (m : memory) (a d s : Z).

Lemma ld8_memset_loop k i m d c a :
  ld8 (memset_loop k i m d c) a =
    if decide (d + i <= a < d + i + Z.of_nat k) then u8 c else ld8 m a.
Proof.
  revert i m; induction k as [|k IH]; intros i m; simpl.
  { by rw decide_False; [|lia]. }
  rw IH ld8_st8. repeat case_decide; try lia; done.
Qed.

(** Every byte of the block becomes [c], every other byte is kept. *)
Lemma ld8_memset m d c n a :
  0 <= n < 2 ^ 32 ->
  ld8 (memset m d c n) a = if decide (d <= a < d + n) then u8 c else ld8 m a.
Proof.
  intros Hn. rw /memset ld8_memset_loop u32_small //.
  repeat case_decide; try lia; done.
Qed.
Lemma ld8_memset_out m d c n a :
  0 <= n < 2 ^ 32 -> ~ (d <= a < d + n) -> ld8 (memset m d c n) a = ld8 m a.
Proof. intros. by rw ld8_memset // decide_False. Qed.
Lemma ldn_memset_out k m d c n a :
  0 <= n < 2 ^ 32 -> a + Z.of_nat k <= d \/ d + n <= a ->
  ldn k (memset m d c n) a = ldn k m a.
Proof. intros. apply ldn_ext. intros. apply ld8_memset_out; lia. Qed.
Lemma ldn_memset_0 k m d n a :
  0 <= n < 2 ^ 32 -> d <= a -> a + Z.of_nat k <= d + n -> ldn k (memset m d 0 n) a = 0.
Proof.
  intros Hn. revert a. induction k as [|k IH]; intros a Ha Hk; [done|].
  rw ldn_S IH; [|lia..]. rw ld8_memset // decide_True; [|lia]. done.
Qed.

(** Copying up is right unless the source starts strictly below an
    overlapping destination. *)
Lemma ld8_copy_up k m d s a :
  d <= s \/ s + Z.of_nat k <= d ->
  ld8 (copy_up k m d s) a =
    if decide (d <= a < d + Z.of_nat k) then ld8 m (s + (a - d)) else ld8 m a.
Proof.
  revert m d s; induction k as [|k IH]; intros m d s H; simpl.
  { by rw decide_False; [|lia]. }
  rw IH; [|lia]. repeat case_decide; try lia.
  - rw ld8_st8_ne; [|lia]. f_equal. lia.
  - replace a with d by lia. rw ld8_st8_eq Z.sub_diag Z.add_0_r u8_small; [done|].
    apply ld8_range.
  - rw ld8_st8_ne //. lia.
Qed.

(** Copying down is right unless the destination starts below an overlapping
    source; [d] and [s] are the ends of the blocks. *)
Lemma ld8_copy_down k m d s a :
  s <= d \/ d + Z.of_nat k <= s ->
  ld8 (copy_down k m d s) a =
    if decide (d - Z.of_nat k <= a < d) then ld8 m (s - (d - a)) else ld8 m a.
Proof.
  revert m d s; induction k as [|k IH]; intros m d s H; simpl.
  { by rw decide_False; [|lia]. }
  rw IH; [|lia]. repeat case_decide; try lia.
  - rw ld8_st8_ne; [|lia]. f_equal. lia.
  - replace a with (d - 1) by lia. rw ld8_st8_eq u8_small; [f_equal; lia|].
    apply ld8_range.
  - rw ld8_st8_ne //. lia.
Qed.

Lemma ld8_memmove m d s n a :
  0 <= n < 2 ^ 32 ->
  ld8 (memmove m d s n) a =
    if decide (d <= a < d + n) then ld8 m (s + (a - d)) else ld8 m a.
Proof.
  intros Hn. rw /memmove u32_small //. case_match; zbool.
  - rw ld8_copy_down; [|lia]. rw Z2Nat.id; [|lia].
    repeat case_decide; try lia; f_equal; lia.
  - rw ld8_copy_up; [|lia]. rw Z2Nat.id; [|lia]. done.
Qed.

(** Storing a loaded word is storing its bytes. *)
Lemma ld8_stn_ldn k m m' d s a :
  ld8 (stn k m d (ldn k m' s)) a =
    if decide (d <= a < d + Z.of_nat k) then ld8 m' (s + (a - d)) else ld8 m a.
Proof.
  revert m d s; induction k as [|k IH]; intros m d s; rw ?stn_S ?ldn_S.
  { by rw decide_False; [|lia]. }
  pose proof (ld8_range m' s) as Hr.
  replace ((ld8 m' s + 256 * ldn k m' (s + 1)) / 256) with (ldn k m' (s + 1))
    by (rw Z.mul_comm Z.div_add // Z.div_small //).
  rw IH ld8_st8. repeat case_decide; try lia; try done.
  - f_equal. lia.
  - subst a. rw Z.sub_diag Z.add_0_r /u8 Z.mul_comm Z.mod_add // Z.mod_small //.
Qed.

Lemma ld8_copy_words k m d s a :
  d <= s \/ s + 8 * Z.of_nat k <= d ->
  d mod 8 = 0 -> s mod 8 = 0 ->
  ld8 (copy_words k m d s) a =
    if decide (d <= a < d + 8 * Z.of_nat k) then ld8 m (s + (a - d)) else ld8 m a.
Proof.
  revert m d s; induction k as [|k IH]; intros m d s H Hd Hs; cbn [copy_words].
  { by rw decide_False; [|lia]. }
  rw IH; [|lia | rw -(Z.mod_add d 1 8) // in Hd | rw -(Z.mod_add s 1 8) // in Hs].
  assert (d <= s -> d = s \/ d + 8 <= s) as Hfar.
  { intros ?. apply Z.mod_divide in Hd as [x ->]; [|done].
    apply Z.mod_divide in Hs as [y ->]; [|done]. lia. }
  repeat case_decide; try lia; rw ld8_stn_ldn; repeat case_decide; try lia; try done.
  all: f_equal; lia.
Qed.
End effects.

Section mymemmove.
Implicit Types (m : memory) (a d s n : Z).

(** Bytes [mymemmove] transfers: the word loop stops at the last full word. *)
Definition moved (d s n : Z) : Z := if word_path d s n then 8 * (n / 8) else n.

Lemma land_7 z : Z.land z 7 = z mod 8.
Proof. apply (Z.land_ones z 3). lia. Qed.

Lemma ld8_mymemmove m d s n a :
  0 <= n < 2 ^ 32 ->
  ld8 (mymemmove m d s n) a =
    if decide (d <= a < d + moved d s n) then ld8 m (s + (a - d)) else ld8 m a.
Proof.
  intros Hn. rw /mymemmove /moved u32_small // -/(word_path d s n).
  destruct (word_path d s n) eqn:E.
  - rw /word_path !land_7 in E. zbool.
    assert (0 <= n / 8) by (apply Z.div_pos; lia).
    pose proof (Z.mul_div_le n 8).
    rw ld8_copy_words; [|lia..]. by rw Z2Nat.id.
  - case_match; zbool.
    + rw ld8_copy_down; [|lia]. rw Z2Nat.id; [|lia].
      repeat case_decide; try lia; f_equal; lia.
    + rw ld8_copy_up; [|lia]. by rw Z2Nat.id; [|lia].
Qed.

Lemma moved_le d s n : 0 <= n -> 0 <= moved d s n <= n.
Proof.
  intros Hn. rw /moved. case_match; [|lia].
  pose proof (Z.mul_div_le n 8). assert (0 <= n / 8) by (apply Z.div_pos; lia). lia.
Qed.
Lemma moved_full d s n : n mod 8 = 0 \/ n < 8 -> moved d s n = n.
Proof.
  rw /moved /word_path. intros H. case_match; [|done]. zbool.
  destruct H; [|lia]. rw {2}(Z.div_mod n 8) //. lia.
Qed.
Lemma mymemmove_out m d s n a :
  0 <= n < 2 ^ 32 -> ~ (d <= a < d + n) -> ld8 (mymemmove m d s n) a = ld8 m a.
Proof.
  intros Hn Ha. rw ld8_mymemmove // decide_False //. pose proof (moved_le d s n). lia.
Qed.
End mymemmove.

(** ** Strings *)

Section strings.
Implicit Types (p q s t a b : list Z).

Lemma strcmp_cstr p q a b :
  cstr p = Some a -> cstr q = Some b ->
  exists r, strcmp p q = Some r /\ (r = 0 <-> a = b).
Proof.
  revert q a b; induction p as [|x p IH]; intros [|y q] a b Ha Hb; try done.
  simpl in *. destruct (decide (x = 0)) as [->|Hx].
  - simplify_eq. eexists; split; [done|].
    destruct (decide (y = 0)) as [->|Hy]; simplify_eq/=; [done|].
    destruct y; [done|..]; destruct (cstr q); simplify_eq/=; split; (done || lia).
  - assert (exists a', cstr p = Some a' /\ a = x :: a') as (a' & Hp & ->).
    { destruct x; [done|..]; destruct (cstr p); simplify_eq/=; eauto. }
    rw (proj2 (Z.eqb_neq x 0)) //=.
    destruct (Z.eqb_spec x y) as [<-|Hxy].
    + assert (exists b', cstr q = Some b' /\ b = x :: b') as (b' & Hq & ->).
      { destruct x; [done|..]; destruct (cstr q); simplify_eq/=; eauto. }
      destruct (IH q a' b') as (r & -> & Hr); [done..|].
      eexists; split; [done|]. rw Hr. split; [by intros -> | by intros [= ->]].
    + eexists; split; [done|]. split; [lia|]. intros <-. exfalso.
      destruct y; [done|..]; destruct (cstr q); simplify_eq/=; lia.
Qed.

Lemma cstr_app_nul a s : Forall (fun x => x <> 0) a -> cstr (a ++ 0 :: s) = Some a.
Proof.
  induction 1 as [|x a Hx Ha IH]; simpl; [done|]. rw IH. by destruct x.
Qed.
Lemma cstr_nonzero s a : cstr s = Some a -> Forall (fun x => x <> 0) a.
Proof.
  revert a; induction s as [|x s IH]; intros a; simpl; [done|].
  destruct x; [by intros [= <-]|..]; destruct (cstr s) eqn:E; intros [= <-];
    constructor; (done || by apply IH).
Qed.
Lemma cstr_length s a : cstr s = Some a -> (length a < length s)%nat.
Proof.
  revert a; induction s as [|x s IH]; intros a; simpl; [done|].
  destruct x; [intros [= <-]; simpl; lia|..]; destruct (cstr s) eqn:E; intros [= <-];
    specialize (IH _ eq_refl); simpl; lia.
Qed.

(** What [safestrcpy] writes: the string cut to [n-1] characters, a NUL, and
    a second NUL when the string is shorter than [n-1]. *)
Lemma safestrcpy_loop_spec n t a :
  cstr t = Some a ->
  exists z, safestrcpy_loop (S n) t = Some (take n a ++ z) /\
            (z = [0] \/ z = [0; 0]) /\ (length (take n a ++ z) <= S n)%nat.
Proof.
  revert t a; induction n as [|n IH]; intros t a Ha.
  { exists [0]. by rw take_0; auto. }
  destruct t as [|x t]; [done|]. simpl in Ha.
  destruct (decide (x = 0)) as [->|Hx].
  { simplify_eq. exists [0; 0]. rw take_nil. simpl. split_and!; [done|auto|lia]. }
  assert (exists a', cstr t = Some a' /\ a = x :: a') as (a' & Ht & ->).
  { destruct x; [done|..]; destruct (cstr t); simplify_eq/=; eauto. }
  destruct (IH t a' Ht) as (z & Hz & Hz' & Hlen). exists z. split_and!; [|done|].
  - simpl in Hz |- *. rw Hz. by destruct x.
  - simpl in *. lia.
Qed.

(** [safestrcpy] into a large enough array: it never writes beyond [n]
    characters and leaves the source cut to [n-1] characters. *)
Lemma safestrcpy_ok s t a n :
  cstr t = Some a -> 0 < n -> n <= Z.of_nat (length s) ->
  exists s', safestrcpy s t n = Some s' /\ cstr s' = Some (take (Z.to_nat (n - 1)) a) /\
             length s' = length s /\ drop (Z.to_nat n) s' = drop (Z.to_nat n) s.
Proof.
  intros Ha Hn Hlen. rw /safestrcpy. case_match; zbool; [lia|].
  destruct (safestrcpy_loop_spec (Z.to_nat (n - 1)) t a Ha) as (z & Hz & Hz' & Hl).
  replace (Z.to_nat n) with (S (Z.to_nat (n - 1))) by lia. rw Hz /=.
  rw (proj2 (Nat.leb_le _ _)); [|lia]. eexists; split; [done|].
  assert (Forall (fun x => x <> 0) (take (Z.to_nat (n - 1)) a)) as Hnz.
  { by apply Forall_take, (cstr_nonzero t). }
  split_and!.
  - rw -app_assoc. destruct Hz' as [-> | ->]; by apply cstr_app_nul.
  - rw length_app length_drop. lia.
  - rw drop_app_ge; [|lia]. rw drop_drop. f_equal. lia.
Qed.

Lemma strlen_cstr s a : cstr s = Some a -> strlen s = Some (Z.of_nat (length a)).
Proof.
  revert a; induction s as [|x s IH]; intros a; simpl; [done|].
  destruct x; [by intros [= <-]|..]; destruct (cstr s) eqn:E; intros [= <-];
    rw (IH _ eq_refl) /=; f_equal; lia.
Qed.

(** [strncpy] writes exactly [n] characters: the string cut to [n], then NULs. *)
Lemma strncpy_loop_spec n t a :
  cstr t = Some a ->
  strncpy_loop n t = Some (take n a ++ replicate (n - length a) 0).
Proof.
  revert t a; induction n as [|n IH]; intros t a Ha; [done|].
  destruct t as [|x t]; [done|]. simpl in Ha.
  destruct (decide (x = 0)) as [->|Hx]; [by simplify_eq|].
  assert (exists a', cstr t = Some a' /\ a = x :: a') as (a' & Ht & ->).
  { destruct x; [done|..]; destruct (cstr t); simplify_eq/=; eauto. }
  simpl. rw (IH t a' Ht). by destruct x.
Qed.

(** [strncmp] looks at no more than [n] characters. *)
Lemma strncmp_cstr p q a b n :
  cstr p = Some a -> cstr q = Some b ->
  exists r, strncmp_loop n p q = Some r /\ (r = 0 <-> take n a = take n b).
Proof.
  revert p q a b; induction n as [|n IH]; intros p q a b Ha Hb.
  { exists 0. by rw !take_0. }
  destruct p as [|x p]; [done|]. destruct q as [|y q]; [done|]. simpl in *.
  assert (forall z (s : list Z) c, z <> 0 ->
            match z with 0 => Some [] | _ => cons z <$> cstr s end = Some c ->
            exists c', cstr s = Some c' /\ c = z :: c') as Hinv.
  { intros z s c Hz. destruct z; [done|..]; destruct (cstr s); intros; simplify_eq/=; eauto. }
  destruct (decide (x = 0)) as [->|Hx]; simpl.
  - simplify_eq. eexists; split; [done|].
    destruct (decide (y = 0)) as [->|Hy]; simplify_eq/=; [done|].
    apply Hinv in Hb as (b' & _ & ->); [|done]. simpl. split; (lia || done).
  - rw (proj2 (Z.eqb_neq x 0)) //=. apply Hinv in Ha as (a' & Hp & ->); [|done].
    destruct (Z.eqb_spec x y) as [<-|Hxy].
    + apply Hinv in Hb as (b' & Hq & ->); [|done].
      destruct (IH p q a' b') as (r & -> & Hr); [done..|].
      eexists; split; [done|]. simpl. rw Hr. split; [by intros ->|by intros [= ->]].
    + eexists; split; [done|]. split; [lia|]. intros He. exfalso.
      destruct (decide (y = 0)) as [->|Hy]; simplify_eq/=.
      apply Hinv in Hb as (b' & _ & ->); [|done]. simpl in He. by simplify_eq.
Qed.
End strings.

(** Clients reason with the lemmas above, not by running the loops. *)
#[global] Opaque memset memmove mymemmove.
