(* ===== verification/Spinlock.v ===== *)
(** * [kernel/spinlock.c]

    The spin locks of the kernel and the interrupt nesting of a hart.  The
    state is what one hart sees: the locked locks with their owners (the
    [locked] and [cpu] fields of every [struct spinlock]), its own number
    ([tp]) and its [struct cpu] fields [noff] and [intena] together with the
    [SIE] bit of [sstatus].  [acquire] on a lock another hart holds spins. *)

From S2P Require Import Prelude.

(** The spin locks of the kernel. *)
Inductive lockid : Type :=
| L_kmem                 (* kalloc.c: kmem.lock *)
| L_pid                  (* proc.c: pid_lock *)
| L_wait                 (* proc.c: wait_lock *)
| L_proc (i : nat)       (* proc.c: proc[i].lock *)
| L_ringbuf              (* ringbuf.c: ringbuf_lock *)
| L_ticks                (* trap.c: tickslock *)
| L_ftable               (* file.c: ftable.lock *)
| L_pipe (pi : Z)        (* pipe.c: pi->lock *)
| L_bcache               (* bio.c: bcache.lock *)
| L_buf (i : nat)        (* bio.c: bcache.buf[i].lock.lk *)
| L_icache               (* fs.c: icache.lock *)
| L_inode (i : nat)      (* fs.c: icache.inode[i].lock.lk *)
| L_log                  (* log.c: log.lock *)
| L_cons                 (* console.c: cons.lock *)
| L_uart                 (* uart.c: uart_tx_lock *)
| L_pr                   (* printf.c: pr.lock *)
| L_vdisk.               (* virtio_disk.c: disk.vdisk_lock *)
#[export] Instance lockid_eq_dec : EqDecision lockid.
Proof. solve_decision. Defined.

Record lstate := LState {
  locks : list (lockid * nat);   (* the locked locks and the harts holding them *)
  hart : nat;                    (* cpuid() *)
  noff : Z;                      (* mycpu()->noff *)
  intena : bool;                 (* mycpu()->intena *)
  sie : bool;                    (* SSTATUS_SIE *)
}.

Definition set_locks (x : list (lockid * nat)) (l : lstate) : lstate :=
  LState x (hart l) (noff l) (intena l) (sie l).
Definition set_noff (x : Z) (l : lstate) : lstate :=
  LState (locks l) (hart l) x (intena l) (sie l).
Definition set_intena (x : bool) (l : lstate) : lstate :=
  LState (locks l) (hart l) (noff l) x (sie l).
Definition set_sie (x : bool) (l : lstate) : lstate :=
  LState (locks l) (hart l) (noff l) (intena l) x.

(** riscv.h *)
Definition intr_on : K lstate unit := modify (set_sie true).
Definition intr_off : K lstate unit := modify (set_sie false).
Definition intr_get : K lstate bool := gets sie.

Definition push_off : K lstate unit :=
  old ← intr_get;
  intr_off;;
  n ← gets noff;
  when (n =? 0) (modify (set_intena old));;
  modify (fun l => set_noff (noff l + 1) l).

Definition pop_off : K lstate unit :=
  on ← intr_get;
  if on : bool then panic "pop_off - interruptible" else
  n ← gets noff;
  if n <? 1 then panic "pop_off" else
  modify (set_noff (n - 1));;
  n ← gets noff; ena ← gets intena;
  when ((n =? 0) && ena) intr_on.

(** [lk->locked && lk->cpu == mycpu()] *)
Definition held (lk : lockid) (l : lstate) : bool := bool_decide ((lk, hart l) ∈ locks l).
Definition holding_ (lk : lockid) : K lstate bool := gets (held lk).

(** [lk->locked], by whichever hart *)
Definition locked (lk : lockid) (l : lstate) : bool := bool_decide (lk ∈ (locks l).*1).

Definition acquire_ (lk : lockid) : K lstate unit :=
  push_off;;
  h ← holding_ lk;
  if h : bool then panic "acquire" else
  b ← gets (locked lk);
  if b : bool then spin   (* while(__sync_lock_test_and_set(...) != 0) ; *)
  else modify (fun l => set_locks ((lk, hart l) :: locks l) l).

Definition release_ (lk : lockid) : K lstate unit :=
  h ← holding_ lk;
  if negb h then panic "release" else
  modify (fun l => set_locks (filter (fun x => x.1 <> lk) (locks l)) l);;
  pop_off.

(** The same operations on any state that has the locks. *)
Definition acquire {T} `{!Sub lstate T} (lk : lockid) : K T unit := lift (acquire_ lk).
Definition release {T} `{!Sub lstate T} (lk : lockid) : K T unit := lift (release_ lk).
Definition holding {T} `{!Sub lstate T} (lk : lockid) : K T bool := lift (holding_ lk).

#[global] Arguments acquire : simpl never.
#[global] Arguments release : simpl never.
#[global] Arguments holding : simpl never.

(** ** Invariant of a hart *)

(** Owners are unique, [noff] counts at least the locks the hart holds,
    interrupts are off inside a critical section, and outside one [intena]
    records the interrupt state. *)
Definition my_locks (l : lstate) : list (lockid * nat) :=
  filter (fun x => x.2 = hart l) (locks l).
Record lk_ok (l : lstate) : Prop := {
  lk_nodup : NoDup (locks l).*1;
  lk_noff : Z.of_nat (length (my_locks l)) <= noff l;
  lk_sie : 0 < noff l -> sie l = false;
  lk_ena : noff l = 0 -> intena l = sie l;
}.

(** The effect of [acquire] on a free lock and of [release] on a held one. *)
Definition lk_acq (lk : lockid) (l : lstate) : lstate :=
  LState ((lk, hart l) :: locks l) (hart l) (noff l + 1)
    (if noff l =? 0 then sie l else intena l) false.
Definition lk_rel (lk : lockid) (l : lstate) : lstate :=
  LState (filter (fun x => x.1 <> lk) (locks l)) (hart l) (noff l - 1) (intena l)
    ((noff l =? 1) && intena l).

Section spinlock.
Implicit Types (l : lstate) (lk : lockid).

Lemma locked_false lk l : locked lk l = false <-> lk ∉ (locks l).*1.
Proof. by rw /locked bool_decide_eq_false. Qed.
Lemma held_locked lk l : held lk l = true -> locked lk l = true.
Proof.
  rw /held /locked !bool_decide_eq_true. intros H.
  apply list_elem_of_fmap. by exists (lk, hart l).
Qed.
Lemma held_acq lk l : held lk (lk_acq lk l) = true.
Proof. rw /held bool_decide_eq_true /=. left. Qed.

Lemma noff_nonneg l : lk_ok l -> 0 <= noff l.
Proof. intros [_ H _ _]. lia. Qed.

Lemma acquire_run lk l n :
  lk_ok l -> locked lk l = false -> acquire_ lk n l = Ok tt (lk_acq lk l).
Proof.
  intros Hok Hf. destruct l as [lks h nf ie si].
  rw /acquire_ /push_off /lk_acq /= /mbind /K_bind /=.
  assert (held lk (LState lks h nf ie si) = false) as Hh.
  { apply not_true_is_false. intros Hh%held_locked. congruence. }
  rw /when. destruct (nf =? 0) eqn:E; rw /= /holding_ /gets /=;
    rw /held /locked /= in Hh Hf |- *; by rw Hh Hf.
Qed.

Lemma release_run lk l n :
  lk_ok l -> 0 < noff l -> held lk l = true -> release_ lk n l = Ok tt (lk_rel lk l).
Proof.
  intros Hok Hn Hh. pose proof (lk_sie l Hok Hn) as Hs.
  rw /release_ /mbind /K_bind /= Hh /=. rw /pop_off /mbind /K_bind /= Hs /=.
  destruct (noff l <? 1) eqn:E; [zbool; lia|]. rw /lk_rel /= /when /set_noff /set_locks /=.
  replace (noff l - 1 =? 0) with (noff l =? 1) by (destruct (Z.eqb_spec (noff l) 1),
    (Z.eqb_spec (noff l - 1) 0); lia || done).
  destruct ((noff l =? 1) && intena l); by rw /set_sie /= ?Hs.
Qed.

(** Leaving a critical section restores the lock state it was entered in. *)
Lemma rel_acq lk l : lk_ok l -> locked lk l = false -> lk_rel lk (lk_acq lk l) = l.
Proof.
  intros Hok Hf. destruct l as [lks h nf ie si]. rw /lk_rel /lk_acq /=.
  pose proof (noff_nonneg _ Hok) as Hn. simpl in Hn. apply locked_false in Hf. simpl in Hf.
  rw filter_cons_False /=; [|naive_solver].
  rw filter_all; last first.
  { intros [k v] Hin Hk. simpl in Hk. subst k. apply Hf, list_elem_of_fmap. by exists (lk, v). }
  destruct Hok as [_ _ Hs He]. simpl in *. f_equal; [lia|..].
  - destruct (Z.eqb_spec nf 0); [|done]. by rw He.
  - destruct (Z.eqb_spec nf 0) as [->|Hne]; simpl; [done|].
    rw (proj2 (Z.eqb_neq _ _)); [|lia]. by rw Hs; [|lia].
Qed.

Lemma lk_acq_ok lk l : lk_ok l -> locked lk l = false -> lk_ok (lk_acq lk l).
Proof.
  intros Hok Hf. pose proof (noff_nonneg _ Hok). destruct Hok as [Hd Hn Hs He].
  apply locked_false in Hf. split; simpl.
  - by constructor.
  - rw /my_locks /= filter_cons_True //=. rw /my_locks in Hn. lia.
  - done.
  - lia.
Qed.

Lemma lk_rel_ok lk l :
  lk_ok l -> 0 < noff l -> held lk l = true -> lk_ok (lk_rel lk l).
Proof.
  intros Hok H0 Hh. destruct Hok as [Hd Hn Hs He]. rw /held bool_decide_eq_true in Hh.
  split; simpl.
  - eapply sublist_NoDup; [exact Hd|]. apply fmap_sublist, sublist_filter.
  - enough (length (my_locks (lk_rel lk l)) < length (my_locks l))%nat
      by (simpl in *; lia).
    rw /my_locks /=. rw list_filter_filter.
    apply list_elem_of_split in Hh as (l1 & l2 & El). rw El.
    rw !filter_app !length_app (filter_cons_False (fun a => a.2 = hart l /\ a.1 <> lk));
      [|by intros [_ Hne]].
    rw filter_cons_True //=.
    assert (forall xs : list (lockid * nat),
      (length (filter (fun x => x.2 = hart l /\ x.1 <> lk) xs) <=
       length (filter (fun x => x.2 = hart l) xs))%nat) as Hle.
    { intros xs. induction xs as [|x xs IH]; [done|]. rw !filter_cons.
      repeat case_decide; simpl; lia || tauto. }
    pose proof (Hle l1). pose proof (Hle l2). lia.
  - intros. rw (proj2 (Z.eqb_neq _ _)) //. lia.
  - intros ?. rw (proj2 (Z.eqb_eq _ _)) //. lia.
Qed.
End spinlock.

#[export] Hint Resolve lk_acq_ok lk_rel_ok held_acq noff_nonneg : xv6.
