(* ===== verification/Machine.v ===== *)
(** * Machine state and memory layout

    The constants of [kernel/param.h], [kernel/memlayout.h] and
    [kernel/riscv.h], the symbols the linker provides, and the part of the
    kernel state the memory subsystem works on: RAM, the head of the free-page
    list, the locks, and the bytes sent to the console. *)

From S2P Require Import Prelude Mem KString Spinlock.

(** ** Constants *)

Definition PGSIZE : Z := 4096.
Definition PGSHIFT : Z := 12.
Definition PGROUNDUP (sz : Z) : Z := Z.land (u64 (sz + PGSIZE - 1)) (u64 (Z.lnot (PGSIZE - 1))).
Definition PGROUNDDOWN (a : Z) : Z := Z.land a (u64 (Z.lnot (PGSIZE - 1))).
Definition MAXVA : Z := Z.shiftl 1 (9 + 9 + 9 + 12 - 1).
Definition KERNBASE : Z := 0x80000000.
Definition PHYSTOP : Z := KERNBASE + 128 * 1024 * 1024.
Definition TRAMPOLINE : Z := MAXVA - PGSIZE.
Definition TRAPFRAME : Z := TRAMPOLINE - PGSIZE.
Definition KSTACK (p : Z) : Z := TRAMPOLINE - (p + 1) * 2 * PGSIZE.
Definition UART0 : Z := 0x10000000.
Definition VIRTIO0 : Z := 0x10001000.
Definition PLIC : Z := 0x0c000000.

Definition NPROC : nat := 64.
Definition NOFILE : nat := 16.
Definition NFILE : nat := 100.
Definition NINODE : nat := 50.
Definition NDEV : Z := 10.
Definition ROOTDEV : Z := 1.
Definition MAXARG : nat := 32.
Definition MAXOPBLOCKS : Z := 10.
Definition LOGSIZE : Z := MAXOPBLOCKS * 3.
Definition NBUF : nat := 30.
Definition MAXPATH : Z := 128.

(** Kernel objects whose addresses the code takes: stack variables, static
    arrays, functions. *)
Inductive kname : Type :=
| O_c            (* consolewrite: c *)
| O_cbuf         (* consoleread: cbuf *)
| O_ch           (* pipewrite, piperead: ch *)
| O_xstate       (* wait: np->xstate *)
| O_vabuf        (* createbuf: ringbufs[i].vabuf *)
| O_data         (* fs.c: bp->data *)
| O_de           (* fs.c, sysfile.c: de *)
| O_st           (* filestat: st *)
| O_elf          (* exec: elf *)
| O_ph           (* exec: ph *)
| O_ustack       (* exec: ustack *)
| O_ip           (* fetchaddr: the word fetched *)
| O_fd0          (* sys_pipe: fd0 *)
| O_fd1          (* sys_pipe: fd1 *)
| O_buf          (* sys_createbuf, sys_closebuf: buf *)
| O_initcode     (* userinit: initcode *)
| O_bcache       (* bio.c: bcache.buf[0].data *)
| O_disk_pages   (* virtio_disk.c: disk.pages *)
| O_disk_ops     (* virtio_disk.c: disk.ops *)
| O_disk_info    (* virtio_disk.c: disk.info *)
| O_forkret      (* code: forkret *)
| O_kernelvec    (* code: kernelvec *)
| O_uservec      (* code: uservec *)
| O_usertrap.    (* code: usertrap *)
#[export] Instance kname_eq_dec : EqDecision kname.
Proof. solve_decision. Defined.

Definition all_knames : list kname :=
  [O_c; O_cbuf; O_ch; O_xstate; O_vabuf; O_data; O_de; O_st; O_elf; O_ph; O_ustack; O_ip; O_fd0; O_fd1; O_buf; O_initcode; O_bcache; O_disk_pages; O_disk_ops; O_disk_info; O_forkret; O_kernelvec; O_uservec; O_usertrap].
(** The position of an object in that list. *)
Definition kindex (o : kname) : Z :=
  match list_find (fun x => x = o) all_knames with Some (i, _) => Z.of_nat i | None => 0 end.
Lemma kindex_range o : 0 <= kindex o < 24.
Proof. by destruct o. Qed.
Lemma kindex_inj o o' : kindex o = kindex o' -> o = o'.
Proof. by destruct o, o'. Qed.

(** Addresses fixed when the kernel is linked ([kernel.ld]); the model is
    parametric in them. *)
Class Layout := {
  kend : Z;            (* end[]: first address after the kernel *)
  etext : Z;           (* etext[]: end of the kernel's code *)
  trampoline : Z;      (* trampoline[]: the trampoline page *)
  kobj : kname -> Z;   (* address of a kernel object; at most a page of it is used *)
  etext_lo : KERNBASE <= etext;
  etext_kend : etext <= kend;
  kend_hi : kend <= PHYSTOP;
  kobj_out : forall o, 0 < kobj o /\ (kobj o + PGSIZE <= kend \/ PHYSTOP <= kobj o);
  kobj_align : forall o, kobj o mod 8 = 0;
  kobj_hi : forall o, kobj o + PGSIZE <= MAXVA;
  kobj_apart : forall o o', o <> o' -> kobj o + PGSIZE <= kobj o' \/ kobj o' + PGSIZE <= kobj o;
}.

(** A layout with 64 free pages, for evaluating the model on concrete runs. *)
Definition small_layout : Layout.
Proof.
  refine {| kend := PHYSTOP - 64 * PGSIZE; etext := KERNBASE + 8 * PGSIZE;
            trampoline := KERNBASE + 7 * PGSIZE; kobj := fun o => KERNBASE + (16 + kindex o) * PGSIZE |}; [by vm_compute..| | | |].
  - intros o. pose proof (kindex_range o). split; [|left]; rw /PHYSTOP /KERNBASE /PGSIZE; lia.
  - intros o. rw /KERNBASE /PGSIZE. replace (0x80000000 + (16 + kindex o) * 4096) with
      ((0x10000000 + (16 + kindex o) * 512) * 8) by lia. by apply Z.mod_mul.
  - intros o. pose proof (kindex_range o). change MAXVA with (2 ^ 38). rw /KERNBASE /PGSIZE. lia.
  - intros o o' Hne. assert (kindex o <> kindex o') by (intros E; apply Hne, kindex_inj, E).
    rw /PGSIZE. lia.
Defined.

(** ** State *)

Record mstate := MState {
  mem : memory;        (* RAM *)
  freelist : Z;        (* kalloc.c: kmem.freelist *)
  lk : lstate;         (* spin locks and interrupt state *)
  out : list Z;        (* characters sent to the UART, oldest first *)
  prlocking : bool;    (* printf.c: pr.locking *)
}.
Definition set_mem (x : memory) (s : mstate) : mstate :=
  MState x (freelist s) (lk s) (out s) (prlocking s).
Definition set_freelist (x : Z) (s : mstate) : mstate :=
  MState (mem s) x (lk s) (out s) (prlocking s).
Definition set_lk (x : lstate) (s : mstate) : mstate :=
  MState (mem s) (freelist s) x (out s) (prlocking s).
Definition set_out (x : list Z) (s : mstate) : mstate :=
  MState (mem s) (freelist s) (lk s) x (prlocking s).

#[export] Instance sub_lstate_mstate : Sub lstate mstate.
Proof.
  refine {| sget := lk; sput := set_lk |}; [done | by intros [] | done].
Defined.

(** Loads and stores through kernel pointers. *)
Definition load64 (a : Z) : K mstate Z := gets (fun s => ld64 (mem s) a).
Definition store64 (a v : Z) : K mstate unit := modify (fun s => set_mem (st64 (mem s) a v) s).
Definition memset_m (d c n : Z) : K mstate unit :=
  modify (fun s => set_mem (memset (mem s) d c n) s).

(** The lock state of a machine state is fit for taking [lk]. *)
Definition free_lock (k : lockid) (s : mstate) : Prop :=
  lk_ok (lk s) /\ locked k (lk s) = false.

(** ** Page arithmetic *)

(** Page-aligned addresses in the range the allocator manages. *)
Definition page_ok `{!Layout} (p : Z) : Prop := p mod PGSIZE = 0 /\ kend <= p < PHYSTOP.

(** [lia] on goals that mention the layout constants. *)
Ltac pglia := unfold TRAPFRAME, TRAMPOLINE, PHYSTOP, KERNBASE, PGSIZE in *; lia.

Section pages.
Context {lay : Layout}.

Lemma land_pgmask z : 0 <= z < 2 ^ 64 -> Z.land z (u64 (Z.lnot (PGSIZE - 1))) = z - z mod PGSIZE.
Proof.
  intros Hz. change (u64 (Z.lnot (PGSIZE - 1))) with (Z.shiftl (Z.ones 52) 12).
  replace (z - z mod PGSIZE) with (Z.shiftl (Z.shiftr z 12) 12).
  - apply Z.bits_inj'. intros n Hn. rw Z.land_spec.
    destruct (decide (n < 12)).
    + rw !Z.shiftl_spec_low; [|lia..]. by rw andb_false_r.
    + rw (Z.shiftl_spec (Z.ones 52)) 1?(Z.shiftl_spec (Z.shiftr z 12)); [|lia..].
      rw Z.shiftr_spec; [|lia].
      replace (n - 12 + 12) with n by lia.
      destruct (decide (n < 64)).
      * rw Z.ones_spec_low; [|lia]. by rw andb_true_r.
      * rw Z.ones_spec_high; [|lia]. rw andb_false_r.
        symmetry. rw -(Z.mod_small z (2 ^ 64)) //. apply Z.mod_pow2_bits_high. lia.
  - rw Z.shiftl_mul_pow2 // Z.shiftr_div_pow2 //.
    change (2 ^ 12) with PGSIZE. pose proof (Z.div_mod z PGSIZE ltac:(done)). lia.
Qed.

Lemma PGROUNDDOWN_spec z : 0 <= z < 2 ^ 64 -> PGROUNDDOWN z = z - z mod PGSIZE.
Proof. apply land_pgmask. Qed.
Lemma PGROUNDDOWN_aligned z : 0 <= z < 2 ^ 64 -> z mod PGSIZE = 0 -> PGROUNDDOWN z = z.
Proof. intros. rw PGROUNDDOWN_spec //. lia. Qed.
Lemma PGROUNDDOWN_mod z : 0 <= z < 2 ^ 64 -> PGROUNDDOWN z mod PGSIZE = 0.
Proof.
  intros. rw PGROUNDDOWN_spec // Zminus_mod Z.mod_mod // Z.sub_diag //.
Qed.
Lemma PGROUNDUP_spec z :
  0 <= z < 2 ^ 64 - PGSIZE ->
  PGROUNDUP z mod PGSIZE = 0 /\ z <= PGROUNDUP z < z + PGSIZE.
Proof.
  intros Hz. rw /PGROUNDUP. rw u64_small; [|rw /PGSIZE in Hz |- *; lia].
  rw land_pgmask; [|rw /PGSIZE in Hz |- *; lia].
  pose proof (Z.mod_pos_bound (z + PGSIZE - 1) PGSIZE ltac:(done)).
  split; [|rw /PGSIZE in H |- *; lia].
  rw Zminus_mod Z.mod_mod // Z.sub_diag //.
Qed.

(** Distinct pages do not overlap. *)
Lemma pages_disjoint p q :
  p mod PGSIZE = 0 -> q mod PGSIZE = 0 -> p <> q -> p + PGSIZE <= q \/ q + PGSIZE <= p.
Proof.
  intros [x ->]%Z.mod_divide [y ->]%Z.mod_divide Hne; [|done..]. rw /PGSIZE in Hne |- *. lia.
Qed.

Lemma page_ok_range p : page_ok p -> KERNBASE <= p < PHYSTOP /\ p + PGSIZE <= PHYSTOP.
Proof.
  intros [Hm [Hlo Hhi]]. pose proof etext_lo. pose proof etext_kend.
  apply Z.mod_divide in Hm as [x ->]; [|done].
  rw /PHYSTOP /KERNBASE /PGSIZE in Hlo Hhi H |- *. lia.
Qed.
Lemma page_ok_u64 p : page_ok p -> 0 < p /\ p + PGSIZE < 2 ^ 64.
Proof. intros H%page_ok_range. rw /PHYSTOP /KERNBASE /PGSIZE in H |- *. lia. Qed.
End pages.
