(* ===== verification/Kalloc.v ===== *)
(** * [kernel/kalloc.c]

    The physical page allocator.  The free list is threaded through the free
    pages themselves: the first word of a free page is the address of the next
    one ([struct run]).  [free_pages s l] says that the list starting at
    [kmem.freelist] visits exactly the pages [l]. *)

From S2P Require Import Prelude Mem KString Spinlock Machine.

Section kalloc.
Context {lay : Layout}.

(** ** Operations *)

Definition kfree (pa : Z) : K mstate unit :=
  if negb (pa mod PGSIZE =? 0) || (pa <? kend) || (PHYSTOP <=? pa) then panic "kfree" else
  memset_m pa 1 PGSIZE;;                       (* fill with junk *)
  acquire L_kmem;;
  f ← gets freelist;
  store64 pa f;;                               (* r->next = kmem.freelist *)
  modify (set_freelist pa);;
  release L_kmem.

Definition kalloc : K mstate Z :=
  acquire L_kmem;;
  r ← gets freelist;
  when (negb (r =? 0)) (nx ← load64 r; modify (set_freelist nx));;
  release L_kmem;;
  when (negb (r =? 0)) (memset_m r 5 PGSIZE);; (* fill with junk *)
  mret r.

(** [for(; p + PGSIZE <= pa_end; p += PGSIZE) kfree(p);] *)
Definition freerange (pa_start pa_end : Z) : K mstate unit :=
  loop (fun p => if p + PGSIZE <=? pa_end then kfree p;; mret (inl (p + PGSIZE))
                 else mret (inr tt)) (PGROUNDUP pa_start).

Definition kinit : K mstate unit := freerange kend PHYSTOP.

(** ** Representation of the free list *)

Fixpoint flist (m : memory) (head : Z) (l : list Z) : Prop :=
  match l with
  | [] => head = 0
  | p :: l' => head = p /\ page_ok p /\ flist m (ld64 m p) l'
  end.
Definition free_pages (s : mstate) (l : list Z) : Prop :=
  flist (mem s) (freelist s) l /\ NoDup l.

(** Bytes outside the page at [p]. *)
Definition off_page (p a : Z) : Prop := a < p \/ p + PGSIZE <= a.

Lemma flist_page_ok m h l : flist m h l -> Forall page_ok l.
Proof.
  revert h; induction l as [|p l IH]; intros h; simpl; [done|].
  intros (_ & Hp & Hl). constructor; [done|]. by eapply IH.
Qed.

Lemma flist_head m h l : flist m h l -> h = 0 <-> l = [].
Proof.
  destruct l as [|p l]; simpl; [done|]. intros (-> & Hp & _).
  split; [|done]. apply page_ok_u64 in Hp. lia.
Qed.

(** Writing outside the listed pages leaves the list in place. *)
Lemma flist_ext m m' h l :
  (forall p, p ∈ l -> ld64 m' p = ld64 m p) -> flist m h l -> flist m' h l.
Proof.
  revert h; induction l as [|p l IH]; intros h Hext; simpl; [done|].
  intros (-> & Hp & Hl). split_and!; [done..|].
  rw Hext; [|by left]. apply IH; [|done]. intros q Hq. apply Hext. by right.
Qed.

Lemma flist_off_page m m' h l p :
  (forall a, off_page p a -> ld8 m' a = ld8 m a) -> p mod PGSIZE = 0 -> p ∉ l ->
  flist m h l -> flist m' h l.
Proof.
  intros Hext Hp Hnin Hl. eapply flist_ext; [|exact Hl]. intros q Hq.
  apply ldn_ext. intros i Hi. apply Hext.
  pose proof (flist_page_ok _ _ _ Hl) as Hall.
  rw Forall_forall in Hall. destruct (Hall q Hq) as [Hqm _].
  assert (q <> p) as Hne by congruence.
  destruct (pages_disjoint q p Hqm Hp Hne); rw /off_page /PGSIZE in H |- *; lia.
Qed.

(** The memory a freed page and a returned page leave behind. *)
Definition freed (m : memory) (pa f : Z) : memory := st64 (memset m pa 1 PGSIZE) pa f.
Definition handed (m : memory) (pa : Z) : memory := memset m pa 5 PGSIZE.

Lemma freed_off m p f a : off_page p a -> ld8 (freed m p f) a = ld8 m a.
Proof.
  rw /off_page /freed. intros H. rw ld8_stn_out; [|rw /PGSIZE in H; lia].
  apply ld8_memset_out; [done|lia].
Qed.
Lemma handed_off m p a : off_page p a -> ld8 (handed m p) a = ld8 m a.
Proof. rw /off_page /handed. intros H. apply ld8_memset_out; [done|lia]. Qed.

(** ** Runs of the operations *)

Lemma lift_acquire_run (s : mstate) k n :
  free_lock k s -> acquire k n s = Ok tt (set_lk (lk_acq k (lk s)) s).
Proof. intros [Hok Hf]. by rw /acquire /lift /= acquire_run. Qed.

Lemma lift_release_run (s : mstate) k n :
  free_lock k s ->
  release k n (set_lk (lk_acq k (lk s)) s) = Ok tt s.
Proof.
  intros [Hok Hf]. rw /release /lift /= release_run; [..|apply held_acq].
  - rw /= rel_acq //. by destruct s.
  - by apply lk_acq_ok.
  - simpl. pose proof (noff_nonneg _ Hok). lia.
Qed.

Lemma kfree_run (s : mstate) pa n :
  free_lock L_kmem s -> page_ok pa ->
  kfree pa n s = Ok tt (set_freelist pa (set_mem (freed (mem s) pa (freelist s)) s)).
Proof.
  intros Hlk [Hm [Hlo Hhi]]. rw /kfree.
  rw (proj2 (Z.eqb_eq _ _) Hm) (proj2 (Z.ltb_ge _ _) Hlo) (proj2 (Z.leb_gt _ _) Hhi) /=.
  rw /mbind /K_bind /=.
  rw (lift_acquire_run (set_mem (memset (mem s) pa 1 PGSIZE) s)) //=.
  by rw (lift_release_run (set_freelist pa (set_mem (freed (mem s) pa (freelist s)) s))).
Qed.

Lemma kfree_panics (s : mstate) pa n :
  ~ page_ok pa -> kfree pa n s = Panic "kfree" s.
Proof.
  intros Hbad. rw /kfree. destruct (negb (pa mod PGSIZE =? 0) || (pa <? kend) || (PHYSTOP <=? pa)) eqn:E;
    [done|]. exfalso. apply Hbad. zbool. done.
Qed.

Lemma kalloc_run_some (s : mstate) n :
  free_lock L_kmem s -> freelist s <> 0 ->
  kalloc n s = Ok (freelist s)
    (set_freelist (ld64 (mem s) (freelist s)) (set_mem (handed (mem s) (freelist s)) s)).
Proof.
  intros Hlk Hne. rw /kalloc /mbind /K_bind /= lift_acquire_run //=.
  rw (proj2 (Z.eqb_neq _ _) Hne) /=.
  by rw (lift_release_run (set_freelist (ld64 (mem s) (freelist s)) s)).
Qed.

Lemma kalloc_run_none (s : mstate) n :
  free_lock L_kmem s -> freelist s = 0 -> kalloc n s = Ok 0 s.
Proof.
  intros Hlk Hz. rw /kalloc /mbind /K_bind /= lift_acquire_run //= Hz /=.
  by rw lift_release_run.
Qed.

(** ** Specifications over the list of free pages *)

Lemma kfree_free (s : mstate) pa l n :
  free_lock L_kmem s -> free_pages s l -> page_ok pa -> pa ∉ l ->
  exists s', kfree pa n s = Ok tt s' /\ free_pages s' (pa :: l) /\ lk s' = lk s /\ out s' = out s
    /\ forall a, off_page pa a -> ld8 (mem s') a = ld8 (mem s) a.
Proof.
  intros Hlk [Hl Hnd] Hp Hnin. eexists; split; [by apply kfree_run|].
  split_and!; [|done..|intros a; apply freed_off].
  split; simpl; [|by constructor]. split_and!; [done..|].
  rw /freed ld64_st64_eq u64_small.
  - apply (flist_off_page (mem s) _ _ _ pa); [apply freed_off | apply Hp | done..].
  - destruct l as [|q l]; simpl in Hl; [by rw Hl|]. destruct Hl as (-> & Hq & _).
    apply page_ok_u64 in Hq. pglia.
Qed.

Lemma kalloc_alloc (s : mstate) p l n :
  free_lock L_kmem s -> free_pages s (p :: l) ->
  exists s', kalloc n s = Ok p s' /\ free_pages s' l /\ lk s' = lk s /\ out s' = out s /\
    (forall a, off_page p a -> ld8 (mem s') a = ld8 (mem s) a) /\
    (forall a, p <= a < p + PGSIZE -> ld8 (mem s') a = 5).
Proof.
  intros Hlk [(Hh & Hp & Hl) Hnd]. pose proof (page_ok_u64 _ Hp) as Hu.
  pose proof (kalloc_run_some s n Hlk ltac:(lia)) as Hrun. rw Hh in Hrun.
  eexists; split; [exact Hrun|].
  apply NoDup_cons in Hnd as [Hnin Hnd].
  split_and!; [|reflexivity..|intros a; apply handed_off|].
  - split; [|done]. simpl.
    apply (flist_off_page (mem s) _ _ _ p); [apply handed_off | apply Hp | done..].
  - intros a Ha. by rw /= /handed ld8_memset // decide_True.
Qed.

Lemma kalloc_out_of_memory (s : mstate) n :
  free_lock L_kmem s -> free_pages s [] -> kalloc n s = Ok 0 s.
Proof. intros Hlk [Hl _]. by apply kalloc_run_none. Qed.

(** ** Building the list at boot *)

(** The [k] pages from [base] on. *)
Definition page_seq (base : Z) (k : nat) : list Z := (fun i => base + PGSIZE * i) <$> rangeZ k.

Lemma page_seq_S base k : page_seq base (S k) = page_seq base k ++ [base + PGSIZE * Z.of_nat k].
Proof. rw /page_seq /rangeZ seq_S !fmap_app //=. Qed.

Lemma elem_of_page_seq base k p :
  p ∈ page_seq base k <-> exists i, 0 <= i < Z.of_nat k /\ p = base + PGSIZE * i.
Proof.
  rw /page_seq list_elem_of_fmap. setoid_rewrite elem_of_rangeZ.
  split; [intros (i & -> & ?) | intros (i & ? & ->)]; eauto.
Qed.

Lemma freerange_spec (s : mstate) l start stop n :
  let base := PGROUNDUP start in
  let k := Z.to_nat ((stop - base) / PGSIZE) in
  free_lock L_kmem s -> free_pages s l ->
  0 <= start < 2 ^ 64 - PGSIZE -> kend <= start -> stop <= PHYSTOP ->
  (forall p, p ∈ page_seq base k -> p ∉ l) -> (k < n)%nat ->
  wp (freerange start stop) n s (fun _ s' =>
    free_pages s' (rev (page_seq base k) ++ l) /\ lk s' = lk s).
Proof.
  intros base k Hlk Hl Hs Hlo Hhi Hnin Hn.
  destruct (PGROUNDUP_spec start Hs) as [Hbm Hb]. fold base in Hbm, Hb.
  assert (forall i, 0 <= i < Z.of_nat k -> page_ok (base + PGSIZE * i)) as Hpok.
  { intros i Hi. split; [by rw Z.mul_comm Z.mod_add|].
    subst k. assert (PGSIZE * ((stop - base) / PGSIZE) <= stop - base)
      by (by apply Z.mul_div_le). pglia. }
  assert (Hlt : forall i, base + PGSIZE * Z.of_nat i + PGSIZE <= stop <-> (i < k)%nat).
  { intros i. subst k. pose proof (Z.div_mod (stop - base) PGSIZE ltac:(done)).
    pose proof (Z.mod_pos_bound (stop - base) PGSIZE ltac:(done)). pglia. }
  assert (Hidx : forall i, Z.to_nat ((base + PGSIZE * Z.of_nat i - base) / PGSIZE) = i).
  { intros i. replace (base + PGSIZE * Z.of_nat i - base) with (Z.of_nat i * PGSIZE) by lia.
    rw Z.div_mul //. lia. }
  eapply (wp_loop (fun p s' => exists i, (i <= k)%nat /\ p = base + PGSIZE * Z.of_nat i /\
                     free_pages s' (rev (page_seq base i) ++ l) /\ lk s' = lk s)
                  (fun p _ => k - Z.to_nat ((p - base) / PGSIZE))%nat).
  - exists O. split_and!; [lia | lia | done | done].
  - lia.
  - intros p s' (i & Hi & -> & Hf & Hlk'). destruct (Z.leb_spec (base + PGSIZE * Z.of_nat i + PGSIZE) stop) as [Hle|Hgt].
    + apply Hlt in Hle as Hik. apply wp_bind.
      destruct (kfree_free s' (base + PGSIZE * Z.of_nat i) (rev (page_seq base i) ++ l) n)
        as (s'' & Hrun & Hf' & Hl' & _).
      { rw /free_lock Hlk'. exact Hlk. }
      { exact Hf. }
      { apply Hpok. lia. }
      { rw elem_of_app list_elem_of_In -in_rev -list_elem_of_In. intros [Hin|Hin].
        - apply elem_of_page_seq in Hin as (j & Hj & Heq). pglia.
        - eapply Hnin; [|exact Hin]. apply elem_of_page_seq. exists (Z.of_nat i). lia. }
      rw /wp Hrun /=. split.
      * exists (S i). split_and!; [lia|lia| |congruence].
        by rw page_seq_S rev_app_distr /=.
      * replace (base + PGSIZE * Z.of_nat i + PGSIZE) with (base + PGSIZE * Z.of_nat (S i)) by lia.
        rw !Hidx. lia.
    + assert (i = k) as -> by (pose proof (Hlt i); lia). by apply wp_ret.
Qed.

Lemma page_ok_seq p :
  page_ok p <-> p ∈ page_seq (PGROUNDUP kend) (Z.to_nat ((PHYSTOP - PGROUNDUP kend) / PGSIZE)).
Proof.
  pose proof etext_lo. pose proof etext_kend. pose proof kend_hi.
  destruct (PGROUNDUP_spec kend) as [Hbm Hb]; [pglia|].
  rw elem_of_page_seq /page_ok. split.
  - intros (Hm & Hlo & Hhi). apply Z.mod_divide in Hm as [x ->]; [|done].
    apply Z.mod_divide in Hbm as [y Hy]; [|done]. exists (x - y). rw Hy in Hb |- *.
    assert (PHYSTOP - y * PGSIZE = (32768 * 17 - y) * PGSIZE) as -> by pglia.
    rw Z.div_mul //. pglia.
  - intros (i & Hi & ->). split; [by rw Z.mul_comm Z.mod_add|].
    assert (PGSIZE * ((PHYSTOP - PGROUNDUP kend) / PGSIZE) <= PHYSTOP - PGROUNDUP kend)
      by (by apply Z.mul_div_le). pglia.
Qed.

(** ** A client of the allocator

    A client that owns the pages [own]: it takes pages and gives back pages it
    owns, in any order. *)
Inductive kop := KAlloc | KFree (p : Z).
Fixpoint client (ops : list kop) (own : list Z) : K mstate (list Z) :=
  match ops with
  | [] => mret own
  | KAlloc :: ops' => r ← kalloc; client ops' (if r =? 0 then own else r :: own)
  | KFree p :: ops' =>
      if decide (p ∈ own) then kfree p;; client ops' (filter (fun q => q <> p) own)
      else client ops' own
  end.

Lemma filter_remove_perm (p : Z) (own : list Z) :
  NoDup own -> p ∈ own -> own ≡ₚ p :: filter (fun q => q <> p) own.
Proof.
  intros Hnd (l1 & l2 & ->)%list_elem_of_split.
  apply NoDup_app in Hnd as (_ & Hd & Hnd). apply NoDup_cons in Hnd as [Hn2 _].
  rw filter_app filter_cons_False; [|by intros []]. rw !filter_all.
  - by rw Permutation_middle.
  - intros x Hx ->. done.
  - intros x Hx ->. apply (Hd p); [done|by left].
Qed.

Lemma client_conserves ops : forall (s : mstate) own l n,
  free_lock L_kmem s -> free_pages s l -> NoDup (own ++ l) -> Forall page_ok own ->
  wp (client ops own) n s (fun own' s' => exists l', free_pages s' l' /\ own' ++ l' ≡ₚ own ++ l).
Proof.
  induction ops as [|[|p] ops IH]; intros s own l n Hlk Hf Hnd Hown; simpl.
  - apply wp_ret. by exists l.
  - apply wp_bind. destruct l as [|p l].
    + rw /wp kalloc_out_of_memory //. by apply IH.
    + destruct (kalloc_alloc s p l n Hlk Hf) as (s' & Hrun & Hf' & Hlk' & _).
      rw /wp Hrun. destruct Hf as [(_ & Hp & _) _]. pose proof (page_ok_u64 _ Hp).
      rw (proj2 (Z.eqb_neq p 0)); [|lia].
      eapply wp_mono; [apply (IH s' (p :: own) l n)|].
      * rw /free_lock Hlk'. exact Hlk.
      * done.
      * simpl. by rw Permutation_middle.
      * by constructor.
      * intros own' s'' (l' & Hf'' & Hperm). exists l'. split; [done|].
        rw Hperm. by rw -Permutation_middle.
  - case_decide as Hin; [|by apply IH]. apply wp_bind.
    apply NoDup_app in Hnd as Hnd'. destruct Hnd' as (Hndo & Hdis & _).
    rw Forall_forall in Hown.
    destruct (kfree_free s p l n) as (s' & Hrun & Hf' & Hlk' & _); [done|done|by apply Hown|by apply Hdis|].
    assert (own ++ l ≡ₚ filter (fun q => q <> p) own ++ p :: l) as Hperm.
    { rw -Permutation_middle. by rw {1}(filter_remove_perm p own Hndo Hin). }
    rw /wp Hrun. eapply wp_mono; [apply (IH s' _ (p :: l) n)|].
    + rw /free_lock Hlk'. exact Hlk.
    + done.
    + by rw -Hperm.
    + apply Forall_forall. intros q [_ Hq]%list_elem_of_filter. by apply Hown.
    + intros own' s'' (l' & Hf'' & Hp''). exists l'. split; [done|]. by rw Hp'' -Hperm.
Qed.

End kalloc.
