(* ===== verification/Printf.v ===== *)
(** * [kernel/printf.c]

    Formatted output to the console.  Characters reach the UART through
    [consputc] ([console.c]) and [uartputc_sync] ([uart.c]); the model appends
    them to [out].  [uartputc_sync] spins until the transmitter is idle, which
    the hardware guarantees, and [panicked] is set only by [panic], which ends
    a run, so neither wait appears. *)

From Stdlib Require Import Ascii.
From S2P Require Import Prelude Mem KString Spinlock Machine.

(** A character constant of C. *)
Definition chr (c : Ascii.ascii) : Z := Z.of_N (Ascii.N_of_ascii c).
Arguments chr _%_char_scope.
(** The string of a newline alone. *)
Definition nl : string := String (ascii_of_nat 10) EmptyString.

Section printf.
Context {lay : Layout}.

Definition BACKSPACE : Z := 0x100.

(** uart.c *)
Definition uartputc_sync (c : Z) : K mstate unit :=
  lift push_off;;
  modify (fun s => set_out (out s ++ [u8 c]) s);;
  lift pop_off.

(** console.c *)
Definition consputc (c : Z) : K mstate unit :=
  if c =? BACKSPACE then uartputc_sync 8;; uartputc_sync 32;; uartputc_sync 8
  else uartputc_sync c.

Definition digits : list Z := bytes_of_string "0123456789abcdef".

(** [do { buf[i++] = digits[x % base]; } while((x /= base) != 0);] with the
    characters stored so far, latest last; [buf] has 16 elements. *)
Fixpoint printint_loop (fuel : nat) (x base : Z) (buf : list Z) : K mstate (list Z) :=
  match fuel with
  | O => spin
  | S fuel' =>
    if negb (length buf <? 16)%nat then undef else
    d ← arr_get digits (x mod base);
    let buf := buf ++ [d] in
    let x := x / base in
    if negb (x =? 0) then printint_loop fuel' x base buf else mret buf
  end.

Definition printint (xx base : Z) (sign : bool) : K mstate unit :=
  let sign := sign && (xx <? 0) in
  if sign && (xx =? - 2 ^ 31) then undef else   (* -xx overflows *)
  let x := if sign then u32 (- xx) else u32 xx in
  buf ← printint_loop 33 x base [];
  if sign && negb (length buf <? 16)%nat then undef else
  let buf := if sign then buf ++ [chr "-"] else buf in
  for_each (rev buf) consputc.

Definition printptr (x : Z) : K mstate unit :=
  consputc (chr "0");; consputc (chr "x");;
  _ ← for_fold (rangeZ 16) x (fun x _ =>
        d ← arr_get digits (Z.shiftr x 60); consputc d;; mret (u64 (Z.shiftl x 4)));
  mret tt.

(** What [va_arg] can find: an [int], a [uint64], a string (or null). *)
Inductive arg := AInt (x : Z) | APtr (x : Z) | AStr (s : option (list Z)).

Definition next_arg (ap : list arg) : K mstate (arg * list arg) :=
  match ap with a :: ap' => mret (a, ap') | [] => undef end.

(** [for(; *s; s++) consputc( *s );] *)
Fixpoint putstr (s : list Z) : K mstate unit :=
  match s with
  | [] => undef
  | c :: s' => if c =? 0 then mret tt else consputc c;; putstr s'
  end.

(** The loop over the format, from position [i] on. *)
Fixpoint printf_loop (fmt : list Z) (ap : list arg) : K mstate unit :=
  match fmt with
  | [] => undef
  | c :: fmt' =>
    if c =? 0 then mret tt else
    if negb (c =? chr "%") then consputc c;; printf_loop fmt' ap else
    match fmt' with
    | [] => undef
    | c :: fmt' =>
      if c =? 0 then mret tt else
      if c =? chr "d" then
        '(a, ap) ← next_arg ap;
        match a with AInt x => printint x 10 true;; printf_loop fmt' ap | _ => undef end
      else if c =? chr "x" then
        '(a, ap) ← next_arg ap;
        match a with AInt x => printint x 16 true;; printf_loop fmt' ap | _ => undef end
      else if c =? chr "p" then
        '(a, ap) ← next_arg ap;
        match a with APtr x => printptr x;; printf_loop fmt' ap | _ => undef end
      else if c =? chr "s" then
        '(a, ap) ← next_arg ap;
        match a with
        | AStr s => putstr (default (cstring "(null)") s);; printf_loop fmt' ap
        | _ => undef
        end
      else if c =? chr "%" then consputc (chr "%");; printf_loop fmt' ap
      else consputc (chr "%");; consputc c;; printf_loop fmt' ap
    end
  end.

Definition printf (fmt : string) (ap : list arg) : K mstate unit :=
  locking ← gets prlocking;
  when locking (acquire L_pr);;
  printf_loop (cstring fmt) ap;;
  when locking (release L_pr).

End printf.
