(* ===== verification/Vm.v ===== *)
(** * [kernel/vm.c]

    Sv39 page tables.  A page table is a tree of 4096-byte pages of 64-bit
    entries in RAM; every routine of [vm.c] reads and writes those entries, so
    the model keeps them in the byte memory.  [proc_mapstacks] of [proc.c],
    which [kvmmake] calls, is here too. *)

From S2P Require Import Prelude Mem KString Spinlock Machine Kalloc.

(** ** Page-table entries ([riscv.h]) *)

Definition PTE_V : Z := Z.shiftl 1 0.
Definition PTE_R : Z := Z.shiftl 1 1.
Definition PTE_W : Z := Z.shiftl 1 2.
Definition PTE_X : Z := Z.shiftl 1 3.
Definition PTE_U : Z := Z.shiftl 1 4.
Definition PA2PTE (pa : Z) : Z := u64 (Z.shiftl (Z.shiftr pa 12) 10).
Definition PTE2PA (pte : Z) : Z := u64 (Z.shiftl (Z.shiftr pte 10) 12).
Definition PTE_FLAGS (pte : Z) : Z := Z.land pte 0x3FF.
Definition PXMASK : Z := 0x1FF.
Definition PXSHIFT (level : Z) : Z := PGSHIFT + 9 * level.
Definition PX (level va : Z) : Z := Z.land (Z.shiftr va (PXSHIFT level)) PXMASK.

Section vm.
Context {lay : Layout}.

(** ** Walking *)

(** One level: the next table, [None] when there is none (and none is made). *)
Definition walk_level (va : Z) (alloc : bool) (pagetable level : Z) : K mstate (option Z) :=
  let pte := pagetable + 8 * PX level va in
  v ← load64 pte;
  if negb (Z.land v PTE_V =? 0) then mret (Some (PTE2PA v)) else
  if negb alloc then mret None else
  p ← kalloc;
  if p =? 0 then mret None else
  memset_m p 0 PGSIZE;;
  store64 pte (Z.lor (PA2PTE p) PTE_V);;
  mret (Some p).

(** The address of the PTE for [va], 0 on failure. *)
Definition walk (pagetable va : Z) (alloc : bool) : K mstate Z :=
  if MAXVA <=? va then panic "walk" else
  r ← for_fold [2; 1] (Some pagetable) (fun t level =>
        match t with Some p => walk_level va alloc p level | None => mret None end);
  match r with
  | Some p => mret (p + 8 * PX 0 va)
  | None => mret 0
  end.

Definition walkaddr (pagetable va : Z) : K mstate Z :=
  if MAXVA <=? va then mret 0 else
  pte ← walk pagetable va false;
  if pte =? 0 then mret 0 else
  v ← load64 pte;
  if Z.land v PTE_V =? 0 then mret 0 else
  if Z.land v PTE_U =? 0 then mret 0 else
  mret (PTE2PA v).

(** ** Mapping *)

Definition mappages (pagetable va size pa perm : Z) : K mstate Z :=
  let last := PGROUNDDOWN (u64 (va + size - 1)) in
  loop (fun '(a, pa) =>
    pte ← walk pagetable a true;
    if pte =? 0 then mret (inr (-1)) else
    v ← load64 pte;
    if negb (Z.land v PTE_V =? 0) then panic "remap" else
    store64 pte (Z.lor (Z.lor (PA2PTE pa) perm) PTE_V);;
    if a =? last then mret (inr 0) else
    mret (inl (u64 (a + PGSIZE), u64 (pa + PGSIZE)))) (PGROUNDDOWN va, pa).

Definition kvmmap (kpgtbl va pa sz perm : Z) : K mstate unit :=
  r ← mappages kpgtbl va sz pa perm;
  if negb (r =? 0) then panic "kvmmap" else mret tt.

Definition uvmunmap (pagetable va npages : Z) (do_free : bool) : K mstate unit :=
  if negb (va mod PGSIZE =? 0) then panic "uvmunmap: not aligned" else
  loop (fun a =>
    if negb (a <? u64 (va + npages * PGSIZE)) then mret (inr tt) else
    pte ← walk pagetable a false;
    if pte =? 0 then panic "uvmunmap: walk" else
    v ← load64 pte;
    if Z.land v PTE_V =? 0 then panic "uvmunmap: not mapped" else
    if PTE_FLAGS v =? PTE_V then panic "uvmunmap: not a leaf" else
    when do_free (kfree (PTE2PA v));;
    store64 pte 0;;
    mret (inl (u64 (a + PGSIZE)))) va.

Definition uvmcreate : K mstate Z :=
  pagetable ← kalloc;
  if pagetable =? 0 then mret 0 else
  memset_m pagetable 0 PGSIZE;; mret pagetable.

Definition uvminit (pagetable src sz : Z) : K mstate unit :=
  if PGSIZE <=? sz then panic "inituvm: more than a page" else
  p ← kalloc;
  memset_m p 0 PGSIZE;;
  _ ← mappages pagetable 0 PGSIZE p (Z.lor PTE_W (Z.lor PTE_R (Z.lor PTE_X PTE_U)));
  modify (fun s => set_mem (memmove (mem s) p src sz) s).

Definition uvmdealloc (pagetable oldsz newsz : Z) : K mstate Z :=
  if oldsz <=? newsz then mret oldsz else
  when (PGROUNDUP newsz <? PGROUNDUP oldsz)
    (let npages := i32 ((PGROUNDUP oldsz - PGROUNDUP newsz) / PGSIZE) in
     uvmunmap pagetable (PGROUNDUP newsz) npages true);;
  mret newsz.

Definition uvmalloc (pagetable oldsz newsz : Z) : K mstate Z :=
  if newsz <? oldsz then mret oldsz else
  let oldsz := PGROUNDUP oldsz in
  loop (fun a =>
    if negb (a <? newsz) then mret (inr newsz) else
    p ← kalloc;
    if p =? 0 then uvmdealloc pagetable a oldsz;; mret (inr 0) else
    memset_m p 0 PGSIZE;;
    r ← mappages pagetable a PGSIZE p (Z.lor PTE_W (Z.lor PTE_X (Z.lor PTE_R PTE_U)));
    if negb (r =? 0) then kfree p;; uvmdealloc pagetable a oldsz;; mret (inr 0) else
    mret (inl (u64 (a + PGSIZE)))) oldsz.

(** ** Freeing *)

(** [depth] bounds the recursion; a page table has three levels. *)
Fixpoint freewalk_n (depth : nat) (pagetable : Z) : K mstate unit :=
  match depth with
  | O => spin
  | S depth' =>
    for_each (rangeZ 512) (fun i =>
      pte ← load64 (pagetable + 8 * i);
      if negb (Z.land pte PTE_V =? 0) && (Z.land pte (Z.lor PTE_R (Z.lor PTE_W PTE_X)) =? 0)
      then freewalk_n depth' (PTE2PA pte);; store64 (pagetable + 8 * i) 0
      else if negb (Z.land pte PTE_V =? 0) then panic "freewalk: leaf" else mret tt);;
    kfree pagetable
  end.
Definition freewalk (pagetable : Z) : K mstate unit := fun n s => freewalk_n n pagetable n s.

Definition uvmfree (pagetable sz : Z) : K mstate unit :=
  when (0 <? sz) (uvmunmap pagetable 0 (PGROUNDUP sz / PGSIZE) true);;
  freewalk pagetable.

(** ** Copying an address space *)

Definition uvmcopy (old new sz : Z) : K mstate Z :=
  loop (fun i =>
    if negb (i <? sz) then mret (inr 0) else
    pte ← walk old i false;
    if pte =? 0 then panic "uvmcopy: pte should exist" else
    v ← load64 pte;
    if Z.land v PTE_V =? 0 then panic "uvmcopy: page not present" else
    let pa := PTE2PA v in
    let flags := PTE_FLAGS v in
    let err := uvmunmap new 0 (i / PGSIZE) true;; mret (inr (-1)) in
    p ← kalloc;
    if p =? 0 then err else
    modify (fun s => set_mem (memmove (mem s) p pa PGSIZE) s);;
    r ← mappages new i PGSIZE p flags;
    if negb (r =? 0) then kfree p;; err else
    mret (inl (u64 (i + PGSIZE)))) 0.

Definition uvmclear (pagetable va : Z) : K mstate unit :=
  pte ← walk pagetable va false;
  if pte =? 0 then panic "uvmclear" else
  v ← load64 pte;
  store64 pte (Z.land v (u64 (Z.lnot PTE_U))).

(** ** Moving data between the kernel and user space *)

Definition copyout (pagetable dstva src len : Z) : K mstate Z :=
  loop (fun '(dstva, src, len) =>
    if negb (0 <? len) then mret (inr 0) else
    let va0 := PGROUNDDOWN dstva in
    pa0 ← walkaddr pagetable va0;
    if pa0 =? 0 then mret (inr (-1)) else
    let n := PGSIZE - (dstva - va0) in
    let n := if len <? n then len else n in
    modify (fun s => set_mem (mymemmove (mem s) (pa0 + (dstva - va0)) src n) s);;
    mret (inl (u64 (va0 + PGSIZE), src + n, len - n))) (dstva, src, len).

Definition copyin (pagetable dst srcva len : Z) : K mstate Z :=
  loop (fun '(dst, srcva, len) =>
    if negb (0 <? len) then mret (inr 0) else
    let va0 := PGROUNDDOWN srcva in
    pa0 ← walkaddr pagetable va0;
    if pa0 =? 0 then mret (inr (-1)) else
    let n := PGSIZE - (srcva - va0) in
    let n := if len <? n then len else n in
    modify (fun s => set_mem (mymemmove (mem s) dst (pa0 + (srcva - va0)) n) s);;
    mret (inl (dst + n, u64 (va0 + PGSIZE), len - n))) (dst, srcva, len).

(** The inner loop of [copyinstr]: up to [n] characters from [p]; the
    characters stored and whether the NUL was among them. *)
Fixpoint copystr (n : nat) (m : memory) (p : Z) : list Z * bool :=
  match n with
  | O => ([], false)
  | S n' =>
    if ld8 m p =? 0 then ([0], true)
    else let '(l, b) := copystr n' m (p + 1) in (ld8 m p :: l, b)
  end.
(** The result code and the characters stored at [dst], in order. *)
Definition copyinstr (pagetable srcva max : Z) : K mstate (Z * list Z) :=
  loop (fun '(srcva, max, got) =>
    if negb (0 <? max) then mret (inr (-1, got)) else
    let va0 := PGROUNDDOWN srcva in
    pa0 ← walkaddr pagetable va0;
    if pa0 =? 0 then mret (inr (-1, got)) else
    let n := PGSIZE - (srcva - va0) in
    let n := if max <? n then max else n in
    m ← gets mem;
    let '(l, got_null) := copystr (Z.to_nat n) m (pa0 + (srcva - va0)) in
    if got_null : bool then mret (inr (0, got ++ l)) else
    mret (inl (u64 (va0 + PGSIZE), max - n, got ++ l))) (srcva, max, []).

(** ** The kernel page table *)

(** [proc.c] *)
Definition proc_mapstacks (kpgtbl : Z) : K mstate unit :=
  for_each (rangeZ NPROC) (fun i =>
    pa ← kalloc;
    if pa =? 0 then panic "kalloc" else
    kvmmap kpgtbl (KSTACK i) pa PGSIZE (Z.lor PTE_R PTE_W)).

Definition kvmmake : K mstate Z :=
  kpgtbl ← kalloc;
  memset_m kpgtbl 0 PGSIZE;;
  kvmmap kpgtbl UART0 UART0 PGSIZE (Z.lor PTE_R PTE_W);;
  kvmmap kpgtbl VIRTIO0 VIRTIO0 PGSIZE (Z.lor PTE_R PTE_W);;
  kvmmap kpgtbl PLIC PLIC 0x400000 (Z.lor PTE_R PTE_W);;
  kvmmap kpgtbl KERNBASE KERNBASE (etext - KERNBASE) (Z.lor PTE_R PTE_X);;
  kvmmap kpgtbl etext etext (PHYSTOP - etext) (Z.lor PTE_R PTE_W);;
  kvmmap kpgtbl TRAMPOLINE trampoline PGSIZE (Z.lor PTE_R PTE_X);;
  proc_mapstacks kpgtbl;;
  mret kpgtbl.

End vm.
