(* ===== verification/VmInv.v ===== *)
(** * Page tables as maps

    A page table rooted at [root] is described by the map [T] from index paths
    to the pages that hold its tables: [[]] is the root, [[i2]] a second-level
    and [[i2; i1]] a last-level table.  [pt_inv] ties [T] to the entries in
    RAM; [leaf] reads the mapping off it, a function from virtual addresses to
    page-table entries.  The theorems say what [walk], [walkaddr], [mappages],
    [uvmunmap], [copyin] and [copyout] do to that function. *)

From S2P Require Import Prelude Mem KString Spinlock Machine Kalloc Vm.

(** ** Bits of entries and addresses *)

Section bits.
Context {lay : Layout}.

Lemma PX_spec level va : 0 <= level -> PX level va = (va / 2 ^ (12 + 9 * level)) mod 512.
Proof.
  intros. rw /PX /PXSHIFT /PGSHIFT Z.shiftr_div_pow2; [|lia].
  apply (Z.land_ones _ 9). lia.
Qed.
Lemma PX_range level va : 0 <= level -> 0 <= PX level va < 512.
Proof. intros. rw PX_spec //. by apply Z.mod_pos_bound. Qed.

(** A page-aligned address below [MAXVA] is determined by its three indices. *)
Lemma PX_decompose va :
  va mod PGSIZE = 0 -> 0 <= va < MAXVA ->
  va = PGSIZE * (PX 0 va + 512 * (PX 1 va + 512 * PX 2 va)).
Proof.
  intros Hm Hr. rw !PX_spec //.
  change (2 ^ (12 + 9 * 0)) with 4096. change (2 ^ (12 + 9 * 1)) with (4096 * 512).
  change (2 ^ (12 + 9 * 2)) with (4096 * 512 * 512). rw -!Z.div_div //.
  apply Z.mod_divide in Hm as [x ->]; [|done]. rw /PGSIZE !Z.div_mul //.
  change MAXVA with (4096 * (512 * (512 * 256))) in Hr. rw /PGSIZE in Hr.
  pose proof (Z.div_mod x 512 ltac:(done)). pose proof (Z.div_mod (x / 512) 512 ltac:(done)).
  rw (Z.mod_small (x / 512 / 512)); [lia|].
  split; [apply Z.div_pos; [apply Z.div_pos|]; lia|].
  apply Z.div_lt_upper_bound; [done|]. apply Z.div_lt_upper_bound; lia.
Qed.

Lemma PX_eq va va' :
  va mod PGSIZE = 0 -> 0 <= va < MAXVA -> va' mod PGSIZE = 0 -> 0 <= va' < MAXVA ->
  PX 2 va = PX 2 va' -> PX 1 va = PX 1 va' -> PX 0 va = PX 0 va' -> va = va'.
Proof.
  intros Hm Hr Hm' Hr' H2 H1 H0.
  by rw (PX_decompose va) // (PX_decompose va') // H2 H1 H0.
Qed.

(** The indices do not see the offset within the page. *)
Lemma PX_offset level va off :
  0 <= level -> va mod PGSIZE = 0 -> 0 <= off < PGSIZE -> PX level (va + off) = PX level va.
Proof.
  intros Hl Hm Ho. rw !PX_spec //. f_equal.
  assert (2 ^ (12 + 9 * level) = PGSIZE * 2 ^ (9 * level)) as -> by (rw Z.pow_add_r //; lia).
  assert (0 < 2 ^ (9 * level)) by (apply Z.pow_pos_nonneg; lia).
  rw -(Z.div_div (va + off)) // -(Z.div_div va) //. f_equal.
  apply Z.mod_divide in Hm as [x ->]; [|done].
  rw Z.div_mul // (Z.add_comm _ off) Z.div_add // Z.div_small //.
Qed.

Lemma land_1_odd v : Z.land v PTE_V = if Z.odd v then 1 else 0.
Proof. rw (Z.land_ones v 1) //. apply Zmod_odd. Qed.
Lemma valid_odd v : (Z.land v PTE_V =? 0) = negb (Z.odd v).
Proof. rw land_1_odd. by destruct (Z.odd v). Qed.

Lemma PA2PTE_spec pa : pa mod PGSIZE = 0 -> 0 <= pa < 2 ^ 56 -> PA2PTE pa = pa / 4.
Proof.
  intros Hm Hr. rw /PA2PTE Z.shiftr_div_pow2 // Z.shiftl_mul_pow2 //.
  apply Z.mod_divide in Hm as [x ->]; [|done].
  rw /PGSIZE in Hr |- *. rw Z.div_mul // u64_small; [|lia].
  change (2 ^ 12) with 4096. replace (x * 4096) with (x * 1024 * 4) by lia. rw Z.div_mul //.
Qed.

(** Entries built by [walk] and [mappages]: address, flags, valid bit. *)
Lemma pte_split pa perm :
  pa mod PGSIZE = 0 -> 0 <= pa < 2 ^ 56 -> 0 <= perm < 1024 ->
  Z.lor (Z.lor (PA2PTE pa) perm) PTE_V = pa / 4 + Z.lor perm 1.
Proof.
  intros Hm Hr Hp. rw -Z.lor_assoc PA2PTE_spec //.
  apply Z.mod_divide in Hm as [x ->]; [|done]. rw /PGSIZE.
  replace (x * 4096) with (x * 1024 * 4) by lia. rw Z.div_mul //.
  change 1024 with (2 ^ 10). rw -Z.shiftl_mul_pow2 //.
  change PTE_V with 1.
  assert (Z.land (Z.shiftl x 10) (Z.lor perm 1) = 0) as Hd;
    [|by rw Z.add_nocarry_lxor // Z.lxor_lor].
  apply Z.bits_inj'. intros n Hn. rw Z.land_spec Z.bits_0 Z.lor_spec.
  destruct (decide (n < 10)); [by rw Z.shiftl_spec_low|].
  rw -(Z.mod_small perm (2 ^ 10)) // Z.mod_pow2_bits_high; [|lia].
  rw (Z.bits_above_log2 1); [by rw andb_false_r | done | change (Z.log2 1) with 0; lia].
Qed.

Lemma lor_perm_range perm : 0 <= perm < 1024 -> 0 <= Z.lor perm 1 < 1024.
Proof.
  intros Hp. split; [apply Z.lor_nonneg; lia|].
  destruct (decide (Z.lor perm 1 = 0)) as [->|]; [done|].
  change (Z.lor perm 1 < 2 ^ 10).
  apply Z.log2_lt_pow2; [assert (0 <= Z.lor perm 1) by (apply Z.lor_nonneg; lia); lia|].
  rw Z.log2_lor; [|lia..]. apply Z.max_lub_lt; [|done].
  destruct (decide (perm = 0)) as [->|]; [done|]. apply Z.log2_lt_pow2; lia.
Qed.

Lemma PTE2PA_pte pa perm :
  pa mod PGSIZE = 0 -> 0 <= pa < 2 ^ 56 -> 0 <= perm < 1024 ->
  PTE2PA (Z.lor (Z.lor (PA2PTE pa) perm) PTE_V) = pa.
Proof.
  intros Hm Hr Hp. rw pte_split // /PTE2PA. pose proof (lor_perm_range perm Hp) as Hl.
  apply Z.mod_divide in Hm as [x ->]; [|done]. rw /PGSIZE in Hr |- *.
  replace (x * 4096) with (x * 1024 * 4) by lia. rw Z.div_mul //.
  rw Z.shiftr_div_pow2 // Z.shiftl_mul_pow2 //.
  change (2 ^ 10) with 1024. change (2 ^ 12) with 4096.
  rw (Z.add_comm _ (Z.lor perm 1)) Z.div_add // Z.div_small // u64_small; lia.
Qed.
Lemma pte_range pa perm :
  pa mod PGSIZE = 0 -> 0 <= pa < 2 ^ 56 -> 0 <= perm < 1024 ->
  0 <= Z.lor (Z.lor (PA2PTE pa) perm) PTE_V < 2 ^ 64.
Proof.
  intros Hm Hr Hp. rw pte_split //. pose proof (lor_perm_range perm Hp).
  assert (0 <= pa / 4) by (apply Z.div_pos; lia).
  assert (pa / 4 < 2 ^ 54) by (apply Z.div_lt_upper_bound; lia). lia.
Qed.
Lemma pte_valid pa perm : Z.odd (Z.lor (Z.lor (PA2PTE pa) perm) PTE_V) = true.
Proof. by rw -Z.bit0_odd !Z.lor_spec /= orb_true_r. Qed.
(** Flag bits of a new entry are those of [perm]. *)
Lemma pte_flag pa perm k :
  pa mod PGSIZE = 0 -> 0 <= pa < 2 ^ 56 -> 0 < k < 10 ->
  Z.testbit (Z.lor (Z.lor (PA2PTE pa) perm) PTE_V) k = Z.testbit perm k.
Proof.
  intros Hm Hr Hk. rw !Z.lor_spec PA2PTE_spec //.
  apply Z.mod_divide in Hm as [x ->]; [|done]. rw /PGSIZE.
  replace (x * 4096) with (x * 1024 * 4) by lia. rw Z.div_mul //.
  change 1024 with (2 ^ 10). rw -Z.shiftl_mul_pow2 // Z.shiftl_spec_low; [|lia].
  rw (Z.bits_above_log2 PTE_V); [by rw orb_false_r | done | change (Z.log2 PTE_V) with 0; lia].
Qed.

Lemma PTE_FLAGS_pte pa perm :
  pa mod PGSIZE = 0 -> 0 <= pa < 2 ^ 56 -> 0 <= perm < 1024 ->
  PTE_FLAGS (Z.lor (Z.lor (PA2PTE pa) perm) PTE_V) = Z.lor perm 1.
Proof.
  intros Hm Hr Hp. rw pte_split // /PTE_FLAGS. rw (Z.land_ones _ 10) //.
  apply Z.mod_divide in Hm as [x ->]; [|done]. rw /PGSIZE.
  replace (x * 4096) with (x * 1024 * 4) by lia. rw Z.div_mul // Z.add_comm Z.mod_add //.
  apply Z.mod_small. by apply lor_perm_range.
Qed.

Lemma page_ok_56 p : page_ok p -> 0 <= p < 2 ^ 56.
Proof. intros H%page_ok_range. pglia. Qed.
End bits.

(** ** The invariant *)

Section ptinv.
Context {lay : Layout}.
Implicit Types (m : memory) (T : gmap (list Z) Z) (s : mstate).

Record pt_inv m (root : Z) T : Prop := {
  pt_root : T !! [] = Some root;
  pt_pages : forall x p, T !! x = Some p -> page_ok p;
  pt_depth : forall x p, T !! x = Some p -> (length x <= 2)%nat;
  pt_inj : forall x y p, T !! x = Some p -> T !! y = Some p -> x = y;
  pt_prefix : forall x i q, T !! (x ++ [i]) = Some q -> is_Some (T !! x);
  pt_entry : forall x p i, T !! x = Some p -> (length x < 2)%nat -> 0 <= i < 512 ->
    match T !! (x ++ [i]) with
    | Some q => ld64 m (p + 8 * i) = Z.lor (PA2PTE q) PTE_V
    | None => Z.odd (ld64 m (p + 8 * i)) = false
    end;
}.

(** The entry for [va], 0 when the tables do not reach it. *)
Definition leaf m T (va : Z) : Z :=
  match T !! [PX 2 va; PX 1 va] with
  | Some p => ld64 m (p + 8 * PX 0 va)
  | None => 0
  end.

(** The memory subsystem: the allocator, one page table, and no overlap. *)
Record vm_inv s (root : Z) T (l : list Z) : Prop := {
  vi_lock : free_lock L_kmem s;
  vi_free : free_pages s l;
  vi_pt : pt_inv (mem s) root T;
  vi_sep : forall x p, T !! x = Some p -> p ∉ l;
}.

(** What an operation on the table may change: pages move from the free list to
    the tables, and no byte outside the tables changes. *)
Record pt_frame s T (l : list Z) s' T' (l' : list Z) : Prop := {
  pf_sub : T ⊆ T';
  pf_bytes : forall a, (forall x p, T' !! x = Some p -> off_page p a) ->
    ld8 (mem s') a = ld8 (mem s) a;
  pf_new : forall x p, T' !! x = Some p -> T !! x = Some p \/ p ∈ l;
  pf_suffix : l' `suffix_of` l;
  pf_lk : lk s' = lk s;
  pf_out : out s' = out s;
}.
(** Building missing tables changes no mapping either. *)
Definition pt_grow s T (l : list Z) s' T' (l' : list Z) : Prop :=
  pt_frame s T l s' T' l' /\ forall va, leaf (mem s') T' va = leaf (mem s) T va.

Lemma pt_frame_refl s T l : pt_frame s T l s T l.
Proof. split; auto. Qed.
Lemma pt_frame_trans s1 T1 l1 s2 T2 l2 s3 T3 l3 :
  pt_frame s1 T1 l1 s2 T2 l2 -> pt_frame s2 T2 l2 s3 T3 l3 -> pt_frame s1 T1 l1 s3 T3 l3.
Proof.
  intros [A1 A2 A3 A4 A5 A6] [B1 B2 B3 B4 B5 B6].
  split; [by etrans | | | by etrans | congruence..].
  - intros a Ha. rw B2 // A2 //. intros x p Hx. apply (Ha x). by eapply lookup_weaken.
  - intros x p [Hx|Hx]%B3; [by apply A3|right].
    destruct A4 as [k' E]. rw E elem_of_app. by right.
Qed.
Lemma pt_grow_refl s T l : pt_grow s T l s T l.
Proof. split; [apply pt_frame_refl | done]. Qed.
Lemma pt_grow_trans s1 T1 l1 s2 T2 l2 s3 T3 l3 :
  pt_grow s1 T1 l1 s2 T2 l2 -> pt_grow s2 T2 l2 s3 T3 l3 -> pt_grow s1 T1 l1 s3 T3 l3.
Proof.
  intros [A1 A2] [B1 B2]. split; [by eapply pt_frame_trans | intros; by rw B2].
Qed.

Lemma entry_range p i : page_ok p -> 0 <= i < 512 -> p <= p + 8 * i /\ p + 8 * i + 8 <= p + PGSIZE.
Proof. pglia. Qed.
Lemma entries_disjoint p q i j :
  page_ok p -> page_ok q -> 0 <= i < 512 -> 0 <= j < 512 -> p <> q \/ i <> j ->
  p + 8 * i + 8 <= q + 8 * j \/ q + 8 * j + 8 <= p + 8 * i.
Proof.
  intros [Hp _] [Hq _] Hi Hj H. destruct (decide (p = q)) as [->|Hne]; [lia|].
  destruct (pages_disjoint p q Hp Hq Hne); pglia.
Qed.

Lemma page_nil_pte q : page_ok q ->
  Z.lor (PA2PTE q) PTE_V = Z.lor (Z.lor (PA2PTE q) 0) PTE_V.
Proof. by rw Z.lor_0_r. Qed.

(** Linking a fresh zeroed table [q] at entry [i] of the table at path [x]. *)
Lemma pt_inv_link m m' root T x p i q :
  pt_inv m root T -> T !! x = Some p -> (length x < 2)%nat -> 0 <= i < 512 ->
  T !! (x ++ [i]) = None -> page_ok q -> (forall y, T !! y <> Some q) ->
  (forall a, off_page q a -> ~ (p + 8 * i <= a < p + 8 * i + 8) -> ld8 m' a = ld8 m a) ->
  (forall j, 0 <= j < 512 -> ld64 m' (q + 8 * j) = 0) ->
  ld64 m' (p + 8 * i) = Z.lor (PA2PTE q) PTE_V ->
  pt_inv m' root (<[x ++ [i] := q]> T) /\
  (forall va, leaf m' (<[x ++ [i] := q]> T) va = leaf m T va).
Proof.
  intros [Hr Hp Hd Hi Hpre He] Hx Hlen Hii Hn Hq Hfresh Hsame Hzero Hlink.
  assert (forall y p' j, T !! y = Some p' -> 0 <= j < 512 -> y <> x \/ j <> i ->
            ld64 m' (p' + 8 * j) = ld64 m (p' + 8 * j)) as Hkeep.
  { intros y p' j Hy Hj Hne. apply ldn_ext. intros a Ha.
    assert (p' <> q) as Hpq by (intros ->; by eapply Hfresh).
    pose proof (Hp _ _ Hy) as Hp'. apply Hsame.
    - pose proof (proj1 (Hp _ _ Hy)) as A1. pose proof (proj1 Hq) as A2.
      destruct (pages_disjoint _ _ A1 A2 Hpq); rw /off_page; pglia.
    - destruct (entries_disjoint p' p j i) as [|]; try done; [by apply (Hp x)| |lia..].
      destruct Hne as [Hne|Hne]; [left|by right]. intros ->. apply Hne. by eapply Hi. }
  assert (forall y, y ++ [i] <> []) as Hnn by (intros []; done).
  assert (forall (y : list Z) j, y ++ [j] <> y) as Hself.
  { intros y j Hy. apply (f_equal length) in Hy. rw length_app /= in Hy. lia. }
  split; [split|].
  - by rw lookup_insert_ne.
  - intros y p'. rw lookup_insert_Some. intros [[<- <-]|[_ Hy]]; [done|by apply (Hp y)].
  - intros y p'. rw lookup_insert_Some. intros [[<- <-]|[_ Hy]]; [rw length_app /=; lia|by apply (Hd y p')].
  - intros y z p'. rw !lookup_insert_Some.
    intros [[<- <-]|[_ Hy]] [[<- ?]|[_ Hz]]; simplify_eq; try done; try by exfalso; eapply Hfresh.
    by eapply Hi.
  - intros y j q'. rw !lookup_insert_Some. intros [[[<- <-]%app_inj_tail <-]|[_ Hy]].
    + exists p. by rw lookup_insert_ne; [|apply Hself].
    + apply Hpre in Hy as [z Hz]. destruct (decide (x ++ [i] = y)) as [<-|Hne].
      * exists q. apply lookup_insert_eq.
      * exists z. by rw lookup_insert_ne.
  - intros y p' j. rw lookup_insert_Some. intros [[<- <-]|[Hne Hy]] Hl Hj.
    + rw lookup_insert_ne; [|done]. rw (Hzero j Hj).
      destruct (T !! ((x ++ [i]) ++ [j])) eqn:E; [|done].
      apply Hpre in E as [z' Hz']. congruence.
    + destruct (decide (x ++ [i] = y ++ [j])) as [[<- <-]%app_inj_tail|Hne'].
      * rw lookup_insert_eq. by simplify_eq.
      * rw lookup_insert_ne //. rw (Hkeep y) //; [by apply He|].
        destruct (decide (y = x)) as [->|]; [|by left]. right. by intros ->.
  - intros va. rw /leaf lookup_insert. case_decide as E.
    + rw -E Hn. apply Hzero. by apply PX_range.
    + destruct (T !! [PX 2 va; PX 1 va]) eqn:E'; [|done].
      apply (Hkeep _ _ _ E'); [by apply PX_range|left].
      intros <-. simpl in Hlen. lia.
Qed.

(** ** [walk] *)

(** Following an existing table. *)
Lemma walk_level_present s root T x p va alloc level q n :
  pt_inv (mem s) root T -> T !! x = Some p -> (length x < 2)%nat -> 0 <= level ->
  T !! (x ++ [PX level va]) = Some q -> walk_level va alloc p level n s = Ok (Some q) s.
Proof.
  intros Hpt Hx Hl Hlv Hq. pose proof (pt_entry _ _ _ Hpt x p (PX level va) Hx Hl) as He.
  rw Hq in He. rw /walk_level /mbind /K_bind /= He; [|by apply PX_range].
  pose proof (pt_pages _ _ _ Hpt _ _ Hq) as Hqok.
  rw valid_odd page_nil_pte // pte_valid /= PTE2PA_pte //; [apply Hqok|by apply page_ok_56].
Qed.

Lemma walk_level_absent s root T x p va level n :
  pt_inv (mem s) root T -> T !! x = Some p -> (length x < 2)%nat -> 0 <= level ->
  T !! (x ++ [PX level va]) = None -> walk_level va false p level n s = Ok None s.
Proof.
  intros Hpt Hx Hl Hlv Hq. pose proof (pt_entry _ _ _ Hpt x p (PX level va) Hx Hl) as He.
  rw Hq in He. rw /walk_level /mbind /K_bind /= valid_odd He //. by apply PX_range.
Qed.

Lemma walk_level_alloc s root T l x p va level n :
  vm_inv s root T l -> T !! x = Some p -> (length x < 2)%nat -> 0 <= level ->
  wp (walk_level va true p level) n s (fun r s' => exists T' l',
    vm_inv s' root T' l' /\ pt_grow s T l s' T' l' /\
    match r with Some q => T' !! (x ++ [PX level va]) = Some q | None => l' = [] end).
Proof.
  intros [Hlk Hf Hpt Hsep] Hx Hl Hlv. pose proof (PX_range level va Hlv) as Hi.
  destruct (T !! (x ++ [PX level va])) as [q|] eqn:Hq.
  { rw /wp (walk_level_present _ root T x _ _ _ _ q) //. exists T, l.
    split_and!; [done|apply pt_grow_refl|done]. }
  rw /walk_level. apply wp_bind, wp_gets.
  pose proof (pt_entry _ _ _ Hpt x p (PX level va) Hx Hl Hi) as He. rw Hq in He.
  rw valid_odd He /=. apply wp_bind. destruct l as [|q l].
  { rw /wp kalloc_out_of_memory //=. exists T, []. split_and!; [done|apply pt_grow_refl|done]. }
  destruct (kalloc_alloc s q l n Hlk Hf) as (s1 & Hrun & Hf1 & Hlk1 & Hout1 & Hoff1 & _).
  rw /wp Hrun. destruct Hf as [(_ & Hqok & _) Hnd]. apply NoDup_cons in Hnd as [Hnin Hnd].
  pose proof (page_ok_u64 _ Hqok) as Hq0. rw (proj2 (Z.eqb_neq q 0)); [|lia].
  set (e := p + 8 * PX level va). set (m' := st64 (memset (mem s1) q 0 PGSIZE) e (Z.lor (PA2PTE q) PTE_V)).
  change (exists T' l', vm_inv (set_mem m' s1) root T' l' /\
    pt_grow s T (q :: l) (set_mem m' s1) T' l' /\ T' !! (x ++ [PX level va]) = Some q).
  assert (forall y, T !! y <> Some q) as Hfresh.
  { intros y Hy. apply (Hsep y q Hy). by left. }
  pose proof (pt_pages _ _ _ Hpt _ _ Hx) as Hpok.
  assert (off_page q e /\ off_page q (e + 7)) as [Heq Heq'].
  { assert (p <> q) as Hne by (intros ->; by eapply Hfresh).
    pose proof (entry_range p (PX level va) Hpok Hi).
    destruct (pages_disjoint p q (proj1 Hpok) (proj1 Hqok) Hne); rw /off_page /e; pglia. }
  assert (forall a, off_page q a -> ~ (e <= a < e + 8) -> ld8 m' a = ld8 (mem s) a) as Hsame.
  { intros a Ha He'. rw /m' ld8_stn_out // ld8_memset_out //; [by apply Hoff1|].
    rw /off_page in Ha. lia. }
  destruct (pt_inv_link (mem s) m' root T x p (PX level va) q) as [Hpt' Hleaf]; try done.
  { intros j Hj. rw /m' ldn_stn_ne; [|rw /off_page in Heq Heq'; pglia].
    apply ldn_memset_0; pglia. }
  { rw /m' -/e ld64_st64_eq page_nil_pte //. apply u64_small, pte_range; [apply Hqok|by apply page_ok_56|done]. }
  exists (<[x ++ [PX level va] := q]> T), l. split_and!; [split|split; [split|done]|by rw lookup_insert_eq].
  - rw /free_lock /= Hlk1. exact Hlk.
  - destruct Hf1 as [Hfl Hnd1]. split; [|done]. simpl.
    eapply flist_ext; [|exact Hfl]. intros r Hr.
    pose proof (flist_page_ok _ _ _ Hfl) as Hall. rw Forall_forall in Hall. pose proof (Hall r Hr) as Hrok.
    assert (r <> q /\ r <> p) as [Hrq Hrp].
    { split; intros ->; [done|]. apply (Hsep x p Hx). by right. }
    rw /m' ldn_stn_ne; last first.
    { pose proof (entry_range p (PX level va) Hpok Hi).
      destruct (pages_disjoint r p (proj1 Hrok) (proj1 Hpok) Hrp); rw /e; pglia. }
    apply ldn_memset_out; [done|].
    destruct (pages_disjoint r q (proj1 Hrok) (proj1 Hqok) Hrq); pglia.
  - done.
  - intros y p'. rw lookup_insert_Some. intros [[_ <-]|[_ Hy]]; [done|].
    intros Hin. apply (Hsep y p' Hy). by right.
  - by apply insert_subseteq.
  - intros a Ha. apply Hsame.
    + apply (Ha (x ++ [PX level va])). apply lookup_insert_eq.
    + assert (off_page p a) as Hp'.
      { apply (Ha x). rw lookup_insert_ne //. intros E. apply (f_equal length) in E.
        rw length_app /= in E. lia. }
      pose proof (entry_range p (PX level va) Hpok Hi). rw /off_page /e in Hp' |- *. pglia.
  - intros y p'. rw lookup_insert_Some. intros [[_ <-]|[_ Hy]]; [right; by left|by left].
  - by exists [q].
  - done.
  - done.
Qed.

#[local] Arguments walk_level : simpl never.

(** Without allocation, [walk] finds the entry or answers 0 and changes nothing. *)
Lemma walk_find s root T va n :
  pt_inv (mem s) root T -> 0 <= va < MAXVA ->
  walk root va false n s =
    Ok (match T !! [PX 2 va; PX 1 va] with Some p => p + 8 * PX 0 va | None => 0 end) s.
Proof.
  intros Hpt Hva. rw /walk (proj2 (Z.leb_gt _ _)); [|lia].
  simpl for_fold. rw /mbind /K_bind /=. pose proof (pt_root _ _ _ Hpt) as Hr.
  destruct (T !! [PX 2 va]) as [p1|] eqn:H1.
  - rw (walk_level_present _ root T [] _ _ _ _ p1) //=; [|lia].
    destruct (T !! [PX 2 va; PX 1 va]) as [p0|] eqn:H0.
    + rw (walk_level_present _ root T [PX 2 va] _ _ _ _ p0) //=. lia.
    + rw (walk_level_absent _ root T [PX 2 va]) //=. lia.
  - rw (walk_level_absent _ root T []) //=; [|lia].
    destruct (T !! [PX 2 va; PX 1 va]) as [p0|] eqn:H0; [|done].
    apply (pt_prefix _ _ _ Hpt [PX 2 va]) in H0 as [? ?]. congruence.
Qed.

(** With allocation, [walk] returns the entry, building tables as needed, or
    0 when the pages ran out. *)
Lemma walk_alloc s root T l va n :
  vm_inv s root T l -> 0 <= va < MAXVA ->
  wp (walk root va true) n s (fun pte s' => exists T' l',
    vm_inv s' root T' l' /\ pt_grow s T l s' T' l' /\
    (pte = 0 /\ l' = [] \/
     exists p, T' !! [PX 2 va; PX 1 va] = Some p /\ pte = p + 8 * PX 0 va /\ pte <> 0)).
Proof.
  intros Hinv Hva. rw /walk (proj2 (Z.leb_gt _ _)); [|lia]. simpl for_fold.
  apply wp_bind, wp_bind.
  eapply wp_mono; [apply (walk_level_alloc s root T l [] root va 2 n);
    [done | by apply (pt_root (mem s)), Hinv | simpl; lia | done]|].
  intros [p1|] s1 (T1 & l1 & Hinv1 & Hg1 & Hr1); last first.
  { wsteps. exists T1, l1. auto. }
  apply wp_bind. eapply wp_mono; [apply (walk_level_alloc s1 root T1 l1 [PX 2 va] p1 va 1 n); try done|].
  { simpl. lia. }
  intros [p0|] s2 (T2 & l2 & Hinv2 & Hg2 & Hr2); repeat apply wp_ret; exists T2, l2.
  - split_and!; [done|by eapply pt_grow_trans|]. right. exists p0. split_and!; [done..|].
    pose proof (pt_pages _ _ _ (vi_pt _ _ _ _ Hinv2) _ _ Hr2) as Hp0%page_ok_u64.
    pose proof (PX_range 0 va ltac:(done)). lia.
  - split_and!; [done|by eapply pt_grow_trans|]. by left.
Qed.

(** ** Lookup *)

(** The physical address a user access to [va] reaches, 0 for none. *)
Definition uaddr m T (va : Z) : Z :=
  if MAXVA <=? va then 0 else
  let v := leaf m T va in if Z.odd v && Z.testbit v 4 then PTE2PA v else 0.

Lemma land_U v : (Z.land v PTE_U =? 0) = negb (Z.testbit v 4).
Proof.
  change PTE_U with (2 ^ 4). destruct (Z.testbit v 4) eqn:E; simpl; [apply Z.eqb_neq | apply Z.eqb_eq].
  - intros H. apply (f_equal (fun z => Z.testbit z 4)) in H.
    rw Z.land_spec E Z.pow2_bits_true // in H.
  - apply Z.bits_inj'. intros k Hk. rw Z.land_spec Z.bits_0.
    destruct (decide (k = 4)) as [->|]; [by rw E|]. rw Z.pow2_bits_false; [|lia]. apply andb_false_r.
Qed.

Lemma entry_nonzero m root T x p i :
  pt_inv m root T -> T !! x = Some p -> 0 <= i -> (p + 8 * i =? 0) = false.
Proof.
  intros Hpt Hx Hi. apply Z.eqb_neq.
  pose proof (page_ok_u64 _ (pt_pages _ _ _ Hpt _ _ Hx)). lia.
Qed.

Lemma walkaddr_run s root T va n :
  pt_inv (mem s) root T -> 0 <= va -> walkaddr root va n s = Ok (uaddr (mem s) T va) s.
Proof.
  intros Hpt Hva. destruct (MAXVA <=? va) eqn:E; [by rw /walkaddr /uaddr E|].
  rw /walkaddr E /mbind /K_bind /= (walk_find s root T va n Hpt) /=; [|zbool; lia].
  destruct (T !! [PX 2 va; PX 1 va]) as [p|] eqn:Hp; [|by rw /uaddr E /leaf Hp].
  rw (entry_nonzero _ _ _ _ _ _ Hpt Hp) /= ?valid_odd ?land_U /uaddr ?E /leaf ?Hp; [|by apply PX_range].
  by destruct (Z.odd _), (Z.testbit _ 4).
Qed.

(** ** Changing one entry *)

Definition same_page (va vb : Z) : Prop := PX 2 va = PX 2 vb /\ PX 1 va = PX 1 vb /\ PX 0 va = PX 0 vb.
#[global] Instance same_page_dec va vb : Decision (same_page va vb).
Proof. rw /same_page. apply _. Defined.

Lemma same_page_aligned va vb :
  va mod PGSIZE = 0 -> 0 <= va < MAXVA -> vb mod PGSIZE = 0 -> 0 <= vb < MAXVA ->
  same_page va vb <-> va = vb.
Proof.
  intros ????. split; [|by intros ->]. intros (? & ? & ?). by apply PX_eq.
Qed.

Lemma pt_inv_leaf m root T va p v :
  pt_inv m root T -> T !! [PX 2 va; PX 1 va] = Some p -> 0 <= v < 2 ^ 64 ->
  let m' := st64 m (p + 8 * PX 0 va) v in
  pt_inv m' root T /\
  forall vb, leaf m' T vb = if decide (same_page va vb) then v else leaf m T vb.
Proof.
  intros Hpt Hp Hv m'. pose proof Hpt as [Hr Hpg Hd Hi Hpre He].
  assert (forall x q j, T !! x = Some q -> 0 <= j < 512 -> x <> [PX 2 va; PX 1 va] \/ j <> PX 0 va ->
            ld64 m' (q + 8 * j) = ld64 m (q + 8 * j)) as Hkeep.
  { intros x q j Hx Hj Hne. apply ldn_stn_ne.
    apply (entries_disjoint p q (PX 0 va) j); try by eauto using PX_range.
    - by apply PX_range.
    - destruct Hne as [Hne|Hne]; [left|right; lia]. intros ->. apply Hne. by eapply Hi. }
  split; [split; try done|].
  - intros x q i Hx Hl Hii. rw (Hkeep x) //; [by apply He|]. left. intros ->. simpl in Hl. lia.
  - intros vb. rw /leaf. case_decide as Hs.
    + destruct Hs as (H2 & H1 & H0). rw -H2 -H1 -H0 Hp /m' ld64_st64_eq u64_small //.
    + destruct (T !! [PX 2 vb; PX 1 vb]) as [q|] eqn:Hq; [|done].
      apply (Hkeep _ _ _ Hq); [by apply PX_range|].
      destruct (decide (PX 0 vb = PX 0 va)) as [E|]; [left|by right].
      intros [= E2 E1]. by apply Hs.
Qed.

(** Writing inside the tables of [T] keeps the rest of the subsystem. *)
Lemma vm_inv_leaf s root T l va p v :
  vm_inv s root T l -> T !! [PX 2 va; PX 1 va] = Some p -> 0 <= v < 2 ^ 64 ->
  let s' := set_mem (st64 (mem s) (p + 8 * PX 0 va) v) s in
  vm_inv s' root T l /\ pt_frame s T l s' T l /\
  forall vb, leaf (mem s') T vb = if decide (same_page va vb) then v else leaf (mem s) T vb.
Proof.
  intros [Hlk Hf Hpt Hsep] Hp Hv s'.
  destruct (pt_inv_leaf _ _ _ _ _ _ Hpt Hp Hv) as [Hpt' Hleaf].
  pose proof (pt_pages _ _ _ Hpt _ _ Hp) as Hpok.
  pose proof (entry_range p (PX 0 va) Hpok (PX_range 0 va ltac:(done))) as Her.
  split_and!; [split; try done|split; auto|exact Hleaf].
  - destruct Hf as [Hfl Hnd]. split; [|done]. simpl.
    apply (flist_off_page (mem s) _ _ _ p); [|apply Hpok|by eapply Hsep|done].
    intros a Ha. apply ld8_stn_out. rw /off_page in Ha. pglia.
  - intros a Ha. apply ld8_stn_out. specialize (Ha _ _ Hp). rw /off_page in Ha. pglia.
Qed.

(** ** Mapping a range *)

Lemma leaf_table m T va :
  Z.odd (leaf m T va) = true -> exists p, T !! [PX 2 va; PX 1 va] = Some p.
Proof. rw /leaf. destruct (T !! [PX 2 va; PX 1 va]); [eauto|done]. Qed.

Definition new_pte (pa perm : Z) : Z := Z.lor (Z.lor (PA2PTE pa) perm) PTE_V.

(** [leaf'] is [lf] with the [j] pages from [va] on mapped to [pa]. *)
Definition mapped (va pa perm j : Z) (lf lf' : Z -> Z) : Prop :=
  forall b, b mod PGSIZE = 0 -> 0 <= b < MAXVA ->
    lf' b = if decide (va <= b < va + PGSIZE * j) then new_pte (pa + (b - va)) perm else lf b.

Lemma mapped_S va pa perm j (lf lf1 lf2 : Z -> Z) :
  va mod PGSIZE = 0 -> 0 <= j -> 0 <= va -> va + PGSIZE * (j + 1) <= MAXVA ->
  mapped va pa perm j lf lf1 ->
  (forall b, lf2 b = if decide (same_page (va + PGSIZE * j) b)
                     then new_pte (pa + PGSIZE * j) perm else lf1 b) ->
  mapped va pa perm (j + 1) lf lf2.
Proof.
  intros Hva Hj H0 Hmax H1 H2 b Hb Hbr. rw H2.
  assert ((va + PGSIZE * j) mod PGSIZE = 0) as Hm by by rw Z.mul_comm Z.mod_add.
  destruct (decide (same_page _ _)) as [E|E];
    rw same_page_aligned // in E; [|pglia| |pglia].
  - rw -E decide_True; [|pglia]. f_equal. lia.
  - rw H1 //. repeat case_decide; try done; [pglia|].
    destruct (pages_disjoint b (va + PGSIZE * j) Hb Hm); [congruence|pglia..].
Qed.

Lemma idx_div va i k : (va + PGSIZE * k - (va + PGSIZE * i)) / PGSIZE = k - i.
Proof.
  replace (va + PGSIZE * k - (va + PGSIZE * i)) with ((k - i) * PGSIZE) by lia.
  by rw Z.div_mul.
Qed.
Lemma aligned_add va j : va mod PGSIZE = 0 -> (va + PGSIZE * j) mod PGSIZE = 0.
Proof. intros. by rw Z.mul_comm Z.mod_add. Qed.
Lemma MAXVA_lt : MAXVA + PGSIZE < 2 ^ 64.
Proof. done. Qed.

Lemma mappages_wp s root T l va k pa perm n :
  vm_inv s root T l -> va mod PGSIZE = 0 -> 0 <= va -> 0 < k -> va + PGSIZE * k <= MAXVA ->
  pa mod PGSIZE = 0 -> 0 <= pa -> pa + PGSIZE * k <= 2 ^ 56 -> 0 <= perm < 1024 ->
  (forall j, 0 <= j < k -> Z.odd (leaf (mem s) T (va + PGSIZE * j)) = false) ->
  k < Z.of_nat n ->
  wp (mappages root va (PGSIZE * k) pa perm) n s (fun r s' => exists T' l' j,
    vm_inv s' root T' l' /\ pt_frame s T l s' T' l' /\
    mapped va pa perm j (leaf (mem s) T) (leaf (mem s') T') /\
    (r = 0 /\ j = k \/ r = -1 /\ l' = [] /\ 0 <= j < k)).
Proof.
  intros Hinv Hva Hva0 Hk Hmax Hpa Hpa0 Hpamax Hperm Hfree Hn.
  pose proof MAXVA_lt as Hmv.
  assert (PGROUNDDOWN va = va) as Hrd by (apply PGROUNDDOWN_aligned; [pglia|done]).
  assert (PGROUNDDOWN (u64 (va + PGSIZE * k - 1)) = va + PGSIZE * (k - 1)) as Hlast.
  { rw u64_small; [|pglia]. rw PGROUNDDOWN_spec; [|pglia].
    replace (va + PGSIZE * k - 1) with (4095 + (va + PGSIZE * (k - 1))) by pglia.
    rw Z.add_mod // aligned_add // Z.add_0_r Z.mod_mod // Z.mod_small; pglia. }
  rw /mappages Hrd Hlast.
  apply (wp_loop
    (fun '(a, pa') s' => exists T' l' i, 0 <= i < k /\ a = va + PGSIZE * i /\ pa' = pa + PGSIZE * i /\
       vm_inv s' root T' l' /\ pt_frame s T l s' T' l' /\
       mapped va pa perm i (leaf (mem s) T) (leaf (mem s') T'))
    (fun '(a, _) _ => Z.to_nat ((va + PGSIZE * k - a) / PGSIZE))).
  { exists T, l, 0. split_and!; [lia..|done|apply pt_frame_refl|].
    intros b Hb Hbr. by rw decide_False; [|lia]. }
  { replace va with (va + PGSIZE * 0) at 2 by lia. rw idx_div. lia. }
  intros [a pa'] s1 (T1 & l1 & i & Hi & -> & -> & Hinv1 & Hfr1 & Hm1).
  apply wp_bind. eapply wp_mono; [apply (walk_alloc s1 root T1 l1); [done|pglia]|].
  intros pte s2 (T2 & l2 & Hinv2 & [Hfr2 Hlf2] & Hpte).
  destruct Hpte as [[-> ->]|(p & Hp & -> & Hp0)].
  { rw /=. wsteps. exists T2, [], i. split_and!; [done|by eapply pt_frame_trans| |right; split_and!; [done|done|lia..]].
    intros b Hb Hbr. rw Hlf2. by apply Hm1. }
  rw (proj2 (Z.eqb_neq _ _) Hp0). apply wp_bind, wp_gets.
  assert (Z.odd (ld64 (mem s2) (p + 8 * PX 0 (va + PGSIZE * i))) = false) as Hodd.
  { pose proof (Hlf2 (va + PGSIZE * i)) as Hl. rw {1}/leaf Hp in Hl. rw Hl Hm1.
    - by rw decide_False; [apply Hfree | pglia].
    - by apply aligned_add.
    - pglia. }
  rw valid_odd Hodd /=. apply wp_bind, wp_modify.
  destruct (vm_inv_leaf s2 root T2 l2 (va + PGSIZE * i) p (new_pte (pa + PGSIZE * i) perm))
    as (Hinv3 & Hfr3 & Hlf3); [done|done|apply pte_range; [by apply aligned_add|pglia|done]|].
  assert (mapped va pa perm (i + 1) (leaf (mem s) T) (leaf (mem (set_mem
     (st64 (mem s2) (p + 8 * PX 0 (va + PGSIZE * i)) (new_pte (pa + PGSIZE * i) perm)) s2)) T2)) as Hm3.
  { eapply (mapped_S va pa perm i _ (leaf (mem s2) T2)); [done|lia|done|pglia| |exact Hlf3].
    intros b Hb Hbr. rw Hlf2. by apply Hm1. }
  pose proof (pt_frame_trans _ _ _ _ _ _ _ _ _ (pt_frame_trans _ _ _ _ _ _ _ _ _ Hfr1 Hfr2) Hfr3) as Hfr.
  destruct (Z.eqb_spec (va + PGSIZE * i) (va + PGSIZE * (k - 1))) as [E|E].
  - apply wp_ret. exists T2, l2, (i + 1). split_and!; [done..|left; pglia].
  - apply wp_ret. split; [|rw !u64_small; [|pglia..]].
    + exists T2, l2, (i + 1). rw !u64_small; [|pglia..]. split_and!; [pglia|pglia|pglia|pglia|done..].
    + replace (va + PGSIZE * i + PGSIZE) with (va + PGSIZE * (i + 1)) by lia.
      rw !idx_div. pglia.
Qed.

(** ** Unmapping a range *)

(** Writes that avoid the table pages keep the table. *)
Lemma pt_inv_ext m m' root T :
  (forall x p a, T !! x = Some p -> p <= a < p + PGSIZE -> ld8 m' a = ld8 m a) ->
  pt_inv m root T -> pt_inv m' root T /\ forall va, leaf m' T va = leaf m T va.
Proof.
  intros Hext Hpt. pose proof Hpt as [Hr Hpg Hd Hi Hpre He].
  assert (forall x p i, T !! x = Some p -> 0 <= i < 512 -> ld64 m' (p + 8 * i) = ld64 m (p + 8 * i)) as Hld.
  { intros x p i Hx Hii. apply ldn_ext. intros a Ha. apply (Hext x p); [done|].
    pose proof (entry_range p i (Hpg _ _ Hx) Hii). lia. }
  split; [split; try done|].
  - intros x p i Hx Hl Hii. rw (Hld x) //. by apply He.
  - intros va. rw /leaf. destruct (T !! [PX 2 va; PX 1 va]) as [p|] eqn:E; [|done].
    apply (Hld _ _ _ E). by apply PX_range.
Qed.

(** The physical pages the [k] pages from [va] on are mapped to. *)
Definition range_pages (lf : Z -> Z) (va : Z) (k : nat) : list Z :=
  (fun j => PTE2PA (lf (va + PGSIZE * j))) <$> rangeZ k.

Lemma range_pages_S lf va k :
  range_pages lf va (S k) = range_pages lf va k ++ [PTE2PA (lf (va + PGSIZE * Z.of_nat k))].
Proof. by rw /range_pages /rangeZ seq_S !fmap_app. Qed.
Lemma elem_of_range_pages lf va k p :
  p ∈ range_pages lf va k <-> exists j, 0 <= j < Z.of_nat k /\ p = PTE2PA (lf (va + PGSIZE * j)).
Proof.
  rw /range_pages list_elem_of_fmap. setoid_rewrite elem_of_rangeZ.
  split; [intros (j & -> & ?) | intros (j & ? & ->)]; eauto.
Qed.

(** Freeing a page that no table and no free page occupies. *)
Lemma vm_inv_kfree s root T l p n :
  vm_inv s root T l -> page_ok p -> p ∉ l -> (forall x, T !! x <> Some p) ->
  wp (kfree p) n s (fun _ s' => vm_inv s' root T (p :: l) /\
    (forall va, leaf (mem s') T va = leaf (mem s) T va) /\ lk s' = lk s /\
    forall a, off_page p a -> ld8 (mem s') a = ld8 (mem s) a).
Proof.
  intros [Hlk Hf Hpt Hsep] Hp Hnin HT.
  destruct (kfree_free s p l n) as (s' & Hrun & Hf' & Hlk' & _ & Hoff); [done..|].
  rw /wp Hrun. destruct (pt_inv_ext (mem s) (mem s') root T) as [Hpt' Hleaf]; [|done|].
  { intros x q a Hx Ha. apply Hoff.
    assert (q <> p) as Hne by (intros ->; by eapply HT).
    pose proof (pt_pages _ _ _ Hpt _ _ Hx) as [Hqm _]. destruct Hp as [Hpm _].
    destruct (pages_disjoint q p Hqm Hpm Hne); rw /off_page; pglia. }
  split_and!; [|done..]. split; [by rw /free_lock Hlk'|done|done|].
  intros x q Hx [->|Hin]%elem_of_cons; [by eapply HT|by eapply Hsep].
Qed.

(** [lf'] is [lf] with the [j] pages from [va] on unmapped. *)
Definition unmapped (va j : Z) (lf lf' : Z -> Z) : Prop :=
  forall b, b mod PGSIZE = 0 -> 0 <= b < MAXVA ->
    lf' b = if decide (va <= b < va + PGSIZE * j) then 0 else lf b.

Lemma unmapped_S va j (lf lf1 lf2 : Z -> Z) :
  va mod PGSIZE = 0 -> 0 <= j -> 0 <= va -> va + PGSIZE * (j + 1) <= MAXVA ->
  unmapped va j lf lf1 ->
  (forall b, lf2 b = if decide (same_page (va + PGSIZE * j) b) then 0 else lf1 b) ->
  unmapped va (j + 1) lf lf2.
Proof.
  intros Hva Hj H0 Hmax H1 H2 b Hb Hbr. rw H2.
  assert ((va + PGSIZE * j) mod PGSIZE = 0) as Hm by by apply aligned_add.
  destruct (decide (same_page _ _)) as [E|E];
    rw same_page_aligned // in E; [|pglia| |pglia].
  - rw -E decide_True; [done|pglia].
  - rw H1 //. repeat case_decide; try done; [pglia|].
    destruct (pages_disjoint b (va + PGSIZE * j) Hb Hm); [congruence|pglia..].
Qed.

Lemma uvmunmap_wp s root T l va k (do_free : bool) n :
  let pages := range_pages (leaf (mem s) T) va k in
  vm_inv s root T l -> va mod PGSIZE = 0 -> 0 <= va -> va + PGSIZE * Z.of_nat k <= MAXVA ->
  (forall j, 0 <= j < Z.of_nat k -> Z.odd (leaf (mem s) T (va + PGSIZE * j)) = true /\
     PTE_FLAGS (leaf (mem s) T (va + PGSIZE * j)) <> PTE_V) ->
  (do_free = true -> NoDup pages /\
     forall p, p ∈ pages -> page_ok p /\ (p ∉ l) /\ (forall x, T !! x <> Some p)) ->
  (k < n)%nat ->
  wp (uvmunmap root va (Z.of_nat k) do_free) n s (fun _ s' =>
    vm_inv s' root T (if do_free then rev pages ++ l else l) /\ lk s' = lk s /\
    unmapped va (Z.of_nat k) (leaf (mem s) T) (leaf (mem s') T) /\
    forall a, (forall x p, T !! x = Some p -> off_page p a) ->
      (do_free = true -> forall p, p ∈ pages -> off_page p a) -> ld8 (mem s') a = ld8 (mem s) a).
Proof.
  intros pages Hinv Hva Hva0 Hmax Hleaf Hfree Hn. pose proof MAXVA_lt as Hmv.
  rw /uvmunmap Hva /=.
  apply (wp_loop
    (fun a s' => exists i : nat, (i <= k)%nat /\ a = va + PGSIZE * Z.of_nat i /\
       vm_inv s' root T (if do_free then rev (range_pages (leaf (mem s) T) va i) ++ l else l) /\
       lk s' = lk s /\
       unmapped va (Z.of_nat i) (leaf (mem s) T) (leaf (mem s') T) /\
       forall a, (forall x p, T !! x = Some p -> off_page p a) ->
         (do_free = true -> forall p, p ∈ pages -> off_page p a) -> ld8 (mem s') a = ld8 (mem s) a)
    (fun a _ => Z.to_nat ((va + PGSIZE * Z.of_nat k - a) / PGSIZE))).
  { exists O. split_and!; [lia|lia| |done| |done].
    - by destruct do_free.
    - intros b _ _. by rw decide_False; [|lia]. }
  { replace va with (va + PGSIZE * 0) at 2 by lia. rw idx_div. lia. }
  intros a s1 (i & Hik & -> & Hinv1 & Hlk1 & Hun1 & Hfr1).
  replace (Z.of_nat k * PGSIZE) with (PGSIZE * Z.of_nat k) by lia. rw (u64_small (va + _)); [|pglia].
  destruct (Z.ltb_spec (va + PGSIZE * Z.of_nat i) (va + PGSIZE * Z.of_nat k)) as [Hlt|Hge]; simpl; last first.
  { assert (i = k) as -> by pglia. by apply wp_ret. }
  destruct (Hleaf (Z.of_nat i)) as [Hodd Hflg]; [pglia|].
  set (b := va + PGSIZE * Z.of_nat i) in *.
  assert (b mod PGSIZE = 0) as Hb by by apply aligned_add.
  assert (leaf (mem s1) T b = leaf (mem s) T b) as Hlb.
  { rw Hun1 //; [|pglia]. rw decide_False //. subst b. pglia. }
  destruct (leaf_table _ _ _ Hodd) as [p Hp].
  pose proof (vi_pt _ _ _ _ Hinv1) as Hpt1.
  apply wp_bind. rw /wp (walk_find s1 root T b n) //; [|pglia]. rw Hp.
  rw (entry_nonzero _ _ _ _ _ _ Hpt1 Hp); [|by apply PX_range].
  apply wp_bind, wp_gets.
  assert (ld64 (mem s1) (p + 8 * PX 0 b) = leaf (mem s) T b) as -> by (by rw -Hlb /leaf Hp).
  rw valid_odd Hodd /= (proj2 (Z.eqb_neq _ _) Hflg).
  set (q := PTE2PA (leaf (mem s) T b)).
  set (l1 := if do_free then rev (range_pages (leaf (mem s) T) va i) ++ l else l) in *.
  apply wp_bind.
  assert (wp (when do_free (kfree q)) n s1 (fun _ s2 =>
    vm_inv s2 root T (if do_free then q :: l1 else l1) /\ lk s2 = lk s1 /\
    (forall va, leaf (mem s2) T va = leaf (mem s1) T va) /\
    forall a, (do_free = true -> off_page q a) -> ld8 (mem s2) a = ld8 (mem s1) a)) as Hw.
  { destruct do_free; [|by apply wp_ret].
    destruct (Hfree eq_refl) as [Hnd Hpg].
    assert (pages = range_pages (leaf (mem s) T) va i ++ q :: drop (S i) pages) as Hsplit.
    { rw /pages. assert (range_pages (leaf (mem s) T) va k !! i = Some q) as Hi.
      { rw /range_pages list_lookup_fmap rangeZ_lookup //; pglia. }
      rw -{1}(take_drop_middle _ i q Hi). f_equal.
      rw /range_pages /rangeZ -!fmap_take take_seq. do 3 f_equal. lia. }
    destruct (Hpg q) as (Hq1 & Hq2 & Hq3).
    { rw Hsplit elem_of_app elem_of_cons. auto. }
    eapply wp_mono; [apply (vm_inv_kfree s1 root T l1 q n); [done|done| |done]|].
    - rw /l1 elem_of_app list_elem_of_In -in_rev -list_elem_of_In. intros [Hin|Hin]; [|done].
      rw Hsplit in Hnd. apply NoDup_app in Hnd as (_ & Hd & _). eapply Hd; [done|by left].
    - intros _ s2 (? & ? & ? & Hoff). split_and!; auto. }
  eapply wp_mono; [exact Hw|]. clear Hw. intros _ s2 (Hinv2 & Hlk2 & Hlf2 & Hoff2).
  apply wp_bind, wp_modify, wp_ret.
  destruct (vm_inv_leaf s2 root T _ b p 0 Hinv2 Hp) as (Hinv3 & Hfr3 & Hlf3); [done|].
  split.
  - exists (S i). rw u64_small; [|subst b; pglia]. split_and!; [pglia|subst b; pglia| | | |].
    + destruct do_free; [|done]. by rw range_pages_S rev_app_distr.
    + simpl. congruence.
    + rw Nat2Z.inj_succ. eapply (unmapped_S va (Z.of_nat i) _ (leaf (mem s2) T)); [done|lia|done|pglia| |exact Hlf3].
      intros c Hc Hcr. rw Hlf2. by apply Hun1.
    + intros a Ha Hpa. rw (pf_bytes _ _ _ _ _ _ Hfr3) // Hoff2 ?Hfr1 //.
      intros ->. apply Hpa; [done|]. apply elem_of_range_pages. exists (Z.of_nat i). split; [pglia|done].
  - rw u64_small; [|subst b; pglia]. subst b.
    replace (va + PGSIZE * Z.of_nat i + PGSIZE) with (va + PGSIZE * Z.of_nat (S i)) by lia.
    rw !idx_div. pglia.
Qed.

(** ** A page whose last-level table exists *)

(** No table is built then, whatever [alloc]. *)
Lemma walk_present s root T va alloc p n :
  pt_inv (mem s) root T -> 0 <= va < MAXVA -> T !! [PX 2 va; PX 1 va] = Some p ->
  walk root va alloc n s = Ok (p + 8 * PX 0 va) s.
Proof.
  intros Hpt Hva Hp. rw /walk (proj2 (Z.leb_gt _ _)); [|lia].
  simpl for_fold. rw /mbind /K_bind /=. pose proof (pt_root _ _ _ Hpt) as Hr.
  destruct (pt_prefix _ _ _ Hpt [PX 2 va] _ _ Hp) as [p1 H1].
  rw (walk_level_present _ root T [] _ _ _ _ p1) //=; [|lia].
  rw (walk_level_present _ root T [PX 2 va] _ _ _ _ p) //=. lia.
Qed.

(** [mappages] of one page then always succeeds. *)
Lemma mappages_one s root T va p pa perm n :
  pt_inv (mem s) root T -> va mod PGSIZE = 0 -> 0 <= va < MAXVA ->
  T !! [PX 2 va; PX 1 va] = Some p -> Z.odd (leaf (mem s) T va) = false ->
  mappages root va PGSIZE pa perm (S n) s =
    Ok 0 (set_mem (st64 (mem s) (p + 8 * PX 0 va) (new_pte pa perm)) s).
Proof.
  intros Hpt Hm Hva Hp Hlf. pose proof MAXVA_lt.
  assert (PGROUNDDOWN va = va) as Hrd by (apply PGROUNDDOWN_aligned; [pglia|done]).
  assert (PGROUNDDOWN (u64 (va + PGSIZE - 1)) = va) as Hlast.
  { rw u64_small; [|pglia]. rw PGROUNDDOWN_spec; [|pglia].
    replace (va + PGSIZE - 1) with (4095 + va) by pglia.
    rw Z.add_mod // Hm Z.add_0_r Z.mod_mod // Z.mod_small; pglia. }
  rw /mappages Hrd Hlast /loop /=. rw /mbind /K_bind /= (walk_present _ _ _ _ _ _ _ Hpt Hva Hp) /=.
  rw (entry_nonzero _ _ _ _ _ _ Hpt Hp) /=; [|by apply PX_range].
  rw valid_odd. rw /leaf Hp in Hlf. by rw Hlf /= Z.eqb_refl.
Qed.

(** [uvmunmap] of one mapped page. *)
Lemma uvmunmap_one s root T l va (do_free : bool) n :
  vm_inv s root T l -> va mod PGSIZE = 0 -> 0 <= va -> va + PGSIZE <= MAXVA ->
  Z.odd (leaf (mem s) T va) = true -> PTE_FLAGS (leaf (mem s) T va) <> PTE_V ->
  (do_free = true -> let p := PTE2PA (leaf (mem s) T va) in
     page_ok p /\ (p ∉ l) /\ (forall x, T !! x <> Some p)) ->
  (1 < n)%nat ->
  wp (uvmunmap root va 1 do_free) n s (fun _ s' =>
    vm_inv s' root T (if do_free then PTE2PA (leaf (mem s) T va) :: l else l) /\ lk s' = lk s /\
    unmapped va 1 (leaf (mem s) T) (leaf (mem s') T)).
Proof.
  intros Hinv Hm Hva Hmax Hodd Hflg Hfree Hn.
  assert (range_pages (leaf (mem s) T) va 1 = [PTE2PA (leaf (mem s) T va)]) as Hrp
    by by rw /range_pages /= Z.mul_0_r Z.add_0_r.
  eapply wp_mono; [apply (uvmunmap_wp s root T l va 1 do_free n); try done|].
  - intros j Hj. replace (va + PGSIZE * j) with va; [done|]. assert (j = 0) as -> by lia. lia.
  - rw Hrp. intros Hd. split; [apply NoDup_singleton|].
    intros p ->%list_elem_of_singleton. by apply Hfree.
  - rw Hrp. intros _ s' (Hinv' & Hlk & Hun & _). split_and!; [|done|done].
    by destruct do_free.
Qed.

(** Taking a page off the free list. *)
Lemma vm_inv_kalloc s root T p l n :
  vm_inv s root T (p :: l) ->
  exists s', kalloc n s = Ok p s' /\ vm_inv s' root T l /\ lk s' = lk s /\ out s' = out s /\
    (forall va, leaf (mem s') T va = leaf (mem s) T va) /\
    (forall a, off_page p a -> ld8 (mem s') a = ld8 (mem s) a).
Proof.
  intros [Hlk Hf Hpt Hsep]. pose proof Hf as [(_ & Hp & _) _].
  destruct (kalloc_alloc s p l n Hlk Hf) as (s' & Hrun & Hf' & Hlk' & Hout & Hoff & _).
  destruct (pt_inv_ext (mem s) (mem s') root T) as [Hpt' Hleaf]; [|done|].
  { intros x q a Hx Ha. apply Hoff.
    assert (q <> p) as Hne by (intros ->; by eapply Hsep; [|left]).
    destruct (pages_disjoint q p) as [?|?]; [apply (pt_pages _ _ _ Hpt _ _ Hx)|apply Hp|done|left; lia|right; lia]. }
  exists s'. split_and!; [done| |done..]. split; [by rw /free_lock Hlk'|done|done|].
  intros x q Hx Hin. by eapply Hsep; [|right].
Qed.

End ptinv.
