(* ===== verification/VmCopy.v ===== *)
(** * [copyout] and [copyin] of [kernel/vm.c]

    What the two copy loops move, byte for byte.  The word loop of [mymemmove]
    leaves out the bytes after the last full word, so a copy whose source and
    destination are congruent modulo 8 misses the tail of its last chunk:
    [lost] is the number of bytes missed, and the theorems give the exact
    contents of memory after the copy. *)

From S2P Require Import Prelude Mem KString Spinlock Machine Kalloc Vm VmInv.

Section vmcopy.
Context {lay : Layout}.
Implicit Types (m : memory) (T : gmap (list Z) Z) (s : mstate).

(** The physical page and byte a user address reaches. *)
Definition upage m T (va : Z) : Z := uaddr m T (va - va mod PGSIZE).
Definition uphys m T (va : Z) : Z := upage m T va + va mod PGSIZE.

(** Bytes at the end of a chunk of [n] bytes that [mymemmove] does not copy. *)
Definition chunk_lost (d s n : Z) : Z :=
  if (8 <=? n) && (d mod 8 =? 0) && (s mod 8 =? 0) then n mod 8 else 0.
(** Start of the last chunk of a copy of [len] bytes, pages taken from [u]. *)
Definition last_chunk (u len : Z) : Z := Z.max u (u + len - 1 - (u + len - 1) mod PGSIZE).
Definition lost (u k len : Z) : Z :=
  let c := last_chunk u len in chunk_lost c (k + (c - u)) (u + len - c).

(** A user range for a copy against the kernel range [k, k + len): the pages
    it reaches are no tables, hold none of the kernel range, and are
    distinct. *)
Record user_range m T (u k len : Z) : Prop := {
  ur_table : forall va x p, u <= va < u + len -> T !! x = Some p -> upage m T va <> p;
  ur_kern : forall va a, u <= va < u + len -> upage m T va <> 0 -> k <= a < k + len ->
    off_page (upage m T va) a;
  ur_inj : forall va vb, u <= va < u + len -> u <= vb < u + len ->
    upage m T va <> 0 -> upage m T va = upage m T vb -> va - va mod PGSIZE = vb - vb mod PGSIZE;
}.

(** ** Arithmetic of chunks *)

Lemma PTE2PA_aligned v : PTE2PA v mod PGSIZE = 0.
Proof.
  rw /PTE2PA Z.shiftl_mul_pow2 //. rw /u64. change (2 ^ 64) with (2 ^ 52 * PGSIZE).
  change (2 ^ 12) with PGSIZE. rw Z.mul_mod_distr_r //. by rw Z.mod_mul.
Qed.
Lemma upage_aligned m T va : upage m T va mod PGSIZE = 0.
Proof. rw /upage /uaddr. repeat case_match; (done || apply PTE2PA_aligned). Qed.
Lemma upage_nonneg m T va : 0 <= upage m T va.
Proof. rw /upage /uaddr. repeat case_match; (done || apply u64_range). Qed.

Lemma mod_8_page z : z mod PGSIZE mod 8 = z mod 8.
Proof.
  rw {2}(Z.div_mod z PGSIZE) //. rw /PGSIZE.
  replace (4096 * (z / 4096)) with (512 * (z / 4096) * 8) by lia.
  by rw Z.add_comm Z.mod_add.
Qed.
Lemma aligned_8 z : z mod PGSIZE = 0 -> z mod 8 = 0.
Proof. intros H. by rw -mod_8_page H. Qed.

Lemma page_base u off :
  0 <= off -> u mod PGSIZE + off < PGSIZE ->
  (u + off) mod PGSIZE = u mod PGSIZE + off /\
  u + off - (u + off) mod PGSIZE = u - u mod PGSIZE.
Proof.
  intros H0 H. pose proof (Z.mod_pos_bound u PGSIZE ltac:(done)).
  assert ((u + off) mod PGSIZE = u mod PGSIZE + off) as E; [|lia].
  rw {1}(Z.div_mod u PGSIZE) // -Z.add_assoc Z.add_comm Z.mul_comm Z.mod_add //.
  apply Z.mod_small. lia.
Qed.

Lemma moved_chunk pa u k n :
  pa mod PGSIZE = 0 -> 0 <= n -> (forall a, k <= a < k + n -> off_page pa a) ->
  u mod PGSIZE + n <= PGSIZE ->
  moved (pa + u mod PGSIZE) k n = n - chunk_lost u k n /\
  moved k (pa + u mod PGSIZE) n = n - chunk_lost u k n.
Proof.
  intros Hpa Hn Hdis Hu. pose proof (Z.mod_pos_bound u PGSIZE ltac:(done)).
  assert ((pa + u mod PGSIZE) mod 8 = u mod 8) as H8.
  { by rw Z.add_mod // (aligned_8 pa) // mod_8_page Z.add_0_l Z.mod_mod. }
  rw /moved /word_path /chunk_lost !land_7 !H8.
  destruct (Z.leb_spec 8 n) as [H8n|]; simpl; [|lia].
  pose proof (Hdis k ltac:(lia)). pose proof (Hdis (k + n - 1) ltac:(lia)).
  assert (k <= pa < k + n -> False) by (intros; destruct (Hdis pa); lia || pglia).
  rw /off_page in H0 H1.
  replace ((k <? pa + u mod PGSIZE) && (pa + u mod PGSIZE <? k + n)) with false; last first.
  { symmetry. destruct (Z.ltb_spec k (pa + u mod PGSIZE)), (Z.ltb_spec (pa + u mod PGSIZE) (k + n)); try done.
    exfalso. destruct (Hdis (pa + u mod PGSIZE)); [lia|pglia..]. }
  replace ((pa + u mod PGSIZE <? k) && (k <? pa + u mod PGSIZE + n)) with false; last first.
  { symmetry. destruct (Z.ltb_spec (pa + u mod PGSIZE) k), (Z.ltb_spec k (pa + u mod PGSIZE + n)); try done.
    exfalso. pglia. }
  rw !andb_true_r. pose proof (Z.div_mod n 8 ltac:(done)).
  destruct (u mod 8 =? 0), (k mod 8 =? 0); simpl; lia.
Qed.

(** A chunk that ends at a page boundary loses nothing, and the rest of the
    copy loses what the whole copy loses. *)
Lemma chunk_inner u k len :
  let n := PGSIZE - u mod PGSIZE in
  n < len -> chunk_lost u k n = 0 /\ lost (u + n) (k + n) (len - n) = lost u k len /\
             (u + n) mod PGSIZE = 0.
Proof.
  intros n Hn. pose proof (Z.mod_pos_bound u PGSIZE ltac:(done)).
  assert ((u + n) mod PGSIZE = 0) as Hm.
  { subst n. replace (u + (PGSIZE - u mod PGSIZE)) with ((u / PGSIZE + 1) * PGSIZE).
    - by rw Z.mod_mul.
    - pose proof (Z.div_mod u PGSIZE ltac:(done)). lia. }
  split_and!; [|clear Hm|done].
  - rw /chunk_lost. destruct (Z.eqb_spec (u mod 8) 0) as [E|]; [|by rw andb_false_r].
    assert (n mod 8 = 0) as ->; [|by case_match].
    apply aligned_8 in Hm. rw Z.add_mod // E Z.add_0_l Z.mod_mod // in Hm.
  - rw /lost /last_chunk. replace (u + n + (len - n) - 1) with (u + len - 1) by lia.
    pose proof (Z.div_mod (u + len - 1) PGSIZE ltac:(done)).
    pose proof (Z.mod_pos_bound (u + len - 1) PGSIZE ltac:(done)).
    pose proof (Z.div_mod u PGSIZE ltac:(done)).
    assert (u / PGSIZE < (u + len - 1) / PGSIZE) by (subst n; pglia).
    assert (u + n <= u + len - 1 - (u + len - 1) mod PGSIZE) by (subst n; pglia).
    rw !Z.max_r; [|lia..]. f_equal; lia.
Qed.
Lemma lost_last u k len :
  0 < len -> len <= PGSIZE - u mod PGSIZE -> lost u k len = chunk_lost u k len.
Proof.
  intros H0 Hle. destruct (page_base u (len - 1)) as [_ E]; [lia..|].
  rw /lost /last_chunk. replace (u + (len - 1)) with (u + len - 1) in E by lia. rw E.
  pose proof (Z.mod_pos_bound u PGSIZE ltac:(done)). rw Z.max_l; [|lia]. f_equal; lia.
Qed.
Lemma chunk_lost_range u k n : 0 <= n -> 0 <= chunk_lost u k n <= n /\ chunk_lost u k n < 8.
Proof.
  intros. rw /chunk_lost. pose proof (Z.mod_pos_bound n 8 ltac:(done)).
  pose proof (Z.mod_le n 8). case_match; lia.
Qed.

(** ** Addresses reached *)

Lemma aligned_unique p q a :
  p mod PGSIZE = 0 -> q mod PGSIZE = 0 -> p <= a < p + PGSIZE -> q <= a < q + PGSIZE -> p = q.
Proof.
  intros Hp Hq Ha Hb. destruct (decide (p = q)); [done|].
  destruct (pages_disjoint p q Hp Hq); [done|lia..].
Qed.
Lemma uphys_in m T va : upage m T va <= uphys m T va < upage m T va + PGSIZE.
Proof. pose proof (Z.mod_pos_bound va PGSIZE ltac:(done)). rw /uphys. lia. Qed.
Lemma uphys_page m T va p :
  p mod PGSIZE = 0 -> p <= uphys m T va < p + PGSIZE -> upage m T va = p.
Proof. intros Hp Ha. eapply aligned_unique; [apply upage_aligned|done|apply uphys_in|done]. Qed.
Lemma uphys_inj m T u k len va vb :
  user_range m T u k len -> u <= va < u + len -> u <= vb < u + len ->
  upage m T va <> 0 -> uphys m T va = uphys m T vb -> va = vb.
Proof.
  intros Hur Ha Hb H0 E.
  assert (upage m T va = upage m T vb) as Ep.
  { symmetry. apply uphys_page; [apply upage_aligned|]. rw -E. apply uphys_in. }
  pose proof (ur_inj _ _ _ _ _ Hur va vb Ha Hb H0 Ep). rw /uphys Ep in E. lia.
Qed.
Lemma uphys_chunk m T u off :
  0 <= off -> u mod PGSIZE + off < PGSIZE ->
  upage m T (u + off) = upage m T u /\ uphys m T (u + off) = uphys m T u + off.
Proof.
  intros H0 H. destruct (page_base u off H0 H) as [E1 E2].
  assert (upage m T (u + off) = upage m T u) as Ep by by rw /upage E2.
  split; [done|]. rw /uphys Ep E1. lia.
Qed.

(** ** [copyout] *)

(** [m'] is [m] with the [e] bytes at [k] copied to the user addresses from [u]. *)
Definition copied_out m T (u k e : Z) m' : Prop :=
  (forall va, u <= va < u + e -> ld8 m' (uphys m T va) = ld8 m (k + (va - u))) /\
  (forall a, (forall va, u <= va < u + e -> uphys m T va <> a) -> ld8 m' a = ld8 m a).

Lemma copied_out_pt m root T u k len e m' :
  pt_inv m root T -> user_range m T u k len -> e <= len -> copied_out m T u k e m' ->
  pt_inv m' root T /\ forall va, upage m' T va = upage m T va.
Proof.
  intros Hpt Hur He [_ Hout].
  destruct (pt_inv_ext m m' root T) as [Hpt' Hlf]; [|done|].
  { intros x p a Hx Ha. apply Hout. intros va Hva E.
    apply (ur_table _ _ _ _ _ Hur va x p); [lia|done|]. apply uphys_page; [|by rw E].
    by apply (pt_pages _ _ _ Hpt x). }
  split; [done|]. intros va. by rw /upage /uaddr Hlf.
Qed.

Lemma copied_out_step m T u k len c n m1 :
  let d := u + c in
  user_range m T u k len -> copied_out m T u k c m1 ->
  (forall va, u <= va < u + c -> upage m T va <> 0) -> upage m T d <> 0 ->
  0 <= c -> 0 < n -> c + n <= len -> d mod PGSIZE + n <= PGSIZE ->
  copied_out m T u k (c + n - chunk_lost d (k + c) n)
    (mymemmove m1 (upage m T d + d mod PGSIZE) (k + c) n).
Proof.
  intros d Hur [Hin Hout] Hold Hd Hc Hn Hle Hpg.
  destruct (chunk_lost_range d (k + c) n) as [Hcl _]; [lia|].
  destruct (moved_chunk (upage m T d) d (k + c) n) as [Hmv _];
    [apply upage_aligned|lia|intros a Ha; apply (ur_kern _ _ _ _ _ Hur d a); [lia|done|lia]|done|].
  assert (0 <= n < 2 ^ 32) as Hn32.
  { pose proof (Z.mod_pos_bound d PGSIZE ltac:(done)). pglia. }
  assert (forall off, 0 <= off < n -> uphys m T (d + off) = uphys m T d + off) as Hoff.
  { intros off Ho. apply uphys_chunk; lia. }
  split.
  - intros va Hva. rw ld8_mymemmove // Hmv. fold (uphys m T d).
    destruct (decide (va < d)) as [Hlt|Hge].
    + rw decide_False; [apply Hin; lia|]. intros Hr.
      enough (va = d + (uphys m T va - uphys m T d)) by lia.
      eapply (uphys_inj m T u k len); [done|lia|lia|apply Hold; lia|]. rw Hoff; lia.
    + assert (uphys m T va = uphys m T d + (va - d)) as ->.
      { rw -Hoff; [f_equal; lia|lia]. }
      rw decide_True; [|lia].
      replace (k + c + (uphys m T d + (va - d) - uphys m T d)) with (k + (va - u)) by lia.
      apply Hout. intros vb Hvb E.
      pose proof (ur_kern _ _ _ _ _ Hur vb (uphys m T vb) ltac:(lia) (Hold vb Hvb) ltac:(lia)) as Ho.
      pose proof (uphys_in m T vb). rw /off_page in Ho. lia.
  - intros a Ha. rw ld8_mymemmove // Hmv. fold (uphys m T d). rw decide_False.
    + apply Hout. intros va Hva. apply Ha. lia.
    + intros Hr. apply (Ha (d + (a - uphys m T d))); [lia|]. rw Hoff; lia.
Qed.

(** The outcome of [copyout]: everything but the [lost] tail, or -1 and the
    bytes before the first page that user code cannot access. *)
Definition copyout_post m T (u k len r : Z) m' : Prop :=
  r = 0 /\ (forall va, u <= va < u + len -> upage m T va <> 0) /\
    copied_out m T u k (len - lost u k len) m' \/
  r = -1 /\ exists c, 0 <= c < len /\ upage m T (u + c) = 0 /\ copied_out m T u k c m'.

Lemma upage_MAXVA m T va : upage m T va <> 0 -> va - va mod PGSIZE < MAXVA.
Proof. rw /upage /uaddr. case_match; zbool; [done|lia]. Qed.

Lemma chunk_size u rest :
  0 <= u < 2 ^ 64 -> 0 < rest ->
  let n := PGSIZE - (u - PGROUNDDOWN u) in
  u - PGROUNDDOWN u = u mod PGSIZE /\
  0 < (if rest <? n then rest else n) <= rest /\
  u mod PGSIZE + (if rest <? n then rest else n) <= PGSIZE.
Proof.
  intros Hu Hr. rw PGROUNDDOWN_spec //. pose proof (Z.mod_pos_bound u PGSIZE ltac:(done)).
  split_and!; [lia|case_match; zbool; lia..].
Qed.

(** What a chunk loop has done when [rest] of [len] bytes remain: the last
    chunk alone may lose bytes. *)
Definition done_bytes (u k len rest : Z) : Z :=
  if rest =? 0 then len - lost u k len else len - rest.

Lemma lost_0 u k : lost u k 0 = 0.
Proof.
  rw /lost /last_chunk. pose proof (Z.mod_pos_bound (u + 0 - 1) PGSIZE ltac:(done)).
  rw Z.max_l; [|lia]. by replace (u + 0 - u) with 0 by lia.
Qed.
Lemma done_0 u k len : 0 <= len -> done_bytes u k len len = 0.
Proof. intros. rw /done_bytes. destruct (Z.eqb_spec len 0) as [->|]; [by rw lost_0|lia]. Qed.

Lemma done_step u k len rest :
  let d := u + (len - rest) in
  let n0 := PGSIZE - d mod PGSIZE in
  let n := if rest <? n0 then rest else n0 in
  0 < rest <= len -> lost d (k + (len - rest)) rest = lost u k len ->
  len - rest + n - chunk_lost d (k + (len - rest)) n = done_bytes u k len (rest - n) /\
  (rest - n > 0 -> d + n = d - d mod PGSIZE + PGSIZE /\
     lost (d + n) (k + (len - rest) + n) (rest - n) = lost u k len).
Proof.
  intros d n0 n Hr Hl. pose proof (Z.mod_pos_bound d PGSIZE ltac:(done)).
  rw /done_bytes. subst n. destruct (Z.ltb_spec rest n0) as [Hlt|Hge];
    [|destruct (Z.eqb_spec (rest - n0) 0) as [E|Hne]].
  - rw Z.sub_diag /= -Hl lost_last; [lia|lia|subst n0; lia].
  - replace n0 with rest by lia. rw -Hl lost_last; [lia|lia|]. unfold n0 in E. lia.
  - destruct (chunk_inner d (k + (len - rest)) rest) as (Hz & Hn & _); [subst n0; lia|].
    fold n0 in Hz, Hn. rw Hz. split; [lia|]. intros _. split; [subst n0; lia|by rw Hn].
Qed.

Lemma copyout_wp s root T u k len n :
  pt_inv (mem s) root T -> user_range (mem s) T u k len ->
  0 <= u < 2 ^ 64 -> 0 <= len -> (Z.to_nat len < n)%nat ->
  wp (copyout root u k len) n s (fun r s' =>
    s' = set_mem (mem s') s /\ copyout_post (mem s) T u k len r (mem s')).
Proof.
  intros Hpt Hur Hu Hlen Hn. set (m := mem s).
  apply (wp_loop
    (fun '(d, src, rest) s' => 0 <= rest <= len /\ src = k + (len - rest) /\
       s' = set_mem (mem s') s /\
       (rest > 0 -> d = u + (len - rest) /\ 0 <= d < 2 ^ 64 /\ lost d src rest = lost u k len) /\
       (forall va, u <= va < u + (len - rest) -> upage m T va <> 0) /\
       copied_out m T u k (done_bytes u k len rest) (mem s'))
    (fun '(_, _, rest) _ => Z.to_nat rest)); [|done|].
  { replace (len - len) with 0 by lia. rw !Z.add_0_r done_0 //.
    split_and!; [lia..|by destruct s|done|lia|]. split; [lia|done]. }
  intros [[d src] rest] s1 (Hrest & -> & Hs1 & Hd & Hold & Hcp).
  destruct (Z.ltb_spec 0 rest) as [Hpos|]; simpl; last first.
  { assert (rest = 0) as -> by lia. apply wp_ret. split; [done|]. left.
    replace (len - 0) with len in Hold by lia. by split_and!. }
  destruct Hd as (-> & Hd & Hlost); [lia|]. set (d := u + (len - rest)) in *.
  destruct (chunk_size d rest Hd Hpos) as (Hoff & Hsz & Hfit).
  assert (done_bytes u k len rest = len - rest) as Edone
    by (rw /done_bytes (proj2 (Z.eqb_neq rest 0)); lia).
  rw Edone in Hcp. destruct (copied_out_pt m root T u k len (len - rest) (mem s1) Hpt Hur ltac:(lia) Hcp) as [Hpt1 Hup].
  pose proof (Z.mod_le d PGSIZE ltac:(lia) ltac:(done)) as Hmle.
  apply wp_bind. rw /wp (walkaddr_run s1 root T) //; [|rw PGROUNDDOWN_spec //; lia].
  rw PGROUNDDOWN_spec //. fold (upage (mem s1) T d). rw Hup.
  destruct (Z.eqb_spec (upage m T d) 0) as [E0|E0].
  { apply (wp_ret (inr (-1))). split; [done|]. right. split; [done|]. exists (len - rest).
    split_and!; [lia..|done|done]. }
  apply wp_bind, wp_modify, wp_ret. rw PGROUNDDOWN_spec // in Hsz Hfit |- *.
  replace (d - (d - d mod PGSIZE)) with (d mod PGSIZE) in Hsz, Hfit |- * by lia.
  destruct (done_step u k len rest) as [Hdone Hnext]; [lia|done|]. fold d in Hdone, Hnext.
  set (n1 := if rest <? PGSIZE - d mod PGSIZE then rest else PGSIZE - d mod PGSIZE) in *.
  pose proof (upage_MAXVA _ _ _ E0) as HM. pose proof MAXVA_lt.
  pose proof (Z.mod_pos_bound d PGSIZE ltac:(done)).
  split; [|lia]. split_and!; [lia|lia|lia|by rw {2}Hs1| | |].
  - intros Hr. destruct Hnext as [En Hl]; [done|]. rw u64_small; [|pglia].
    rw -En. split_and!; [lia|pglia|pglia|]. by replace (k + (len - (rest - n1))) with (k + (len - rest) + n1) by lia.
  - intros va Hva. destruct (decide (va < d)); [apply Hold; lia|].
    destruct (uphys_chunk m T d (va - d)) as [Ep _]; [lia..|].
    replace (d + (va - d)) with va in Ep by lia. by rw Ep.
  - rw -Hdone /=. apply (copied_out_step m T u k len); [done..|lia|lia|lia|exact Hfit].
Qed.

(** ** [copyin] *)

(** [m'] is [m] with the [e] bytes at the user addresses from [u] copied to [k]. *)
Definition copied_in m T (u k e : Z) m' : Prop :=
  forall a, ld8 m' a =
    if decide (k <= a < k + e) then ld8 m (uphys m T (u + (a - k))) else ld8 m a.
Definition copyin_post m T (u k len r : Z) m' : Prop :=
  r = 0 /\ (forall va, u <= va < u + len -> upage m T va <> 0) /\
    copied_in m T u k (len - lost u k len) m' \/
  r = -1 /\ exists c, 0 <= c < len /\ upage m T (u + c) = 0 /\ copied_in m T u k c m'.

(** The kernel range holds no table. *)
Definition kern_range T (k len : Z) : Prop :=
  forall x p a, T !! x = Some p -> k <= a < k + len -> off_page p a.

Lemma copied_in_pt m root T k len u e m' :
  pt_inv m root T -> kern_range T k len -> e <= len -> copied_in m T u k e m' ->
  pt_inv m' root T /\ forall va, upage m' T va = upage m T va.
Proof.
  intros Hpt Hk He Hc.
  destruct (pt_inv_ext m m' root T) as [Hpt' Hlf]; [|done|].
  { intros x p a Hx Ha. rw Hc decide_False //. intros Hr.
    destruct (Hk x p a Hx); lia. }
  split; [done|]. intros va. by rw /upage /uaddr Hlf.
Qed.

Lemma copied_in_step m T u k len c n m1 :
  let d := u + c in
  user_range m T u k len -> copied_in m T u k c m1 ->
  upage m T d <> 0 -> 0 <= c -> 0 < n -> c + n <= len -> d mod PGSIZE + n <= PGSIZE ->
  copied_in m T u k (c + n - chunk_lost d (k + c) n)
    (mymemmove m1 (k + c) (upage m T d + d mod PGSIZE) n).
Proof.
  intros d Hur Hc1 Hd Hc Hn Hle Hpg a.
  destruct (chunk_lost_range d (k + c) n) as [Hcl _]; [lia|].
  destruct (moved_chunk (upage m T d) d (k + c) n) as [_ Hmv];
    [apply upage_aligned|lia|intros b Hb; apply (ur_kern _ _ _ _ _ Hur d b); [lia|done|lia]|done|].
  assert (0 <= n < 2 ^ 32) as Hn32.
  { pose proof (Z.mod_pos_bound d PGSIZE ltac:(done)). pglia. }
  rw ld8_mymemmove // Hmv. fold (uphys m T d).
  destruct (decide (k + c <= a < k + c + (n - chunk_lost d (k + c) n))) as [Hin|Hout].
  - rw decide_True; [|lia]. destruct (uphys_chunk m T d (a - (k + c))) as [Ep Eo]; [lia..|].
    replace (u + (a - k)) with (d + (a - (k + c))) by lia. rw -Eo.
    rw Hc1 decide_False //. intros Hr.
    pose proof (ur_kern _ _ _ _ _ Hur d (uphys m T (d + (a - (k + c)))) ltac:(lia) Hd ltac:(lia)) as Ho.
    pose proof (uphys_in m T (d + (a - (k + c)))) as Hp. rw Ep in Hp. rw /off_page in Ho. lia.
  - rw Hc1. repeat case_decide; (done || lia).
Qed.

Lemma copyin_wp s root T u k len n :
  pt_inv (mem s) root T -> user_range (mem s) T u k len -> kern_range T k len ->
  0 <= u < 2 ^ 64 -> 0 <= len -> (Z.to_nat len < n)%nat ->
  wp (copyin root k u len) n s (fun r s' =>
    s' = set_mem (mem s') s /\ copyin_post (mem s) T u k len r (mem s')).
Proof.
  intros Hpt Hur Hkr Hu Hlen Hn. set (m := mem s).
  apply (wp_loop
    (fun '(dst, d, rest) s' => 0 <= rest <= len /\ dst = k + (len - rest) /\
       s' = set_mem (mem s') s /\
       (rest > 0 -> d = u + (len - rest) /\ 0 <= d < 2 ^ 64 /\ lost d dst rest = lost u k len) /\
       (forall va, u <= va < u + (len - rest) -> upage m T va <> 0) /\
       copied_in m T u k (done_bytes u k len rest) (mem s'))
    (fun '(_, _, rest) _ => Z.to_nat rest)); [|done|].
  { replace (len - len) with 0 by lia. rw !Z.add_0_r done_0 //.
    split_and!; [lia..|by destruct s|done|lia|]. intros a. by rw decide_False; [|lia]. }
  intros [[dst d] rest] s1 (Hrest & -> & Hs1 & Hd & Hold & Hcp).
  destruct (Z.ltb_spec 0 rest) as [Hpos|]; simpl; last first.
  { assert (rest = 0) as -> by lia. apply wp_ret. split; [done|]. left.
    replace (len - 0) with len in Hold by lia. by split_and!. }
  destruct Hd as (-> & Hd & Hlost); [lia|]. set (d := u + (len - rest)) in *.
  destruct (chunk_size d rest Hd Hpos) as (Hoff & Hsz & Hfit).
  assert (done_bytes u k len rest = len - rest) as Edone
    by (rw /done_bytes (proj2 (Z.eqb_neq rest 0)); lia).
  rw Edone in Hcp.
  destruct (copied_in_pt m root T k len u (len - rest) (mem s1) Hpt Hkr ltac:(lia) Hcp) as [Hpt1 Hup].
  pose proof (Z.mod_le d PGSIZE ltac:(lia) ltac:(done)) as Hmle.
  apply wp_bind. rw /wp (walkaddr_run s1 root T) //; [|rw PGROUNDDOWN_spec //; lia].
  rw PGROUNDDOWN_spec //. fold (upage (mem s1) T d). rw Hup.
  destruct (Z.eqb_spec (upage m T d) 0) as [E0|E0].
  { apply (wp_ret (inr (-1))). split; [done|]. right. split; [done|]. exists (len - rest).
    split_and!; [lia..|done|done]. }
  apply wp_bind, wp_modify, wp_ret. rw PGROUNDDOWN_spec // in Hsz Hfit |- *.
  replace (d - (d - d mod PGSIZE)) with (d mod PGSIZE) in Hsz, Hfit |- * by lia.
  destruct (done_step u k len rest) as [Hdone Hnext]; [lia|done|]. fold d in Hdone, Hnext.
  set (n1 := if rest <? PGSIZE - d mod PGSIZE then rest else PGSIZE - d mod PGSIZE) in *.
  pose proof (upage_MAXVA _ _ _ E0) as HM. pose proof MAXVA_lt.
  pose proof (Z.mod_pos_bound d PGSIZE ltac:(done)).
  split; [|lia]. split_and!; [lia|lia|lia|by rw {2}Hs1| | |].
  - intros Hr. destruct Hnext as [En Hl]; [done|]. rw u64_small; [|pglia].
    rw -En. split_and!; [lia|pglia|pglia|]. by replace (k + (len - (rest - n1))) with (k + (len - rest) + n1) by lia.
  - intros va Hva. destruct (decide (va < d)); [apply Hold; lia|].
    destruct (uphys_chunk m T d (va - d)) as [Ep _]; [lia..|].
    replace (d + (va - d)) with va in Ep by lia. by rw Ep.
  - rw -Hdone /=. apply (copied_in_step m T u k len); [done..|lia|lia|lia|exact Hfit].
Qed.

(** ** When nothing is lost *)

Lemma sub_mod_8 a b : a mod 8 = 0 -> (a + b) mod 8 = b mod 8.
Proof. intros Ha. by rw Z.add_mod // Ha Z.add_0_l Z.mod_mod. Qed.

Lemma lost_none u k len : (u + len) mod 8 = 0 \/ (k - u) mod 8 <> 0 -> lost u k len = 0.
Proof.
  intros H. rw /lost. set (c := last_chunk u len). rw /chunk_lost.
  destruct (Z.eqb_spec (c mod 8) 0) as [Hc|]; [|by rw andb_false_r].
  destruct (Z.eqb_spec ((k + (c - u)) mod 8) 0) as [Hk|]; [|by rw !andb_false_r].
  replace (k + (c - u)) with (c + (k - u)) in Hk by lia. rw sub_mod_8 // in Hk.
  destruct H as [H|]; [|done]. replace (u + len) with (c + (u + len - c)) in H by lia.
  rw sub_mod_8 // in H. by rw H; case_match.
Qed.
(** Within one page, from aligned addresses, the incomplete word is lost. *)
Lemma lost_tail u k len :
  u mod 8 = 0 -> k mod 8 = 0 -> 8 <= len -> u mod PGSIZE + len <= PGSIZE ->
  lost u k len = len mod 8.
Proof.
  intros Hu Hk Hl Hp. rw lost_last; [|lia..]. rw /chunk_lost Hu Hk (proj2 (Z.leb_le _ _)) //.
Qed.

(** Copying preserves the address space itself. *)
Lemma copied_out_uphys m root T u k len e m' va :
  pt_inv m root T -> user_range m T u k len -> e <= len -> copied_out m T u k e m' ->
  uphys m' T va = uphys m T va.
Proof. intros. rw /uphys. by rw (proj2 (copied_out_pt m root T u k len e m' _ _ _ _)). Qed.

Lemma user_range_ext m m' T u k k' len :
  (forall va, upage m' T va = upage m T va) -> user_range m T u k len ->
  (forall va a, u <= va < u + len -> upage m T va <> 0 -> k' <= a < k' + len -> off_page (upage m T va) a) ->
  user_range m' T u k' len.
Proof.
  intros E [H1 H2 H3] Hk. split.
  - intros va x p. rw E. apply H1.
  - intros va a. rw E. apply Hk.
  - intros va vb. rw !E. apply H3.
Qed.

End vmcopy.
