(* ===== verification/KState.v ===== *)
(** * Kernel state

    The structures of [kernel/proc.h], [kernel/file.h], [kernel/fs.h],
    [kernel/buf.h], [kernel/sleeplock.h] and of the static tables of the
    kernel, and the state of the kernel as a whole.  A pointer to an entry of a
    static table is the index of the entry; a pointer to a kalloc'ed page is
    the address of the page.  Each record comes with one setter per field. *)

From S2P Require Import Prelude Mem KString Spinlock Machine.

(** ** Wait channels

    [sleep] and [wakeup] compare addresses; the addresses the kernel uses are
    these. *)
Inductive sleeplockid := SL_buf (i : nat) | SL_inode (i : nat).
#[export] Instance sleeplockid_eq_dec : EqDecision sleeplockid.
Proof. solve_decision. Defined.

Inductive chan :=
| Ch_proc (i : nat)            (* wait: the process itself *)
| Ch_ticks                     (* sys_sleep: &ticks *)
| Ch_nread (pi : Z)            (* pipe.c: &pi->nread *)
| Ch_nwrite (pi : Z)           (* pipe.c: &pi->nwrite *)
| Ch_sleeplock (l : sleeplockid)
| Ch_log                       (* log.c: &log *)
| Ch_buf (i : nat)             (* virtio_disk.c: the buffer *)
| Ch_disk_free                 (* virtio_disk.c: &disk.free[0] *)
| Ch_cons_r                    (* console.c: &cons.r *)
| Ch_uart_tx_r.                (* uart.c: &uart_tx_r *)
#[export] Instance chan_eq_dec : EqDecision chan.
Proof. solve_decision. Defined.

(** ** Processes *)

Inductive procstate := UNUSED | USED | SLEEPING | RUNNABLE | RUNNING | ZOMBIE.
#[export] Instance procstate_eq_dec : EqDecision procstate.
Proof. solve_decision. Defined.

(** The saved registers of a kernel thread the code sets ([struct context]). *)
Record context := Context {
  ctx_ra : Z;
  ctx_sp : Z;
}.

(** [struct proc]; its lock is [L_proc i]. *)
Record proc := Proc {
  p_state : procstate;
  p_chan : option chan;            (* if non-zero, sleeping on chan *)
  p_killed : Z;
  p_xstate : Z;
  p_pid : Z;
  p_parent : option nat;
  p_kstack : Z;
  p_sz : Z;
  p_pagetable : Z;
  p_trapframe : Z;                 (* address of the trapframe page *)
  p_context : context;
  p_ofile : list (option nat);
  p_cwd : option nat;
  p_name : list Z;
  p_validRingBuf : Z;
}.
Definition set_p_state (x : procstate) (r : proc) : proc :=
    Proc x (p_chan r) (p_killed r) (p_xstate r) (p_pid r) (p_parent r) (p_kstack r) (p_sz r)
    (p_pagetable r) (p_trapframe r) (p_context r) (p_ofile r) (p_cwd r) (p_name r) (p_validRingBuf
    r).
Definition set_p_chan (x : option chan) (r : proc) : proc :=
    Proc (p_state r) x (p_killed r) (p_xstate r) (p_pid r) (p_parent r) (p_kstack r) (p_sz r)
    (p_pagetable r) (p_trapframe r) (p_context r) (p_ofile r) (p_cwd r) (p_name r) (p_validRingBuf
    r).
Definition set_p_killed (x : Z) (r : proc) : proc :=
    Proc (p_state r) (p_chan r) x (p_xstate r) (p_pid r) (p_parent r) (p_kstack r) (p_sz r)
    (p_pagetable r) (p_trapframe r) (p_context r) (p_ofile r) (p_cwd r) (p_name r) (p_validRingBuf
    r).
Definition set_p_xstate (x : Z) (r : proc) : proc :=
    Proc (p_state r) (p_chan r) (p_killed r) x (p_pid r) (p_parent r) (p_kstack r) (p_sz r)
    (p_pagetable r) (p_trapframe r) (p_context r) (p_ofile r) (p_cwd r) (p_name r) (p_validRingBuf
    r).
Definition set_p_pid (x : Z) (r : proc) : proc :=
    Proc (p_state r) (p_chan r) (p_killed r) (p_xstate r) x (p_parent r) (p_kstack r) (p_sz r)
    (p_pagetable r) (p_trapframe r) (p_context r) (p_ofile r) (p_cwd r) (p_name r) (p_validRingBuf
    r).
Definition set_p_parent (x : option nat) (r : proc) : proc :=
    Proc (p_state r) (p_chan r) (p_killed r) (p_xstate r) (p_pid r) x (p_kstack r) (p_sz r)
    (p_pagetable r) (p_trapframe r) (p_context r) (p_ofile r) (p_cwd r) (p_name r) (p_validRingBuf
    r).
Definition set_p_kstack (x : Z) (r : proc) : proc :=
    Proc (p_state r) (p_chan r) (p_killed r) (p_xstate r) (p_pid r) (p_parent r) x (p_sz r)
    (p_pagetable r) (p_trapframe r) (p_context r) (p_ofile r) (p_cwd r) (p_name r) (p_validRingBuf
    r).
Definition set_p_sz (x : Z) (r : proc) : proc :=
    Proc (p_state r) (p_chan r) (p_killed r) (p_xstate r) (p_pid r) (p_parent r) (p_kstack r) x
    (p_pagetable r) (p_trapframe r) (p_context r) (p_ofile r) (p_cwd r) (p_name r) (p_validRingBuf
    r).
Definition set_p_pagetable (x : Z) (r : proc) : proc :=
    Proc (p_state r) (p_chan r) (p_killed r) (p_xstate r) (p_pid r) (p_parent r) (p_kstack r) (p_sz
    r) x (p_trapframe r) (p_context r) (p_ofile r) (p_cwd r) (p_name r) (p_validRingBuf r).
Definition set_p_trapframe (x : Z) (r : proc) : proc :=
    Proc (p_state r) (p_chan r) (p_killed r) (p_xstate r) (p_pid r) (p_parent r) (p_kstack r) (p_sz
    r) (p_pagetable r) x (p_context r) (p_ofile r) (p_cwd r) (p_name r) (p_validRingBuf r).
Definition set_p_context (x : context) (r : proc) : proc :=
    Proc (p_state r) (p_chan r) (p_killed r) (p_xstate r) (p_pid r) (p_parent r) (p_kstack r) (p_sz
    r) (p_pagetable r) (p_trapframe r) x (p_ofile r) (p_cwd r) (p_name r) (p_validRingBuf r).
Definition set_p_ofile (x : list (option nat)) (r : proc) : proc :=
    Proc (p_state r) (p_chan r) (p_killed r) (p_xstate r) (p_pid r) (p_parent r) (p_kstack r) (p_sz
    r) (p_pagetable r) (p_trapframe r) (p_context r) x (p_cwd r) (p_name r) (p_validRingBuf r).
Definition set_p_cwd (x : option nat) (r : proc) : proc :=
    Proc (p_state r) (p_chan r) (p_killed r) (p_xstate r) (p_pid r) (p_parent r) (p_kstack r) (p_sz
    r) (p_pagetable r) (p_trapframe r) (p_context r) (p_ofile r) x (p_name r) (p_validRingBuf r).
Definition set_p_name (x : list Z) (r : proc) : proc :=
    Proc (p_state r) (p_chan r) (p_killed r) (p_xstate r) (p_pid r) (p_parent r) (p_kstack r) (p_sz
    r) (p_pagetable r) (p_trapframe r) (p_context r) (p_ofile r) (p_cwd r) x (p_validRingBuf r).
Definition set_p_validRingBuf (x : Z) (r : proc) : proc :=
    Proc (p_state r) (p_chan r) (p_killed r) (p_xstate r) (p_pid r) (p_parent r) (p_kstack r) (p_sz
    r) (p_pagetable r) (p_trapframe r) (p_context r) (p_ofile r) (p_cwd r) (p_name r) x.

(** ** Ring buffers ([ringbuf.c]) *)

Record ringbuf := Ringbuf {
  rb_refcount : Z;
  rb_name : list Z;
  rb_pidsRW : list Z;
  rb_bufPA : list Z;
  rb_vabuf : Z;
  rb_book : Z;
}.
Definition set_rb_refcount (x : Z) (r : ringbuf) : ringbuf :=
    Ringbuf x (rb_name r) (rb_pidsRW r) (rb_bufPA r) (rb_vabuf r) (rb_book r).
Definition set_rb_name (x : list Z) (r : ringbuf) : ringbuf :=
    Ringbuf (rb_refcount r) x (rb_pidsRW r) (rb_bufPA r) (rb_vabuf r) (rb_book r).
Definition set_rb_pidsRW (x : list Z) (r : ringbuf) : ringbuf :=
    Ringbuf (rb_refcount r) (rb_name r) x (rb_bufPA r) (rb_vabuf r) (rb_book r).
Definition set_rb_bufPA (x : list Z) (r : ringbuf) : ringbuf :=
    Ringbuf (rb_refcount r) (rb_name r) (rb_pidsRW r) x (rb_vabuf r) (rb_book r).
Definition set_rb_vabuf (x : Z) (r : ringbuf) : ringbuf :=
    Ringbuf (rb_refcount r) (rb_name r) (rb_pidsRW r) (rb_bufPA r) x (rb_book r).
Definition set_rb_book (x : Z) (r : ringbuf) : ringbuf :=
    Ringbuf (rb_refcount r) (rb_name r) (rb_pidsRW r) (rb_bufPA r) (rb_vabuf r) x.

(** ** Pipes and files *)

(** [struct pipe], in the page [pipealloc] obtained. *)
Record pipe := Pipe {
  pi_data : list Z;
  pi_nread : Z;                    (* number of bytes read *)
  pi_nwrite : Z;                   (* number of bytes written *)
  pi_readopen : bool;
  pi_writeopen : bool;
}.
Definition set_pi_data (x : list Z) (r : pipe) : pipe :=
    Pipe x (pi_nread r) (pi_nwrite r) (pi_readopen r) (pi_writeopen r).
Definition set_pi_nread (x : Z) (r : pipe) : pipe :=
    Pipe (pi_data r) x (pi_nwrite r) (pi_readopen r) (pi_writeopen r).
Definition set_pi_nwrite (x : Z) (r : pipe) : pipe :=
    Pipe (pi_data r) (pi_nread r) x (pi_readopen r) (pi_writeopen r).
Definition set_pi_readopen (x : bool) (r : pipe) : pipe :=
    Pipe (pi_data r) (pi_nread r) (pi_nwrite r) x (pi_writeopen r).
Definition set_pi_writeopen (x : bool) (r : pipe) : pipe :=
    Pipe (pi_data r) (pi_nread r) (pi_nwrite r) (pi_readopen r) x.

Inductive filetype := FD_NONE | FD_PIPE | FD_INODE | FD_DEVICE.
#[export] Instance filetype_eq_dec : EqDecision filetype.
Proof. solve_decision. Defined.

(** [struct file]. *)
Record file := File {
  f_type : filetype;
  f_ref : Z;
  f_readable : bool;
  f_writable : bool;
  f_pipe : Z;
  f_ip : option nat;
  f_off : Z;
  f_major : Z;
}.
Definition set_f_type (x : filetype) (r : file) : file :=
    File x (f_ref r) (f_readable r) (f_writable r) (f_pipe r) (f_ip r) (f_off r) (f_major r).
Definition set_f_ref (x : Z) (r : file) : file :=
    File (f_type r) x (f_readable r) (f_writable r) (f_pipe r) (f_ip r) (f_off r) (f_major r).
Definition set_f_readable (x : bool) (r : file) : file :=
    File (f_type r) (f_ref r) x (f_writable r) (f_pipe r) (f_ip r) (f_off r) (f_major r).
Definition set_f_writable (x : bool) (r : file) : file :=
    File (f_type r) (f_ref r) (f_readable r) x (f_pipe r) (f_ip r) (f_off r) (f_major r).
Definition set_f_pipe (x : Z) (r : file) : file :=
    File (f_type r) (f_ref r) (f_readable r) (f_writable r) x (f_ip r) (f_off r) (f_major r).
Definition set_f_ip (x : option nat) (r : file) : file :=
    File (f_type r) (f_ref r) (f_readable r) (f_writable r) (f_pipe r) x (f_off r) (f_major r).
Definition set_f_off (x : Z) (r : file) : file :=
    File (f_type r) (f_ref r) (f_readable r) (f_writable r) (f_pipe r) (f_ip r) x (f_major r).
Definition set_f_major (x : Z) (r : file) : file :=
    File (f_type r) (f_ref r) (f_readable r) (f_writable r) (f_pipe r) (f_ip r) (f_off r) x.

(** ** Sleep locks, buffers, inodes *)

(** [struct sleeplock]; its spin lock is an [L_buf] or [L_inode]. *)
Record sleeplock := Sleeplock {
  sl_locked : bool;
  sl_pid : Z;
}.
Definition set_sl_locked (x : bool) (r : sleeplock) : sleeplock :=
    Sleeplock x (sl_pid r).
Definition set_sl_pid (x : Z) (r : sleeplock) : sleeplock :=
    Sleeplock (sl_locked r) x.

(** [struct buf]; entry [NBUF] of the table is [bcache.head]. *)
Record buf := Buf {
  b_valid : bool;
  b_disk : bool;
  b_dev : Z;
  b_blockno : Z;
  b_lock : sleeplock;
  b_refcnt : Z;
  b_prev : nat;
  b_next : nat;
  b_data : list Z;
}.
Definition set_b_valid (x : bool) (r : buf) : buf :=
    Buf x (b_disk r) (b_dev r) (b_blockno r) (b_lock r) (b_refcnt r) (b_prev r) (b_next r) (b_data
    r).
Definition set_b_disk (x : bool) (r : buf) : buf :=
    Buf (b_valid r) x (b_dev r) (b_blockno r) (b_lock r) (b_refcnt r) (b_prev r) (b_next r) (b_data
    r).
Definition set_b_dev (x : Z) (r : buf) : buf :=
    Buf (b_valid r) (b_disk r) x (b_blockno r) (b_lock r) (b_refcnt r) (b_prev r) (b_next r) (b_data
    r).
Definition set_b_blockno (x : Z) (r : buf) : buf :=
    Buf (b_valid r) (b_disk r) (b_dev r) x (b_lock r) (b_refcnt r) (b_prev r) (b_next r) (b_data r).
Definition set_b_lock (x : sleeplock) (r : buf) : buf :=
    Buf (b_valid r) (b_disk r) (b_dev r) (b_blockno r) x (b_refcnt r) (b_prev r) (b_next r) (b_data
    r).
Definition set_b_refcnt (x : Z) (r : buf) : buf :=
    Buf (b_valid r) (b_disk r) (b_dev r) (b_blockno r) (b_lock r) x (b_prev r) (b_next r) (b_data
    r).
Definition set_b_prev (x : nat) (r : buf) : buf :=
    Buf (b_valid r) (b_disk r) (b_dev r) (b_blockno r) (b_lock r) (b_refcnt r) x (b_next r) (b_data
    r).
Definition set_b_next (x : nat) (r : buf) : buf :=
    Buf (b_valid r) (b_disk r) (b_dev r) (b_blockno r) (b_lock r) (b_refcnt r) (b_prev r) x (b_data
    r).
Definition set_b_data (x : list Z) (r : buf) : buf :=
    Buf (b_valid r) (b_disk r) (b_dev r) (b_blockno r) (b_lock r) (b_refcnt r) (b_prev r) (b_next r)
    x.

(** [struct inode]: the in-memory copy of an inode. *)
Record inode := Inode {
  i_dev : Z;
  i_inum : Z;
  i_ref : Z;
  i_lock : sleeplock;
  i_valid : bool;
  i_type : Z;
  i_major : Z;
  i_minor : Z;
  i_nlink : Z;
  i_size : Z;
  i_addrs : list Z;
}.
Definition set_i_dev (x : Z) (r : inode) : inode :=
    Inode x (i_inum r) (i_ref r) (i_lock r) (i_valid r) (i_type r) (i_major r) (i_minor r) (i_nlink
    r) (i_size r) (i_addrs r).
Definition set_i_inum (x : Z) (r : inode) : inode :=
    Inode (i_dev r) x (i_ref r) (i_lock r) (i_valid r) (i_type r) (i_major r) (i_minor r) (i_nlink
    r) (i_size r) (i_addrs r).
Definition set_i_ref (x : Z) (r : inode) : inode :=
    Inode (i_dev r) (i_inum r) x (i_lock r) (i_valid r) (i_type r) (i_major r) (i_minor r) (i_nlink
    r) (i_size r) (i_addrs r).
Definition set_i_lock (x : sleeplock) (r : inode) : inode :=
    Inode (i_dev r) (i_inum r) (i_ref r) x (i_valid r) (i_type r) (i_major r) (i_minor r) (i_nlink
    r) (i_size r) (i_addrs r).
Definition set_i_valid (x : bool) (r : inode) : inode :=
    Inode (i_dev r) (i_inum r) (i_ref r) (i_lock r) x (i_type r) (i_major r) (i_minor r) (i_nlink r)
    (i_size r) (i_addrs r).
Definition set_i_type (x : Z) (r : inode) : inode :=
    Inode (i_dev r) (i_inum r) (i_ref r) (i_lock r) (i_valid r) x (i_major r) (i_minor r) (i_nlink
    r) (i_size r) (i_addrs r).
Definition set_i_major (x : Z) (r : inode) : inode :=
    Inode (i_dev r) (i_inum r) (i_ref r) (i_lock r) (i_valid r) (i_type r) x (i_minor r) (i_nlink r)
    (i_size r) (i_addrs r).
Definition set_i_minor (x : Z) (r : inode) : inode :=
    Inode (i_dev r) (i_inum r) (i_ref r) (i_lock r) (i_valid r) (i_type r) (i_major r) x (i_nlink r)
    (i_size r) (i_addrs r).
Definition set_i_nlink (x : Z) (r : inode) : inode :=
    Inode (i_dev r) (i_inum r) (i_ref r) (i_lock r) (i_valid r) (i_type r) (i_major r) (i_minor r) x
    (i_size r) (i_addrs r).
Definition set_i_size (x : Z) (r : inode) : inode :=
    Inode (i_dev r) (i_inum r) (i_ref r) (i_lock r) (i_valid r) (i_type r) (i_major r) (i_minor r)
    (i_nlink r) x (i_addrs r).
Definition set_i_addrs (x : list Z) (r : inode) : inode :=
    Inode (i_dev r) (i_inum r) (i_ref r) (i_lock r) (i_valid r) (i_type r) (i_major r) (i_minor r)
    (i_nlink r) (i_size r) x.

(** [struct superblock]. *)
Record superblock := Superblock {
  sb_magic : Z;
  sb_size : Z;
  sb_nblocks : Z;
  sb_ninodes : Z;
  sb_nlog : Z;
  sb_logstart : Z;
  sb_inodestart : Z;
  sb_bmapstart : Z;
}.

(** [struct logheader]. *)
Record loghdr := Loghdr {
  lh_n : Z;
  lh_block : list Z;
}.
Definition set_lh_n (x : Z) (r : loghdr) : loghdr :=
    Loghdr x (lh_block r).
Definition set_lh_block (x : list Z) (r : loghdr) : loghdr :=
    Loghdr (lh_n r) x.

(** [struct log]. *)
Record logst := Logst {
  log_start : Z;
  log_size : Z;
  log_outstanding : Z;
  log_committing : bool;
  log_dev : Z;
  log_lh : loghdr;
}.
Definition set_log_start (x : Z) (r : logst) : logst :=
    Logst x (log_size r) (log_outstanding r) (log_committing r) (log_dev r) (log_lh r).
Definition set_log_size (x : Z) (r : logst) : logst :=
    Logst (log_start r) x (log_outstanding r) (log_committing r) (log_dev r) (log_lh r).
Definition set_log_outstanding (x : Z) (r : logst) : logst :=
    Logst (log_start r) (log_size r) x (log_committing r) (log_dev r) (log_lh r).
Definition set_log_committing (x : bool) (r : logst) : logst :=
    Logst (log_start r) (log_size r) (log_outstanding r) x (log_dev r) (log_lh r).
Definition set_log_dev (x : Z) (r : logst) : logst :=
    Logst (log_start r) (log_size r) (log_outstanding r) (log_committing r) x (log_lh r).
Definition set_log_lh (x : loghdr) (r : logst) : logst :=
    Logst (log_start r) (log_size r) (log_outstanding r) (log_committing r) (log_dev r) x.

(** ** Console and UART *)

(** [console.c]: [cons]. *)
Record console := Console {
  cons_buf : list Z;
  cons_r : Z;                      (* read index *)
  cons_w : Z;                      (* write index *)
  cons_e : Z;                      (* edit index *)
}.
Definition set_cons_buf (x : list Z) (r : console) : console :=
    Console x (cons_r r) (cons_w r) (cons_e r).
Definition set_cons_r (x : Z) (r : console) : console :=
    Console (cons_buf r) x (cons_w r) (cons_e r).
Definition set_cons_w (x : Z) (r : console) : console :=
    Console (cons_buf r) (cons_r r) x (cons_e r).
Definition set_cons_e (x : Z) (r : console) : console :=
    Console (cons_buf r) (cons_r r) (cons_w r) x.

(** [uart.c]: the transmit buffer; the characters the receiver holds and the
    answers of the line status register to come (idle when none is left). *)
Record uart := Uart {
  uart_tx_buf : list Z;
  uart_tx_w : Z;
  uart_tx_r : Z;
  uart_in : list Z;                (* RHR, oldest first *)
  uart_idle : list bool;           (* what the next reads of LSR_TX_IDLE give *)
}.
Definition set_uart_tx_buf (x : list Z) (r : uart) : uart :=
    Uart x (uart_tx_w r) (uart_tx_r r) (uart_in r) (uart_idle r).
Definition set_uart_tx_w (x : Z) (r : uart) : uart :=
    Uart (uart_tx_buf r) x (uart_tx_r r) (uart_in r) (uart_idle r).
Definition set_uart_tx_r (x : Z) (r : uart) : uart :=
    Uart (uart_tx_buf r) (uart_tx_w r) x (uart_in r) (uart_idle r).
Definition set_uart_in (x : list Z) (r : uart) : uart :=
    Uart (uart_tx_buf r) (uart_tx_w r) (uart_tx_r r) x (uart_idle r).
Definition set_uart_idle (x : list bool) (r : uart) : uart :=
    Uart (uart_tx_buf r) (uart_tx_w r) (uart_tx_r r) (uart_in r) x.

(** [virtio.h]: [struct virtq_desc]. *)
Record vdesc := Vdesc {
  vd_addr : Z;
  vd_len : Z;
  vd_flags : Z;
  vd_next : Z;
}.

(** [virtio.h]: [struct virtio_blk_req]. *)
Record vreq := Vreq {
  vr_type : Z;
  vr_reserved : Z;
  vr_sector : Z;
}.

(** [virtio_disk.c]: [struct disk], with the rings of [pages[]] as fields. *)
Record vdisk := Vdisk {
  vd_desc : list vdesc;
  vd_avail_idx : Z;                (* disk.avail->idx *)
  vd_avail_ring : list Z;          (* disk.avail->ring *)
  vd_used_ix : Z;                  (* disk.used->idx *)
  vd_used_ring : list Z;           (* the ids of disk.used->ring *)
  vd_free : list bool;
  vd_used_idx : Z;                 (* disk.used_idx *)
  vd_info_b : list (option nat);   (* disk.info[].b *)
  vd_info_status : list Z;         (* disk.info[].status *)
  vd_ops : list vreq;
}.
Definition set_vd_desc (x : list vdesc) (r : vdisk) : vdisk :=
    Vdisk x (vd_avail_idx r) (vd_avail_ring r) (vd_used_ix r) (vd_used_ring r) (vd_free r)
    (vd_used_idx r) (vd_info_b r) (vd_info_status r) (vd_ops r).
Definition set_vd_avail_idx (x : Z) (r : vdisk) : vdisk :=
    Vdisk (vd_desc r) x (vd_avail_ring r) (vd_used_ix r) (vd_used_ring r) (vd_free r) (vd_used_idx
    r) (vd_info_b r) (vd_info_status r) (vd_ops r).
Definition set_vd_avail_ring (x : list Z) (r : vdisk) : vdisk :=
    Vdisk (vd_desc r) (vd_avail_idx r) x (vd_used_ix r) (vd_used_ring r) (vd_free r) (vd_used_idx r)
    (vd_info_b r) (vd_info_status r) (vd_ops r).
Definition set_vd_used_ix (x : Z) (r : vdisk) : vdisk :=
    Vdisk (vd_desc r) (vd_avail_idx r) (vd_avail_ring r) x (vd_used_ring r) (vd_free r) (vd_used_idx
    r) (vd_info_b r) (vd_info_status r) (vd_ops r).
Definition set_vd_used_ring (x : list Z) (r : vdisk) : vdisk :=
    Vdisk (vd_desc r) (vd_avail_idx r) (vd_avail_ring r) (vd_used_ix r) x (vd_free r) (vd_used_idx
    r) (vd_info_b r) (vd_info_status r) (vd_ops r).
Definition set_vd_free (x : list bool) (r : vdisk) : vdisk :=
    Vdisk (vd_desc r) (vd_avail_idx r) (vd_avail_ring r) (vd_used_ix r) (vd_used_ring r) x
    (vd_used_idx r) (vd_info_b r) (vd_info_status r) (vd_ops r).
Definition set_vd_used_idx (x : Z) (r : vdisk) : vdisk :=
    Vdisk (vd_desc r) (vd_avail_idx r) (vd_avail_ring r) (vd_used_ix r) (vd_used_ring r) (vd_free r)
    x (vd_info_b r) (vd_info_status r) (vd_ops r).
Definition set_vd_info_b (x : list (option nat)) (r : vdisk) : vdisk :=
    Vdisk (vd_desc r) (vd_avail_idx r) (vd_avail_ring r) (vd_used_ix r) (vd_used_ring r) (vd_free r)
    (vd_used_idx r) x (vd_info_status r) (vd_ops r).
Definition set_vd_info_status (x : list Z) (r : vdisk) : vdisk :=
    Vdisk (vd_desc r) (vd_avail_idx r) (vd_avail_ring r) (vd_used_ix r) (vd_used_ring r) (vd_free r)
    (vd_used_idx r) (vd_info_b r) x (vd_ops r).
Definition set_vd_ops (x : list vreq) (r : vdisk) : vdisk :=
    Vdisk (vd_desc r) (vd_avail_idx r) (vd_avail_ring r) (vd_used_ix r) (vd_used_ring r) (vd_free r)
    (vd_used_idx r) (vd_info_b r) (vd_info_status r) x.

(** ** The kernel *)

Record kstate := KState {
  mach : mstate;
  procs : list proc;
  cur : option nat;                (* mycpu()->proc *)
  nextpid : Z;
  initproc : option nat;
  ticks : Z;
  ringbufs : list ringbuf;
  pipes : gmap Z pipe;
  ftable : list file;
  icache : list inode;
  sb : superblock;
  bcache : list buf;
  log : logst;
  disk : gmap Z (list Z);          (* blocks on the disk *)
  dtrace : list (Z * list Z);      (* blocks written, latest first *)
  cons : console;
  uart_st : uart;
  first : bool;                    (* proc.c: forkret's static first *)
  vdisk_st : vdisk;
  csr : gmap string Z;             (* control and status registers *)
  mmio_out : list (Z * Z);         (* writes to device registers, latest first *)
  mmio_in : gmap Z (list Z);       (* what the next reads of a device register give *)
}.
Definition set_mach (x : mstate) (r : kstate) : kstate :=
    KState x (procs r) (cur r) (nextpid r) (initproc r) (ticks r) (ringbufs r) (pipes r) (ftable r)
    (icache r) (sb r) (bcache r) (log r) (disk r) (dtrace r) (cons r) (uart_st r) (first r)
    (vdisk_st r) (csr r) (mmio_out r) (mmio_in r).
Definition set_procs (x : list proc) (r : kstate) : kstate :=
    KState (mach r) x (cur r) (nextpid r) (initproc r) (ticks r) (ringbufs r) (pipes r) (ftable r)
    (icache r) (sb r) (bcache r) (log r) (disk r) (dtrace r) (cons r) (uart_st r) (first r)
    (vdisk_st r) (csr r) (mmio_out r) (mmio_in r).
Definition set_cur (x : option nat) (r : kstate) : kstate :=
    KState (mach r) (procs r) x (nextpid r) (initproc r) (ticks r) (ringbufs r) (pipes r) (ftable r)
    (icache r) (sb r) (bcache r) (log r) (disk r) (dtrace r) (cons r) (uart_st r) (first r)
    (vdisk_st r) (csr r) (mmio_out r) (mmio_in r).
Definition set_nextpid (x : Z) (r : kstate) : kstate :=
    KState (mach r) (procs r) (cur r) x (initproc r) (ticks r) (ringbufs r) (pipes r) (ftable r)
    (icache r) (sb r) (bcache r) (log r) (disk r) (dtrace r) (cons r) (uart_st r) (first r)
    (vdisk_st r) (csr r) (mmio_out r) (mmio_in r).
Definition set_initproc (x : option nat) (r : kstate) : kstate :=
    KState (mach r) (procs r) (cur r) (nextpid r) x (ticks r) (ringbufs r) (pipes r) (ftable r)
    (icache r) (sb r) (bcache r) (log r) (disk r) (dtrace r) (cons r) (uart_st r) (first r)
    (vdisk_st r) (csr r) (mmio_out r) (mmio_in r).
Definition set_ticks (x : Z) (r : kstate) : kstate :=
    KState (mach r) (procs r) (cur r) (nextpid r) (initproc r) x (ringbufs r) (pipes r) (ftable r)
    (icache r) (sb r) (bcache r) (log r) (disk r) (dtrace r) (cons r) (uart_st r) (first r)
    (vdisk_st r) (csr r) (mmio_out r) (mmio_in r).
Definition set_ringbufs (x : list ringbuf) (r : kstate) : kstate :=
    KState (mach r) (procs r) (cur r) (nextpid r) (initproc r) (ticks r) x (pipes r) (ftable r)
    (icache r) (sb r) (bcache r) (log r) (disk r) (dtrace r) (cons r) (uart_st r) (first r)
    (vdisk_st r) (csr r) (mmio_out r) (mmio_in r).
Definition set_pipes (x : gmap Z pipe) (r : kstate) : kstate :=
    KState (mach r) (procs r) (cur r) (nextpid r) (initproc r) (ticks r) (ringbufs r) x (ftable r)
    (icache r) (sb r) (bcache r) (log r) (disk r) (dtrace r) (cons r) (uart_st r) (first r)
    (vdisk_st r) (csr r) (mmio_out r) (mmio_in r).
Definition set_ftable (x : list file) (r : kstate) : kstate :=
    KState (mach r) (procs r) (cur r) (nextpid r) (initproc r) (ticks r) (ringbufs r) (pipes r) x
    (icache r) (sb r) (bcache r) (log r) (disk r) (dtrace r) (cons r) (uart_st r) (first r)
    (vdisk_st r) (csr r) (mmio_out r) (mmio_in r).
Definition set_icache (x : list inode) (r : kstate) : kstate :=
    KState (mach r) (procs r) (cur r) (nextpid r) (initproc r) (ticks r) (ringbufs r) (pipes r)
    (ftable r) x (sb r) (bcache r) (log r) (disk r) (dtrace r) (cons r) (uart_st r) (first r)
    (vdisk_st r) (csr r) (mmio_out r) (mmio_in r).
Definition set_sb (x : superblock) (r : kstate) : kstate :=
    KState (mach r) (procs r) (cur r) (nextpid r) (initproc r) (ticks r) (ringbufs r) (pipes r)
    (ftable r) (icache r) x (bcache r) (log r) (disk r) (dtrace r) (cons r) (uart_st r) (first r)
    (vdisk_st r) (csr r) (mmio_out r) (mmio_in r).
Definition set_bcache (x : list buf) (r : kstate) : kstate :=
    KState (mach r) (procs r) (cur r) (nextpid r) (initproc r) (ticks r) (ringbufs r) (pipes r)
    (ftable r) (icache r) (sb r) x (log r) (disk r) (dtrace r) (cons r) (uart_st r) (first r)
    (vdisk_st r) (csr r) (mmio_out r) (mmio_in r).
Definition set_log (x : logst) (r : kstate) : kstate :=
    KState (mach r) (procs r) (cur r) (nextpid r) (initproc r) (ticks r) (ringbufs r) (pipes r)
    (ftable r) (icache r) (sb r) (bcache r) x (disk r) (dtrace r) (cons r) (uart_st r) (first r)
    (vdisk_st r) (csr r) (mmio_out r) (mmio_in r).
Definition set_disk (x : gmap Z (list Z)) (r : kstate) : kstate :=
    KState (mach r) (procs r) (cur r) (nextpid r) (initproc r) (ticks r) (ringbufs r) (pipes r)
    (ftable r) (icache r) (sb r) (bcache r) (log r) x (dtrace r) (cons r) (uart_st r) (first r)
    (vdisk_st r) (csr r) (mmio_out r) (mmio_in r).
Definition set_dtrace (x : list (Z * list Z)) (r : kstate) : kstate :=
    KState (mach r) (procs r) (cur r) (nextpid r) (initproc r) (ticks r) (ringbufs r) (pipes r)
    (ftable r) (icache r) (sb r) (bcache r) (log r) (disk r) x (cons r) (uart_st r) (first r)
    (vdisk_st r) (csr r) (mmio_out r) (mmio_in r).
Definition set_cons (x : console) (r : kstate) : kstate :=
    KState (mach r) (procs r) (cur r) (nextpid r) (initproc r) (ticks r) (ringbufs r) (pipes r)
    (ftable r) (icache r) (sb r) (bcache r) (log r) (disk r) (dtrace r) x (uart_st r) (first r)
    (vdisk_st r) (csr r) (mmio_out r) (mmio_in r).
Definition set_uart_st (x : uart) (r : kstate) : kstate :=
    KState (mach r) (procs r) (cur r) (nextpid r) (initproc r) (ticks r) (ringbufs r) (pipes r)
    (ftable r) (icache r) (sb r) (bcache r) (log r) (disk r) (dtrace r) (cons r) x (first r)
    (vdisk_st r) (csr r) (mmio_out r) (mmio_in r).
Definition set_first (x : bool) (r : kstate) : kstate :=
    KState (mach r) (procs r) (cur r) (nextpid r) (initproc r) (ticks r) (ringbufs r) (pipes r)
    (ftable r) (icache r) (sb r) (bcache r) (log r) (disk r) (dtrace r) (cons r) (uart_st r) x
    (vdisk_st r) (csr r) (mmio_out r) (mmio_in r).
Definition set_vdisk_st (x : vdisk) (r : kstate) : kstate :=
    KState (mach r) (procs r) (cur r) (nextpid r) (initproc r) (ticks r) (ringbufs r) (pipes r)
    (ftable r) (icache r) (sb r) (bcache r) (log r) (disk r) (dtrace r) (cons r) (uart_st r) (first
    r) x (csr r) (mmio_out r) (mmio_in r).
Definition set_csr (x : gmap string Z) (r : kstate) : kstate :=
    KState (mach r) (procs r) (cur r) (nextpid r) (initproc r) (ticks r) (ringbufs r) (pipes r)
    (ftable r) (icache r) (sb r) (bcache r) (log r) (disk r) (dtrace r) (cons r) (uart_st r) (first
    r) (vdisk_st r) x (mmio_out r) (mmio_in r).
Definition set_mmio_out (x : list (Z * Z)) (r : kstate) : kstate :=
    KState (mach r) (procs r) (cur r) (nextpid r) (initproc r) (ticks r) (ringbufs r) (pipes r)
    (ftable r) (icache r) (sb r) (bcache r) (log r) (disk r) (dtrace r) (cons r) (uart_st r) (first
    r) (vdisk_st r) (csr r) x (mmio_in r).
Definition set_mmio_in (x : gmap Z (list Z)) (r : kstate) : kstate :=
    KState (mach r) (procs r) (cur r) (nextpid r) (initproc r) (ticks r) (ringbufs r) (pipes r)
    (ftable r) (icache r) (sb r) (bcache r) (log r) (disk r) (dtrace r) (cons r) (uart_st r) (first
    r) (vdisk_st r) (csr r) (mmio_out r) x.


#[export] Instance sub_mstate_kstate : Sub mstate kstate.
Proof. refine {| sget := mach; sput := set_mach |}; [done | by intros [] | done]. Defined.
#[export] Instance sub_lstate_kstate : Sub lstate kstate.
Proof.
  refine {| sget := fun s => lk (mach s); sput := fun l s => set_mach (set_lk l (mach s)) s |};
    [done | by intros [[]] | done].
Defined.

(** ** Access *)

(** [p->...] of entry [i] of the process table. *)
Definition getp {A} (i : nat) (f : proc -> A) : K kstate A :=
  l ← gets procs; p ← arr_get l (Z.of_nat i); mret (f p).
Definition setp (i : nat) (f : proc -> proc) : K kstate unit :=
  modify (fun s => set_procs (alter f i (procs s)) s).

Definition getf {A} (i : nat) (f : file -> A) : K kstate A :=
  l ← gets ftable; p ← arr_get l (Z.of_nat i); mret (f p).
Definition setf (i : nat) (f : file -> file) : K kstate unit :=
  modify (fun s => set_ftable (alter f i (ftable s)) s).

Definition getb {A} (i : nat) (f : buf -> A) : K kstate A :=
  l ← gets bcache; b ← arr_get l (Z.of_nat i); mret (f b).
Definition setb (i : nat) (f : buf -> buf) : K kstate unit :=
  modify (fun s => set_bcache (alter f i (bcache s)) s).

Definition geti {A} (i : nat) (f : inode -> A) : K kstate A :=
  l ← gets icache; ip ← arr_get l (Z.of_nat i); mret (f ip).
Definition seti (i : nat) (f : inode -> inode) : K kstate unit :=
  modify (fun s => set_icache (alter f i (icache s)) s).

#[global] Arguments getp : simpl never.
#[global] Arguments getf : simpl never.
#[global] Arguments getb : simpl never.
#[global] Arguments geti : simpl never.

Section access.
Context {lay : Layout}.

(** The bytes of a kernel object placed in memory, for a call that takes its
    address. *)
Definition poke_m (a : Z) (bs : list Z) : K mstate unit :=
  modify (fun s => set_mem (poke (mem s) a bs) s).
Definition peek_m (a : Z) (n : nat) : K mstate (list Z) := gets (fun s => peek (mem s) a n).
(** The [w] bytes of an integer, little-endian. *)
Fixpoint le_bytes (w : nat) (v : Z) : list Z :=
  match w with O => [] | S w' => u8 v :: le_bytes w' (v / 256) end.
End access.

(** ** The state the kernel starts in

    Static data of a C program is zero.  [kstate0] is that state with no page
    given to the allocator yet; [ready0] is a process table with one running
    process, on which the theorems are exercised. *)

Definition zero_proc : proc :=
  Proc UNUSED None 0 0 0 None 0 0 0 0 (Context 0 0) (replicate NOFILE None) None (replicate 16 0) 0.
Definition zero_ringbuf : ringbuf := Ringbuf 0 (replicate 16 0) [0; 0] (replicate 16 0) 0 0.
Definition zero_file : file := File FD_NONE 0 false false 0 None 0 0.
Definition zero_sleeplock : sleeplock := Sleeplock false 0.
Definition zero_inode : inode := Inode 0 0 0 zero_sleeplock false 0 0 0 0 0 (replicate 13 0).
Definition zero_buf : buf := Buf false false 0 0 zero_sleeplock 0 0 0 (replicate 1024 0).
Definition zero_lstate : lstate := LState [] 0 0 false false.
Definition mstate0 : mstate := MState ∅ 0 zero_lstate [] true.

Definition kstate0 : kstate :=
  KState mstate0 (replicate NPROC zero_proc) None 1 None 0 (replicate 10 zero_ringbuf) ∅
    (replicate NFILE zero_file) (replicate NINODE zero_inode) (Superblock 0 0 0 0 0 0 0 0)
    (replicate (NBUF + 1) zero_buf) (Logst 0 0 0 false 0 (Loghdr 0 (replicate 30 0)))
    ∅ [] (Console (replicate 128 0) 0 0 0) (Uart (replicate 32 0) 0 0 [] []) true
    (Vdisk (replicate 8 (Vdesc 0 0 0 0)) 0 (replicate 8 0) 0 (replicate 8 0) (replicate 8 false) 0
      (replicate 8 None) (replicate 8 0) (replicate 8 (Vreq 0 0 0)))
    ∅ [] ∅.

(** Two processes, the first of them running. *)
Definition ready0 : kstate :=
  set_cur (Some 0%nat) (set_procs
    (<[0%nat := set_p_pid 1 (set_p_state RUNNING zero_proc)]>
      (<[1%nat := set_p_pid 2 (set_p_state RUNNABLE zero_proc)]> (procs kstate0))) kstate0).
