(* ===== verification/Proc.v ===== *)
(** * [kernel/proc.c]

    The process table: allocation and freeing of entries, process page tables,
    [growproc], sleeping and waking, [kill], [wait], and the switch to the
    scheduler.  [fork], [exit], [userinit] and [forkret], which also touch the
    file system, are in a later file.

    [swtch] out of a process is the outcome [Sched]: the run stops with the
    state the scheduler finds and with what the thread does once the scheduler
    switches back to it.  The iteration of [scheduler] around the switch is
    [sched_enter] before and [sched_leave] after it. *)

From S2P Require Import Prelude Mem KString Spinlock Machine Kalloc Printf Vm KState.

Section proc.
Context {lay : Layout}.

(** Dereferencing a pointer that may be null. *)
Definition the {S A} (p : option A) : K S A :=
  match p with Some x => mret x | None => undef end.

Definition the_procs : list nat := seq 0 NPROC.

(** [cpuid] and [mycpu] are the [hart] field and the rest of [lstate]. *)
Definition cpuid : K kstate nat := gets (fun s => hart (lk (mach s))).
Definition myproc : K kstate (option nat) :=
  lift (S := lstate) push_off;;
  p ← gets cur;
  lift (S := lstate) pop_off;;
  mret p.

#[global] Arguments myproc : simpl never.

Definition procinit : K kstate unit :=
  for_each the_procs (fun i => setp i (set_p_kstack (KSTACK (Z.of_nat i)))).

Definition allocpid : K kstate Z :=
  acquire L_pid;;
  pid ← gets nextpid;
  modify (set_nextpid (i32 (pid + 1)));;
  release L_pid;;
  mret pid.

(** ** Process page tables *)

Definition proc_freepagetable (pagetable sz : Z) : K mstate unit :=
  uvmunmap pagetable TRAMPOLINE 1 false;;
  uvmunmap pagetable TRAPFRAME 1 false;;
  uvmfree pagetable sz.

(** The argument is [p->trapframe], all that is read of [p]. *)
Definition proc_pagetable (trapframe : Z) : K mstate Z :=
  pagetable ← uvmcreate;
  if pagetable =? 0 then mret 0 else
  r ← mappages pagetable TRAMPOLINE PGSIZE trampoline (Z.lor PTE_R PTE_X);
  if r <? 0 then uvmfree pagetable 0;; mret 0 else
  r ← mappages pagetable TRAPFRAME PGSIZE trapframe (Z.lor PTE_R PTE_W);
  if r <? 0 then
    uvmunmap pagetable TRAMPOLINE 1 false;;
    uvmfree pagetable 0;; mret 0
  else mret pagetable.

(** ** Table entries *)

Definition freeproc (i : nat) : K kstate unit :=
  tf ← getp i p_trapframe;
  when (negb (tf =? 0)) (lift (kfree tf));;
  setp i (set_p_trapframe 0);;
  pt ← getp i p_pagetable;
  sz ← getp i p_sz;
  when (negb (pt =? 0)) (lift (proc_freepagetable pt sz));;
  setp i (set_p_pagetable 0);;
  setp i (set_p_sz 0);;
  setp i (set_p_pid 0);;
  setp i (set_p_parent None);;
  setp i (fun p => set_p_name (arr_set (p_name p) 0 0) p);;
  setp i (set_p_chan None);;
  setp i (set_p_killed 0);;
  setp i (set_p_xstate 0);;
  setp i (set_p_state UNUSED).

(** The scan for an unused entry, which is returned with its lock held. *)
Definition find_unused : K kstate (option nat) :=
  for_exit the_procs (fun i =>
    acquire (L_proc i);;
    st ← getp i p_state;
    if decide (st = UNUSED) then mret (Some i) else release (L_proc i);; mret None).

Definition allocproc : K kstate (option nat) :=
  r ← find_unused;
  match r with
  | None => mret None
  | Some i =>
    pid ← allocpid;
    setp i (set_p_pid pid);;
    setp i (set_p_state USED);;
    tf ← lift kalloc;
    setp i (set_p_trapframe tf);;
    if tf =? 0 then freeproc i;; release (L_proc i);; mret None else
    pt ← lift (proc_pagetable tf);
    setp i (set_p_pagetable pt);;
    if pt =? 0 then freeproc i;; release (L_proc i);; mret None else
    kstack ← getp i p_kstack;
    setp i (set_p_context (Context (kobj O_forkret) (kstack + PGSIZE)));;
    mret (Some i)
  end.

(** [uint sz]: the size is cut to 32 bits. *)
Definition growproc (n : Z) : K kstate Z :=
  p ← myproc; i ← the p;
  sz ← getp i p_sz; pt ← getp i p_pagetable;
  let sz := u32 sz in
  if 0 <? n then
    sz ← lift (uvmalloc pt sz (u32 (sz + n)));
    if u32 sz =? 0 then mret (-1) else setp i (set_p_sz (u32 sz));; mret 0
  else if n <? 0 then
    sz ← lift (uvmdealloc pt sz (u32 (sz + n)));
    setp i (set_p_sz (u32 sz));; mret 0
  else setp i (set_p_sz sz);; mret 0.

(** ** Switching, sleeping, waking *)

(** [swtch(&p->context, &mycpu()->context)] *)
Definition swtch : K kstate unit := fun _ s => Sched s (fun s' => Ok tt s').

Definition sched : K kstate unit :=
  p ← myproc; i ← the p;
  h ← holding (L_proc i);
  if negb h then panic "sched p->lock" else
  nf ← gets (fun s => noff (lk (mach s)));
  if negb (nf =? 1) then panic "sched locks" else
  st ← getp i p_state;
  if decide (st = RUNNING) then panic "sched running" else
  on ← lift (S := lstate) intr_get;
  if on : bool then panic "sched interruptible" else
  ie ← gets (fun s => intena (lk (mach s)));
  swtch;;
  lift (S := lstate) (modify (set_intena ie)).

Definition yield : K kstate unit :=
  p ← myproc; i ← the p;
  acquire (L_proc i);;
  setp i (set_p_state RUNNABLE);;
  sched;;
  release (L_proc i).

(** One hart runs [sleep] up to the switch without interruption; the steps in
    between, which other harts can see, are modelled in [Smp]. *)
Definition sleep (ch : chan) (l : lockid) : K kstate unit :=
  p ← myproc; i ← the p;
  acquire (L_proc i);;
  release l;;
  setp i (set_p_chan (Some ch));;
  setp i (set_p_state SLEEPING);;
  sched;;
  setp i (set_p_chan None);;
  release (L_proc i);;
  acquire l.

Definition wakeup (ch : chan) : K kstate unit :=
  for_each the_procs (fun i =>
    me ← myproc;
    when (negb (bool_decide (me = Some i)))
      (acquire (L_proc i);;
       st ← getp i p_state; c ← getp i p_chan;
       when (bool_decide (st = SLEEPING /\ c = Some ch)) (setp i (set_p_state RUNNABLE));;
       release (L_proc i))).

Definition kill (pid : Z) : K kstate Z :=
  r ← for_exit the_procs (fun i =>
    acquire (L_proc i);;
    p ← getp i p_pid;
    if p =? pid then
      setp i (set_p_killed 1);;
      st ← getp i p_state;
      when (bool_decide (st = SLEEPING)) (setp i (set_p_state RUNNABLE));;
      release (L_proc i);;
      mret (Some 0)
    else release (L_proc i);; mret None);
  mret (default (-1) r).

(** Caller must hold [wait_lock]. *)
Definition reparent (p : nat) : K kstate unit :=
  for_each the_procs (fun i =>
    par ← getp i p_parent;
    when (bool_decide (par = Some p))
      (ip ← gets initproc;
       setp i (set_p_parent ip);;
       i0 ← the ip;
       wakeup (Ch_proc i0))).

(** One scan of the table in [wait]: children seen so far, or the result. *)
Definition wait_scan (p : nat) (addr : Z) : K kstate (bool + Z) :=
  for_fold the_procs (inl false) (fun acc j =>
    match acc with
    | inr _ => mret acc
    | inl havekids =>
      par ← getp j p_parent;
      if negb (bool_decide (par = Some p)) then mret acc else
      acquire (L_proc j);;
      st ← getp j p_state;
      if decide (st = ZOMBIE) then
        pid ← getp j p_pid;
        xstate ← getp j p_xstate;
        pt ← getp p p_pagetable;
        r ← (if addr =? 0 then mret 0 else
               lift (poke_m (kobj O_xstate) (le_bytes 4 xstate));;
               lift (copyout pt addr (kobj O_xstate) 4));
        if r <? 0 then
          release (L_proc j);; release L_wait;; mret (inr (-1))
        else
          freeproc j;; release (L_proc j);; release L_wait;; mret (inr pid)
      else release (L_proc j);; mret (inl true)
    end).

Definition wait (addr : Z) : K kstate Z :=
  p ← myproc; i ← the p;
  acquire L_wait;;
  loop (fun _ : unit =>
    r ← wait_scan i addr;
    match r with
    | inr v => mret (inr v)
    | inl havekids =>
      killed ← getp i p_killed;
      if negb havekids || negb (killed =? 0) then release L_wait;; mret (inr (-1)) else
      sleep (Ch_proc i) L_wait;; mret (inl tt)
    end) tt.

(** ** The scheduler's side of a switch *)

(** Up to [swtch(&c->context, &p->context)]; is there a switch? *)
Definition sched_enter (i : nat) : K kstate bool :=
  acquire (L_proc i);;
  st ← getp i p_state;
  if decide (st = RUNNABLE) then
    setp i (set_p_state RUNNING);;
    modify (set_cur (Some i));;
    mret true
  else release (L_proc i);; mret false.
(** After the switch back. *)
Definition sched_leave (i : nat) : K kstate unit :=
  modify (set_cur None);;
  release (L_proc i).

(** ** Copying to and from user space *)

Definition either_copyout (user_dst : bool) (dst src len : Z) : K kstate Z :=
  p ← myproc;
  if user_dst then i ← the p; pt ← getp i p_pagetable; lift (copyout pt dst src len)
  else lift (modify (fun m => set_mem (memmove (mem m) dst src len) m));; mret 0.

Definition either_copyin (dst : Z) (user_src : bool) (src len : Z) : K kstate Z :=
  p ← myproc;
  if user_src then i ← the p; pt ← getp i p_pagetable; lift (copyin pt dst src len)
  else lift (modify (fun m => set_mem (memmove (mem m) dst src len) m));; mret 0.

(** ** Debugging output *)

Definition state_name (st : procstate) : string :=
  match st with
  | UNUSED => "unused" | USED => "???" | SLEEPING => "sleep "
  | RUNNABLE => "runble" | RUNNING => "run   " | ZOMBIE => "zombie"
  end.
Definition procdump : K kstate unit :=
  lift (printf nl []);;
  for_each the_procs (fun i =>
    st ← getp i p_state;
    if decide (st = UNUSED) then mret tt else
    pid ← getp i p_pid; name ← getp i p_name;
    lift (printf "%d %s %s" [AInt pid; AStr (Some (cstring (state_name st))); AStr (Some name)]);;
    lift (printf nl [])).

End proc.
