(* ===== verification/Start.v ===== *)
(** * Machine-mode start-up ([kernel/start.c], [timervec] of [kernel/kernelvec.S])

    A hart begins in machine mode: [start] sets up its registers, the timer and
    the protection of memory and returns with [mret] into [main] in supervisor
    mode.  Machine mode is entered again only by the timer, at [timervec].

    A hart is its mode, its program counter, its registers and the memory, in
    which the registers of the CLINT lie too.  [sie] is a view of [mie]: the
    interrupts that are delegated.  Which ones a hart lets be delegated
    ([ideleg], [edeleg]) and where the linker puts things is up to it. *)

From S2P Require Import Prelude Mem.

Module Start.

Definition NCPU : Z := 8.
(** memlayout.h *)
Definition CLINT : Z := 0x2000000.
Definition CLINT_MTIMECMP (hartid : Z) : Z := CLINT + 0x4000 + 8 * hartid.
Definition CLINT_MTIME : Z := CLINT + 0xBFF8.
(** riscv.h *)
Definition MSTATUS_MPP_MASK : Z := Z.shiftl 3 11.
Definition MSTATUS_MPP_S : Z := Z.shiftl 1 11.
Definition MSTATUS_MIE : Z := Z.shiftl 1 3.
Definition PMP_R : Z := Z.shiftl 1 0.
Definition PMP_W : Z := Z.shiftl 1 1.
Definition PMP_X : Z := Z.shiftl 1 2.
Definition PMP_MATCH_NAPOT : Z := Z.shiftl 3 3.
Definition SIE_SEIE : Z := Z.shiftl 1 9.
Definition SIE_STIE : Z := Z.shiftl 1 5.
Definition SIE_SSIE : Z := Z.shiftl 1 1.
Definition MIE_MTIE : Z := Z.shiftl 1 7.

(** The privilege modes as [MPP] encodes them. *)
Definition mode_M : Z := 3.
Definition mode_S : Z := 1.

Record hart := Hart {
  h_mode : Z;
  h_pc : Z;
  h_csr : gmap string Z;
  h_reg : gmap string Z;
  h_mem : memory;
}.
Definition set_h_mode (x : Z) (s : hart) : hart := Hart x (h_pc s) (h_csr s) (h_reg s) (h_mem s).
Definition set_h_pc (x : Z) (s : hart) : hart := Hart (h_mode s) x (h_csr s) (h_reg s) (h_mem s).
Definition set_h_csr (x : gmap string Z) (s : hart) : hart := Hart (h_mode s) (h_pc s) x (h_reg s) (h_mem s).
Definition set_h_reg (x : gmap string Z) (s : hart) : hart := Hart (h_mode s) (h_pc s) (h_csr s) x (h_mem s).
Definition set_h_mem (x : memory) (s : hart) : hart := Hart (h_mode s) (h_pc s) (h_csr s) (h_reg s) x.

Definition csrv (r : string) (s : hart) : Z := default 0 (h_csr s !! r).
Definition regv (r : string) (s : hart) : Z := default 0 (h_reg s !! r).

(** What depends on the hart and on the linker. *)
Class Platform := {
  ideleg : Z;          (* the interrupts [mideleg] can delegate *)
  edeleg : Z;          (* the exceptions [medeleg] can delegate *)
  main_addr : Z;       (* [main] *)
  timervec_addr : Z;   (* [timervec] *)
  timer_scratch : Z;   (* [timer_scratch] *)
}.

Section start.
Context {pf : Platform}.

(** ** Registers *)

Definition r_csr (r : string) : K hart Z := gets (csrv r).
Definition w_csr (r : string) (x : Z) : K hart unit := modify (fun s => set_h_csr (<[r := u64 x]> (h_csr s)) s).
Definition r_reg (r : string) : K hart Z := gets (regv r).
Definition w_reg (r : string) (x : Z) : K hart unit := modify (fun s => set_h_reg (<[r := u64 x]> (h_reg s)) s).

Definition r_mhartid : K hart Z := r_csr "mhartid".
Definition r_mstatus : K hart Z := r_csr "mstatus".
Definition w_mstatus : Z -> K hart unit := w_csr "mstatus".
Definition w_mepc : Z -> K hart unit := w_csr "mepc".
Definition w_satp : Z -> K hart unit := w_csr "satp".
Definition w_medeleg (x : Z) : K hart unit := w_csr "medeleg" (Z.land x edeleg).
Definition w_mideleg (x : Z) : K hart unit := w_csr "mideleg" (Z.land x ideleg).
Definition r_mie : K hart Z := r_csr "mie".
Definition w_mie : Z -> K hart unit := w_csr "mie".
Definition r_sie : K hart Z := m ← r_mie; d ← r_csr "mideleg"; mret (Z.land m d).
Definition w_sie (x : Z) : K hart unit :=
  m ← r_mie; d ← r_csr "mideleg";
  w_mie (Z.lor (Z.land m (Z.lnot d)) (Z.land x d)).
Definition w_mscratch : Z -> K hart unit := w_csr "mscratch".
Definition w_mtvec : Z -> K hart unit := w_csr "mtvec".
Definition w_pmpaddr0 : Z -> K hart unit := w_csr "pmpaddr0".
Definition w_pmpcfg0 : Z -> K hart unit := w_csr "pmpcfg0".
Definition w_tp : Z -> K hart unit := w_reg "tp".

(** [uint64] cells of memory. *)
Definition load64 (a : Z) : K hart Z := gets (fun s => ld64 (h_mem s) a).
Definition store64 (a v : Z) : K hart unit := modify (fun s => set_h_mem (st64 (h_mem s) a (u64 v)) s).

(** Back to the mode in [MPP] at [mepc]; [MIE] is what [MPIE] (bit 7) was. *)
Definition mret_status (m : Z) : Z :=
  let m' := Z.lor (Z.land m (Z.lnot (Z.lor MSTATUS_MPP_MASK MSTATUS_MIE))) (Z.shiftl 1 7) in
  if Z.testbit m 7 then Z.lor m' MSTATUS_MIE else m'.
Definition mret_insn : K hart unit :=
  m ← r_mstatus; a ← r_csr "mepc";
  w_mstatus (mret_status m);;
  modify (fun s => set_h_pc a (set_h_mode (Z.land (Z.shiftr m 11) 3) s)).

(** ** [start.c] *)

Definition pmpinit : K hart unit :=
  w_pmpaddr0 (Z.shiftr (2 ^ 64 - 1) 10);;
  w_pmpcfg0 (Z.lor (Z.lor (Z.lor PMP_R PMP_W) PMP_X) PMP_MATCH_NAPOT).

Definition interval : Z := 1000000.
(** [&timer_scratch[id][0]], an array of [NCPU] rows of five. *)
Definition scratch (id : Z) : Z := timer_scratch + 40 * id.

Definition timerinit : K hart unit :=
  id ← r_mhartid;
  let id := i32 id in
  t ← load64 CLINT_MTIME;
  store64 (CLINT_MTIMECMP id) (t + interval);;
  (if (id <? 0) || (NCPU <=? id) then undef else mret tt);;
  store64 (scratch id + 24) (CLINT_MTIMECMP id);;
  store64 (scratch id + 32) interval;;
  w_mscratch (scratch id);;
  w_mtvec timervec_addr;;
  m ← r_mstatus; w_mstatus (Z.lor m MSTATUS_MIE);;
  m ← r_mie; w_mie (Z.lor m MIE_MTIE).

Definition start : K hart unit :=
  x ← r_mstatus;
  let x := Z.land x (Z.lnot MSTATUS_MPP_MASK) in
  let x := Z.lor x MSTATUS_MPP_S in
  w_mstatus x;;
  w_mepc main_addr;;
  w_satp 0;;
  w_medeleg 0xffff;;
  w_mideleg 0xffff;;
  e ← r_sie; w_sie (Z.lor (Z.lor (Z.lor e SIE_SEIE) SIE_STIE) SIE_SSIE);;
  timerinit;;
  id ← r_mhartid;
  w_tp (i32 id);;
  pmpinit;;
  mret_insn.

(** ** [timervec] *)

(** [csrrw a0, mscratch, a0] *)
Definition swap_scratch : K hart unit :=
  a ← r_reg "a0"; m ← r_csr "mscratch";
  w_csr "mscratch" a;; w_reg "a0" m.
(** [sd r, off(a0)], [ld r, off(b)] *)
Definition sd (r : string) (off : Z) (b : string) : K hart unit := a ← r_reg b; v ← r_reg r; store64 (a + off) v.
Definition ld (r : string) (off : Z) (b : string) : K hart unit := a ← r_reg b; v ← load64 (a + off); w_reg r v.

Definition timervec : K hart unit :=
  swap_scratch;;
  sd "a1" 0 "a0";; sd "a2" 8 "a0";; sd "a3" 16 "a0";;
  c ← r_csr "mcause"; w_reg "a1" c;;
  if negb (Z.testbit c 63) then spin else
  w_reg "a2" (2 ^ 63 + 7);;
  if negb (c =? 2 ^ 63 + 7) then spin else
  ld "a1" 24 "a0";; ld "a2" 32 "a0";;
  ld "a3" 0 "a1";;
  x ← r_reg "a3"; y ← r_reg "a2"; w_reg "a3" (x + y);;
  sd "a3" 0 "a1";;
  w_reg "a1" 2;; x ← r_reg "a1"; w_csr "sip" x;;
  ld "a3" 16 "a0";; ld "a2" 8 "a0";; ld "a1" 0 "a0";;
  swap_scratch;;
  mret_insn.

(** A timer interrupt while the hart runs below machine mode: [mepc], [mcause]
    and [MPP] are set and it goes on at [mtvec] in machine mode; [MIE] is saved
    in [MPIE] and cleared. *)
Definition trap_status (m mode : Z) : Z :=
  let m' := Z.lor (Z.land m (Z.lnot (Z.lor MSTATUS_MPP_MASK (Z.lor MSTATUS_MIE (Z.shiftl 1 7))))) (Z.shiftl mode 11) in
  if Z.testbit m 3 then Z.lor m' (Z.shiftl 1 7) else m'.
Definition timer_trap (s : hart) : hart :=
  let c := <["mepc" := h_pc s]> (<["mcause" := 2 ^ 63 + 7]> (<["mstatus" := trap_status (csrv "mstatus" s) (h_mode s)]> (h_csr s))) in
  Hart mode_M (csrv "mtvec" s) c (h_reg s) (h_mem s).
End start.

End Start.
