(* ===== verification/StartSpec.v ===== *)
(** * A hart comes up in [main], and its timer keeps ticking

    [start] ends in supervisor mode at [main] with the interrupts the kernel
    takes enabled, and with the timer set up; each timer interrupt schedules
    the next, raises a software interrupt and returns to where it came from
    with every register as it was. *)

From S2P Require Import Prelude Mem Start.
Import Start.

(** The supervisor interrupts can be delegated, the machine timer cannot; the
    scratch area is memory apart from the CLINT. *)
Class PlatformOk `{!Platform} : Prop := {
  pk_delegates : forall b, b ∈ [1; 5; 9] -> Z.testbit ideleg b = true;
  pk_timer : Z.testbit ideleg 7 = false;
  pk_main : 0 <= main_addr < 2 ^ 64;
  pk_timervec : 0 <= timervec_addr < 2 ^ 64;
  pk_scratch : 0 <= timer_scratch /\ timer_scratch + 40 * NCPU < 2 ^ 64;
  pk_apart : timer_scratch + 40 * NCPU <= CLINT \/ CLINT + 0x10000 <= timer_scratch;
}.

(** The timer of hart [id] is set up. *)
Record timer_ok `{!Platform} (id : Z) (s : hart) : Prop := {
  tk_scratch : csrv "mscratch" s = scratch id;
  tk_vec : csrv "mtvec" s = timervec_addr;
  tk_cmp : ld64 (h_mem s) (scratch id + 24) = CLINT_MTIMECMP id;
  tk_interval : ld64 (h_mem s) (scratch id + 32) = interval;
}.

Section spec.
Context {pf : Platform} {pk : PlatformOk}.
Implicit Types (s : hart).

(** ** Registers *)

Lemma csrv_same r v c s : csrv r (set_h_csr (<[r := v]> c) s) = v.
Proof. by rw /csrv /= lookup_insert_eq. Qed.
Lemma csrv_other r r' v s : r <> r' -> csrv r (set_h_csr (<[r' := v]> (h_csr s)) s) = csrv r s.
Proof. intros Hne. by rw /csrv /= lookup_insert_ne. Qed.
Lemma wp_r r n s Q : Q (csrv r s) s -> wp (r_csr r) n s Q.
Proof. done. Qed.

Lemma u64_bit z b : 0 <= b < 64 -> Z.testbit (u64 z) b = Z.testbit z b.
Proof. intros Hb. rw /u64 Z.mod_pow2_bits_low //. lia. Qed.
(** Bits 11 and 12 are the mode [mret] goes to. *)
Lemma mpp_bits x : Z.testbit x 11 = true -> Z.testbit x 12 = false -> Z.land (Z.shiftr x 11) 3 = mode_S.
Proof.
  intros H1 H2. apply Z.bits_inj'. intros b Hb. rw Z.land_spec Z.shiftr_spec //.
  destruct (decide (b = 0)) as [->|]; [by rw H1|]. destruct (decide (b = 1)) as [->|]; [by rw H2|].
  rw (Z.bits_above_log2 3 b) ?andb_false_r; [|lia|cbn; lia]. rw (Z.bits_above_log2 mode_S b) //. cbn. lia.
Qed.
Lemma clint_apart id a : 0 <= id < NCPU -> scratch id <= a <= scratch id + 32 -> a + 8 <= CLINT_MTIMECMP id \/ CLINT_MTIMECMP id + 8 <= a.
Proof. rw /scratch /CLINT_MTIMECMP /NCPU /CLINT. pose proof pk_apart as Ha. rw /NCPU /CLINT in Ha. lia. Qed.
Lemma scratch_range id : 0 <= id < NCPU -> 0 <= scratch id /\ scratch id + 40 < 2 ^ 64.
Proof. rw /scratch. pose proof pk_scratch. rw /NCPU in H |- *. lia. Qed.

Ltac run_hart := cbv beta iota zeta delta [mbind K_bind mret K_ret bindr gets modify r_csr w_csr r_reg w_reg r_mhartid r_mstatus w_mstatus w_mepc w_satp w_medeleg w_mideleg
  r_mie w_mie r_sie w_sie w_mscratch w_mtvec w_pmpaddr0 w_pmpcfg0 w_tp load64 store64 swap_scratch sd ld
  set_h_mode set_h_pc set_h_csr set_h_reg set_h_mem h_mode h_pc h_csr h_reg h_mem].
Ltac read_csr := rw /csrv /regv; cbn [h_mode h_pc h_csr h_reg h_mem];
  repeat (rw lookup_insert_eq || (rw lookup_insert_ne; [|done])); cbn [from_option Datatypes.id].

(** What [timerinit] leaves. *)
Definition with_timer (id : Z) (s : hart) : hart :=
  Hart (h_mode s) (h_pc s)
    (<["mie" := u64 (Z.lor (csrv "mie" s) MIE_MTIE)]> (<["mstatus" := u64 (Z.lor (csrv "mstatus" s) MSTATUS_MIE)]>
      (<["mtvec" := timervec_addr]> (<["mscratch" := scratch id]> (h_csr s)))))
    (h_reg s)
    (st64 (st64 (st64 (h_mem s) (CLINT_MTIMECMP id) (u64 (ld64 (h_mem s) CLINT_MTIME + interval)))
      (scratch id + 24) (CLINT_MTIMECMP id)) (scratch id + 32) interval).

Lemma timerinit_run n s id : csrv "mhartid" s = id -> 0 <= id < NCPU -> timerinit n s = Ok tt (with_timer id s).
Proof.
  intros Hid Hr. pose proof (scratch_range id Hr). pose proof pk_timervec. rw /NCPU in Hr. rw /timerinit /with_timer.
  run_hart. rw Hid i32_small; [|lia].
  rw (proj2 (Z.ltb_ge id 0)); [|lia]. rw (proj2 (Z.leb_gt NCPU id)); [|rw /NCPU; lia]. cbn [orb]. run_hart.
  rw (u64_small (CLINT_MTIMECMP id)); [|rw /CLINT_MTIMECMP /CLINT; lia]. rw (u64_small interval); [|done]. rw (u64_small (scratch id)); [|lia]. rw (u64_small timervec_addr); [|lia].
  read_csr. done.
Qed.

(** ** [start] *)

(** The supervisor's interrupts and the machine's timer. *)
Definition enabled : list Z := [1; 5; 9; 7].

Lemma sie_bit m d b : b ∈ [1; 5; 9] -> Z.testbit d b = true ->
  Z.testbit (Z.lor (Z.land m (Z.lnot d)) (Z.land (Z.lor (Z.lor (Z.lor (Z.land m d) SIE_SEIE) SIE_STIE) SIE_SSIE) d)) b = true.
Proof.
  intros Hb Hd. rw !Z.lor_spec !Z.land_spec Hd !Z.lor_spec.
  repeat (apply elem_of_cons in Hb as [->|Hb]; [by rw ?orb_true_r|]). by apply elem_of_nil in Hb.
Qed.

Lemma deleg_bit b : 0 <= b < 16 -> Z.testbit (u64 (Z.land 65535 ideleg)) b = Z.testbit ideleg b.
Proof. intros Hb. rw u64_bit; [|lia]. rw Z.land_spec -[65535]/(Z.ones 16) Z.ones_spec_low //. Qed.
(** [mie] after [w_sie] and [timerinit], by the bits. *)
Lemma mie_bits m b : b ∈ enabled -> let d := u64 (Z.land 65535 ideleg) in
  Z.testbit (u64 (Z.lor (u64 (Z.lor (Z.land m (Z.lnot d)) (Z.land (Z.lor (Z.lor (Z.lor (Z.land m d) SIE_SEIE) SIE_STIE) SIE_SSIE) d))) MIE_MTIE)) b = true /\
  Z.testbit d b = negb (b =? 7).
Proof.
  intros Hb d. assert (b = 7 \/ b ∈ [1; 5; 9]) as [->|Hb'] by (rw /enabled !elem_of_cons in Hb |- *; tauto).
  { rw u64_bit // Z.lor_spec orb_true_r /d deleg_bit //. rw pk_timer //. }
  assert (0 <= b < 16 /\ (b =? 7) = false) as [Hr ->] by (repeat (apply elem_of_cons in Hb' as [->|Hb']; [done|]); by apply elem_of_nil in Hb').
  assert (Z.testbit d b = true) as Hd by (rw /d deleg_bit //; by apply pk_delegates).
  rw u64_bit; [|lia]. rw Z.lor_spec u64_bit; [|lia]. by rw sie_bit.
Qed.

(** C37: [start], on hart [id] below [NCPU], returns in supervisor mode at
    [main], paging off, with the supervisor's software, timer and external
    interrupts and the machine's timer enabled, the first three delegated and
    the last not, [tp] the hart's number, one protection region over every
    physical address with all rights, [timervec] and its scratch area in place
    and the first tick [interval] cycles away. *)
Theorem start_enters_main n s id : csrv "mhartid" s = id -> 0 <= id < NCPU ->
  wp start n s (fun _ s' =>
    h_mode s' = mode_S /\ h_pc s' = main_addr /\ csrv "satp" s' = 0 /\
    (forall b, b ∈ enabled -> Z.testbit (csrv "mie" s') b = true /\ Z.testbit (csrv "mideleg" s') b = negb (b =? 7)) /\
    regv "tp" s' = id /\ csrv "pmpaddr0" s' = Z.ones 54 /\ csrv "pmpcfg0" s' = Z.ones 5 /\
    timer_ok id s' /\ ld64 (h_mem s') (CLINT_MTIMECMP id) = u64 (ld64 (h_mem s) CLINT_MTIME + interval)).
Proof.
  intros Hid Hr. destruct s as [md pc c r m]. pose proof Hr as Hr'. rw /NCPU in Hr'. pose proof pk_main.
  rw /wp /start. run_hart.
  erewrite timerinit_run; [|read_csr; exact Hid|done]. rw /with_timer /pmpinit /mret_insn. run_hart.
  read_csr. rw /csrv /= in Hid. rw Hid i32_small; [|lia]. rw !(u64_small id) ?(u64_small main_addr); [|lia..].
  split_and!; [|done|done| |done|done|done| |].
  - apply mpp_bits; rw u64_bit // Z.lor_spec u64_bit // !Z.lor_spec Z.land_spec Z.lnot_spec //; by rw andb_false_r.
  - exact (mie_bits _).
  - split; read_csr; [done..| |]; cbn [h_mem].
    + rw ld64_st64_ne ?ld64_st64_eq; [|lia]. rw u64_small //. rw /CLINT_MTIMECMP /CLINT. lia.
    + by rw ld64_st64_eq.
  - pose proof (clint_apart id (scratch id + 24) Hr). pose proof (clint_apart id (scratch id + 32) Hr).
    rw 2?ld64_st64_ne ?ld64_st64_eq ?(u64_small _ (u64_range _)) //; lia.
Qed.

(** ** [timervec] *)

(** [mret] goes back to the mode the trap saved. *)
Lemma trap_mode m md : md = 0 \/ md = mode_S -> Z.land (Z.shiftr (trap_status m md) 11) 3 = md.
Proof.
  intros Hmd. apply Z.bits_inj'. intros b Hb. rw Z.land_spec Z.shiftr_spec //.
  rw -[3]/(Z.ones 2). destruct (decide (2 <= b)).
  { rw Z.ones_spec_high; [|lia]. rw andb_false_r Z.bits_above_log2 //; destruct Hmd as [-> | ->]; cbv [mode_S Z.log2 Pos.size]; lia. }
  rw Z.ones_spec_low; [|lia]. rw andb_true_r /trap_status.
  assert (b = 0 \/ b = 1) as Hb' by lia.
  destruct (Z.testbit m 3), Hmd as [-> | ->], Hb' as [-> | ->]; rw ?Z.lor_spec Z.land_spec Z.lnot_spec // andb_false_r //.
Qed.

(** The instructions of [timervec], each followed by the rest [k]. *)
Section insns.
Context (n : nat) (md pc : Z) (c g : gmap string Z) (m : memory) (Q : unit -> hart -> Prop) (k : unit -> K hart unit).

Lemma swap_wp x y : default 0 (g !! "a0") = x -> default 0 (c !! "mscratch") = y -> 0 <= x < 2 ^ 64 -> 0 <= y < 2 ^ 64 ->
  wp (k tt) n (Hart md pc (<["mscratch" := x]> c) (<["a0" := y]> g) m) Q -> wp (swap_scratch ≫= k) n (Hart md pc c g m) Q.
Proof. intros <- <- Hx Hy. rw -{1}(u64_small _ Hx) -{1}(u64_small _ Hy). done. Qed.
Lemma sd_wp r off b a v : default 0 (g !! b) = a -> default 0 (g !! r) = v -> 0 <= v < 2 ^ 64 ->
  wp (k tt) n (Hart md pc c g (st64 m (a + off) v)) Q -> wp (sd r off b ≫= k) n (Hart md pc c g m) Q.
Proof. intros <- <- Hv. rw -{1}(u64_small _ Hv). done. Qed.
Lemma ld_wp r off b a : default 0 (g !! b) = a ->
  wp (k tt) n (Hart md pc c (<[r := ld64 m (a + off)]> g) m) Q -> wp (ld r off b ≫= k) n (Hart md pc c g m) Q.
Proof. intros <-. rw -{1}(u64_small _ (ld64_range _ _)). done. Qed.
Lemma li_wp r v : 0 <= v < 2 ^ 64 ->
  wp (k tt) n (Hart md pc c (<[r := v]> g) m) Q -> wp (w_reg r v ≫= k) n (Hart md pc c g m) Q.
Proof. intros Hv. rw -{1}(u64_small _ Hv). done. Qed.
End insns.

Lemma add_wp n md pc c g m (Q : unit -> hart -> Prop) (k : unit -> K hart unit) x y : default 0 (g !! "a3") = x -> default 0 (g !! "a2") = y ->
  wp (k tt) n (Hart md pc c (<["a3" := u64 (x + y)]> g) m) Q ->
  wp (v ← r_reg "a3"; w ← r_reg "a2"; w_reg "a3" (v + w) ≫= k) n (Hart md pc c g m) Q.
Proof. by intros <- <-. Qed.

(** The memory once [a1], [a2] and [a3] are saved, and once the tick is set. *)
Definition saved (id x1 x2 x3 : Z) (m : memory) : memory :=
  st64 (st64 (st64 m (scratch id + 0) x1) (scratch id + 8) x2) (scratch id + 16) x3.
Definition ticked (id x1 x2 x3 : Z) (m : memory) : memory :=
  st64 (saved id x1 x2 x3 m) (CLINT_MTIMECMP id) (u64 (ld64 m (CLINT_MTIMECMP id) + interval)).

Ltac mem_words := repeat (rw ld64_st64_eq || (rw ld64_st64_ne; [|lia])).

(** What the scratch area and the CLINT read as then. *)
Lemma saved_reads id x1 x2 x3 m : 0 <= id < NCPU -> let m' := saved id x1 x2 x3 m in
  ld64 m' (scratch id + 24) = ld64 m (scratch id + 24) /\ ld64 m' (scratch id + 32) = ld64 m (scratch id + 32) /\
  ld64 m' (CLINT_MTIMECMP id) = ld64 m (CLINT_MTIMECMP id) /\
  ld64 m' (scratch id + 0) = u64 x1 /\ ld64 m' (scratch id + 8) = u64 x2 /\ ld64 m' (scratch id + 16) = u64 x3.
Proof.
  intros Hid m'. rw /m' /saved. pose proof (clint_apart id (scratch id + 0) Hid). pose proof (clint_apart id (scratch id + 8) Hid).
  pose proof (clint_apart id (scratch id + 16) Hid). split_and!; mem_words; done.
Qed.
Lemma ticked_reads id x1 x2 x3 m a : 0 <= id < NCPU -> scratch id <= a <= scratch id + 32 -> ld64 (ticked id x1 x2 x3 m) a = ld64 (saved id x1 x2 x3 m) a.
Proof. intros Hid Ha. rw /ticked ld64_st64_ne //. pose proof (clint_apart id a Hid Ha). lia. Qed.

Lemma ticked_saved id x1 x2 x3 m : 0 <= id < NCPU -> 0 <= x1 < 2 ^ 64 -> 0 <= x2 < 2 ^ 64 -> 0 <= x3 < 2 ^ 64 -> let m' := ticked id x1 x2 x3 m in
  ld64 m' (scratch id + 0) = x1 /\ ld64 m' (scratch id + 8) = x2 /\ ld64 m' (scratch id + 16) = x3.
Proof.
  intros Hid H1 H2 H3 m'. destruct (saved_reads id x1 x2 x3 m Hid) as (_ & _ & _ & S0 & S1 & S2).
  rw !u64_small in S0, S1, S2; [|done..].
  split_and!; (etrans; [apply ticked_reads; [done|lia]|assumption]).
Qed.

(** C38: A timer interrupt, taken below machine mode with the timer set up,
    goes through [timervec] and comes back: the same mode, the same program
    counter and every register as it was, and no memory changed but the save
    area and the hart's [MTIMECMP]; the next tick is [interval] cycles
    after this one, a supervisor software interrupt is pending, and the timer
    is still set up, so the next one is served alike. *)
Theorem timer_ticks n s id : 0 <= id < NCPU -> timer_ok id s -> h_mode s = 0 \/ h_mode s = mode_S ->
  0 <= h_pc s < 2 ^ 64 -> (forall r, 0 <= regv r s < 2 ^ 64) ->
  wp timervec n (timer_trap s) (fun _ s' =>
    h_mode s' = h_mode s /\ h_pc s' = h_pc s /\ (forall r, regv r s' = regv r s) /\
    ld64 (h_mem s') (CLINT_MTIMECMP id) = u64 (ld64 (h_mem s) (CLINT_MTIMECMP id) + interval) /\
    (forall a, a + 8 <= scratch id \/ scratch id + 24 <= a -> a + 8 <= CLINT_MTIMECMP id \/ CLINT_MTIMECMP id + 8 <= a ->
      ld64 (h_mem s') a = ld64 (h_mem s) a) /\
    csrv "sip" s' = 2 /\ timer_ok id s').
Proof.
  intros Hid [T1 T2 T3 T4] Hmd Hpc Hreg. destruct s as [md pc c r m]. pose proof (scratch_range id Hid).
  rw /csrv /= in T1 T2. cbn [h_mode h_pc h_mem] in *.
  rw /timervec /timer_trap. cbn [h_mode h_pc h_csr h_reg h_mem].
  assert (forall x, 0 <= default 0 (r !! x) < 2 ^ 64) as Hg by exact Hreg.
  apply (swap_wp _ _ _ _ _ _ _ _ (default 0 (r !! "a0")) (scratch id)); [done|by read_csr|done|lia|].
  apply (sd_wp _ _ _ _ _ _ _ _ _ _ _ (scratch id) (default 0 (r !! "a1"))); [by read_csr|by read_csr|done|].
  apply (sd_wp _ _ _ _ _ _ _ _ _ _ _ (scratch id) (default 0 (r !! "a2"))); [by read_csr|by read_csr|done|].
  apply (sd_wp _ _ _ _ _ _ _ _ _ _ _ (scratch id) (default 0 (r !! "a3"))); [by read_csr|by read_csr|done|].
  apply wp_bind, wp_r. read_csr. apply li_wp; [done|]. cbn [Z.testbit negb].
  apply li_wp; [done|]. cbn [negb Z.eqb].
  set (x1 := default 0 (r !! "a1")). set (x2 := default 0 (r !! "a2")). set (x3 := default 0 (r !! "a3")).
  match goal with |- context [st64 ?x ?y ?z] => change (st64 x y z) with (saved id x1 x2 x3 m) end.
  change (negb (2 ^ 63 + 7 =? 2 ^ 63 + 7)) with false. cbv iota.
  destruct (saved_reads id x1 x2 x3 m Hid) as (S3 & S4 & Sc & _). rw T3 in S3. rw T4 in S4.
  destruct (ticked_saved id x1 x2 x3 m Hid (Hg _) (Hg _) (Hg _)) as (R0 & R1 & R2).
  apply (ld_wp _ _ _ _ _ _ _ _ _ _ _ (scratch id)); [by read_csr|]. rw S3.
  apply (ld_wp _ _ _ _ _ _ _ _ _ _ _ (scratch id)); [by read_csr|]. rw S4.
  apply (ld_wp _ _ _ _ _ _ _ _ _ _ _ (CLINT_MTIMECMP id)); [by read_csr|]. rw Z.add_0_r Sc.
  apply (add_wp _ _ _ _ _ _ _ _ (ld64 m (CLINT_MTIMECMP id)) interval); [by read_csr|by read_csr|].
  apply (sd_wp _ _ _ _ _ _ _ _ _ _ _ (CLINT_MTIMECMP id) (u64 (ld64 m (CLINT_MTIMECMP id) + interval))); [by read_csr|by read_csr|apply u64_range|].
  rw Z.add_0_r. change (st64 (saved id x1 x2 x3 m) _ _) with (ticked id x1 x2 x3 m).
  apply li_wp; [done|]. apply wp_bind, wp_gets. read_csr. apply wp_bind, wp_modify. cbv delta [set_h_csr] beta. cbn [h_mode h_pc h_csr h_reg h_mem].
  apply (ld_wp _ _ _ _ _ _ _ _ _ _ _ (scratch id)); [by read_csr|]. rw R2.
  apply (ld_wp _ _ _ _ _ _ _ _ _ _ _ (scratch id)); [by read_csr|]. rw R1.
  apply (ld_wp _ _ _ _ _ _ _ _ _ _ _ (scratch id)); [by read_csr|]. rw R0.
  apply (swap_wp _ _ _ _ _ _ _ _ (scratch id) (default 0 (r !! "a0"))); [by read_csr|by read_csr|lia|done|].
  rw /wp /mret_insn. run_hart. read_csr.
  split_and!; [by apply trap_mode|done| | | |done|split; read_csr].
  - intros q. destruct (decide (q = "a0")) as [->|]; [by read_csr|]. destruct (decide (q = "a1")) as [->|]; [by read_csr|].
    destruct (decide (q = "a2")) as [->|]; [by read_csr|]. destruct (decide (q = "a3")) as [->|]; [by read_csr|]. by rw !lookup_insert_ne.
  - rw /ticked ld64_st64_eq u64_small //. apply u64_range.
  - intros a Ha Hc. rw /ticked /saved !ld64_st64_ne //; lia.
  - done.
  - exact T2.
  - rw ticked_reads //. lia.
  - rw ticked_reads //. lia.
Qed.
End spec.

(** A hart that delegates the supervisor's interrupts, and its reset state. *)
#[local] Instance virt_hart : Platform := {|
  ideleg := 0x222; edeleg := 0xb109;
  main_addr := 0x80000eee; timervec_addr := 0x800056a0; timer_scratch := 0x80009000;
|}.
#[local] Instance virt_hart_ok : PlatformOk.
Proof.
  split; try done; [|by right].
  intros b Hb. repeat (apply elem_of_cons in Hb as [->|Hb]; [done|]). by apply elem_of_nil in Hb.
Qed.
Definition reset_hart : hart := Hart mode_M 0x80000000 {["mhartid" := 1]} ∅ (st64 ∅ CLINT_MTIME 500).

Lemma start_enters_main_witness : exists s', start 0%nat reset_hart = Ok tt s' /\ h_pc s' = 0x80000eee /\
  ld64 (h_mem s') (CLINT_MTIMECMP 1) = 1000500.
Proof.
  assert (csrv "mhartid" reset_hart = 1) as Hh by (vm_compute; reflexivity). assert (0 <= 1 < NCPU) as Hn by (cbv [NCPU]; lia).
  pose proof (start_enters_main 0%nat reset_hart 1 Hh Hn) as Hw.
  apply wp_run in Hw as ([] & s' & Hs & Hm & Hp & _ & _ & _ & _ & _ & _ & Ht).
  exists s'. split; [exact Hs|]. split; [exact Hp|exact Ht].
Defined.

(** The same hart later, in user code. *)
Definition user_hart : hart :=
  Hart 0 0x1234 {["mscratch" := scratch 1; "mtvec" := timervec_addr; "mstatus" := 8]} {["a0" := 5; "a1" := 6; "a2" := 7; "a3" := 8]}
    (st64 (st64 (st64 ∅ (CLINT_MTIMECMP 1) 1000500) (scratch 1 + 24) (CLINT_MTIMECMP 1)) (scratch 1 + 32) interval).
Lemma user_regs r : 0 <= regv r user_hart < 2 ^ 64.
Proof.
  rw /regv /user_hart. cbn [h_reg].
  destruct (decide (r = "a0")) as [->|]; [by vm_compute|]. destruct (decide (r = "a1")) as [->|]; [by vm_compute|].
  destruct (decide (r = "a2")) as [->|]; [by vm_compute|]. destruct (decide (r = "a3")) as [->|]; [by vm_compute|].
  rw !lookup_insert_ne //.
Qed.

Lemma timer_ticks_witness : exists s', timervec 0%nat (timer_trap user_hart) = Ok tt s' /\ h_pc s' = 0x1234 /\ regv "a1" s' = 6 /\
  ld64 (h_mem s') (CLINT_MTIMECMP 1) = 2000500.
Proof.
  assert (0 <= 1 < NCPU) as Hn by (cbv [NCPU]; lia). assert (timer_ok 1 user_hart) as Ht by (split; vm_compute; reflexivity).
  assert (h_mode user_hart = 0) as Hm by reflexivity. assert (0 <= h_pc user_hart < 2 ^ 64) as Hpc by (cbn [h_pc user_hart]; lia).
  pose proof (timer_ticks 0%nat user_hart 1 Hn Ht (or_introl Hm) Hpc user_regs) as Hw.
  destruct (proj1 (wp_run timervec 0%nat (timer_trap user_hart) _) Hw) as ([] & s' & Hs & _ & Hp & Hr & Hc & _).
  exists s'. split; [exact Hs|]. split; [exact Hp|]. split; [exact (Hr "a1")|exact Hc].
Defined.
