(* ===== verification/VmCheck.v ===== *)
(** * A decision procedure for the page-table invariant

    [vm_check] decides, on a concrete memory, that a given set of tables and a
    given free list satisfy [vm_inv]; [demo] is a memory with the page tables
    of two processes and a free list, on which the theorems about the memory
    subsystem are exercised. *)

From S2P Require Import Prelude Mem KString Spinlock Machine Kalloc Vm VmInv KState.

#[export] Instance page_ok_dec `{!Layout} p : Decision (page_ok p).
Proof. rw /page_ok. apply _. Defined.

Section check.
Context {lay : Layout}.
Implicit Types (m : memory) (Tl : list (list Z * Z)).

Fixpoint flist_check m (h : Z) (l : list Z) : bool :=
  match l with
  | [] => h =? 0
  | p :: l' => (h =? p) && bool_decide (page_ok p) && flist_check m (ld64 m p) l'
  end.
Definition entry_check m (T : gmap (list Z) Z) (x : list Z) (p i : Z) : bool :=
  match T !! (x ++ [i]) with
  | Some q => ld64 m (p + 8 * i) =? Z.lor (PA2PTE q) PTE_V
  | None => negb (Z.odd (ld64 m (p + 8 * i)))
  end.
Definition table_check m (T : gmap (list Z) Z) (xp : list Z * Z) : bool :=
  let '(x, p) := xp in
  bool_decide (page_ok p) && (length x <=? 2)%nat &&
  (bool_decide (x = []) || bool_decide (is_Some (T !! removelast x))) &&
  ((2 <=? length x)%nat || forallb (entry_check m T x p) (rangeZ 512)).
Definition pt_check m (root : Z) Tl : bool :=
  let T := list_to_map Tl in
  bool_decide (T !! [] = Some root) && bool_decide (NoDup Tl.*2) && forallb (table_check m T) Tl.
Definition lk_check (l : lstate) : bool :=
  bool_decide (NoDup (locks l).*1) && (Z.of_nat (length (my_locks l)) <=? noff l) &&
  ((noff l <=? 0) || negb (sie l)) && (negb (noff l =? 0) || eqb (intena l) (sie l)).
Definition vm_check (s : mstate) (root : Z) Tl (l : list Z) : bool :=
  lk_check (lk s) && negb (locked L_kmem (lk s)) &&
  flist_check (mem s) (freelist s) l && bool_decide (NoDup l) &&
  pt_check (mem s) root Tl && forallb (fun xp => negb (bool_decide (xp.2 ∈ l))) Tl.

Lemma flist_check_ok m h l : flist_check m h l = true -> flist m h l.
Proof.
  revert h; induction l as [|p l IH]; intros h; simpl; intros H; zbool; [done|].
  split_and!; [done|by apply bool_decide_eq_true in H1|by apply IH].
Qed.

Lemma lk_check_ok l : lk_check l = true -> lk_ok l.
Proof.
  rw /lk_check. intros H. zbool. apply bool_decide_eq_true in H. split; [done|done| |].
  - intros Hn. destruct H1 as [H1|H1]; zbool; [lia|done].
  - intros Hn. destruct H0 as [H0|H0]; zbool; [lia|]. by apply eqb_prop.
Qed.

Lemma elem_of_Tl Tl x p : (list_to_map Tl : gmap (list Z) Z) !! x = Some p -> In (x, p) Tl.
Proof. intros H. by apply list_elem_of_In, elem_of_list_to_map_2. Qed.

Lemma values_inj Tl (x y : list Z) (p : Z) :
  NoDup Tl.*2 -> (x, p) ∈ Tl -> (y, p) ∈ Tl -> x = y.
Proof.
  induction Tl as [|[z q] Tl IH]; simpl; intros Hnd Hx Hy; [by apply not_elem_of_nil in Hx|].
  apply NoDup_cons in Hnd as [Hn Hnd].
  apply elem_of_cons in Hx, Hy. destruct Hx as [[= -> ->]|Hx], Hy as [[= E]|Hy]; try done.
  - exfalso. apply Hn, list_elem_of_fmap. by exists (y, q).
  - subst. exfalso. apply Hn, list_elem_of_fmap. by exists (x, q).
  - by apply IH.
Qed.

Lemma pt_check_ok m root Tl : pt_check m root Tl = true -> pt_inv m root (list_to_map Tl).
Proof.
  rw /pt_check. set (T := list_to_map Tl : gmap (list Z) Z). intros H. zbool.
  apply bool_decide_eq_true in H, H1. rw forallb_forall in H0.
  assert (forall x p, T !! x = Some p -> table_check m T (x, p) = true) as Ht
    by (intros x p Hx; by apply H0, elem_of_Tl).
  split; [done|..].
  - intros x p Hx%Ht. rw /table_check in Hx. zbool. by apply bool_decide_eq_true in H2.
  - intros x p Hx%Ht. rw /table_check in Hx. zbool. by apply Nat.leb_le.
  - intros x y p Hx Hy. apply (values_inj Tl x y p H1); by apply elem_of_list_to_map_2.
  - intros x i q Hx%Ht. rw /table_check in Hx. zbool.
    destruct H4 as [E|E]; apply bool_decide_eq_true in E; [by destruct x|].
    by rw removelast_last in E.
  - intros x p i Hx%Ht Hlen Hi. rw /table_check in Hx. zbool.
    destruct H3 as [E|E]; [apply Nat.leb_le in E; lia|]. rw forallb_forall in E.
    assert (In i (rangeZ 512)) as Hin by (apply list_elem_of_In, elem_of_rangeZ; lia).
    specialize (E i Hin). rw /entry_check in E. destruct (T !! (x ++ [i])); zbool; done.
Qed.

Lemma vm_check_ok s root Tl l : vm_check s root Tl l = true -> vm_inv s root (list_to_map Tl) l.
Proof.
  rw /vm_check. intros H. zbool. rw forallb_forall in H0. apply bool_decide_eq_true in H2.
  split; [split|split|..].
  - by apply lk_check_ok.
  - done.
  - by apply flist_check_ok.
  - done.
  - by apply pt_check_ok.
  - intros x p Hx%elem_of_Tl Hin. specialize (H0 _ Hx). simpl in H0. zbool.
    apply bool_decide_eq_false in H0. done.
Qed.

End check.

(** ** A concrete memory *)

(** Page [k] of the 64 pages of [small_layout]. *)
Definition pg (k : Z) : Z := PHYSTOP - 64 * PGSIZE + PGSIZE * k.
(** Tables of a process in the pages [b], [b+1], [b+2] (for the top of the
    address space) and [b+3], [b+4] (for the bottom), with the trapframe in
    page [b+5] and one page of user memory in [b+6]. *)
Definition demo_tables (b : Z) : list (list Z * Z) :=
  [([], pg b); ([255], pg (b + 1)); ([255; 511], pg (b + 2)); ([0], pg (b + 3)); ([0; 0], pg (b + 4))].
Definition demo_pt (b : Z) (m : memory) : memory :=
  let m := st64 m (pg b + 8 * 255) (Z.lor (PA2PTE (pg (b + 1))) PTE_V) in
  let m := st64 m (pg (b + 1) + 8 * 511) (Z.lor (PA2PTE (pg (b + 2))) PTE_V) in
  let m := st64 m (pg (b + 2) + 8 * 510) (new_pte (pg (b + 5)) (Z.lor PTE_R PTE_W)) in
  let m := st64 m (pg b + 8 * 0) (Z.lor (PA2PTE (pg (b + 3))) PTE_V) in
  let m := st64 m (pg (b + 3) + 8 * 0) (Z.lor (PA2PTE (pg (b + 4))) PTE_V) in
  st64 m (pg (b + 4) + 8 * 0) (new_pte (pg (b + 6)) (Z.lor PTE_W (Z.lor PTE_X (Z.lor PTE_R PTE_U)))).
(** The free pages 20 to 59, linked in order. *)
Definition demo_free : list Z := (fun i => pg (20 + i)) <$> rangeZ 40.
Fixpoint chain (l : list Z) (m : memory) : memory :=
  match l with
  | [] => m
  | p :: l' => st64 (chain l' m) p (default 0 (head l'))
  end.
Definition demo : mstate :=
  MState (demo_pt 0 (demo_pt 10 (chain demo_free ∅))) (pg 20) zero_lstate [] true.

Lemma demo_inv b : b = 0 \/ b = 10 ->
  vm_inv (lay := small_layout) demo (pg b) (list_to_map (demo_tables b)) demo_free.
Proof. intros [-> | ->]; apply vm_check_ok; by vm_compute. Qed.

(** Two processes, the first of them running. *)
Definition demo_proc (pid root tf : Z) (st : procstate) : proc :=
  set_p_pid pid (set_p_pagetable root (set_p_trapframe tf (set_p_sz PGSIZE (set_p_state st zero_proc)))).
Definition kdemo : kstate :=
  set_mach demo (set_cur (Some 0%nat) (set_procs
    (<[0%nat := demo_proc 1 (pg 0) (pg 5) RUNNING]>
      (<[1%nat := demo_proc 2 (pg 10) (pg 15) RUNNABLE]> (procs kstate0))) kstate0)).
