(* ===== verification/VmSpec.v ===== *)
(** * Main properties of the memory subsystem

    The theorems about [kalloc.c], [vm.c] and the copy routines, each with an
    instance on the concrete memory of [VmCheck]. *)

From S2P Require Import Prelude Mem KString Spinlock Machine Kalloc Vm VmInv VmCopy VmCheck.

(** ** The page allocator *)

Section kalloc.
Context {lay : Layout}.

(** C23: no page is lost or handed out twice.  Whatever sequence of allocations
    and frees of pages it owns a client makes, every call returns, and the
    pages it owns together with the free list are the same pages as at the
    start. *)
Theorem kalloc_conserves_pages ops s own l n :
  free_lock L_kmem s -> free_pages s l -> NoDup (own ++ l) -> Forall page_ok own ->
  wp (client ops own) n s (fun own' s' => exists l', free_pages s' l' /\ own' ++ l' ≡ₚ own ++ l).
Proof. apply client_conserves. Qed.

(** [kinit] puts every page between the end of the kernel and [PHYSTOP] on
    the free list, each once, and terminates. *)
Theorem kinit_frees_all s n :
  free_lock L_kmem s -> freelist s = 0 ->
  (Z.to_nat ((PHYSTOP - PGROUNDUP kend) / PGSIZE) < n)%nat ->
  wp kinit n s (fun _ s' => lk s' = lk s /\ exists l, free_pages s' l /\ forall p, p ∈ l <-> page_ok p).
Proof.
  intros Hlk H0 Hn. pose proof etext_lo. pose proof etext_kend. pose proof kend_hi.
  eapply wp_mono; [apply (freerange_spec s [] kend PHYSTOP n)|].
  - done.
  - split; [done|apply NoDup_nil_2].
  - pglia.
  - done.
  - done.
  - intros p _. apply not_elem_of_nil.
  - done.
  - intros _ s' [Hf Hlk']. split; [done|]. eexists. split; [exact Hf|]. intros p.
    rw app_nil_r list_elem_of_In -in_rev -list_elem_of_In. symmetry. apply page_ok_seq.
Qed.

(** [kfree] of anything but an allocatable page panics, without touching
    memory or the free list. *)
Theorem kfree_rejects s pa n :
  ~ page_ok pa -> kfree pa n s = Panic "kfree" s.
Proof. apply kfree_panics. Qed.
End kalloc.

(** ** Page tables *)

Section vm.
Context {lay : Layout}.
Implicit Types (T : gmap (list Z) Z) (s : mstate).

(** [mappages] on an unmapped range either maps every page of the range
    to the corresponding physical page with the given permissions, or runs out
    of memory and answers -1; it keeps the page table well formed, changes no
    other mapping and no byte outside the tables, and always terminates. *)
Theorem mappages_maps s root T l va k pa perm n :
  vm_inv s root T l -> va mod PGSIZE = 0 -> 0 <= va -> 0 < k -> va + PGSIZE * k <= MAXVA ->
  pa mod PGSIZE = 0 -> 0 <= pa -> pa + PGSIZE * k <= 2 ^ 56 -> 0 <= perm < 1024 ->
  (forall j, 0 <= j < k -> Z.odd (leaf (mem s) T (va + PGSIZE * j)) = false) ->
  k < Z.of_nat n ->
  wp (mappages root va (PGSIZE * k) pa perm) n s (fun r s' => exists T' l',
    vm_inv s' root T' l' /\ l' `suffix_of` l /\ lk s' = lk s /\
    (forall a, (forall x p, T' !! x = Some p -> off_page p a) -> ld8 (mem s') a = ld8 (mem s) a) /\
    (forall b, b mod PGSIZE = 0 -> 0 <= b < MAXVA -> ~ va <= b < va + PGSIZE * k ->
       leaf (mem s') T' b = leaf (mem s) T b) /\
    (r = 0 /\ (forall j, 0 <= j < k -> Z.testbit perm 4 = true ->
                 walkaddr root (va + PGSIZE * j) n s' = Ok (pa + PGSIZE * j) s') \/
     r = -1 /\ l' = [])).
Proof.
  intros Hinv Hva Hva0 Hk Hmax Hpa Hpa0 Hpamax Hperm Hfree Hn. pose proof MAXVA_lt.
  eapply wp_mono; [by apply (mappages_wp s root T l va k pa perm n)|].
  intros r s' (T' & l' & j & Hinv' & Hfr & Hmap & Hr). exists T', l'.
  split_and!; [done|apply Hfr|apply Hfr|apply (pf_bytes _ _ _ _ _ _ Hfr)| |].
  - intros b Hb Hbr Hout. rw Hmap // decide_False //. destruct Hr as [[_ ->]|(_ & _ & Hj)]; pglia.
  - destruct Hr as [[-> ->]|(-> & -> & _)]; [left|by right]. split; [done|]. intros i Hi Hu.
    rw (walkaddr_run s' root T'); [|apply Hinv'|pglia]. f_equal.
    assert ((va + PGSIZE * i) mod PGSIZE = 0) as Hm by by apply aligned_add.
    rw /uaddr (proj2 (Z.leb_gt _ _)); [|pglia]. rw Hmap //; [|pglia]. rw decide_True; [|pglia].
    replace (pa + (va + PGSIZE * i - va)) with (pa + PGSIZE * i) by lia.
    assert ((pa + PGSIZE * i) mod PGSIZE = 0) as Hpm by by apply aligned_add.
    rw /new_pte pte_valid pte_flag // ?Hu /=; [|pglia]. apply PTE2PA_pte; [done|pglia|done].
Qed.

(** Mapping pages and unmapping them again, without freeing, gives back
    the address space there was: every address translates as before. *)
Theorem map_unmap_roundtrip s root T l va k pa perm n :
  vm_inv s root T l -> va mod PGSIZE = 0 -> 0 <= va -> (0 < k)%nat ->
  va + PGSIZE * Z.of_nat k <= MAXVA ->
  pa mod PGSIZE = 0 -> 0 <= pa -> pa + PGSIZE * Z.of_nat k <= 2 ^ 56 -> 0 <= perm < 1024 ->
  Z.lor perm PTE_V <> PTE_V ->
  (forall j, 0 <= j < Z.of_nat k -> leaf (mem s) T (va + PGSIZE * j) = 0) ->
  (k < n)%nat ->
  wp (r ← mappages root va (PGSIZE * Z.of_nat k) pa perm;
      when (r =? 0) (uvmunmap root va (Z.of_nat k) false);; mret r) n s (fun r s' =>
    r = 0 -> exists T' l', vm_inv s' root T' l' /\
      forall b, b mod PGSIZE = 0 -> 0 <= b < MAXVA -> leaf (mem s') T' b = leaf (mem s) T b).
Proof.
  intros Hinv Hva Hva0 Hk Hmax Hpa Hpa0 Hpamax Hperm Hflg Hfree Hn. apply wp_bind.
  eapply wp_mono; [apply (mappages_wp s root T l va (Z.of_nat k) pa perm n); try done; try lia|].
  { intros j Hj. by rw Hfree. }
  intros r s1 (T1 & l1 & j & Hinv1 & Hfr & Hmap & [[-> ->]|(-> & _)]); [|by wsteps].
  assert (forall i, 0 <= i < Z.of_nat k ->
    leaf (mem s1) T1 (va + PGSIZE * i) = new_pte (pa + PGSIZE * i) perm) as Hlf.
  { intros i Hi. rw Hmap; [|by apply aligned_add|pglia]. rw decide_True; [|pglia]. f_equal. lia. }
  rw /=. apply wp_bind. eapply wp_mono; [apply (uvmunmap_wp s1 root T1 l1 va k false n); try done|].
  { intros i Hi. rw Hlf //. split; [apply pte_valid|].
    rw /new_pte PTE_FLAGS_pte //; [by apply aligned_add|pglia]. }
  intros _ s2 (Hinv2 & _ & Hun & _). apply wp_ret. intros _. exists T1, l1. split; [done|].
  intros b Hb Hbr. rw Hun // Hmap //. repeat case_decide; try done.
  assert (exists i, b = va + PGSIZE * i) as [i ->].
  { apply Z.mod_divide in Hb as [x ->]; [|done]. apply Z.mod_divide in Hva as [y ->]; [|done].
    exists (x - y). lia. }
  symmetry. apply Hfree. pglia.
Qed.

(** C22: [copyout] of [len] bytes to a user range whose pages are distinct and
    hold neither tables nor the source either copies every byte except the
    [lost] ones at the very end, or meets a page user code cannot access,
    answers -1 and has copied exactly the bytes before that page.  No other
    byte of memory changes, and it always terminates. *)
Theorem copyout_exact s root T u k len n :
  pt_inv (mem s) root T -> user_range (mem s) T u k len ->
  0 <= u < 2 ^ 64 -> 0 <= len -> (Z.to_nat len < n)%nat ->
  wp (copyout root u k len) n s (fun r s' =>
    s' = set_mem (mem s') s /\ copyout_post (mem s) T u k len r (mem s')).
Proof. apply copyout_wp. Qed.

(** [copyin], likewise, in the other direction. *)
Theorem copyin_exact s root T u k len n :
  pt_inv (mem s) root T -> user_range (mem s) T u k len -> kern_range T k len ->
  0 <= u < 2 ^ 64 -> 0 <= len -> (Z.to_nat len < n)%nat ->
  wp (copyin root k u len) n s (fun r s' =>
    s' = set_mem (mem s') s /\ copyin_post (mem s) T u k len r (mem s')).
Proof. apply copyin_wp. Qed.
(** Round trip.  Bytes copied out to user space and in again come back
    unchanged, when the user range ends on a word boundary or is not congruent
    to the kernel buffers modulo 8. *)
Theorem copyout_copyin_roundtrip s root T u k k' len n :
  pt_inv (mem s) root T -> user_range (mem s) T u k len -> user_range (mem s) T u k' len ->
  kern_range T k' len -> (k + len <= k' \/ k' + len <= k) ->
  (u + len) mod 8 = 0 \/ (k - u) mod 8 <> 0 /\ (k' - u) mod 8 <> 0 ->
  (forall va, u <= va < u + len -> upage (mem s) T va <> 0) ->
  0 <= u < 2 ^ 64 -> 0 <= len -> (Z.to_nat len < n)%nat ->
  wp (r ← copyout root u k len; r' ← copyin root k' u len; mret (r, r')) n s (fun rr s' =>
    rr = (0, 0) /\ forall i, 0 <= i < len ->
      ld8 (mem s') (k' + i) = ld8 (mem s) (k + i) /\ ld8 (mem s') (k + i) = ld8 (mem s) (k + i)).
Proof.
  intros Hpt Hur Hur' Hkr Hkk H8 Hmap Hu Hlen Hn. apply wp_bind.
  eapply wp_mono; [by apply (copyout_wp s root T u k len n)|].
  intros r s1 [Hs1 [(-> & _ & Hcp)|(_ & c & Hc & E & _)]]; [|by apply Hmap in E; [|lia]].
  rw lost_none in Hcp; [|tauto]. rw Z.sub_0_r in Hcp.
  destruct (copied_out_pt _ root _ _ _ _ _ _ Hpt Hur (Z.le_refl len) Hcp) as [Hpt1 Hup].
  assert (forall va, uphys (mem s1) T va = uphys (mem s) T va) as Huph by (intros va; by rw /uphys Hup).
  apply wp_bind. eapply wp_mono; [apply (copyin_wp s1 root T u k' len n); try done|].
  { eapply user_range_ext; [done|exact Hur|apply Hur']. }
  intros r s2 [Hs2 [(-> & _ & Hci)|(_ & c & Hc & E & _)]]; [|by rw Hup in E; apply Hmap in E; [|lia]].
  rw lost_none in Hci; [|tauto]. rw Z.sub_0_r in Hci.
  apply wp_ret. split; [done|]. intros i Hi. destruct Hcp as [Hin Hout].
  rw !Hci decide_True; [|lia]. rw decide_False; [|lia]. rw Huph. split.
  - replace (u + (k' + i - k')) with (u + i) by lia. rw Hin; [|lia]. f_equal. lia.
  - apply Hout. intros va Hva E.
    pose proof (ur_kern _ _ _ _ _ Hur va (k + i) Hva (Hmap va Hva) ltac:(lia)) as Ho.
    pose proof (uphys_in (mem s) T va). rw /off_page in Ho. lia.
Qed.

(** C24: the tail that is dropped.  A copy of at least one word within a page
    between word-aligned addresses reports success, yet the bytes after its
    last full word do not reach the user's memory. *)
Theorem copyout_drops_tail s root T u k len n :
  pt_inv (mem s) root T -> user_range (mem s) T u k len ->
  (forall va, u <= va < u + len -> upage (mem s) T va <> 0) ->
  u mod 8 = 0 -> k mod 8 = 0 -> 8 <= len -> u mod PGSIZE + len <= PGSIZE ->
  0 <= u < 2 ^ 64 -> (Z.to_nat len < n)%nat ->
  wp (copyout root u k len) n s (fun r s' =>
    r = 0 /\ forall va, u + 8 * (len / 8) <= va < u + len ->
      ld8 (mem s') (uphys (mem s) T va) = ld8 (mem s) (uphys (mem s) T va)).
Proof.
  intros Hpt Hur Hmap Hu8 Hk8 Hlen Hpg Hu Hn.
  eapply wp_mono; [apply (copyout_wp s root T u k len n); [done..|lia|done]|].
  intros r s1 [Hs1 [(-> & _ & Hcp)|(_ & c & Hc & E & _)]]; [|by apply Hmap in E; [|lia]].
  split; [done|]. rw lost_tail // in Hcp. destruct Hcp as [_ Hout]. intros va Hva.
  apply Hout. intros vb Hvb E. pose proof (Z.div_mod len 8 ltac:(done)).
  pose proof (Z.mod_pos_bound len 8 ltac:(done)).
  enough (vb = va) by lia. eapply (uphys_inj (mem s) T u k len); [done|lia|lia|apply Hmap; lia|done].
Qed.
End vm.

(** ** The theorems on a concrete memory *)

#[local] Existing Instance small_layout.
Abbreviation T0 := (list_to_map (demo_tables 0) : gmap (list Z) Z).

Lemma demo_free_lock : free_lock L_kmem demo.
Proof. split; [by apply lk_check_ok|done]. Qed.

Lemma kalloc_conserves_pages_witness :
  wp (client [KAlloc; KAlloc; KFree (pg 20); KAlloc] []) 5 demo (fun own' s' =>
    exists l', free_pages s' l' /\ own' ++ l' ≡ₚ demo_free).
Proof.
  apply (kalloc_conserves_pages [KAlloc; KAlloc; KFree (pg 20); KAlloc] demo [] demo_free 5).
  - apply demo_free_lock.
  - apply (demo_inv 0). by left.
  - apply (demo_inv 0). by left.
  - constructor.
Defined.





(** User addresses of the first page of process 0 reach page 6. *)
Lemma demo_upage va : 0 <= va < PGSIZE -> upage (mem demo) T0 va = pg 6.
Proof. intros Hva. rw /upage Z.mod_small // Z.sub_diag. by vm_compute. Qed.
Lemma demo_no_table k x p : T0 !! x = Some p -> k ∈ [6; 18; 19] -> pg k <> p.
Proof.
  intros Hx%elem_of_Tl Hk%list_elem_of_In. simpl in Hx, Hk.
  repeat destruct Hx as [[= <- <-]|Hx]; [..|done]; repeat destruct Hk as [<-|Hk]; done.
Qed.
Lemma demo_user_range k u len :
  k = 18 \/ k = 19 -> 0 <= u -> 0 <= len -> u + len <= PGSIZE -> user_range (mem demo) T0 u (pg k) len.
Proof.
  intros Hk Hu Hl Hle. split.
  - intros va x p Hva Hx. rw demo_upage; [|lia]. eapply demo_no_table; [done|]. left.
  - intros va a Hva _ Ha. rw demo_upage; [|lia]. rw /off_page /pg in Ha |- *. pglia.
  - intros va vb Hva Hvb _ _. rw !Z.mod_small; lia.
Qed.
Lemma demo_kern_range k len : k = 18 \/ k = 19 -> 0 <= len <= PGSIZE -> kern_range T0 (pg k) len.
Proof.
  intros Hk Hl x p a Hx Ha. pose proof (demo_inv 0 (or_introl eq_refl)) as [_ _ Hpt _].
  assert (pg k <> p) as Hne by (eapply demo_no_table; [done|]; destruct Hk as [-> | ->]; [right; left|right; right; left]).
  destruct (pages_disjoint p (pg k)) as [H|H]; [apply (pt_pages _ _ _ Hpt _ _ Hx)| |done|right; lia|left; lia].
  by destruct Hk as [-> | ->].
Qed.

Lemma copyout_exact_witness :
  wp (copyout (pg 0) 16 (pg 19) 12) 20 demo (fun r s' =>
    s' = set_mem (mem s') demo /\ copyout_post (mem demo) T0 16 (pg 19) 12 r (mem s')).
Proof.
  apply (copyout_exact demo (pg 0) T0 16 (pg 19) 12 20);
    [apply (demo_inv 0); by left|apply demo_user_range; (done || by right)|done|done|simpl; lia].
Defined.



Lemma copyout_drops_tail_witness :
  wp (copyout (pg 0) 16 (pg 19) 12) 20 demo (fun r s' =>
    r = 0 /\ forall va, 16 + 8 * (12 / 8) <= va < 16 + 12 ->
      ld8 (mem s') (uphys (mem demo) T0 va) = ld8 (mem demo) (uphys (mem demo) T0 va)).
Proof.
  apply (copyout_drops_tail demo (pg 0) T0 16 (pg 19) 12 20).
  - apply (demo_inv 0). by left.
  - apply demo_user_range; (done || by right).
  - intros va Hva. rw demo_upage; [by vm_compute|pglia].
  - reflexivity.
  - reflexivity.
  - done.
  - by vm_compute.
  - done.
  - simpl. lia.
Defined.
