(* ===== verification/Ringbuf.v ===== *)
(** * [kernel/ringbuf.c]

    The kernel side of FastIPC: a table of named ring buffers, each of sixteen
    physical pages that the processes using it see mapped twice in a row, so
    that a transfer may run over the end of the buffer, followed by a page for
    the book-keeping counters.

    An access to [ringbufs] outside its bounds is undefined behaviour in the
    model, as in C. *)

From S2P Require Import Prelude Mem KString Spinlock Machine Kalloc Printf Vm KState Proc.

Definition MAX_RINGBUFS : nat := 10.
Definition RINGBUF_SIZE : nat := 16.
Definition MAP_START : Z := MAXVA - 2 * PGSIZE - 10 * 34 * PGSIZE.
Definition SPACE_JUMP : Z := 34 * PGSIZE.
Definition MAXMAPLOC : Z := MAXVA - 36 * PGSIZE.

Section ringbuf.
Context {lay : Layout}.

Definition getrb {A} (i : Z) (f : ringbuf -> A) : K kstate A :=
  l ← gets ringbufs; r ← arr_get l i; mret (f r).
Definition setrb (i : Z) (f : ringbuf -> ringbuf) : K kstate unit :=
  l ← gets ringbufs;
  if arr_ok l i then modify (set_ringbufs (alter f (Z.to_nat i) l)) else undef.

(** A string routine that ran off its array. *)
Definition str {S A} (r : option A) : K S A := the r.

Definition set_pid (k : Z) (pid : Z) (r : ringbuf) : ringbuf :=
  set_rb_pidsRW (arr_set (rb_pidsRW r) k pid) r.
(** [safestrcpy(ringbufs[i].name, t, n)] *)
Definition name_cpy (i : Z) (t : list Z) (n : Z) : K kstate unit :=
  name ← getrb i rb_name;
  name ← str (safestrcpy name t n);
  setrb i (set_rb_name name).

(** ** Mapping a buffer into the calling process *)

Definition PTE_RB : Z := Z.lor PTE_U (Z.lor PTE_R (Z.lor PTE_W PTE_V)).

(** The search for a free window of the address space; [None]: -1. *)
Definition find_window (pagetable : Z) : K mstate (option Z) :=
  loop (fun start =>
    pa ← walkaddr pagetable start;
    if pa =? 0 then mret (inr (Some start)) else
    let start := start + SPACE_JUMP in
    if MAXMAPLOC <? start then mret (inr None) else mret (inl start)) MAP_START.

(** The [i]th of the 32 iterations of the mapping loop; [mem] is the last page
    allocated.  [inr] is the early return. *)
Definition map_iter (pagetable current_index start : Z) (newmap : bool) (mem i : Z)
    : K kstate (Z + Z) :=
  mem ← (if (i <? Z.of_nat RINGBUF_SIZE) && newmap then
           mem ← lift kalloc;
           setrb current_index (fun r => set_rb_bufPA (arr_set (rb_bufPA r) i mem) r);;
           mret mem
         else mret mem);
  bufPA ← getrb current_index rb_bufPA;
  pa ← arr_get bufPA (i mod Z.of_nat RINGBUF_SIZE);
  r ← lift (mappages pagetable (start + i * PGSIZE) PGSIZE pa PTE_RB);
  if r =? 0 then mret (inl mem) else
  for_each (rangeZ (Z.to_nat i)) (fun _ => lift (uvmunmap pagetable start 1 true));;
  when (i <? Z.of_nat RINGBUF_SIZE) (lift (kfree mem));;
  mret (inr (-1)).

Definition processSpace_mapper (current_index : Z) (newmap : bool) : K kstate Z :=
  p ← myproc; ip ← the p; pagetable ← getp ip p_pagetable;
  w ← lift (find_window pagetable);
  match w with
  | None => mret (-1)
  | Some start =>
    setrb current_index (set_rb_vabuf start);;
    r ← for_fold (rangeZ (RINGBUF_SIZE * 2)) (inl 0) (fun acc i =>
          match acc with
          | inr v => mret acc
          | inl mem => map_iter pagetable current_index start newmap mem i
          end);
    match r with
    | inr v => mret v
    | inl _ =>
      when newmap (b ← lift kalloc; setrb current_index (set_rb_book b));;
      book ← getrb current_index rb_book;
      r ← lift (mappages pagetable (start + 2 * Z.of_nat RINGBUF_SIZE * PGSIZE) PGSIZE book PTE_RB);
      if negb (r =? 0) then panic "map failed" else mret 0
    end
  end.

(** ** The system calls *)

(** [for(i = 0; i < MAX_RINGBUFS; i++) if(strcmp(straddr, ringbufs[i].name) == 0) ...]
    with the bound as an argument: [closebuf] runs it to [RINGBUF_SIZE]. *)
Definition find_name (bound : nat) (straddr : list Z) : K kstate (option Z) :=
  for_exit (rangeZ bound) (fun i =>
    name ← getrb i rb_name;
    c ← str (strcmp straddr name);
    mret (if c =? 0 then Some i else None)).

Definition find_free : K kstate (option Z) :=
  for_exit (rangeZ MAX_RINGBUFS) (fun i =>
    c ← getrb i rb_refcount; mret (if c =? 0 then Some i else None)).

(** The branch [current_index > 0]: join the buffer; [None] is [return -1]. *)
Definition join_buf (ip : nat) (opdesc current_index : Z) : K kstate (option Z) :=
  pid ← getp ip p_pid;
  pids ← getrb current_index rb_pidsRW;
  owner ← arr_get pids opdesc;
  refcount ← getrb current_index rb_refcount;
  if negb (owner =? 0) || (refcount <? 0) then release L_ringbuf;; mret None else
  setrb current_index (set_pid opdesc pid);;
  setrb current_index (fun r => set_rb_refcount (i32 (rb_refcount r + 1)) r);;
  e ← processSpace_mapper current_index false;
  if negb (e =? 0) then
    setrb current_index (set_pid opdesc 0);;
    setrb current_index (fun r => set_rb_refcount (i32 (rb_refcount r - 1)) r);;
    release L_ringbuf;; mret None
  else mret (Some current_index).

(** The other branch: a new buffer in the first unused entry. *)
Definition new_buf (ip : nat) (straddr : list Z) (opdesc current_index : Z) : K kstate (option Z) :=
  f ← find_free;
  let current_index := default current_index f in
  setrb current_index (fun r => set_rb_refcount (i32 (rb_refcount r + 1)) r);;
  setrb current_index (set_pid (1 - opdesc) 0);;
  pid ← getp ip p_pid;
  setrb current_index (set_pid opdesc pid);;
  name_cpy current_index straddr 8;;                (* sizeof(straddr) *)
  e ← processSpace_mapper current_index true;
  if negb (e =? 0) then
    name_cpy current_index [0] 4;;                  (* sizeof(0) *)
    setrb current_index (set_pid opdesc 0);;
    release L_ringbuf;; mret None
  else mret (Some current_index).

(** The end: the window's address for the caller. *)
Definition hand_out (ip : nat) (retvaddr current_index exists_ : Z) : K kstate Z :=
  vabuf ← getrb current_index rb_vabuf;
  pagetable ← getp ip p_pagetable;
  lift (poke_m (kobj O_vabuf) (le_bytes 8 vabuf));;
  lift (copyout pagetable retvaddr (kobj O_vabuf) 8);;
  acquire (L_proc ip);;
  setp ip (set_p_validRingBuf 1);;
  release (L_proc ip);;
  release L_ringbuf;;
  mret exists_.

Definition createbuf (straddr : list Z) (opdesc retvaddr : Z) : K kstate Z :=
  if (opdesc <? 0) || (1 <? opdesc) then mret (-1) else
  acquire L_ringbuf;;
  p ← myproc; ip ← the p;
  r ← find_name MAX_RINGBUFS straddr;
  let current_index := default (-1) r in
  let exists_ := if r is Some _ then 0 else 1 in
  res ← (if 0 <? current_index then join_buf ip opdesc current_index
         else new_buf ip straddr opdesc current_index);
  match res with
  | None => mret (-1)
  | Some current_index => hand_out ip retvaddr current_index exists_
  end.

(** Unmap the 33 pages from [d] on. *)
Definition unmap_window (pagetable d : Z) (unmapphypage : bool) : K mstate unit :=
  for_each (rangeZ RINGBUF_SIZE) (fun i =>
    uvmunmap pagetable (d + i * PGSIZE) 1 unmapphypage);;
  for_each (rangeZ RINGBUF_SIZE) (fun i =>
    uvmunmap pagetable (d + (Z.of_nat RINGBUF_SIZE + i) * PGSIZE) 1 false);;
  uvmunmap pagetable (d + 2 * Z.of_nat RINGBUF_SIZE * PGSIZE) 1 unmapphypage.

Definition closebuf (straddr : list Z) (opdesc : Z) : K kstate Z :=
  lift (printf ("Here" +:+ nl) []);;
  p ← myproc; ip ← the p;
  acquire L_ringbuf;;
  r ← find_name RINGBUF_SIZE straddr;
  let current_index := default 0 r in
  let i := default (Z.of_nat RINGBUF_SIZE) r in
  if current_index =? -1 then
    lift (printf ("Already Unmapped or not present in RingBuf" +:+ nl) []);;
    release L_ringbuf;; mret (-1)
  else
  d ← getrb current_index rb_vabuf;
  setrb i (fun r => set_rb_refcount (i32 (rb_refcount r - 1)) r);;
  refcount ← getrb i rb_refcount;
  let unmapphypage := negb (1 <=? refcount) in
  when unmapphypage (setrb current_index (fun r =>
    Ringbuf 0 (arr_set (rb_name r) 0 0) (arr_set (arr_set (rb_pidsRW r) 0 0) 1 0)
      (rb_bufPA r) 0 0));;
  pagetable ← getp ip p_pagetable;
  lift (unmap_window pagetable d unmapphypage);;
  pid ← getp ip p_pid;
  l ← gets ringbufs;
  let pidringvalid := existsb (fun r => existsb (Z.eqb pid) (take 2 (rb_pidsRW r))) (take MAX_RINGBUFS l) in
  acquire (L_proc ip);;
  setp ip (set_p_validRingBuf (if pidringvalid then 1 else 0));;
  release (L_proc ip);;
  release L_ringbuf;;
  mret 0.

(** Close every buffer the process still has open. *)
Definition ringbufCleanup : K kstate Z :=
  p ← myproc; ip ← the p;
  acquire L_ringbuf;;
  for_each (rangeZ MAX_RINGBUFS) (fun i =>
    for_each [0; 1] (fun k =>
      pids ← getrb i rb_pidsRW;
      owner ← arr_get pids k;
      pid ← getp ip p_pid;
      when (owner =? pid)
        (name ← getrb i rb_name;
         release L_ringbuf;;
         closebuf name k;;
         acquire L_ringbuf)));;
  release L_ringbuf;;
  mret 0.

End ringbuf.
