(* ===== verification/FsFmt.v ===== *)
(** * On-disk format ([kernel/fs.h]) and little-endian data in blocks

    A disk block is the list of its [BSIZE] bytes.  [ldb] and [splice] are the
    accesses the C code makes by casting [bp->data] to a structure. *)

From S2P Require Import Prelude Mem KString Spinlock Machine KState.

(** ** Integers in byte lists *)

Fixpoint le_val (bs : list Z) : Z :=
  match bs with [] => 0 | b :: bs' => b + 256 * le_val bs' end.
(** The [w]-byte unsigned integer at offset [off]. *)
Definition ldb (w : nat) (bs : list Z) (off : Z) : Z := le_val (take w (drop (Z.to_nat off) bs)).
(** [vs] written at offset [off]. *)
Definition splice (bs : list Z) (off : Z) (vs : list Z) : list Z :=
  take (Z.to_nat off) bs ++ vs ++ drop (Z.to_nat off + length vs) bs.
Definition stb (w : nat) (bs : list Z) (off v : Z) : list Z := splice bs off (le_bytes w v).

(** ** Constants *)

Definition ROOTINO : Z := 1.
Definition BSIZE : Z := 1024.
Definition FSMAGIC : Z := 0x10203040.
Definition NDIRECT : Z := 12.
Definition NINDIRECT : Z := BSIZE / 4.
Definition MAXFILE : Z := NDIRECT + NINDIRECT.
Definition DIRSIZ : Z := 14.
Definition BPB : Z := BSIZE * 8.
(** [sizeof(struct dinode)] *)
Definition DINODE : Z := 64.
Definition IPB : Z := BSIZE / DINODE.
(** [sizeof(struct dirent)] *)
Definition DIRENT : Z := 16.

(** Block numbers are [uint]s. *)
Definition IBLOCK (i : Z) (sb : superblock) : Z := u32 (i / IPB + sb_inodestart sb).
Definition BBLOCK (b : Z) (sb : superblock) : Z := u32 (b / BPB + sb_bmapstart sb).

(** stat.h *)
Definition T_DIR : Z := 1.
Definition T_FILE : Z := 2.
Definition T_DEVICE : Z := 3.

(** ** Structures *)

Record dinode := Dinode {
  di_type : Z;
  di_major : Z;
  di_minor : Z;
  di_nlink : Z;
  di_size : Z;
  di_addrs : list Z;   (* NDIRECT + 1 block numbers *)
}.

(** [(struct dinode* )bp->data + k], read and written. *)
Definition get_dinode (bs : list Z) (k : Z) : dinode :=
  let o := DINODE * k in
  Dinode (i16 (ldb 2 bs o)) (i16 (ldb 2 bs (o + 2))) (i16 (ldb 2 bs (o + 4))) (i16 (ldb 2 bs (o + 6)))
    (ldb 4 bs (o + 8)) ((fun j => ldb 4 bs (o + 12 + 4 * j)) <$> rangeZ 13).
Definition dinode_bytes (d : dinode) : list Z :=
  le_bytes 2 (di_type d) ++ le_bytes 2 (di_major d) ++ le_bytes 2 (di_minor d) ++
  le_bytes 2 (di_nlink d) ++ le_bytes 4 (di_size d) ++ (di_addrs d ≫= le_bytes 4).
Definition put_dinode (bs : list Z) (k : Z) (d : dinode) : list Z := splice bs (DINODE * k) (dinode_bytes d).

(** [struct dirent] *)
Record dirent := Dirent {
  de_inum : Z;
  de_name : list Z;
}.
Definition get_dirent (bs : list Z) : dirent := Dirent (ldb 2 bs 0) (take 14 (drop 2 bs)).
Definition dirent_bytes (d : dirent) : list Z := le_bytes 2 (de_inum d) ++ de_name d.

Definition get_superblock (bs : list Z) : superblock :=
  Superblock (ldb 4 bs 0) (ldb 4 bs 4) (ldb 4 bs 8) (ldb 4 bs 12)
    (ldb 4 bs 16) (ldb 4 bs 20) (ldb 4 bs 24) (ldb 4 bs 28).
Definition superblock_bytes (s : superblock) : list Z :=
  [sb_magic s; sb_size s; sb_nblocks s; sb_ninodes s; sb_nlog s; sb_logstart s; sb_inodestart s; sb_bmapstart s]
    ≫= le_bytes 4.
