(* ===== verification/FsFmtSpec.v ===== *)
(** * Data in blocks: what is written is read back *)

From S2P Require Import Prelude Mem KString Spinlock Machine KState FsFmt.

(** ** Little-endian integers *)

Lemma length_le_bytes w v : length (le_bytes w v) = w.
Proof. revert v. induction w as [|w IH]; intros v; simpl; [done|]. by rw IH. Qed.
Lemma le_val_bytes w v : le_val (le_bytes w v) = v mod 256 ^ Z.of_nat w.
Proof.
  revert v. induction w as [|w IH]; intros v; simpl le_val; [by rw Z.mod_1_r|].
  rw IH Nat2Z.inj_succ Z.pow_succ_r; [|lia]. rw /u8. change (2 ^ 8) with 256.
  rw Z.rem_mul_r //. apply Z.pow_pos_nonneg; lia.
Qed.
Lemma le_val_range bs : Forall (fun b => 0 <= b < 256) bs -> 0 <= le_val bs < 256 ^ Z.of_nat (length bs).
Proof.
  induction 1 as [|b bs Hb _ IH]; [done|]. simpl le_val. simpl length.
  rw Nat2Z.inj_succ Z.pow_succ_r; lia.
Qed.

(** ** Splicing *)

Section splice.
Implicit Types (bs vs : list Z).

Definition fits bs (off : Z) (n : nat) : Prop := 0 <= off /\ off + Z.of_nat n <= Z.of_nat (length bs).

Lemma length_splice bs off vs : fits bs off (length vs) -> length (splice bs off vs) = length bs.
Proof. intros [H0 H1]. rw /splice !length_app length_take length_drop. lia. Qed.

Lemma lookup_splice bs off vs i : fits bs off (length vs) ->
  splice bs off vs !! i =
    if decide (Z.to_nat off <= i < Z.to_nat off + length vs)%nat then vs !! (i - Z.to_nat off)%nat else bs !! i.
Proof.
  intros [H0 H1]. rw /splice. set (o := Z.to_nat off).
  assert (length (take o bs) = o) as Ho by (rw length_take; lia).
  case_decide as E.
  - rw lookup_app_r; [|lia]. rw Ho lookup_app_l //. lia.
  - destruct (decide (i < o)%nat).
    + rw lookup_app_l; [|lia]. by rw lookup_take decide_True.
    + rw lookup_app_r; [|lia]. rw lookup_app_r; [|lia]. rw Ho lookup_drop. f_equal. lia.
Qed.

(** A load depends on the bytes it covers. *)
Lemma ldb_ext w bs bs' off :
  (forall i, (Z.to_nat off <= i < Z.to_nat off + w)%nat -> bs !! i = bs' !! i) -> ldb w bs off = ldb w bs' off.
Proof.
  intros He. rw /ldb. f_equal. apply list_eq. intros i. rw !lookup_take !lookup_drop.
  case_decide; [|done]. apply He. lia.
Qed.
Lemma take_drop_splice bs off vs : fits bs off (length vs) ->
  take (length vs) (drop (Z.to_nat off) (splice bs off vs)) = vs.
Proof.
  intros Hf. apply list_eq. intros i. rw lookup_take lookup_drop lookup_splice //.
  destruct (decide (i < length vs)%nat).
  - rw decide_True; [|lia]. f_equal. lia.
  - symmetry. apply lookup_ge_None_2. lia.
Qed.

Lemma ldb_stb w bs off v : fits bs off w -> ldb w (stb w bs off v) off = v mod 256 ^ Z.of_nat w.
Proof.
  intros Hf. rw /stb /ldb. pose proof (take_drop_splice bs off (le_bytes w v)) as H.
  rw length_le_bytes in H. rw H // le_val_bytes //.
Qed.
Lemma ldb_stb_ne w w' bs off off' v : fits bs off w -> 0 <= off' ->
  off' + Z.of_nat w' <= off \/ off + Z.of_nat w <= off' -> ldb w' (stb w bs off v) off' = ldb w' bs off'.
Proof.
  intros Hf H0 Hd. pose proof Hf as [? _]. apply ldb_ext. intros i Hi.
  rw /stb lookup_splice ?length_le_bytes // decide_False //. lia.
Qed.
Lemma length_stb w bs off v : fits bs off w -> length (stb w bs off v) = length bs.
Proof. intros Hf. by rw /stb length_splice ?length_le_bytes. Qed.

(** Bytes inside what was spliced in. *)
Lemma ldb_splice_in w bs off vs k : fits bs off (length vs) -> 0 <= k -> k + Z.of_nat w <= Z.of_nat (length vs) ->
  ldb w (splice bs off vs) (off + k) = ldb w vs k.
Proof.
  intros Hf Hk Hw. pose proof Hf as [H0 _]. rw /ldb. f_equal. apply list_eq. intros i. rw !lookup_take !lookup_drop.
  case_decide; [|done]. rw lookup_splice // decide_True; [|lia]. f_equal. lia.
Qed.
Lemma ldb_app_l w bs bs' k : 0 <= k -> k + Z.of_nat w <= Z.of_nat (length bs) -> ldb w (bs ++ bs') k = ldb w bs k.
Proof. intros Hk Hw. apply ldb_ext. intros i Hi. apply lookup_app_l. lia. Qed.
Lemma ldb_app_r w bs bs' k : Z.of_nat (length bs) <= k -> ldb w (bs ++ bs') k = ldb w bs' (k - Z.of_nat (length bs)).
Proof.
  intros Hk. rw /ldb. f_equal. apply list_eq. intros i. rw !lookup_take !lookup_drop.
  case_decide; [|done]. rw lookup_app_r; [|lia]. f_equal. lia.
Qed.
Lemma ldb_le_bytes w v : ldb w (le_bytes w v) 0 = v mod 256 ^ Z.of_nat w.
Proof. rw /ldb /= take_ge; [by rw le_val_bytes|by rw length_le_bytes]. Qed.

End splice.

(** ** Inodes in blocks *)

Definition dinode_ok (d : dinode) : Prop :=
  - 2 ^ 15 <= di_type d < 2 ^ 15 /\ - 2 ^ 15 <= di_major d < 2 ^ 15 /\ - 2 ^ 15 <= di_minor d < 2 ^ 15 /\
  - 2 ^ 15 <= di_nlink d < 2 ^ 15 /\ 0 <= di_size d < 2 ^ 32 /\ length (di_addrs d) = 13%nat /\ Forall (fun a => 0 <= a < 2 ^ 32) (di_addrs d).

Lemma length_words l : length (l ≫= le_bytes 4) = (4 * length l)%nat.
Proof. induction l as [|a l IH]; [done|]. rw bind_cons length_app length_le_bytes IH /=. lia. Qed.
Lemma ldb_words l j a : Forall (fun a => 0 <= a < 2 ^ 32) l -> l !! j = Some a -> ldb 4 (l ≫= le_bytes 4) (4 * Z.of_nat j) = a.
Proof.
  intros Hl. revert j. induction Hl as [|x l Hx Hl IH]; intros j Hj; [done|]. rw bind_cons. destruct j as [|j].
  - injection Hj as ->. rw ldb_app_l ?length_le_bytes; [|lia..]. rw ldb_le_bytes. by apply Z.mod_small.
  - rw ldb_app_r ?length_le_bytes; [|lia]. rw -(IH j Hj). f_equal. lia.
Qed.
Lemma i16_of z : - 2 ^ 15 <= z < 2 ^ 15 -> i16 (z mod 2 ^ 16) = z.
Proof.
  intros Hz. rw /i16 /u16 Z.mod_mod //. destruct (Z.ltb_spec (z mod 2 ^ 16) (2 ^ 15)) as [H|H].
  - destruct (Z.ltb_spec z 0) as [Hn|Hp]; [|apply Z.mod_small; lia].
    assert (z mod 2 ^ 16 = z + 2 ^ 16) as E by (symmetry; apply (Z.mod_unique_pos _ _ (-1)); lia). lia.
  - destruct (Z.ltb_spec z 0) as [Hn|Hp]; [|rw Z.mod_small in H; lia].
    assert (z mod 2 ^ 16 = z + 2 ^ 16) as -> by (symmetry; apply (Z.mod_unique_pos _ _ (-1)); lia). lia.
Qed.
Lemma length_dinode d : length (di_addrs d) = 13%nat -> length (dinode_bytes d) = 64%nat.
Proof. intros H. rw /dinode_bytes !length_app !length_le_bytes length_words H. done. Qed.

(** The fields of an inode in its bytes. *)
Lemma dinode_fields d : dinode_ok d -> let bs := dinode_bytes d in
  i16 (ldb 2 bs 0) = di_type d /\ i16 (ldb 2 bs 2) = di_major d /\ i16 (ldb 2 bs 4) = di_minor d /\ i16 (ldb 2 bs 6) = di_nlink d /\
  ldb 4 bs 8 = di_size d /\ forall j a, di_addrs d !! j = Some a -> ldb 4 bs (12 + 4 * Z.of_nat j) = a.
Proof.
  intros (Ht & Hmaj & Hmin & Hn & Hs & Hl & Ha). cbn zeta. rw /dinode_bytes. split_and!.
  - rw ldb_app_l ?length_le_bytes; [|lia..]. rw ldb_le_bytes. by apply i16_of.
  - rw ldb_app_r ?length_le_bytes; [|lia]. rw ldb_app_l ?length_le_bytes; [|lia..]. rw ldb_le_bytes. by apply i16_of.
  - do 2 (rw ldb_app_r ?length_le_bytes; [|lia]). rw ldb_app_l ?length_le_bytes; [|lia..]. rw ldb_le_bytes. by apply i16_of.
  - do 3 (rw ldb_app_r ?length_le_bytes; [|lia]). rw ldb_app_l ?length_le_bytes; [|lia..]. rw ldb_le_bytes. by apply i16_of.
  - do 4 (rw ldb_app_r ?length_le_bytes; [|lia]). rw ldb_app_l ?length_le_bytes; [|lia..]. rw ldb_le_bytes. by apply Z.mod_small.
  - intros j a Hj. do 5 (rw ldb_app_r ?length_le_bytes; [|lia]). rw -(ldb_words (di_addrs d) j a Ha Hj). f_equal. lia.
Qed.
Lemma get_put_dinode bs k d : length bs = 1024%nat -> 0 <= k < 16 -> dinode_ok d -> get_dinode (put_dinode bs k d) k = d.
Proof.
  intros Hbs Hk Hd. pose proof Hd as (_ & _ & _ & _ & _ & Hl & _). pose proof (length_dinode d Hl) as Hb.
  assert (forall w o, 0 <= o -> o + Z.of_nat w <= 64 -> ldb w (put_dinode bs k d) (DINODE * k + o) = ldb w (dinode_bytes d) o) as Hget.
  { intros w o Ho Hw. rw /put_dinode. apply ldb_splice_in; [split; rw ?Hb ?Hbs /DINODE; lia|lia|rw Hb; lia]. }
  destruct (dinode_fields d Hd) as (H1 & H2 & H3 & H4 & H5 & H6). rw /get_dinode.
  rw -{1}(Z.add_0_r (DINODE * k)) !Hget; [|lia..]. rw H1 H2 H3 H4 H5. destruct d as [ty maj mn nl sz ad]. cbn [di_type di_major di_minor di_nlink di_size di_addrs] in *.
  f_equal. apply list_eq. intros j. rw list_lookup_fmap. destruct (ad !! j) as [a|] eqn:Ej.
  - apply lookup_lt_Some in Ej as Hj. rw rangeZ_lookup; [|lia]. cbn. f_equal. rw -Z.add_assoc Hget; [|lia..]. by apply H6.
  - rw lookup_ge_None_2 //. rw length_rangeZ. apply lookup_ge_None_1 in Ej. lia.
Qed.
Lemma get_put_dinode_ne bs k k' d : length bs = 1024%nat -> 0 <= k < 16 -> 0 <= k' < 16 -> k <> k' -> length (di_addrs d) = 13%nat ->
  get_dinode (put_dinode bs k d) k' = get_dinode bs k'.
Proof.
  intros Hbs Hk Hk' Hne Hl. pose proof (length_dinode d Hl) as Hb.
  assert (forall w o, 0 <= o -> o + Z.of_nat w <= 64 -> ldb w (put_dinode bs k d) (DINODE * k' + o) = ldb w bs (DINODE * k' + o)) as Hget.
  { intros w o Ho Hw. apply ldb_ext. intros i Hi. rw /put_dinode lookup_splice; [|split; rw ?Hb ?Hbs /DINODE; lia].
    rw decide_False //. rw Hb. rw /DINODE in Hi |- *. lia. }
  pose proof (Hget 2%nat 0 ltac:(lia) ltac:(lia)) as H0. rw Z.add_0_r in H0. rw /get_dinode H0 !Hget; [|lia..]. f_equal.
  apply list_fmap_ext. intros i x Hx. apply lookup_lt_Some in Hx as Hi. rw rangeZ_lookup in Hx; [|rw length_rangeZ in Hi; lia]. injection Hx as <-.
  rw length_rangeZ in Hi. rw -Z.add_assoc Hget; lia.
Qed.
