(* ===== verification/Hw.v ===== *)
(** * Registers ([kernel/riscv.h], [kernel/memlayout.h], [kernel/plic.c])

    Control and status registers are a table by name; the [SIE] bit of
    [sstatus] is the interrupt flag of the lock state.  Stores to device
    registers are recorded in order; the value of a load from one is up to the
    device, so the state carries the answers to come ([0] when none is left).
    The kernel's set-up of the interrupt controller is here too. *)

From S2P Require Import Prelude Mem KString Spinlock Machine KState.

(** ** Control and status registers *)

Definition SSTATUS_SPP : Z := Z.shiftl 1 8.
Definition SSTATUS_SPIE : Z := Z.shiftl 1 5.
Definition SSTATUS_SIE : Z := Z.shiftl 1 1.
Definition SATP_SV39 : Z := Z.shiftl 8 60.
Definition MAKE_SATP (pagetable : Z) : Z := Z.lor SATP_SV39 (Z.shiftr pagetable 12).

Definition r_csr (r : string) : K kstate Z := gets (fun s => default 0 (csr s !! r)).
Definition w_csr (r : string) (v : Z) : K kstate unit :=
  modify (fun s => set_csr (<[r := u64 v]> (csr s)) s).

Definition r_sstatus : K kstate Z :=
  v ← r_csr "sstatus";
  on ← lift (S := lstate) intr_get;
  mret (if on : bool then Z.lor v SSTATUS_SIE else Z.land v (Z.lnot SSTATUS_SIE)).
Definition w_sstatus (x : Z) : K kstate unit :=
  w_csr "sstatus" x;;
  lift (modify (set_sie (Z.testbit x 1))).

(** ** Device registers *)

Definition mmio_write (a v : Z) : K kstate unit :=
  modify (fun s => set_mmio_out ((a, v) :: mmio_out s) s).
Definition mmio_read (a : Z) : K kstate Z :=
  q ← gets (fun s => default [] (mmio_in s !! a));
  match q with
  | [] => mret 0
  | v :: q' => modify (fun s => set_mmio_in (<[a := q']> (mmio_in s)) s);; mret v
  end.

(** ** The interrupt controller *)

Definition UART0_IRQ : Z := 10.
Definition VIRTIO0_IRQ : Z := 1.
Definition PLIC_SENABLE (hart : Z) : Z := PLIC + 0x2080 + hart * 0x100.
Definition PLIC_SPRIORITY (hart : Z) : Z := PLIC + 0x201000 + hart * 0x2000.
Definition PLIC_SCLAIM (hart : Z) : Z := PLIC + 0x201004 + hart * 0x2000.

Definition hartid : K kstate Z := gets (fun s => Z.of_nat (hart (lk (mach s)))).

Definition plicinit : K kstate unit :=
  mmio_write (PLIC + UART0_IRQ * 4) 1;;
  mmio_write (PLIC + VIRTIO0_IRQ * 4) 1.
Definition plicinithart : K kstate unit :=
  h ← hartid;
  mmio_write (PLIC_SENABLE h) (Z.lor (Z.shiftl 1 UART0_IRQ) (Z.shiftl 1 VIRTIO0_IRQ));;
  mmio_write (PLIC_SPRIORITY h) 0.
Definition plic_claim : K kstate Z :=
  h ← hartid;
  irq ← mmio_read (PLIC_SCLAIM h);
  mret (i32 irq).
Definition plic_complete (irq : Z) : K kstate unit :=
  h ← hartid;
  mmio_write (PLIC_SCLAIM h) (u32 irq).
