(* ===== verification/Virtio.v ===== *)
(** * [kernel/virtio_disk.c]

    The driver of the virtio disk.  The descriptor table, the two rings and
    the driver's own tables are the record [vdisk].  Addresses handed to the
    device ([desc[i].addr]) are those of static objects: the request header
    [ops[i]], the data of a buffer, the status byte of [info[i]].

    The device itself is not part of the kernel: between the notification and
    the interrupt it may do anything to the disk, the buffer and the used
    ring; [virtio_disk_rw] waits for the interrupt in [sleep]. *)

From S2P Require Import Prelude Mem KString Spinlock Machine Kalloc Vm KState Proc Hw FsFmt.

Definition NUM : nat := 8.
Definition VRING_DESC_F_NEXT : Z := 1.
Definition VRING_DESC_F_WRITE : Z := 2.
Definition VIRTIO_BLK_T_IN : Z := 0.
Definition VIRTIO_BLK_T_OUT : Z := 1.

(** virtio.h *)
Definition VIRTIO_MMIO_MAGIC_VALUE : Z := 0x000.
Definition VIRTIO_MMIO_VERSION : Z := 0x004.
Definition VIRTIO_MMIO_DEVICE_ID : Z := 0x008.
Definition VIRTIO_MMIO_VENDOR_ID : Z := 0x00c.
Definition VIRTIO_MMIO_DEVICE_FEATURES : Z := 0x010.
Definition VIRTIO_MMIO_DRIVER_FEATURES : Z := 0x020.
Definition VIRTIO_MMIO_GUEST_PAGE_SIZE : Z := 0x028.
Definition VIRTIO_MMIO_QUEUE_SEL : Z := 0x030.
Definition VIRTIO_MMIO_QUEUE_NUM_MAX : Z := 0x034.
Definition VIRTIO_MMIO_QUEUE_NUM : Z := 0x038.
Definition VIRTIO_MMIO_QUEUE_PFN : Z := 0x040.
Definition VIRTIO_MMIO_QUEUE_NOTIFY : Z := 0x050.
Definition VIRTIO_MMIO_INTERRUPT_STATUS : Z := 0x060.
Definition VIRTIO_MMIO_INTERRUPT_ACK : Z := 0x064.
Definition VIRTIO_MMIO_STATUS : Z := 0x070.
(** Feature bits the driver does not accept. *)
Definition refused_features : list Z := [5; 7; 11; 12; 27; 29; 28].

Section virtio.
Context {lay : Layout}.

Definition getvd {A} (f : vdisk -> A) : K kstate A := gets (fun s => f (vdisk_st s)).
Definition setvd (f : vdisk -> vdisk) : K kstate unit :=
  modify (fun s => set_vdisk_st (f (vdisk_st s)) s).

(** [*R(r) = v] and [*R(r)] *)
Definition wR (r v : Z) : K kstate unit := mmio_write (VIRTIO0 + r) (u32 v).
Definition rR (r : Z) : K kstate Z := v ← mmio_read (VIRTIO0 + r); mret (u32 v).

(** [memset(disk.pages, 0, sizeof(disk.pages))]: the descriptors and rings. *)
Definition zero_pages (d : vdisk) : vdisk :=
  set_vd_desc (replicate NUM (Vdesc 0 0 0 0)) (set_vd_avail_idx 0 (set_vd_avail_ring (replicate NUM 0)
    (set_vd_used_ix 0 (set_vd_used_ring (replicate NUM 0) d)))).

Definition virtio_disk_init : K kstate unit :=
  magic ← rR VIRTIO_MMIO_MAGIC_VALUE;
  if negb (magic =? 0x74726976) then panic "could not find virtio disk" else
  version ← rR VIRTIO_MMIO_VERSION;
  if negb (version =? 1) then panic "could not find virtio disk" else
  id ← rR VIRTIO_MMIO_DEVICE_ID;
  if negb (id =? 2) then panic "could not find virtio disk" else
  vendor ← rR VIRTIO_MMIO_VENDOR_ID;
  if negb (vendor =? 0x554d4551) then panic "could not find virtio disk" else
  wR VIRTIO_MMIO_STATUS 1;;
  wR VIRTIO_MMIO_STATUS (Z.lor 1 2);;
  features ← rR VIRTIO_MMIO_DEVICE_FEATURES;
  wR VIRTIO_MMIO_DRIVER_FEATURES
    (fold_left (fun f b => Z.land f (Z.lnot (Z.shiftl 1 b))) refused_features features);;
  wR VIRTIO_MMIO_STATUS (Z.lor 3 8);;
  wR VIRTIO_MMIO_STATUS (Z.lor 11 4);;
  wR VIRTIO_MMIO_GUEST_PAGE_SIZE PGSIZE;;
  wR VIRTIO_MMIO_QUEUE_SEL 0;;
  max ← rR VIRTIO_MMIO_QUEUE_NUM_MAX;
  if max =? 0 then panic "virtio disk has no queue 0" else
  if max <? Z.of_nat NUM then panic "virtio disk max queue too short" else
  wR VIRTIO_MMIO_QUEUE_NUM (Z.of_nat NUM);;
  setvd zero_pages;;
  wR VIRTIO_MMIO_QUEUE_PFN (Z.shiftr (kobj O_disk_pages) PGSHIFT);;
  for_each (seq 0 NUM) (fun i => setvd (fun d => set_vd_free (<[i := true]> (vd_free d)) d)).

(** ** Descriptors *)

Definition alloc_desc : K kstate Z :=
  r ← for_exit (rangeZ NUM) (fun i =>
    fr ← getvd vd_free; b ← arr_get fr i;
    if b : bool then setvd (fun d => set_vd_free (arr_set (vd_free d) i false) d);; mret (Some i)
    else mret None);
  mret (default (-1) r).

Definition set_desc (i : Z) (x : vdesc) : K kstate unit :=
  setvd (fun d => set_vd_desc (arr_set (vd_desc d) i x) d).

Definition free_desc (i : Z) : K kstate unit :=
  if Z.of_nat NUM <=? i then panic "free_desc 1" else
  fr ← getvd vd_free; b ← arr_get fr i;
  if b : bool then panic "free_desc 2" else
  set_desc i (Vdesc 0 0 0 0);;
  setvd (fun d => set_vd_free (arr_set (vd_free d) i true) d);;
  wakeup Ch_disk_free.

Definition free_chain (i : Z) : K kstate unit :=
  loop (fun i =>
    ds ← getvd vd_desc; d ← arr_get ds i;
    free_desc i;;
    if negb (Z.land (vd_flags d) VRING_DESC_F_NEXT =? 0) then mret (inl (vd_next d)) else mret (inr tt)) i.

(** Three descriptors, or [None] with none taken. *)
Definition alloc3_desc : K kstate (option (Z * Z * Z)) :=
  i0 ← alloc_desc;
  if i0 <? 0 then mret None else
  i1 ← alloc_desc;
  if i1 <? 0 then free_desc i0;; mret None else
  i2 ← alloc_desc;
  if i2 <? 0 then free_desc i0;; free_desc i1;; mret None else
  mret (Some (i0, i1, i2)).

(** ** Requests *)

(** Addresses of the objects a request consists of; [sizeof(struct buf)] is 1112. *)
Definition ops_addr (i : Z) : Z := kobj O_disk_ops + 16 * i.
Definition status_addr (i : Z) : Z := kobj O_disk_info + 16 * i + 8.
Definition data_addr (b : nat) : Z := kobj O_bcache + 1112 * Z.of_nat b.

(** The three descriptors, the header, the status byte and [info] of a request. *)
Definition format_request (b : nat) (write : bool) (sector i0 i1 i2 : Z) : K kstate unit :=
  setvd (fun d => set_vd_ops (arr_set (vd_ops d) i0
    (Vreq (if write then VIRTIO_BLK_T_OUT else VIRTIO_BLK_T_IN) 0 sector)) d);;
  set_desc i0 (Vdesc (ops_addr i0) 16 VRING_DESC_F_NEXT i1);;
  set_desc i1 (Vdesc (data_addr b) BSIZE
    (Z.lor (if write then 0 else VRING_DESC_F_WRITE) VRING_DESC_F_NEXT) i2);;
  setvd (fun d => set_vd_info_status (arr_set (vd_info_status d) i0 0xff) d);;
  set_desc i2 (Vdesc (status_addr i0) 1 VRING_DESC_F_WRITE 0);;
  setb b (set_b_disk true);;
  setvd (fun d => set_vd_info_b (arr_set (vd_info_b d) i0 (Some b)) d).

(** [disk.avail->ring[disk.avail->idx % NUM] = idx[0]; disk.avail->idx += 1;] *)
Definition push_avail (i : Z) (d : vdisk) : vdisk :=
  set_vd_avail_idx (u16 (vd_avail_idx d + 1))
    (set_vd_avail_ring (arr_set (vd_avail_ring d) (vd_avail_idx d mod Z.of_nat NUM) (u16 i)) d).

Definition virtio_disk_rw (b : nat) (write : bool) : K kstate unit :=
  blockno ← getb b b_blockno;
  let sector := u32 (blockno * (BSIZE / 512)) in
  acquire L_vdisk;;
  '(i0, i1, i2) ← loop (fun _ : unit =>
    r ← alloc3_desc;
    match r with
    | Some idx => mret (inr idx)
    | None => sleep Ch_disk_free L_vdisk;; mret (inl tt)
    end) tt;
  format_request b write sector i0 i1 i2;;
  setvd (push_avail i0);;
  wR VIRTIO_MMIO_QUEUE_NOTIFY 0;;
  loop (fun _ : unit =>
    busy ← getb b b_disk;
    if busy : bool then sleep (Ch_buf b) L_vdisk;; mret (inl tt) else mret (inr tt)) tt;;
  setvd (fun d => set_vd_info_b (arr_set (vd_info_b d) i0 None) d);;
  free_chain i0;;
  release L_vdisk.

Definition virtio_disk_intr : K kstate unit :=
  acquire L_vdisk;;
  st ← rR VIRTIO_MMIO_INTERRUPT_STATUS;
  wR VIRTIO_MMIO_INTERRUPT_ACK (Z.land st 3);;
  loop (fun _ : unit =>
    seen ← getvd vd_used_idx; ix ← getvd vd_used_ix;
    if seen =? ix then mret (inr tt) else
    ring ← getvd vd_used_ring;
    id ← arr_get ring (seen mod Z.of_nat NUM);
    sts ← getvd vd_info_status; status ← arr_get sts id;
    if negb (status =? 0) then panic "virtio_disk_intr status" else
    bs ← getvd vd_info_b; ob ← arr_get bs id; b ← the ob;
    setb b (set_b_disk false);;
    wakeup (Ch_buf b);;
    setvd (fun d => set_vd_used_idx (u16 (seen + 1)) d);;
    mret (inl tt)) tt;;
  release L_vdisk.

End virtio.
