(* ===== verification/Console.v ===== *)
(** * [kernel/uart.c] and [kernel/console.c]

    The transmit buffer of the UART, and the console's input line with its
    editing characters.  [out] of the machine state is what was stored in
    [THR]; the receiver's characters and the answers of [LSR_TX_IDLE] are
    given by the state. *)

From Stdlib Require Import Ascii.
From S2P Require Import Prelude Mem KString Spinlock Machine Kalloc Printf Vm KState Proc Hw.

Definition UART_TX_BUF_SIZE : Z := 32.
Definition INPUT_BUF : Z := 128.
(** [C(x)]: control-x *)
Definition Ctl (c : Ascii.ascii) : Z := chr c - 64.
Arguments Ctl _%_char_scope.

Section console.
Context {lay : Layout}.

Definition getu {A} (f : uart -> A) : K kstate A := gets (fun s => f (uart_st s)).
Definition setu (f : uart -> uart) : K kstate unit := modify (fun s => set_uart_st (f (uart_st s)) s).
Definition getc {A} (f : console -> A) : K kstate A := gets (fun s => f (cons s)).
Definition setc (f : console -> console) : K kstate unit := modify (fun s => set_cons (f (cons s)) s).

(** ** UART *)

(** [WriteReg(r, v)] *)
Definition WriteReg (r v : Z) : K kstate unit := mmio_write (UART0 + r) v.

Definition uartinit : K kstate unit :=
  WriteReg 1 0x00;;
  WriteReg 3 (Z.shiftl 1 7);;
  WriteReg 0 0x03;;
  WriteReg 1 0x00;;
  WriteReg 3 (Z.shiftl 3 0);;
  WriteReg 2 (Z.lor (Z.shiftl 1 0) (Z.shiftl 3 1));;
  WriteReg 1 (Z.lor (Z.shiftl 1 1) (Z.shiftl 1 0)).

(** [ReadReg(LSR) & LSR_TX_IDLE] *)
Definition tx_idle : K kstate bool :=
  l ← getu uart_idle;
  match l with
  | [] => mret true
  | b :: l' => setu (set_uart_idle l');; mret b
  end.

Definition uartstart : K kstate unit :=
  loop (fun _ : unit =>
    w ← getu uart_tx_w; r ← getu uart_tx_r;
    if w =? r then mret (inr tt) else
    idle ← tx_idle;
    if negb idle then mret (inr tt) else
    buf ← getu uart_tx_buf;
    c ← arr_get buf (r mod UART_TX_BUF_SIZE);
    setu (set_uart_tx_r (u64 (r + 1)));;
    wakeup Ch_uart_tx_r;;
    lift (modify (fun m => set_out (out m ++ [c]) m));;
    mret (inl tt)) tt.

Definition uartputc (c : Z) : K kstate unit :=
  acquire L_uart;;
  loop (fun _ : unit =>
    w ← getu uart_tx_w; r ← getu uart_tx_r;
    if w =? u64 (r + UART_TX_BUF_SIZE) then sleep Ch_uart_tx_r L_uart;; mret (inl tt) else
    setu (fun u => set_uart_tx_buf (arr_set (uart_tx_buf u) (w mod UART_TX_BUF_SIZE) (u8 c)) u);;
    setu (set_uart_tx_w (u64 (w + 1)));;
    uartstart;;
    release L_uart;;
    mret (inr tt)) tt.

Definition uartgetc : K kstate Z :=
  q ← getu uart_in;
  match q with
  | [] => mret (-1)
  | c :: q' => setu (set_uart_in q');; mret c
  end.

(** ** Console *)

Abbreviation CBUF := (kobj O_c).

Definition consolewrite (user_src : bool) (src n : Z) : K kstate Z :=
  loop (fun i =>
    if negb (i <? n) then mret (inr i) else
    e ← either_copyin CBUF user_src (u64 (src + i)) 1;
    if e =? -1 then mret (inr i) else
    c ← gets (fun s => ld8 (mem (mach s)) CBUF);
    uartputc c;;
    mret (inl (i + 1))) 0.

(** Wait for input; [false]: killed. *)
Definition cons_wait : K kstate bool :=
  loop (fun _ : unit =>
    r ← getc cons_r; w ← getc cons_w;
    if negb (r =? w) then mret (inr true) else
    p ← myproc; i ← the p;
    killed ← getp i p_killed;
    if negb (killed =? 0) then release L_cons;; mret (inr false) else
    sleep Ch_cons_r L_cons;; mret (inl tt)) tt.

(** [None]: killed; otherwise the remaining count. *)
Definition consoleread (user_dst : bool) (dst n : Z) : K kstate Z :=
  let target := u32 n in
  acquire L_cons;;
  r ← loop (fun '(dst, n) =>
    if negb (0 <? n) then mret (inr (Some n)) else
    ok ← cons_wait;
    if negb ok then mret (inr None) else
    r ← getc cons_r; buf ← getc cons_buf;
    c ← arr_get buf (r mod INPUT_BUF);
    setc (set_cons_r (u32 (r + 1)));;
    if c =? Ctl "D" then
      when (u32 n <? target) (setc (set_cons_r r));; mret (inr (Some n))
    else
    lift (poke_m (kobj O_cbuf) [c]);;
    e ← either_copyout user_dst dst (kobj O_cbuf) 1;
    if e =? -1 then mret (inr (Some n)) else
    if c =? 10 then mret (inr (Some (n - 1)))
    else mret (inl (u64 (dst + 1), n - 1))) (dst, n);
  match r with
  | None => mret (-1)
  | Some n => release L_cons;; mret (i32 (target - n))
  end.

(** [case C('U')]: kill line. *)
Definition kill_line : K kstate unit :=
  loop (fun _ : unit =>
    e ← getc cons_e; w ← getc cons_w;
    if e =? w then mret (inr tt) else
    buf ← getc cons_buf;
    c ← arr_get buf (u32 (e - 1) mod INPUT_BUF);
    if c =? 10 then mret (inr tt) else
    setc (set_cons_e (u32 (e - 1)));;
    lift (consputc BACKSPACE);;
    mret (inl tt)) tt.

Definition consoleintr (c : Z) : K kstate unit :=
  acquire L_cons;;
  (if c =? Ctl "P" then procdump
   else if c =? Ctl "U" then kill_line
   else if (c =? Ctl "H") || (c =? 0x7f) then
     e ← getc cons_e; w ← getc cons_w;
     when (negb (e =? w)) (setc (set_cons_e (u32 (e - 1)));; lift (consputc BACKSPACE))
   else
     e ← getc cons_e; r ← getc cons_r;
     when (negb (c =? 0) && (u32 (e - r) <? INPUT_BUF))
       (let c := if c =? 13 then 10 else c in
        lift (consputc c);;
        setc (fun x => set_cons_buf (arr_set (cons_buf x) (e mod INPUT_BUF) (u8 c)) x);;
        setc (set_cons_e (u32 (e + 1)));;
        e ← getc cons_e;
        when ((c =? 10) || (c =? Ctl "D") || (e =? u32 (r + INPUT_BUF)))
          (setc (set_cons_w e);; wakeup Ch_cons_r)));;
  release L_cons.

Definition uartintr : K kstate unit :=
  loop (fun _ : unit =>
    c ← uartgetc;
    if c =? -1 then mret (inr tt) else consoleintr c;; mret (inl tt)) tt;;
  acquire L_uart;;
  uartstart;;
  release L_uart.

(** The device table after [consoleinit]: only [devsw[CONSOLE]] is set. *)
Definition CONSOLE : Z := 1.
Definition consoleinit : K kstate unit := uartinit.
Definition devsw_read (major : Z) : option (bool -> Z -> Z -> K kstate Z) :=
  if major =? CONSOLE then Some consoleread else None.
Definition devsw_write (major : Z) : option (bool -> Z -> Z -> K kstate Z) :=
  if major =? CONSOLE then Some consolewrite else None.

End console.
