(* ===== verification/Sleeplock.v ===== *)
(** * [kernel/sleeplock.c]

    Sleep locks: held across disk operations, with the waiting processes
    asleep.  The spin lock inside a sleep lock is [L_buf] or [L_inode]. *)

From S2P Require Import Prelude Mem KString Spinlock Machine Kalloc Vm KState Proc.

Section sleeplock.
Context {lay : Layout}.

(** [lk->lk] *)
Definition sl_lk (l : sleeplockid) : lockid :=
  match l with SL_buf i => L_buf i | SL_inode i => L_inode i end.

Definition getsl {A} (l : sleeplockid) (f : sleeplock -> A) : K kstate A :=
  match l with
  | SL_buf i => getb i (fun b => f (b_lock b))
  | SL_inode i => geti i (fun ip => f (i_lock ip))
  end.
Definition setsl (l : sleeplockid) (f : sleeplock -> sleeplock) : K kstate unit :=
  match l with
  | SL_buf i => setb i (fun b => set_b_lock (f (b_lock b)) b)
  | SL_inode i => seti i (fun ip => set_i_lock (f (i_lock ip)) ip)
  end.

Definition initsleeplock (l : sleeplockid) : K kstate unit :=
  setsl l (set_sl_locked false);;
  setsl l (set_sl_pid 0).

Definition acquiresleep (l : sleeplockid) : K kstate unit :=
  acquire (sl_lk l);;
  loop (fun _ : unit =>
    b ← getsl l sl_locked;
    if b : bool then sleep (Ch_sleeplock l) (sl_lk l);; mret (inl tt) else mret (inr tt)) tt;;
  setsl l (set_sl_locked true);;
  p ← myproc; i ← the p;
  pid ← getp i p_pid;
  setsl l (set_sl_pid pid);;
  release (sl_lk l).

Definition releasesleep (l : sleeplockid) : K kstate unit :=
  acquire (sl_lk l);;
  setsl l (set_sl_locked false);;
  setsl l (set_sl_pid 0);;
  wakeup (Ch_sleeplock l);;
  release (sl_lk l).

(** [lk->locked && (lk->pid == myproc()->pid)]: the second test only when the
    lock is taken. *)
Definition holdingsleep (l : sleeplockid) : K kstate bool :=
  acquire (sl_lk l);;
  b ← getsl l sl_locked;
  r ← (if b : bool then
         pid ← getsl l sl_pid;
         p ← myproc; i ← the p;
         me ← getp i p_pid;
         mret (pid =? me)
       else mret false);
  release (sl_lk l);;
  mret r.

End sleeplock.
