(* ===== verification/Bio.v ===== *)
(** * [kernel/bio.c]

    The buffer cache: [NBUF] buffers on a doubly linked list ordered by how
    recently they were used, entry [NBUF] of the table being the list head.
    The disk is reached through the operation of the class [DiskDriver]. *)

From S2P Require Import Prelude Mem KString Spinlock Machine Kalloc Vm KState Proc Sleeplock FsFmt.

(** What the cache needs of a driver: [virtio_disk_rw(b, write)]. *)
Class DiskDriver := disk_rw : nat -> bool -> K kstate unit.
#[global] Arguments disk_rw : simpl never.

(** [&bcache.head] *)
Definition bhead : nat := NBUF.

Section bio.
Context {lay : Layout} {drv : DiskDriver}.

Definition binit : K kstate unit :=
  setb bhead (set_b_prev bhead);;
  setb bhead (set_b_next bhead);;
  for_each (seq 0 NBUF) (fun b =>
    nx ← getb bhead b_next;
    setb b (set_b_next nx);;
    setb b (set_b_prev bhead);;
    initsleeplock (SL_buf b);;
    nx ← getb bhead b_next;
    setb nx (set_b_prev b);;
    setb bhead (set_b_next b)).

(** The first scan: is the block cached? *)
Definition bget_cached (dev blockno : Z) : K kstate (option nat) :=
  b0 ← getb bhead b_next;
  loop (fun b =>
    if decide (b = bhead) then mret (inr None) else
    d ← getb b b_dev; n ← getb b b_blockno;
    if (d =? dev) && (n =? blockno) then mret (inr (Some b)) else
    nx ← getb b b_next; mret (inl nx)) b0.

(** The second scan: the least recently used buffer nobody refers to. *)
Definition bget_lru : K kstate (option nat) :=
  b0 ← getb bhead b_prev;
  loop (fun b =>
    if decide (b = bhead) then mret (inr None) else
    r ← getb b b_refcnt;
    if r =? 0 then mret (inr (Some b)) else
    pv ← getb b b_prev; mret (inl pv)) b0.

Definition bget (dev blockno : Z) : K kstate nat :=
  acquire L_bcache;;
  c ← bget_cached dev blockno;
  match c with
  | Some b =>
    setb b (fun x => set_b_refcnt (u32 (b_refcnt x + 1)) x);;
    release L_bcache;;
    acquiresleep (SL_buf b);;
    mret b
  | None =>
    c ← bget_lru;
    match c with
    | Some b =>
      setb b (set_b_dev dev);;
      setb b (set_b_blockno blockno);;
      setb b (set_b_valid false);;
      setb b (set_b_refcnt 1);;
      release L_bcache;;
      acquiresleep (SL_buf b);;
      mret b
    | None => panic "bget: no buffers"
    end
  end.

Definition bread (dev blockno : Z) : K kstate nat :=
  b ← bget dev blockno;
  v ← getb b b_valid;
  when (negb v) (disk_rw b false;; setb b (set_b_valid true));;
  mret b.

Definition bwrite (b : nat) : K kstate unit :=
  h ← holdingsleep (SL_buf b);
  if negb h then panic "bwrite" else disk_rw b true.

(** Unlink [b] and put it behind the head. *)
Definition move_to_front (b : nat) : K kstate unit :=
  nx ← getb b b_next; pv ← getb b b_prev;
  setb nx (set_b_prev pv);;
  setb pv (set_b_next nx);;
  h ← getb bhead b_next;
  setb b (set_b_next h);;
  setb b (set_b_prev bhead);;
  h ← getb bhead b_next;
  setb h (set_b_prev b);;
  setb bhead (set_b_next b).

Definition brelse (b : nat) : K kstate unit :=
  h ← holdingsleep (SL_buf b);
  if negb h then panic "brelse" else
  releasesleep (SL_buf b);;
  acquire L_bcache;;
  setb b (fun x => set_b_refcnt (u32 (b_refcnt x - 1)) x);;
  r ← getb b b_refcnt;
  when (r =? 0) (move_to_front b);;
  release L_bcache.

Definition bpin (b : nat) : K kstate unit :=
  acquire L_bcache;;
  setb b (fun x => set_b_refcnt (u32 (b_refcnt x + 1)) x);;
  release L_bcache.
Definition bunpin (b : nat) : K kstate unit :=
  acquire L_bcache;;
  setb b (fun x => set_b_refcnt (u32 (b_refcnt x - 1)) x);;
  release L_bcache.

End bio.
