(* ===== verification/Log.v ===== *)
(** * [kernel/log.c]

    The write-ahead log.  A transaction collects the blocks its operations
    modify; [commit] copies them to the log, writes the header (the commit
    point), copies them home and clears the header. *)

From S2P Require Import Prelude Mem KString Spinlock Machine Kalloc Vm KState Proc Sleeplock FsFmt Bio.

Section log.
Context {lay : Layout} {drv : DiskDriver}.

Definition getlog {A} (f : logst -> A) : K kstate A := gets (fun s => f (log s)).
Definition setlog (f : logst -> logst) : K kstate unit := modify (fun s => set_log (f (log s)) s).

(** [log.lh.n], [log.lh.block] *)
Definition log_n (l : logst) : Z := lh_n (log_lh l).
Definition log_block (l : logst) : list Z := lh_block (log_lh l).
Definition set_log_n (x : Z) (l : logst) : logst := set_log_lh (set_lh_n x (log_lh l)) l.
Definition set_log_block (x : list Z) (l : logst) : logst := set_log_lh (set_lh_block x (log_lh l)) l.

(** [log.lh.block[i] = x]: undefined outside the array. *)
Definition set_block (i x : Z) : K kstate unit :=
  l ← getlog log_block;
  if arr_ok l i then setlog (set_log_block (arr_set l i x)) else undef.

(** [for (tail = 0; tail < log.lh.n; tail++)] *)
Definition for_log (body : Z -> K kstate unit) : K kstate unit :=
  loop (fun tail =>
    n ← getlog log_n;
    if tail <? n then body tail;; mret (inl (tail + 1)) else mret (inr tt)) 0.

Definition install_trans (recovering : bool) : K kstate unit :=
  for_log (fun tail =>
    dev ← getlog log_dev; start ← getlog log_start;
    lbuf ← bread (u32 dev) (u32 (start + tail + 1));
    blocks ← getlog log_block;
    home ← arr_get blocks tail;
    dbuf ← bread (u32 dev) (u32 home);
    d ← getb lbuf b_data;
    setb dbuf (set_b_data d);;
    bwrite dbuf;;
    when (negb recovering) (bunpin dbuf);;
    brelse lbuf;;
    brelse dbuf).

Definition read_head : K kstate unit :=
  dev ← getlog log_dev; start ← getlog log_start;
  buf ← bread (u32 dev) (u32 start);
  d ← getb buf b_data;
  setlog (set_log_n (i32 (ldb 4 d 0)));;
  for_log (fun i => d ← getb buf b_data; set_block i (i32 (ldb 4 d (4 + 4 * i))));;
  brelse buf.

Definition write_head : K kstate unit :=
  dev ← getlog log_dev; start ← getlog log_start;
  buf ← bread (u32 dev) (u32 start);
  n ← getlog log_n;
  setb buf (fun b => set_b_data (stb 4 (b_data b) 0 n) b);;
  for_log (fun i =>
    blocks ← getlog log_block;
    x ← arr_get blocks i;
    setb buf (fun b => set_b_data (stb 4 (b_data b) (4 + 4 * i) x) b));;
  bwrite buf;;
  brelse buf.

Definition recover_from_log : K kstate unit :=
  read_head;;
  install_trans true;;
  setlog (set_log_n 0);;
  write_head.

(** [sizeof(struct logheader)] is 124, below [BSIZE]. *)
Definition initlog (dev : Z) (sb : superblock) : K kstate unit :=
  if BSIZE <=? 4 + 4 * LOGSIZE then panic "initlog: too big logheader" else
  setlog (set_log_start (i32 (sb_logstart sb)));;
  setlog (set_log_size (i32 (sb_nlog sb)));;
  setlog (set_log_dev dev);;
  recover_from_log.

Definition begin_op : K kstate unit :=
  acquire L_log;;
  loop (fun _ : unit =>
    c ← getlog log_committing;
    n ← getlog log_n; o ← getlog log_outstanding;
    if c : bool then sleep Ch_log L_log;; mret (inl tt)
    else if LOGSIZE <? n + (o + 1) * MAXOPBLOCKS then sleep Ch_log L_log;; mret (inl tt)
    else
      setlog (set_log_outstanding (i32 (o + 1)));;
      release L_log;;
      mret (inr tt)) tt.

Definition write_log : K kstate unit :=
  for_log (fun tail =>
    dev ← getlog log_dev; start ← getlog log_start;
    to ← bread (u32 dev) (u32 (start + tail + 1));
    blocks ← getlog log_block;
    home ← arr_get blocks tail;
    from ← bread (u32 dev) (u32 home);
    d ← getb from b_data;
    setb to (set_b_data d);;
    bwrite to;;
    brelse from;;
    brelse to).

Definition commit : K kstate unit :=
  n ← getlog log_n;
  when (0 <? n)
    (write_log;;
     write_head;;
     install_trans false;;
     setlog (set_log_n 0);;
     write_head).

Definition end_op : K kstate unit :=
  acquire L_log;;
  o ← getlog log_outstanding;
  setlog (set_log_outstanding (i32 (o - 1)));;
  c ← getlog log_committing;
  if c : bool then panic "log.committing" else
  o ← getlog log_outstanding;
  (if o =? 0 then setlog (set_log_committing true) else wakeup Ch_log);;
  release L_log;;
  when (o =? 0)
    (commit;;
     acquire L_log;;
     setlog (set_log_committing false);;
     wakeup Ch_log;;
     release L_log).

(** The search for [blockno] among the logged blocks: its index, or [log.lh.n]. *)
Definition log_find (blockno : Z) : K kstate Z :=
  loop (fun i =>
    n ← getlog log_n;
    if negb (i <? n) then mret (inr i) else
    blocks ← getlog log_block;
    x ← arr_get blocks i;
    if u32 x =? blockno then mret (inr i) else mret (inl (i + 1))) 0.

Definition log_write (b : nat) : K kstate unit :=
  acquire L_log;;
  n ← getlog log_n; size ← getlog log_size; o ← getlog log_outstanding;
  if (LOGSIZE <=? n) || (size - 1 <=? n) then panic "too big a transaction" else
  if o <? 1 then panic "log_write outside of trans" else
  blockno ← getb b b_blockno;
  i ← log_find blockno;
  set_block i (i32 blockno);;
  n ← getlog log_n;
  when (i =? n) (bpin b;; setlog (set_log_n (i32 (n + 1))));;
  release L_log.

End log.
