(* ===== verification/Fs.v ===== *)
(** * [kernel/fs.c]

    Block allocation, inodes, directories and path names, on top of the log.
    An [struct inode *] is the index of an entry of [icache]; a [char *] is the
    list of the characters from the pointer to the end of its array.

    [bp->data] is handed to the copy routines by address: its bytes are placed
    at the kernel object ["bp->data"] for the call, and read back when the call
    writes them. *)

From S2P Require Import Prelude Mem KString Spinlock Machine Kalloc Vm KState Proc Sleeplock FsFmt Bio Log.

Section fs.
Context {lay : Layout} {drv : DiskDriver}.

(** [bp->data] *)
Definition getdata (b : nat) : K kstate (list Z) := getb b b_data.
Definition setdata (b : nat) (f : list Z -> list Z) : K kstate unit :=
  setb b (fun x => set_b_data (f (b_data x)) x).

(** ** Blocks *)

Definition readsb (dev : Z) : K kstate unit :=
  bp ← bread dev 1;
  d ← getdata bp;
  modify (set_sb (get_superblock d));;
  brelse bp.

Definition fsinit (dev : Z) : K kstate unit :=
  readsb (u32 dev);;
  s ← gets sb;
  if negb (sb_magic s =? FSMAGIC) then panic "invalid file system" else
  initlog dev s.

Definition bzero (dev bno : Z) : K kstate unit :=
  bp ← bread dev bno;
  setdata bp (fun _ => replicate (Z.to_nat BSIZE) 0);;
  log_write bp;;
  brelse bp.

(** [bp->data[bi/8] & m] with [m = 1 << (bi % 8)] *)
Definition bit_mask (bi : Z) : Z := Z.shiftl 1 (bi mod 8).
Definition bit_set (d : list Z) (bi : Z) : bool :=
  negb (Z.land (ldb 1 d (bi / 8)) (bit_mask bi) =? 0).
Definition bit_on (bi : Z) (d : list Z) : list Z :=
  stb 1 d (bi / 8) (Z.lor (ldb 1 d (bi / 8)) (bit_mask bi)).
Definition bit_off (bi : Z) (d : list Z) : list Z :=
  stb 1 d (bi / 8) (Z.land (ldb 1 d (bi / 8)) (Z.lnot (bit_mask bi))).

(** The inner loop of [balloc] over one block of the bitmap. *)
Definition balloc_scan (bp : nat) (b size : Z) : K kstate (option Z) :=
  loop (fun bi =>
    if negb ((bi <? BPB) && (u32 (b + bi) <? size)) then mret (inr None) else
    d ← getdata bp;
    if negb (bit_set d bi) then mret (inr (Some bi)) else mret (inl (bi + 1))) 0.

Definition balloc (dev : Z) : K kstate Z :=
  loop (fun b =>
    s ← gets sb;
    if negb (u32 b <? sb_size s) then panic "balloc: out of blocks" else
    bp ← bread dev (BBLOCK b s);
    r ← balloc_scan bp b (sb_size s);
    match r with
    | Some bi =>
      setdata bp (bit_on bi);;
      log_write bp;;
      brelse bp;;
      bzero dev (u32 (b + bi));;
      mret (inr (u32 (b + bi)))
    | None => brelse bp;; mret (inl (b + BPB))
    end) 0.

Definition bfree (dev b : Z) : K kstate unit :=
  s ← gets sb;
  bp ← bread dev (BBLOCK b s);
  let bi := b mod BPB in
  d ← getdata bp;
  if negb (bit_set d bi) then panic "freeing free block" else
  setdata bp (bit_off bi);;
  log_write bp;;
  brelse bp.

(** ** Inodes *)

Definition iinit : K kstate unit :=
  for_each (seq 0 NINODE) (fun i => initsleeplock (SL_inode i)).

Definition iget (dev inum : Z) : K kstate nat :=
  acquire L_icache;;
  r ← for_fold (seq 0 NINODE) (inl None) (fun acc i =>
    match acc with
    | inr _ => mret acc
    | inl empty =>
      ref ← geti i i_ref; d ← geti i i_dev; n ← geti i i_inum;
      if (0 <? ref) && (d =? dev) && (n =? inum) then
        seti i (set_i_ref (i32 (ref + 1)));;
        release L_icache;;
        mret (inr i)
      else mret (inl (match empty with None => if ref =? 0 then Some i else None | e => e end))
    end);
  match r with
  | inr i => mret i
  | inl None => panic "iget: no inodes"
  | inl (Some i) =>
    seti i (set_i_dev dev);;
    seti i (set_i_inum inum);;
    seti i (set_i_ref 1);;
    seti i (set_i_valid false);;
    release L_icache;;
    mret i
  end.

Definition ialloc (dev type : Z) : K kstate nat :=
  loop (fun inum =>
    s ← gets sb;
    if negb (u32 inum <? sb_ninodes s) then panic "ialloc: no inodes" else
    bp ← bread dev (IBLOCK inum s);
    d ← getdata bp;
    if di_type (get_dinode d (inum mod IPB)) =? 0 then
      setdata bp (fun d => put_dinode d (inum mod IPB) (Dinode type 0 0 0 0 (replicate 13 0)));;
      log_write bp;;
      brelse bp;;
      ip ← iget dev inum;
      mret (inr ip)
    else brelse bp;; mret (inl (inum + 1))) 1.

(** [dip->type = ip->type; ... memmove(dip->addrs, ip->addrs, ...)] *)
Definition to_dinode (ip : inode) : dinode :=
  Dinode (i_type ip) (i_major ip) (i_minor ip) (i_nlink ip) (i_size ip) (i_addrs ip).
Definition of_dinode (d : dinode) (ip : inode) : inode :=
  set_i_type (di_type d) (set_i_major (di_major d) (set_i_minor (di_minor d)
    (set_i_nlink (di_nlink d) (set_i_size (di_size d) (set_i_addrs (di_addrs d) ip))))).

Definition iupdate (ip : nat) : K kstate unit :=
  s ← gets sb;
  dev ← geti ip i_dev; inum ← geti ip i_inum;
  bp ← bread dev (IBLOCK inum s);
  di ← geti ip to_dinode;
  setdata bp (fun d => put_dinode d (inum mod IPB) di);;
  log_write bp;;
  brelse bp.

Definition idup (ip : nat) : K kstate nat :=
  acquire L_icache;;
  seti ip (fun x => set_i_ref (i32 (i_ref x + 1)) x);;
  release L_icache;;
  mret ip.

Definition ilock (ip : option nat) : K kstate unit :=
  match ip with
  | None => panic "ilock"
  | Some ip =>
    ref ← geti ip i_ref;
    if ref <? 1 then panic "ilock" else
    acquiresleep (SL_inode ip);;
    v ← geti ip i_valid;
    if v : bool then mret tt else
    s ← gets sb;
    dev ← geti ip i_dev; inum ← geti ip i_inum;
    bp ← bread dev (IBLOCK inum s);
    d ← getdata bp;
    seti ip (of_dinode (get_dinode d (inum mod IPB)));;
    brelse bp;;
    seti ip (set_i_valid true);;
    t ← geti ip i_type;
    if t =? 0 then panic "ilock: no type" else mret tt
  end.

Definition iunlock (ip : option nat) : K kstate unit :=
  match ip with
  | None => panic "iunlock"
  | Some ip =>
    h ← holdingsleep (SL_inode ip);
    if negb h then panic "iunlock" else
    ref ← geti ip i_ref;
    if ref <? 1 then panic "iunlock" else
    releasesleep (SL_inode ip)
  end.

(** [itrunc], the direct blocks and the blocks of the indirect block. *)
Definition addr_at (ip : nat) (k : Z) : K kstate Z := a ← geti ip i_addrs; arr_get a k.
Definition set_addr (ip : nat) (k v : Z) : K kstate unit :=
  seti ip (fun x => set_i_addrs (arr_set (i_addrs x) k v) x).

Definition itrunc (ip : nat) : K kstate unit :=
  for_each (rangeZ (Z.to_nat NDIRECT)) (fun i =>
    a ← addr_at ip i;
    when (negb (a =? 0)) (dev ← geti ip i_dev; bfree dev a;; set_addr ip i 0));;
  a ← addr_at ip NDIRECT;
  when (negb (a =? 0))
    (dev ← geti ip i_dev;
     bp ← bread dev a;
     for_each (rangeZ (Z.to_nat NINDIRECT)) (fun j =>
       d ← getdata bp;
       when (negb (ldb 4 d (4 * j) =? 0)) (bfree dev (ldb 4 d (4 * j))));;
     brelse bp;;
     bfree dev a;;
     set_addr ip NDIRECT 0);;
  seti ip (set_i_size 0);;
  iupdate ip.

Definition iput (ip : nat) : K kstate unit :=
  acquire L_icache;;
  ref ← geti ip i_ref; valid ← geti ip i_valid; nlink ← geti ip i_nlink;
  when ((ref =? 1) && valid && (nlink =? 0))
    (acquiresleep (SL_inode ip);;
     release L_icache;;
     itrunc ip;;
     seti ip (set_i_type 0);;
     iupdate ip;;
     seti ip (set_i_valid false);;
     releasesleep (SL_inode ip);;
     acquire L_icache);;
  seti ip (fun x => set_i_ref (i32 (i_ref x - 1)) x);;
  release L_icache.

Definition iunlockput (ip : nat) : K kstate unit := iunlock (Some ip);; iput ip.

(** ** Contents *)

Definition bmap (ip : nat) (bn : Z) : K kstate Z :=
  if bn <? NDIRECT then
    addr ← addr_at ip bn;
    if addr =? 0 then
      dev ← geti ip i_dev; addr ← balloc dev; set_addr ip bn addr;; mret addr
    else mret addr
  else
  let bn := bn - NDIRECT in
  if bn <? NINDIRECT then
    dev ← geti ip i_dev;
    addr ← addr_at ip NDIRECT;
    addr ← (if addr =? 0 then addr ← balloc dev; set_addr ip NDIRECT addr;; mret addr
            else mret addr);
    bp ← bread dev addr;
    d ← getdata bp;
    addr ← (if ldb 4 d (4 * bn) =? 0 then
              addr ← balloc dev;
              setdata bp (fun d => stb 4 d (4 * bn) addr);;
              log_write bp;;
              mret addr
            else mret (ldb 4 d (4 * bn)));
    brelse bp;;
    mret addr
  else panic "bmap: out of range".

(** [st] are the bytes of a [struct stat]; the padding before [size] keeps what
    it held. *)
Definition stati (ip : nat) (st : list Z) : K kstate (list Z) :=
  geti ip (fun x =>
    stb 8 (stb 2 (stb 2 (stb 4 (stb 4 st 0 (i_dev x)) 4 (i_inum x)) 8 (i_type x)) 10 (i_nlink x))
      16 (i_size x)).

Abbreviation DATA := (kobj O_data).

(** The result is an [int]: [tot = -1] is [-1]. *)
Definition readi (ip : nat) (user_dst : bool) (dst off n : Z) : K kstate Z :=
  size ← geti ip i_size;
  if (size <? off) || (u32 (off + n) <? off) then mret 0 else
  let n := if size <? u32 (off + n) then u32 (size - off) else n in
  loop (fun '(tot, off, dst) =>
    if negb (tot <? n) then mret (inr (i32 tot)) else
    dev ← geti ip i_dev;
    blk ← bmap ip (off / BSIZE);
    bp ← bread dev blk;
    let m := Z.min (u32 (n - tot)) (BSIZE - off mod BSIZE) in
    d ← getdata bp;
    lift (poke_m DATA d);;
    e ← either_copyout user_dst dst (DATA + off mod BSIZE) m;
    if e =? -1 then brelse bp;; mret (inr (-1)) else
    brelse bp;;
    mret (inl (u32 (tot + m), u32 (off + m), u64 (dst + m)))) (0, off, dst).

Definition writei (ip : nat) (user_src : bool) (src off n : Z) : K kstate Z :=
  size ← geti ip i_size;
  if (size <? off) || (u32 (off + n) <? off) then mret (-1) else
  if MAXFILE * BSIZE <? u32 (off + n) then mret (-1) else
  '(tot, off) ← loop (fun '(tot, off, src) =>
    if negb (tot <? n) then mret (inr (tot, off)) else
    dev ← geti ip i_dev;
    blk ← bmap ip (off / BSIZE);
    bp ← bread dev blk;
    let m := Z.min (u32 (n - tot)) (BSIZE - off mod BSIZE) in
    d ← getdata bp;
    lift (poke_m DATA d);;
    e ← either_copyin (DATA + off mod BSIZE) user_src src m;
    d ← lift (peek_m DATA (Z.to_nat BSIZE));
    setdata bp (fun _ => d);;
    if e =? -1 then brelse bp;; mret (inr (tot, off)) else
    log_write bp;;
    brelse bp;;
    mret (inl (u32 (tot + m), u32 (off + m), u64 (src + m)))) (0, off, src);
  size ← geti ip i_size;
  when (size <? off) (seti ip (set_i_size off));;
  iupdate ip;;
  mret (i32 tot).

(** ** Directories *)

Definition namecmp (s t : list Z) : option Z := strncmp s t DIRSIZ.

Abbreviation DE := (kobj O_de).

(** [readi(dp, 0, (uint64)&de, off, sizeof(de))]; panics with [msg] if short. *)
Definition read_dirent (dp : nat) (off : Z) (msg : string) : K kstate dirent :=
  r ← readi dp false DE off DIRENT;
  if negb (r =? DIRENT) then panic msg else
  bs ← lift (peek_m DE 16);
  mret (get_dirent bs).

(** The entry found, with its offset. *)
Definition dirlookup (dp : nat) (name : list Z) : K kstate (option (nat * Z)) :=
  t ← geti dp i_type;
  if negb (t =? T_DIR) then panic "dirlookup not DIR" else
  loop (fun off =>
    size ← geti dp i_size;
    if negb (off <? size) then mret (inr None) else
    de ← read_dirent dp off "dirlookup read";
    if de_inum de =? 0 then mret (inl (u32 (off + DIRENT))) else
    c ← the (namecmp name (de_name de));
    if c =? 0 then
      dev ← geti dp i_dev;
      ip ← iget dev (de_inum de);
      mret (inr (Some (ip, off)))
    else mret (inl (u32 (off + DIRENT)))) 0.

Definition dirlink (dp : nat) (name : list Z) (inum : Z) : K kstate Z :=
  r ← dirlookup dp name;
  match r with
  | Some (ip, _) => iput ip;; mret (-1)
  | None =>
    '(off, de) ← loop (fun '(off, de) =>
      size ← geti dp i_size;
      if negb (u32 off <? size) then mret (inr (off, de)) else
      de ← read_dirent dp (u32 off) "dirlink read";
      if de_inum de =? 0 then mret (inr (off, de)) else mret (inl (i32 (off + DIRENT), de)))
      (0, Dirent 0 (replicate 14 0));
    nm ← the (strncpy (de_name de) name DIRSIZ);
    lift (poke_m DE (dirent_bytes (Dirent (u16 inum) nm)));;
    r ← writei dp false DE (u32 off) DIRENT;
    if negb (r =? DIRENT) then panic "dirlink" else mret 0
  end.

(** ** Paths *)

(** [while( *path == '/') path++;]; [None]: past the end of the array. *)
Fixpoint skip_slashes (path : list Z) : option (list Z) :=
  match path with
  | [] => None
  | c :: r => if c =? 47 then skip_slashes r else Some path
  end.
(** The element up to the next slash or NUL, and what follows it. *)
Fixpoint path_elem (path : list Z) : option (list Z * list Z) :=
  match path with
  | [] => None
  | c :: r => if (c =? 47) || (c =? 0) then Some ([], path)
              else '(e, r') ← path_elem r; Some (c :: e, r')
  end.
(** The path after the first element (or the null pointer) and [name]. *)
Definition skipelem (path name : list Z) : option (option (list Z) * list Z) :=
  path ← skip_slashes path;
  if default 0 (head path) =? 0 then Some (None, name) else
  '(s, path) ← path_elem path;
  let len := Z.of_nat (length s) in
  let name := if DIRSIZ <=? len then splice name 0 (take (Z.to_nat DIRSIZ) s)
              else arr_set (splice name 0 s) len 0 in
  path ← skip_slashes path;
  Some (Some path, name).

(** Returns the inode and the final [name]. *)
Definition namex (path : list Z) (nameiparent : bool) (name : list Z) : K kstate (option nat * list Z) :=
  c ← the (head path);
  ip ← (if c =? 47 then iget ROOTDEV ROOTINO
        else p ← myproc; i ← the p; cwd ← getp i p_cwd; d ← the cwd; idup d);
  loop (fun '(path, name, ip) =>
    r ← the (skipelem path name);
    match r with
    | (None, name) =>
      if nameiparent then iput ip;; mret (inr (None, name)) else mret (inr (Some ip, name))
    | (Some path, name) =>
      ilock (Some ip);;
      t ← geti ip i_type;
      if negb (t =? T_DIR) then iunlockput ip;; mret (inr (None, name)) else
      c ← the (head path);
      if nameiparent && (c =? 0) then iunlock (Some ip);; mret (inr (Some ip, name)) else
      nx ← dirlookup ip name;
      match nx with
      | None => iunlockput ip;; mret (inr (None, name))
      | Some (next, _) => iunlockput ip;; mret (inl (path, name, next))
      end
    end) (path, name, ip).

Definition namei (path : list Z) : K kstate (option nat) :=
  '(ip, _) ← namex path false (replicate 14 0); mret ip.
Definition nameiparent (path : list Z) : K kstate (option nat * list Z) :=
  namex path true (replicate 14 0).

End fs.
