(* ===== verification/FsBits.v ===== *)
(** * The bitmap of used blocks

    A block of the bitmap as a function from bit numbers to booleans: what the
    test of [balloc] reads, and what [bit_on] and [bit_off] change. *)

From S2P Require Import Prelude Mem KString Spinlock Machine KState FsFmt FsFmtSpec Fs.

Definition bit (buf : list Z) (b : Z) : bool := Z.testbit (buf !!! Z.to_nat (b / 8)) (b mod 8).

Lemma byte_at b : 0 <= b < 8192 -> 0 <= b / 8 < 1024 /\ 0 <= b mod 8 < 8.
Proof.
  intros Hb. split; [split; [apply Z.div_pos; lia|apply Z.div_lt_upper_bound; lia]|]. by apply Z.mod_pos_bound.
Qed.
Lemma same_bit b i : b / 8 = i / 8 -> (i mod 8 =? b mod 8) = (b =? i).
Proof.
  intros E. pose proof (Z.div_mod b 8 ltac:(lia)). pose proof (Z.div_mod i 8 ltac:(lia)).
  destruct (Z.eqb_spec b i); destruct (Z.eqb_spec (i mod 8) (b mod 8)); try done; subst; lia.
Qed.
Lemma ldb_byte buf k : 0 <= k < Z.of_nat (length buf) -> ldb 1 buf k = buf !!! Z.to_nat k.
Proof.
  intros Hk. destruct (lookup_lt_is_Some_2 buf (Z.to_nat k)) as [v Hv]; [lia|].
  rw (list_lookup_total_correct _ _ _ Hv) /ldb (drop_S _ _ _ Hv) /=. lia.
Qed.

(** The test of the kernel. *)
Lemma kernel_bit buf b : length buf = 1024%nat -> 0 <= b < 8192 -> bit_set buf b = bit buf b.
Proof.
  intros Hl Hb. destruct (byte_at b Hb) as [Hq Hbm]. rw /bit_set ldb_byte; [|lia]. rw /bit /bit_mask Z.shiftl_1_l.
  set (v := buf !!! _). destruct (Z.testbit v (b mod 8)) eqn:Et.
  - apply negb_true_iff, Z.eqb_neq. intros H0. apply (f_equal (fun z => Z.testbit z (b mod 8))) in H0.
    rw Z.land_spec Et Z.pow2_bits_true in H0; [|lia]. by rw Z.bits_0 in H0.
  - apply negb_false_iff, Z.eqb_eq. apply Z.bits_inj_iff. intros i. rw Z.land_spec Z.bits_0 Z.pow2_bits_eqb; [|lia].
    destruct (Z.eqb_spec (b mod 8) i) as [<-|]; [by rw Et|by rw andb_false_r].
Qed.

(** A byte replaced. *)
Lemma bit_update buf i v b : length buf = 1024%nat -> 0 <= i < 8192 -> 0 <= b < 8192 ->
  bit (<[Z.to_nat (i / 8) := v mod 256]> buf) b = if decide (b / 8 = i / 8) then Z.testbit v (b mod 8) else bit buf b.
Proof.
  intros Hl Hi Hb. destruct (byte_at b Hb) as [Hq Hbm]. destruct (byte_at i Hi) as [Hqi Him]. rw /bit. case_decide as E.
  - rw E list_lookup_total_insert_eq; [|lia]. change 256 with (2 ^ 8). by rw Z.mod_pow2_bits_low; [|lia].
  - rw list_lookup_total_insert_ne; [done|lia].
Qed.
Lemma stb_byte buf k v : 0 <= k < Z.of_nat (length buf) -> stb 1 buf k v = <[Z.to_nat k := v mod 256]> buf.
Proof.
  intros Hk. rw /stb. cbn [le_bytes]. rw /splice. cbn [length]. rw Nat.add_1_r -(insert_take_drop buf (Z.to_nat k)) //. lia.
Qed.
Lemma bit_on_set buf i b : length buf = 1024%nat -> 0 <= i < 8192 -> 0 <= b < 8192 ->
  bit_set (bit_on i buf) b = (b =? i) || bit_set buf b.
Proof.
  intros Hl Hi Hb. destruct (byte_at i Hi) as [Hqi Him]. destruct (byte_at b Hb) as [Hq Hbm]. rw /bit_on stb_byte; [|lia]. rw !kernel_bit // ?length_insert //.
  rw bit_update //. case_decide as E.
  - rw ldb_byte; [|lia]. rw Z.lor_spec /bit_mask Z.shiftl_1_l Z.pow2_bits_eqb; [|lia]. by rw same_bit // /bit E orb_comm.
  - rw (proj2 (Z.eqb_neq b i)) //. by intros ->.
Qed.
Lemma bit_off_set buf i b : length buf = 1024%nat -> 0 <= i < 8192 -> 0 <= b < 8192 ->
  bit_set (bit_off i buf) b = negb (b =? i) && bit_set buf b.
Proof.
  intros Hl Hi Hb. destruct (byte_at i Hi) as [Hqi Him]. destruct (byte_at b Hb) as [Hq Hbm]. rw /bit_off stb_byte; [|lia]. rw !kernel_bit // ?length_insert //.
  rw bit_update //. case_decide as E.
  - rw ldb_byte; [|lia]. rw Z.land_spec Z.lnot_spec; [|lia]. rw /bit_mask Z.shiftl_1_l Z.pow2_bits_eqb; [|lia]. by rw same_bit // /bit E andb_comm.
  - rw (proj2 (Z.eqb_neq b i)) //. by intros ->.
Qed.
Lemma length_bit_on buf i : length buf = 1024%nat -> 0 <= i < 8192 -> length (bit_on i buf) = 1024%nat.
Proof. intros Hl Hi. destruct (byte_at i Hi). rw /bit_on stb_byte; [|lia]. by rw length_insert. Qed.
Lemma length_bit_off buf i : length buf = 1024%nat -> 0 <= i < 8192 -> length (bit_off i buf) = 1024%nat.
Proof. intros Hl Hi. destruct (byte_at i Hi). rw /bit_off stb_byte; [|lia]. by rw length_insert. Qed.
