(* ===== verification/ProcInv.v ===== *)
(** * Processes: what the table operations do

    Runs of the lock operations on the kernel state, and the effect of
    [wakeup], [kill], [find_unused], [allocpid], [sleep] and [sched] on the
    process table. *)

From S2P Require Import Prelude Mem KString Spinlock Machine Kalloc Printf Vm KState Proc.

(** ** Locks of the kernel state *)

Definition klk (s : kstate) : lstate := lk (mach s).
Definition set_klk (l : lstate) (s : kstate) : kstate := set_mach (set_lk l (mach s)) s.

(** The hart's lock state is consistent and [k] is free. *)
Definition can_lock (k : lockid) (s : kstate) : Prop :=
  lk_ok (klk s) /\ locked k (klk s) = false.

Section locks.
Context {lay : Layout}.
Implicit Types (s : kstate) (n : nat).

Lemma set_klk_id s : set_klk (klk s) s = s.
Proof. by destruct s as [[]]. Qed.
Lemma set_klk_procs s x l : set_klk (klk s) (set_procs l (set_klk x s)) = set_procs l s.
Proof. by destruct s as [[]]. Qed.
Lemma set_klk_back s x : set_klk (klk s) (set_klk x s) = s.
Proof. by destruct s as [[]]. Qed.

Lemma push_pop l n :
  lk_ok l -> (push_off;; pop_off) n l = Ok tt l.
Proof.
  intros Hok. pose proof (noff_nonneg _ Hok). destruct Hok as [_ _ Hs He].
  destruct l as [lks h nf ie si]; simpl in *.
  rw /push_off /pop_off /mbind /K_bind /= /when.
  destruct (Z.eqb_spec nf 0) as [->|Hne]; simpl.
  - rw He //. by destruct si.
  - rw (proj2 (Z.ltb_ge (nf + 1) 1)); [|lia]. rw /set_noff /=.
    rw (proj2 (Z.eqb_neq (nf + 1 - 1) 0)); [|lia]. simpl.
    rw Hs; [|lia]. by replace (nf + 1 - 1) with nf by lia.
Qed.

Lemma myproc_run s n : lk_ok (klk s) -> myproc n s = Ok (cur s) s.
Proof.
  intros Hok. pose proof (push_pop (klk s) n Hok) as Hpp.
  rw /mbind /K_bind in Hpp. rw /myproc /mbind /K_bind /lift /=.
  destruct (push_off n (lk (mach s))) as [[] l1| | | |] eqn:E; rw /klk E /= in Hpp; try done.
  cbn. rw Hpp /=. by destruct s as [[]].
Qed.

Lemma acquire_k s k n :
  can_lock k s -> acquire k n s = Ok tt (set_klk (lk_acq k (klk s)) s).
Proof. intros [Hok Hf]. exact (lift_Ok (acquire_ k) n s tt _ (acquire_run k (klk s) n Hok Hf)). Qed.

Lemma release_k s k n :
  lk_ok (klk s) -> 0 < noff (klk s) -> held k (klk s) = true ->
  release k n s = Ok tt (set_klk (lk_rel k (klk s)) s).
Proof. intros Hok Hn Hh. exact (lift_Ok (release_ k) n s tt _ (release_run k (klk s) n Hok Hn Hh)). Qed.

Lemma holding_k s k n : holding k n s = Ok (held k (klk s)) s.
Proof. by destruct s as [[]]. Qed.
Lemma intr_get_k s n : lift (S := lstate) intr_get n s = Ok (sie (klk s)) s.
Proof. by destruct s as [[]]. Qed.

(** A critical section on [k] whose body keeps the lock state. *)
Lemma release_acquired s s' k n :
  can_lock k s -> klk s' = lk_acq k (klk s) ->
  release k n s' = Ok tt (set_klk (klk s) s').
Proof.
  intros [Hok Hf] E. pose proof (noff_nonneg _ Hok).
  rw release_k E; [by rw rel_acq|by apply lk_acq_ok|simpl; lia|apply held_acq].
Qed.

Lemma getp_run {A} s i p (f : proc -> A) n :
  procs s !! i = Some p -> getp i f n s = Ok (f p) s.
Proof.
  intros Hp. rw /getp /mbind /K_bind /= /arr_get (proj2 (Z.ltb_ge _ _)); [|lia].
  by rw Nat2Z.id Hp.
Qed.
End locks.

(** From here on these are used through their run lemmas. *)
#[global] Opaque acquire release holding myproc getp lift.

(** ** Effect on the table *)

(** What [wakeup(ch)], called by process [me], makes of entry [i]. *)
Definition woken (me : option nat) (ch : chan) (i : nat) (p : proc) : proc :=
  if bool_decide (me <> Some i /\ p_state p = SLEEPING /\ p_chan p = Some ch)
  then set_p_state RUNNABLE p else p.

(** None of the process locks is taken, the caller's own apart. *)
Definition procs_unlocked (s : kstate) : Prop :=
  forall i, (i < NPROC)%nat -> cur s <> Some i -> locked (L_proc i) (klk s) = false.

Section table.
Context {lay : Layout}.
Implicit Types (s : kstate) (n : nat).

(** One iteration of [wakeup]. *)
Lemma wakeup_one s i p ch n :
  lk_ok (klk s) -> procs s !! i = Some p ->
  (cur s <> Some i -> locked (L_proc i) (klk s) = false) ->
  (me ← myproc;
   when (negb (bool_decide (me = Some i)))
    (acquire (L_proc i);;
     st ← getp i p_state; c ← getp i p_chan;
     when (bool_decide (st = SLEEPING /\ c = Some ch)) (setp i (set_p_state RUNNABLE));;
     release (L_proc i))) n s
  = Ok tt (set_procs (alter (woken (cur s) ch i) i (procs s)) s).
Proof.
  intros Hok Hp Hlock. rw /mbind /K_bind /= myproc_run //=.
  destruct (decide (cur s = Some i)) as [Hc|Hc].
  { rw bool_decide_eq_true_2 //= (alter_id_at _ _ _ p) //; [by destruct s|].
    rw /woken bool_decide_eq_false_2 //. tauto. }
  rw bool_decide_eq_false_2 // /when /=.
  assert (can_lock (L_proc i) s) as Hcl by (split; auto).
  rw acquire_k //=. set (s1 := set_klk _ s).
  rw (getp_run s1 i p) //= (getp_run s1 i p) //=.
  destruct (bool_decide (p_state p = SLEEPING /\ p_chan p = Some ch)) eqn:E.
  - apply bool_decide_eq_true in E. simpl. rw (release_acquired s) // /set_klk /s1 /=.
    rw !(alter_insert _ _ _ p) // /woken bool_decide_eq_true_2; [|tauto]. by destruct s as [[]].
  - apply bool_decide_eq_false in E. rw /mret /K_ret /= (release_acquired s) // (alter_id_at _ _ _ p) //.
    + by destruct s as [[]].
    + rw /woken bool_decide_eq_false_2 //. tauto.
Qed.

(** A scan that updates every entry independently. *)
Lemma for_procs (Inv : kstate -> Prop) (f : nat -> K kstate unit) (g : nat -> proc -> proc) n :
  (forall s i p, Inv s -> procs s !! i = Some p ->
     f i n s = Ok tt (set_procs (alter (g i) i (procs s)) s)) ->
  (forall s l, Inv s -> length l = length (procs s) -> Inv (set_procs l s)) ->
  forall s, Inv s -> length (procs s) = NPROC ->
  for_each the_procs f n s = Ok tt (set_procs (imap g (procs s)) s).
Proof.
  intros Hf HInv s Hs Hlen. set (l := procs s).
  enough (forall r k, (k + r = length l)%nat ->
    for_each (seq k r) f n (set_procs (imap g (take k l) ++ drop k l) s) =
    Ok tt (set_procs (imap g l) s)) as H.
  { specialize (H NPROC 0%nat). rw /= drop_0 in H. rw /the_procs -H; [|by rw /l Hlen].
    f_equal. by destruct s. }
  induction r as [|r IH]; intros k Hk; simpl.
  { rw take_ge; [|lia]. by rw drop_ge ?app_nil_r; [|lia]. }
  assert (is_Some (l !! k)) as [p Hp] by (apply lookup_lt_is_Some; lia).
  assert (length (imap g (take k l)) = k) as Hlk by (rw length_imap length_take; lia).
  rw /mbind /K_bind (Hf _ k p) /=; last first.
  { rw lookup_app_r; [|lia]. by rw Hlk Nat.sub_diag lookup_drop Nat.add_0_r. }
  { apply HInv; [done|]. rw length_app Hlk length_drop. fold l. lia. }
  rw -(IH (S k)); [|lia]. f_equal. rw /set_procs /=. f_equal.
  rw (alter_insert _ _ _ p); last by rw lookup_app_r ?Hlk ?Nat.sub_diag ?lookup_drop ?Nat.add_0_r; [|lia].
  rw (take_S_r _ _ _ Hp) imap_app /= length_take Nat.min_l; [|lia].
  rw -app_assoc /= Nat.add_0_r (drop_S _ _ _ Hp) insert_app_r_alt; [|lia].
  by rw Hlk Nat.sub_diag.
Qed.

(** A scan that stops at the first entry satisfying [P]. *)
Lemma for_exit_find {B} (P : proc -> Prop) `{!forall p, Decision (P p)}
    (f : nat -> K kstate (option B)) (hit : nat -> B) (fin : nat -> kstate) n s :
  (forall i p, procs s !! i = Some p ->
     f i n s = if decide (P p) then Ok (Some (hit i)) (fin i) else Ok None s) ->
  length (procs s) = NPROC ->
  for_exit the_procs f n s =
    match list_find P (procs s) with
    | Some (i, _) => Ok (Some (hit i)) (fin i)
    | None => Ok None s
    end.
Proof.
  intros Hf Hlen. rw /the_procs -Hlen.
  enough (forall r k, drop k (procs s) = r -> for_exit (seq k (length r)) f n s =
    match list_find P r with
    | Some (i, _) => Ok (Some (hit (k + i)%nat)) (fin (k + i)%nat) | None => Ok None s end) as Hgen
    by exact (Hgen (procs s) 0%nat (drop_0 _)).
  induction r as [|p r IH]; intros k Hk; simpl; [done|].
  assert (procs s !! k = Some p) as Hp by by rw -(Nat.add_0_r k) -lookup_drop Hk.
  rw /mbind /K_bind (Hf k p Hp). destruct (decide (P p)); simpl; [by rw Nat.add_0_r|].
  rw (IH (S k)).
  - destruct (list_find P r) as [[i q]|]; simpl; [|done]. by rw Nat.add_succ_r.
  - rw (drop_S _ _ _ Hp) in Hk. by simplify_eq.
Qed.

Lemma wakeup_run ch s n :
  lk_ok (klk s) -> procs_unlocked s -> length (procs s) = NPROC ->
  wakeup ch n s = Ok tt (set_procs (imap (woken (cur s) ch) (procs s)) s).
Proof.
  intros Hok Hun Hlen. rw /wakeup.
  rw (for_procs (fun s' => klk s' = klk s /\ cur s' = cur s /\ length (procs s') = NPROC)
        _ (woken (cur s) ch)) //.
  - intros s' i p (Hk & Hc & Hl) Hp. rw (wakeup_one s' i p) ?Hk ?Hc //. intros Hi.
    rw -Hc in Hi. apply Hun; [|by rw Hc in Hi]. rw -Hl. by apply lookup_lt_Some in Hp.
  - intros s' l (Hk & Hc & Hl) Hl'. simpl. by rw Hl'.
Qed.

(** *** [kill] *)
Definition killed (p : proc) : proc :=
  let p := set_p_killed 1 p in
  if decide (p_state p = SLEEPING) then set_p_state RUNNABLE p else p.

Lemma kill_run pid s n :
  lk_ok (klk s) -> (forall i, (i < NPROC)%nat -> locked (L_proc i) (klk s) = false) ->
  length (procs s) = NPROC ->
  kill pid n s =
    match list_find (fun p => p_pid p = pid) (procs s) with
    | Some (i, _) => Ok 0 (set_procs (alter killed i (procs s)) s)
    | None => Ok (-1) s
    end.
Proof.
  intros Hok Hun Hlen. rw /kill /mbind /K_bind.
  rw (for_exit_find (fun p => p_pid p = pid) _ (fun _ => 0)
        (fun i => set_procs (alter killed i (procs s)) s)) //.
  { by destruct (list_find _ _) as [[]|]. }
  intros i p Hp. assert (can_lock (L_proc i) s) as Hcl.
  { split; [done|]. apply Hun. rw -Hlen. by apply lookup_lt_Some in Hp. }
  rw /mbind /K_bind acquire_k //=. set (s1 := set_klk _ s). rw (getp_run s1 i p) //=.
  destruct (decide (p_pid p = pid)) as [<-|Hne].
  - rw Z.eqb_refl /=. rw (getp_run _ i (set_p_killed 1 p)) /=; [|by rw list_lookup_alter decide_True // Hp].
    case_bool_decide as Hsl; cbn; rw (release_acquired s) //=; do 2 f_equal.
    + rw list_alter_alter_eq. trans (set_klk (klk s)
        (set_procs (alter (set_p_state RUNNABLE ∘ set_p_killed 1) i (procs s)) s1)); [done|].
      rw set_klk_procs !(alter_insert _ _ _ p) // /killed /= decide_True //.
    + rw set_klk_procs !(alter_insert _ _ _ p) // /killed /= decide_False //.
  - rw (proj2 (Z.eqb_neq _ _)) //= (release_acquired s) //=. by rw set_klk_back.
Qed.


(** *** [sleep] *)

(** Entry [i] while its process sleeps on [ch]. *)
Definition sleeping (ch : chan) (p : proc) : proc := set_p_state SLEEPING (set_p_chan (Some ch) p).
(** The state [sleep(ch, l)] hands to the scheduler. *)
Definition asleep (i : nat) (ch : chan) (l : lockid) (s : kstate) : kstate :=
  set_procs (alter (sleeping ch) i (procs s))
    (set_klk (lk_rel l (lk_acq (L_proc i) (klk s))) s).
(** What [sleep] does once switched back to, [ie] being the saved [intena]. *)
Definition resume (i : nat) (l : lockid) (ie : bool) : K kstate unit :=
  lift (S := lstate) (modify (set_intena ie));;
  setp i (set_p_chan None);;
  release (L_proc i);;
  acquire l.

Lemma held_rel_ne k k' l : k <> k' -> held k (lk_rel k' l) = held k l.
Proof.
  intros Hne. rw /held /=. apply bool_decide_ext. rw list_elem_of_filter /=. tauto.
Qed.
Lemma held_acq_ne k k' l : k <> k' -> held k (lk_acq k' l) = held k l.
Proof.
  intros Hne. rw /held /=. apply bool_decide_ext. rw elem_of_cons.
  split; [by intros [[= ?]|]|by right].
Qed.
Lemma locked_rel k l : locked k (lk_rel k l) = false.
Proof.
  apply locked_false. simpl. rw list_elem_of_fmap. intros ([k' h] & -> & [Hf _]%list_elem_of_filter).
  by simpl in Hf.
Qed.
Lemma locked_rel_ne k k' l : k <> k' -> locked k (lk_rel k' l) = locked k l.
Proof.
  intros Hne. rw /locked /=. apply bool_decide_ext. rw !list_elem_of_fmap.
  split; intros ([k2 h] & E & Hin); exists (k2, h); (split; [done|]).
  - by apply list_elem_of_filter in Hin as [_ ?].
  - apply list_elem_of_filter. simpl in *. split; [by subst|done].
Qed.
Lemma locked_acq_ne k k' l : k <> k' -> locked k (lk_acq k' l) = locked k l.
Proof.
  intros Hne. rw /locked /=. apply bool_decide_ext. rw elem_of_cons. split; [by intros [|]|by right].
Qed.

Lemma sched_run i p s n :
  cur s = Some i -> procs s !! i = Some p -> lk_ok (klk s) -> held (L_proc i) (klk s) = true ->
  noff (klk s) = 1 -> p_state p <> RUNNING ->
  exists k, sched n s = Sched s k /\
    forall s', k s' = lift (S := lstate) (modify (set_intena (intena (klk s)))) n s'.
Proof.
  intros Hc Hp Hok Hh Hn Hst. eexists. split.
  - rw /sched /mbind /K_bind myproc_run // Hc /= holding_k Hh /=. fold (klk s).
    rw Hn /= (getp_run s i p) //= decide_False // intr_get_k /=.
    rw (lk_sie _ Hok); [|lia]. reflexivity.
  - done.
Qed.

Lemma sleep_run ch l i p s n :
  cur s = Some i -> procs s !! i = Some p -> lk_ok (klk s) -> noff (klk s) = 1 ->
  held l (klk s) = true -> locked (L_proc i) (klk s) = false ->
  exists k, sleep ch l n s = Sched (asleep i ch l s) k /\
    forall s', k s' = resume i l (intena (klk s)) n s'.
Proof.
  intros Hc Hp Hok Hn Hh Hf.
  assert (L_proc i <> l) as Hne by (intros <-; apply held_locked in Hh; congruence).
  set (L1 := lk_acq (L_proc i) (klk s)). set (L2 := lk_rel l L1).
  assert (lk_ok L1) as Hok1 by by apply lk_acq_ok.
  assert (held l L1 = true) as Hh1 by by rw held_acq_ne.
  assert (lk_ok L2) as Hok2 by (apply lk_rel_ok; [done|simpl; lia|done]).
  rw /sleep /mbind /K_bind /= myproc_run // Hc /=.
  rw acquire_k //=. rw release_k //=; [|lia].
  destruct (sched_run i (sleeping ch p) (asleep i ch l s) n) as (k & Hrun & Hk);
    [done|by rw /= list_lookup_alter decide_True // Hp|done|by rw /= held_rel_ne // held_acq|
     simpl; lia|done|].
  assert (set_procs (alter (set_p_state SLEEPING) i (alter (set_p_chan (Some ch)) i (procs s)))
      (set_klk L2 s) = asleep i ch l s) as Easl.
  { rw /asleep list_alter_alter_eq. done. }
  match goal with |- context [sched n ?s2] => replace s2 with (asleep i ch l s) by (rw -Easl; reflexivity) end.
  rw Hrun /=. eexists. split; [done|]. intros s'. rw /= Hk.
  replace (intena (klk (asleep i ch l s))) with (intena (klk s)) by (by rw /= Hn). reflexivity.
Qed.

(** The scheduler releases the lock of a process that gave up the CPU. *)
Lemma sched_leave_run i s n :
  lk_ok (klk s) -> 0 < noff (klk s) -> held (L_proc i) (klk s) = true ->
  sched_leave i n s = Ok tt (set_klk (lk_rel (L_proc i) (klk s)) (set_cur None s)).
Proof. intros. rw /sched_leave /mbind /K_bind /= release_k //. Qed.

Lemma sched_enter_run i p s n :
  can_lock (L_proc i) s -> procs s !! i = Some p ->
  sched_enter i n s =
    if decide (p_state p = RUNNABLE) then
      Ok true (set_cur (Some i) (set_procs (alter (set_p_state RUNNING) i (procs s))
                 (set_klk (lk_acq (L_proc i) (klk s)) s)))
    else Ok false s.
Proof.
  intros Hcl Hp. rw /sched_enter /mbind /K_bind acquire_k //= (getp_run _ i p) //=.
  case_decide; [done|]. rw (release_acquired s) //= set_klk_back //.
Qed.

(** Resumed by the scheduler, [sleep] clears the channel and takes [l] again. *)
Lemma resume_run i p l ie s s' n :
  lk_ok (klk s) -> noff (klk s) = 0 -> locked l (klk s) = false -> l <> L_proc i ->
  procs s' !! i = Some p -> klk s' = lk_acq (L_proc i) (klk s) ->
  locked (L_proc i) (klk s) = false ->
  exists s'', resume i l ie n s' = Ok tt s'' /\ procs s'' = alter (set_p_chan None) i (procs s') /\
    cur s'' = cur s' /\ held l (klk s'') = true /\ noff (klk s'') = 1 /\ lk_ok (klk s'') /\
    locked (L_proc i) (klk s'') = false /\ intena (klk s'') = ie.
Proof.
  intros Hok Hn Hl Hne Hp Hk Hi.
  assert (lk_ok (lk_acq (L_proc i) (klk s))) as [Hd Hno Hs He] by by apply lk_acq_ok.
  set (L1 := set_intena ie (lk_acq (L_proc i) (klk s))).
  assert (lk_ok L1) as Hok1.
  { split; [exact Hd|exact Hno|exact Hs|simpl; lia]. }
  assert (held (L_proc i) L1 = true) as Hh1 by exact (held_acq (L_proc i) (klk s)).
  set (L2 := lk_rel (L_proc i) L1).
  assert (lk_ok L2) as Hok2 by (apply lk_rel_ok; [done|simpl; lia|done]).
  assert (locked l L2 = false) as Hl2.
  { rw locked_rel_ne //. by rw -(locked_acq_ne _ (L_proc i)) // in Hl. }
  rw /resume /mbind /K_bind (lift_Ok _ _ _ tt L1) /=; [|by rw /modify -/(klk s') Hk].
  set (s1 := set_procs _ _). assert (klk s1 = L1) as Hk1 by done.
  rw release_k ?Hk1 //=; [|lia]. fold L2.
  rw acquire_k /=; [|by split]. eexists. split; [done|].
  split_and!; [done|done|apply held_acq|simpl; lia|by apply lk_acq_ok| |].
  - rw /= locked_acq_ne; [apply locked_rel|done].
  - simpl. by rw Hn.
Qed.
End table.

(** ** Main properties *)

Section claims.
Context {lay : Layout}.

(** On one hart: [sleep(ch, l)] hands the CPU over with [l] released and the
    process marked as sleeping on [ch]; a later [wakeup(ch)] of another process
    makes it runnable, and once the scheduler picks it again [sleep] returns
    with [l] held, the channel cleared and the interrupt state of the caller.
    (That a wakeup on another hart is not lost between the steps of [sleep] is
    the subject of [Smp].) *)
Theorem sleep_wakeup_cycle ch l i p s n :
  cur s = Some i -> procs s !! i = Some p -> length (procs s) = NPROC ->
  lk_ok (klk s) -> noff (klk s) = 1 -> held l (klk s) = true ->
  locked (L_proc i) (klk s) = false ->
  exists s1 k s2, sleep ch l n s = Sched s1 k /\ sched_leave i n s1 = Ok tt s2 /\
    cur s2 = None /\ locked l (klk s2) = false /\ locked (L_proc i) (klk s2) = false /\
    forall s3, procs s3 !! i = procs s2 !! i -> length (procs s3) = NPROC ->
      cur s3 <> Some i -> lk_ok (klk s3) -> procs_unlocked s3 ->
      exists s4, wakeup ch n s3 = Ok tt s4 /\
        forall s5, procs s5 !! i = procs s4 !! i -> lk_ok (klk s5) -> noff (klk s5) = 0 ->
          locked (L_proc i) (klk s5) = false -> locked l (klk s5) = false ->
          exists s6 s7, sched_enter i n s5 = Ok true s6 /\ k s6 = Ok tt s7 /\
            cur s7 = Some i /\ held l (klk s7) = true /\ intena (klk s7) = intena (klk s) /\
            procs s7 !! i = Some (set_p_state RUNNING (set_p_chan None p)).
Proof.
  intros Hc Hp Hlen Hok Hn Hh Hf.
  assert (l <> L_proc i) as Hne by (intros ->; apply held_locked in Hh; congruence).
  destruct (sleep_run ch l i p s n) as (k & Hsl & Hk); [done..|].
  assert (lk_ok (lk_acq (L_proc i) (klk s))) as Hok1 by by apply lk_acq_ok.
  assert (lk_ok (klk (asleep i ch l s))) as Hok2
    by (apply lk_rel_ok; [done|simpl; lia|by rw held_acq_ne]).
  assert (held (L_proc i) (klk (asleep i ch l s)) = true) as Hh2 by (rw /= held_rel_ne // held_acq //).
  eexists _, k, _. split_and!; [exact Hsl|by apply sched_leave_run; [|simpl; lia|]|done| |apply locked_rel|].
  { rw /= locked_rel_ne //. apply locked_rel. }
  intros s3 Hp3 Hlen3 Hc3 Hok3 Hun3. rw wakeup_run //. eexists. split; [done|].
  intros s5 Hp5 Hok5 Hn5 Hf5 Hl5.
  assert (procs s5 !! i = Some (set_p_state RUNNABLE (sleeping ch p))) as Hp5'.
  { rw Hp5 /= list_lookup_imap Hp3 /= list_lookup_alter decide_True // Hp /= /woken.
    by rw bool_decide_eq_true_2. }
  rw (sched_enter_run i (set_p_state RUNNABLE (sleeping ch p)) s5 n) //=.
  destruct (resume_run i (set_p_state RUNNING (sleeping ch p)) l (intena (klk s)) s5
    (set_cur (Some i) (set_procs (alter (set_p_state RUNNING) i (procs s5))
       (set_klk (lk_acq (L_proc i) (klk s5)) s5))) n) as (s7 & Hr & Hpr & Hcr & Hhr & _ & _ & _ & Hi);
    [done..|by rw /= list_lookup_alter decide_True // Hp5'|done|done|].
  eexists _, s7. split_and!; [done|by rw Hk|by rw Hcr|done|done|].
  by rw Hpr /= list_lookup_alter decide_True // list_lookup_alter decide_True // Hp5'.
Qed.

(** [wakeup(ch)] makes runnable exactly the processes other than the
    caller that sleep on [ch], and changes nothing else: not the other
    entries, not the locks, not the interrupt state. *)
Theorem wakeup_exact ch s n :
  lk_ok (klk s) -> procs_unlocked s -> length (procs s) = NPROC ->
  exists s', wakeup ch n s = Ok tt s' /\ s' = set_procs (procs s') s /\
    length (procs s') = NPROC /\
    forall i p, procs s !! i = Some p ->
      (cur s <> Some i /\ p_state p = SLEEPING /\ p_chan p = Some ch ->
         procs s' !! i = Some (set_p_state RUNNABLE p)) /\
      (cur s = Some i \/ p_state p <> SLEEPING \/ p_chan p <> Some ch -> procs s' !! i = Some p).
Proof.
  intros Hok Hun Hlen. rw wakeup_run //. eexists. split; [done|].
  split_and!; [done|by rw /= length_imap|]. intros i p Hp. simpl.
  rw list_lookup_imap Hp /= /woken. split; intros H.
  - by rw bool_decide_eq_true_2.
  - rw bool_decide_eq_false_2 //. tauto.
Qed.

(** [kill(pid)] marks the first process with that pid killed, makes it
    runnable if it sleeps, and answers 0; with no such process it answers -1
    and changes nothing. *)
Theorem kill_exact pid s n :
  lk_ok (klk s) -> (forall i, (i < NPROC)%nat -> locked (L_proc i) (klk s) = false) ->
  length (procs s) = NPROC ->
  (forall p, p ∈ procs s -> p_pid p <> pid) /\ kill pid n s = Ok (-1) s \/
  exists i p p', procs s !! i = Some p /\ p_pid p = pid /\
    (forall j q, (j < i)%nat -> procs s !! j = Some q -> p_pid q <> pid) /\
    kill pid n s = Ok 0 (set_procs (<[i := p']> (procs s)) s) /\
    p_killed p' = 1 /\ p_state p' <> SLEEPING /\
    (p_state p <> SLEEPING -> p_state p' = p_state p) /\ p_pid p' = pid.
Proof.
  intros Hok Hun Hlen. rw kill_run //.
  destruct (list_find (fun p => p_pid p = pid) (procs s)) as [[i p]|] eqn:E; [right|left].
  - apply list_find_Some in E as (Hp & Hpid & Hfst). exists i, p, (killed p).
    rw (alter_insert _ _ _ p) //. rw /killed /=. split_and!; try done.
    + intros j q Hj Hq. by eapply Hfst.
    + by case_decide.
    + case_decide; [done|]. by simpl.
    + intros. by rw decide_False.
    + by case_decide.
  - split; [|done]. intros p Hin Heq. apply list_find_None in E.
    rw Forall_forall in E. by eapply E.
Qed.
End claims.

(** ** The locks at the start *)

Lemma lk_ok_zero : lk_ok zero_lstate.
Proof. split; [apply NoDup_nil_2|done|done|done]. Qed.
