(* ===== verification/Smp.v ===== *)
(** * [sleep] and [wakeup] on several harts

    The kernel model runs one hart, which executes [sleep] up to the switch
    without interruption; there the order in which [sleep] takes [p->lock] and
    lets go of the caller's lock cannot be observed.  This file models the same
    lines of [kernel/proc.c] at the granularity of single accesses, with any
    number of processes running at once on harts of their own: each thread is
    a sequence of atomic steps (acquire or release of a lock, one field access),
    and [mstep] interleaves the threads in every possible way.

    The processes use [sleep] and [wakeup] the way the callers in the kernel do
    (pipes, the log, the disk, [wait]): under a lock, wait in a loop for a
    condition on the data the lock protects, change the data, wake the others
    up, release the lock.  The theorem is that no wakeup is lost. *)

From stdpp Require Import relations functions.
From S2P Require Import Prelude Mem KString Spinlock Machine KState.

Section smp.
(** The data the lock protects, the lock, the channel, the number of processes. *)
Context {D : Type} (lk : lockid) (ch : chan) (n : nat).

(** What the harts share: the holder of each lock, [p->state] and [p->chan] of
    each process, the data. *)
Record smp := SmpState {
  holder : lockid -> option nat;
  sp_state : nat -> procstate;
  sp_chan : nat -> option chan;
  sdata : D;
}.
Definition set_holder (l : lockid) (h : option nat) (s : smp) : smp :=
  SmpState (<[l := h]> (holder s)) (sp_state s) (sp_chan s) (sdata s).
Definition set_sp_state (i : nat) (x : procstate) (s : smp) : smp :=
  SmpState (holder s) (<[i := x]> (sp_state s)) (sp_chan s) (sdata s).
Definition set_sp_chan (i : nat) (x : option chan) (s : smp) : smp :=
  SmpState (holder s) (sp_state s) (<[i := x]> (sp_chan s)) (sdata s).
Definition set_sdata (x : D) (s : smp) : smp := SmpState (holder s) (sp_state s) (sp_chan s) x.

(** The atomic steps. *)
#[warnings="-register-all"] Inductive instr :=
| Acquire (l : lockid)
| Release (l : lockid)
| SetChan (i : nat) (c : option chan)
| SetState (i : nat) (x : procstate)
| Wake (i : nat) (c : chan)
| Pick (i : nat)
| While_not (cond : D -> bool) (body : list instr)
| Update (f : D -> D).

(** What thread [j] does in one step: the steps that come first now, and the
    new state; [None] when it cannot go on: a lock that is taken, a release of
    a lock the thread does not hold, a process that is not runnable. *)
Definition exec_step (j : nat) (x : instr) (s : smp) : option (list instr * smp) :=
  match x with
  | Acquire l => if decide (holder s l = None) then Some ([], set_holder l (Some j) s) else None
  | Release l => if decide (holder s l = Some j) then Some ([], set_holder l None s) else None
  | SetChan i c => Some ([], set_sp_chan i c s)
  | SetState i st => Some ([], set_sp_state i st s)
  | Wake i c =>
    Some ([], if decide (sp_state s i = SLEEPING /\ sp_chan s i = Some c) then set_sp_state i RUNNABLE s else s)
  | Pick i =>
    if decide (holder s (L_proc i) = None /\ sp_state s i = RUNNABLE)
    then Some ([], set_sp_state i RUNNING (set_holder (L_proc i) (Some j) s)) else None
  | While_not cond body => Some (if cond (sdata s) then [] else body ++ [x], s)
  | Update f => Some ([], set_sdata (f (sdata s)) s)
  end.

(** ** The code of [proc.c] *)

(** [sched()]: the scheduler, switched to, releases [p->lock]; later a
    scheduler takes the lock of [p], finds [p] runnable and switches to it.
    (A scheduler that finds it not runnable releases the lock again, which
    changes nothing; the tests of [sched] for a caller that breaks its rules
    are in [Proc].) *)
Definition mp_sched (p : nat) : list instr := [Release (L_proc p); Pick p].

Definition mp_sleep (p : nat) : list instr :=
  [Acquire (L_proc p);
   Release lk;
   SetChan p (Some ch);
   SetState p SLEEPING] ++
  mp_sched p ++
  [SetChan p None;
   Release (L_proc p);
   Acquire lk].

(** One turn of [wakeup]'s loop, and the loop for the processes of a list. *)
Definition wake_one (p : nat) : list instr := [Acquire (L_proc p); Wake p ch; Release (L_proc p)].
Definition wake_all (l : list nat) : list instr := concat (wake_one <$> l).
(** The processes other than [me]. *)
Definition others (me : nat) : list nat := filter (fun p => p <> me) (seq 0 n).
Definition mp_wakeup (me : nat) : list instr := wake_all (others me).

(** ** Programs *)

(** A critical section: wait for [wait_for], then do [update]. *)
Record op := Op { wait_for : D -> bool; update : D -> D }.
Definition critical (me : nat) (o : op) : list instr :=
  [Acquire lk; While_not (wait_for o) (mp_sleep me); Update (update o)] ++ mp_wakeup me ++ [Release lk].
Definition program (me : nat) (ops : list op) : list instr := concat (critical me <$> ops).

(** The state and what each thread has still to do. *)
Record conf := Conf { shared : smp; threads : list (list instr) }.
Inductive mstep : conf -> conf -> Prop :=
| mstep_thread s ts j x c c' s' :
    ts !! j = Some (x :: c) -> exec_step j x s = Some (c', s') ->
    mstep (Conf s ts) (Conf s' (<[j := c' ++ c]> ts)).

(** Thread [j] sleeps inside [sleep], called because [cond] was false. *)
Definition waits (c : conf) (j : nat) (cond : D -> bool) : Prop :=
  sp_state (shared c) j = SLEEPING /\
  exists rest, threads c !! j = Some (drop 5 (mp_sleep j) ++ While_not cond (mp_sleep j) :: rest).

(** ** Program points *)

(** Before the lock of the critical section; at the test; in [sleep], [k] steps
    done; before the update; in [wakeup], before the acquire, the test and the
    release of an entry, with the entries still to come.  [W1 []] is before the
    release of [lk]. *)
Inductive phase := Lock | Test | Sl (k : nat) | Upd | W1 (l : list nat) | W2 (i : nat) (l : list nat) | W3 (i : nat) (l : list nat).
Inductive pc := Done | P (ph : phase) (o : op) (r : list op).

Definition finish (j : nat) (r : list op) : list instr := Release lk :: program j r.
Definition after_test (j : nat) (o : op) (r : list op) : list instr := Update (update o) :: mp_wakeup j ++ finish j r.
Definition at_test (j : nat) (o : op) (r : list op) : list instr := While_not (wait_for o) (mp_sleep j) :: after_test j o r.
Definition code_at (j : nat) (p : pc) : list instr :=
  match p with
  | Done => []
  | P ph o r =>
    match ph with
    | Lock => Acquire lk :: at_test j o r
    | Test => at_test j o r
    | Sl k => drop k (mp_sleep j) ++ at_test j o r
    | Upd => after_test j o r
    | W1 l => wake_all l ++ finish j r
    | W2 i l => drop 1 (wake_one i) ++ wake_all l ++ finish j r
    | W3 i l => drop 2 (wake_one i) ++ wake_all l ++ finish j r
    end
  end.
Definition start_pc (ops : list op) : pc := match ops with [] => Done | o :: r => P Lock o r end.
Lemma code_start j ops : code_at j (start_pc ops) = program j ops.
Proof. destruct ops as [|o r]; [done|]. rw /program /critical /= /at_test /after_test /finish. by rw -app_assoc. Qed.

(** The locks a thread holds at a point. *)
Definition own (j : nat) (p : pc) : list lockid :=
  match p with
  | Done | P Lock _ _ => []
  | P Test _ _ | P Upd _ _ | P (W1 _) _ _ => [lk]
  | P (W2 i _) _ _ | P (W3 i _) _ _ => [lk; L_proc i]
  | P (Sl k) _ _ =>
    match k with
    | 0 => [lk]
    | 1 => [lk; L_proc j]
    | 2 | 3 | 4 | 6 | 7 => [L_proc j]
    | _ => []
    end%nat
  end.
(** The processes a thread is still going to wake. *)
Definition pending (p : pc) : list nat :=
  match p with
  | P (W1 l) _ _ | P (W3 _ l) _ _ => l
  | P (W2 i l) _ _ => i :: l
  | _ => []
  end.
(** The entries of [wakeup] are other processes; a position in [sleep] is one. *)
Definition pc_wf (j : nat) (p : pc) : Prop :=
  match p with
  | P (Sl k) _ _ => (k < 9)%nat
  | P (W3 i l) _ _ => forall i', i' ∈ i :: l -> (i' < n)%nat /\ i' <> j
  | _ => forall i', i' ∈ pending p -> (i' < n)%nat /\ i' <> j
  end.
(** The fields of its own entry at a point. *)
Definition fields (p : pc) (st : procstate) (c : option chan) : Prop :=
  match p with
  | P (Sl 3) _ _ => st = RUNNING /\ c = Some ch
  | P (Sl 4) _ _ => st = SLEEPING /\ c = Some ch
  | P (Sl 5) _ _ => (st = SLEEPING \/ st = RUNNABLE) /\ c = Some ch
  | _ => st = RUNNING
  end.
(** The condition a thread has found false, while it still holds the lock; and
    when it has let go of it and is not woken yet. *)
Definition deciding (p : pc) : option (D -> bool) :=
  match p with P (Sl 0) o _ | P (Sl 1) o _ => Some (wait_for o) | _ => None end.
Definition decided (p : pc) (st : procstate) : option (D -> bool) :=
  match p with
  | P (Sl 2) o _ | P (Sl 3) o _ | P (Sl 4) o _ => Some (wait_for o)
  | P (Sl 5) o _ => if decide (st = SLEEPING) then Some (wait_for o) else None
  | _ => None
  end.

(** The invariant: who holds which lock, what the fields are, and a process
    that sleeps or is about to, without the lock, waits for a condition that is
    false or is going to be woken. *)
Record inv (f : nat -> pc) (s : smp) : Prop := {
  iv_wf : forall j, (j < n)%nat -> pc_wf j (f j);
  iv_own : forall l j, holder s l = Some j <-> (j < n)%nat /\ l ∈ own j (f j);
  iv_fields : forall j, (j < n)%nat -> fields (f j) (sp_state s j) (sp_chan s j);
  iv_deciding : forall j c, (j < n)%nat -> deciding (f j) = Some c -> c (sdata s) = false;
  iv_decided : forall j c, (j < n)%nat -> decided (f j) (sp_state s j) = Some c ->
    c (sdata s) = false \/ exists j', (j' < n)%nat /\ j ∈ pending (f j');
}.

Context (Hlk : forall i, lk <> L_proc i).

(** ** Steps *)

Lemma at_eq {A B} `{!EqDecision A} (f : A -> B) a b : (<[a := b]> f) a = b.
Proof. apply fn_lookup_insert. Qed.
Lemma at_ne {A B} `{!EqDecision A} (f : A -> B) a a' b : a <> a' -> (<[a := b]> f) a' = f a'.
Proof. apply fn_lookup_insert_ne. Qed.

(** Thread [j] moves to [p], changing the holders to [h]. *)
Definition lock_step (f : nat -> pc) (s : smp) (j : nat) (p : pc) (h : lockid -> option nat) : Prop :=
  forall l, h l = holder s l /\ (l ∈ own j p <-> l ∈ own j (f j)) \/
    holder s l = None /\ h l = Some j /\ l ∈ own j p \/ holder s l = Some j /\ h l = None /\ l ∉ own j p.
Lemma own_step f s j p h : inv f s -> (j < n)%nat -> lock_step f s j p h ->
  forall l j0, h l = Some j0 <-> (j0 < n)%nat /\ l ∈ own j0 ((<[j := p]> f) j0).
Proof.
  intros HI Hj Hs l j0. pose proof (iv_own _ _ HI l) as Ho. destruct (Hs l) as [[-> Hp]|[(Hn & -> & Hp)|(Hh & -> & Hp)]].
  - destruct (decide (j = j0)) as [<-|Hne]; [by rw at_eq Hp|by rw at_ne].
  - destruct (decide (j = j0)) as [<-|Hne]; [by rw at_eq|rw at_ne //]. split; [congruence|]. intros Hj0%Ho. congruence.
  - destruct (decide (j = j0)) as [<-|Hne]; [rw at_eq|rw at_ne //]; (split; [done|]); [by intros []|]. intros Hj0%Ho. congruence.
Qed.
Lemma no_lock_step f s j p : own j p = own j (f j) -> lock_step f s j p (holder s).
Proof. intros E l. left. by rw E. Qed.
Lemma acquire_step f s j p l : holder s l = None -> own j p ≡ₚ l :: own j (f j) ->
  lock_step f s j p (<[l := Some j]> (holder s)).
Proof.
  intros Hn E l'. destruct (decide (l = l')) as [<-|Hne].
  - right. left. rw at_eq E. split_and!; [done|done|left].
  - left. rw at_ne // E elem_of_cons. split; [done|]. by split; [intros [|]|right].
Qed.
Lemma release_step f s j p l : holder s l = Some j -> own j (f j) ≡ₚ l :: own j p -> l ∉ own j p ->
  lock_step f s j p (<[l := None]> (holder s)).
Proof.
  intros Hn E Hl l'. destruct (decide (l = l')) as [<-|Hne].
  - right. right. by rw at_eq.
  - left. rw at_ne // E elem_of_cons. split; [done|]. by split; [right|intros [|]].
Qed.

(** A step that concerns no other process: the others stay where they are. *)
Lemma quiet_step f s j p s' : inv f s -> (j < n)%nat -> pc_wf j p -> lock_step f s j p (holder s') ->
  (forall i, i <> j -> sp_state s' i = sp_state s i /\ sp_chan s' i = sp_chan s i) -> sdata s' = sdata s ->
  fields p (sp_state s' j) (sp_chan s' j) ->
  (forall c, deciding p = Some c -> c (sdata s) = false) ->
  (forall c, decided p (sp_state s' j) = Some c -> c (sdata s) = false \/ decided (f j) (sp_state s j) = Some c) ->
  (forall i, i ∈ pending (f j) -> i ∈ pending p) -> inv (<[j := p]> f) s'.
Proof.
  intros HI Hj Hwf Hls Hoth Hd Hfi Hdg Hdd Hpe.
  assert (forall i, (exists j', (j' < n)%nat /\ i ∈ pending (f j')) -> exists j', (j' < n)%nat /\ i ∈ pending ((<[j := p]> f) j')) as Hmono.
  { intros i (j' & Hj' & Hi). exists j'. split; [done|]. destruct (decide (j = j')) as [<-|Hne]; [rw at_eq; by apply Hpe|by rw at_ne]. }
  split.
  - intros i Hi. destruct (decide (j = i)) as [<-|Hne]; [by rw at_eq|rw at_ne //; by apply (iv_wf _ _ HI)].
  - by apply (own_step _ s).
  - intros i Hi. destruct (decide (j = i)) as [<-|Hne]; [by rw at_eq|rw at_ne //]. destruct (Hoth i) as [-> ->]; [done|]. by apply (iv_fields _ _ HI).
  - intros i c Hi. rw Hd. destruct (decide (j = i)) as [<-|Hne]; [rw at_eq; apply Hdg|rw at_ne //; by apply (iv_deciding _ _ HI)].
  - intros i c Hi. rw Hd. destruct (decide (j = i)) as [<-|Hne].
    + rw at_eq. intros [H0|H0]%Hdd; [by left|]. destruct (iv_decided _ _ HI j c Hj H0) as [|Hp]; [by left|right; by apply Hmono].
    + rw at_ne //. destruct (Hoth i) as [-> _]; [done|]. intros H0. destruct (iv_decided _ _ HI i c Hi H0) as [|Hp]; [by left|right; by apply Hmono].
Qed.

(** A lock has one holder. *)
Lemma own_one f s l i j : inv f s -> (i < n)%nat -> (j < n)%nat -> l ∈ own i (f i) -> l ∈ own j (f j) -> i = j.
Proof.
  intros HI Hi Hj Ho1 Ho2. assert (holder s l = Some i) as H1 by by apply (iv_own _ _ HI).
  assert (holder s l = Some j) as H2 by by apply (iv_own _ _ HI). congruence.
Qed.
Lemma deciding_own i p c : deciding p = Some c -> lk ∈ own i p.
Proof. destruct p as [|[| |[|[|k]]| | | |] o r]; try done; intros _; left. Qed.
(** Without its own lock, a process that has decided to sleep is asleep. *)
Lemma decided_asleep i p st c : decided p st = Some c -> L_proc i ∉ own i p ->
  st = SLEEPING /\ forall cc, fields p st cc -> cc = Some ch.
Proof.
  destruct p as [|[| |[|[|[|[|[|[|k]]]]]]| | | |] o r]; cbn; try done; try (intros _ H; destruct H; left).
  intros H _. case_decide; [|done]. split; [done|]. by intros cc [_ ->].
Qed.

(** The change of the data: all others are going to be woken. *)
Lemma update_step f s j o r : inv f s -> (j < n)%nat -> f j = P Upd o r ->
  inv (<[j := P (W1 (others j)) o r]> f) (set_sdata (update o (sdata s)) s).
Proof.
  intros HI Hj Ef. assert (lk ∈ own j (f j)) as Hown by (rw Ef; left). split; cbn [sdata set_sdata holder sp_state sp_chan].
  - intros i Hi. destruct (decide (j = i)) as [<-|Hne]; [rw at_eq|rw at_ne //; by apply (iv_wf _ _ HI)].
    intros i' [Hi' Hs%elem_of_seq]%list_elem_of_filter. split; [lia|done].
  - apply (own_step _ s); [done|done|]. apply no_lock_step. by rw Ef.
  - intros i Hi. pose proof (iv_fields _ _ HI i Hi) as Hfi. destruct (decide (j = i)) as [<-|Hne]; [rw at_eq; by rw Ef in Hfi|by rw at_ne].
  - intros i c Hi. destruct (decide (j = i)) as [<-|Hne]; [by rw at_eq|rw at_ne //]. intros Hd%(deciding_own i).
    destruct Hne. by apply (own_one f s lk).
  - intros i c Hi. destruct (decide (j = i)) as [<-|Hne]; [by rw at_eq|rw at_ne //]. intros _. right. exists j. rw at_eq. split; [done|].
    apply list_elem_of_filter. split; [done|]. apply elem_of_seq. lia.
Qed.

(** The test of [wakeup] on entry [i]: it sleeps no longer, if it did. *)
Lemma wake_step f s j i l o r s' : inv f s -> (j < n)%nat -> f j = P (W2 i l) o r ->
  s' = (if decide (sp_state s i = SLEEPING /\ sp_chan s i = Some ch) then set_sp_state i RUNNABLE s else s) ->
  inv (<[j := P (W3 i l) o r]> f) s'.
Proof.
  intros HI Hj Ef Es'. pose proof (iv_wf _ _ HI j Hj) as Hwf. rw Ef in Hwf. destruct (Hwf i ltac:(left)) as [Hin Hij].
  assert (L_proc i ∈ own j (f j)) as Hown by (rw Ef; right; left).
  assert (L_proc i ∉ own i (f i)) as Hno by (intros Ho; apply Hij; by apply (own_one f s (L_proc i))).
  assert (holder s' = holder s /\ sdata s' = sdata s /\ sp_chan s' = sp_chan s) as (Hh & Hd & Hc) by (rw Es'; by case_decide).
  assert (forall i', i' <> i -> sp_state s' i' = sp_state s i') as Hst by (intros i' Hi'; rw Es'; case_decide; [|done]; by rw /= at_ne).
  split; rw ?Hh ?Hd ?Hc.
  - intros i' Hi'. destruct (decide (j = i')) as [<-|Hne]; [by rw at_eq|rw at_ne //; by apply (iv_wf _ _ HI)].
  - apply (own_step _ s); [done|done|]. apply no_lock_step. by rw Ef.
  - intros i' Hi'. pose proof (iv_fields _ _ HI i' Hi') as Hfi. destruct (decide (j = i')) as [<-|Hne]; [rw at_eq Hst // ; by rw Ef in Hfi|rw at_ne //].
    destruct (decide (i' = i)) as [->|Hii]; [|by rw Hst]. rw Es'. case_decide as Hsl; [|done]. rw /= at_eq. destruct Hsl as [Hsl _]. rw Hsl in Hfi.
    destruct (f i) as [|[| |[|[|[|[|[|[|k]]]]]]| | | |] o' r']; cbn in Hfi; try done; destruct Hfi as [Hfi Hcc]; try done; [destruct Hno; left|by split; [right|]].
  - intros i' c Hi'. destruct (decide (j = i')) as [<-|Hne]; [by rw at_eq|rw at_ne //; by apply (iv_deciding _ _ HI)].
  - intros i' c Hi'. destruct (decide (j = i')) as [<-|Hne]; [by rw at_eq|rw at_ne //]. intros Hdc. destruct (decide (i' = i)) as [->|Hii].
    + exfalso. destruct (decided_asleep i _ _ c Hdc Hno) as [Hs1 Hcc]. pose proof (iv_fields _ _ HI i Hin) as Hfi.
      rw Es' in Hs1 Hcc. case_decide as Hsl; [by rw /= at_eq in Hs1|]. apply Hsl. split; [done|by apply Hcc].
    + rw Hst // in Hdc. destruct (iv_decided _ _ HI i' c Hi' Hdc) as [|(j' & Hj' & Hp)]; [by left|right]. exists j'. split; [done|].
      destruct (decide (j = j')) as [<-|Hjj]; [|by rw at_ne]. rw at_eq. rw Ef in Hp. by apply elem_of_cons in Hp as [|].
Qed.

(** The locks of a step are no two of the same. *)
Ltac lock_ne := first [done | by apply not_elem_of_nil | apply not_elem_of_cons; split; [by auto|apply not_elem_of_nil] ].
(** A step of a thread that concerns no other: [p] is where it goes. *)
Ltac quiet HI Hj Ef p := exists p; split; [done|];
  eapply quiet_step; rw ?Ef; [exact HI|exact Hj|cbn; first [lia|by intros ? []%not_elem_of_nil|done]|..];
  [|cbn; intros; rw ?at_ne //|cbn; try done|cbn; rw ?at_eq; try done|cbn; try done|cbn; try done|cbn; try done].

Lemma step_sleep f s j k o r x c c' s' : inv f s -> (j < n)%nat -> f j = P (Sl k) o r ->
  code_at j (f j) = x :: c -> exec_step j x s = Some (c', s') -> exists p, c' ++ c = code_at j p /\ inv (<[j := p]> f) s'.
Proof.
  intros HI Hj Ef Hc Hx. rw Ef in Hc. pose proof (iv_wf _ _ HI j Hj) as Hwf. pose proof (iv_fields _ _ HI j Hj) as Hfi.
  pose proof (fun c => iv_deciding _ _ HI j c Hj) as Hdg. rw Ef in Hwf Hfi Hdg. cbn in Hwf.
  destruct k as [|[|[|[|[|[|[|[|[|k]]]]]]]]]; [..|lia]; cbn in Hc; injection Hc as <- <-; cbn in Hx; try case_decide as Hh; simplify_eq.
  - quiet HI Hj Ef (P (Sl 1) o r). apply acquire_step; [done|]. rw Ef. apply Permutation_swap.
  - quiet HI Hj Ef (P (Sl 2) o r); [|by left; apply Hdg]. apply release_step; [done|by rw Ef|]. by apply not_elem_of_cons; split; [apply Hlk|apply not_elem_of_nil].
  - quiet HI Hj Ef (P (Sl 3) o r); [|by right]. apply (no_lock_step f s). by rw Ef.
  - quiet HI Hj Ef (P (Sl 4) o r); [|by destruct Hfi|by right]. apply (no_lock_step f s). by rw Ef.
  - destruct Hfi as [Hst Hcc]. quiet HI Hj Ef (P (Sl 5) o r); [|by split; [left|]|by rw Hst; right].
    apply release_step; [done|by rw Ef|apply not_elem_of_nil].
  - destruct Hh as [Hh _]. quiet HI Hj Ef (P (Sl 6) o r). apply (acquire_step f s); [done|by rw Ef].
  - quiet HI Hj Ef (P (Sl 7) o r). apply (no_lock_step f s). by rw Ef.
  - quiet HI Hj Ef (P (Sl 8) o r). apply release_step; [done|by rw Ef|apply not_elem_of_nil].
  - quiet HI Hj Ef (P Test o r). apply acquire_step; [done|by rw Ef].
Qed.

(** Every step of a thread leads from a program point to a program point. *)
Lemma step_inv f s j x c c' s' : inv f s -> (j < n)%nat -> code_at j (f j) = x :: c -> exec_step j x s = Some (c', s') ->
  exists p, c' ++ c = code_at j p /\ inv (<[j := p]> f) s'.
Proof.
  intros HI Hj Hc Hx. destruct (f j) as [|[| |k| |[|i l]|i l|i l] o r] eqn:Ef; [done|..].
  3: by eapply step_sleep; rw ?Ef.
  all: pose proof (iv_wf _ _ HI j Hj) as Hwf; pose proof (iv_fields _ _ HI j Hj) as Hfi; rw Ef in Hwf Hfi;
    cbn in Hc; injection Hc as <- <-; cbn in Hx; try case_decide as Hh; simplify_eq.
  - quiet HI Hj Ef (P Test o r). apply acquire_step; [done|by rw Ef].
  - destruct (wait_for o (sdata s')) eqn:Ew; [quiet HI Hj Ef (P Upd o r)|quiet HI Hj Ef (P (Sl 0) o r); [|by intros c [= <-]]];
      apply (no_lock_step f s'); by rw Ef.
  - exists (P (W1 (others j)) o r). split; [done|]. by apply update_step.
  - rw -code_start. destruct r as [|o' r]; [quiet HI Hj Ef Done|quiet HI Hj Ef (P Lock o' r)];
      (apply release_step; [done|by rw Ef|apply not_elem_of_nil]).
  - quiet HI Hj Ef (P (W2 i l) o r). apply acquire_step; [done|]. rw Ef. apply Permutation_swap.
  - exists (P (W3 i l) o r). split; [done|]. apply (wake_step f s j i l o r); [done..|]. by rw decide_True.
  - exists (P (W3 i l) o r). split; [done|]. apply (wake_step f s' j i l o r); [done..|]. by rw decide_False.
  - exists (P (W1 l) o r). split; [done|]. eapply quiet_step; rw ?Ef; try done.
    + intros i' Hi'. apply Hwf. by right.
    + apply release_step; [done|rw Ef; apply Permutation_swap|]. cbn. by apply not_elem_of_cons; split; [intros ?; by destruct (Hlk i)|apply not_elem_of_nil].
Qed.

(** ** All interleavings *)

(** Every thread is at a program point. *)
Definition at_points (f : nat -> pc) (c : conf) : Prop :=
  length (threads c) = n /\ forall j, (j < n)%nat -> threads c !! j = Some (code_at j (f j)).
Definition consistent (c : conf) : Prop := exists f, at_points f c /\ inv f (shared c).

Lemma consistent_step c c' : consistent c -> mstep c c' -> consistent c'.
Proof.
  intros (f & [Hlen Hat] & HI) Hs. destruct Hs as [s ts j x c0 c' s' Hj Hx]. cbn in *.
  assert (j < n)%nat as Hjn by (rw -Hlen; by eapply lookup_lt_Some). rw Hat // in Hj. injection Hj as Hj.
  destruct (step_inv f s j x c0 c' s' HI Hjn Hj Hx) as (p & Ep & HI'). exists (<[j := p]> f). split; [|done].
  split; cbn; [by rw length_insert|]. intros i Hi. destruct (decide (j = i)) as [<-|Hne].
  - rw list_lookup_insert_eq; [|lia]. by rw at_eq Ep.
  - rw list_lookup_insert_ne // at_ne //. by apply Hat.
Qed.
Lemma consistent_steps c c' : rtc mstep c c' -> consistent c -> consistent c'.
Proof. induction 1 as [|? ? ? Hs _ IH]; [done|]. intros H0. apply IH. by eapply consistent_step. Qed.

(** All locks free, all processes running, at the start of their programs. *)
Definition starts (s : smp) : Prop := (forall l, holder s l = None) /\ forall j, sp_state s j = RUNNING.
Lemma consistent_start s (progs : list (list op)) : starts s -> length progs = n -> consistent (Conf s (imap program progs)).
Proof.
  intros [Hh Hr] Hlen. exists (fun j => start_pc (default [] (progs !! j))). split.
  - split; cbn; [by rw length_imap|]. intros j Hj. rw list_lookup_imap code_start.
    destruct (lookup_lt_is_Some_2 progs j) as [ops ->]; [lia|done].
  - assert (forall ops j, pc_wf j (start_pc ops) /\ own j (start_pc ops) = [] /\ fields (start_pc ops) RUNNING (sp_chan s j) /\
      deciding (start_pc ops) = None /\ decided (start_pc ops) RUNNING = None) as Hst by (intros [|o r] j; by split_and!; [intros ? []%not_elem_of_nil|..]).
    split; intros; destruct (Hst (default [] (progs !! j)) j) as (H1 & H2 & H3 & H4 & H5); [done| |by rw Hr|congruence|rw Hr in H0; congruence].
    rw Hh H2. split; [done|]. by intros [_ []%not_elem_of_nil].
Qed.

(** What a thread that cannot go on waits for. *)
Definition blocked (j : nat) (p : pc) (s : smp) : Prop :=
  match p with
  | P Lock _ _ | P (Sl 8) _ _ => holder s lk <> None
  | P (Sl 0) _ _ => holder s (L_proc j) <> None
  | P (Sl 5) _ _ => holder s (L_proc j) <> None \/ sp_state s j = SLEEPING
  | P (W1 (i :: _)) _ _ => holder s (L_proc i) <> None
  | _ => False
  end.
Definition can_go (j : nat) (code : list instr) (s : smp) : Prop :=
  match code with [] => False | x :: _ => is_Some (exec_step j x s) end.

Lemma goes_or_blocked f s j : inv f s -> (j < n)%nat -> f j = Done \/ can_go j (code_at j (f j)) s \/ blocked j (f j) s.
Proof.
  intros HI Hj. pose proof (iv_wf _ _ HI j Hj) as Hwf. pose proof (iv_fields _ _ HI j Hj) as Hfi.
  assert (forall l, l ∈ own j (f j) -> holder s l = Some j) as Hown by (intros l Hl; by apply (iv_own _ _ HI)).
  destruct (f j) as [|[| |[|[|[|[|[|[|[|[|[|k]]]]]]]]]| |[|i l]|i l|i l] o r]; cbn in *; try lia; [by left|right..]; try (left; by eexists).
  all: try (case_decide; [left; by eexists|right; done]).
  all: try (left; rw Hown; [rw decide_True //; by eexists|by repeat constructor]).
  case_decide as Hd; [left; by eexists|right]. destruct Hfi as [[Hs|Hs] _]; [by right|left]. intros Hn. by apply Hd.
Qed.

(** A process that sleeps while the lock is free waits for a condition that is false. *)
Lemma pending_own j p i : i ∈ pending p -> lk ∈ own j p.
Proof. destruct p as [|[| |k| |l|i' l|i' l] o r]; cbn; try by intros []%not_elem_of_nil. all: intros _; left. Qed.
Lemma asleep_false f s j o r : inv f s -> (j < n)%nat -> f j = P (Sl 5) o r -> sp_state s j = SLEEPING -> holder s lk = None ->
  wait_for o (sdata s) = false.
Proof.
  intros HI Hj Ef Hs Hfree. destruct (iv_decided _ _ HI j (wait_for o) Hj) as [|(j' & Hj' & Hp)]; [|done|].
  - by rw Ef /= decide_True.
  - assert (holder s lk = Some j') by (apply (iv_own _ _ HI); split; [done|by eapply pending_own]). congruence.
Qed.
Lemma waits_at f c j cond : at_points f c -> inv f (shared c) -> waits c j cond ->
  (j < n)%nat /\ exists o r, f j = P (Sl 5) o r /\ cond = wait_for o.
Proof.
  intros [Hlen Hat] HI [Hs (rest & Ht)]. assert (j < n)%nat as Hj by (rw -Hlen; by eapply lookup_lt_Some). split; [done|].
  pose proof (iv_fields _ _ HI j Hj) as Hfi. rw Hat // in Ht. rw Hs in Hfi.
  destruct (f j) as [|[| |[|[|[|[|[|[|k]]]]]]| | | |] o r]; cbn in Hfi, Ht; try done; try by destruct Hfi.
  rw /at_test in Ht. exists o, r. split; [done|]. congruence.
Qed.

(** When no thread can go on, no lock is held and all threads that have not
    ended sleep. *)
Lemma stuck_free f s : inv f s -> (forall j, (j < n)%nat -> ~ can_go j (code_at j (f j)) s) ->
  (forall i, holder s (L_proc i) = None) /\ holder s lk = None.
Proof.
  intros HI Hstuck.
  assert (forall i, holder s (L_proc i) = None) as Hp.
  { intros i. destruct (holder s (L_proc i)) as [j|] eqn:Eh; [exfalso|done]. apply (iv_own _ _ HI) in Eh as [Hj Hl].
    destruct (goes_or_blocked f s j HI Hj) as [E|[E|E]]; [rw E in Hl; by apply not_elem_of_nil in Hl|by apply (Hstuck j)|].
    destruct (f j) as [|[| |[|[|[|[|[|[|[|[|[|k]]]]]]]]]| |[|i' l]|i' l|i' l] o r]; cbn in *; try done; try by apply not_elem_of_nil in Hl.
    all: apply list_elem_of_singleton in Hl; by destruct (Hlk i). }
  split; [done|]. destruct (holder s lk) as [j|] eqn:Eh; [exfalso|done]. pose proof Eh as [Hj Hl]%(iv_own _ _ HI).
  destruct (goes_or_blocked f s j HI Hj) as [E|[E|E]]; [rw E in Hl; by apply not_elem_of_nil in Hl|by apply (Hstuck j)|].
  destruct (f j) as [|[| |[|[|[|[|[|[|[|[|[|k]]]]]]]]]| |[|i' l]|i' l|i' l] o r]; cbn in *; try done; try by apply not_elem_of_nil in Hl.
  all: apply E, Hp.
Qed.
Lemma progress f c : at_points f c -> inv f (shared c) ->
  (exists c', mstep c c') \/
  forall j code, threads c !! j = Some code -> code = [] \/ exists cond, waits c j cond /\ cond (sdata (shared c)) = false.
Proof.
  destruct c as [s ts]. intros [Hlen Hat] HI. cbn in *.
  destruct (decide (Exists (fun j => is_Some (x ← ts !! j; y ← head x; exec_step j y s)) (seq 0 n))) as [He|He].
  { left. apply Exists_exists in He as (j & _ & [[c' s'] Hx]). destruct (ts !! j) as [[|x c]|] eqn:Et; try done. eexists. by apply (mstep_thread s ts j x c c' s'). }
  right. assert (forall j, (j < n)%nat -> ~ can_go j (code_at j (f j)) s) as Hstuck.
  { intros j Hj Hg. apply He, Exists_exists. exists j. split; [apply elem_of_seq; lia|]. rw Hat //=. by destruct (code_at j (f j)). }
  destruct (stuck_free f s HI Hstuck) as [Hp Hfree]. intros j code Hc. assert (j < n)%nat as Hj by (rw -Hlen; by eapply lookup_lt_Some).
  rw Hat // in Hc. injection Hc as <-. destruct (goes_or_blocked f s j HI Hj) as [E|[E|E]]; [left; by rw E|by destruct (Hstuck j)|right].
  destruct (f j) as [|[| |[|[|[|[|[|[|[|[|[|k]]]]]]]]]| |[|i' l]|i' l|i' l] o r] eqn:Ef; cbn in E; try done;
    try (by destruct (E Hfree)); try (by destruct (E (Hp _))).
  destruct E as [E|E]; [by destruct (E (Hp _))|]. exists (wait_for o). split; [|by eapply asleep_false]. split; [done|]. cbn. rw Hat // Ef. by eexists.
Qed.
End smp.

(** ** Main property *)

(** C21: no wakeup is lost.  Any number of processes run critical sections on
    harts of their own: under [lk], wait with [sleep(ch, lk)] in a loop until a
    condition on the protected data holds, change the data, [wakeup(ch)].
    However their accesses interleave, a process that sleeps while [lk] is free
    waits for a condition that is false at that moment (so it slept through no
    change that made it true); and the processes are never stuck: as long as
    some process has not ended, one can make a step, or all that have not ended
    sleep and wait for conditions that are false. *)
Theorem no_lost_wakeup {D} lk ch (s : smp (D := D)) (progs : list (list op)) c :
  (forall i, lk <> L_proc i) -> starts s -> rtc mstep (Conf s (imap (program lk ch (length progs)) progs)) c ->
  (forall j cond, waits lk ch c j cond -> holder (shared c) lk = None -> cond (sdata (shared c)) = false) /\
  ((exists c', mstep c c') \/
   forall j code, threads c !! j = Some code -> code = [] \/ exists cond, waits lk ch c j cond /\ cond (sdata (shared c)) = false).
Proof.
  intros Hlk Hs Hrtc. assert (consistent lk ch (length progs) c) as (f & Hat & HI)
    by (eapply consistent_steps; [done|exact Hrtc|by apply consistent_start]). split.
  - intros j cond Hw Hfree. destruct (waits_at _ _ _ f c j cond Hat HI Hw) as (Hj & o & r & Ef & ->).
    by eapply (asleep_false lk ch (length progs) f); [..|apply Hw|].
  - by eapply (progress _ _ _ Hlk f).
Qed.

(** ** A consumer and a producer *)

(** The interleaving chosen by a list of thread numbers; a thread that cannot
    go on is skipped. *)
Fixpoint run_threads {D} (l : list nat) (c : conf (D := D)) : conf :=
  match l with
  | [] => c
  | j :: l' => run_threads l' (
      match threads c !! j with
      | Some (x :: k) =>
        match exec_step j x (shared c) with Some (k', s') => Conf s' (<[j := k' ++ k]> (threads c)) | None => c end
      | _ => c
      end)
  end.
Lemma run_threads_rtc {D} l (c : conf (D := D)) : rtc mstep c (run_threads l c).
Proof.
  revert c. induction l as [|j l IH]; intros [s ts]; cbn; [done|].
  destruct (ts !! j) as [[|x k]|] eqn:Et; try apply IH. destruct (exec_step j x s) as [[k' s']|] eqn:Ex; [|apply IH].
  eapply rtc_l; [|apply IH]. by apply (mstep_thread s ts j x k k' s').
Qed.

(** Process 0 waits for an item and takes it, process 1 makes one. *)
Definition smp0 : smp (D := nat) := SmpState (fun _ => None) (fun _ => RUNNING) (fun _ => None) 0%nat.
Definition items0 : list (list (op (D := nat))) := [[Op (fun x => bool_decide (x <> 0)%nat) Nat.pred]; [Op (fun _ => true) S]].
Definition conf0 : conf := Conf smp0 (imap (program L_ticks Ch_ticks 2) items0).
(** The consumer sleeps; the producer makes its item while the consumer is
    asleep; then both run to the end. *)
Definition asleep0 : conf := run_threads (replicate 7 0%nat) conf0.
Definition ended0 : conf := run_threads (replicate 9 1%nat ++ replicate 12 0%nat) asleep0.

Lemma no_lost_wakeup_witness :
  (holder (shared asleep0) L_ticks = None /\
   exists cond, waits L_ticks Ch_ticks asleep0 0 cond /\ cond (sdata (shared asleep0)) = false) /\
  threads ended0 = [[]; []] /\ sdata (shared ended0) = 0%nat.
Proof.
  split; [|by vm_compute]. split; [by vm_compute|]. exists (fun x => bool_decide (x <> 0)%nat).
  assert (waits L_ticks Ch_ticks asleep0 0 (fun x => bool_decide (x <> 0)%nat)) as Hw.
  { split; [by vm_compute|]. eexists. reflexivity. }
  split; [exact Hw|]. destruct (no_lost_wakeup L_ticks Ch_ticks smp0 items0 asleep0) as [H _].
  - done.
  - done.
  - exact (run_threads_rtc (replicate 7 0%nat) conf0).
  - exact (H 0%nat _ Hw eq_refl).
Defined.
