(* ===== verification/BioInv.v ===== *)
(** * The buffer cache: invariant and effect of its operations

    [vw s] is the cache without the links of the list; the links themselves
    ([lru]) are a circular doubly linked list over all buffers.  The operations
    are specified on the view, so their clients never see the links. *)

From S2P Require Import Prelude Mem KString Spinlock Machine Kalloc Printf Vm KState Proc ProcInv FsFmt Sleeplock Bio.

(** ** The context of an uncontended operation *)

(** Process [me] runs and no spin lock is held. *)
Record calm (me : nat) (pid : Z) (s : kstate) : Prop := {
  cm_cur : cur s = Some me;
  cm_len : length (procs s) = NPROC;
  cm_me : exists p, procs s !! me = Some p /\ p_pid p = pid;
  cm_lk : lk_ok (klk s);
  cm_free : locks (klk s) = [];
  cm_noff : noff (klk s) = 0;
}.

Lemma calm_lock me pid s k : calm me pid s -> can_lock k s.
Proof. intros [_ _ _ Hok Hf _]. split; [done|]. apply locked_false. rw Hf. apply not_elem_of_nil. Qed.
Lemma calm_unlocked me pid s k k' : calm me pid s -> k <> k' -> locked k (lk_acq k' (klk s)) = false.
Proof. intros Hc Hk. rw locked_acq_ne //. apply (calm_lock _ _ _ _ Hc). Qed.

(** [calm] depends on these parts of the state only. *)
Lemma calm_ext me pid s s' :
  calm me pid s -> cur s' = cur s -> klk s' = klk s ->
  (procs s' = procs s \/ exists ch, procs s' = imap (woken (Some me) ch) (procs s)) -> calm me pid s'.
Proof.
  intros [H1 H2 H3 H4 H5 H6] Hc Hk Hp. split; rw ?Hc ?Hk //.
  - destruct Hp as [-> |[ch ->]]; [done|by rw length_imap].
  - destruct H3 as (p & Hpl & Hpid). destruct Hp as [-> |[ch ->]]; [by exists p|].
    exists (woken (Some me) ch me p). rw list_lookup_imap Hpl /=. split; [done|].
    rw /woken. by case_bool_decide.
Qed.

Section runs.
Context {lay : Layout}.
Implicit Types (s : kstate).

Lemma getb_run {A} b x (f : buf -> A) s n : bcache s !! b = Some x -> getb b f n s = Ok (f x) s.
Proof.
  intros Hx. rw /getb /mbind /K_bind /= /arr_get (proj2 (Z.ltb_ge _ _)); [|lia].
  by rw Nat2Z.id Hx.
Qed.
Lemma setb_run b x f s n :
  bcache s !! b = Some x -> setb b f n s = Ok tt (set_bcache (<[b := f x]> (bcache s)) s).
Proof. intros Hx. by rw /setb /modify (alter_insert f _ b x). Qed.
Lemma geti_run {A} i x (f : inode -> A) s n : icache s !! i = Some x -> geti i f n s = Ok (f x) s.
Proof.
  intros Hx. rw /geti /mbind /K_bind /= /arr_get (proj2 (Z.ltb_ge _ _)); [|lia].
  by rw Nat2Z.id Hx.
Qed.
Lemma seti_run i x f s n :
  icache s !! i = Some x -> seti i f n s = Ok tt (set_icache (<[i := f x]> (icache s)) s).
Proof. intros Hx. by rw /seti /modify (alter_insert f _ i x). Qed.

(** ** Sleep locks *)

Definition slock (l : sleeplockid) s : option sleeplock :=
  match l with
  | SL_buf b => b_lock <$> bcache s !! b
  | SL_inode i => i_lock <$> icache s !! i
  end.
Definition put_slock (l : sleeplockid) (v : sleeplock) s : kstate :=
  match l with
  | SL_buf b => set_bcache (alter (set_b_lock v) b (bcache s)) s
  | SL_inode i => set_icache (alter (set_i_lock v) i (icache s)) s
  end.

Lemma getsl_run {A} l v (f : sleeplock -> A) s n : slock l s = Some v -> getsl l f n s = Ok (f v) s.
Proof.
  destruct l as [b|i]; simpl; intros (x & Hx & ->)%fmap_Some.
  - by rw /getsl (getb_run b x).
  - by rw /getsl (geti_run i x).
Qed.
Lemma setsl_run l v f s n : slock l s = Some v -> setsl l f n s = Ok tt (put_slock l (f v) s).
Proof.
  destruct l as [b|i]; simpl; intros (x & Hx & ->)%fmap_Some.
  - by rw (setb_run b x) // (alter_insert _ _ b x).
  - by rw (seti_run i x) // (alter_insert _ _ i x).
Qed.
Lemma slock_put l v w s : slock l s = Some v -> slock l (put_slock l w s) = Some w.
Proof.
  destruct l as [b|i]; simpl; intros (x & Hx & _)%fmap_Some.
  - by rw (alter_insert _ _ b x) // list_lookup_insert_eq //; apply lookup_lt_Some in Hx.
  - by rw (alter_insert _ _ i x) // list_lookup_insert_eq //; apply lookup_lt_Some in Hx.
Qed.
Lemma put_put_slock l v w s : put_slock l v (put_slock l w s) = put_slock l v s.
Proof.
  destruct l; rw /put_slock /set_bcache /set_icache /= list_alter_alter_eq; f_equal;
    apply list_alter_ext; by intros [].
Qed.
Lemma put_slock_klk l v x s : put_slock l v (set_klk x s) = set_klk x (put_slock l v s).
Proof. by destruct l. Qed.
Lemma klk_put_slock l v s : klk (put_slock l v s) = klk s.
Proof. by destruct l. Qed.
Lemma cur_put_slock l v s : cur (put_slock l v s) = cur s.
Proof. by destruct l. Qed.
Lemma procs_put_slock l v s : procs (put_slock l v s) = procs s.
Proof. by destruct l. Qed.
Lemma slock_klk l x s : slock l (set_klk x s) = slock l s.
Proof. by destruct l. Qed.

Lemma sl_lk_proc l i : L_proc i <> sl_lk l.
Proof. by destruct l. Qed.

Lemma acquiresleep_run me pid l v s n :
  calm me pid s -> slock l s = Some v -> sl_locked v = false -> (0 < n)%nat ->
  acquiresleep l n s = Ok tt (put_slock l (Sleeplock true pid) s).
Proof.
  intros Hc Hv Hf Hn. destruct (cm_me _ _ _ Hc) as (p & Hp & Hpid).
  rw /acquiresleep /mbind /K_bind (acquire_k s (sl_lk l) n (calm_lock _ _ _ _ Hc)) /=.
  set (s1 := set_klk _ s). assert (slock l s1 = Some v) as Hv1 by by rw slock_klk.
  rw /loop. destruct n as [|n]; [lia|]. simpl. rw /mbind /K_bind (getsl_run l v) // Hf /=.
  rw (setsl_run l v) //=.
  assert (lk_ok (lk_acq (sl_lk l) (klk s))) as Hok.
  { apply lk_acq_ok; [apply (cm_lk _ _ _ Hc)|]. apply (calm_lock _ _ _ _ Hc). }
  rw myproc_run; [|by rw klk_put_slock]. simpl. rw cur_put_slock /= (cm_cur _ _ _ Hc) /=.
  rw (getp_run _ me p); [|by rw procs_put_slock]. simpl.
  rw (setsl_run l (set_sl_locked true v)); [|by eapply slock_put]. simpl.
  rw (release_acquired s); [|by apply (calm_lock _ _ _ _ Hc)|by rw !klk_put_slock].
  rw put_put_slock /s1 -put_slock_klk set_klk_back Hpid. by destruct v.
Qed.

Lemma releasesleep_run me pid l v s n :
  calm me pid s -> slock l s = Some v ->
  releasesleep l n s = Ok tt (set_procs (imap (woken (Some me) (Ch_sleeplock l)) (procs s))
                               (put_slock l (Sleeplock false 0) s)).
Proof.
  intros Hc Hv.
  rw /releasesleep /mbind /K_bind (acquire_k s (sl_lk l) n (calm_lock _ _ _ _ Hc)) /=.
  set (s1 := set_klk _ s). assert (slock l s1 = Some v) as Hv1 by by rw slock_klk.
  rw (setsl_run l v) //= (setsl_run l (set_sl_locked false v)); [|by eapply slock_put]. simpl.
  assert (lk_ok (lk_acq (sl_lk l) (klk s))) as Hok.
  { apply lk_acq_ok; [apply (cm_lk _ _ _ Hc)|]. apply (calm_lock _ _ _ _ Hc). }
  rw wakeup_run; last first.
  { rw !procs_put_slock. apply (cm_len _ _ _ Hc). }
  { intros i Hi _. rw !klk_put_slock. apply (calm_unlocked _ _ _ _ _ Hc), sl_lk_proc. }
  { by rw !klk_put_slock. }
  simpl. rw (release_acquired s); [|by apply (calm_lock _ _ _ _ Hc)|].
  2:{ transitivity (klk (put_slock l (set_sl_pid 0 (set_sl_locked false v)) (put_slock l (set_sl_locked false v) s1))); [done|].
      by rw !klk_put_slock. }
  rw put_put_slock !cur_put_slock !procs_put_slock /s1 put_slock_klk.
  replace (set_sl_pid 0 (set_sl_locked false v)) with (Sleeplock false 0) by by destruct v.
  f_equal. rw -{1}(klk_put_slock l (Sleeplock false 0) s) set_klk_procs.
  change (cur (set_klk _ s)) with (cur s). by rw (cm_cur _ _ _ Hc).
Qed.

Lemma holdingsleep_run me pid l s n :
  calm me pid s -> slock l s = Some (Sleeplock true pid) -> holdingsleep l n s = Ok true s.
Proof.
  intros Hc Hv. destruct (cm_me _ _ _ Hc) as (p & Hp & Hpid).
  rw /holdingsleep /mbind /K_bind (acquire_k s (sl_lk l) n (calm_lock _ _ _ _ Hc)) /=.
  set (s1 := set_klk _ s). assert (slock l s1 = Some (Sleeplock true pid)) as Hv1 by by rw slock_klk.
  rw (getsl_run l (Sleeplock true pid)) //= (getsl_run l (Sleeplock true pid)) //=.
  assert (lk_ok (lk_acq (sl_lk l) (klk s))) as Hok.
  { apply lk_acq_ok; [apply (cm_lk _ _ _ Hc)|]. apply (calm_lock _ _ _ _ Hc). }
  rw myproc_run //=. rw (cm_cur _ _ _ Hc) /= (getp_run _ me p) //= Hpid Z.eqb_refl.
  rw (release_acquired s) //=; [|by apply (calm_lock _ _ _ _ Hc)]. by rw set_klk_back.
Qed.

End runs.

#[global] Opaque setb seti getb geti acquiresleep releasesleep holdingsleep.

(** ** The links *)

(** Consecutive elements point at each other. *)
Fixpoint chain (nx pv : nat -> nat) (l : list nat) : Prop :=
  match l with
  | a :: (b :: _) as r => nx a = b /\ pv b = a /\ chain nx pv r
  | _ => True
  end.

Lemma chain_app nx pv l a r : chain nx pv (l ++ a :: r) <-> chain nx pv (l ++ [a]) /\ chain nx pv (a :: r).
Proof.
  induction l as [|x l IH]; simpl; [tauto|].
  destruct l as [|y l]; simpl in *; [tauto|]. rw IH. tauto.
Qed.
Lemma chain_ext nx pv nx' pv' l a r :
  l ++ [a] = r -> (forall x, x ∈ l -> nx' x = nx x) -> (forall x, x ∈ tail r -> pv' x = pv x) ->
  chain nx pv r -> chain nx' pv' r.
Proof.
  intros <-. induction l as [|x l IH]; simpl; [done|]. intros Hn Hp.
  destruct l as [|y l]; simpl in *.
  - rw Hn; [|left]. rw Hp; [|left]. tauto.
  - rw Hn; [|left]. rw Hp; [|left]. intros (H1 & H2 & H3). split_and!; [done..|].
    apply IH; [| |done]; intros z Hz; [apply Hn|apply Hp]; by right.
Qed.

Definition fupd (f : nat -> nat) (a v : nat) : nat -> nat := fun x => if decide (x = a) then v else f x.
Lemma fupd_eq f a v : fupd f a v a = v.
Proof. by rw /fupd decide_True. Qed.
Lemma fupd_ne f a v x : x <> a -> fupd f a v x = f x.
Proof. intros Hx. by rw /fupd decide_False. Qed.

(** Taking [b] out of the list. *)
Lemma chain_unlink nx pv h b pre post :
  NoDup (h :: pre ++ b :: post) -> chain nx pv (h :: pre ++ b :: post ++ [h]) ->
  chain (fupd nx (pv b) (nx b)) (fupd pv (nx b) (pv b)) (h :: pre ++ post ++ [h]).
Proof.
  intros Hnd Hch. change (h :: pre ++ b :: post ++ [h]) with ((h :: pre) ++ b :: post ++ [h]) in Hch.
  apply chain_app in Hch as [Hl Hr].
  destruct (exists_last (l := h :: pre)) as (P & pb & EP); [done|].
  destruct (post ++ [h]) as [|nb Q] eqn:EQ; [by destruct post|].
  rw EP -app_assoc /= in Hl. apply chain_app in Hl as [Hl (Hnp & Hpv & _)].
  destruct Hr as (Hnb & Hpb & Hr). rw Hnb Hpv.
  change (h :: pre ++ nb :: Q) with ((h :: pre) ++ nb :: Q). rw EP -app_assoc /=.
  assert (pre = tail (P ++ [pb])) as Epre by by rw -EP.
  assert (forall x, x ∈ h :: pre -> x ∈ post -> False) as Hd1.
  { intros x Hx Hx'. apply NoDup_app with (l := h :: pre) (k := b :: post) in Hnd as (_ & Hd & _).
    apply (Hd x Hx). by right. }
  assert (NoDup (h :: pre)) as Hndp.
  { apply NoDup_app with (l := h :: pre) (k := b :: post) in Hnd as (? & _). done. }
  assert (NoDup (post ++ [h])) as Hndq.
  { apply NoDup_cons in Hnd as [Hh Hnd]. apply NoDup_app in Hnd as (_ & _ & Hnd%NoDup_cons).
    apply NoDup_app. split_and!; [tauto| |apply NoDup_singleton].
    intros x Hx ->%list_elem_of_singleton. apply Hh. apply elem_of_app. right. by right. }
  apply chain_app. split.
  - eapply chain_ext; [reflexivity| | |exact Hl].
    + intros x Hx. rw fupd_ne //. intros ->. rw EP in Hndp. apply NoDup_app in Hndp as (_ & Hd & _).
      apply (Hd pb Hx). by left.
    + intros x Hx. rw -Epre in Hx. rw fupd_ne //. intros ->.
      assert (nb ∈ post ++ [h]) as Hn by (rw EQ; left).
      apply elem_of_app in Hn as [Hn|Hn%list_elem_of_singleton]; [eapply Hd1; [by right|done]|].
      rw Hn in Hx. by apply NoDup_cons in Hndp as [? _].
  - split_and!; [apply fupd_eq..|].
    eapply (chain_ext _ _ _ _ post h); [done| | |done].
    + intros x Hx. rw fupd_ne //. intros ->. apply (Hd1 pb); [|done]. rw EP elem_of_app. right. by left.
    + intros x Hx. rw fupd_ne //. intros ->. rw EQ in Hndq. by apply NoDup_cons in Hndq as [? _].
Qed.

(** Putting [b] behind the head. *)
Lemma chain_link nx pv h b l :
  NoDup (h :: l) -> b ∉ h :: l -> chain nx pv (h :: l ++ [h]) ->
  chain (fupd (fupd nx b (nx h)) h b) (fupd (fupd pv b h) (nx h) b) (h :: b :: l ++ [h]).
Proof.
  intros Hnd Hb Hch. apply not_elem_of_cons in Hb as [Hbh Hbl].
  destruct (l ++ [h]) as [|h1 Q] eqn:EQ; [by destruct l|].
  destruct Hch as (Hn & Hp & Hch). rw Hn.
  assert (b ∉ h1 :: Q) as Hb1.
  { rw -EQ elem_of_app. intros [?|?%list_elem_of_singleton]; done. }
  apply not_elem_of_cons in Hb1 as [Hbh1 HbQ].
  assert (NoDup (h1 :: Q)) as Hnd1.
  { rw -EQ. apply NoDup_cons in Hnd as [? ?]. apply NoDup_app. split_and!; [done| |apply NoDup_singleton].
    by intros x Hx ->%list_elem_of_singleton. }
  apply NoDup_cons in Hnd1 as [Hh1Q _]. apply NoDup_cons in Hnd as [Hhl _].
  change (chain ?f ?g (h :: b :: h1 :: Q)) with
    (f h = b /\ g b = h /\ f b = h1 /\ g h1 = b /\ chain f g (h1 :: Q)).
  rw fupd_eq (fupd_ne _ h1 b b) // fupd_eq (fupd_ne _ h b b) // fupd_eq fupd_eq. split_and!; [done..|].
  eapply (chain_ext _ _ _ _ l h); [done| | |done].
  - intros x Hx. rw !fupd_ne //; by intros ->.
  - simpl. intros x Hx. rw !fupd_ne //; by intros ->.
Qed.

Lemma chain_move nx pv h b pre post :
  NoDup (h :: pre ++ b :: post) -> chain nx pv (h :: pre ++ b :: post ++ [h]) ->
  let nx1 := fupd nx (pv b) (nx b) in let pv1 := fupd pv (nx b) (pv b) in
  chain (fupd (fupd nx1 b (nx1 h)) h b) (fupd (fupd pv1 b h) (nx1 h) b) (h :: b :: pre ++ post ++ [h]).
Proof.
  intros Hnd Hch nx1 pv1. pose proof (chain_unlink _ _ _ _ _ _ Hnd Hch) as H1.
  apply NoDup_cons in Hnd as [Hh Hnd]. apply NoDup_app in Hnd as (Hp & Hd & [Hb Hpost]%NoDup_cons).
  rw not_elem_of_app not_elem_of_cons in Hh.
  rw app_assoc. apply chain_link; [| |by rw -app_assoc].
  - apply NoDup_cons. split; [rw not_elem_of_app; tauto|]. apply NoDup_app. split_and!; [done| |done].
    intros x Hx Hx'. apply (Hd x Hx). by right.
  - rw not_elem_of_cons not_elem_of_app. split_and!; [intros ->; tauto| |done].
    intros Hx. apply (Hd b Hx). by left.
Qed.

Lemma chain_next nx pv l b r h : chain nx pv (l ++ b :: r ++ [h]) -> nx b = hd h r.
Proof. intros [_ H]%chain_app. destruct r as [|c r]; simpl in H; tauto. Qed.
Lemma chain_prev nx pv h l b r : chain nx pv (h :: l ++ b :: r) -> pv b = hd h (rev l).
Proof.
  destruct l as [|x l _] using rev_ind; [simpl; tauto|].
  rw rev_app_distr -app_assoc. intros H.
  change (h :: l ++ [x] ++ b :: r) with ((h :: l) ++ x :: b :: r) in H.
  apply chain_app in H as [_ H]. simpl in H. tauto.
Qed.
Lemma chain_pw nx pv nx' pv' l :
  (forall x, x ∈ l -> nx' x = nx x /\ pv' x = pv x) -> chain nx pv l -> chain nx' pv' l.
Proof.
  induction l as [|a l IH]; [done|]. destruct l as [|b l]; [done|]. intros He (H1 & H2 & H3).
  split_and!.
  - rw (proj1 (He a ltac:(left))) //.
  - rw (proj2 (He b ltac:(right; left))) //.
  - apply IH; [|done]. intros x Hx. apply He. by right.
Qed.

Definition fnx (bc : list buf) (i : nat) : nat := default O (b_next <$> bc !! i).
Definition fpv (bc : list buf) (i : nat) : nat := default O (b_prev <$> bc !! i).

(** The cache as a circular list: [order] is most recently used first. *)
Definition lru (bc : list buf) (order : list nat) : Prop :=
  length bc = S NBUF /\ order ≡ₚ seq 0 NBUF /\ chain (fnx bc) (fpv bc) (bhead :: order ++ [bhead]).

Lemma lru_lookup bc order b : lru bc order -> b ∈ bhead :: order -> exists x, bc !! b = Some x.
Proof.
  intros (Hl & Hp & _) Hb. apply lookup_lt_is_Some. rw Hl.
  apply elem_of_cons in Hb as [-> |Hb]; [rw /bhead; lia|]. rw Hp elem_of_seq in Hb. lia.
Qed.
Lemma lru_nodup bc order : lru bc order -> NoDup (bhead :: order).
Proof.
  intros (_ & Hp & _). apply NoDup_cons. split; [|rw Hp; apply NoDup_seq].
  rw Hp elem_of_seq. rw /bhead. lia.
Qed.
Lemma lru_elem bc order b : lru bc order -> (b < NBUF)%nat -> b ∈ order.
Proof. intros (_ & Hp & _) Hb. rw Hp elem_of_seq. lia. Qed.
Lemma lru_lt bc order b : lru bc order -> b ∈ order -> (b < NBUF)%nat.
Proof. intros (_ & Hp & _). rw Hp elem_of_seq. lia. Qed.

(** A buffer without its links. *)
Definition strip (x : buf) : buf := set_b_prev O (set_b_next O x).
Definition vw (s : kstate) : list buf := strip <$> take NBUF (bcache s).

Section scans.
Context {lay : Layout}.
Implicit Types (s : kstate) (bc : list buf).

(** The buffer at [b] satisfies [P]. *)
Definition at_buf (P : buf -> bool) bc (b : nat) : bool :=
  match bc !! b with Some x => P x | None => false end.
Definition is_block (dev blockno : Z) (x : buf) : bool := (b_dev x =? dev) && (b_blockno x =? blockno).
Definition is_unused (x : buf) : bool := b_refcnt x =? 0.

Lemma bget_cached_run dev blockno order s n :
  lru (bcache s) order -> (NBUF < n)%nat ->
  bget_cached dev blockno n s = Ok (find (at_buf (is_block dev blockno) (bcache s)) order) s.
Proof.
  intros Hlru Hn. destruct (lru_lookup _ _ bhead Hlru) as [xh Hxh]; [left|].
  rw /bget_cached /mbind /K_bind (getb_run bhead xh) //=.
  destruct Hlru as (Hl & Hp & Hch) eqn:EL.
  assert (b_next xh = hd bhead order) as Eh.
  { pose proof (chain_next _ _ [] bhead order bhead Hch) as E. rw /fnx Hxh in E. done. }
  rw Eh /loop. assert (length order = NBUF) as Hlen by by rw Hp length_seq.
  assert (forall suf pre j, order = pre ++ suf -> (length suf < j)%nat ->
    loop_n j (fun b => if decide (b = bhead) then mret (inr None) else
      d ← getb b b_dev; n ← getb b b_blockno;
      if (d =? dev) && (n =? blockno) then mret (inr (Some b)) else
      nx ← getb b b_next; mret (inl nx)) (hd bhead suf) n s
    = Ok (find (at_buf (is_block dev blockno) (bcache s)) suf) s) as Hgo; last first.
  { apply (Hgo order []); [done|lia]. }
  clear EL. induction suf as [|b suf IH]; intros pre j Ho Hj; (destruct j as [|j]; [simpl in Hj; lia|]).
  { done. }
  simpl. assert (b ∈ order) as Hb by (rw Ho elem_of_app; right; left).
  pose proof (lru_lt _ _ b Hlru Hb). rw decide_False; [|rw /bhead; lia].
  destruct (lru_lookup _ _ b Hlru) as [x Hx]; [by right|].
  rw /mbind /K_bind (getb_run b x) //= (getb_run b x) //=. rw /at_buf Hx /is_block.
  destruct ((b_dev x =? dev) && (b_blockno x =? blockno)); [done|].
  simpl. rw (getb_run b x) //=. rw -(IH (pre ++ [b]) j); [|by rw -app_assoc|simpl in Hj; lia].
  f_equal. rw Ho -app_assoc /= in Hch.
  pose proof (chain_next _ _ (bhead :: pre) b suf bhead Hch) as E. by rw /fnx Hx in E.
Qed.

Lemma bget_lru_run order s n :
  lru (bcache s) order -> (NBUF < n)%nat ->
  bget_lru n s = Ok (find (at_buf is_unused (bcache s)) (rev order)) s.
Proof.
  intros Hlru Hn. destruct (lru_lookup _ _ bhead Hlru) as [xh Hxh]; [left|].
  rw /bget_lru /mbind /K_bind (getb_run bhead xh) //=.
  destruct Hlru as (Hl & Hp & Hch) eqn:EL.
  assert (b_prev xh = hd bhead (rev order)) as Eh.
  { pose proof (chain_prev _ _ bhead order bhead [] Hch) as E. rw /fpv Hxh in E. done. }
  rw Eh /loop. assert (length order = NBUF) as Hlen by by rw Hp length_seq.
  assert (forall pre suf j, order = pre ++ suf -> (length pre < j)%nat ->
    loop_n j (fun b => if decide (b = bhead) then mret (inr None) else
      r ← getb b b_refcnt;
      if r =? 0 then mret (inr (Some b)) else
      pv ← getb b b_prev; mret (inl pv)) (hd bhead (rev pre)) n s
    = Ok (find (at_buf is_unused (bcache s)) (rev pre)) s) as Hgo; last first.
  { apply (Hgo order []); [by rw app_nil_r|lia]. }
  clear EL. induction pre as [|b pre IH] using rev_ind; intros suf j Ho Hj;
    (destruct j as [|j]; [rw ?length_app /= in Hj; lia|]).
  { done. }
  rw rev_app_distr /=. assert (b ∈ order) as Hb.
  { rw Ho !elem_of_app. left. right. left. }
  pose proof (lru_lt _ _ b Hlru Hb). rw decide_False; [|rw /bhead; lia].
  destruct (lru_lookup _ _ b Hlru) as [x Hx]; [by right|].
  rw /mbind /K_bind (getb_run b x) //=. rw /at_buf Hx /is_unused.
  destruct (b_refcnt x =? 0); [done|].
  simpl. rw (getb_run b x) //=. rw -(IH ([b] ++ suf) j); [|by rw app_assoc|rw length_app /= in Hj; lia].
  f_equal. rw Ho -!app_assoc /= in Hch.
  pose proof (chain_prev _ _ bhead pre b _ Hch) as E. by rw /fpv Hx in E.
Qed.

End scans.

(** ** Relinking *)

Definition relinked (bc bc' : list buf) (nx pv : nat -> nat) : Prop :=
  length bc' = length bc /\ strip <$> bc' = strip <$> bc /\
  forall i, (i < length bc)%nat -> fnx bc' i = nx i /\ fpv bc' i = pv i.

Lemma relinked_refl bc : relinked bc bc (fnx bc) (fpv bc).
Proof. done. Qed.
Lemma relinked_get bc bc1 nx pv i : relinked bc bc1 nx pv -> (i < length bc)%nat ->
  exists x, bc1 !! i = Some x /\ b_next x = nx i /\ b_prev x = pv i.
Proof.
  intros (Hl & _ & Hf) Hi. destruct (Hf i Hi) as [Hn Hp].
  destruct (lookup_lt_is_Some_2 bc1 i) as [x Hx]; [lia|]. exists x.
  rw /fnx /fpv Hx in Hn Hp. done.
Qed.
Lemma strip_insert (bc : list buf) i x y :
  bc !! i = Some x -> strip y = strip x -> strip <$> <[i := y]> bc = strip <$> bc.
Proof.
  intros Hx E. rw list_fmap_insert E. apply list_insert_id. by rw list_lookup_fmap Hx.
Qed.
Lemma relinked_next bc bc1 nx pv i x v : relinked bc bc1 nx pv -> bc1 !! i = Some x ->
  relinked bc (<[i := set_b_next v x]> bc1) (fupd nx i v) pv.
Proof.
  intros (Hl & Hs & Hf) Hx. split_and!; [by rw length_insert|by rw (strip_insert _ _ x)|].
  intros j Hj. destruct (Hf j Hj) as [Hn Hp]. rw /fnx /fpv /fupd list_lookup_insert.
  destruct (decide (j = i)) as [->|Hne].
  - rw decide_True; [|split; [done|lia]]. simpl. split; [done|]. by rw -Hp /fpv Hx.
  - rw decide_False; [|by intros [? _]]. done.
Qed.
Lemma relinked_prev bc bc1 nx pv i x v : relinked bc bc1 nx pv -> bc1 !! i = Some x ->
  relinked bc (<[i := set_b_prev v x]> bc1) nx (fupd pv i v).
Proof.
  intros (Hl & Hs & Hf) Hx. split_and!; [by rw length_insert|by rw (strip_insert _ _ x)|].
  intros j Hj. destruct (Hf j Hj) as [Hn Hp]. rw /fnx /fpv /fupd list_lookup_insert.
  destruct (decide (j = i)) as [->|Hne].
  - rw decide_True; [|split; [done|lia]]. simpl. split; [|done]. by rw -Hn /fnx Hx.
  - rw decide_False; [|by intros [? _]]. done.
Qed.

Section relink.
Context {lay : Layout}.
Implicit Types (s : kstate).

Lemma move_to_front_run b order s n :
  lru (bcache s) order -> b ∈ order ->
  exists bc' order', move_to_front b n s = Ok tt (set_bcache bc' s) /\
    strip <$> bc' = strip <$> bcache s /\ lru bc' order'.
Proof.
  intros Hlru Hb. pose proof (lru_nodup _ _ Hlru) as Hnd.
  destruct (list_elem_of_split order b Hb) as (pre & post & ->).
  pose proof Hlru as (Hl & Hp & Hch). rw -app_assoc /= in Hch.
  assert (forall x, x ∈ bhead :: pre ++ b :: post -> (x < length (bcache s))%nat) as Hin.
  { intros x Hx. destruct (lru_lookup _ _ x Hlru Hx) as [y Hy]. by eapply lookup_lt_Some. }
  set (nb := fnx (bcache s) b). set (pb := fpv (bcache s) b).
  assert (nb ∈ bhead :: pre ++ b :: post) as Hnb.
  { rw /nb (chain_next _ _ (bhead :: pre) b post bhead Hch). destruct post; [left|].
    right. rw elem_of_app. right. right. left. }
  assert (pb ∈ bhead :: pre ++ b :: post) as Hpb.
  { rw /pb (chain_prev _ _ bhead pre b _ Hch). destruct pre as [|x pre _] using rev_ind; [left|].
    rw rev_app_distr /=. right. rw !elem_of_app. left. right. left. }
  pose proof (chain_move _ _ _ _ _ _ Hnd Hch) as Hmv. cbv zeta in Hmv.
  assert (b <> bhead) as Hbh by (pose proof (lru_lt _ _ b Hlru Hb); rw /bhead; lia).
  pose proof (chain_unlink _ _ _ _ _ _ Hnd Hch) as Hul.
  assert (forall z, z ∈ pre ++ post -> z ∈ pre ++ b :: post) as Hsub.
  { intros z. rw !elem_of_app elem_of_cons. tauto. }
  assert (b ∈ bhead :: pre ++ b :: post) as Hbb by by right.
  assert (bhead ∈ bhead :: pre ++ b :: post) as Hhh by left.
  pose proof (relinked_refl (bcache s)) as R0.
  destruct (relinked_get _ _ _ _ b R0 (Hin _ Hbb)) as (x & Hx & En & Ep).
  destruct (relinked_get _ _ _ _ nb R0 (Hin _ Hnb)) as (y & Hy & _).
  pose proof (relinked_prev _ _ _ _ _ _ pb R0 Hy) as R1. set (bc1 := <[nb := _]> _) in *.
  destruct (relinked_get _ _ _ _ pb R1 (Hin _ Hpb)) as (y1 & Hy1 & _).
  pose proof (relinked_next _ _ _ _ _ _ nb R1 Hy1) as R2. set (bc2 := <[pb := _]> _) in *.
  set (nx1 := fupd _ pb nb) in *. set (pv1 := fupd _ nb pb) in *.
  destruct (relinked_get _ _ _ _ bhead R2 (Hin _ Hhh)) as (h1 & Hh1 & En1 & _).
  destruct (relinked_get _ _ _ _ b R2 (Hin _ Hbb)) as (x2 & Hx2 & _).
  pose proof (relinked_next _ _ _ _ _ _ (nx1 bhead) R2 Hx2) as R3. set (bc3 := <[b := _]> bc2) in *.
  destruct (relinked_get _ _ _ _ b R3 (Hin _ Hbb)) as (x3 & Hx3 & _).
  pose proof (relinked_prev _ _ _ _ _ _ bhead R3 Hx3) as R4. set (bc4 := <[b := _]> bc3) in *.
  destruct (relinked_get _ _ _ _ bhead R4 (Hin _ Hhh)) as (h4 & Hh4 & En4 & _).
  rw fupd_ne // in En4.
  assert (nx1 bhead ∈ bhead :: pre ++ b :: post) as Hn1.
  { rw (chain_next nx1 pv1 [] bhead (pre ++ post) bhead); [|by rw -app_assoc].
    destruct (pre ++ post) as [|z r] eqn:E; [left|]. right. apply Hsub. left. }
  destruct (relinked_get _ _ _ _ (nx1 bhead) R4 (Hin _ Hn1)) as (h5 & Hh5 & _).
  pose proof (relinked_prev _ _ _ _ _ _ b R4 Hh5) as R5. set (bc5 := <[nx1 bhead := _]> bc4) in *.
  destruct (relinked_get _ _ _ _ bhead R5 (Hin _ Hhh)) as (h6 & Hh6 & _).
  pose proof (relinked_next _ _ _ _ _ _ b R5 Hh6) as R6. set (bc6 := <[bhead := _]> bc5) in *.
  exists bc6, (b :: pre ++ post). split_and!.
  - rw /move_to_front /mbind /K_bind (getb_run b x) //= (getb_run b x) //= En Ep.
    rw (setb_run _ y) //= (setb_run _ y1) //= (getb_run _ h1) //= En1 (setb_run _ x2) //=.
    rw (setb_run _ x3) //= (getb_run _ h4) //= En4 (setb_run _ h5) //= (setb_run _ h6) //=.
  - apply R6.
  - destruct R6 as (HL & _ & HF). split_and!; [by rw HL| |].
    + rw -Hp. apply Permutation_middle.
    + replace ((b :: pre ++ post) ++ [bhead]) with (b :: pre ++ post ++ [bhead]) by by rw /= -app_assoc.
      eapply chain_pw; [|exact Hmv]. intros z Hz. apply HF, Hin.
      apply elem_of_cons in Hz as [-> |Hz]; [done|]. apply elem_of_cons in Hz as [-> |Hz]; [done|].
      rw app_assoc in Hz. apply elem_of_app in Hz as [Hz|Hz%list_elem_of_singleton]; [|by subst].
      right. by apply Hsub.
Qed.
End relink.
