(* ===== verification/BioSpec.v ===== *)
(** * The buffer cache against its specification

    The abstract cache is the view [v] of the buffers together with the disk
    [D] and the writes [W] it received.  Each operation is a step on that
    abstract state; the links, the spin locks and the wakeups stay inside. *)

From S2P Require Import Prelude Mem KString Spinlock Machine Kalloc Printf Vm KState Proc ProcInv FsFmt Sleeplock Bio BioInv.

(** ** The driver's contract *)

(** The block on disk; a block never written is zero. *)
Definition dblock (D : gmap Z (list Z)) (n : Z) : list Z := default (replicate 1024 0) (D !! n).

(** The state outside the cache, the disk and the process table. *)
Definition rest (s : kstate) : kstate :=
  set_bcache [] (set_procs [] (set_disk ∅ (set_dtrace [] (set_mmio_out [] (set_mmio_in ∅
    (set_vdisk_st (Vdisk [] 0 [] 0 [] [] 0 [] [] []) s)))))).

(** Block numbers whose sectors the driver can address: the number of the
    sector is a product of two [uint]s. *)
Definition block_ok (b : Z) : Prop := 0 <= b < 2 ^ 31.

(** What [virtio_disk_rw(b, write)] promises, once it returns: the block has
    been transferred between the buffer and the disk. *)
Class DriverOk `{!DiskDriver} := {
  drv_ok : vdisk -> Prop;
  disk_rw_wp : forall me pid b (w : bool) N s x,
    calm me pid s -> drv_ok (vdisk_st s) -> bcache s !! b = Some x -> b_disk x = false -> block_ok (b_blockno x) -> (8 < N)%nat ->
    wp (disk_rw b w) N s (fun _ s' =>
      calm me pid s' /\ rest s' = rest s /\ drv_ok (vdisk_st s') /\
      bcache s' = (if w then bcache s else <[b := set_b_data (dblock (disk s) (b_blockno x)) x]> (bcache s)) /\
      disk s' = (if w then <[b_blockno x := b_data x]> (disk s) else disk s) /\
      dtrace s' = (if w then (b_blockno x, b_data x) :: dtrace s else dtrace s));
}.

Section bio.
Context {lay : Layout} {drv : DiskDriver} {dok : DriverOk}.
Context (me : nat) (pid : Z).
Implicit Types (s : kstate) (v : list buf) (D : gmap Z (list Z)) (W : list (Z * list Z)).

(** [s] is [s0] but for the cache, which is [v], [D], [W]. *)
Record cst s0 s v D W : Prop := {
  cs_calm : calm me pid s;
  cs_rest : rest s = rest s0;
  cs_drv : drv_ok (vdisk_st s);
  cs_lru : exists order, lru (bcache s) order;
  cs_vw : vw s = v;
  cs_disk : disk s = D;
  cs_trace : dtrace s = W;
}.

(** ** The view *)

Lemma vw_lookup s b x : vw s !! b = Some x ->
  (b < NBUF)%nat /\ exists y, bcache s !! b = Some y /\ x = strip y.
Proof.
  rw /vw list_lookup_fmap lookup_take. case_decide; [|done].
  intros (y & Hy & ->)%fmap_Some. eauto.
Qed.
Lemma vw_insert s b y bc : (b < NBUF)%nat ->
  vw (set_bcache (<[b := y]> bc) s) = <[b := strip y]> (strip <$> take NBUF bc).
Proof. intros Hb. by rw /vw /= take_insert_lt // list_fmap_insert. Qed.

Lemma lru_insert bc order b y y' : lru bc order -> bc !! b = Some y ->
  b_next y' = b_next y -> b_prev y' = b_prev y -> lru (<[b := y']> bc) order.
Proof.
  intros (Hl & Hp & Hch) Hy En Ep. split_and!; [by rw length_insert|done|].
  eapply chain_pw; [|exact Hch]. intros i _. rw /fnx /fpv list_lookup_insert.
  case_decide as E; [|done]. destruct E as [-> _]. by rw Hy /= En Ep.
Qed.

(** Updating one buffer in place. *)
Lemma cst_set s0 s v D W b y y' : cst s0 s v D W -> (b < NBUF)%nat -> bcache s !! b = Some y ->
  b_next y' = b_next y -> b_prev y' = b_prev y ->
  cst s0 (set_bcache (<[b := y']> (bcache s)) s) (<[b := strip y']> v) D W.
Proof.
  intros [Hc Hr Hd (o & Hl) Hv HD HW] Hb Hy En Ep. split; try done.
  - by eapply calm_ext; [exact Hc| | |left].
  - exists o. by eapply lru_insert.
  - rw vw_insert //. by rw -Hv.
Qed.

(** ** Caching *)

(** The buffer that holds block [blk], if any, and what reading it gives. *)
Definition content (d : Z) v D (blk : Z) : list Z :=
  match find (is_block d blk) v with
  | Some x => if b_valid x then b_data x else dblock D blk
  | None => dblock D blk
  end.

(** At most one buffer per block; a buffer nobody refers to is unlocked and,
    if valid, agrees with the disk. *)
Record cinv (d : Z) v D : Prop := {
  ci_uniq : forall i j x y blk, v !! i = Some x -> v !! j = Some y ->
    is_block d blk x = true -> is_block d blk y = true -> i = j;
  ci_ref : forall i x, v !! i = Some x -> 0 <= b_refcnt x < 2 ^ 32;
  ci_idle : forall i x, v !! i = Some x -> b_disk x = false;
  ci_clean : forall i x, v !! i = Some x -> b_refcnt x = 0 ->
    sl_locked (b_lock x) = false /\
    (b_dev x = d -> b_valid x = true -> b_data x = dblock D (b_blockno x));
}.

Lemma content_at d v D blk i x : cinv d v D -> v !! i = Some x -> is_block d blk x = true ->
  content d v D blk = if b_valid x then b_data x else dblock D blk.
Proof.
  intros Hi Hx Hb. rw /content. destruct (find (is_block d blk) v) as [y|] eqn:E.
  - apply find_some in E as [Hy Hb']. apply list_elem_of_In, list_elem_of_lookup in Hy as [j Hj].
    assert (i = j) as <- by by eapply (ci_uniq _ _ _ Hi). by simplify_eq.
  - exfalso. eapply find_none in E; [|apply list_elem_of_In, list_elem_of_lookup; by exists i]. congruence.
Qed.
Lemma content_none d v D blk : (forall i x, v !! i = Some x -> is_block d blk x = false) ->
  content d v D blk = dblock D blk.
Proof.
  intros Hn. rw /content. destruct (find (is_block d blk) v) as [y|] eqn:E; [|done].
  apply find_some in E as [Hy Hb']. apply list_elem_of_In, list_elem_of_lookup in Hy as [j Hj].
  rw (Hn j y Hj) in Hb'. done.
Qed.

(** The buffer [bread] returns, made of [x]. *)
Definition got (d blk : Z) (c : list Z) (x : buf) : buf :=
  Buf true false d blk (Sleeplock true pid) (b_refcnt x + 1) O O c.

(** Which buffer [bread] takes: the one that has the block, or else a free one. *)
Definition picks (d blk : Z) v (b : nat) (x : buf) : Prop :=
  v !! b = Some x /\
  (is_block d blk x = true \/
   b_refcnt x = 0 /\ forall j y, v !! j = Some y -> is_block d blk y = false).

Lemma set_klk_bcache s a bc : set_klk (klk s) (set_bcache bc (set_klk a s)) = set_bcache bc s.
Proof. by destruct s as [[]]. Qed.

(** [release] at the end of a critical section that changed the cache only. *)
Lemma release_bcache s k bc n : calm me pid s ->
  release k n (set_bcache bc (set_klk (lk_acq k (klk s)) s)) = Ok tt (set_bcache bc s).
Proof.
  intros Hc. rw (release_acquired s) //; [|by eapply calm_lock]. by rw set_klk_bcache.
Qed.

(** The scan results in terms of the view. *)
Lemma find_vw P s order l b : lru (bcache s) order -> (forall x, x ∈ l <-> x ∈ order) ->
  find (at_buf P (bcache s)) l = Some b ->
  (b < NBUF)%nat /\ exists y, bcache s !! b = Some y /\ vw s !! b = Some (strip y) /\ P y = true.
Proof.
  intros Hl Hin [Hb HP]%find_some. apply list_elem_of_In, Hin in Hb.
  pose proof (lru_lt _ _ _ Hl Hb) as Hlt. split; [done|]. rw /at_buf in HP.
  destruct (bcache s !! b) as [y|] eqn:Hy; [|done]. exists y. split_and!; [done| |done].
  rw /vw list_lookup_fmap lookup_take decide_True // Hy //.
Qed.
Lemma find_vw_none P s order l : lru (bcache s) order -> (forall x, x ∈ l <-> x ∈ order) ->
  (forall y, P (strip y) = P y) ->
  find (at_buf P (bcache s)) l = None -> forall i x, vw s !! i = Some x -> P x = false.
Proof.
  intros Hl Hin HP Hf i x (Hlt & y & Hy & ->)%vw_lookup.
  assert (i ∈ l) as Hi by by apply Hin, (lru_elem _ _ _ Hl).
  pose proof (find_none _ _ Hf i (proj1 (list_elem_of_In _ _) Hi)) as H.
  by rw /at_buf Hy in H; rw HP.
Qed.

(** Writing a buffer that has just been written. *)
Lemma setb_again s b f y bc n : (b < length bc)%nat ->
  setb b f n (set_bcache (<[b := y]> bc) s) = Ok tt (set_bcache (<[b := f y]> bc) s).
Proof.
  intros Hb. rw (setb_run b y); [|by apply list_lookup_insert_eq]. by rw /= list_insert_insert_eq.
Qed.
Lemma acquiresleep_at s b y bc n :
  calm me pid (set_bcache (<[b := y]> bc) s) -> (b < length bc)%nat -> sl_locked (b_lock y) = false -> (0 < n)%nat ->
  acquiresleep (SL_buf b) n (set_bcache (<[b := y]> bc) s)
  = Ok tt (set_bcache (<[b := set_b_lock (Sleeplock true pid) y]> bc) s).
Proof.
  intros Hc Hb Hf Hn.
  assert (<[b := y]> bc !! b = Some y) as Hy by by apply list_lookup_insert_eq.
  rw (acquiresleep_run me pid _ (b_lock y)) //; [|by rw /slock /= Hy].
  by rw /put_slock /= (alter_insert _ _ b y) // list_insert_insert_eq.
Qed.

(** The buffer [bget] returns, made of [x]: not read yet if it was recycled. *)
Definition taken (d blk : Z) (x : buf) : buf :=
  Buf (if is_block d blk x then b_valid x else false) false d blk (Sleeplock true pid)
    (b_refcnt x + 1) O O (b_data x).

Lemma bget_wp s0 s v D W d blk N :
  cst s0 s v D W -> cinv d v D -> (NBUF < N)%nat ->
  (forall i x, v !! i = Some x -> is_block d blk x = true ->
     sl_locked (b_lock x) = false /\ b_refcnt x + 1 < 2 ^ 32) ->
  (exists b x, picks d blk v b x) ->
  wp (bget d blk) N s (fun b s' => exists x, picks d blk v b x /\
    cst s0 s' (<[b := taken d blk x]> v) D W).
Proof.
  intros Hs Hi HN Hun Hpk. pose proof (cs_calm _ _ _ _ _ Hs) as Hc.
  destruct (cs_lru _ _ _ _ _ Hs) as [order Hl]. pose proof (cs_vw _ _ _ _ _ Hs) as Hv.
  rw /bget. apply wp_bind. rw /wp (acquire_k s); [|by eapply calm_lock].
  set (s1 := set_klk _ s). apply wp_bind. rw /wp (bget_cached_run d blk order) //.
  change (bcache s1) with (bcache s).
  destruct (find (at_buf (is_block d blk) (bcache s)) order) as [b|] eqn:Ef.
  - destruct (find_vw _ _ _ _ _ Hl ltac:(done) Ef) as (Hlt & y & Hy & Hvy & Hb). rw Hv in Hvy.
    destruct (Hun b _ Hvy Hb) as [Hfree Hlt32]. pose proof (ci_ref _ _ _ Hi _ _ Hvy) as Hr.
    simpl in Hfree, Hlt32, Hr.
    apply wp_bind. rw /wp (setb_run b y) // u32_small; [|lia].
    apply wp_bind. rw /wp release_bcache //. change (bcache s1) with (bcache s).
    set (y1 := set_b_refcnt (b_refcnt y + 1) y).
    assert (b < length (bcache s))%nat as Hlen by by apply lookup_lt_Some in Hy.
    apply wp_bind. rw /wp (acquiresleep_at s b y1) //; [|by eapply cs_calm, cst_set|lia].
    apply wp_ret. exists (strip y). split; [by split; [|left]|].
    pose proof (cst_set _ _ _ _ _ b y (set_b_lock (Sleeplock true pid) y1) Hs Hlt Hy eq_refl eq_refl) as Hs2.
    replace (taken d blk (strip y)) with (strip (set_b_lock (Sleeplock true pid) y1)); [done|].
    rw /taken. change (is_block d blk (strip y)) with (is_block d blk y). rw Hb.
    apply andb_prop in Hb as [Ed%Z.eqb_eq Eb%Z.eqb_eq]. pose proof (ci_idle _ _ _ Hi _ _ Hvy) as Hdk.
    simpl in Hdk. by rw /strip /y1 /set_b_lock /set_b_prev /= Hdk Ed Eb.
  - assert (forall i x, v !! i = Some x -> is_block d blk x = false) as Hnone.
    { rw -Hv. by eapply find_vw_none. }
    apply wp_bind. rw /wp (bget_lru_run order) //. change (bcache s1) with (bcache s).
    assert (forall x, x ∈ rev order <-> x ∈ order) as Hrev.
    { intros x. rw !list_elem_of_In. symmetry. apply in_rev. }
    destruct (find (at_buf is_unused (bcache s)) (rev order)) as [b|] eqn:Ef2; last first.
    { exfalso. destruct Hpk as (b & x & Hx & [Hb|[Hr _]]); [by rw (Hnone b x) in Hb|].
      assert (is_unused x = false) as E; [|by rw /is_unused Hr in E].
      rw -Hv in Hx. by eapply find_vw_none. }
    destruct (find_vw _ _ _ _ _ Hl Hrev Ef2) as (Hlt & y & Hy & Hvy & Hb). rw Hv in Hvy.
    apply Z.eqb_eq in Hb. destruct (ci_clean _ _ _ Hi _ _ Hvy Hb) as [Hfree _]. simpl in Hfree.
    set (y1 := set_b_refcnt 1 (set_b_valid false (set_b_blockno blk (set_b_dev d y)))).
    assert (b < length (bcache s))%nat as Hlen by by apply lookup_lt_Some in Hy.
    apply wp_bind. rw /wp (setb_run b y) //. do 3 (apply wp_bind; rw /wp setb_again //).
    apply wp_bind. rw /wp release_bcache //. change (bcache s1) with (bcache s). fold y1.
    assert (cst s0 (set_bcache (<[b := y1]> (bcache s)) s) (<[b := strip y1]> v) D W) as Hs1
      by by eapply cst_set.
    apply wp_bind. rw /wp (acquiresleep_at s b y1) //; [|by eapply cs_calm|lia].
    apply wp_ret. exists (strip y). split; [by split; [|right]|].
    pose proof (cst_set _ _ _ _ _ b y (set_b_lock (Sleeplock true pid) y1) Hs Hlt Hy eq_refl eq_refl) as Hs2.
    replace (taken d blk (strip y)) with (strip (set_b_lock (Sleeplock true pid) y1)); [done|].
    rw /taken (Hnone b) //. pose proof (ci_idle _ _ _ Hi _ _ Hvy) as Hdk. simpl in Hdk.
    by rw /strip /y1 /set_b_lock /set_b_prev /= Hdk Hb.
Qed.

Lemma cst_lookup s0 s v D W b x : cst s0 s v D W -> v !! b = Some x ->
  (b < NBUF)%nat /\ exists y, bcache s !! b = Some y /\ x = strip y.
Proof. intros Hs Hx. rw -(cs_vw _ _ _ _ _ Hs) in Hx. by apply vw_lookup. Qed.

(** Fields other than the links are read off the view. *)
Lemma cst_getb {A} s0 s v D W b x (f : buf -> A) n : cst s0 s v D W -> v !! b = Some x ->
  (forall y, f (strip y) = f y) -> getb b f n s = Ok (f x) s.
Proof.
  intros Hs Hx Hf. destruct (cst_lookup _ _ _ _ _ _ _ Hs Hx) as (_ & y & Hy & ->).
  by rw (getb_run b y) // Hf.
Qed.
(** And written there. *)
Lemma cst_setb s0 s v D W b x f n : cst s0 s v D W -> v !! b = Some x ->
  (forall y, strip (f (strip y)) = strip (f y) /\ b_next (f y) = b_next y /\ b_prev (f y) = b_prev y) ->
  wp (setb b f) n s (fun _ s' => cst s0 s' (<[b := strip (f x)]> v) D W).
Proof.
  intros Hs Hx Hf. destruct (cst_lookup _ _ _ _ _ _ _ Hs Hx) as (Hb & y & Hy & ->).
  rw /wp (setb_run b y) //. destruct (Hf y) as (-> & ? & ?). by eapply cst_set.
Qed.

Lemma bread_wp s0 s v D W d blk N :
  cst s0 s v D W -> cinv d v D -> (NBUF < N)%nat -> block_ok blk ->
  (forall i x, v !! i = Some x -> is_block d blk x = true ->
     sl_locked (b_lock x) = false /\ b_refcnt x + 1 < 2 ^ 32) ->
  (exists b x, picks d blk v b x) ->
  wp (bread d blk) N s (fun b s' => exists x, picks d blk v b x /\
    cst s0 s' (<[b := got d blk (content d v D blk) x]> v) D W).
Proof.
  intros Hs Hi HN Hblk Hun Hpk. rw /bread. apply wp_bind.
  eapply wp_mono; [by apply (bget_wp s0 s v D W d blk N)|].
  intros b s1 (x & Hx & Hs1).
  assert (<[b := taken d blk x]> v !! b = Some (taken d blk x)) as Hb1.
  { apply list_lookup_insert_eq. destruct Hx as [Hx _]. by apply lookup_lt_Some in Hx. }
  apply wp_bind. rw /wp (cst_getb _ _ _ _ _ b _ b_valid N Hs1 Hb1) //.
  assert (content d v D blk = if b_valid (taken d blk x) then b_data x else dblock D blk) as Ec.
  { simpl. destruct Hx as [Hx [Hb|[_ Hn]]].
    - rw Hb. by eapply content_at.
    - by rw (Hn b x Hx) content_none. }
  destruct (b_valid (taken d blk x)) eqn:Ev.
  { apply wp_bind, wp_ret, wp_ret. exists x. split; [done|]. rw Ec.
    replace (got d blk (b_data x) x) with (taken d blk x); [done|]. rw /got /taken. simpl in Ev. by rw Ev. }
  destruct (cst_lookup _ _ _ _ _ _ _ Hs1 Hb1) as (Hlt & y & Hy & Ey).
  assert (b_disk y = false /\ b_blockno y = blk) as [Edk Ebl].
  { split; [apply (f_equal b_disk) in Ey|apply (f_equal b_blockno) in Ey]; done. }
  apply wp_bind, wp_bind. eapply wp_mono.
  { apply (disk_rw_wp me pid b false N s1 y); [apply Hs1|apply Hs1|done|done|by rw Ebl|]. rw /NBUF in HN. lia. }
  simpl. intros _ s2 (Hc2 & Hr2 & Hd2 & Hb2 & HD2 & HW2).
  assert (bcache s2 !! b = Some (set_b_data (dblock D blk) y)) as Hy2.
  { rw Hb2 list_lookup_insert_eq; [|by apply lookup_lt_Some in Hy]. by rw (cs_disk _ _ _ _ _ Hs1) Ebl. }
  rw /wp (setb_run b _ _ _ _ Hy2). apply wp_ret. exists x. split; [done|].
  assert (cst s0 s2 (<[b := strip (set_b_data (dblock D blk) y)]> v) D W) as Hs2.
  { destruct (cs_lru _ _ _ _ _ Hs1) as [o Hl]. split; try done.
    - by rw Hr2 (cs_rest _ _ _ _ _ Hs1).
    - exists o. rw Hb2. by eapply lru_insert.
    - transitivity (vw (set_bcache (bcache s2) s2)); [done|]. rw Hb2 vw_insert // (cs_disk _ _ _ _ _ Hs1) Ebl.
      change (strip <$> take NBUF (bcache s1)) with (vw s1). by rw (cs_vw _ _ _ _ _ Hs1) list_insert_insert_eq.
    - by rw HD2 (cs_disk _ _ _ _ _ Hs1).
    - by rw HW2 (cs_trace _ _ _ _ _ Hs1). }
  pose proof (cst_set _ _ _ _ _ b _ (set_b_valid true (set_b_data (dblock D blk) y)) Hs2 Hlt Hy2 eq_refl eq_refl) as Hs3.
  rw (list_insert_insert_eq v) in Hs3. rw Ec.
  replace (got d blk (dblock D blk) x) with (strip (set_b_valid true (set_b_data (dblock D blk) y))); [done|].
  transitivity (set_b_valid true (set_b_data (dblock D blk) (strip y))); [done|]. by rw -Ey.
Qed.

Lemma bwrite_wp s0 s v D W b x N :
  cst s0 s v D W -> v !! b = Some x -> b_lock x = Sleeplock true pid -> b_disk x = false -> block_ok (b_blockno x) -> (8 < N)%nat ->
  wp (bwrite b) N s (fun _ s' =>
    cst s0 s' v (<[b_blockno x := b_data x]> D) ((b_blockno x, b_data x) :: W)).
Proof.
  intros Hs Hx Hlk Hdk Hblk HN. destruct (cst_lookup _ _ _ _ _ _ _ Hs Hx) as (Hlt & y & Hy & ->).
  rw /bwrite. apply wp_bind. rw /wp (holdingsleep_run me pid); [|apply Hs|by rw /slock Hy /= -Hlk].
  eapply wp_mono; [apply (disk_rw_wp me pid b true N s y); [apply Hs|apply Hs|done..]|].
  intros _ s2 (Hc2 & Hr2 & Hd2 & Hb2 & HD2 & HW2). destruct Hs as [Hc Hr Hd Hl Hv HD HW]. split; try done.
  - by rw Hr2.
  - by rw Hb2.
  - by rw /vw Hb2.
  - by rw HD2 HD.
  - by rw HW2 HW.
Qed.

(** A buffer given back. *)
Definition released (x : buf) : buf := set_b_lock (Sleeplock false 0) (set_b_refcnt (b_refcnt x - 1) x).

Lemma brelse_wp s0 s v D W b x N :
  cst s0 s v D W -> v !! b = Some x -> b_lock x = Sleeplock true pid -> 0 < b_refcnt x < 2 ^ 32 ->
  wp (brelse b) N s (fun _ s' => cst s0 s' (<[b := released x]> v) D W).
Proof.
  intros Hs Hx Hlk Hr. destruct (cst_lookup _ _ _ _ _ _ _ Hs Hx) as (Hlt & y & Hy & ->).
  assert (slock (SL_buf b) s = Some (Sleeplock true pid)) as Hsl by by rw /slock Hy /= -Hlk.
  rw /brelse. apply wp_bind. rw /wp (holdingsleep_run me pid); [|apply Hs|done].
  apply wp_bind. rw /wp (releasesleep_run me pid _ _ _ _ (cs_calm _ _ _ _ _ Hs) Hsl).
  rw /put_slock (alter_insert _ _ b y) //. set (y1 := set_b_lock _ y). set (s1 := set_procs _ _).
  assert (cst s0 s1 (<[b := strip y1]> v) D W) as Hs1.
  { destruct (cst_set _ _ _ _ _ b y y1 Hs Hlt Hy eq_refl eq_refl) as [Hc Hr1 Hd Hl Hv HD HW]. split; try done.
    eapply calm_ext; [exact Hc|done|done|]. right. by eexists. }
  assert (bcache s1 !! b = Some y1) as Hy1 by (apply list_lookup_insert_eq; by apply lookup_lt_Some in Hy).
  apply wp_bind. rw /wp (acquire_k s1); [|eapply calm_lock, Hs1]. apply wp_bind. rw /wp (setb_run b y1) //.
  rw u32_small; [|simpl in Hr |- *; lia]. set (y2 := set_b_refcnt _ y1). set (s2 := set_bcache _ _).
  assert (bcache s2 !! b = Some y2) as Hy2.
  { apply list_lookup_insert_eq. by apply lookup_lt_Some in Hy1. }
  apply wp_bind. rw /wp (getb_run b y2) //.
  assert (cst s0 (set_bcache (<[b := y2]> (bcache s1)) s1) (<[b := released (strip y)]> v) D W) as Hs2.
  { pose proof (cst_set _ _ _ _ _ b y1 y2 Hs1 Hlt Hy1 eq_refl eq_refl) as H.
    by rw (list_insert_insert_eq v) in H. }
  destruct (b_refcnt y2 =? 0) eqn:E0; last first.
  { apply wp_bind, wp_ret. rw /wp release_bcache; [done|apply Hs1]. }
  destruct (cs_lru _ _ _ _ _ Hs2) as [o Ho]. change (lru (bcache s2) o) in Ho.
  destruct (move_to_front_run b o s2 N Ho (lru_elem _ _ _ Ho Hlt)) as (bc' & o' & Hrun & Hst & Ho').
  apply wp_bind. rw /wp /when Hrun.
  change (set_bcache bc' s2) with (set_bcache bc' (set_klk (lk_acq L_bcache (klk s1)) s1)).
  rw release_bcache; [|apply Hs1]. destruct Hs2 as [Hc Hr1 Hd Hl Hv HD HW]. split; try done.
  - by eapply calm_ext; [exact Hc| | |left].
  - by exists o'.
  - rw -Hv /vw /= !fmap_take. by rw Hst.
Qed.

Lemma bpin_wp s0 s v D W b x N :
  cst s0 s v D W -> v !! b = Some x -> 0 <= b_refcnt x + 1 < 2 ^ 32 ->
  wp (bpin b) N s (fun _ s' => cst s0 s' (<[b := set_b_refcnt (b_refcnt x + 1) x]> v) D W).
Proof.
  intros Hs Hx Hr. destruct (cst_lookup _ _ _ _ _ _ _ Hs Hx) as (Hlt & y & Hy & ->).
  rw /bpin. apply wp_bind. rw /wp (acquire_k s); [|eapply calm_lock, Hs].
  apply wp_bind. rw /wp (setb_run b y) // u32_small //. rw /wp release_bcache; [|apply Hs].
  exact (cst_set _ _ _ _ _ b y (set_b_refcnt (b_refcnt y + 1) y) Hs Hlt Hy eq_refl eq_refl).
Qed.
Lemma bunpin_wp s0 s v D W b x N :
  cst s0 s v D W -> v !! b = Some x -> 0 <= b_refcnt x - 1 < 2 ^ 32 ->
  wp (bunpin b) N s (fun _ s' => cst s0 s' (<[b := set_b_refcnt (b_refcnt x - 1) x]> v) D W).
Proof.
  intros Hs Hx Hr. destruct (cst_lookup _ _ _ _ _ _ _ Hs Hx) as (Hlt & y & Hy & ->).
  rw /bunpin. apply wp_bind. rw /wp (acquire_k s); [|eapply calm_lock, Hs].
  apply wp_bind. rw /wp (setb_run b y) // u32_small //. rw /wp release_bcache; [|apply Hs].
  exact (cst_set _ _ _ _ _ b y (set_b_refcnt (b_refcnt y - 1) y) Hs Hlt Hy eq_refl eq_refl).
Qed.

End bio.
