(* ===== verification/VirtioSpec.v ===== *)
(** * The disk driver keeps its contract

    [virtio_disk_rw] hands a request to the device and sleeps; the device
    serves it and raises the interrupt, whose handler wakes the process.  The
    device is a parameter, of which [DeviceOk] states what the virtio
    specification says about a request of three descriptors.  With such a
    device the driver transfers the block, which is all [bio.c], and through it
    the log and the file system, rely on ([DriverOk]). *)

From S2P Require Import Prelude Mem KString Spinlock Machine Kalloc Printf Vm KState Proc ProcInv Hw FsFmt Virtio Sleeplock Bio BioInv BioSpec.

#[local] Transparent lift.

(** ** The device *)

(** What the device does with the requests in the ring it has been told about. *)
Class VirtioDevice := virtio_dev : kstate -> kstate.

(** One request is outstanding, for buffer [b]: the header, the data and the
    status byte, linked; [w]: a write to the disk. *)
Record request `{!Layout} (s : kstate) (b : nat) (x : buf) (w : bool) (i0 i1 i2 sector : Z) : Prop := {
  rq_one : vd_avail_idx (vdisk_st s) = u16 (vd_used_ix (vdisk_st s) + 1);
  rq_ring : vd_avail_ring (vdisk_st s) !! Z.to_nat (vd_used_ix (vdisk_st s) mod 8) = Some i0;
  rq_head : vd_desc (vdisk_st s) !! Z.to_nat i0 = Some (Vdesc (ops_addr i0) 16 VRING_DESC_F_NEXT i1);
  rq_data : vd_desc (vdisk_st s) !! Z.to_nat i1 =
    Some (Vdesc (data_addr b) BSIZE (Z.lor (if w then 0 else VRING_DESC_F_WRITE) VRING_DESC_F_NEXT) i2);
  rq_status : vd_desc (vdisk_st s) !! Z.to_nat i2 = Some (Vdesc (status_addr i0) 1 VRING_DESC_F_WRITE 0);
  rq_op : vd_ops (vdisk_st s) !! Z.to_nat i0 = Some (Vreq (if w then VIRTIO_BLK_T_OUT else VIRTIO_BLK_T_IN) 0 sector);
  rq_buf : bcache s !! b = Some x;
}.
(** The status is success and the request is in the used ring. *)
Definition answered (i0 : Z) (d : vdisk) : vdisk :=
  set_vd_used_ix (u16 (vd_used_ix d + 1)) (set_vd_used_ring (<[Z.to_nat (vd_used_ix d mod 8) := i0]> (vd_used_ring d))
    (set_vd_info_status (<[Z.to_nat i0 := 0]> (vd_info_status d)) d)).
(** The two sectors from [sector] on are one block. *)
Definition served (b : nat) (x : buf) (w : bool) (i0 sector : Z) (s : kstate) : kstate :=
  let s := set_vdisk_st (answered i0 (vdisk_st s)) s in
  if w then set_disk (<[sector / 2 := b_data x]> (disk s)) (set_dtrace ((sector / 2, b_data x) :: dtrace s) s)
  else set_bcache (<[b := set_b_data (dblock (disk s) (sector / 2)) x]> (bcache s)) s.
Class DeviceOk `{!Layout} `{!VirtioDevice} : Prop := device_serves : forall s b x w i0 i1 i2 sector,
  request s b x w i0 i1 i2 sector -> 0 <= sector -> sector mod 2 = 0 -> virtio_dev s = served b x w i0 sector s.

(** ** A run of the driver with the device *)

(** While the process sleeps the scheduler runs with interrupts on, until the
    device has served the request and the handler has run; then the process is
    switched to again. *)
Definition disk_turn `{!Layout} `{!VirtioDevice} (me : nat) : K kstate bool :=
  sched_leave me;;
  lift intr_on;;
  modify virtio_dev;;
  lift intr_off;;
  virtio_disk_intr;;
  lift intr_on;;
  sched_enter me.
Definition with_device `{!Layout} `{!VirtioDevice} (m : K kstate unit) : K kstate unit := fun n s =>
  match m n s with
  | Sched s1 k =>
    match cur s with
    | Some me => bindr (disk_turn me n s1) (fun ok s2 => if ok : bool then k s2 else Spin)
    | None => Undef s1
    end
  | r => r
  end.
Definition virtio_driver `{!Layout} `{!VirtioDevice} : DiskDriver := fun b w => with_device (virtio_disk_rw b w).

(** ** Runs that give up the processor *)

Definition wsch {S A} (m : K S A) n (s : S) (Q : S -> (S -> res S A) -> Prop) : Prop :=
  match m n s with Sched s1 k => Q s1 k | _ => False end.
Lemma wsch_skip {S A B} (m : K S A) (f : A -> K S B) n s a s' Q : m n s = Ok a s' -> wsch (f a) n s' Q -> wsch (m ≫= f) n s Q.
Proof. rw /wsch /mbind /K_bind. by intros ->. Qed.
Lemma wsch_bind {S A B} (m : K S A) (f : A -> K S B) n s Q' Q : wsch m n s Q' ->
  (forall s1 k, Q' s1 k -> Q s1 (fun s2 => bindr (k s2) (fun a s3 => f a n s3))) -> wsch (m ≫= f) n s Q.
Proof. rw /wsch /mbind /K_bind. destruct (m n s); try done. intros HQ Hf. by apply Hf. Qed.

(** ** The states of a run *)

(** [s] with other locks, process, table, cache, disk and device state. *)
Definition io (s : kstate) (l : lstate) (c : option nat) P B D T V O I : kstate :=
  KState (set_lk l (mach s)) P c (nextpid s) (initproc s) (ticks s) (ringbufs s) (pipes s) (ftable s) (icache s) (sb s) B (log s) D T
    (cons s) (uart_st s) (first s) V (csr s) O I.
Lemma io_self s : s = io s (klk s) (cur s) (procs s) (bcache s) (disk s) (dtrace s) (vdisk_st s) (mmio_out s) (mmio_in s).
Proof. by destruct s as [[]]. Qed.
Lemma io_rest s l P B D T V O I : l = klk s -> rest (io s l (cur s) P B D T V O I) = rest s.
Proof. intros ->. by destruct s as [[]]. Qed.

Section driver.
Context {lay : Layout} {dev : VirtioDevice} {devok : DeviceOk}.
Context (s0 : kstate) (h : nat) (si : bool).
Implicit Types (P : list proc) (B : list buf) (V : vdisk) (c : option nat).
Abbreviation io := (io s0).

(** The locks of hart [h] when none is held, and when [k] is. *)
Definition no_lock (ie on : bool) : lstate := LState [] h 0 ie on.
Definition one_lock (k : lockid) (ie : bool) : lstate := LState [(k, h)] h 1 ie false.
Lemma acq_one k ie on : lk_acq k (no_lock ie on) = one_lock k on.
Proof. done. Qed.
Lemma rel_one k ie : lk_rel k (one_lock k ie) = no_lock ie ie.
Proof. rw /lk_rel /one_lock /= filter_cons_False //=. tauto. Qed.
Lemma one_ok k ie : lk_ok (one_lock k ie).
Proof. split; try done; [by apply NoDup_singleton|]. rw /my_locks /= filter_cons_True //. Qed.
Lemma one_held k ie : held k (one_lock k ie) = true.
Proof. apply bool_decide_eq_true. left. Qed.
Lemma one_free k k' ie : k <> k' -> locked k (one_lock k' ie) = false.
Proof. intros Hne. apply locked_false. rw /= list_elem_of_singleton //. Qed.

Lemma acquire_io k ie on c P B D T V O I n :
  acquire k n (io (no_lock ie on) c P B D T V O I) = Ok tt (io (one_lock k on) c P B D T V O I).
Proof. done. Qed.
Lemma release_io k ie c P B D T V O I n :
  release k n (io (one_lock k ie) c P B D T V O I) = Ok tt (io (no_lock ie ie) c P B D T V O I).
Proof. rw release_k; [|apply one_ok|done|apply one_held]. change (klk _) with (one_lock k ie). by rw rel_one. Qed.
Lemma set_vdisk_io V' l c P B D T V O I : set_vdisk_st V' (io l c P B D T V O I) = io l c P B D T V' O I.
Proof. reflexivity. Qed.
Lemma set_dtrace_io T' l c P B D T V O I : set_dtrace T' (io l c P B D T V O I) = io l c P B D T' V O I.
Proof. reflexivity. Qed.
Lemma set_disk_io D' l c P B D T V O I : set_disk D' (io l c P B D T V O I) = io l c P B D' T V O I.
Proof. reflexivity. Qed.
Lemma set_bcache_io B' l c P B D T V O I : set_bcache B' (io l c P B D T V O I) = io l c P B' D T V O I.
Proof. reflexivity. Qed.
Lemma io_parts l c P B D T V O I : let s := io l c P B D T V O I in vdisk_st s = V /\ disk s = D /\ dtrace s = T /\ bcache s = B.
Proof. done. Qed.
Lemma served_io b x w i0 sector l c P B D T V O I : served b x w i0 sector (io l c P B D T V O I) =
  io l c P (if w then B else <[b := set_b_data (dblock D (sector / 2)) x]> B) (if w then <[sector / 2 := b_data x]> D else D)
    (if w then (sector / 2, b_data x) :: T else T) (answered i0 V) O I.
Proof.
  rw /served. destruct (io_parts l c P B D T V O I) as (-> & _). rw set_vdisk_io. destruct (io_parts l c P B D T (answered i0 V) O I) as (_ & -> & -> & ->).
  destruct w; [by rw set_dtrace_io set_disk_io|apply set_bcache_io].
Qed.
Lemma intr_on_io ie on c P B D T V O I n : lift (S := lstate) intr_on n (io (no_lock ie on) c P B D T V O I) = Ok tt (io (no_lock ie true) c P B D T V O I).
Proof. done. Qed.
Lemma intr_off_io ie on c P B D T V O I n : lift (S := lstate) intr_off n (io (no_lock ie on) c P B D T V O I) = Ok tt (io (no_lock ie false) c P B D T V O I).
Proof. done. Qed.
Lemma setvd_io f l c P B D T V O I n : setvd f n (io l c P B D T V O I) = Ok tt (io l c P B D T (f V) O I).
Proof. done. Qed.
Lemma getvd_io {A} (f : vdisk -> A) l c P B D T V O I n : getvd f n (io l c P B D T V O I) = Ok (f V) (io l c P B D T V O I).
Proof. done. Qed.
Lemma wR_io r v l c P B D T V O I n : wR r v n (io l c P B D T V O I) = Ok tt (io l c P B D T V ((VIRTIO0 + r, u32 v) :: O) I).
Proof. done. Qed.
Lemma rR_io r l c P B D T V O I n : exists v I', rR r n (io l c P B D T V O I) = Ok v (io l c P B D T V O I').
Proof.
  rw /rR /mmio_read /mbind /K_bind /=. change (mmio_in (io l c P B D T V O I)) with I.
  destruct (default [] (I !! (VIRTIO0 + r))) as [|v q]; [by exists (u32 0), I|]. by eexists _, _.
Qed.
Lemma wakeup_io ch k ie c P B D T V O I n : length P = NPROC -> (forall i, k <> L_proc i) ->
  wakeup ch n (io (one_lock k ie) c P B D T V O I) = Ok tt (io (one_lock k ie) c (imap (woken c ch) P) B D T V O I).
Proof.
  intros Hl Hk. rw wakeup_run //; [apply one_ok|]. intros i Hi _. change (klk _) with (one_lock k ie). apply one_free. apply not_eq_sym, Hk.
Qed.
Lemma setb_io b x f l c P B D T V O I n : B !! b = Some x -> setb b f n (io l c P B D T V O I) = Ok tt (io l c P (<[b := f x]> B) D T V O I).
Proof. intros Hb. by rw (setb_run b x). Qed.
Lemma getb_io {A} b x (f : buf -> A) l c P B D T V O I n : B !! b = Some x -> getb b f n (io l c P B D T V O I) = Ok (f x) (io l c P B D T V O I).
Proof. intros Hb. by rw (getb_run b x). Qed.

(** ** Descriptors *)

Abbreviation free8 a b c := [a; b; c; true; true; true; true; true].
(** The driver at rest: every descriptor free, nothing outstanding. *)
Record vd_idle V : Prop := {
  vi_free : vd_free V = free8 true true true;
  vi_desc : length (vd_desc V) = 8%nat;
  vi_avail : length (vd_avail_ring V) = 8%nat;
  vi_used : length (vd_used_ring V) = 8%nat;
  vi_info : length (vd_info_b V) = 8%nat;
  vi_status : length (vd_info_status V) = 8%nat;
  vi_ops : length (vd_ops V) = 8%nat;
  vi_seen : vd_used_idx V = vd_used_ix V;
  vi_next : vd_avail_idx V = vd_used_ix V;
  vi_range : 0 <= vd_used_ix V < 2 ^ 16;
}.
Lemma alloc3_io l c P B D T V O I n : vd_free V = free8 true true true ->
  alloc3_desc n (io l c P B D T V O I) = Ok (Some (0, 1, 2)) (io l c P B D T (set_vd_free (free8 false false false) V) O I).
Proof. intros Hf. destruct V as [d a ar u ur fr ui ib is' op]. cbn in Hf. by subst fr. Qed.

(** The request for buffer [b] in descriptors 0, 1 and 2. *)
Definition req_descs (b : nat) (w : bool) (ds : list vdesc) : list vdesc :=
  <[2%nat := Vdesc (status_addr 0) 1 VRING_DESC_F_WRITE 0]>
    (<[1%nat := Vdesc (data_addr b) BSIZE (Z.lor (if w then 0 else VRING_DESC_F_WRITE) VRING_DESC_F_NEXT) 2]>
      (<[0%nat := Vdesc (ops_addr 0) 16 VRING_DESC_F_NEXT 1]> ds)).
Definition formatted (b : nat) (w : bool) (sector : Z) V : vdisk :=
  set_vd_info_b (<[0%nat := Some b]> (vd_info_b V)) (set_vd_info_status (<[0%nat := 0xff]> (vd_info_status V))
    (set_vd_desc (req_descs b w (vd_desc V))
      (set_vd_ops (<[0%nat := Vreq (if w then VIRTIO_BLK_T_OUT else VIRTIO_BLK_T_IN) 0 sector]> (vd_ops V)) V))).
Lemma run_bind {S A C} (m : K S A) (f : A -> K S C) n s a s' : m n s = Ok a s' -> (m ≫= f) n s = f a n s'.
Proof. rw /mbind /K_bind. by intros ->. Qed.
Lemma format_io b x w sector l c P B D T V O I n : B !! b = Some x ->
  format_request b w sector 0 1 2 n (io l c P B D T V O I) = Ok tt (io l c P (<[b := set_b_disk true x]> B) D T (formatted b w sector V) O I).
Proof.
  intros Hb. rw /format_request. do 5 (erewrite run_bind; [|apply setvd_io]). erewrite run_bind; [|by apply setb_io]. done.
Qed.

(** Issued: the descriptors taken, the request made available. *)
Definition issued (b : nat) (w : bool) (sector : Z) V : vdisk := push_avail 0 (formatted b w sector (set_vd_free (free8 false false false) V)).
Definition wait_buf (b : nat) : unit -> K kstate (unit + unit) := fun _ =>
  busy ← getb b b_disk; if busy : bool then sleep (Ch_buf b) L_vdisk;; mret (inl tt) else mret (inr tt).
(** What is left to do once the buffer is free. *)
Definition finish_rw : K kstate unit :=
  setvd (fun d => set_vd_info_b (arr_set (vd_info_b d) 0 None) d);;
  free_chain 0;;
  release L_vdisk.

Lemma rw_sleeps me p b x w P B D T V O I n : B !! b = Some x -> vd_idle V -> P !! me = Some p -> block_ok (b_blockno x) ->
  wsch (virtio_disk_rw b w) (S n) (io (no_lock si si) (Some me) P B D T V O I) (fun s1 k =>
    s1 = io (one_lock (L_proc me) si) (Some me) (alter (sleeping (Ch_buf b)) me P) (<[b := set_b_disk true x]> B) D T
           (issued b w (2 * b_blockno x) V) ((VIRTIO0 + VIRTIO_MMIO_QUEUE_NOTIFY, 0) :: O) I /\
    forall s2 s3, resume me L_vdisk si (S n) s2 = Ok tt s3 -> k s2 = (loop_n n (wait_buf b) tt;; finish_rw) (S n) s3).
Proof.
  intros Hb Hv Hp Hblk. rw /virtio_disk_rw. eapply wsch_skip; [by apply getb_io|]. rw /block_ok in Hblk.
  change (BSIZE / 512) with 2. rw (Z.mul_comm _ 2) u32_small; [|lia].
  eapply wsch_skip; [apply acquire_io|]. eapply wsch_skip.
  { rw /loop /=. erewrite run_bind; [|apply alloc3_io, Hv]. reflexivity. }
  cbn beta iota. eapply wsch_skip; [by apply format_io|]. eapply wsch_skip; [apply setvd_io|]. eapply wsch_skip; [apply wR_io|].
  set (B1 := <[b := set_b_disk true x]> B). assert (B1 !! b = Some (set_b_disk true x)) as Hb1.
  { apply list_lookup_insert_eq. by eapply lookup_lt_Some. }
  match goal with |- wsch _ _ ?s _ => set (s1 := s) end.
  destruct (sleep_run (Ch_buf b) L_vdisk me p s1 (S n)) as (k & Hsl & Hk); [done|done|apply one_ok|done|apply one_held|by apply one_free|].
  eapply (wsch_bind _ _ _ _ (fun s2 k => s2 = asleep me (Ch_buf b) L_vdisk s1 /\ forall s3 s4, resume me L_vdisk si (S n) s3 = Ok tt s4 -> k s3 = loop_n n (wait_buf b) tt (S n) s4)).
  - rw /wsch /loop. cbn [loop_n]. erewrite run_bind; [|by apply getb_io]. cbn [b_disk set_b_disk]. rw /mbind /K_bind Hsl. split; [done|]. intros s3 s4 Hr. cbn. rw Hk.
    change (intena (klk s1)) with si. by rw Hr.
  - intros s2 k2 [-> Hk2]. split; [done|]. intros s3 s4 Hr. by rw (Hk2 s3 s4 Hr).
Qed.

(** ** The interrupt *)

Lemma u16_next z : 0 <= z < 2 ^ 16 -> u16 (z + 1) <> z.
Proof. intros Hz. rw /u16. destruct (decide (z = 2 ^ 16 - 1)) as [->|]; [done|]. rw Z.mod_small; lia. Qed.
Lemma intr_io ie b y P B D T V O I n : length P = NPROC -> B !! b = Some y -> 0 <= vd_used_idx V < 2 ^ 16 -> vd_used_ix V = u16 (vd_used_idx V + 1) ->
  vd_used_ring V !! Z.to_nat (vd_used_idx V mod 8) = Some 0 -> vd_info_status V !! 0%nat = Some 0 -> vd_info_b V !! 0%nat = Some (Some b) ->
  exists O' I', virtio_disk_intr (S (S n)) (io (no_lock ie false) None P B D T V O I) =
    Ok tt (io (no_lock false false) None (imap (woken None (Ch_buf b)) P) (<[b := set_b_disk false y]> B) D T (set_vd_used_idx (u16 (vd_used_idx V + 1)) V) O' I').
Proof.
  intros Hl Hb Hu Hix Hring Hst Hinf. rw /virtio_disk_intr. erewrite run_bind; [|apply acquire_io].
  destruct (rR_io VIRTIO_MMIO_INTERRUPT_STATUS (one_lock L_vdisk false) None P B D T V O I (S (S n))) as (v & I' & Er). erewrite run_bind; [|exact Er].
  erewrite run_bind; [|apply wR_io]. eexists _, I'. erewrite run_bind; first last.
  { assert (Hne := u16_next _ Hu). pose proof (Z.mod_pos_bound (vd_used_idx V) 8 ltac:(lia)). rw /loop. cbn [loop_n].
  do 2 (erewrite run_bind; [|apply getvd_io]). rw Hix (proj2 (Z.eqb_neq _ _)); [|by apply not_eq_sym].
  erewrite run_bind; [|apply getvd_io]. erewrite run_bind; [|change (Z.of_nat NUM) with 8; rw /arr_get (proj2 (Z.ltb_ge (vd_used_idx V mod 8) 0)); [by rw Hring|lia]].
  erewrite run_bind; [|apply getvd_io]. erewrite run_bind; [|rw /arr_get /= Hst //]. cbn [Z.eqb negb].
  erewrite run_bind; [|apply getvd_io]. erewrite run_bind; [|rw /arr_get /= Hinf //]. erewrite run_bind; [|done].
  erewrite run_bind; [|by apply setb_io]. erewrite run_bind; [|by apply wakeup_io]. erewrite run_bind; [|apply setvd_io]. cbn [bindr mret K_ret].
  do 2 (erewrite run_bind; [|apply getvd_io]). cbn [vd_used_idx vd_used_ix set_vd_used_idx]. by rw Hix Z.eqb_refl. }
  by rw release_io.
Qed.

Lemma req_desc_lookup b w ds : length ds = 8%nat ->
  req_descs b w ds !! 0%nat = Some (Vdesc (ops_addr 0) 16 VRING_DESC_F_NEXT 1) /\
  req_descs b w ds !! 1%nat = Some (Vdesc (data_addr b) BSIZE (Z.lor (if w then 0 else VRING_DESC_F_WRITE) VRING_DESC_F_NEXT) 2) /\
  req_descs b w ds !! 2%nat = Some (Vdesc (status_addr 0) 1 VRING_DESC_F_WRITE 0).
Proof. intros Hl. do 8 (destruct ds as [|? ds]; [done|]). done. Qed.
Lemma issued_request b x w sector l c P B D T V O I : vd_idle V -> B !! b = Some x ->
  request (io l c P B D T (issued b w sector V) O I) b x w 0 1 2 sector.
Proof.
  intros [Hf Hd Ha Hu Hi Hs Ho Hse Hn Hr] Hb. destruct (req_desc_lookup b w (vd_desc V) Hd) as (H0 & H1 & H2).
  split; change (vdisk_st _) with (issued b w sector V).
  - cbn. by rw Hn.
  - change (<[Z.to_nat (vd_avail_idx V mod 8) := 0]> (vd_avail_ring V) !! Z.to_nat (vd_used_ix V mod 8) = Some 0). rw Hn.
    apply list_lookup_insert_eq. pose proof (Z.mod_pos_bound (vd_used_ix V) 8). lia.
  - exact H0.
  - exact H1.
  - exact H2.
  - cbn. apply list_lookup_insert_eq. lia.
  - exact Hb.
Qed.
Lemma sched_enter_io me p ie c P B D T V O I n : P !! me = Some p -> p_state p = RUNNABLE ->
  sched_enter me n (io (no_lock ie true) c P B D T V O I) = Ok true (io (one_lock (L_proc me) true) (Some me) (alter (set_p_state RUNNING) me P) B D T V O I).
Proof.
  intros Hp Hst. rw /sched_enter. erewrite run_bind; [|apply acquire_io]. erewrite run_bind; [|by apply (getp_run _ me p)]. by rw decide_True.
Qed.
Lemma sched_leave_io me ie P B D T V O I n :
  sched_leave me n (io (one_lock (L_proc me) ie) (Some me) P B D T V O I) = Ok tt (io (no_lock ie ie) None P B D T V O I).
Proof. rw /sched_leave. erewrite run_bind; [|done]. apply (release_io (L_proc me) ie None). Qed.

(** The disk, the writes and the cache after the transfer. *)
Definition disk_after (w : bool) x (D : gmap Z (list Z)) := if w then <[b_blockno x := b_data x]> D else D.
Definition trace_after (w : bool) x (T : list (Z * list Z)) := if w then (b_blockno x, b_data x) :: T else T.
Definition buf_after (w : bool) (D : gmap Z (list Z)) x : buf := if w then x else set_b_data (dblock D (b_blockno x)) x.

Lemma turn_io me p b x w P B D T V O I n : vd_idle V -> B !! b = Some (set_b_disk true x) -> b_disk x = false -> block_ok (b_blockno x) ->
  length P = NPROC -> P !! me = Some (sleeping (Ch_buf b) p) ->
  exists P' O' I', disk_turn me (S (S n)) (io (one_lock (L_proc me) si) (Some me) P B D T (issued b w (2 * b_blockno x) V) O I) =
    Ok true (io (one_lock (L_proc me) true) (Some me) P' (<[b := buf_after w D x]> B) (disk_after w x D) (trace_after w x T)
      (set_vd_used_idx (u16 (vd_used_ix V + 1)) (answered 0 (issued b w (2 * b_blockno x) V))) O' I') /\
    length P' = NPROC /\ exists q, P' !! me = Some q /\ p_pid q = p_pid p.
Proof.
  intros Hv Hb Hdk Hblk Hl Hp. pose proof Hv as [Hf Hd Ha Hu Hi Hs Ho Hse Hn Hr]. rw /disk_turn. erewrite run_bind; [|apply sched_leave_io].
  erewrite run_bind; [|apply intr_on_io]. set (Vi := issued b w (2 * b_blockno x) V).
  set (B2 := if w then B else <[b := set_b_data (dblock D (b_blockno x)) (set_b_disk true x)]> B).
  assert (virtio_dev (io (no_lock si true) None P B D T Vi O I) =
    io (no_lock si true) None P B2 (disk_after w x D) (trace_after w x T) (answered 0 Vi) O I) as Edev.
  { rw /block_ok in Hblk. rw (device_serves _ b (set_b_disk true x) w 0 1 2 (2 * b_blockno x)); [|by apply issued_request|lia|by rw Z.mul_comm Z.mod_mul].
    rw served_io (Z.mul_comm 2) Z.div_mul //. }
  erewrite run_bind; [|exact (f_equal (Ok tt) Edev)]. erewrite run_bind; [|apply intr_off_io].
  assert (exists y, B2 !! b = Some y /\ set_b_disk false y = buf_after w D x) as (y & Hy & Ey).
  { rw /B2 /buf_after. destruct w; [exists (set_b_disk true x)|exists (set_b_data (dblock D (b_blockno x)) (set_b_disk true x)); rw list_lookup_insert_eq; [|by eapply lookup_lt_Some]];
      (split; [done|]); destruct x; cbn in *; by subst. }
  assert (vd_used_idx (answered 0 Vi) = vd_used_ix V) as Eu by exact Hse.
  destruct (intr_io si b y P B2 (disk_after w x D) (trace_after w x T) (answered 0 Vi) O I n) as (O' & I' & Eintr);
    [done|done|by rw Eu|by rw Eu| | | |].
  { rw Eu. apply list_lookup_insert_eq. rw Hu. pose proof (Z.mod_pos_bound (vd_used_ix V) 8 ltac:(lia)). change (vd_used_ix Vi) with (vd_used_ix V). lia. }
  { apply list_lookup_insert_eq. rw /= length_insert Hs. lia. }
  { change (<[0%nat := Some b]> (vd_info_b V) !! 0%nat = Some (Some b)). apply list_lookup_insert_eq. lia. }
  erewrite run_bind; [|exact Eintr]. erewrite run_bind; [|apply intr_on_io]. set (P1 := imap _ P).
  assert (P1 !! me = Some (set_p_state RUNNABLE (sleeping (Ch_buf b) p))) as Hp1.
  { rw /P1 list_lookup_imap Hp /= /woken bool_decide_eq_true_2 //. }
  eexists (alter (set_p_state RUNNING) me P1), O', I'. split_and!.
  - rw Eu. erewrite (sched_enter_io me); [|exact Hp1|done]. rw Ey. do 2 f_equal. rw /B2. destruct w; [done|]. apply list_insert_insert_eq.
  - by rw length_alter length_imap.
  - eexists. rw list_lookup_alter decide_True // Hp1. done.
Qed.

(** ** After the interrupt *)

Lemma resume_io me ie P B D T V O I n :
  resume me L_vdisk si n (io (one_lock (L_proc me) ie) (Some me) P B D T V O I) =
    Ok tt (io (one_lock L_vdisk si) (Some me) (alter (set_p_chan None) me P) B D T V O I).
Proof.
  rw /resume. erewrite (run_bind _ _ _ _ tt (io (one_lock (L_proc me) si) (Some me) P B D T V O I)); [|done].
  erewrite (run_bind _ _ _ _ tt (io (one_lock (L_proc me) si) (Some me) (alter (set_p_chan None) me P) B D T V O I)); [|done].
  erewrite run_bind; [|apply release_io]. apply acquire_io.
Qed.
Definition freed_desc (i : Z) V : vdisk := set_vd_free (arr_set (vd_free V) i true) (set_vd_desc (arr_set (vd_desc V) i (Vdesc 0 0 0 0)) V).
Lemma free_desc_io i c P B D T V O I n : 0 <= i < 8 -> vd_free V !! Z.to_nat i = Some false -> length P = NPROC ->
  free_desc i n (io (one_lock L_vdisk si) c P B D T V O I) = Ok tt (io (one_lock L_vdisk si) c (imap (woken c Ch_disk_free) P) B D T (freed_desc i V) O I).
Proof.
  intros Hi Hf Hl. rw /free_desc. change (Z.of_nat NUM) with 8. rw (proj2 (Z.leb_gt 8 i)); [|lia]. erewrite run_bind; [|apply getvd_io].
  erewrite run_bind; [|rw /arr_get (proj2 (Z.ltb_ge i 0)); [by rw Hf|lia]]. cbv iota. do 2 (erewrite run_bind; [|apply setvd_io]). by apply wakeup_io.
Qed.
Lemma free_chain_io me b w ds P B D T V O I n : vd_desc V = req_descs b w ds -> length ds = 8%nat -> vd_free V = free8 false false false -> length P = NPROC ->
  exists P' ds', free_chain 0 (S (S (S n))) (io (one_lock L_vdisk si) (Some me) P B D T V O I) =
    Ok tt (io (one_lock L_vdisk si) (Some me) P' B D T (set_vd_free (free8 true true true) (set_vd_desc ds' V)) O I) /\
    length ds' = 8%nat /\ length P' = NPROC /\ forall p, P !! me = Some p -> P' !! me = Some p.
Proof.
  intros Hd Hl Hf HP. do 8 (destruct ds as [|? ds]; [done|]). destruct ds; [|done]. destruct V as [d a ar u ur fr ui ib is' op]. cbn in Hd, Hf. subst d fr.
  assert (forall P ch p, P !! me = Some p -> imap (woken (Some me) ch) P !! me = Some p) as Hme.
  { intros Q ch p Hp. rw list_lookup_imap Hp /= /woken bool_decide_eq_false_2 //. by intros [[]]. }
  eexists _, _. rw /free_chain /loop. cbn [loop_n]. split_and!.
  - erewrite run_bind; [|apply getvd_io].
    erewrite run_bind; [|reflexivity].
    erewrite run_bind; [|by apply free_desc_io]. cbn [vd_flags vd_next].
    change (Z.land VRING_DESC_F_NEXT VRING_DESC_F_NEXT =? 0) with false. cbn [bindr negb mret K_ret].
    erewrite run_bind; [|apply getvd_io]. erewrite run_bind; [|reflexivity]. erewrite run_bind; [|apply free_desc_io; [done|done|by rw length_imap]].
    assert (Z.land (Z.lor (if w then 0 else VRING_DESC_F_WRITE) VRING_DESC_F_NEXT) VRING_DESC_F_NEXT = 1) as E by by destruct w.
    cbn [vd_flags vd_next]. rw E. cbn [bindr negb Z.eqb mret K_ret].
    erewrite run_bind; [|apply getvd_io]. erewrite run_bind; [|reflexivity]. erewrite run_bind; [|apply free_desc_io; [done|done|by rw !length_imap]]. reflexivity.
  - done.
  - by rw !length_imap.
  - intros p Hp. by do 3 apply Hme.
Qed.
End driver.

(** ** The contract *)

Section contract.
Context {lay : Layout} {dev : VirtioDevice} {devok : DeviceOk}.
Implicit Types (s : kstate).

Lemma with_device_wp m n s me Q : cur s = Some me ->
  wsch m n s (fun s1 k => exists s2 s3, disk_turn me n s1 = Ok true s2 /\ k s2 = Ok tt s3 /\ Q tt s3) -> wp (with_device m) n s Q.
Proof.
  intros Hc. rw /wsch /wp /with_device. destruct (m n s) as [| | | |s1 k]; try done. intros (s2 & s3 & Ht & Hk & HQ). rw Hc Ht /= Hk. done.
Qed.

Lemma virtio_rw_wp me pid b (w : bool) N s x :
  calm me pid s -> vd_idle (vdisk_st s) -> bcache s !! b = Some x -> b_disk x = false -> block_ok (b_blockno x) -> (8 < N)%nat ->
  wp (virtio_driver b w) N s (fun _ s' =>
    calm me pid s' /\ rest s' = rest s /\ vd_idle (vdisk_st s') /\
    bcache s' = (if w then bcache s else <[b := set_b_data (dblock (disk s) (b_blockno x)) x]> (bcache s)) /\
    disk s' = (if w then <[b_blockno x := b_data x]> (disk s) else disk s) /\
    dtrace s' = (if w then (b_blockno x, b_data x) :: dtrace s else dtrace s)).
Proof.
  intros Hc Hv Hx Hdk Hblk HN. destruct Hc as [Hcur Hlen (p & Hp & Hpid) Hok Hfree Hnoff].
  destruct N as [|[|[|N]]]; [lia..|]. set (h := hart (klk s)). set (si := sie (klk s)).
  assert (klk s = no_lock h si si) as Hk.
  { pose proof (lk_ena _ Hok Hnoff) as He. rw /no_lock /h /si. clear Hok. destruct (klk s) as [lks hh nf ie on]. cbn in *. by subst. }
  apply (with_device_wp _ _ _ me); [done|]. pose proof (io_self s) as Es. rw Hk Hcur in Es.
  pose proof (rw_sleeps s h si me p b x w (procs s) (bcache s) (disk s) (dtrace s) (vdisk_st s) (mmio_out s) (mmio_in s) (S (S N)) Hx Hv Hp Hblk) as Hs.
  rw -Es in Hs. rw /wsch in Hs |- *. destruct (virtio_disk_rw b w _ _) as [| | | |s1 k]; try done. destruct Hs as [-> Hcont].
  set (P1 := alter (sleeping (Ch_buf b)) me (procs s)). set (B1 := <[b := set_b_disk true x]> (bcache s)).
  assert (B1 !! b = Some (set_b_disk true x)) as Hb1 by (apply list_lookup_insert_eq; by eapply lookup_lt_Some).
  assert (P1 !! me = Some (sleeping (Ch_buf b) p)) as Hp1 by (rw list_lookup_alter decide_True // Hp //).
  assert (length P1 = NPROC) as Hl1 by by rw length_alter.
  destruct (turn_io s h si me p b x w P1 B1 (disk s) (dtrace s) (vdisk_st s) ((VIRTIO0 + VIRTIO_MMIO_QUEUE_NOTIFY, 0) :: mmio_out s) (mmio_in s) (S N) Hv Hb1 Hdk Hblk Hl1 Hp1)
    as (P2 & O2 & I2 & Hturn & Hl2 & q & Hq & Eq).
  set (V2 := set_vd_used_idx _ _) in Hturn. set (B2 := <[b := buf_after w (disk s) x]> B1) in Hturn.
  eexists _. cut (exists s3, (loop_n (S (S N)) (wait_buf b) tt;; finish_rw) (S (S (S N)))
      (io s (one_lock h L_vdisk si) (Some me) (alter (set_p_chan None) me P2) B2 (disk_after w x (disk s)) (trace_after w x (dtrace s)) V2 O2 I2) = Ok tt s3 /\
    calm me pid s3 /\ rest s3 = rest s /\ vd_idle (vdisk_st s3) /\ bcache s3 = B2 /\ disk s3 = disk_after w x (disk s) /\ dtrace s3 = trace_after w x (dtrace s)).
  { intros (s3 & H1 & H2 & H3 & H4 & H5 & H6 & H7). exists s3. split; [exact Hturn|]. split; [by rw (Hcont _ _ (resume_io s h si me true _ _ _ _ _ _ _ _))|].
    split_and!; [done|done|done| |done|done]. rw H5 /B2 /B1 list_insert_insert_eq /buf_after. destruct w; [|done]. by apply list_insert_id. }
  assert (B2 !! b = Some (buf_after w (disk s) x)) as Hb2 by (apply list_lookup_insert_eq; rw length_insert; by eapply lookup_lt_Some).
  assert (b_disk (buf_after w (disk s) x) = false) as Hdk2 by (rw /buf_after; by destruct w).
  destruct (free_chain_io s h si me b w (vd_desc (vdisk_st s)) (alter (set_p_chan None) me P2) B2 (disk_after w x (disk s)) (trace_after w x (dtrace s))
     (set_vd_info_b (arr_set (vd_info_b V2) 0 None) V2) O2 I2 N eq_refl (vi_desc _ Hv) eq_refl) as (P3 & ds & Hfc & Hds & Hl3 & Hme3); [by rw length_alter|].
  eexists. split_and!.
  - erewrite run_bind; first last.
    { cbn [loop_n]. rw /wait_buf. erewrite run_bind; [|by apply getb_io]. by rw Hdk2. }
    rw /finish_rw. erewrite run_bind; [|apply setvd_io]. erewrite run_bind; [|exact Hfc]. apply release_io.
  - split; [done|done| |split; try done|done|done].
    + exists (set_p_chan None q). split; [|by rw -Hpid -Eq]. apply Hme3. by rw list_lookup_alter decide_True // Hq.
    + apply NoDup_nil_2.
  - rw -Hcur. apply io_rest. by rw Hk.
  - destruct Hv as [Hf Hd Ha Hu Hi Hs Ho Hse Hn Hr]. split; try done; cbn.
    + by rw length_insert.
    + by rw length_insert.
    + by rw !length_insert.
    + by rw !length_insert.
    + by rw length_insert.
    + by rw Hn.
    + rw /u16. by apply Z.mod_pos_bound.
  - done.
  - done.
  - done.
Qed.

(** C13: the driver transfers the block.  With a device that serves requests as
    the virtio specification says, [virtio_disk_rw], started by a process that
    holds no spin lock on an idle driver, sleeps, is woken by the interrupt and
    returns; a write has put the buffer on the disk, a read the block into the
    buffer, the buffer is owned by the kernel again, every descriptor is free,
    the two rings agree, and nothing else of the kernel has changed. *)
Theorem virtio_transfers me pid b (w : bool) N s x :
  calm me pid s -> vd_idle (vdisk_st s) -> bcache s !! b = Some x -> b_disk x = false -> block_ok (b_blockno x) -> (8 < N)%nat ->
  wp (with_device (virtio_disk_rw b w)) N s (fun _ s' =>
    calm me pid s' /\ rest s' = rest s /\ vd_idle (vdisk_st s') /\
    bcache s' = (if w then bcache s else <[b := set_b_data (dblock (disk s) (b_blockno x)) x]> (bcache s)) /\
    disk s' = (if w then <[b_blockno x := b_data x]> (disk s) else disk s) /\
    dtrace s' = (if w then (b_blockno x, b_data x) :: dtrace s else dtrace s)).
Proof. apply virtio_rw_wp. Qed.

(** So the theorems about the cache, the log and the file system hold over it. *)
Definition virtio_driver_ok : DriverOk (H := virtio_driver).
Proof. exists vd_idle. exact virtio_rw_wp. Defined.
End contract.

(** ** An instance *)

#[local] Existing Instance small_layout.

(** A device that follows the chain it finds in the available ring. *)
#[local] Instance ram_device : VirtioDevice := fun s =>
  let vd := vdisk_st s in
  default s (
    i0 ← vd_avail_ring vd !! Z.to_nat (vd_used_ix vd mod 8);
    h ← vd_desc vd !! Z.to_nat i0;
    d ← vd_desc vd !! Z.to_nat (vd_next h);
    op ← vd_ops vd !! Z.to_nat i0;
    let b := Z.to_nat ((vd_addr d - kobj O_bcache) / 1112) in
    x ← bcache s !! b;
    Some (served b x (vr_type op =? VIRTIO_BLK_T_OUT) i0 (vr_sector op) s)).
Lemma data_slot b : Z.to_nat ((data_addr b - kobj O_bcache) / 1112) = b.
Proof. rw /data_addr Z.add_simpl_l Z.mul_comm Z.div_mul //. apply Nat2Z.id. Qed.
Lemma ram_device_ok : DeviceOk.
Proof.
  intros s b x w i0 i1 i2 sector [Hone Hr Hh Hd Hst Hop Hb] _ _. rw /virtio_dev /ram_device. rw Hr. cbn [mbind option_bind]. rw Hh. cbn [mbind option_bind vd_next].
  rw Hd. cbn [mbind option_bind vd_addr]. rw Hop. cbn [mbind option_bind vr_type vr_sector]. rw data_slot Hb. by destruct w.
Qed.
(** A buffer for block 7 on an idle driver. *)
Definition vdisk0 : vdisk :=
  Vdisk (replicate 8 (Vdesc 0 0 0 0)) 65535 (replicate 8 0) 65535 (replicate 8 0) (replicate 8 true) 65535 (replicate 8 None) (replicate 8 0) (replicate 8 (Vreq 0 0 0)).
Definition buf7 : buf := Buf true false 1 7 (Sleeplock true 1) 1 0 0 (replicate 1024 9).
Definition vready : kstate := set_vdisk_st vdisk0 (set_bcache [buf7] ready0).

Lemma virtio_transfers_witness :
  wp (with_device (virtio_disk_rw 0 true)) 9 vready (fun _ s' => disk s' !! 7 = Some (replicate 1024 9)).
Proof.
  eapply wp_mono.
  - apply (virtio_transfers (devok := ram_device_ok) 0 1 0 true 9 vready buf7); [|by split|done|done|done|lia].
    split; try done; [eexists; split; [vm_compute; reflexivity|done]|apply lk_ok_zero].
  - intros [] s' (_ & _ & _ & _ & -> & _). by rw lookup_insert_eq.
Defined.
