(* ===== verification/LogInv.v ===== *)
(** * The log: transactions over the buffer cache

    Between operations the cache is [good]: every logged block is pinned in a
    valid buffer, every other buffer is free and clean.  The three phases of
    [commit] and the recovery of [log.c] are specified on the abstract cache. *)

From S2P Require Import Prelude Mem KString Spinlock Machine Kalloc Printf Vm KState Proc ProcInv FsFmt Sleeplock Bio BioInv BioSpec Log.

(** ** The cache between operations *)

Section good.
Context (d : Z).
Implicit Types (v : list buf) (D : gmap Z (list Z)) (P : list Z).

Definition pins P (x : buf) : bool := (b_dev x =? d) && bool_decide (b_blockno x ∈ P).

(** [P]: the pinned blocks. *)
Record good v D P : Prop := {
  gd_cinv : cinv d v D;
  gd_len : length v = NBUF;
  gd_unlocked : forall i x, v !! i = Some x -> sl_locked (b_lock x) = false;
  gd_ref : forall i x, v !! i = Some x -> b_refcnt x = if pins P x then 1 else 0;
  gd_pins : forall h, h ∈ P -> exists i x, v !! i = Some x /\ is_block d h x = true /\ b_valid x = true;
}.

Lemma is_block_pins P x blk : is_block d blk x = true -> pins P x = bool_decide (blk ∈ P).
Proof.
  intros [Hd Hb]%andb_prop. apply Z.eqb_eq in Hb. by rw /pins Hd Hb.
Qed.
Lemma pins_is_block P x : pins P x = true -> exists blk, blk ∈ P /\ is_block d blk x = true.
Proof.
  intros [Hd Hb]%andb_prop. apply bool_decide_eq_true in Hb. exists (b_blockno x). split; [done|].
  by rw /is_block Hd Z.eqb_refl.
Qed.
Lemma is_block_inj x b b' : is_block d b x = true -> is_block d b' x = true -> b = b'.
Proof. intros [_ H1]%andb_prop [_ H2]%andb_prop. zbool. congruence. Qed.

(** Reading a block nobody pinned gives what the disk holds. *)
Lemma good_content_disk v D P blk : good v D P -> blk ∉ P -> content d v D blk = dblock D blk.
Proof.
  intros Hg Hn. destruct (find (is_block d blk) v) as [x|] eqn:E; last first.
  { by rw /content E. }
  apply find_some in E as [Hx Hb]. apply list_elem_of_In, list_elem_of_lookup in Hx as [i Hi].
  rw (content_at d v D blk i x) //; [|apply Hg]. destruct (b_valid x) eqn:Ev; [|done].
  pose proof (gd_ref _ _ _ Hg _ _ Hi) as Hr. rw (is_block_pins P x blk) // bool_decide_eq_false_2 // in Hr.
  destruct (ci_clean _ _ _ (gd_cinv _ _ _ Hg) _ _ Hi Hr) as [_ Hc].
  apply andb_prop in Hb as [Hd Hb]. zbool. rw Hc //. congruence.
Qed.

(** ** Filling a buffer *)

(** [D'] is [D] but for block [blk], which is [c]. *)
Definition disk_upd D (blk : Z) (c : list Z) D' : Prop :=
  forall b, dblock D' b = if decide (b = blk) then c else dblock D b.

Lemma disk_upd_insert D blk c : disk_upd D blk c (<[blk := c]> D).
Proof. intros b. rw /dblock lookup_insert. repeat case_decide; by subst. Qed.
Lemma disk_upd_same D blk : disk_upd D blk (dblock D blk) D.
Proof. intros b. case_decide; by subst. Qed.

(** What [picks] says about the other buffers. *)
Lemma picks_other v D blk b x i y b' : cinv d v D -> picks d blk v b x -> v !! i = Some y -> i <> b ->
  is_block d b' y = true -> b' <> blk.
Proof.
  intros Hc [Hx Hp] Hy Hne Hb' ->. destruct Hp as [Hb|[_ Hn]].
  - apply Hne. eapply (ci_uniq _ _ _ Hc i b); done.
  - by rw (Hn i y Hy) in Hb'.
Qed.

Lemma cinv_fill v D D' blk b x z c :
  cinv d v D -> picks d blk v b x -> is_block d blk z = true ->
  0 <= b_refcnt z < 2 ^ 32 -> b_disk z = false ->
  (b_refcnt z = 0 -> sl_locked (b_lock z) = false /\ (b_valid z = true -> b_data z = c)) ->
  disk_upd D blk c D' -> cinv d (<[b := z]> v) D'.
Proof.
  intros Hc Hp Hz Hr Hdk Hcl HD. pose proof Hp as [Hx _].
  assert (forall i y, <[b := z]> v !! i = Some y -> (i = b /\ y = z) \/ (i <> b /\ v !! i = Some y)) as Hl.
  { intros i y. rw list_lookup_insert. case_decide as E.
    - destruct E as [-> _]. intros [= ->]. by left.
    - intros Hy. right. split; [|done]. intros ->. apply E. split; [done|by apply lookup_lt_Some in Hy]. }
  split.
  - intros i j y y' b' [[-> ->]|[Hi Hy]]%Hl [[-> ->]|[Hj Hy']]%Hl Hb Hb'; [done| | |].
    + exfalso. eapply (picks_other v D blk b x j y' b'); [done..|]. exact (is_block_inj _ _ _ Hb Hz).
    + exfalso. eapply (picks_other v D blk b x i y b'); [done..|]. exact (is_block_inj _ _ _ Hb' Hz).
    + by eapply (ci_uniq _ _ _ Hc).
  - intros i y [[-> ->]|[Hi Hy]]%Hl; [done|]. by eapply (ci_ref _ _ _ Hc).
  - intros i y [[-> ->]|[Hi Hy]]%Hl; [done|]. by eapply (ci_idle _ _ _ Hc).
  - intros i y [[-> ->]|[Hi Hy]]%Hl Hr0.
    + destruct (Hcl Hr0) as [Hlk Hdat]. split; [done|]. intros _ Hval. rw (Hdat Hval).
      apply andb_prop in Hz as [_ Hz]. zbool. by rw HD decide_True.
    + destruct (ci_clean _ _ _ Hc _ _ Hy Hr0) as [Hlk Hdat]. split; [done|]. intros Hd Hval.
      rw Hdat // HD decide_False //. eapply (picks_other v D blk b x i y); [done..|].
      by rw /is_block Hd !Z.eqb_refl.
Qed.

Lemma content_fill v D D' blk b x z c b' :
  cinv d v D -> cinv d (<[b := z]> v) D' -> picks d blk v b x -> is_block d blk z = true -> b_valid z = true ->
  disk_upd D blk c D' ->
  content d (<[b := z]> v) D' b' = if decide (b' = blk) then b_data z else content d v D b'.
Proof.
  intros Hc Hc' Hp Hz Hval HD. pose proof Hp as [Hx Hpx].
  assert (<[b := z]> v !! b = Some z) as Hbz.
  { apply list_lookup_insert_eq. by apply lookup_lt_Some in Hx. }
  case_decide as E; [subst b'; by rw (content_at _ _ _ _ b z) // Hval|].
  assert (dblock D' b' = dblock D b') as ED by by rw HD decide_False.
  destruct (find (is_block d b') v) as [y|] eqn:Ef.
  - apply find_some in Ef as [Hy Hb']. apply list_elem_of_In, list_elem_of_lookup in Hy as [i Hi].
    rw (content_at d v D b' i y) //. destruct (decide (i = b)) as [->|Hne].
    + simplify_eq. destruct Hpx as [Hb|[Hr Hn]]; [exfalso; apply E; by eapply is_block_inj|].
      rw content_none ?ED.
      * destruct (b_valid x) eqn:Evx; [|done]. destruct (ci_clean _ _ _ Hc _ _ Hx Hr) as [_ Hcl].
        apply andb_prop in Hb' as [Hd Hb']. zbool. rw Hcl //. by rw Hb'.
      * intros j w Hj. apply not_true_is_false. intros Hw. rw list_lookup_insert in Hj.
        case_decide as Ej; [simplify_eq; apply E; by eapply is_block_inj|].
        assert (j = b); [by eapply (ci_uniq _ _ _ Hc)|]. apply Ej. split; [done|].
        by apply lookup_lt_Some in Hx.
    + rw (content_at d _ D' b' i y) //; [|by rw list_lookup_insert_ne]. by destruct (b_valid y).
  - rw /(content d v) Ef content_none //. intros j w Hj. apply not_true_is_false. intros Hw.
    rw list_lookup_insert in Hj. case_decide; [simplify_eq; apply E; by eapply is_block_inj|].
    eapply find_none in Ef; [|apply list_elem_of_In, list_elem_of_lookup; by exists j]. congruence.
Qed.

(** A buffer that has been written out and released. *)
Definition clean_buf (blk : Z) (c : list Z) : buf := Buf true false d blk (Sleeplock false 0) 0 O O c.

Lemma good_clean v D D' P P' blk b x c :
  good v D P -> picks d blk v b x -> disk_upd D blk c D' -> blk ∉ P' ->
  (forall h, h <> blk -> (h ∈ P' <-> h ∈ P)) ->
  good (<[b := clean_buf blk c]> v) D' P' /\
  forall b', content d (<[b := clean_buf blk c]> v) D' b' = if decide (b' = blk) then c else content d v D b'.
Proof.
  intros Hg Hp HD Hnp HP. pose proof Hp as [Hx Hpx]. pose proof (gd_cinv _ _ _ Hg) as Hc.
  assert (is_block d blk (clean_buf blk c) = true) as Hz by by rw /is_block /= !Z.eqb_refl.
  assert (cinv d (<[b := clean_buf blk c]> v) D') as Hc' by by eapply (cinv_fill v D D').
  split; [|intros b'; by rw (content_fill v D D' blk b x _ c)]. split.
  - done.
  - by rw length_insert (gd_len _ _ _ Hg).
  - intros i y. rw list_lookup_insert. case_decide; [by intros [= <-]|]. apply (gd_unlocked _ _ _ Hg).
  - intros i y. rw list_lookup_insert. case_decide as E.
    { intros [= <-]. by rw (is_block_pins P' _ blk) // bool_decide_eq_false_2. }
    intros Hy. rw (gd_ref _ _ _ Hg _ _ Hy).
    assert (i <> b) as Hne by (intros ->; apply E; split; [done|by apply lookup_lt_Some in Hx]).
    destruct (b_dev y =? d) eqn:Ed; [|by rw /pins Ed].
    assert (is_block d (b_blockno y) y = true) as Hb by by rw /is_block Ed Z.eqb_refl.
    rw !(is_block_pins _ _ _ Hb).
    assert (b_blockno y <> blk) as Hbl by exact (picks_other v D blk b x i y _ Hc Hp Hy Hne Hb).
    by rw (bool_decide_ext _ _ (HP _ Hbl)).
  - intros h Hh. assert (h <> blk) as Hne by (intros ->; done). apply HP in Hh; [|done].
    destruct (gd_pins _ _ _ Hg h Hh) as (i & y & Hy & Hb & Hval). exists i, y. split_and!; [|done..].
    rw list_lookup_insert_ne //. intros <-. simplify_eq. destruct Hpx as [Hb'|[Hr _]].
    + apply Hne. by eapply is_block_inj.
    + rw (gd_ref _ _ _ Hg _ _ Hx) (is_block_pins _ _ _ Hb) bool_decide_eq_true_2 // in Hr.
Qed.

(** A pinned buffer read and given back. *)
Lemma good_same v D P h b y : good v D P -> h ∈ P -> v !! b = Some y -> is_block d h y = true ->
  good (<[b := Buf true false d h (Sleeplock false 0) 1 O O (content d v D h)]> v) D P /\
  forall b', content d (<[b := Buf true false d h (Sleeplock false 0) 1 O O (content d v D h)]> v) D b' = content d v D b'.
Proof.
  intros Hg Hh Hy Hb. set (z := Buf _ _ _ _ _ _ _ _ _). pose proof (gd_cinv _ _ _ Hg) as Hc.
  assert (is_block d h z = true) as Hz by by rw /is_block /= !Z.eqb_refl.
  assert (picks d h v b y) as Hp by (split; [done|by left]).
  assert (cinv d (<[b := z]> v) D) as Hc'.
  { eapply (cinv_fill v D D); [done..| |apply disk_upd_same]. done. }
  split.
  2:{ intros b'. rw (content_fill v D D h b y z (dblock D h)) //; [|apply disk_upd_same].
      case_decide; by subst. }
  split.
  - done.
  - by rw length_insert (gd_len _ _ _ Hg).
  - intros i x. rw list_lookup_insert. case_decide; [by intros [= <-]|]. apply (gd_unlocked _ _ _ Hg).
  - intros i x. rw list_lookup_insert. case_decide; [|apply (gd_ref _ _ _ Hg)].
    intros [= <-]. by rw (is_block_pins _ _ _ Hz) bool_decide_eq_true_2.
  - intros h' Hh'. destruct (gd_pins _ _ _ Hg h' Hh') as (i & x & Hx & Hb' & Hval).
    destruct (decide (i = b)) as [->|Hne]; [|exists i, x; by rw list_lookup_insert_ne].
    exists b, z. simplify_eq. assert (h' = h) as -> by by eapply is_block_inj.
    split_and!; [|done|done]. apply list_lookup_insert_eq. by apply lookup_lt_Some in Hy.
Qed.

(** ** Room *)

Lemma free_buffer v D P : cinv d v D -> length v = NBUF -> (forall i x, v !! i = Some x -> b_refcnt x <> 0 -> pins P x = true) ->
  (length P < NBUF)%nat -> exists i x, v !! i = Some x /\ b_refcnt x = 0.
Proof.
  intros Hc Hv Hp Hlen. destruct (decide (Exists (fun x => b_refcnt x = 0) v)) as [H|H].
  { apply Exists_exists in H as (x & Hx & Hr). apply list_elem_of_lookup in Hx as [i Hi]. eauto. }
  exfalso. assert (forall k z, v !! k = Some z -> pins P z = true) as Hpin.
  { intros k z Hz. apply (Hp k); [done|]. intros Hr. apply H, Exists_exists. exists z. split; [|done]. apply list_elem_of_lookup. eauto. }
  assert (NoDup (b_blockno <$> v)) as Hnd.
  { apply NoDup_alt. intros i j blk Hi Hj. rw !list_lookup_fmap in Hi, Hj.
    apply fmap_Some in Hi as (x & Hx & ->), Hj as (y & Hy & E).
    eapply (ci_uniq _ _ _ Hc i j x y (b_blockno x)); [done..| |].
    - pose proof (Hpin _ _ Hx) as [Hd _]%andb_prop. by rw /is_block Hd Z.eqb_refl.
    - pose proof (Hpin _ _ Hy) as [Hd _]%andb_prop. by rw /is_block Hd E Z.eqb_refl. }
  assert (incl (b_blockno <$> v) P) as Hin.
  { intros blk Hb. apply list_elem_of_In, list_elem_of_fmap in Hb as (x & -> & Hx).
    apply list_elem_of_lookup in Hx as [i Hi]. apply list_elem_of_In.
    pose proof (Hpin _ _ Hi) as [_ Ep]%andb_prop. by apply bool_decide_eq_true in Ep. }
  apply NoDup_ListNoDup in Hnd. pose proof (NoDup_incl_length Hnd Hin) as Hle.
  rw length_fmap Hv in Hle. lia.
Qed.
Lemma room_picks v blk : (exists i x, v !! i = Some x /\ b_refcnt x = 0) -> exists b x, picks d blk v b x.
Proof.
  intros (i & x & Hx & Hr). destruct (find (is_block d blk) v) as [y|] eqn:E.
  - apply find_some in E as [Hy Hb]. apply list_elem_of_In, list_elem_of_lookup in Hy as [j Hj].
    exists j, y. split; [done|by left].
  - exists i, x. split; [done|]. right. split; [done|]. intros j y Hj. eapply find_none in E; [done|].
    apply list_elem_of_In, list_elem_of_lookup. eauto.
Qed.
Lemma good_room v D P blk : good v D P -> (length P < NBUF)%nat -> exists b x, picks d blk v b x.
Proof.
  intros [Hc Hv _ Hr _] Hlen. apply room_picks, (free_buffer v D P); [done|done| |done].
  intros i x Hx Hne. rw (Hr i x Hx) in Hne. by destruct (pins P x).
Qed.

End good.

Section ops.
Context {lay : Layout} {drv : DiskDriver} {dok : DriverOk}.
Context (me : nat) (pid : Z) (d : Z).
Implicit Types (s : kstate) (v : list buf) (D : gmap Z (list Z)) (W : list (Z * list Z)) (P : list Z).

Abbreviation cst := (cst me pid).
Abbreviation got := (got pid).

Lemma cst_log s0 s v D W : cst s0 s v D W -> log s = log s0.
Proof. intros Hs. pose proof (cs_rest _ _ _ _ _ _ _ Hs) as H. by apply (f_equal log) in H. Qed.
Lemma getlog_run {A} s0 s v D W (f : logst -> A) n : cst s0 s v D W -> getlog f n s = Ok (f (log s0)) s.
Proof. intros Hs. by rw /getlog /gets (cst_log _ _ _ _ _ Hs). Qed.

(** [for (tail = 0; tail < log.lh.n; tail++)] with [k] blocks logged. *)
Lemma wp_for_log (I : nat -> kstate -> Prop) k body N s Q :
  I O s -> (k < N)%nat -> (forall i s, I i s -> log_n (log s) = Z.of_nat k) ->
  (forall i s, (i < k)%nat -> I i s -> wp (body (Z.of_nat i)) N s (fun _ s' => I (S i) s')) ->
  (forall s, I k s -> Q tt s) -> wp (for_log body) N s Q.
Proof.
  intros H0 HN Hn Hstep HQ.
  apply (wp_loop (fun t s => exists i : nat, t = Z.of_nat i /\ (i <= k)%nat /\ I i s) (fun t _ => k - Z.to_nat t)%nat).
  { exists O. split_and!; [done|lia|done]. }
  { simpl. lia. }
  intros t s1 (i & -> & Hi & HI). apply wp_bind. rw /wp /getlog /gets (Hn i s1 HI).
  destruct (Z.ltb_spec (Z.of_nat i) (Z.of_nat k)) as [Hlt|Hge].
  - apply wp_bind. eapply wp_mono; [apply Hstep; [lia|done]|]. intros [] s2 HI2. apply wp_ret.
    split; [|lia]. exists (S i). split_and!; [lia|lia|done].
  - apply wp_ret. apply HQ. by replace k with i by lia.
Qed.

(** ** A log block and its home block, read together *)

Lemma good_unlocked_ref v D P blk : good d v D P -> forall i x, v !! i = Some x -> is_block d blk x = true ->
  sl_locked (b_lock x) = false /\ b_refcnt x + 1 < 2 ^ 32.
Proof.
  intros Hg i x Hx _. split; [by eapply (gd_unlocked _ _ _ _ Hg)|].
  rw (gd_ref _ _ _ _ Hg _ _ Hx). by case_match.
Qed.

Lemma picks_unpinned v D P A a x : good d v D P -> A ∉ P -> picks d A v a x -> b_refcnt x = 0.
Proof.
  intros Hg HA [Hx [Hb|[Hr _]]]; [|done].
  by rw (gd_ref _ _ _ _ Hg _ _ Hx) (is_block_pins _ _ _ _ Hb) bool_decide_eq_false_2.
Qed.
Lemma picks_pinned v D P h b y : good d v D P -> h ∈ P -> picks d h v b y ->
  is_block d h y = true /\ b_refcnt y = 1.
Proof.
  intros Hg Hh [Hy Hp]. assert (is_block d h y = true) as Hb.
  { destruct Hp as [?|[_ Hn]]; [done|]. destruct (gd_pins _ _ _ _ Hg h Hh) as (i & z & Hz & Hb & _).
    by rw (Hn i z Hz) in Hb. }
  split; [done|]. by rw (gd_ref _ _ _ _ Hg _ _ Hy) (is_block_pins _ _ _ _ Hb) bool_decide_eq_true_2.
Qed.

(** [v] with the log block [A] in buffer [a], and what that leaves for [h]. *)
Lemma read_first v D P A h a x c :
  good d v D P -> A ∉ P -> A <> h -> (h ∈ P \/ P = []) -> picks d A v a x ->
  let v1 := <[a := got d A c x]> v in
  cinv d v1 D /\ content d v1 D h = content d v D h /\
  (forall i z, v1 !! i = Some z -> is_block d h z = true ->
     sl_locked (b_lock z) = false /\ b_refcnt z + 1 < 2 ^ 32) /\
  (exists b y, picks d h v1 b y) /\
  (forall b y, picks d h v1 b y -> b <> a /\ v !! b = Some y /\ b_refcnt y = if decide (h ∈ P) then 1 else 0).
Proof.
  intros Hg HA Hne Hh Hp v1. pose proof Hp as [Hx Hpx]. pose proof (picks_unpinned _ _ _ _ _ _ Hg HA Hp) as Hr.
  assert (is_block d A (got d A c x) = true) as Hz by by rw /is_block /= !Z.eqb_refl.
  assert (v1 !! a = Some (got d A c x)) as Ha1 by (apply list_lookup_insert_eq; by apply lookup_lt_Some in Hx).
  assert (forall i, i <> a -> v1 !! i = v !! i) as Hi1 by (intros i Hi; by apply list_lookup_insert_ne).
  assert (cinv d v1 D) as Hc1.
  { eapply (cinv_fill d v D D A a x _ (dblock D A)); [apply Hg|done|done|simpl; lia|done| |apply disk_upd_same].
    simpl. lia. }
  assert (is_block d h (got d A c x) = false) as Hnh.
  { apply not_true_is_false. intros Hb. apply Hne. by eapply is_block_inj. }
  split_and!.
  - done.
  - by rw (content_fill d v D D A a x _ (dblock D A)) ?decide_False //; [apply Hg|apply disk_upd_same].
  - intros i z Hz1 Hb. destruct (decide (i = a)) as [->|Hia]; [simplify_eq; congruence|].
    rw (Hi1 i) // in Hz1. by eapply good_unlocked_ref.
  - destruct (find (is_block d h) v1) as [z|] eqn:Ef.
    { apply find_some in Ef as [Hzz Hb]. apply list_elem_of_In, list_elem_of_lookup in Hzz as [i Hi].
      exists i, z. split; [done|by left]. }
    assert (forall j y, v1 !! j = Some y -> is_block d h y = false) as Hnone.
    { intros j y Hj. eapply find_none in Ef; [done|]. apply list_elem_of_In, list_elem_of_lookup. eauto. }
    destruct Hh as [Hh| ->].
    { exfalso. destruct (gd_pins _ _ _ _ Hg h Hh) as (i & z & Hzz & Hb & _).
      destruct (decide (i = a)) as [->|Hia].
      - simplify_eq. rw (gd_ref _ _ _ _ Hg _ _ Hx) (is_block_pins _ _ _ _ Hb) bool_decide_eq_true_2 // in Hr.
      - rw (Hnone i z) // in Hb. by rw (Hi1 i). }
    pose proof (gd_len _ _ _ _ Hg) as Hlen. rw /NBUF in Hlen.
    set (i := if decide (a = O) then 1%nat else O).
    assert (i <> a /\ (i < length v)%nat) as [Hia Hil] by (rw /i; case_decide; lia).
    destruct (lookup_lt_is_Some_2 v i Hil) as [y Hy]. exists i, y. split; [by rw (Hi1 i)|].
    right. split; [|done]. rw (gd_ref _ _ _ _ Hg _ _ Hy). case_match eqn:Ep; [|done].
    apply pins_is_block in Ep as (? & Hin & _). by apply not_elem_of_nil in Hin.
  - intros b y [Hy Hpy]. assert (b <> a) as Hba.
    { intros ->. rw Ha1 in Hy. simplify_eq. destruct Hpy as [Hb|[Hrz _]]; [congruence|]. simpl in Hrz. lia. }
    rw (Hi1 b) // in Hy. split_and!; [done..|]. rw (gd_ref _ _ _ _ Hg _ _ Hy).
    destruct Hpy as [Hb|[Hrz Hn]].
    + rw (is_block_pins _ _ _ _ Hb). by case_decide; [rw bool_decide_eq_true_2|rw bool_decide_eq_false_2].
    + rw -(gd_ref _ _ _ _ Hg _ _ Hy) Hrz. case_decide as Hin; [|done]. exfalso.
      destruct (gd_pins _ _ _ _ Hg h Hin) as (i & z & Hzz & Hb & _).
      destruct (decide (i = a)) as [->|Hia].
      * simplify_eq. rw (gd_ref _ _ _ _ Hg _ _ Hx) (is_block_pins _ _ _ _ Hb) bool_decide_eq_true_2 // in Hr.
      * rw (Hn i z) // in Hb. by rw (Hi1 i).
Qed.

Lemma two_reads s0 s v D W P A h N :
  cst s0 s v D W -> good d v D P -> A ∉ P -> A <> h -> (h ∈ P \/ P = []) -> (length P < NBUF)%nat -> (NBUF < N)%nat -> block_ok A -> block_ok h ->
  wp (bread d A) N s (fun a s1 => exists x, picks d A v a x /\ b_refcnt x = 0 /\
    cst s0 s1 (<[a := got d A (content d v D A) x]> v) D W /\
    wp (bread d h) N s1 (fun b s2 => exists y, b <> a /\ v !! b = Some y /\
      picks d h (<[a := got d A (content d v D A) x]> v) b y /\
      b_refcnt y = (if decide (h ∈ P) then 1 else 0) /\
      cst s0 s2 (<[b := got d h (content d v D h) y]> (<[a := got d A (content d v D A) x]> v)) D W)).
Proof.
  intros Hs Hg HA Hne Hh HlP HN HbA Hbh.
  eapply wp_mono; [apply (bread_wp me pid s0 s v D W d A N); [done|apply Hg|done|done| |]|].
  { by eapply good_unlocked_ref. }
  { by eapply good_room. }
  intros a s1 (x & Hp & Hs1). exists x. split_and!; [done|by eapply picks_unpinned|done|].
  destruct (read_first v D P A h a x (content d v D A) Hg HA Hne Hh Hp) as (Hc1 & Ec & Hun & Hrm & Hpk).
  eapply wp_mono; [by apply (bread_wp me pid s0 s1 (<[a := got d A (content d v D A) x]> v) D W d h N)|].
  intros b s2 (y & Hy & Hs2). exists y. destruct (Hpk b y Hy) as (? & ? & ?). rw Ec in Hs2. done.
Qed.

Lemma set_b_refcnt_id x r : b_refcnt x = r -> set_b_refcnt r x = x.
Proof. destruct x; simpl. by intros <-. Qed.

(** The buffers [a] and [b] updated in turns. *)
Lemma insert_turns {X} (v : list X) a b p1 q1 p2 q2 p3 : a <> b ->
  <[a := p3]> (<[b := q2]> (<[a := p2]> (<[b := q1]> (<[a := p1]> v)))) = <[a := p3]> (<[b := q2]> v).
Proof.
  intros Hne. apply list_eq. intros i. rw !list_lookup_insert !length_insert.
  repeat case_decide; naive_solver.
Qed.
Lemma insert_turn {X} (v : list X) a b p1 q1 p2 : a <> b ->
  <[a := p2]> (<[b := q1]> (<[a := p1]> v)) = <[a := p2]> (<[b := q1]> v).
Proof.
  intros Hne. apply list_eq. intros i. rw !list_lookup_insert !length_insert.
  repeat case_decide; naive_solver.
Qed.

Section pair.
Context (s0 s : kstate) (v : list buf) (D : gmap Z (list Z)) (W : list (Z * list Z)) (P : list Z).
Context (A h : Z) (a b : nat) (x y : buf) (N : nat).
Context (Hg : good d v D P) (HA : A ∉ P) (Hne : A <> h) (Hab : b <> a) (HN : (NBUF < N)%nat) (HbA : block_ok A) (Hbh : block_ok h).
Context (Hx : picks d A v a x) (Hrx : b_refcnt x = 0) (Hy : v !! b = Some y).
Abbreviation cA := (content d v D A).
Abbreviation ch := (content d v D h).
Abbreviation va := (<[a := got d A cA x]> v).
Context (Hpy : picks d h va b y).
Context (Hs : cst s0 s (<[b := got d h ch y]> va) D W).

Lemma pair_len : (a < length v)%nat /\ (b < length v)%nat.
Proof. destruct Hx as [Hx' _]. by split; eapply lookup_lt_Some. Qed.

(** [write_log]: the home block goes to the log block. *)
Lemma finish_log : h ∈ P -> b_refcnt y = 1 ->
  wp (dt ← getb b b_data; setb a (set_b_data dt);; bwrite a;; brelse b;; brelse a) N s (fun _ s' =>
    exists v', cst s0 s' v' (<[A := ch]> D) ((A, ch) :: W) /\ good d v' (<[A := ch]> D) P /\
      forall b', content d v' (<[A := ch]> D) b' = if decide (b' = A) then ch else content d v D b').
Proof.
  intros Hh Hry. destruct pair_len as [Hla Hlb]. pose proof HN as HN'. rw /NBUF in HN'.
  assert (<[b := got d h ch y]> va !! b = Some (got d h ch y)) as Hb1
    by (apply list_lookup_insert_eq; by rw length_insert).
  assert (<[b := got d h ch y]> va !! a = Some (got d A cA x)) as Ha1.
  { rw list_lookup_insert_ne //. by apply list_lookup_insert_eq. }
  apply wp_bind. rw /wp (cst_getb _ _ _ _ _ _ _ b _ b_data N Hs Hb1) //.
  apply wp_bind. eapply wp_mono; [by eapply cst_setb|]. intros [] s1 Hs1.
  set (p2 := strip _) in Hs1. change (b_data (got d h ch y)) with ch in p2.
  apply wp_bind. eapply wp_mono.
  { eapply (bwrite_wp _ _ _ _ _ _ _ a p2 N Hs1); [|done|done|done|lia].
    apply list_lookup_insert_eq. by rw !length_insert. }
  intros [] s2 Hs2. apply wp_bind. eapply wp_mono.
  { eapply (brelse_wp _ _ _ _ _ _ _ b (got d h ch y) N Hs2); [by rw list_lookup_insert_ne|done|].
    simpl. lia. }
  intros [] s3 Hs3. eapply wp_mono.
  { eapply (brelse_wp _ _ _ _ _ _ _ a p2 N Hs3); [|done|simpl; lia].
    rw list_lookup_insert_ne //. apply list_lookup_insert_eq. by rw !length_insert. }
  intros [] s4 Hs4. rw insert_turns in Hs4; [|congruence].
  assert (is_block d h y = true) as Hb by (destruct Hpy as [_ [Hb|[? _]]]; [done|lia]).
  destruct (good_same d v D P h b y Hg Hh Hy Hb) as [Hg1 Hc1].
  replace (released (got d h ch y)) with (Buf true false d h (Sleeplock false 0) 1 O O ch) in Hs4
    by by rw /released /got /set_b_lock /= Hry.
  replace (released p2) with (clean_buf d A ch) in Hs4 by by rw /released /p2 /clean_buf /set_b_lock /= Hrx.
  set (vb := <[b := _]> v) in *.
  destruct (good_clean d vb D (<[A := ch]> D) P P A a x ch Hg1) as [Hg2 Hc2]; [|apply disk_upd_insert|done|done|].
  { destruct Hx as [Hx' Hpx]. split; [by rw list_lookup_insert_ne|]. destruct Hpx as [?|[? Hn]]; [by left|right].
    split; [done|]. intros j z. rw list_lookup_insert. case_decide; [|apply Hn]. intros [= <-].
    apply not_true_is_false. intros [_ E]%andb_prop. simpl in E. zbool. congruence. }
  eexists. split_and!; [exact Hs4|done|]. intros b'. rw Hc2 Hc1. done.
Qed.

(** [install_trans]: the log block goes home; [rec]: recovering. *)
Lemma finish_install (rec : bool) P' :
  b_refcnt y = (if rec then 0 else 1) -> h ∉ P' -> (forall k, k <> h -> (k ∈ P' <-> k ∈ P)) ->
  wp (dt ← getb a b_data; setb b (set_b_data dt);; bwrite b;; when (negb rec) (bunpin b);; brelse a;; brelse b)
    N s (fun _ s' =>
    exists v', cst s0 s' v' (<[h := cA]> D) ((h, cA) :: W) /\ good d v' (<[h := cA]> D) P' /\
      forall b', content d v' (<[h := cA]> D) b' = if decide (b' = h) then cA else content d v D b').
Proof.
  intros Hry HP1 HP2. destruct pair_len as [Hla Hlb]. pose proof HN as HN'. rw /NBUF in HN'.
  assert (<[b := got d h ch y]> va !! b = Some (got d h ch y)) as Hb1
    by (apply list_lookup_insert_eq; by rw length_insert).
  assert (<[b := got d h ch y]> va !! a = Some (got d A cA x)) as Ha1.
  { rw list_lookup_insert_ne //. by apply list_lookup_insert_eq. }
  apply wp_bind. rw /wp (cst_getb _ _ _ _ _ _ _ a _ b_data N Hs Ha1) //.
  apply wp_bind. eapply wp_mono; [by eapply cst_setb|]. intros [] s1 Hs1.
  set (q2 := strip _) in Hs1. change (b_data (got d A cA x)) with cA in q2.
  rw list_insert_insert_eq in Hs1.
  assert (<[b := q2]> va !! b = Some q2) as Hb2 by (apply list_lookup_insert_eq; by rw length_insert).
  apply wp_bind. eapply wp_mono; [by eapply (bwrite_wp _ _ _ _ _ _ _ b q2 N Hs1); [| | | |lia]|].
  intros [] s2 Hs2. change (b_blockno q2) with h in Hs2. change (b_data q2) with cA in Hs2.
  assert (wp (when (negb rec) (bunpin b)) N s2 (fun _ s3 =>
    cst s0 s3 (<[b := set_b_refcnt 1 q2]> va) (<[h := cA]> D) ((h, cA) :: W))) as Hup.
  { destruct rec; simpl.
    - apply wp_ret. rw set_b_refcnt_id; [done|]. simpl. lia.
    - eapply wp_mono; [eapply (bunpin_wp _ _ _ _ _ _ _ b q2 N Hs2); [done|simpl; lia]|].
      intros [] s3. rw list_insert_insert_eq.
      by replace (b_refcnt q2 - 1) with 1 by (simpl; lia). }
  apply wp_bind. eapply wp_mono; [exact Hup|]. intros [] s3 Hs3.
  apply wp_bind. eapply wp_mono.
  { eapply (brelse_wp _ _ _ _ _ _ _ a (got d A cA x) N Hs3); [|done|simpl; lia].
    rw list_lookup_insert_ne //. by apply list_lookup_insert_eq. }
  intros [] s4 Hs4. rw insert_turn in Hs4; [|congruence].
  eapply wp_mono.
  { eapply (brelse_wp _ _ _ _ _ _ _ b (set_b_refcnt 1 q2) N Hs4); [|done|simpl; lia].
    rw list_lookup_insert_ne; [|congruence]. by apply list_lookup_insert_eq. }
  intros [] s5 Hs5. rw insert_turn in Hs5; [|congruence].
  replace (released (set_b_refcnt 1 q2)) with (clean_buf d h cA) in Hs5 by done.
  replace (released (got d A cA x)) with (clean_buf d A cA) in Hs5
    by by rw /released /got /clean_buf /set_b_lock /= Hrx.
  destruct (good_clean d v D D P P A a x cA Hg Hx) as [Hg1 Hc1]; [|done|done|].
  { rw (good_content_disk d v D P A Hg HA). apply disk_upd_same. }
  set (v1 := <[a := clean_buf d A cA]> v) in *.
  destruct (good_clean d v1 D (<[h := cA]> D) P P' h b y cA Hg1) as [Hg2 Hc2]; [|apply disk_upd_insert|done|done|].
  { destruct Hpy as [Hy1 Hp]. split; [by rw list_lookup_insert_ne|]. destruct Hp as [?|[? Hn]]; [by left|right].
    split; [done|]. intros j z. rw list_lookup_insert. case_decide as Ej.
    - intros [= <-]. apply not_true_is_false. intros [_ E]%andb_prop. simpl in E. zbool. congruence.
    - intros Hz. apply (Hn j). rw list_lookup_insert_ne //. intros E. apply Ej. by split. }
  eexists. split_and!; [exact Hs5|done|]. intros b'. rw Hc2 Hc1. repeat case_decide; congruence.
Qed.
End pair.

End ops.
