(* ===== verification/LogSpec.v ===== *)
(** * Transactions and crashes

    What [commit] writes to the disk, and in which order; what recovery makes
    of a disk; and that a crash at any point of a commit leaves, after
    recovery, either none or all of the transaction. *)

From S2P Require Import Prelude Mem KString Spinlock Machine Kalloc Printf Vm KState Proc ProcInv FsFmt FsFmtSpec Sleeplock Bio BioInv BioSpec Log LogInv.

(** ** Sequences of writes *)

Definition write1 (D : gmap Z (list Z)) (w : Z * list Z) : gmap Z (list Z) := <[w.1 := w.2]> D.
Definition writes (ws : list (Z * list Z)) (D : gmap Z (list Z)) : gmap Z (list Z) := fold_left write1 ws D.
(** The same on block contents. *)
Definition cupd1 (c : Z -> list Z) (w : Z * list Z) : Z -> list Z :=
  fun b => if decide (b = w.1) then w.2 else c b.
Definition cupd (ws : list (Z * list Z)) (c : Z -> list Z) : Z -> list Z := fold_left cupd1 ws c.

Lemma writes_app ws ws' D : writes (ws ++ ws') D = writes ws' (writes ws D).
Proof. apply fold_left_app. Qed.
Lemma cupd_app ws ws' c : cupd (ws ++ ws') c = cupd ws' (cupd ws c).
Proof. apply fold_left_app. Qed.
Lemma cupd_ext ws c c' b : c b = c' b -> cupd ws c b = cupd ws c' b.
Proof.
  revert c c'. induction ws as [|w ws IH]; intros c c' E; [done|]. apply IH. rw /cupd1.
  by case_decide.
Qed.
Lemma dblock_writes ws D b : dblock (writes ws D) b = cupd ws (dblock D) b.
Proof.
  revert D. induction ws as [|w ws IH]; intros D; [done|]. simpl.
  change (writes (w :: ws) D) with (writes ws (write1 D w)). rw IH. apply cupd_ext.
  rw /write1 /cupd1 /dblock lookup_insert. repeat case_decide; simpl; congruence.
Qed.
(** Blocks not written keep their contents. *)
Lemma cupd_out ws c b : b ∉ ws.*1 -> cupd ws c b = c b.
Proof.
  revert c. induction ws as [|w ws IH]; intros c Hb; [done|]. simpl in Hb.
  apply not_elem_of_cons in Hb as [Hne Hb]. rw /= IH // /cupd1 decide_False //.
Qed.
(** Blocks that are only ever written with [x] have [x]. *)
Lemma cupd_in ws c b x : b ∈ ws.*1 -> (forall y, (b, y) ∈ ws -> y = x) -> cupd ws c b = x.
Proof.
  revert c. induction ws as [|w ws IH]; intros c Hb Hx; [by apply not_elem_of_nil in Hb|].
  destruct (decide (b ∈ ws.*1)) as [Hin|Hin].
  - apply IH; [done|]. intros y Hy. apply Hx. by right.
  - rw /= cupd_out // /cupd1. apply elem_of_cons in Hb as [-> |?]; [|done].
    rw decide_True //. apply Hx. destruct w. left.
Qed.

(** ** The header block *)

Fixpoint put_words (c : list Z) (off : Z) (l : list Z) : list Z :=
  match l with [] => c | x :: l' => put_words (stb 4 c off x) (off + 4) l' end.
(** The header with [n] blocks [hs], written over [c]. *)
Definition hdr (n : Z) (hs : list Z) (c : list Z) : list Z := put_words (stb 4 c 0 n) 4 hs.
Definition hdr_n (c : list Z) : Z := i32 (ldb 4 c 0).
Definition hdr_block (c : list Z) (i : Z) : Z := i32 (ldb 4 c (4 + 4 * i)).

Lemma put_words_snoc c off l x :
  put_words c off (l ++ [x]) = stb 4 (put_words c off l) (off + 4 * Z.of_nat (length l)) x.
Proof.
  revert c off. induction l as [|y l IH]; intros c off; simpl; [do 2 f_equal; lia|].
  rw IH. f_equal. lia.
Qed.
Lemma length_put_words c off l : 0 <= off -> off + 4 * Z.of_nat (length l) <= Z.of_nat (length c) ->
  length (put_words c off l) = length c.
Proof.
  revert c off. induction l as [|y l IH]; intros c off H0 H1; simpl in *; [done|].
  rw IH; [by rw length_stb; [|split; lia]|lia|rw length_stb; [lia|split; lia]].
Qed.
Lemma ldb_put_words_before c off l k : 0 <= k -> k + 4 <= off -> off + 4 * Z.of_nat (length l) <= Z.of_nat (length c) ->
  ldb 4 (put_words c off l) k = ldb 4 c k.
Proof.
  revert c off. induction l as [|y l IH]; intros c off H0 H1 H2; simpl in *; [done|].
  rw IH; [|lia|lia|rw length_stb; [lia|split; lia]]. rw ldb_stb_ne //; [split; lia|lia].
Qed.
Lemma ldb_put_words c off l i x : 0 <= off -> off + 4 * Z.of_nat (length l) <= Z.of_nat (length c) ->
  l !! i = Some x -> ldb 4 (put_words c off l) (off + 4 * Z.of_nat i) = x mod 2 ^ 32.
Proof.
  revert c off i. induction l as [|y l IH]; intros c off i H0 H1 Hi; simpl in *; [done|].
  destruct i as [|i]; simpl in Hi.
  - simplify_eq. rw Z.add_0_r ldb_put_words_before; [|lia|lia|rw length_stb; [lia|split; lia]].
    rw ldb_stb //. split; lia.
  - replace (off + 4 * Z.of_nat (S i)) with (off + 4 + 4 * Z.of_nat i) by lia.
    apply IH; [lia| |done]. rw length_stb; [lia|split; lia].
Qed.

Lemma i32_of_u32 x : 0 <= x < 2 ^ 31 -> i32 (x mod 2 ^ 32) = x.
Proof. intros Hx. rw Z.mod_small; [|lia]. apply i32_small. lia. Qed.

Lemma hdr_n_hdr n hs c : 0 <= n < 2 ^ 31 -> (length hs <= 29)%nat -> length c = 1024%nat -> hdr_n (hdr n hs c) = n.
Proof.
  intros Hn Hl Hc. rw /hdr_n /hdr ldb_put_words_before; [|lia|lia|rw length_stb; [lia|split; simpl; lia]].
  rw ldb_stb; [|split; simpl; lia]. by rw i32_of_u32.
Qed.
Lemma hdr_block_hdr n hs c i h : hs !! i = Some h -> 0 <= h < 2 ^ 31 -> (length hs <= 29)%nat -> length c = 1024%nat ->
  hdr_block (hdr n hs c) (Z.of_nat i) = h.
Proof.
  intros Hi Hh Hl Hc. rw /hdr_block /hdr (ldb_put_words _ _ _ _ h) //; [by rw i32_of_u32|].
  rw length_stb; [lia|split; simpl; lia].
Qed.
Lemma length_hdr n hs c : (length hs <= 29)%nat -> length c = 1024%nat -> length (hdr n hs c) = 1024%nat.
Proof.
  intros Hl Hc. assert (fits c 0 4) by (split; simpl; lia). rw /hdr length_put_words; [by rw length_stb|lia|rw length_stb //; lia].
Qed.

(** ** The phases of a commit *)

Section commit.
Context {lay : Layout} {drv : DiskDriver} {dok : DriverOk}.
Context (me : nat) (pid : Z) (d st : Z).
Implicit Types (s : kstate) (v : list buf) (D : gmap Z (list Z)) (W : list (Z * list Z)) (hs : list Z) (L : logst).

Abbreviation cst := (cst me pid).

(** Block numbers of the log, and home blocks. *)
Definition log_area (b : Z) : Prop := st <= b <= st + 29.
Definition home_ok (h : Z) : Prop := 0 <= h < 2 ^ 31 /\ ~ log_area h.

(** The in-memory log holds the blocks [hs]. *)
Record lcfg L hs : Prop := {
  lc_dev : u32 (log_dev L) = d;
  lc_start : log_start L = st;
  lc_n : log_n L = Z.of_nat (length hs);
  lc_blocks : forall i h, hs !! i = Some h -> log_block L !! i = Some h;
  lc_area : 0 <= st < 2 ^ 31 - 30;
  lc_home : Forall home_ok hs;
  lc_max : (length hs <= 29)%nat;
}.

(** The writes to the log and to the home blocks. *)
Definition log_writes (c : Z -> list Z) hs : list (Z * list Z) :=
  imap (fun i h => (st + 1 + Z.of_nat i, c h)) hs.
Definition home_writes (c : nat -> Z -> list Z) hs : list (Z * list Z) := imap (fun i h => (h, c i h)) hs.

Lemma log_writes_snoc c hs h : log_writes c (hs ++ [h]) = log_writes c hs ++ [(st + 1 + Z.of_nat (length hs), c h)].
Proof. by rw /log_writes imap_app /= Nat.add_0_r. Qed.
Lemma home_writes_snoc c hs h : home_writes c (hs ++ [h]) = home_writes c hs ++ [(h, c (length hs) h)].
Proof. by rw /home_writes imap_app /= Nat.add_0_r. Qed.
Lemma elem_log_writes c hs b : (length hs <= 29)%nat -> b ∈ (log_writes c hs).*1 -> log_area b.
Proof.
  intros Hl ([b' x] & -> & Hx)%list_elem_of_fmap. apply elem_of_lookup_imap in Hx as (i & h & E & Hi).
  simplify_eq. apply lookup_lt_Some in Hi. rw /log_area /=. lia.
Qed.
Lemma elem_home_writes c hs b : b ∈ (home_writes c hs).*1 -> b ∈ hs.
Proof.
  intros ([b' x] & -> & Hx)%list_elem_of_fmap. apply elem_of_lookup_imap in Hx as (i & h & E & Hi).
  simplify_eq. apply list_elem_of_lookup. eauto.
Qed.

Lemma lcfg_home L hs h : lcfg L hs -> h ∈ hs -> home_ok h.
Proof. intros Hl Hh. by eapply Forall_forall in Hh; [|exact (lc_home _ _ Hl)]. Qed.
Lemma log_block_not_home L hs i : lcfg L hs -> (i <= 29)%nat -> st + Z.of_nat i ∉ hs.
Proof. intros Hl Hi Hin. destruct (lcfg_home _ _ _ Hl Hin) as [_ Hn]. apply Hn. rw /log_area. lia. Qed.

Lemma write_log_wp s0 s v D W hs N :
  cst s0 s v D W -> lcfg (log s0) hs -> good d v D hs -> (length hs < NBUF)%nat -> (NBUF < N)%nat ->
  wp write_log N s (fun _ s' => exists v', let lw := log_writes (content d v D) hs in
    cst s0 s' v' (writes lw D) (rev lw ++ W) /\ good d v' (writes lw D) hs /\
    forall b, content d v' (writes lw D) b = cupd lw (content d v D) b).
Proof.
  intros Hs Hl Hg Hlen HN. set (c := content d v D).
  apply (wp_for_log (fun i s' => exists v', let lw := log_writes c (take i hs) in
    cst s0 s' v' (writes lw D) (rev lw ++ W) /\ good d v' (writes lw D) hs /\
    forall b, content d v' (writes lw D) b = cupd lw c b) (length hs)).
  { exists v. done. }
  { lia. }
  { intros i s1 (v1 & Hs1 & _). by rw (cst_log _ _ _ _ _ _ _ Hs1) (lc_n _ _ Hl). }
  2:{ intros s1 (v1 & H). exists v1. by rw firstn_all in H. }
  intros i s1 Hi (v1 & Hs1 & Hg1 & Hc1). set (lw := log_writes c (take i hs)) in *.
  destruct (lookup_lt_is_Some_2 hs i Hi) as [h Hh].
  assert (h ∈ hs) as Hin by (apply list_elem_of_lookup; eauto).
  destruct (lcfg_home _ _ _ Hl Hin) as [Hh31 Hhl]. pose proof (lc_area _ _ Hl) as Har. pose proof (lc_max _ _ Hl) as Hmx.
  assert (length (take i hs) = i) as Eti by (rw length_take; lia).
  assert (st + 1 + Z.of_nat i ∉ hs) as HA.
  { replace (st + 1 + Z.of_nat i) with (st + Z.of_nat (S i)) by lia. eapply log_block_not_home; [done|lia]. }
  assert (st + 1 + Z.of_nat i <> h) as HAh by (intros E; apply Hhl; rw -E /log_area; lia).
  assert (content d v1 (writes lw D) h = c h) as Ech.
  { rw Hc1 cupd_out //. intros Hb. apply Hhl. eapply elem_log_writes; [|exact Hb]. pose proof (lc_max _ _ Hl). rw Eti. lia. }
  apply wp_bind. rw /wp (getlog_run _ _ _ _ _ _ _ _ _ Hs1) (lc_dev _ _ Hl).
  apply wp_bind. rw /wp (getlog_run _ _ _ _ _ _ _ _ _ Hs1) (lc_start _ _ Hl).
  rw u32_small; [|lia]. replace (st + Z.of_nat i + 1) with (st + 1 + Z.of_nat i) by lia.
  assert (block_ok (st + 1 + Z.of_nat i)) by (rw /block_ok; lia). assert (block_ok h) by (rw /block_ok; lia).
  apply wp_bind. eapply wp_mono.
  { apply (two_reads me pid d s0 s1 v1 (writes lw D) (rev lw ++ W) hs (st + 1 + Z.of_nat i) h N);
      (done || by left). }
  intros a s2 (x & Hx & Hrx & Hs2 & Hrd2).
  apply wp_bind. rw /wp (getlog_run _ _ _ _ _ _ _ _ _ Hs2).
  apply wp_bind, (wp_arr_get _ _ h); [lia|rw Nat2Z.id; by apply (lc_blocks _ _ Hl)|]. rw u32_small; [|lia].
  apply wp_bind. eapply wp_mono; [exact Hrd2|]. intros b s3 (y & Hba & Hy & Hpy & Hry & Hs3).
  eapply wp_mono.
  { eapply (finish_log me pid d s0 s3 v1 _ _ hs (st + 1 + Z.of_nat i) h a b x y N); try done.
    by rw decide_True in Hry. }
  intros [] s4 (v4 & Hs4 & Hg4 & Hc4). exists v4. rw (take_S_r _ _ _ Hh) log_writes_snoc Eti.
  rw Ech in Hs4, Hg4, Hc4. cbv zeta. rw writes_app rev_app_distr. split_and!; [done..|].
  intros b'. rw Hc4 cupd_app /= /cupd1 /= Hc1 //.
Qed.

Lemma write_head_wp s0 s v D W P hs N :
  cst s0 s v D W -> lcfg (log s0) hs -> good d v D P -> st ∉ P -> (length P < NBUF)%nat -> (NBUF < N)%nat ->
  wp write_head N s (fun _ s' => exists v', let c := hdr (Z.of_nat (length hs)) hs (dblock D st) in
    cst s0 s' v' (<[st := c]> D) ((st, c) :: W) /\ good d v' (<[st := c]> D) P /\
    forall b, content d v' (<[st := c]> D) b = if decide (b = st) then c else content d v D b).
Proof.
  intros Hs Hl Hg Hst Hlen HN. pose proof (lc_area _ _ Hl) as Har. pose proof (lc_max _ _ Hl) as Hmx.
  apply wp_bind. rw /wp (getlog_run _ _ _ _ _ _ _ _ _ Hs) (lc_dev _ _ Hl).
  apply wp_bind. rw /wp (getlog_run _ _ _ _ _ _ _ _ _ Hs) (lc_start _ _ Hl). rw u32_small; [|lia].
  apply wp_bind. eapply wp_mono.
  { apply (bread_wp me pid s0 s v D W d st N); [done|apply Hg|done|rw /block_ok; lia|by eapply good_unlocked_ref|by eapply good_room]. }
  rw (good_content_disk d v D P st Hg Hst). set (c0 := dblock D st).
  intros b s1 (x & Hx & Hs1). pose proof (picks_unpinned _ _ _ _ _ _ _ Hg Hst Hx) as Hrx.
  assert (b < length v)%nat as Hb by (destruct Hx as [Hx' _]; by apply lookup_lt_Some in Hx').
  assert (forall c, <[b := got pid d st c x]> v !! b = Some (got pid d st c x)) as Hlk
    by (intros c; by apply list_lookup_insert_eq).
  apply wp_bind. rw /wp (getlog_run _ _ _ _ _ _ _ _ _ Hs1) (lc_n _ _ Hl). set (n := Z.of_nat (length hs)).
  apply wp_bind. eapply wp_mono; [by eapply (cst_setb _ _ _ _ _ _ _ _ _ _ _ Hs1 (Hlk _))|].
  intros [] s2 Hs2. rw list_insert_insert_eq in Hs2.
  apply wp_bind. apply (wp_for_log (fun i s' =>
    cst s0 s' (<[b := got pid d st (put_words (stb 4 c0 0 n) 4 (take i hs)) x]> v) D W) (length hs)).
  { exact Hs2. }
  { rw /NBUF in HN. lia. }
  { intros i s3 Hs3. by rw (cst_log _ _ _ _ _ _ _ Hs3) (lc_n _ _ Hl). }
  { intros i s3 Hi Hs3. destruct (lookup_lt_is_Some_2 hs i Hi) as [h Hh].
    assert (length (take i hs) = i) as Eti by (rw length_take; lia).
    apply wp_bind. rw /wp (getlog_run _ _ _ _ _ _ _ _ _ Hs3).
    apply wp_bind, (wp_arr_get _ _ h); [lia|rw Nat2Z.id; by apply (lc_blocks _ _ Hl)|].
    eapply wp_mono; [by eapply (cst_setb _ _ _ _ _ _ _ _ _ _ _ Hs3 (Hlk _))|].
    intros [] s4. rw list_insert_insert_eq (take_S_r _ _ _ Hh) put_words_snoc Eti. done. }
  intros s3. rw firstn_all. change (put_words (stb 4 c0 0 n) 4 hs) with (hdr n hs c0).
  set (c := hdr n hs c0). intros Hs3. apply wp_bind. eapply wp_mono.
  { eapply (bwrite_wp _ _ _ _ _ _ _ b _ N Hs3 (Hlk _)); [done|done|rw /block_ok /=; lia|]. rw /NBUF in HN. lia. }
  intros [] s4 Hs4. eapply wp_mono.
  { eapply (brelse_wp _ _ _ _ _ _ _ b _ N Hs4 (Hlk _)); [done|simpl; lia]. }
  intros [] s5 Hs5. rw list_insert_insert_eq in Hs5.
  replace (released (got pid d st c x)) with (clean_buf d st c) in Hs5
    by by rw /released /got /clean_buf /set_b_lock /= Hrx.
  destruct (good_clean d v D (<[st := c]> D) P P st b x c Hg Hx) as [Hg2 Hc2]; [apply disk_upd_insert|done|done|].
  eexists. split_and!; [exact Hs5|done|done].
Qed.

Lemma install_trans_wp s0 s v D W hs (rec : bool) N :
  cst s0 s v D W -> lcfg (log s0) hs -> good d v D (if rec then [] else hs) ->
  (if rec then True else NoDup hs /\ (length hs < NBUF)%nat) -> (NBUF < N)%nat ->
  wp (install_trans rec) N s (fun _ s' => exists v',
    let hw := home_writes (fun i _ => content d v D (st + 1 + Z.of_nat i)) hs in
    cst s0 s' v' (writes hw D) (rev hw ++ W) /\ good d v' (writes hw D) [] /\
    forall b, content d v' (writes hw D) b = cupd hw (content d v D) b).
Proof.
  intros Hs Hl Hg Hrec HN. pose proof (lc_area _ _ Hl) as Har. pose proof (lc_max _ _ Hl) as Hmx.
  set (f := fun (i : nat) (_ : Z) => content d v D (st + 1 + Z.of_nat i)).
  apply (wp_for_log (fun i s' => exists v', let hw := home_writes f (take i hs) in
    cst s0 s' v' (writes hw D) (rev hw ++ W) /\ good d v' (writes hw D) (if rec then [] else drop i hs) /\
    forall b, content d v' (writes hw D) b = cupd hw (content d v D) b) (length hs)).
  { exists v. done. }
  { rw /NBUF in HN. lia. }
  { intros i s1 (v1 & Hs1 & _). by rw (cst_log _ _ _ _ _ _ _ Hs1) (lc_n _ _ Hl). }
  2:{ intros s1 (v1 & Hs1 & Hg1 & Hc1). exists v1. rw firstn_all in Hs1, Hg1, Hc1. split_and!; [done| |done].
      destruct rec; [done|]. by rw drop_all in Hg1. }
  intros i s1 Hi (v1 & Hs1 & Hg1 & Hc1). set (hw := home_writes f (take i hs)) in *.
  destruct (lookup_lt_is_Some_2 hs i Hi) as [h Hh]. set (A := st + 1 + Z.of_nat i).
  assert (h ∈ hs) as Hin by (apply list_elem_of_lookup; eauto).
  destruct (lcfg_home _ _ _ Hl Hin) as [Hh31 Hhl].
  assert (length (take i hs) = i) as Eti by (rw length_take; lia).
  assert (A ∉ hs) as HA.
  { rw /A. replace (st + 1 + Z.of_nat i) with (st + Z.of_nat (S i)) by lia. eapply log_block_not_home; [done|lia]. }
  assert (A <> h) as HAh by (intros E; apply Hhl; rw -E /A /log_area; lia).
  assert (content d v1 (writes hw D) A = f i h) as EcA.
  { rw Hc1 cupd_out //. intros Hb%elem_home_writes%elem_take_in. done. }
  set (P := if rec then [] else drop i hs) in *. set (P' := if rec then [] else drop (S i) hs).
  assert (A ∉ P) as HAP.
  { rw /P. destruct rec; [apply not_elem_of_nil|]. intros Hx%elem_drop_in. done. }
  assert (h ∈ P \/ P = []) as HhP.
  { rw /P. destruct rec; [by right|]. left. rw (drop_S _ _ _ Hh). left. }
  assert (HlP : (length P < NBUF)%nat).
  { rw /P. destruct rec; [simpl; rw /NBUF; lia|]. rw length_drop. lia. }
  assert ((h ∉ P') /\ forall k, k <> h -> (k ∈ P' <-> k ∈ P)) as [HP1 HP2].
  { rw /P /P'. destruct rec; [split; [apply not_elem_of_nil|done]|]. rw (drop_S _ _ _ Hh).
    split; [|intros k Hk; rw elem_of_cons; tauto]. destruct Hrec as [Hnd _].
    rw -(take_drop i hs) (drop_S _ _ _ Hh) in Hnd. apply NoDup_app in Hnd as (_ & _ & Hnd).
    by apply NoDup_cons in Hnd as [? _]. }
  apply wp_bind. rw /wp (getlog_run _ _ _ _ _ _ _ _ _ Hs1) (lc_dev _ _ Hl).
  apply wp_bind. rw /wp (getlog_run _ _ _ _ _ _ _ _ _ Hs1) (lc_start _ _ Hl).
  rw u32_small; [|lia]. replace (st + Z.of_nat i + 1) with A by lia.
  assert (block_ok A) by (rw /block_ok; lia). assert (block_ok h) by (rw /block_ok; lia).
  apply wp_bind. eapply wp_mono.
  { by apply (two_reads me pid d s0 s1 v1 (writes hw D) (rev hw ++ W) P A h N). }
  intros a s2 (x & Hx & Hrx & Hs2 & Hrd2).
  apply wp_bind. rw /wp (getlog_run _ _ _ _ _ _ _ _ _ Hs2).
  apply wp_bind, (wp_arr_get _ _ h); [lia|rw Nat2Z.id; by apply (lc_blocks _ _ Hl)|]. rw u32_small; [|lia].
  apply wp_bind. eapply wp_mono; [exact Hrd2|]. intros b s3 (y & Hba & Hy & Hpy & Hry & Hs3).
  eapply wp_mono.
  { eapply (finish_install me pid d s0 s3 v1 _ _ P A h a b x y N) with (rec := rec) (P' := P'); try done.
    rw Hry. destruct rec.
    - apply decide_False. apply not_elem_of_nil.
    - apply decide_True. rw /P (drop_S _ _ _ Hh). left. }
  intros [] s4 (v4 & Hs4 & Hg4 & Hc4). exists v4. rw (take_S_r _ _ _ Hh) home_writes_snoc Eti.
  rw EcA in Hs4, Hg4, Hc4. cbv zeta. rw writes_app rev_app_distr. split_and!; [done..|].
  intros b'. rw Hc4 cupd_app /= /cupd1 /= Hc1 //.
Qed.

Lemma cst_setlog s0 s v D W f N : cst s0 s v D W ->
  wp (setlog f) N s (fun _ s' => cst (set_log (f (log s0)) s0) s' v D W).
Proof.
  intros Hs. rw /wp /setlog /modify (cst_log _ _ _ _ _ _ _ Hs). destruct Hs as [Hc Hr Hd Hl Hv HD HW].
  split; try done.
  - by eapply calm_ext; [exact Hc| | |left].
  - change (set_log (f (log s0)) (rest s) = set_log (f (log s0)) (rest s0)). by rw Hr.
Qed.

(** The header holding [hs], and the cleared header. *)
Definition new_hdr D hs : list Z := hdr (Z.of_nat (length hs)) hs (dblock D st).
Definition clear_hdr (c : list Z) : list Z := stb 4 c 0 0.

(** The writes of a commit of [hs], whose cached contents are [c], on [D]. *)
Definition commit_writes (c : Z -> list Z) D hs : list (Z * list Z) :=
  log_writes c hs ++ [(st, new_hdr D hs)] ++ home_writes (fun _ => c) hs ++ [(st, clear_hdr (new_hdr D hs))].

Lemma lookup_log_writes c hs i h : hs !! i = Some h -> (st + 1 + Z.of_nat i, c h) ∈ log_writes c hs.
Proof. intros Hi. apply elem_of_lookup_imap. eauto. Qed.
Lemma cupd_log_writes c c' hs i h : hs !! i = Some h -> cupd (log_writes c' hs) c (st + 1 + Z.of_nat i) = c' h.
Proof.
  intros Hi. apply cupd_in.
  - apply list_elem_of_fmap. exists (st + 1 + Z.of_nat i, c' h). split; [done|by apply lookup_log_writes].
  - intros y Hy. apply elem_of_lookup_imap in Hy as (j & h' & E & Hj). simplify_eq.
    assert (i = j) as -> by lia. congruence.
Qed.
Lemma imap_cond {A B} (f g : nat -> A -> B) l : (forall i x, l !! i = Some x -> f i x = g i x) -> imap f l = imap g l.
Proof.
  intros Hfg. apply list_eq. intros i. rw !list_lookup_imap. destruct (l !! i) eqn:E; [|done].
  simpl. f_equal. by apply Hfg.
Qed.

Lemma commit_wp s0 s v D W hs N :
  cst s0 s v D W -> lcfg (log s0) hs -> good d v D hs -> NoDup hs -> (0 < length hs < NBUF)%nat -> (NBUF < N)%nat ->
  wp commit N s (fun _ s' => exists v', let ws := commit_writes (content d v D) D hs in
    cst (set_log (set_log_n 0 (log s0)) s0) s' v' (writes ws D) (rev ws ++ W) /\ good d v' (writes ws D) [] /\
    forall b, content d v' (writes ws D) b = cupd ws (content d v D) b).
Proof.
  intros Hs Hl Hg Hnd Hlen HN. set (c := content d v D).
  pose proof (lc_area _ _ Hl) as Har. pose proof (lc_max _ _ Hl) as Hmx.
  assert (st ∉ hs) as Hst.
  { replace st with (st + Z.of_nat 0) by lia. eapply log_block_not_home; [done|lia]. }
  apply wp_bind. rw /wp (getlog_run _ _ _ _ _ _ _ _ _ Hs) (lc_n _ _ Hl).
  destruct (Z.ltb_spec 0 (Z.of_nat (length hs))); [|lia]. rw /when.
  apply wp_bind. eapply wp_mono; [apply (write_log_wp s0 s v D W hs N); (done || lia)|].
  intros [] s1 (v1 & Hs1 & Hg1 & Hc1). cbv zeta in Hs1, Hg1, Hc1. fold c in Hs1, Hg1, Hc1.
  set (lw := log_writes c hs) in *.
  assert (st ∉ lw.*1) as Hstl.
  { intros ([b' x] & E & Hx)%list_elem_of_fmap. apply elem_of_lookup_imap in Hx as (i & h & E' & Hi).
    simplify_eq/=. lia. }
  apply wp_bind. eapply wp_mono; [apply (write_head_wp s0 s1 v1 (writes lw D) (rev lw ++ W) hs hs N); (done || lia)|].
  intros [] s2 (v2 & Hs2 & Hg2 & Hc2). cbv zeta in Hs2, Hg2, Hc2.
  rw dblock_writes (cupd_out lw _ st) // in Hs2, Hg2, Hc2. fold (new_hdr D hs) in Hs2, Hg2, Hc2.
  set (c2 := new_hdr D hs) in *. change (<[st := c2]> (writes lw D)) with (write1 (writes lw D) (st, c2)) in *.
  change (write1 (writes lw D) (st, c2)) with (writes [(st, c2)] (writes lw D)) in *. rw -writes_app in Hs2, Hg2, Hc2.
  apply wp_bind. eapply wp_mono; [apply (install_trans_wp s0 s2 v2 (writes (lw ++ [(st, c2)]) D) ((st, c2) :: rev lw ++ W) hs false N); [done|done|done|split; [done|lia]|done]|].
  intros [] s3 (v3 & Hs3 & Hg3 & Hc3). cbv zeta in Hs3, Hg3, Hc3.
  replace (home_writes _ hs) with (home_writes (fun _ => c) hs) in Hs3, Hg3, Hc3.
  2:{ apply imap_cond. intros i h Hi. apply lookup_lt_Some in Hi as Hlt. rw Hc2 decide_False; [|lia].
      by rw Hc1 (cupd_log_writes _ _ _ _ _ Hi). }
  set (hw := home_writes (fun _ => c) hs) in *. rw -writes_app in Hs3, Hg3, Hc3.
  apply wp_bind. eapply wp_mono; [exact (cst_setlog _ _ _ _ _ (set_log_n 0) N Hs3)|]. intros [] s4 Hs4.
  eapply wp_mono.
  { apply (write_head_wp _ s4 v3 _ _ [] [] N Hs4); [|done|apply not_elem_of_nil|simpl; rw /NBUF; lia|done].
    destruct Hl. split; try done. simpl. lia. }
  intros [] s5 (v5 & Hs5 & Hg5 & Hc5). exists v5. rw dblock_writes in Hs5, Hg5, Hc5.
  assert (cupd ((lw ++ [(st, c2)]) ++ hw) (dblock D) st = c2) as E2.
  { rw cupd_app cupd_out; [|by intros ?%elem_home_writes]. by rw cupd_app /= /cupd1 decide_True. }
  cbv zeta in Hs5, Hg5, Hc5. rw E2 in Hs5, Hg5, Hc5.
  change (hdr _ [] c2) with (clear_hdr c2) in Hs5, Hg5, Hc5.
  assert (writes (commit_writes c D hs) D = <[st := clear_hdr c2]> (writes ((lw ++ [(st, c2)]) ++ hw) D)) as EW.
  { by rw /commit_writes !writes_app. }
  assert (rev (commit_writes c D hs) ++ W = (st, clear_hdr c2) :: rev hw ++ (st, c2) :: rev lw ++ W) as ER.
  { by rw /commit_writes !rev_app_distr /= -!app_assoc. }
  rw EW ER. split; [exact Hs5|]. split; [exact Hg5|]. intros b. rw Hc5 /commit_writes !cupd_app /=. fold lw c2 hw.
  change (cupd1 ?x (st, ?y) b) with (if decide (b = st) then y else x b).
  case_decide; [done|]. rw Hc3. apply cupd_ext. rw Hc2 Hc1. done.
Qed.

(** ** Recovery *)

(** The home blocks a header names. *)
Definition hdr_list (c : list Z) : list Z := (fun i : nat => hdr_block c (Z.of_nat i)) <$> seq 0 (Z.to_nat (hdr_n c)).

(** A log whose location is known; its header has not been read. *)
Record lboot L : Prop := {
  lb_dev : u32 (log_dev L) = d;
  lb_start : log_start L = st;
  lb_area : 0 <= st < 2 ^ 31 - 30;
  lb_len : length (log_block L) = 30%nat;
}.
(** A header that can be replayed. *)
Record hdr_ok (c : list Z) : Prop := {
  ho_n : 0 <= hdr_n c <= 29;
  ho_home : Forall home_ok (hdr_list c);
}.

Lemma lookup_hdr_list c i h : hdr_list c !! i = Some h -> h = hdr_block c (Z.of_nat i) /\ (i < Z.to_nat (hdr_n c))%nat.
Proof. intros (j & -> & [-> Hj]%lookup_seq)%list_lookup_fmap_Some. done. Qed.
Lemma length_hdr_list c : length (hdr_list c) = Z.to_nat (hdr_n c).
Proof. by rw length_fmap length_seq. Qed.

Lemma read_head_wp s0 s v D W N :
  cst s0 s v D W -> lboot (log s0) -> good d v D [] -> hdr_ok (dblock D st) -> (NBUF < N)%nat ->
  wp read_head N s (fun _ s' => exists v' lh, let L := set_log_lh lh (log s0) in
    cst (set_log L s0) s' v' D W /\ lcfg L (hdr_list (dblock D st)) /\ length (lh_block lh) = 30%nat /\
    good d v' D [] /\ forall b, content d v' D b = content d v D b).
Proof.
  intros Hs Hl Hg Ho HN. pose proof (lb_area _ Hl) as Har. set (c := dblock D st) in *. pose proof (ho_n _ Ho) as Hn.
  apply wp_bind. rw /wp (getlog_run _ _ _ _ _ _ _ _ _ Hs) (lb_dev _ Hl).
  apply wp_bind. rw /wp (getlog_run _ _ _ _ _ _ _ _ _ Hs) (lb_start _ Hl). rw u32_small; [|lia].
  pose proof (not_elem_of_nil st) as Hst.
  apply wp_bind. eapply wp_mono.
  { apply (bread_wp me pid s0 s v D W d st N); [done|apply Hg|done|rw /block_ok; lia|by eapply good_unlocked_ref|].
    eapply good_room; [done|simpl; rw /NBUF; lia]. }
  rw (good_content_disk d v D [] st Hg Hst). fold c.
  intros b s1 (x & Hx & Hs1). pose proof (picks_unpinned _ _ _ _ _ _ _ Hg Hst Hx) as Hrx.
  set (v1 := <[b := got pid d st c x]> v) in *.
  assert (v1 !! b = Some (got pid d st c x)) as Hlk.
  { apply list_lookup_insert_eq. destruct Hx as [Hx' _]. by apply lookup_lt_Some in Hx'. }
  apply wp_bind. rw /wp (cst_getb _ _ _ _ _ _ _ b _ b_data N Hs1 Hlk) //=. fold (hdr_n c).
  apply wp_bind. eapply wp_mono; [exact (cst_setlog _ _ _ _ _ (set_log_n (hdr_n c)) N Hs1)|]. intros [] s2 Hs2.
  apply wp_bind. apply (wp_for_log (fun i s' => exists lh, cst (set_log (set_log_lh lh (log s0)) s0) s' v1 D W /\
     lh_n lh = hdr_n c /\ length (lh_block lh) = 30%nat /\
     forall j, (j < i)%nat -> lh_block lh !! j = Some (hdr_block c (Z.of_nat j))) (Z.to_nat (hdr_n c))).
  { exists (set_lh_n (hdr_n c) (log_lh (log s0))). split; [exact Hs2|]. split_and!; [done|apply Hl|lia]. }
  { rw /NBUF in HN. lia. }
  { intros i s3 (lh & Hs3 & HL & _). rw (cst_log _ _ _ _ _ _ _ Hs3) /log_n /= HL. lia. }
  { intros i s3 Hi (lh & Hs3 & HLn & HLl & HLb). set (L := set_log_lh lh (log s0)) in *.
    apply wp_bind. rw /wp (cst_getb _ _ _ _ _ _ _ b _ b_data N Hs3 Hlk) //=. fold (hdr_block c (Z.of_nat i)).
    apply wp_bind. rw /wp (getlog_run _ _ _ _ _ _ _ _ _ Hs3).
    change (log (set_log L s0)) with L.
    assert (arr_ok (log_block L) (Z.of_nat i) = true) as -> by (rw /arr_ok /log_block /=; lia).
    eapply wp_mono; [exact (cst_setlog _ _ _ _ _ _ N Hs3)|]. intros [] s4 Hs4.
    exists (set_lh_block (<[i := hdr_block c (Z.of_nat i)]> (lh_block lh)) lh).
    rw /arr_set Nat2Z.id in Hs4. split; [exact Hs4|]. simpl. split_and!; [done|by rw length_insert|].
    intros j Hj. rw list_lookup_insert. case_decide as E; [by destruct E as [-> _]|].
    apply HLb. destruct (decide (i = j)) as [->|]; [|lia]. exfalso. apply E. split; [done|lia]. }
  intros s3 (lh & Hs3 & HLn & HLl & HLb).
  eapply wp_mono.
  { eapply (brelse_wp _ _ _ _ _ _ _ b _ N Hs3 Hlk); [done|simpl; lia]. }
  intros [] s5 Hs5. rw list_insert_insert_eq in Hs5.
  replace (released (got pid d st c x)) with (clean_buf d st c) in Hs5
    by by rw /released /got /clean_buf /set_b_lock /= Hrx.
  destruct (good_clean d v D D [] [] st b x c Hg Hx) as [Hg2 Hc2]; [apply disk_upd_same|done|done|].
  eexists _, lh. split_and!; [exact Hs5| |done|done|].
  - split; try apply Hl.
    + rw length_hdr_list /log_n /= HLn. lia.
    + intros i h [-> Hi]%lookup_hdr_list. by apply HLb.
    + apply Ho.
    + rw length_hdr_list. lia.
  - intros b'. rw Hc2. case_decide; [subst|done]. by rw (good_content_disk d v D [] st Hg Hst).
Qed.

(** The writes of a recovery from [D]. *)
Definition recover_writes D : list (Z * list Z) :=
  home_writes (fun i _ => dblock D (st + 1 + Z.of_nat i)) (hdr_list (dblock D st)) ++ [(st, clear_hdr (dblock D st))].

Lemma recover_wp s0 s v D W N :
  cst s0 s v D W -> lboot (log s0) -> good d v D [] -> hdr_ok (dblock D st) -> (NBUF < N)%nat ->
  wp recover_from_log N s (fun _ s' => exists v' lh, let L := set_log_lh lh (log s0) in
    cst (set_log L s0) s' v' (writes (recover_writes D) D) (rev (recover_writes D) ++ W) /\
    good d v' (writes (recover_writes D) D) [] /\ lh_n lh = 0 /\ length (lh_block lh) = 30%nat).
Proof.
  intros Hs Hl Hg Ho HN. set (c := dblock D st) in *. set (hs := hdr_list c).
  apply wp_bind. eapply wp_mono; [apply (read_head_wp s0 s v D W N); done|].
  intros [] s1 (v1 & lh & Hs1 & Hl1 & Hlen & Hg1 & Hc1). cbv zeta in Hs1, Hl1. fold c hs in Hl1.
  set (L := set_log_lh lh (log s0)) in *.
  assert (st ∉ hs) as Hst.
  { replace st with (st + Z.of_nat 0) by lia. eapply log_block_not_home; [done|lia]. }
  apply wp_bind. eapply wp_mono; [apply (install_trans_wp (set_log L s0) s1 v1 D W hs true N); done|].
  intros [] s2 (v2 & Hs2 & Hg2 & Hc2). cbv zeta in Hs2, Hg2, Hc2.
  replace (home_writes _ hs) with (home_writes (fun i _ => dblock D (st + 1 + Z.of_nat i)) hs) in Hs2, Hg2, Hc2.
  2:{ apply imap_cond. intros i h Hi. rw (good_content_disk d v1 D [] _ Hg1) //. apply not_elem_of_nil. }
  set (hw := home_writes _ hs) in *.
  apply wp_bind. eapply wp_mono; [exact (cst_setlog _ _ _ _ _ (set_log_n 0) N Hs2)|]. intros [] s3 Hs3.
  eapply wp_mono.
  { apply (write_head_wp _ s3 v2 _ _ [] [] N Hs3); [|done|apply not_elem_of_nil|simpl; rw /NBUF; lia|done].
    destruct Hl1. split; try done. simpl. lia. }
  intros [] s4 (v4 & Hs4 & Hg4 & _). cbv zeta in Hs4, Hg4.
  rw dblock_writes (cupd_out hw _ st) // in Hs4, Hg4; [|by intros ?%elem_home_writes].
  change (hdr _ [] _) with (clear_hdr c) in Hs4, Hg4.
  assert (writes (recover_writes D) D = <[st := clear_hdr c]> (writes hw D)) as EW by by rw /recover_writes writes_app.
  assert (rev (recover_writes D) ++ W = (st, clear_hdr c) :: rev hw ++ W) as ER.
  { by rw /recover_writes rev_app_distr. }
  exists v4, (set_lh_n 0 lh). cbv zeta. rw EW ER. split; [exact Hs4|]. done.
Qed.

End commit.
