(* ===== verification/LogCrash.v ===== *)
(** * Crashes

    A crash keeps a prefix of the writes the disk received.  Whatever the
    prefix of a commit, recovery makes of it either the disk before the
    transaction or the disk with all of it; a crash during recovery changes
    nothing. *)

From S2P Require Import Prelude Mem KString Spinlock Machine Kalloc Printf Vm KState Proc ProcInv FsFmt FsFmtSpec Sleeplock Bio BioInv BioSpec Log LogInv LogSpec.

Section crash.
Context (st : Z).
Implicit Types (D : gmap Z (list Z)) (hs : list Z).

(** What block [b] of the disk [D] is after recovery. *)
Definition after D (b : Z) : list Z := dblock (writes (recover_writes st D) D) b.

Lemma hdr_list_hdr hs c0 : Forall (home_ok st) hs -> (length hs <= 29)%nat -> length c0 = 1024%nat ->
  hdr_list (hdr (Z.of_nat (length hs)) hs c0) = hs.
Proof.
  intros Hh Hl Hc. apply list_eq. intros i. rw /hdr_list hdr_n_hdr; [|lia|done|done].
  rw list_lookup_fmap Nat2Z.id. destruct (decide (i < length hs)%nat) as [Hi|Hi].
  - destruct (lookup_lt_is_Some_2 hs i Hi) as [h E]. rw lookup_seq_lt // E /= (hdr_block_hdr _ _ _ _ h) //.
    eapply Forall_forall in Hh as [? _]; [done|]. apply list_elem_of_lookup. eauto.
  - rw lookup_seq_ge; [|lia]. rw lookup_ge_None_2 //. lia.
Qed.
Lemma hdr_n_clear c0 : length c0 = 1024%nat -> hdr_n (clear_hdr c0) = 0.
Proof. intros Hc. exact (hdr_n_hdr 0 [] c0 ltac:(lia) ltac:(simpl; lia) Hc). Qed.
Lemma length_clear c0 : length c0 = 1024%nat -> length (clear_hdr c0) = 1024%nat.
Proof. intros Hc. exact (length_hdr 0 [] c0 ltac:(simpl; lia) Hc). Qed.
Lemma hdr_list_zero c0 : hdr_n c0 = 0 -> hdr_list c0 = [].
Proof. intros E. by rw /hdr_list E. Qed.
Lemma hdr_ok_zero c0 : hdr_n c0 = 0 -> hdr_ok st c0.
Proof. intros E. split; [lia|]. by rw hdr_list_zero. Qed.

(** ** What recovery makes of a disk *)

Lemma after_out D b : b <> st -> b ∉ hdr_list (dblock D st) -> after D b = dblock D b.
Proof.
  intros Hb Hn. rw /after dblock_writes cupd_out //. rw /recover_writes fmap_app.
  intros [H%elem_home_writes|H%list_elem_of_singleton]%elem_of_app; done.
Qed.
Lemma after_in D i b : NoDup (hdr_list (dblock D st)) -> b <> st -> hdr_list (dblock D st) !! i = Some b ->
  after D b = dblock D (st + 1 + Z.of_nat i).
Proof.
  intros Hnd Hb Hi. rw /after dblock_writes /recover_writes cupd_app /= {1}/cupd1 decide_False //.
  apply cupd_in.
  - apply list_elem_of_fmap. exists (b, dblock D (st + 1 + Z.of_nat i)). split; [done|].
    apply elem_of_lookup_imap. eauto.
  - intros y (j & h & E & Hj)%elem_of_lookup_imap. simplify_eq.
    by rw (NoDup_lookup _ i j h Hnd Hi Hj).
Qed.
Lemma after_header D : length (dblock D st) = 1024%nat -> hdr_n (after D st) = 0.
Proof.
  intros Hl. rw /after dblock_writes /recover_writes cupd_app /= {1}/cupd1 decide_True // hdr_n_clear //.
Qed.

Lemma after_header_len D : length (dblock D st) = 1024%nat -> length (after D st) = 1024%nat.
Proof.
  intros Hl. rw /after dblock_writes /recover_writes cupd_app /= {1}/cupd1 decide_True // length_clear //.
Qed.

(** Two disks with the same header, log and other blocks recover alike. *)
Lemma after_same D D' b : dblock D' st = dblock D st -> NoDup (hdr_list (dblock D st)) -> ~ log_area st b ->
  (forall i, (i < length (hdr_list (dblock D st)))%nat -> dblock D' (st + 1 + Z.of_nat i) = dblock D (st + 1 + Z.of_nat i)) ->
  (b ∉ hdr_list (dblock D st) -> dblock D' b = dblock D b) -> after D' b = after D b.
Proof.
  intros Eh Hnd Hb Elog Eout. assert (b <> st) as Hne by (intros ->; apply Hb; rw /log_area; lia).
  destruct (decide (b ∈ hdr_list (dblock D st))) as [Hin|Hn].
  - apply list_elem_of_lookup in Hin as [i Hi]. rw (after_in D i b) // (after_in D' i b) ?Eh //.
    apply Elog. by eapply lookup_lt_Some.
  - rw !after_out ?Eh //. by apply Eout.
Qed.

(** A crash during recovery. *)
Lemma recover_restart D j : length (dblock D st) = 1024%nat -> hdr_ok st (dblock D st) -> NoDup (hdr_list (dblock D st)) ->
  let D' := writes (take j (recover_writes st D)) D in
  length (dblock D' st) = 1024%nat /\ hdr_ok st (dblock D' st) /\
  forall b, ~ log_area st b -> after D' b = after D b.
Proof.
  intros Hlen Ho Hnd D'. set (hs := hdr_list (dblock D st)) in *.
  set (hw := home_writes (fun i _ => dblock D (st + 1 + Z.of_nat i)) hs).
  assert (length hw = length hs) as Elen by apply length_imap.
  pose proof (ho_home _ _ Ho) as Hh. pose proof (ho_n _ _ Ho) as Hn.
  assert (forall a, log_area st a -> a ∉ (take j hw).*1) as Hlog.
  { intros a Ha Hin. assert (a ∈ hs) as Hin'.
    { apply (elem_home_writes (fun i _ => dblock D (st + 1 + Z.of_nat i))).
      apply list_elem_of_fmap in Hin as (w & -> & Hw%elem_take_in). apply list_elem_of_fmap. eauto. }
    eapply Forall_forall in Hh as [_ Hna]; [|exact Hin']. done. }
  destruct (decide (j <= length hw)%nat) as [Hj|Hj].
  - assert (D' = writes (take j hw) D) as ED.
    { rw /D' /recover_writes take_app_le //. }
    assert (forall a, log_area st a -> dblock D' a = dblock D a) as Ha.
    { intros a Ha. rw ED dblock_writes cupd_out //. by apply Hlog. }
    assert (dblock D' st = dblock D st) as Est by (apply Ha; rw /log_area; lia).
    split_and!; [by rw Est|by rw Est|]. intros b Hb. apply after_same; [done|done|done| |].
    + intros i Hi. rw length_hdr_list in Hi. apply Ha. rw /log_area. lia.
    + intros Hnb. rw ED dblock_writes cupd_out //. intros (w & -> & Hw%elem_take_in)%list_elem_of_fmap.
      apply Hnb. apply (elem_home_writes (fun i _ => dblock D (st + 1 + Z.of_nat i))), list_elem_of_fmap. eauto.
  - assert (D' = writes (recover_writes st D) D) as ED.
    { rw /D' take_ge // /recover_writes length_app /=. fold hs hw. lia. }
    assert (hdr_n (dblock D' st) = 0) as Hz by (rw ED; by apply after_header).
    split_and!; [rw ED; by apply after_header_len|by apply hdr_ok_zero|]. intros b Hb. rw after_out; [by rw ED| |].
    + intros ->. apply Hb. rw /log_area. lia.
    + rw hdr_list_zero //. apply not_elem_of_nil.
Qed.

(** ** Prefixes of a commit *)

(** A disk whose header names [hs], whose log holds [c] of them and whose home
    blocks may have been overwritten with it. *)
Lemma after_committed c D D' hs b : Forall (home_ok st) hs -> NoDup hs -> (length hs <= 29)%nat -> length (dblock D st) = 1024%nat ->
  dblock D' st = new_hdr st D hs -> (forall i h, hs !! i = Some h -> dblock D' (st + 1 + Z.of_nat i) = c h) ->
  (b ∉ hs -> dblock D' b = dblock D b) -> ~ log_area st b ->
  after D' b = if decide (b ∈ hs) then c b else dblock D b.
Proof.
  intros Hh Hnd Hl Hc Eh Elog Eout Hb. assert (b <> st) as Hne by (intros ->; apply Hb; rw /log_area; lia).
  assert (hdr_list (dblock D' st) = hs) as Ehl by by rw Eh hdr_list_hdr.
  case_decide as Hin.
  - apply list_elem_of_lookup in Hin as [i Hi]. rw (after_in D' i b) ?Ehl //. by apply Elog.
  - rw after_out ?Ehl //. by apply Eout.
Qed.

Lemma elem_take_fst {A B} (l : list (A * B)) k a : a ∈ (take k l).*1 -> a ∈ l.*1.
Proof. intros (w & -> & Hw%elem_take_in)%list_elem_of_fmap. apply list_elem_of_fmap. eauto. Qed.
Lemma header_not_logged c hs : st ∉ (log_writes st c hs).*1.
Proof.
  intros ([b' x] & E & Hx)%list_elem_of_fmap. apply elem_of_lookup_imap in Hx as (i & h & E' & Hi). simplify_eq/=. lia.
Qed.
Lemma log_not_home hs a : Forall (home_ok st) hs -> log_area st a -> a ∉ hs.
Proof. intros Hh Ha Hin. by eapply Forall_forall in Hh as [_ Hna]. Qed.

Lemma cupd_commit c c' D hs h : h ∈ hs -> h <> st -> cupd (commit_writes st c D hs) c' h = c h.
Proof.
  intros [i Hi]%list_elem_of_lookup Hne. rw /commit_writes !cupd_app /= {1}/cupd1 decide_False //. apply cupd_in.
  - apply list_elem_of_fmap. exists (h, c h). split; [done|]. apply elem_of_lookup_imap. eauto.
  - intros y (j & h' & E & Hj)%elem_of_lookup_imap. by simplify_eq.
Qed.

Section prefix.
Context (c : Z -> list Z) (D : gmap Z (list Z)) (hs : list Z).
Context (Hlen : length (dblock D st) = 1024%nat) (Hz : hdr_n (dblock D st) = 0).
Context (Hh : Forall (home_ok st) hs) (Hnd : NoDup hs) (Hl : (length hs <= 29)%nat).
Abbreviation lw := (log_writes st c hs).
Abbreviation H := (new_hdr st D hs).
Abbreviation hw := (home_writes (fun _ => c) hs).

(** The disk [D'] recovers to the transaction [done] or not. *)
Definition recovers (D' : gmap Z (list Z)) (done : Prop) : Prop :=
  length (dblock D' st) = 1024%nat /\ hdr_ok st (dblock D' st) /\ NoDup (hdr_list (dblock D' st)) /\
  forall b, ~ log_area st b -> (done -> b ∈ hs -> after D' b = c b) /\ (~ done \/ b ∉ hs -> after D' b = dblock D b).

Lemma data_block b : ~ log_area st b -> b <> st /\ b ∉ lw.*1.
Proof.
  intros Hb. split; [intros ->; apply Hb; rw /log_area; lia|]. intros Hin%elem_log_writes; [done|done].
Qed.
Lemma header_not_home : st ∉ hs.
Proof. apply log_not_home; [done|]. rw /log_area. lia. Qed.

(** Before the header is written. *)
Lemma prefix_log k (done : Prop) : ~ done -> recovers (writes (take k lw) D) done.
Proof.
  intros Hn. set (D' := writes _ _). assert (dblock D' st = dblock D st) as Est.
  { rw /D' dblock_writes cupd_out //. intros Hin%elem_take_fst. by apply header_not_logged in Hin. }
  rw /recovers Est. split_and!; [done|by apply hdr_ok_zero|by rw hdr_list_zero //; apply NoDup_nil|].
  intros b Hb. destruct (data_block b Hb) as [Hne Hnl]. split; [done|]. intros _.
  rw after_out //; [|by rw Est hdr_list_zero //; apply not_elem_of_nil].
  rw /D' dblock_writes cupd_out //. by intros Hin%elem_take_fst.
Qed.

(** After it, with [m] of the home blocks written. *)
Lemma prefix_home m (done : Prop) : done -> recovers (writes (lw ++ [(st, H)] ++ take m hw) D) done.
Proof.
  intros Hd. set (D' := writes _ _).
  assert (forall a, a ∉ hs -> a ∉ (take m hw).*1) as Hhw by (intros a Ha Hin%elem_take_fst%elem_home_writes; done).
  assert (dblock D' st = H) as Est.
  { rw /D' dblock_writes !cupd_app cupd_out; [|apply Hhw, header_not_home]. by rw /= /cupd1 decide_True. }
  rw /recovers Est hdr_list_hdr //. split_and!; [by apply length_hdr| |done|].
  - split; [rw hdr_n_hdr //; lia|]. by rw hdr_list_hdr.
  - intros b Hb. destruct (data_block b Hb) as [Hne Hnl]. rw (after_committed c D D' hs b) //.
    + split; intros; [by rw decide_True|]. rw decide_False //. tauto.
    + intros i h Hi. pose proof (lookup_lt_Some _ _ _ Hi) as Hlt.
      rw /D' dblock_writes !cupd_app cupd_out; [|apply Hhw, log_not_home; [done|rw /log_area; lia]].
      rw /= /cupd1 decide_False; [|simpl; lia]. by apply cupd_log_writes.
    + intros Hnb. rw /D' dblock_writes !cupd_app cupd_out; [|by apply Hhw].
      rw /= /cupd1 decide_False // cupd_out //.
Qed.

(** After the commit. *)
Lemma prefix_all (done : Prop) : done -> recovers (writes (commit_writes st c D hs) D) done.
Proof.
  intros Hd. set (D' := writes _ _). assert (length H = 1024%nat) as HlH by by apply length_hdr.
  assert (dblock D' st = clear_hdr H) as Est.
  { rw /D' dblock_writes /commit_writes !cupd_app /=. by rw /cupd1 decide_True. }
  assert (hdr_n (clear_hdr H) = 0) as Hz' by by apply hdr_n_clear.
  rw /recovers Est. split_and!; [by rw length_clear|by apply hdr_ok_zero|by rw hdr_list_zero //; apply NoDup_nil|].
  intros b Hb. destruct (data_block b Hb) as [Hne Hnl].
  rw after_out //; [|by rw Est hdr_list_zero //; apply not_elem_of_nil].
  rw /D' dblock_writes. split; [intros _ Hin; by apply cupd_commit|].
  intros [?|Hin]; [done|]. rw /commit_writes !cupd_app /= {1}/cupd1 decide_False //.
  rw cupd_out; [|by intros ?%elem_home_writes].
    by rw /cupd1 decide_False //= cupd_out.
Qed.

(** The commit leaves the log empty. *)
Lemma commit_clears : let D' := writes (commit_writes st c D hs) D in
  hdr_n (dblock D' st) = 0 /\ length (dblock D' st) = 1024%nat.
Proof.
  intros D'. assert (length H = 1024%nat) as HlH by by apply length_hdr.
  assert (dblock D' st = clear_hdr H) as Est.
  { rw /D' dblock_writes /commit_writes !cupd_app /=. by rw /cupd1 decide_True. }
  rw Est. by split; [apply hdr_n_clear|apply length_clear].
Qed.

Lemma commit_prefix k : recovers (writes (take k (commit_writes st c D hs)) D) (length hs < k)%nat.
Proof.
  assert (length lw = length hs /\ length hw = length hs) as [El Eh] by (split; apply length_imap).
  destruct (decide (k <= length hs)%nat) as [Hk|Hk].
  { rw /commit_writes take_app_le; [|lia]. apply prefix_log. lia. }
  destruct (decide (k <= length hs + 1 + length hs)%nat) as [Hk2|Hk2].
  { rw /commit_writes take_app_ge; [|lia]. replace (k - length lw)%nat with (S (k - length hs - 1)) by lia.
    simpl. rw take_app_le; [|lia]. apply prefix_home. lia. }
  rw take_ge; [apply prefix_all; lia|]. rw /commit_writes !length_app /=. lia.
Qed.
End prefix.

End crash.
