(* ===== verification/LogTx.v ===== *)
(** * Transactions

    [begin_op], [log_write] and [end_op]: the write path of a file-system
    operation keeps the cache [good], with one logged and pinned buffer for
    each block written, until [end_op] commits. *)

From S2P Require Import Prelude Mem KString Spinlock Machine Kalloc Printf Vm KState Proc ProcInv FsFmt FsFmtSpec Sleeplock Bio BioInv BioSpec Log LogInv LogSpec.

(** ** A buffer modified and logged *)

Section dirty.
Context (d : Z).

(** The buffer of a logged block: pinned, with contents the disk lacks. *)
Definition dirty_buf (blk : Z) (c : list Z) : buf := Buf true false d blk (Sleeplock false 0) 1 O O c.

Lemma good_dirty v D P P' blk b x c :
  good d v D P -> picks d blk v b x -> blk ∈ P' -> (forall h, h <> blk -> (h ∈ P' <-> h ∈ P)) ->
  good d (<[b := dirty_buf blk c]> v) D P' /\
  forall b', content d (<[b := dirty_buf blk c]> v) D b' = if decide (b' = blk) then c else content d v D b'.
Proof.
  intros Hg Hp Hin HP. pose proof Hp as [Hx Hpx]. pose proof (gd_cinv _ _ _ _ Hg) as Hc.
  assert (is_block d blk (dirty_buf blk c) = true) as Hz by by rw /is_block /= !Z.eqb_refl.
  assert (cinv d (<[b := dirty_buf blk c]> v) D) as Hc'.
  { eapply (cinv_fill d v D D); [done..| |apply disk_upd_same]. done. }
  split; [|intros b'; by rw (content_fill d v D D blk b x _ (dblock D blk)) //; apply disk_upd_same]. split.
  - done.
  - by rw length_insert (gd_len _ _ _ _ Hg).
  - intros i y. rw list_lookup_insert. case_decide; [by intros [= <-]|]. apply (gd_unlocked _ _ _ _ Hg).
  - intros i y. rw list_lookup_insert. case_decide as E.
    { intros [= <-]. by rw (is_block_pins d P' _ blk) // bool_decide_eq_true_2. }
    intros Hy. rw (gd_ref _ _ _ _ Hg _ _ Hy).
    assert (i <> b) as Hne by (intros ->; apply E; split; [done|by apply lookup_lt_Some in Hx]).
    destruct (b_dev y =? d) eqn:Ed; [|by rw /pins Ed].
    assert (is_block d (b_blockno y) y = true) as Hb by by rw /is_block Ed Z.eqb_refl.
    rw !(is_block_pins _ _ _ _ Hb).
    assert (b_blockno y <> blk) as Hbl by exact (picks_other d v D blk b x i y _ Hc Hp Hy Hne Hb).
    by rw (bool_decide_ext _ _ (HP _ Hbl)).
  - intros h Hh. destruct (decide (h = blk)) as [->|Hne].
    { exists b, (dirty_buf blk c). split_and!; [|done|done]. apply list_lookup_insert_eq. by apply lookup_lt_Some in Hx. }
    apply HP in Hh; [|done]. destruct (gd_pins _ _ _ _ Hg h Hh) as (i & y & Hy & Hb & Hval). exists i, y.
    split_and!; [|done..]. rw list_lookup_insert_ne //. intros <-. simplify_eq. destruct Hpx as [Hb'|[Hr _]].
    + apply Hne. by eapply is_block_inj.
    + rw (gd_ref _ _ _ _ Hg _ _ Hx) (is_block_pins _ _ _ _ Hb) bool_decide_eq_true_2 // in Hr.
Qed.
End dirty.

(** ** The search *)

(** The index of [blk] in [hs], or the length. *)
Fixpoint pos (blk : Z) (hs : list Z) : nat :=
  match hs with [] => O | h :: hs' => if decide (h = blk) then O else S (pos blk hs') end.

Lemma pos_le blk hs : (pos blk hs <= length hs)%nat.
Proof. induction hs as [|h hs IH]; simpl; [done|]. case_decide; lia. Qed.
Lemma pos_in blk hs : blk ∈ hs -> hs !! pos blk hs = Some blk.
Proof.
  induction hs as [|h hs IH]; simpl; intros Hin; [by apply not_elem_of_nil in Hin|].
  case_decide as E; [by subst|]. apply IH. apply elem_of_cons in Hin as [?|?]; [congruence|done].
Qed.
Lemma pos_out blk hs : blk ∉ hs -> pos blk hs = length hs.
Proof.
  induction hs as [|h hs IH]; simpl; intros Hin; [done|]. apply not_elem_of_cons in Hin as [Hne Hin].
  rw decide_False //. by rw IH.
Qed.
Lemma pos_before blk hs i h : hs !! i = Some h -> (i < pos blk hs)%nat -> h <> blk.
Proof.
  revert i. induction hs as [|h' hs IH]; intros i; simpl; [done|]. case_decide; [lia|].
  destruct i as [|i]; simpl; intros Hi Hlt; [by simplify_eq|]. apply (IH i); [done|lia].
Qed.

Section tx.
Context {lay : Layout} {drv : DiskDriver} {dok : DriverOk}.
Context (me : nat) (pid : Z) (d st : Z).
Implicit Types (s : kstate) (v : list buf) (D : gmap Z (list Z)) (W : list (Z * list Z)) (hs : list Z) (L : logst).

Abbreviation cst := (cst me pid).
Abbreviation lcfg := (lcfg d st).

Lemma log_find_run s hs blk N : lcfg (log s) hs -> (length hs < N)%nat ->
  log_find blk N s = Ok (Z.of_nat (pos blk hs)) s.
Proof.
  intros Hl HN. enough (wp (log_find blk) N s (fun r s' => r = Z.of_nat (pos blk hs) /\ s' = s)) as H.
  { rw /wp in H. destruct (log_find blk N s); try done. by destruct H as [-> ->]. }
  apply (wp_loop (fun i s' => s' = s /\ exists k : nat, i = Z.of_nat k /\ (k <= pos blk hs)%nat)
           (fun i _ => length hs - Z.to_nat i)%nat).
  { split; [done|]. exists O. split; [done|lia]. }
  { simpl. lia. }
  intros i s1 (-> & k & -> & Hk). pose proof (pos_le blk hs). apply wp_bind. rw /wp /getlog /gets (lc_n _ _ _ _ Hl).
  destruct (Z.ltb_spec (Z.of_nat k) (Z.of_nat (length hs))) as [Hlt|Hge]; cbn [negb].
  2:{ apply wp_ret. split; [lia|done]. }
  destruct (lookup_lt_is_Some_2 hs k) as [h Hh]; [lia|].
  assert (home_ok st h) as [Hh31 _].
  { eapply lcfg_home; [exact Hl|]. apply list_elem_of_lookup. eauto. }
  apply wp_bind. rw /wp /getlog /gets. apply wp_bind, (wp_arr_get _ _ h); [lia|rw Nat2Z.id; by apply (lc_blocks _ _ _ _ Hl)|].
  rw u32_small; [|lia]. destruct (Z.eqb_spec h blk) as [->|Hne]; apply wp_ret.
  - split; [|done]. f_equal. destruct (decide (k = pos blk hs)) as [|Hne]; [done|].
    exfalso. eapply (pos_before blk hs k); [done|lia|done].
  - split; [|lia]. split; [done|]. exists (S k). split; [lia|].
    destruct (decide (k = pos blk hs)) as [->|]; [|lia]. exfalso. apply Hne.
    assert (blk ∈ hs) as Hin.
    { destruct (decide (blk ∈ hs)) as [|Hn]; [done|]. rw (pos_out _ _ Hn) in Hlt. lia. }
    rw (pos_in _ _ Hin) in Hh. congruence.
Qed.

Lemma bpin_run s b x n : can_lock L_bcache s -> bcache s !! b = Some x ->
  bpin b n s = Ok tt (set_bcache (<[b := set_b_refcnt (u32 (b_refcnt x + 1)) x]> (bcache s)) s).
Proof.
  intros Hc Hx. rw /bpin /mbind /K_bind (acquire_k s) //= (setb_run b x) //= (release_acquired s) //.
  by rw set_klk_bcache.
Qed.

(** ** [log_write] *)

(** The log with [blk] appended. *)
Definition log_add (blk : Z) L : logst :=
  set_log_n (log_n L + 1) (set_log_block (<[Z.to_nat (log_n L) := blk]> (log_block L)) L).

(** The log during a transaction. *)
Record tcfg L hs : Prop := {
  tc_cfg : lcfg L hs;
  tc_len : length (log_block L) = 30%nat;
  tc_size : log_size L = 30;
}.

Lemma tcfg_add L hs blk : tcfg L hs -> (length hs < 29)%nat -> home_ok st blk -> tcfg (log_add blk L) (hs ++ [blk]).
Proof.
  intros [Hl Hlen Hsz] Hr Hb. pose proof (lc_n _ _ _ _ Hl) as Hn. split; [|by rw /= length_insert|done].
  destruct Hl. split; try done.
  - rw length_app /=. change (log_n L + 1 = Z.of_nat (length hs + 1)). lia.
  - intros i h Hi. change (<[Z.to_nat (log_n L) := blk]> (log_block L) !! i = Some h).
    rw Hn Nat2Z.id list_lookup_insert. apply lookup_app_Some in Hi as [Hi|[Hge Hi]].
    + rw decide_False; [by apply lc_blocks|]. apply lookup_lt_Some in Hi. lia.
    + apply list_lookup_singleton_Some in Hi as [Hi ->]. rw decide_True //. lia.
  - apply Forall_app. by split; [|apply Forall_singleton].
  - rw length_app /=. lia.
Qed.

Lemma log_write_wp s0 s v D W hs b x N :
  cst s0 s v D W -> tcfg (log s0) hs -> (length hs < 29)%nat -> 1 <= log_outstanding (log s0) ->
  v !! b = Some x -> home_ok st (b_blockno x) -> 0 <= b_refcnt x -> b_refcnt x + 1 < 2 ^ 32 -> (30 < N)%nat ->
  wp (log_write b) N s (fun _ s' =>
    if decide (b_blockno x ∈ hs) then cst s0 s' v D W
    else cst (set_log (log_add (b_blockno x) (log s0)) s0) s' (<[b := set_b_refcnt (b_refcnt x + 1) x]> v) D W).
Proof.
  intros Hs Ht Hr Ho Hx [Hb31 _] Hr0 Hr1 HN. pose proof (tc_cfg _ _ Ht) as Hl.
  pose proof (cs_calm _ _ _ _ _ _ _ Hs) as Hc. pose proof (cst_log _ _ _ _ _ _ _ Hs) as EL.
  pose proof (lc_n _ _ _ _ Hl) as Hn.
  destruct (cst_lookup _ _ _ _ _ _ _ _ _ Hs Hx) as (Hlt & y & Hy & Ey).
  assert (b_blockno y = b_blockno x /\ b_refcnt y = b_refcnt x) as [Eb Er] by by rw Ey. set (blk := b_blockno x) in *.
  rw /log_write. apply wp_bind. rw /wp (acquire_k s); [|by eapply calm_lock]. set (s1 := set_klk _ s).
  assert (forall A (f : logst -> A) n, getlog f n s1 = Ok (f (log s0)) s1) as Hgl by (intros; rw /getlog /gets -EL //).
  do 3 (apply wp_bind; rw /wp Hgl). rw (tc_size _ _ Ht) Hn.
  assert ((LOGSIZE <=? Z.of_nat (length hs)) || (30 - 1 <=? Z.of_nat (length hs)) = false) as -> by (rw /LOGSIZE /MAXOPBLOCKS; lia).
  assert ((log_outstanding (log s0) <? 1) = false) as -> by lia.
  apply wp_bind. rw /wp (getb_run b y) // Eb. apply wp_bind. rw /wp (log_find_run s1 hs); [|by rw -EL in Hl|lia].
  pose proof (pos_le blk hs) as Hp. apply wp_bind. rw /set_block. apply wp_bind. rw /wp Hgl.
  assert (arr_ok (log_block (log s0)) (Z.of_nat (pos blk hs)) = true) as ->.
  { rw /arr_ok (tc_len _ _ Ht). change (Z.of_nat 30) with 30. lia. }
  rw i32_small; [|lia]. rw /setlog /modify /arr_set Nat2Z.id. change (log s1) with (log s). rw EL.
  apply wp_bind. rw /wp /getlog /gets. change (log_n (log (set_log ?l s1))) with (log_n (log s0)). rw Hn.
  destruct (decide (blk ∈ hs)) as [Hin|Hin].
  - pose proof (pos_in _ _ Hin) as Hpin. pose proof (lookup_lt_Some _ _ _ Hpin) as Hplt.
    rw (list_insert_id _ _ blk); [|by apply (lc_blocks _ _ _ _ Hl)].
    replace (set_log (set_log_block _ _) s1) with s1; last first.
    { rw /s1. rw -EL. by destruct s as [[] ? ? ? ? ? ? ? ? ? ? ? [? ? ? ? ? []]]. }
    assert ((Z.of_nat (pos blk hs) =? Z.of_nat (length hs)) = false) as -> by lia.
    apply wp_bind, wp_ret. rw /wp (release_acquired s) //; [|by eapply calm_lock]. by rw set_klk_back.
  - rw (pos_out _ _ Hin) Z.eqb_refl. set (L1 := set_log_block _ _). set (s2 := set_log L1 s1).
    apply wp_bind. rw /when. apply wp_bind. rw /wp (bpin_run s2 b y) //.
    2:{ split; [apply lk_acq_ok; [apply (cm_lk _ _ _ Hc)|apply (calm_lock _ _ _ _ Hc)]|]. by eapply calm_unlocked. }
    rw Er u32_small; [|lia]. rw i32_small; [|lia]. set (y1 := set_b_refcnt _ y).
    set (s3 := set_log _ _). rw (release_acquired s) //; [|by eapply calm_lock].
    pose proof (cst_set _ _ _ _ _ _ _ b y y1 Hs Hlt Hy eq_refl eq_refl) as Hs2.
    replace (strip y1) with (set_b_refcnt (b_refcnt x + 1) x) in Hs2 by by rw /y1 {2}Ey.
    pose proof (cst_setlog me pid _ _ _ _ _ (fun _ => log_add blk (log s0)) N Hs2) as Hs3. rw /wp /setlog /modify in Hs3.
    set (s4 := set_klk _ s3). replace s4 with (set_log (log_add blk (log s0)) (set_bcache (<[b := y1]> (bcache s)) s)); [done|].
    rw /s4 /s3 /s2 /s1 /log_add Hn Nat2Z.id. by destruct s as [[]].
Qed.

(** ** A block written in a transaction *)

(** What a file-system operation does to a block it has computed anew. *)
Definition tx_write (blk : Z) (c : list Z) : K kstate unit :=
  b ← bread d blk;
  setb b (set_b_data c);;
  log_write b;;
  brelse b.

Definition logged hs blk : list Z := if decide (blk ∈ hs) then hs else hs ++ [blk].

Lemma elem_logged hs blk : blk ∈ logged hs blk /\ forall h, h <> blk -> (h ∈ logged hs blk <-> h ∈ hs).
Proof.
  rw /logged. case_decide; [done|]. split; [apply elem_of_app; right; by apply list_elem_of_singleton|].
  intros h Hh. rw elem_of_app list_elem_of_singleton. tauto.
Qed.
Lemma NoDup_logged hs blk : NoDup hs -> NoDup (logged hs blk).
Proof.
  intros Hnd. rw /logged. case_decide; [done|]. apply NoDup_app. split_and!; [done| |apply NoDup_singleton].
  intros x Hx ->%list_elem_of_singleton. done.
Qed.

Lemma tx_write_wp s0 s v D W hs blk c N :
  cst s0 s v D W -> tcfg (log s0) hs -> good d v D hs -> (length hs < 29)%nat -> 1 <= log_outstanding (log s0) ->
  home_ok st blk -> (30 < N)%nat ->
  wp (tx_write blk c) N s (fun _ s' => exists v' L,
    cst (set_log L s0) s' v' D W /\ tcfg L (logged hs blk) /\ good d v' D (logged hs blk) /\
    log_outstanding L = log_outstanding (log s0) /\ log_committing L = log_committing (log s0) /\
    forall b, content d v' D b = if decide (b = blk) then c else content d v D b).
Proof.
  intros Hs Ht Hg Hr Ho Hb HN. rw /tx_write.
  assert (Hlen : (length hs < NBUF)%nat) by (rw /NBUF; lia). assert (HN' : (NBUF < N)%nat) by (rw /NBUF; lia).
  apply wp_bind. eapply wp_mono.
  { apply (bread_wp me pid s0 s v D W d blk N); [done|apply Hg|done|apply Hb|by eapply good_unlocked_ref|by eapply good_room]. }
  intros b s1 (x & Hx & Hs1). set (c0 := content d v D blk) in *.
  assert (b < length v)%nat as Hbl by (destruct Hx as [Hx' _]; by apply lookup_lt_Some in Hx').
  assert (forall z, <[b := z]> v !! b = Some z) as Hlk by (intros z; by apply list_lookup_insert_eq).
  assert (b_refcnt x = if decide (blk ∈ hs) then 1 else 0) as Hrx.
  { destruct (decide (blk ∈ hs)) as [Hin|Hin]; [by eapply picks_pinned|by eapply picks_unpinned]. }
  apply wp_bind. eapply wp_mono; [by eapply (cst_setb _ _ _ _ _ _ _ _ _ _ _ Hs1 (Hlk _))|].
  intros [] s2 Hs2. rw list_insert_insert_eq in Hs2. set (x2 := strip _) in Hs2.
  apply wp_bind. eapply wp_mono.
  { eapply (log_write_wp s0 s2 _ D W hs b x2 N Hs2); [done|done|done|apply Hlk|done|simpl; case_decide; lia..|done]. }
  change (b_blockno x2) with blk. intros [] s3 Hs3.
  set (rc := if decide (blk ∈ hs) then b_refcnt x2 else b_refcnt x2 + 1).
  set (L := if decide (blk ∈ hs) then log s0 else log_add blk (log s0)).
  assert (rc = 2) as Erc by (rw /rc /= Hrx; by case_decide).
  assert (cst (set_log L s0) s3 (<[b := set_b_refcnt rc x2]> v) D W) as Hs3'.
  { rw /L /rc. case_decide; [|by rw list_insert_insert_eq in Hs3].
    replace (set_log (log s0) s0) with s0 by by destruct s0. exact Hs3. }
  eapply wp_mono; [eapply (brelse_wp _ _ _ _ _ _ _ b _ N Hs3' (Hlk _)); [done|simpl; lia]|].
  intros [] s4 Hs4. rw list_insert_insert_eq in Hs4.
  replace (released (set_b_refcnt rc x2)) with (dirty_buf d blk c) in Hs4 by by rw /released /set_b_lock /= Erc.
  destruct (elem_logged hs blk) as [Hi1 Hi2].
  destruct (good_dirty d v D hs (logged hs blk) blk b x c Hg Hx Hi1 Hi2) as [Hg' Hc'].
  exists (<[b := dirty_buf d blk c]> v), L. split_and!; [done| |done| | |done].
  - rw /L /logged. case_decide; [done|]. by apply tcfg_add.
  - rw /L. by case_decide.
  - rw /L. by case_decide.
Qed.
(** ** Beginning and ending *)

(** Everything but the log unchanged by a critical section of its lock. *)
Lemma cst_log_section s0 s v D W L : cst s0 s v D W ->
  forall n, release L_log n (set_log L (set_klk (lk_acq L_log (klk s)) s)) = Ok tt (set_log L s) /\
  cst (set_log L s0) (set_log L s) v D W.
Proof.
  intros Hs n. split; [|exact (cst_setlog me pid _ _ _ _ _ (fun _ => L) n Hs)].
  rw (release_acquired s) //; [|eapply calm_lock, Hs]. by destruct s as [[]].
Qed.

Lemma begin_op_wp s0 s v D W N :
  cst s0 s v D W -> log_committing (log s0) = false -> 0 <= log_outstanding (log s0) < 2 ^ 31 - 1 ->
  log_n (log s0) + (log_outstanding (log s0) + 1) * MAXOPBLOCKS <= LOGSIZE -> (0 < N)%nat ->
  wp begin_op N s (fun _ s' =>
    cst (set_log (set_log_outstanding (log_outstanding (log s0) + 1) (log s0)) s0) s' v D W).
Proof.
  intros Hs Hc Ho Hroom HN. pose proof (cst_log _ _ _ _ _ _ _ Hs) as EL.
  apply wp_bind. rw /wp (acquire_k s); [|eapply calm_lock, Hs]. set (s1 := set_klk _ s).
  assert (forall A (f : logst -> A) n, getlog f n s1 = Ok (f (log s0)) s1) as Hgl by (intros; rw /getlog /gets -EL //).
  apply (wp_loop (fun _ s' => s' = s1) (fun _ _ => O)); [done|lia|]. intros [] _ ->.
  do 3 (apply wp_bind; rw /wp Hgl). rw Hc.
  assert ((LOGSIZE <? log_n (log s0) + (log_outstanding (log s0) + 1) * MAXOPBLOCKS) = false) as -> by lia.
  rw i32_small; [|lia]. apply wp_bind. rw /wp /setlog /modify. change (log s1) with (log s). rw EL.
  destruct (cst_log_section s0 s v D W (set_log_outstanding (log_outstanding (log s0) + 1) (log s0)) Hs N) as [Hr Hs'].
  apply wp_bind. by rw /wp Hr.
Qed.

(** The writes of [commit]. *)
Definition tx_writes (c : Z -> list Z) D hs : list (Z * list Z) :=
  if decide (hs = []) then [] else commit_writes st c D hs.

Lemma commit_any_wp s0 s v D W hs N :
  cst s0 s v D W -> lcfg (log s0) hs -> good d v D hs -> NoDup hs -> (length hs < NBUF)%nat -> (NBUF < N)%nat ->
  wp commit N s (fun _ s' => exists v', let ws := tx_writes (content d v D) D hs in
    cst (set_log (set_log_n 0 (log s0)) s0) s' v' (writes ws D) (rev ws ++ W) /\ good d v' (writes ws D) []).
Proof.
  intros Hs Hl Hg Hnd Hlen HN. rw /tx_writes. case_decide as E.
  - subst hs. pose proof (lc_n _ _ _ _ Hl) as Hn. change (Z.of_nat (length [])) with 0 in Hn.
    apply wp_bind. rw /wp (getlog_run _ _ _ _ _ _ _ _ _ Hs) Hn. apply wp_ret. exists v. split; [|done].
    replace (set_log (set_log_n 0 (log s0)) s0) with s0; [done|]. rw -Hn.
    by destruct s0 as [? ? ? ? ? ? ? ? ? ? ? ? [? ? ? ? ? []]].
  - assert (0 < length hs < NBUF)%nat by (destruct hs; [done|simpl in *; lia]).
    eapply wp_mono; [by apply (commit_wp me pid d st s0 s v D W hs N)|].
    intros [] s1 (v1 & ? & ? & _). eauto.
Qed.

(** The end of the commit: waiting processes are woken. *)
Lemma end_commit_wp s0 s v D W N : cst s0 s v D W ->
  wp (acquire L_log;; setlog (set_log_committing false);; wakeup Ch_log;; release L_log) N s
    (fun _ s' => cst (set_log (set_log_committing false (log s0)) s0) s' v D W).
Proof.
  intros Hs. pose proof (cst_log _ _ _ _ _ _ _ Hs) as EL. pose proof (cs_calm _ _ _ _ _ _ _ Hs) as Hc.
  apply wp_bind. rw /wp (acquire_k s); [|by eapply calm_lock]. set (s1 := set_klk _ s).
  apply wp_bind. rw /wp /setlog /modify. change (log s1) with (log s). rw EL. set (L := set_log_committing _ _).
  apply wp_bind. rw /wp wakeup_run; [|by apply lk_acq_ok; [apply (cm_lk _ _ _ Hc)|apply (calm_lock _ _ _ _ Hc)]
    |intros i Hi _; by eapply calm_unlocked|apply (cm_len _ _ _ Hc)].
  rw (release_acquired s) //; [|by eapply calm_lock].
  pose proof (cst_setlog me pid _ _ _ _ _ (fun _ => L) N Hs) as [Hc' Hr' Hd' Hl' Hv' HD' HW']. split; try done.
  - eapply (calm_ext _ _ _ _ Hc'); [done| |].
    + by destruct s as [[]].
    + right. exists Ch_log. change (cur (set_log L s1)) with (cur s). by rw (cm_cur _ _ _ Hc).
  - rw -Hr'. by destruct s as [[]].
Qed.

(** The log when the last operation has ended. *)
Definition ended L : logst :=
  set_log_committing false (set_log_n 0 (set_log_committing true (set_log_outstanding 0 L))).

Lemma tcfg_ended L hs : tcfg L hs -> tcfg (ended L) [].
Proof. intros [[] ? ?]. split; [split|..]; try done. simpl. lia. Qed.

(** The last [end_op] of a transaction commits it. *)
Lemma end_op_wp s0 s v D W hs N :
  cst s0 s v D W -> lcfg (log s0) hs -> good d v D hs -> NoDup hs -> (length hs < NBUF)%nat ->
  log_committing (log s0) = false -> log_outstanding (log s0) = 1 -> (NBUF < N)%nat ->
  wp end_op N s (fun _ s' => exists v', let ws := tx_writes (content d v D) D hs in
    cst (set_log (ended (log s0)) s0) s' v' (writes ws D) (rev ws ++ W) /\ good d v' (writes ws D) []).
Proof.
  intros Hs Hl Hg Hnd Hlen Hc Ho HN. pose proof (cst_log _ _ _ _ _ _ _ Hs) as EL.
  apply wp_bind. rw /wp (acquire_k s); [|eapply calm_lock, Hs]. set (s1 := set_klk _ s).
  assert (forall A (f : logst -> A) n, getlog f n s1 = Ok (f (log s0)) s1) as Hgl by (intros; rw /getlog /gets -EL //).
  apply wp_bind. rw /wp Hgl Ho. apply wp_bind. rw /wp /setlog /modify. change (log s1) with (log s). rw EL.
  rw i32_small; [|lia]. change (1 - 1) with 0. set (L1 := set_log_outstanding 0 (log s0)).
  apply wp_bind. rw /wp /getlog /gets. change (log_committing (log (set_log L1 s1))) with (log_committing (log s0)). rw Hc.
  apply wp_bind. rw /wp /gets. change (log_outstanding (log (set_log L1 s1)) =? 0) with true.
  apply wp_bind. rw /wp /setlog /modify. set (L2 := set_log_committing _ _).
  change (set_log L2 (set_log L1 s1)) with (set_log L2 s1).
  destruct (cst_log_section s0 s v D W L2 Hs N) as [Hrel Hs2]. apply wp_bind. rw /wp Hrel.
  set (s2 := set_log L2 s) in *.
  apply wp_bind. eapply wp_mono; [apply (commit_any_wp _ s2 v D W hs N Hs2); try done|].
  { destruct Hl. by split. }
  intros [] s3 (v3 & Hs3 & Hg3). eapply wp_mono; [exact (end_commit_wp _ _ _ _ _ N Hs3)|].
  intros [] s4 Hs4. exists v3. split; [exact Hs4|]. done.
Qed.

End tx.
