(* ===== verification/Durability.v ===== *)
(** * Durability

    The theorems about the buffer cache and the log as whole operations: the
    order of a commit's writes, what recovery does, atomicity under crashes,
    and the initialisation of the cache. *)

From S2P Require Import Prelude Mem KString Spinlock Machine Kalloc Printf Vm KState Proc VmCheck ProcInv FsFmt FsFmtSpec Sleeplock Bio BioInv BioSpec Log LogInv LogSpec LogCrash LogTx.

(** ** The cache at boot *)

(** A buffer of the zeroed cache; [z] stands for its 1024 zero bytes. *)
Definition blank (z : list Z) : buf := Buf false false 0 0 zero_sleeplock 0 0 0 z.

(** The list [binit] builds: each buffer in front of the one before. *)
Definition boot_cache (z : list Z) : list buf :=
  ((fun i : nat => Buf false false 0 0 zero_sleeplock 0 (S i) (match i with O => bhead | S j => j end) z)
     <$> seq 0 NBUF) ++ [Buf false false 0 0 zero_sleeplock 0 0 (NBUF - 1) z].

Section boot.
Context {lay : Layout}.

Lemma binit_run z s n : bcache s = replicate (NBUF + 1) (blank z) -> binit n s = Ok tt (set_bcache (boot_cache z) s).
Proof.
  intros E. replace s with (set_bcache (replicate (NBUF + 1) (blank z)) s) by by rw -E; destruct s.
  vm_compute. reflexivity.
Qed.

Lemma boot_lru z : lru (boot_cache z) (rev (seq 0 NBUF)).
Proof.
  split; [done|]. split; [symmetry; apply Permutation_rev|]. vm_compute. repeat split.
Qed.
Lemma boot_view z s : vw (set_bcache (boot_cache z) s) = replicate NBUF (blank z).
Proof. done. Qed.

(** Free buffers of no device hold nothing. *)
Lemma boot_good z d D : d <> 0 -> good d (replicate NBUF (blank z)) D [].
Proof.
  intros Hd. assert (forall i x, replicate NBUF (blank z) !! i = Some x -> x = blank z) as Hx.
  { intros i x Hi. by apply lookup_replicate in Hi as [-> _]. }
  assert ((b_dev (blank z) =? d) = false) as Hz by (apply Z.eqb_neq; simpl; congruence).
  assert (forall blk, is_block d blk (blank z) = false) as Hn.
  { intros blk. by rw /is_block Hz. }
  split.
  - split.
    + intros i j x y blk ->%Hx _ Hb _. by rw Hn in Hb.
    + by intros i x ->%Hx.
    + by intros i x ->%Hx.
    + intros i x ->%Hx _. split; [done|]. simpl. congruence.
  - by rw length_replicate.
  - by intros i x ->%Hx.
  - intros i x ->%Hx. by rw /pins Hz.
  - intros h Hh. by apply not_elem_of_nil in Hh.
Qed.

End boot.

(** ** The file system between operations *)

Section durable.
Context {lay : Layout} {drv : DiskDriver} {dok : DriverOk}.
Context (me : nat) (pid : Z) (d st : Z).
Implicit Types (s : kstate) (v : list buf) (D : gmap Z (list Z)) (W : list (Z * list Z)) (hs : list Z).

Abbreviation cst := (cst me pid).

(** No operation is running and nothing is logged, in memory or on disk. *)
Record fs_idle s : Prop := {
  fi_cst : cst s s (vw s) (disk s) (dtrace s);
  fi_log : tcfg d st (log s) [];
  fi_good : good d (vw s) (disk s) [];
  fi_outstanding : log_outstanding (log s) = 0;
  fi_committing : log_committing (log s) = false;
  fi_len : length (dblock (disk s) st) = 1024%nat;
  fi_header : hdr_n (dblock (disk s) st) = 0;
}.

(** A machine that has just started: a cold cache over some disk, the log
    located but its header not read. *)
Record fs_boot s : Prop := {
  fb_cst : cst s s (vw s) (disk s) (dtrace s);
  fb_log : lboot d st (log s);
  fb_size : log_size (log s) = 30;
  fb_good : good d (vw s) (disk s) [];
  fb_outstanding : log_outstanding (log s) = 0;
  fb_committing : log_committing (log s) = false;
}.

Lemma cst_self s0 s v D W : cst s0 s v D W -> cst s s (vw s) (disk s) (dtrace s).
Proof. intros [? ? ? ? ? ? ?]. by split. Qed.
Lemma cst_log_of s0 s v D W L : cst (set_log L s0) s v D W -> log s = L.
Proof. apply cst_log. Qed.

(** A sequence of block writes as one transaction. *)
Definition transaction (ws : list (Z * list Z)) : K kstate unit :=
  begin_op;;
  for_each ws (fun w => tx_write d w.1 w.2);;
  end_op.

Lemma tx_writes_wp ws s0 s v D W N :
  cst s0 s v D W -> tcfg d st (log s0) [] -> good d v D [] -> 1 <= log_outstanding (log s0) ->
  Forall (home_ok st) ws.*1 -> (length ws <= 29)%nat -> (30 < N)%nat ->
  wp (for_each ws (fun w => tx_write d w.1 w.2)) N s (fun _ s' => exists v' L hs,
    cst (set_log L s0) s' v' D W /\ tcfg d st L hs /\ good d v' D hs /\
    log_outstanding L = log_outstanding (log s0) /\ log_committing L = log_committing (log s0) /\
    NoDup hs /\ (length hs <= length ws)%nat /\ (forall b, b ∈ hs <-> b ∈ ws.*1) /\
    forall b, content d v' D b = cupd ws (content d v D) b).
Proof.
  intros Hs Ht Hg Ho Hh Hlen HN.
  apply (wp_for_each (fun pre s' => exists v' L hs,
    cst (set_log L s0) s' v' D W /\ tcfg d st L hs /\ good d v' D hs /\
    log_outstanding L = log_outstanding (log s0) /\ log_committing L = log_committing (log s0) /\
    NoDup hs /\ (length hs <= length pre)%nat /\ (forall b, b ∈ hs <-> b ∈ pre.*1) /\
    forall b, content d v' D b = cupd pre (content d v D) b)).
  - exists v, (log s0), []. replace (set_log (log s0) s0) with s0 by by destruct s0.
    split_and!; try done. apply NoDup_nil_2.
  - intros pre [blk c] post s1 E (v1 & L1 & hs & Hs1 & Ht1 & Hg1 & Ho1 & Hc1 & Hnd & Hl & Hin & Hcon).
    assert (home_ok st blk) as Hb.
    { rw E fmap_app in Hh. apply Forall_app in Hh as [_ Hh]. by apply Forall_cons in Hh as [? _]. }
    assert (length ws = length pre + S (length post))%nat as El by by rw E length_app.
    pose proof (cst_log_of _ _ _ _ _ _ Hs1) as EL. eapply wp_mono.
    { apply (tx_write_wp me pid d st (set_log L1 s0) s1 v1 D W hs blk c N); [done|done|done|lia|simpl; lia|done|done]. }
    intros [] s2 (v2 & L2 & Hs2 & Ht2 & Hg2 & Ho2 & Hc2 & Hcon2). simpl in Ho2, Hc2.
    exists v2, L2, (logged hs blk). destruct (elem_logged hs blk) as [Hi1 Hi2].
    split_and!; [done|done|done|congruence|congruence|by apply NoDup_logged| | |].
    + rw length_app /= /logged. case_decide; [lia|]. rw length_app /=. lia.
    + intros b. rw fmap_app elem_of_app list_elem_of_singleton /=. destruct (decide (b = blk)) as [->|Hne]; [tauto|].
      rw Hi2 // Hin. tauto.
    + intros b. rw Hcon2 cupd_app /= /cupd1 /= Hcon. done.
  - intros s1 (v1 & L1 & hs & H). exists v1, L1, hs. exact H.
Qed.
(** The writes of a transaction whose blocks are [hs] with contents [c]: the
    disk after any of its prefixes, and at the end. *)
Definition atomic_writes (wr : list (Z * list Z)) D (new : Z -> list Z) : Prop :=
  forall k, let D' := writes (take k wr) D in
  length (dblock D' st) = 1024%nat /\ hdr_ok st (dblock D' st) /\ NoDup (hdr_list (dblock D' st)) /\
  ((forall b, ~ log_area st b -> after st D' b = dblock D b) \/ (forall b, ~ log_area st b -> after st D' b = new b)).

Lemma tx_atomic c D hs new :
  length (dblock D st) = 1024%nat -> hdr_n (dblock D st) = 0 -> Forall (home_ok st) hs -> NoDup hs -> (length hs <= 29)%nat ->
  (forall b, b ∈ hs -> new b = c b) -> (forall b, b ∉ hs -> new b = dblock D b) ->
  atomic_writes (tx_writes st c D hs) D new.
Proof.
  intros Hlen Hz Hh Hnd Hl Hin Hout k. rw /tx_writes. case_decide as E.
  - rw take_nil. cbv zeta. rw hdr_list_zero //. split_and!; [done|by apply hdr_ok_zero|apply NoDup_nil_2|].
    left. intros b Hb. apply after_out; [intros ->; apply Hb; rw /log_area; lia|]. rw hdr_list_zero //. apply not_elem_of_nil.
  - destruct (commit_prefix st c D hs Hlen Hz Hh Hnd Hl k) as (H1 & H2 & H3 & H4). split_and!; [done..|].
    destruct (decide (length hs < k)%nat) as [Hk|Hk]; [right|left]; intros b Hb; destruct (H4 b Hb) as [Hd Hn].
    + destruct (decide (b ∈ hs)); [rw Hin //; by apply Hd|]. rw Hout //. apply Hn. by right.
    + apply Hn. by left.
Qed.
Lemma tx_done c D hs new :
  length (dblock D st) = 1024%nat -> hdr_n (dblock D st) = 0 -> Forall (home_ok st) hs -> NoDup hs -> (length hs <= 29)%nat ->
  (forall b, b ∈ hs -> new b = c b) -> (forall b, b ∉ hs -> new b = dblock D b) ->
  let D' := writes (tx_writes st c D hs) D in
  hdr_n (dblock D' st) = 0 /\ length (dblock D' st) = 1024%nat /\ forall b, ~ log_area st b -> dblock D' b = new b.
Proof.
  intros Hlen Hz Hh Hnd Hl Hin Hout D'. rw /D' /tx_writes. case_decide as E.
  - split_and!; [done..|]. intros b _. rw Hout // E. apply not_elem_of_nil.
  - destruct (commit_clears st c D hs Hlen Hl) as [H1 H2]. split_and!; [done..|]. intros b Hb.
    destruct (prefix_all st c D hs Hlen Hl True I) as (_ & _ & _ & H4). destruct (H4 b Hb) as [Hd Hn].
    rw after_out in Hd Hn; [|intros ->; apply Hb; rw /log_area; lia|rw hdr_list_zero //; apply not_elem_of_nil].
    destruct (decide (b ∈ hs)); [rw Hin //; by apply Hd|]. rw Hout //. apply Hn. by right.
Qed.

(** Recovery from a disk [D] that is [after]-equivalent to something. *)
Lemma recover_boot s N : fs_boot s -> length (dblock (disk s) st) = 1024%nat -> hdr_ok st (dblock (disk s) st) -> (30 < N)%nat ->
  wp recover_from_log N s (fun _ s' => fs_idle s' /\ disk s' = writes (recover_writes st (disk s)) (disk s) /\
    dtrace s' = rev (recover_writes st (disk s)) ++ dtrace s).
Proof.
  intros Hb Hlen Ho HN. eapply wp_mono.
  { apply (recover_wp me pid d st s s (vw s) (disk s) (dtrace s) N); [apply Hb|apply Hb|apply Hb|done|rw /NBUF; lia]. }
  intros [] s1 (v1 & lh & Hs1 & Hg1 & Hn & Hl). cbv zeta in Hs1.
  pose proof (cst_log_of _ _ _ _ _ _ Hs1) as EL. pose proof (cs_disk _ _ _ _ _ _ _ Hs1) as ED.
  pose proof (fb_log _ Hb) as [Hdev Hstart Harea _].
  split_and!; [|done|apply (cs_trace _ _ _ _ _ _ _ Hs1)]. split.
  - by eapply cst_self.
  - rw EL. split; [split; try done; simpl; lia|done|apply (fb_size _ Hb)].
  - by rw ED (cs_vw _ _ _ _ _ _ _ Hs1).
  - rw EL. apply (fb_outstanding _ Hb).
  - rw EL. apply (fb_committing _ Hb).
  - rw ED. by apply after_header_len.
  - rw ED. by apply after_header.
Qed.

(** A transaction run to its end, with the blocks it logged. *)
Lemma transaction_run ws s N :
  fs_idle s -> Forall (home_ok st) ws.*1 -> (length ws <= 29)%nat -> (30 < N)%nat ->
  wp (transaction ws) N s (fun _ s' => exists v' c L hs, let wr := tx_writes st c (disk s) hs in
    cst (set_log L s) s' v' (writes wr (disk s)) (rev wr ++ dtrace s) /\ good d v' (writes wr (disk s)) [] /\
    tcfg d st L [] /\ log_outstanding L = 0 /\ log_committing L = false /\
    Forall (home_ok st) hs /\ NoDup hs /\ (length hs <= 29)%nat /\
    (forall b, b ∈ hs -> cupd ws (dblock (disk s)) b = c b) /\
    (forall b, b ∉ hs -> cupd ws (dblock (disk s)) b = dblock (disk s) b)).
Proof.
  intros Hi Hh Hlen HN. pose proof (fi_cst _ Hi) as Hs. set (D := disk s) in *.
  assert (HN' : (NBUF < N)%nat) by (rw /NBUF; lia).
  apply wp_bind. eapply wp_mono.
  { apply (begin_op_wp me pid s s (vw s) D (dtrace s) N); [done|apply Hi|rw (fi_outstanding _ Hi); lia| |lia].
    rw (fi_outstanding _ Hi) (lc_n _ _ _ _ (tc_cfg _ _ _ _ (fi_log _ Hi))) /LOGSIZE /MAXOPBLOCKS /=. lia. }
  rw (fi_outstanding _ Hi). intros [] s1 Hs1. set (L1 := set_log_outstanding _ _) in Hs1.
  apply wp_bind. eapply wp_mono.
  { apply (tx_writes_wp ws _ s1 _ D _ N Hs1); [|apply Hi|simpl; lia|done..]. destruct (fi_log _ Hi) as [[] ? ?]. by split. }
  intros [] s2 (v2 & L2 & hs & Hs2 & Ht2 & Hg2 & Ho2 & Hc2 & Hnd & Hl2 & Hin & Hcon). simpl in Ho2, Hc2.
  eapply wp_mono.
  { apply (end_op_wp me pid d st _ s2 v2 D _ hs N Hs2); [apply Ht2|done|done|rw /NBUF; lia| |done|done].
    simpl. rw Hc2. apply Hi. }
  intros [] s3 (v3 & Hs3 & Hg3). exists v3, (content d v2 D), (ended L2), hs. cbv zeta.
  split_and!; [exact Hs3|done|by eapply tcfg_ended|done|done| |done|lia| |].
  - apply (lc_home _ _ _ _ (tc_cfg _ _ _ _ Ht2)).
  - intros b Hb. rw Hcon. apply cupd_ext. symmetry. apply (good_content_disk _ _ _ _ _ (fi_good _ Hi)). apply not_elem_of_nil.
  - intros b Hb. apply cupd_out. by rw -Hin.
Qed.

(** ** The theorems *)

(** A group of block writes between [begin_op] and [end_op] returns, has
    the effect of the writes on the disk outside the log, and is atomic: when
    the machine stops after any number [k] of the writes the disk received,
    recovery at the next start gives a disk, outside the log, that either is the
    old one or has all of the group's writes. *)
Theorem transaction_atomic ws s N :
  fs_idle s -> Forall (home_ok st) ws.*1 -> (length ws <= 29)%nat -> (30 < N)%nat ->
  wp (transaction ws) N s (fun _ s' => fs_idle s' /\
    (forall b, ~ log_area st b -> dblock (disk s') b = cupd ws (dblock (disk s)) b) /\
    exists wr, disk s' = writes wr (disk s) /\ dtrace s' = rev wr ++ dtrace s /\
    forall k s2, fs_boot s2 -> disk s2 = writes (take k wr) (disk s) ->
      wp recover_from_log N s2 (fun _ s3 => fs_idle s3 /\
        ((forall b, ~ log_area st b -> dblock (disk s3) b = dblock (disk s) b) \/
         (forall b, ~ log_area st b -> dblock (disk s3) b = cupd ws (dblock (disk s)) b)))).
Proof.
  intros Hi Hh Hlen HN. eapply wp_mono; [by apply transaction_run|]. set (D := disk s) in *.
  intros [] s3 (v3 & c & L & hs & Hs3 & Hg3 & Ht & Ho & Hc & Hhs & Hnd & Hl & Hin & Hout). cbv zeta in Hs3, Hg3.
  destruct (tx_done c D hs _ (fi_len _ Hi) (fi_header _ Hi) Hhs Hnd Hl Hin Hout) as (Hz' & Hlen' & Hdata).
  pose proof (cs_disk _ _ _ _ _ _ _ Hs3) as ED. pose proof (cst_log_of _ _ _ _ _ _ Hs3) as EL.
  split_and!.
  - split; rw ?ED ?EL //; [by rw -ED; eapply cst_self|by rw (cs_vw _ _ _ _ _ _ _ Hs3)].
  - by rw ED.
  - exists (tx_writes st c D hs). split_and!; [done|apply (cs_trace _ _ _ _ _ _ _ Hs3)|].
    intros k sb Hb EDk.
    destruct (tx_atomic c D hs _ (fi_len _ Hi) (fi_header _ Hi) Hhs Hnd Hl Hin Hout k) as (H1 & H2 & _ & H4).
    eapply wp_mono; [apply recover_boot; rw ?EDk; done|]. intros [] sr (Hir & EDr & _). split; [done|].
    rw EDr EDk. exact H4.
Qed.

(** C7: recovery can itself be interrupted: it copies the blocks its header
    names from the log to their homes and clears the header, and stopping after
    any number [j] of these writes and recovering again gives the same disk
    outside the log as the uninterrupted recovery. *)
Theorem recovery_restartable s N :
  fs_boot s -> length (dblock (disk s) st) = 1024%nat -> hdr_ok st (dblock (disk s) st) ->
  NoDup (hdr_list (dblock (disk s) st)) -> (30 < N)%nat ->
  wp recover_from_log N s (fun _ s' => fs_idle s' /\
    let hs := hdr_list (dblock (disk s) st) in
    let wr := home_writes (fun i _ => dblock (disk s) (st + 1 + Z.of_nat i)) hs ++ [(st, stb 4 (dblock (disk s) st) 0 0)] in
    dtrace s' = rev wr ++ dtrace s /\
    forall j s2, fs_boot s2 -> disk s2 = writes (take j wr) (disk s) ->
      wp recover_from_log N s2 (fun _ s3 => fs_idle s3 /\
        forall b, ~ log_area st b -> dblock (disk s3) b = dblock (disk s') b)).
Proof.
  intros Hb Hlen Ho Hnd HN. eapply wp_mono; [by apply recover_boot|]. intros [] s1 (Hi & ED & EW).
  split; [done|]. split; [exact EW|]. intros j s2 Hb2 ED2.
  destruct (recover_restart st (disk s) j Hlen Ho Hnd) as (Hl2 & Ho2 & Ha2).
  eapply wp_mono; [apply recover_boot; [done|rw ED2; exact Hl2|rw ED2; exact Ho2|done]|].
  intros [] s3 (Hi3 & ED3 & _). split; [done|]. intros b Hnb. rw ED3 ED ED2. by apply Ha2.
Qed.

(** The order of a commit's disk writes.  With the blocks [hs] logged and
    their new contents [c] in the cache, [commit] writes the contents to the log
    blocks, then the header naming [hs] (the commit point), then the home
    blocks, then the header with a zero count; nothing else reaches the disk,
    and afterwards every buffer is clean and unpinned. *)
Theorem commit_write_order hs s N :
  cst s s (vw s) (disk s) (dtrace s) -> lcfg d st (log s) hs -> good d (vw s) (disk s) hs -> NoDup hs ->
  (0 < length hs < NBUF)%nat -> (NBUF < N)%nat ->
  wp commit N s (fun _ s' =>
    let c := content d (vw s) (disk s) in
    let header := hdr (Z.of_nat (length hs)) hs (dblock (disk s) st) in
    dtrace s' = rev (imap (fun i h => (st + 1 + Z.of_nat i, c h)) hs ++ [(st, header)] ++
                     imap (fun _ h => (h, c h)) hs ++ [(st, stb 4 header 0 0)]) ++ dtrace s /\
    log_n (log s') = 0 /\ good d (vw s') (disk s') [] /\
    forall h, h ∈ hs -> dblock (disk s') h = c h).
Proof.
  intros Hs Hl Hg Hnd Hlen HN. eapply wp_mono; [by apply (commit_wp me pid d st s s (vw s) (disk s) (dtrace s) hs N)|].
  intros [] s1 (v1 & Hs1 & Hg1 & Hc1). pose proof (cs_disk _ _ _ _ _ _ _ Hs1) as ED.
  split; [exact (cs_trace _ _ _ _ _ _ _ Hs1)|]. rw (cst_log_of _ _ _ _ _ _ Hs1) ED (cs_vw _ _ _ _ _ _ _ Hs1).
  split_and!; [done|done|]. intros h Hh. rw -(good_content_disk d v1 _ [] h Hg1); [|apply not_elem_of_nil]. rw Hc1.
  apply cupd_commit; [done|]. intros ->. destruct (lcfg_home _ _ _ _ _ Hl Hh) as [_ Hn]. apply Hn. rw /log_area. lia.
Qed.

(** Writing a block inside a transaction: [bread], the new contents,
    [log_write], [brelse].  The block joins the log once, whether or not it was
    logged before (absorption), and stays pinned in the cache; every later read
    sees the new contents, every other block reads as before, and nothing
    reaches the disk. *)
Theorem logged_write_absorbs hs blk c s N :
  cst s s (vw s) (disk s) (dtrace s) -> tcfg d st (log s) hs -> good d (vw s) (disk s) hs -> NoDup hs ->
  (length hs < 29)%nat -> 1 <= log_outstanding (log s) -> home_ok st blk -> (30 < N)%nat ->
  wp (b ← bread d blk; setb b (set_b_data c);; log_write b;; brelse b) N s (fun _ s' =>
    let hs' := if decide (blk ∈ hs) then hs else hs ++ [blk] in
    cst s' s' (vw s') (disk s) (dtrace s) /\ tcfg d st (log s') hs' /\ NoDup hs' /\ good d (vw s') (disk s) hs' /\
    forall b, content d (vw s') (disk s) b = if decide (b = blk) then c else content d (vw s) (disk s) b).
Proof.
  intros Hs Ht Hg Hnd Hlen Ho Hb HN.
  eapply wp_mono; [by apply (tx_write_wp me pid d st s s (vw s) (disk s) (dtrace s) hs blk c N)|].
  intros [] s1 (v1 & L & Hs1 & Ht1 & Hg1 & _ & _ & Hc1). pose proof (cst_self _ _ _ _ _ Hs1) as Hs1'.
  rw (cs_vw _ _ _ _ _ _ _ Hs1) (cs_disk _ _ _ _ _ _ _ Hs1) (cs_trace _ _ _ _ _ _ _ Hs1) in Hs1'.
  cbv zeta. rw (cst_log_of _ _ _ _ _ _ Hs1) (cs_vw _ _ _ _ _ _ _ Hs1). fold (logged hs blk).
  split_and!; [done..|by apply NoDup_logged|done|done].
Qed.

(** [bread] returns a buffer that is valid, locked by the caller and holds
    the contents of the block: what was last written to it through the cache,
    or else what the disk has.  The disk and all other blocks are unchanged. *)
Theorem bread_returns_content P blk s N :
  cst s s (vw s) (disk s) (dtrace s) -> good d (vw s) (disk s) P -> (length P < NBUF)%nat -> (NBUF < N)%nat -> block_ok blk ->
  wp (bread d blk) N s (fun b s' =>
    (exists y, bcache s' !! b = Some y /\ b_valid y = true /\ b_dev y = d /\ b_blockno y = blk /\
       b_lock y = Sleeplock true pid /\ 0 < b_refcnt y /\ b_data y = content d (vw s) (disk s) blk) /\
    disk s' = disk s /\ dtrace s' = dtrace s /\
    forall b', content d (vw s') (disk s') b' = content d (vw s) (disk s) b').
Proof.
  intros Hs Hg Hlen HN Hblk. eapply wp_mono.
  { apply (bread_wp me pid s s (vw s) (disk s) (dtrace s) d blk N); [done|apply Hg|done|done|by eapply good_unlocked_ref|by eapply good_room]. }
  intros b s1 (x & Hx & Hs1). set (c := content d (vw s) (disk s) blk) in *.
  assert (b < length (vw s))%nat as Hbl by (destruct Hx as [Hx' _]; by apply lookup_lt_Some in Hx').
  destruct (cst_lookup _ _ _ _ _ _ _ b (got pid d blk c x) Hs1) as (_ & y & Hy & Ey); [by apply list_lookup_insert_eq|].
  assert (0 <= b_refcnt x) as Hr by (destruct Hx as [Hx' _]; apply (ci_ref _ _ _ (gd_cinv _ _ _ _ Hg) _ _ Hx')).
  pose proof (f_equal b_refcnt Ey) as Er. simpl in Er.
  split_and!; [|apply (cs_disk _ _ _ _ _ _ _ Hs1)|apply (cs_trace _ _ _ _ _ _ _ Hs1)|].
  - exists y. split_and!; [done|..|lia|];
      [apply (f_equal b_valid) in Ey|apply (f_equal b_dev) in Ey|apply (f_equal b_blockno) in Ey
      |apply (f_equal b_lock) in Ey|apply (f_equal b_data) in Ey]; by rw -Ey.
  - intros b'. rw (cs_vw _ _ _ _ _ _ _ Hs1) (cs_disk _ _ _ _ _ _ _ Hs1).
    assert (is_block d blk (got pid d blk c x) = true) as Hz by by rw /is_block /= !Z.eqb_refl.
    rw (content_fill d (vw s) (disk s) (disk s) blk b x _ (dblock (disk s) blk)) //; [|apply Hg| |apply disk_upd_same].
    + case_decide; by subst.
    + eapply (cinv_fill d (vw s) (disk s) (disk s)); [apply Hg|done|done| |done| |apply disk_upd_same]; simpl.
      * destruct Hx as [Hx' _]. rw (gd_ref _ _ _ _ Hg _ _ Hx'). by case_match.
      * lia.
Qed.

End durable.

(** [binit] turns the zeroed cache of a machine that has just started into
    a list of all the buffers, linked both ways through the head, the last one
    initialised in front; all are free, so every block reads as the disk has it. *)
Theorem binit_links_all `{!Layout} d s n :
  bcache s = replicate (NBUF + 1) zero_buf -> d <> 0 ->
  exists s', binit n s = Ok tt s' /\ s' = set_bcache (bcache s') s /\ lru (bcache s') (rev (seq 0 NBUF)) /\
    good d (vw s') (disk s') [] /\ forall b, content d (vw s') (disk s') b = dblock (disk s) b.
Proof.
  intros E Hd. exists (set_bcache (boot_cache (replicate 1024 0)) s).
  assert (good d (replicate NBUF (blank (replicate 1024 0))) (disk s) []) as Hg by by apply boot_good.
  split_and!; [by apply binit_run|done|apply boot_lru|by rw boot_view|]. intros b. rw boot_view.
  apply (good_content_disk _ _ _ _ _ Hg). apply not_elem_of_nil.
Qed.

(** ** An instance *)

(** A disk that answers at once. *)
Definition disk_eff (b : nat) (w : bool) (s : kstate) : kstate :=
  match bcache s !! b with
  | None => s
  | Some x =>
      if w then set_dtrace ((b_blockno x, b_data x) :: dtrace s) (set_disk (<[b_blockno x := b_data x]> (disk s)) s)
      else set_bcache (<[b := set_b_data (dblock (disk s) (b_blockno x)) x]> (bcache s)) s
  end.
#[local] Instance ram_driver : DiskDriver := fun b w => modify (disk_eff b w).
#[local] Instance ram_ok : DriverOk.
Proof.
  exists (fun _ => True). intros me pid b w N s x Hc _ Hx Hd _ HN.
  rw /wp /disk_rw /ram_driver /modify /disk_eff Hx. destruct w; split_and!; try done; by eapply calm_ext; [exact Hc| | |left].
Defined.
#[local] Existing Instance small_layout.

(** Device 1, the log at block 2; an empty disk. *)
Definition log0 : logst := Logst 2 30 0 false 1 (Loghdr 0 (replicate 30 0)).
Definition fs0 : kstate := set_log log0 (set_bcache (boot_cache (replicate 1024 0)) ready0).

Lemma calm_ready0 : calm 0 1 ready0.
Proof.
  split; try done; [eexists; split; [vm_compute; reflexivity|done]|]. by apply lk_check_ok.
Qed.
Lemma fs0_cst : cst 0 1 fs0 fs0 (vw fs0) (disk fs0) (dtrace fs0).
Proof.
  split; try done; [by eapply calm_ext; [exact calm_ready0| | |left]|]. eexists. apply boot_lru.
Qed.
Lemma fs0_good : good 1 (vw fs0) (disk fs0) [].
Proof. rw /fs0. exact (boot_good (replicate 1024 0) 1 ∅ ltac:(done)). Qed.
Lemma fs0_idle : fs_idle 0 1 1 2 fs0.
Proof.
  split; [apply fs0_cst| |apply fs0_good|done|done|done|done].
  split; [split; try done; simpl; lia|done|done].
Qed.
Lemma fs0_boot : fs_boot 0 1 1 2 fs0.
Proof. split; [apply fs0_cst|by split|done|apply fs0_good|done|done]. Qed.

(** Two blocks written together. *)
Definition ws0 : list (Z * list Z) := [(40, replicate 1024 7); (41, replicate 1024 9)].

Lemma home0 b : 32 <= b < 100 -> home_ok 2 b.
Proof. intros Hb. split; [lia|]. rw /log_area. lia. Qed.

Lemma homes0 l : forallb (fun b => (33 <=? b) && (b <? 100)) l = true -> Forall (home_ok 2) l.
Proof.
  rw forallb_forall. intros H. apply Forall_forall. intros b Hb%list_elem_of_In%H. zbool. apply home0. lia.
Qed.


(** A log that was cut off after its header was written. *)
Definition cut0 : gmap Z (list Z) := <[3 := replicate 1024 7]> (<[2 := hdr 1 [40] (replicate 1024 0)]> ∅).
Definition fs1 : kstate := set_disk cut0 fs0.

Lemma fs1_boot : fs_boot 0 1 1 2 fs1.
Proof.
  split; [|by split|done|exact (boot_good (replicate 1024 0) 1 cut0 ltac:(done))|done|done].
  split; try done; [by eapply calm_ext; [exact calm_ready0| | |left]|]. eexists. apply boot_lru.
Qed.
Lemma fs1_header : hdr_list (dblock (disk fs1) 2) = [40].
Proof. vm_compute. reflexivity. Qed.

Lemma recovery_restartable_witness :
  wp recover_from_log 40%nat fs1 (fun _ s' => (40, replicate 1024 7) ∈ dtrace s').
Proof.
  eapply wp_mono.
  { apply (recovery_restartable 0 1 1 2 fs1 40%nat); [apply fs1_boot|vm_compute; reflexivity| | |lia].
    - split; [vm_compute; split; discriminate|]. rw fs1_header. by apply homes0.
    - rw fs1_header. apply NoDup_singleton. }
  intros [] s' (_ & H & _). rw H fs1_header. rw elem_of_app. left. apply list_elem_of_In, in_rev. rw rev_involutive.
  left. reflexivity.
Defined.

(** Block 40 logged and not committed. *)
Definition dirty0 : list buf := <[O := Buf true false 1 40 (Sleeplock false 0) 1 1 bhead (replicate 1024 7)]> (boot_cache (replicate 1024 0)).
Definition fs2 : kstate :=
  set_log (Logst 2 30 1 false 1 (Loghdr 1 (40 :: replicate 29 0))) (set_bcache dirty0 ready0).

Lemma fs2_cst : cst 0 1 fs2 fs2 (vw fs2) (disk fs2) (dtrace fs2).
Proof.
  split; try done; [by eapply calm_ext; [exact calm_ready0| | |left]|]. exists (rev (seq 0 NBUF)).
  eapply lru_insert; [apply boot_lru|reflexivity|done|done].
Qed.
Lemma fs2_good : good 1 (vw fs2) (disk fs2) [40].
Proof.
  assert (vw fs2 = <[O := dirty_buf 1 40 (replicate 1024 7)]> (vw fs0)) as E by reflexivity.
  rw E. eapply (good_dirty 1 (vw fs0) (disk fs0) [] [40] 40 0 (blank (replicate 1024 0))); [apply fs0_good| |left|].
  - split; [reflexivity|]. right. split; [done|]. intros j y Hj. change (replicate NBUF (blank (replicate 1024 0)) !! j = Some y) in Hj.
    by apply lookup_replicate in Hj as [-> _].
  - intros h Hh. rw list_elem_of_singleton. split; [done|]. intros H. by apply not_elem_of_nil in H.
Qed.
Lemma fs2_log : tcfg 1 2 (log fs2) [40].
Proof.
  split; [|done|done]. split; try done; [|by apply homes0|simpl; lia].
  intros [|i] h Hi; [exact Hi|done].
Qed.




