(* ===== verification/FsTx.v ===== *)
(** * Blocks inside a transaction

    [fs.c] works on blocks through [bread], [bp->data], [log_write] and
    [brelse], sometimes holding several buffers.  [tx s0 c hs H] is its view of
    the state during an operation: block [b] holds [c b], the blocks [hs] are
    logged, the buffers [H] are held, and everything else is as in [s0]. *)

From S2P Require Import Prelude Mem KString Spinlock Machine Kalloc Printf Vm KState Proc ProcInv FsFmt FsFmtSpec Sleeplock Bio BioInv BioSpec Log LogInv LogSpec LogTx Fs.

(** A run that returns with [Q] or panics with [P]; it does nothing undefined. *)
Definition wpp {S A} (m : K S A) n (s : S) (Q : A -> S -> Prop) (P : string -> Prop) : Prop :=
  match m n s with Ok a s' => Q a s' | Panic msg _ => P msg | _ => False end.
Lemma wpp_bind {S A B} (m : K S A) (f : A -> K S B) n s R Q P :
  wp m n s R -> (forall a s', R a s' -> wpp (f a) n s' Q P) -> wpp (m ≫= f) n s Q P.
Proof. rw /wp /wpp /mbind /K_bind. destruct (m n s); try done. intros HR Hf. by apply Hf. Qed.
Lemma wpp_run {S A B} (m : K S A) (f : A -> K S B) n s a s' Q P : m n s = Ok a s' -> wpp (f a) n s' Q P -> wpp (m ≫= f) n s Q P.
Proof. rw /wpp /mbind /K_bind. by intros ->. Qed.
Lemma wpp_wp {S A} (m : K S A) n s (Q : A -> S -> Prop) P : wp m n s Q -> wpp m n s Q P.
Proof. rw /wp /wpp. by destruct (m n s). Qed.
Lemma wpp_seq {S A B} (m : K S A) (f : A -> K S B) n s R Q P :
  wpp m n s R P -> (forall a s', R a s' -> wpp (f a) n s' Q P) -> wpp (m ≫= f) n s Q P.
Proof. rw /wpp /mbind /K_bind. destruct (m n s); try done. intros HR Hf. by apply Hf. Qed.
Lemma wpp_mono {S A} (m : K S A) n s (Q Q' : A -> S -> Prop) (P P' : string -> Prop) :
  wpp m n s Q P -> (forall a s', Q a s' -> Q' a s') -> (forall msg, P msg -> P' msg) -> wpp m n s Q' P'.
Proof. rw /wpp. destruct (m n s); naive_solver. Qed.
Lemma wpp_loop {S A B} (I : A -> S -> Prop) (v : A -> nat) (body : A -> K S (A + B)) n a s (Q : B -> S -> Prop) P :
  I a s -> (v a < n)%nat ->
  (forall a s, I a s -> wpp (body a) n s (fun r s' => match r with inl a' => I a' s' /\ (v a' < v a)%nat | inr b => Q b s' end) P) ->
  wpp (loop body a) n s Q P.
Proof.
  intros HI Hv Hbody. rw /loop. enough (forall j a s, I a s -> (v a < j)%nat -> wpp (loop_n j body a) n s Q P) as H by by apply H.
  clear -Hbody. induction j as [|j IH]; intros a s HI Hv; [lia|]. specialize (Hbody a s HI). rw /wpp /= in Hbody |- *.
  destruct (body a n s) as [[a'|b] s'| | | |]; simpl in *; try done. destruct Hbody as [HI' Hv']. apply IH; [done|lia].
Qed.

Lemma wpp_never {S A} (m : K S A) n s Q : wpp m n s Q (fun _ => False) <-> wp m n s Q.
Proof. rw /wpp /wp. by destruct (m n s). Qed.

Lemma if_decide {A} (P : Prop) `{!Decision P} (x y : A) : (if bool_decide P then x else y) = if decide P then x else y.
Proof. case_bool_decide; case_decide; done. Qed.

Section view.
Context (pid d : Z).
Implicit Types (v : list buf) (D : gmap Z (list Z)) (P : list Z) (H : list (Z * nat)).
Abbreviation got := (got pid).

Record txv v D P H : Prop := {
  tv_cinv : cinv d v D;
  tv_len : length v = NBUF;
  tv_lock : forall i x, v !! i = Some x -> if pins d H.*1 x then b_lock x = Sleeplock true pid else sl_locked (b_lock x) = false;
  tv_ref : forall i x, v !! i = Some x -> b_refcnt x = (if pins d P x then 1 else 0) + (if pins d H.*1 x then 1 else 0);
  tv_pins : forall h, h ∈ P -> exists i x, v !! i = Some x /\ is_block d h x = true /\ b_valid x = true;
  tv_held : forall h b, (h, b) ∈ H -> exists x, v !! b = Some x /\ is_block d h x = true /\ b_valid x = true;
  tv_nodup : NoDup H.*1;
}.
Lemma txv_good v D P : txv v D P [] <-> good d v D P.
Proof.
  assert (forall x, pins d [] x = false) as Hn.
  { intros x. rw /pins. case_bool_decide as E; [by apply not_elem_of_nil in E|by rw andb_false_r]. }
  split.
  - intros [Hc Hl Hk Hr Hp _ _]. split; [done|done| | |done].
    + intros i x Hx. specialize (Hk i x Hx). by rw Hn in Hk.
    + intros i x Hx. specialize (Hr i x Hx). rw Hn in Hr. lia.
  - intros [Hc Hl Hk Hr Hp]. split; [done|done| | |done| |apply NoDup_nil_2].
    + intros i x Hx. rw Hn. by eapply Hk.
    + intros i x Hx. rw Hn (Hr i x Hx). lia.
    + intros h b Hh. by apply not_elem_of_nil in Hh.
Qed.

(** A buffer given new contents, or taken, logged or released. *)
Lemma txv_put v D P H P' H' blk b x z :
  txv v D P H -> picks d blk v b x -> is_block d blk z = true -> b_valid z = true -> b_disk z = false ->
  b_refcnt z = (if decide (blk ∈ P') then 1 else 0) + (if decide (blk ∈ H'.*1) then 1 else 0) ->
  (if decide (blk ∈ H'.*1) then b_lock z = Sleeplock true pid else sl_locked (b_lock z) = false) ->
  (forall h, h <> blk -> (h ∈ P' <-> h ∈ P)) -> (forall h k, h <> blk -> ((h, k) ∈ H' <-> (h, k) ∈ H)) ->
  (forall k, (blk, k) ∈ H' -> k = b) -> NoDup H'.*1 ->
  (blk ∉ P' -> blk ∉ H'.*1 -> b_data z = dblock D blk) ->
  txv (<[b := z]> v) D P' H' /\
  forall b', content d (<[b := z]> v) D b' = if decide (b' = blk) then b_data z else content d v D b'.
Proof.
  intros Hv Hp Hz Hval Hdk Hr Hlk HP HH Hb Hnd Hcl. pose proof Hp as [Hx Hpx]. pose proof (tv_cinv _ _ _ _ Hv) as Hc.
  assert (forall h, h <> blk -> (h ∈ H'.*1 <-> h ∈ H.*1)) as HH1.
  { intros h Hne. rw !list_elem_of_fmap. split; intros ([h' k] & -> & Hin); exists (h', k); (split; [done|]); by apply HH. }
  assert (cinv d (<[b := z]> v) D) as Hc'.
  { eapply (cinv_fill d v D D blk b x z (dblock D blk)); [done..| |done| |apply disk_upd_same]; rw Hr.
    - repeat case_decide; lia.
    - case_decide; case_decide; try lia. intros _. split; [done|]. intros _. by apply Hcl. }
  split; [|intros b'; by rw (content_fill d v D D blk b x _ (dblock D blk)) //; apply disk_upd_same].
  assert (forall i y, i <> b -> v !! i = Some y -> pins d P' y = pins d P y /\ pins d H'.*1 y = pins d H.*1 y) as Hsame.
  { intros i y Hne Hy. destruct (b_dev y =? d) eqn:Ed; [|by rw /pins Ed].
    assert (is_block d (b_blockno y) y = true) as Hby by by rw /is_block Ed Z.eqb_refl.
    assert (b_blockno y <> blk) as Hbl by exact (picks_other d v D blk b x i y _ Hc Hp Hy Hne Hby).
    rw !(is_block_pins d _ _ _ Hby). split; apply bool_decide_ext; [by apply HP|by apply HH1]. }
  assert (forall Q, pins d Q z = bool_decide (blk ∈ Q)) as Hzp by (intros Q; by apply is_block_pins).
  assert (b < length v)%nat as Hbl by by apply lookup_lt_Some in Hx.
  split; [done|by rw length_insert (tv_len _ _ _ _ Hv)| | | | |done].
  - intros i y. rw list_lookup_insert. destruct (decide (b = i /\ (b < length v)%nat)) as [E|E].
    + intros [= <-]. rw Hzp. destruct (decide (blk ∈ H'.*1)); [by rw bool_decide_eq_true_2|by rw bool_decide_eq_false_2].
    + intros Hy. assert (i <> b) as Hne by (intros ->; by apply E). destruct (Hsame i y Hne Hy) as [_ ->]. by eapply (tv_lock _ _ _ _ Hv).
  - intros i y. rw list_lookup_insert. destruct (decide (b = i /\ (b < length v)%nat)) as [E|E].
    + intros [= <-]. by rw !Hzp Hr !if_decide.
    + intros Hy. assert (i <> b) as Hne by (intros ->; by apply E). destruct (Hsame i y Hne Hy) as [-> ->]. by eapply (tv_ref _ _ _ _ Hv).
  - intros h Hh. destruct (decide (h = blk)) as [->|Hne]; [exists b, z; by rw list_lookup_insert_eq|].
    apply HP in Hh; [|done]. destruct (tv_pins _ _ _ _ Hv h Hh) as (i & y & Hy & Hby & Hvy). exists i, y. split_and!; [|done..].
    rw list_lookup_insert_ne //. intros <-. simplify_eq. destruct Hpx as [Hb'|[Hr0 _]]; [apply Hne; by eapply is_block_inj|].
    rw (tv_ref _ _ _ _ Hv _ _ Hx) (is_block_pins _ _ _ _ Hby) bool_decide_eq_true_2 // in Hr0. case_match; lia.
  - intros h k Hh. destruct (decide (h = blk)) as [->|Hne]; [rw (Hb k Hh); exists z; by rw list_lookup_insert_eq|].
    apply HH in Hh; [|done]. destruct (tv_held _ _ _ _ Hv h k Hh) as (y & Hy & Hby & Hvy). exists y. split_and!; [|done..].
    rw list_lookup_insert_ne //. intros <-. simplify_eq. destruct Hpx as [Hb'|[Hr0 _]]; [apply Hne; by eapply is_block_inj|].
    assert (h ∈ H.*1) as Hin by (apply list_elem_of_fmap; by exists (h, b)).
    rw (tv_ref _ _ _ _ Hv _ _ Hx) (is_block_pins _ H.*1 _ _ Hby) (bool_decide_eq_true_2 (h ∈ H.*1)) // in Hr0. case_match; lia.
Qed.
Lemma held_picks v D P H blk b : txv v D P H -> (blk, b) ∈ H -> exists x, picks d blk v b x /\ v !! b = Some x /\
  b_valid x = true /\ b_dev x = d /\ b_blockno x = blk /\ b_lock x = Sleeplock true pid /\ b_disk x = false /\
  b_refcnt x = (if decide (blk ∈ P) then 1 else 0) + 1 /\ b_data x = content d v D blk.
Proof.
  intros Hv Hin. destruct (tv_held _ _ _ _ Hv _ _ Hin) as (x & Hx & Hb & Hval). exists x. assert (blk ∈ H.*1) as Hin1 by (apply list_elem_of_fmap; by exists (blk, b)).
  pose proof (tv_lock _ _ _ _ Hv _ _ Hx) as Hl. pose proof (tv_ref _ _ _ _ Hv _ _ Hx) as Hr. rw !(is_block_pins d _ _ _ Hb) in Hl Hr.
  rw bool_decide_eq_true_2 // in Hl. rw (bool_decide_eq_true_2 (blk ∈ H.*1)) // in Hr.
  pose proof Hb as [Hd Hbn]%andb_prop. zbool. split_and!; [split; [done|by left]|done|done|done|done|done| | |].
  - by eapply (ci_idle _ _ _ (tv_cinv _ _ _ _ Hv)).
  - by rw Hr if_decide.
  - rw (content_at d v D blk b x) //; [by rw Hval|apply Hv].
Qed.
End view.

Lemma held_uniq (H : list (Z * nat)) blk b k : NoDup H.*1 -> (blk, b) ∈ H -> (blk, k) ∈ H -> k = b.
Proof.
  intros Hnd Hb Hk. apply list_elem_of_lookup in Hb as [i Hi], Hk as [j Hj].
  assert (i = j) as <-; [|by simplify_eq]. eapply (NoDup_lookup H.*1 i j blk); [done|by rw list_lookup_fmap Hi|by rw list_lookup_fmap Hj].
Qed.

(** ** The operations *)

(** The contents with one block replaced. *)
Definition bupd (blk : Z) (x : list Z) (c : Z -> list Z) : Z -> list Z := fun b => if decide (b = blk) then x else c b.
Lemma bupd_eq blk x c : bupd blk x c blk = x.
Proof. by rw /bupd decide_True. Qed.
Lemma bupd_ne blk x c b : b <> blk -> bupd blk x c b = c b.
Proof. intros H. by rw /bupd decide_False. Qed.

Section tx.
Context {lay : Layout} {drv : DiskDriver} {dok : DriverOk}.
Context (me : nat) (pid : Z) (d st : Z).
Implicit Types (s : kstate) (v : list buf) (c : Z -> list Z) (hs : list Z) (H : list (Z * nat)) (L : logst).
Abbreviation cst := (cst me pid).
Abbreviation txv := (txv pid d).

Definition tx s0 c hs H s : Prop := exists v L,
  cst (set_log L s0) s v (disk s0) (dtrace s0) /\ tcfg d st L hs /\ txv v (disk s0) hs H /\
  1 <= log_outstanding L /\ log_outstanding L = log_outstanding (log s0) /\ log_committing L = log_committing (log s0) /\ NoDup hs /\
  forall b, content d v (disk s0) b = c b.

(** What is neither logged nor held is on disk. *)
Lemma tx_clean s0 c hs H s blk : tx s0 c hs H s -> blk ∉ hs -> blk ∉ H.*1 -> c blk = dblock (disk s0) blk.
Proof.
  intros (v & L & _ & _ & Hv & _ & _ & _ & _ & Hc) Hn Hnh. rw -Hc. destruct (find (is_block d blk) v) as [x|] eqn:E; [|by rw /content E].
  apply find_some in E as [Hx Hb]. apply list_elem_of_In, list_elem_of_lookup in Hx as [i Hi].
  rw (content_at d v _ blk i x) //; [|apply Hv]. destruct (b_valid x) eqn:Ev; [|done].
  pose proof (tv_ref _ _ _ _ _ _ Hv _ _ Hi) as Hr. rw !(is_block_pins _ _ x blk) // !bool_decide_eq_false_2 // in Hr.
  destruct (ci_clean _ _ _ (tv_cinv _ _ _ _ _ _ Hv) _ _ Hi Hr) as [_ Hcl]. apply andb_prop in Hb as [Hd Hb]. zbool. rw Hcl //. congruence.
Qed.

Lemma tx_bread s0 c hs H s blk N : tx s0 c hs H s -> blk ∉ H.*1 -> block_ok blk -> (length hs + length H < NBUF)%nat -> (NBUF < N)%nat ->
  wp (bread d blk) N s (fun b s' => tx s0 c hs ((blk, b) :: H) s').
Proof.
  intros (v & L & Hs & Ht & Hv & Ho & Ho2 & Hc2 & Hndh & Hc) Hn Hblk Hroom HN.
  eapply wp_mono; [apply (bread_wp me pid (set_log L s0) s v _ _ d blk N Hs); [apply Hv|done|done| |]|].
  - intros i x Hx Hb. pose proof (tv_lock _ _ _ _ _ _ Hv _ _ Hx) as Hl. pose proof (tv_ref _ _ _ _ _ _ Hv _ _ Hx) as Hr.
    rw (is_block_pins d _ _ _ Hb) bool_decide_eq_false_2 // in Hl. split; [done|]. rw Hr. repeat case_match; lia.
  - apply room_picks, (free_buffer d v (disk s0) (hs ++ H.*1)); [apply Hv|apply Hv| |by rw length_app length_fmap].
    intros i x Hx Hr. rw (tv_ref _ _ _ _ _ _ Hv _ _ Hx) /pins in Hr. rw /pins. destruct (b_dev x =? d); [|done]. cbn [andb] in *.
    apply bool_decide_eq_true. rw elem_of_app. do 2 case_bool_decide; tauto.
  - intros b s' (x & Hp & Hs'). assert (b_refcnt x = if decide (blk ∈ hs) then 1 else 0) as Hrx.
    { destruct Hp as [Hx [Hb|[Hr Hnone]]].
      - rw (tv_ref _ _ _ _ _ _ Hv _ _ Hx) !(is_block_pins d _ _ _ Hb) (bool_decide_eq_false_2 (blk ∈ H.*1)) // Z.add_0_r. apply if_decide.
      - rw Hr decide_False //. intros Hin. destruct (tv_pins _ _ _ _ _ _ Hv _ Hin) as (i & y & Hy & Hb & _). by rw (Hnone i y Hy) in Hb. }
    assert (blk ∈ ((blk, b) :: H).*1) as Hself by (apply elem_of_cons; by left).
    destruct (txv_put pid d v (disk s0) hs H hs ((blk, b) :: H) blk b x (got pid d blk (content d v (disk s0) blk) x)) as [Hv' Hc'];
      [done|done|by rw /is_block /= !Z.eqb_refl|done|done| | |done| | | | |].
    + cbn [b_refcnt got]. by rw Hrx (decide_True _ _ Hself).
    + by rw (decide_True _ _ Hself).
    + intros h k Hne. rw elem_of_cons. split; [intros [?|?]; [congruence|done]|by right].
    + intros k [[= ->]|Hin]%elem_of_cons; [done|]. exfalso. apply Hn. apply list_elem_of_fmap. by exists (blk, k).
    + by apply NoDup_cons; split; [|apply Hv].
    + intros _ []. by left.
    + exists (<[b := got pid d blk (content d v (disk s0) blk) x]> v), L. split_and!; [done..|]. intros b'. rw Hc' /=. destruct (decide (b' = blk)) as [->|]; apply Hc.
Qed.
Lemma tx_getdata s0 c hs H s blk b n : tx s0 c hs H s -> (blk, b) ∈ H -> getdata b n s = Ok (c blk) s.
Proof.
  intros (v & L & Hs & Ht & Hv & _ & _ & _ & _ & Hc) Hin. destruct (held_picks _ _ _ _ _ _ _ _ Hv Hin) as (x & _ & Hx & _ & _ & _ & _ & _ & _ & Hd).
  rw /getdata (cst_getb _ _ _ _ _ _ _ b x b_data n Hs Hx) //. by rw Hd Hc.
Qed.
Lemma tx_setdata s0 c hs H s blk b f n : tx s0 c hs H s -> (blk, b) ∈ H ->
  wp (setdata b f) n s (fun _ s' => tx s0 (bupd blk (f (c blk)) c) hs H s').
Proof.
  intros (v & L & Hs & Ht & Hv & Ho & Ho2 & Hc2 & Hndh & Hc) Hin. destruct (held_picks _ _ _ _ _ _ _ _ Hv Hin) as (x & Hp & Hx & Hval & Hd & Hbn & Hl & Hdk & Hr & Hdat).
  assert (blk ∈ H.*1) as Hself by (apply list_elem_of_fmap; by exists (blk, b)).
  assert (NoDup H.*1) as Hnd by apply Hv.
  pose proof (cst_setb _ _ _ _ _ _ _ b x (fun x => set_b_data (f (b_data x)) x) n Hs Hx ltac:(done)) as Hw.
  eapply wp_mono; [exact Hw|]. clear Hw. intros [] s' Hs'.
  set (z := strip _) in Hs'. assert (b_data z = f (c blk)) as Hz by (rw -Hc -Hdat; done).
  destruct (txv_put pid d v (disk s0) hs H hs H blk b x z) as [Hv' Hc']; [done|done| |done|done| | |done|done| |done| |].
  - by rw /is_block /z /= Hd Hbn !Z.eqb_refl.
  - rw (decide_True _ _ Hself). exact Hr.
  - rw (decide_True _ _ Hself). exact Hl.
  - intros k Hk. by eapply (held_uniq H blk).
  - done.
  - exists (<[b := z]> v), L. split_and!; [done..|]. intros b'. rw Hc' Hz /bupd. destruct (decide (b' = blk)); [done|apply Hc].
Qed.
Lemma tx_log_write s0 c hs H s blk b N : tx s0 c hs H s -> (blk, b) ∈ H -> home_ok st blk -> (length hs < 29)%nat -> (30 < N)%nat ->
  wp (log_write b) N s (fun _ s' => tx s0 c (logged hs blk) H s').
Proof.
  intros (v & L & Hs & Ht & Hv & Ho & Ho2 & Hc2 & Hndh & Hc) Hin Hh Hl29 HN.
  destruct (held_picks _ _ _ _ _ _ _ _ Hv Hin) as (x & Hp & Hx & Hval & Hd & Hbn & Hl & Hdk & Hr & Hdat).
  assert (blk ∈ H.*1) as Hself by (apply list_elem_of_fmap; by exists (blk, b)). subst blk.
  eapply wp_mono; [apply (log_write_wp me pid d st (set_log L s0) s v _ _ hs b x N Hs Ht); [done|done|done|done| | |done]; rw Hr; case_decide; lia|].
  intros [] s'. rw /logged. case_decide as E; intros Hs'.
  { exists v, L. by split_and!. }
  destruct (txv_put pid d v (disk s0) hs H (hs ++ [b_blockno x]) H (b_blockno x) b x (set_b_refcnt (b_refcnt x + 1) x)) as [Hv' Hc'];
    [done|done| |done|done| | | |done| |apply Hv| |].
  - by rw /is_block /= Hd !Z.eqb_refl.
  - assert (b_blockno x ∈ hs ++ [b_blockno x]) as Hin2 by (apply elem_of_app; right; by left). by rw (decide_True _ _ Hself) (decide_True _ _ Hin2) /= Hr.
  - rw (decide_True _ _ Hself). exact Hl.
  - intros h Hne. rw elem_of_app list_elem_of_singleton. tauto.
  - intros k Hk. eapply (held_uniq H); [apply Hv|done|done].
  - done.
  - exists (<[b := set_b_refcnt (b_refcnt x + 1) x]> v), (log_add (b_blockno x) L). split_and!; [|by apply tcfg_add|done|done|done|done| |].
    + replace (set_log (log_add (b_blockno x) L) s0) with (set_log (log_add (b_blockno x) (log (set_log L s0))) (set_log L s0)); [done|by destruct s0].
    + pose proof (NoDup_logged hs (b_blockno x) Hndh) as H0. by rw /logged decide_False in H0.
    + intros b'. rw Hc' /= Hdat. destruct (decide (b' = b_blockno x)) as [->|]; apply Hc.
Qed.
Lemma tx_brelse s0 c hs H s blk b N : tx s0 c hs ((blk, b) :: H) s -> blk ∈ hs \/ c blk = dblock (disk s0) blk ->
  wp (brelse b) N s (fun _ s' => tx s0 c hs H s').
Proof.
  intros (v & L & Hs & Ht & Hv & Ho & Ho2 & Hc2 & Hndh & Hc) Hcl.
  destruct (held_picks _ _ _ _ _ _ blk b Hv) as (x & Hp & Hx & Hval & Hd & Hbn & Hl & Hdk & Hr & Hdat); [by left|].
  pose proof (tv_nodup _ _ _ _ _ _ Hv) as Hnd. apply NoDup_cons in Hnd as [Hnin Hnd].
  assert (0 < b_refcnt x < 2 ^ 32) as Hr32 by (rw Hr; destruct (decide (blk ∈ hs)); lia).
  pose proof (brelse_wp _ _ _ _ _ _ _ b x N Hs Hx Hl Hr32) as Hw. eapply wp_mono; [exact Hw|]. clear Hw. intros [] s' Hs'.
  destruct (txv_put pid d v (disk s0) hs ((blk, b) :: H) hs H blk b x (released x)) as [Hv' Hc'];
    [done|done| |done|done| | |done| | |done| |].
  - by rw /is_block /= Hd Hbn !Z.eqb_refl.
  - rw (decide_False _ _ Hnin) /= Hr. case_decide; lia.
  - by rw (decide_False _ _ Hnin).
  - intros h k Hne. rw elem_of_cons. split; [by right|]. intros [?|?]; [congruence|done].
  - intros k Hk. exfalso. apply Hnin, list_elem_of_fmap. by exists (blk, k).
  - intros Hnp _. change (b_data (released x)) with (b_data x). rw Hdat Hc. by destruct Hcl.
  - exists (<[b := released x]> v), L. split_and!; [done..|]. intros b'. rw Hc'. change (b_data (released x)) with (b_data x). rw Hdat. destruct (decide (b' = blk)) as [->|]; apply Hc.
Qed.
End tx.
