(* ===== verification/FsOp.v ===== *)
(** * File-system operations are atomic

    An operation of the file system is a computation between [begin_op] and
    [end_op].  Whatever blocks it changes through the log, the disk gets all of
    its changes or none, also when the machine stops on the way. *)

From S2P Require Import Prelude Mem KString Spinlock Machine Kalloc Printf Vm KState Proc ProcInv FsFmt FsFmtSpec Sleeplock Bio BioInv BioSpec Log LogInv LogSpec LogCrash LogTx Durability Fs FsTx.

Definition operation `{!Layout} `{!DiskDriver} {A} (m : K kstate A) : K kstate A := begin_op;; a ← m; end_op;; mret a.

Section op.
Context {lay : Layout} {drv : DiskDriver} {dok : DriverOk}.
Context (me : nat) (pid : Z) (d st : Z).
Implicit Types (s : kstate) (c : Z -> list Z) (hs : list Z).
Abbreviation tx := (tx me pid d st).
Abbreviation fs_idle := (fs_idle me pid d st).
Abbreviation fs_boot := (fs_boot me pid d st).

(** The state in which the body of an operation starts. *)
Definition op_start s s1 : Prop := rest (set_log (log s) s1) = rest s /\ tx s1 (dblock (disk s)) [] [] s1.
(** The body ends with the contents [c], having changed nothing behind the
    back of the log. *)
Definition op_end s1 c s2 : Prop := exists s1' hs, disk s1' = disk s1 /\ dtrace s1' = dtrace s1 /\ log s1' = log s1 /\
  (length hs <= 29)%nat /\ tx s1' c hs [] s2.

Lemma begin_start s N : fs_idle s -> (0 < N)%nat -> wp begin_op N s (fun _ s1 => op_start s s1 /\ disk s1 = disk s /\ dtrace s1 = dtrace s /\
  log_outstanding (log s1) = 1 /\ log_committing (log s1) = false).
Proof.
  intros Hi HN. pose proof (fi_cst _ _ _ _ _ Hi) as Hs. eapply wp_mono.
  { apply (begin_op_wp me pid s s (vw s) (disk s) (dtrace s) N); [done|apply Hi|rw (fi_outstanding _ _ _ _ _ Hi); lia| |done].
    rw (fi_outstanding _ _ _ _ _ Hi) (lc_n _ _ _ _ (tc_cfg _ _ _ _ (fi_log _ _ _ _ _ Hi))) /LOGSIZE /MAXOPBLOCKS /=. lia. }
  rw (fi_outstanding _ _ _ _ _ Hi). intros [] s1 Hs1. set (L1 := set_log_outstanding _ _) in Hs1.
  pose proof (cst_log_of _ _ _ _ _ _ _ _ Hs1) as EL. pose proof (cs_disk _ _ _ _ _ _ _ Hs1) as ED. pose proof (cs_trace _ _ _ _ _ _ _ Hs1) as EW.
  pose proof (cs_vw _ _ _ _ _ _ _ Hs1) as Ev. pose proof (cs_rest _ _ _ _ _ _ _ Hs1) as Er.
  split_and!; [split|done|done|by rw EL|by rw EL; apply Hi].
  - apply (f_equal (set_log (log s))) in Er. change (rest (set_log (log s) s1) = rest (set_log (log s) s)) in Er. rw Er. by destruct s.
  - exists (vw s), (log s1). rw ED EW. split_and!.
    + rw EL. destruct Hs1 as [? ? ? ? ? ? ?]. split; try done. rw /= -EL. by destruct s1.
    + rw EL. destruct (fi_log _ _ _ _ _ Hi) as [[] ? ?]. by split.
    + apply txv_good. apply Hi.
    + rw EL. done.
    + done.
    + done.
    + apply NoDup_nil_2.
    + intros b. apply (good_content_disk _ _ _ _ _ (fi_good _ _ _ _ _ Hi)). apply not_elem_of_nil.
Qed.

(** After [recover_from_log] the disk, outside the log, is [old] or [new]. *)
Definition old_or_new (old new : Z -> list Z) N s2 : Prop :=
  wp recover_from_log N s2 (fun _ s3 => fs_idle s3 /\
    ((forall b, ~ log_area st b -> dblock (disk s3) b = old b) \/ (forall b, ~ log_area st b -> dblock (disk s3) b = new b))).

Lemma end_commits s s1 c s2 N : fs_idle s -> disk s1 = disk s -> dtrace s1 = dtrace s -> log_outstanding (log s1) = 1 -> log_committing (log s1) = false ->
  op_end s1 c s2 -> (30 < N)%nat ->
  wp end_op N s2 (fun _ s' => fs_idle s' /\ (forall b, ~ log_area st b -> dblock (disk s') b = c b) /\
    exists wr, disk s' = writes wr (disk s) /\ dtrace s' = rev wr ++ dtrace s /\
      forall k s2, fs_boot s2 -> disk s2 = writes (take k wr) (disk s) -> old_or_new (dblock (disk s)) c N s2).
Proof.
  intros Hi ED1 EW1 Hout1 Hcom1 (s1' & hs & ED & EW & EL & Hl29 & Ht) HN. pose proof Ht as (v & L & Hs & Htc & Hv & Ho & Ho2 & Hc2 & Hnd & Hcon).
  rw EL in Ho2 Hc2. rw ED EW ED1 EW1 in Hs Hv Hcon. apply txv_good in Hv as Hg. set (D := disk s) in *.
  eapply wp_mono; [apply (end_op_wp me pid d st (set_log L s1') s2 v D (dtrace s) hs N Hs); [apply Htc|done|done|rw /NBUF; lia|cbn; congruence|cbn; congruence|rw /NBUF; lia]|].
  intros [] s3 (v3 & Hs3 & Hg3). cbv zeta in Hs3, Hg3.
  assert (Forall (home_ok st) hs) as Hh by apply (lc_home _ _ _ _ (tc_cfg _ _ _ _ Htc)).
  assert (forall b, b ∈ hs -> c b = content d v D b) as Hin by (intros b _; by rw Hcon).
  assert (forall b, b ∉ hs -> c b = dblock D b) as Hout.
  { intros b Hb. rw -Hcon. by apply (good_content_disk _ _ _ _ _ Hg). }
  destruct (tx_done st _ D hs c (fi_len _ _ _ _ _ Hi) (fi_header _ _ _ _ _ Hi) Hh Hnd ltac:(lia) Hin Hout) as (Hz' & Hlen' & Hdata).
  pose proof (cs_disk _ _ _ _ _ _ _ Hs3) as ED3. pose proof (cst_log_of _ _ _ _ _ _ _ _ Hs3) as EL3.
  split_and!.
  - split; rw ?ED3 ?EL3 //; [by rw -ED3; eapply cst_self|by eapply tcfg_ended|by rw (cs_vw _ _ _ _ _ _ _ Hs3)].
  - by rw ED3.
  - exists (tx_writes st (content d v D) D hs). split_and!; [done|apply (cs_trace _ _ _ _ _ _ _ Hs3)|].
    intros k sb Hb EDk. destruct (tx_atomic st _ D hs c (fi_len _ _ _ _ _ Hi) (fi_header _ _ _ _ _ Hi) Hh Hnd ltac:(lia) Hin Hout k) as (H1 & H2 & _ & H4).
    eapply wp_mono; [apply (recover_boot me pid d st); rw ?EDk; done|]. intros [] sr (Hir & EDr & _). split; [done|]. rw EDr EDk. exact H4.
Qed.

Lemma operation_run {A} (m : K kstate A) (Q : A -> (Z -> list Z) -> Prop) P s N :
  fs_idle s -> (30 < N)%nat ->
  (forall s1, op_start s s1 -> wpp m N s1 (fun a s2 => exists c, op_end s1 c s2 /\ Q a c) P) ->
  wpp (operation m) N s (fun a s' => fs_idle s' /\ exists c, Q a c /\ (forall b, ~ log_area st b -> dblock (disk s') b = c b) /\
    exists wr, disk s' = writes wr (disk s) /\ dtrace s' = rev wr ++ dtrace s /\
      forall k s2, fs_boot s2 -> disk s2 = writes (take k wr) (disk s) -> old_or_new (dblock (disk s)) c N s2) P.
Proof.
  intros Hi HN Hm. eapply wpp_bind; [apply (begin_start s N Hi); lia|]. intros [] s1 (H1 & ED & EW & Ho & Hc).
  eapply wpp_seq; [by apply Hm|]. intros a s2 (c & H2 & HQ). eapply wpp_bind; [by apply (end_commits s s1 c s2 N)|].
  intros [] s3 (H3 & Hd & Hcr). apply wpp_wp, wp_ret. split; [done|]. by exists c.
Qed.

(** C3: any operation of the file system is atomic.  Let the body [m] of an
    operation, started after [begin_op], return [a] having changed the blocks to
    [c] through the log, with [Q a c].  Then [begin_op; m; end_op] returns [a],
    the disk outside the log holds [c], and if the machine stops after any
    number of the writes the disk received, recovery gives the disk before the
    operation or the one after it. *)
Theorem operation_atomic {A} (m : K kstate A) (Q : A -> (Z -> list Z) -> Prop) s N :
  fs_idle s -> (30 < N)%nat ->
  (forall s1, op_start s s1 -> wp m N s1 (fun a s2 => exists c, op_end s1 c s2 /\ Q a c)) ->
  wp (operation m) N s (fun a s' => fs_idle s' /\ exists c, Q a c /\ (forall b, ~ log_area st b -> dblock (disk s') b = c b) /\
    exists wr, disk s' = writes wr (disk s) /\ dtrace s' = rev wr ++ dtrace s /\
      forall k s2, fs_boot s2 -> disk s2 = writes (take k wr) (disk s) -> old_or_new (dblock (disk s)) c N s2).
Proof. intros Hi HN Hm. apply wpp_never, operation_run; [done|done|]. intros s1 H1. by apply wpp_never, Hm. Qed.
End op.
