(* ===== verification/FsAlloc.v ===== *)
(** * Allocation of disk blocks

    [balloc] takes the first free block, marks it and zeroes it; [bfree] clears
    the mark.  The bitmap is read as the set of used blocks. *)

From S2P Require Import Prelude Mem KString Spinlock Machine Kalloc Printf Vm KState Proc ProcInv FsFmt FsFmtSpec Sleeplock Bio BioInv BioSpec Log LogInv LogSpec LogTx Durability Fs FsBits FsTx FsOp.

Definition used_block (g : superblock) (c : Z -> list Z) (b : Z) : bool := bit_set (c (BBLOCK b g)) (b mod BPB).
(** Every block is 1024 bytes. *)
Definition typed (c : Z -> list Z) : Prop := forall b, length (c b) = 1024%nat.
Definition zero_block : list Z := replicate (Z.to_nat BSIZE) 0.

Lemma typed_bupd blk x c : typed c -> length x = 1024%nat -> typed (bupd blk x c).
Proof. intros Hc Hx b. rw /bupd. by case_decide. Qed.
Lemma elem_logged_l hs blk h : h ∈ hs -> h ∈ logged hs blk.
Proof. rw /logged. case_decide; [done|]. intros ?. apply elem_of_app. by left. Qed.
Lemma length_logged hs blk : (length (logged hs blk) <= length hs + 1)%nat.
Proof. rw /logged. case_decide; rw ?length_app; cbn [length]; lia. Qed.

Section alloc.
Context {lay : Layout} {drv : DiskDriver} {dok : DriverOk}.
Context (me : nat) (pid : Z) (d st : Z).
Implicit Types (s : kstate) (c : Z -> list Z) (hs : list Z) (H : list (Z * nat)).
Abbreviation tx := (tx me pid d st).

Lemma tx_sb s0 c hs H s : tx s0 c hs H s -> sb s = sb s0.
Proof. intros (v & L & Hs & _). exact (f_equal sb (cs_rest _ _ _ _ _ _ _ Hs)). Qed.

(** The bitmap lies outside the log and covers the device. *)
Record geometry (g : superblock) : Prop := {
  ge_size : 0 <= sb_size g < 2 ^ 31 - 8192;
  ge_start : 0 <= sb_bmapstart g < 2 ^ 30;
  ge_home : forall b, 0 <= b < sb_size g -> home_ok st (BBLOCK b g);
}.
Lemma bblock_same g b i : 0 <= b -> b mod 8192 = 0 -> 0 <= i < 8192 -> BBLOCK (b + i) g = BBLOCK b g /\ (b + i) mod BPB = i.
Proof.
  intros Hb Hm Hi. change BPB with 8192. pose proof (Z.div_mod b 8192 ltac:(lia)) as E. rw Hm Z.add_0_r in E. split.
  - rw /BBLOCK. change BPB with 8192. f_equal. f_equal. rw E -(Z.mul_comm (b / 8192)) Z.div_add_l // (Z.div_small i) // Z.add_0_r. rw Z.div_mul //.
  - rw E Z.add_comm Z.mul_comm Z.mod_add // Z.mod_small //.
Qed.

Lemma bzero_wp s0 c hs H s bno N : tx s0 c hs H s -> bno ∉ H.*1 -> home_ok st bno -> (length hs < 29)%nat -> (length hs + length H < NBUF)%nat -> (30 < N)%nat ->
  wp (bzero d bno) N s (fun _ s' => tx s0 (bupd bno zero_block c) (logged hs bno) H s').
Proof.
  intros Ht Hn Hh H29 Hroom HN. apply wp_bind. eapply wp_mono; [apply (tx_bread me pid d st s0 c hs H s bno N); [done|done|apply Hh|done|rw /NBUF; lia]|].
  intros b s1 H1. apply wp_bind. eapply wp_mono; [apply (tx_setdata me pid d st s0 c hs _ s1 bno b _ N H1); by left|]. intros [] s2 H2.
  apply wp_bind. eapply wp_mono; [apply (tx_log_write me pid d st s0 _ hs _ s2 bno b N H2); [by left|done|done|done]|]. intros [] s3 H3.
  eapply tx_brelse; [exact H3|]. left. apply (proj1 (elem_logged hs bno)).
Qed.

Lemma scan_run s0 c hs H s blk bp b size N : tx s0 c hs H s -> (blk, bp) ∈ H -> 0 <= b -> 0 <= size < 2 ^ 31 - 8192 -> b < size -> (8192 < Z.of_nat N) ->
  wp (balloc_scan bp b size) N s (fun r s' => s' = s /\
    match r with
    | Some bi => 0 <= bi < 8192 /\ b + bi < size /\ bit_set (c blk) bi = false /\ forall j, 0 <= j < bi -> bit_set (c blk) j = true
    | None => forall j, 0 <= j < 8192 -> b + j < size -> bit_set (c blk) j = true
    end).
Proof.
  intros Ht Hin Hb Hsz Hbs HN.
  apply (wp_loop (fun bi s' => s' = s /\ 0 <= bi <= 8192 /\ forall j, 0 <= j < bi -> bit_set (c blk) j = true) (fun bi _ => Z.to_nat (8192 - bi))); [|lia|].
  { split_and!; [done|lia|lia|]. intros j Hj. lia. }
  intros bi s' (-> & Hbi & Hall). change BPB with 8192. destruct (Z.ltb_spec bi 8192) as [H1|H1]; cbn [andb negb].
  2:{ apply wp_ret. split; [done|]. intros j Hj _. apply Hall. lia. }
  rw u32_small; [|lia]. destruct (Z.ltb_spec (b + bi) size) as [H2|H2]; cbn [negb].
  2:{ apply wp_ret. split; [done|]. intros j Hj Hjs. apply Hall. lia. }
  apply wp_bind. rw /wp (tx_getdata me pid d st s0 c hs H s blk bp N Ht Hin). destruct (bit_set (c blk) bi) eqn:E; cbn [negb].
  - apply wp_ret. split; [|lia]. split_and!; [done|lia|lia|]. intros j Hj. destruct (decide (j = bi)) as [->|]; [done|]. apply Hall. lia.
  - apply wp_ret. split; [done|]. split_and!; [lia|lia|lia|done|done].
Qed.

(** The contents after [balloc] took block [f]. *)
Definition allocated (g : superblock) c (f : Z) : Z -> list Z :=
  bupd f zero_block (bupd (BBLOCK f g) (bit_on (f mod BPB) (c (BBLOCK f g))) c).
Definition freed (g : superblock) c (f : Z) : Z -> list Z := bupd (BBLOCK f g) (bit_off (f mod BPB) (c (BBLOCK f g))) c.
(** The bitmap in order: blocks of the right size, its own blocks marked, free
    blocks outside the log. *)
Record bitmap_ok (g : superblock) c : Prop := {
  bm_geo : geometry g;
  bm_typed : typed c;
  bm_self : forall b, 0 <= b < sb_size g -> 0 <= BBLOCK b g < sb_size g /\ used_block g c (BBLOCK b g) = true;
  bm_free : forall b, 0 <= b < sb_size g -> used_block g c b = false -> home_ok st b;
}.
(** The caller holds neither a block of the bitmap nor a free block. *)
Record apart (g : superblock) c H : Prop := {
  ap_map : forall b, 0 <= b < sb_size g -> BBLOCK b g ∉ H.*1;
  ap_free : forall b, 0 <= b < sb_size g -> used_block g c b = false -> b ∉ H.*1;
}.
Lemma apart_nil g c : apart g c [].
Proof. split; intros; apply not_elem_of_nil. Qed.

Lemma bblock_inj g b f : geometry g -> 0 <= b < sb_size g -> 0 <= f < sb_size g -> BBLOCK b g = BBLOCK f g -> (b mod BPB =? f mod BPB) = (b =? f).
Proof.
  intros [Hs Hst _] Hb Hf. rw /BBLOCK. change BPB with 8192. assert (forall x, 0 <= x < sb_size g -> 0 <= x / 8192 < 2 ^ 30) as Hx.
  { intros x Hx. split; [apply Z.div_pos; lia|apply Z.div_lt_upper_bound; lia]. }
  pose proof (Hx b Hb). pose proof (Hx f Hf). rw !u32_small; [|lia..]. intros E. pose proof (Z.div_mod b 8192 ltac:(lia)). pose proof (Z.div_mod f 8192 ltac:(lia)).
  destruct (Z.eqb_spec b f) as [->|]; [by rw Z.eqb_refl|]. apply Z.eqb_neq. lia.
Qed.
Lemma bpb_range f : 0 <= f mod BPB < 8192.
Proof. by apply Z.mod_pos_bound. Qed.
Lemma used_allocated g c f b : bitmap_ok g c -> 0 <= f < sb_size g -> used_block g c f = false -> 0 <= b < sb_size g ->
  used_block g (allocated g c f) b = (b =? f) || used_block g c b.
Proof.
  intros Hm Hf Hu Hb. assert (BBLOCK b g <> f) as Hne by (intros <-; destruct (bm_self _ _ Hm b Hb); congruence).
  rw /used_block /allocated bupd_ne //. destruct (decide (BBLOCK b g = BBLOCK f g)) as [E|E].
  - rw E bupd_eq bit_on_set; [|apply Hm|apply bpb_range|apply bpb_range]. by rw (bblock_inj g b f) //; apply Hm.
  - rw bupd_ne //. destruct (Z.eqb_spec b f) as [->|]; done.
Qed.
Lemma used_freed g c f b : bitmap_ok g c -> 0 <= f < sb_size g -> 0 <= b < sb_size g -> used_block g (freed g c f) b = negb (b =? f) && used_block g c b.
Proof.
  intros Hm Hf Hb. rw /used_block /freed. destruct (decide (BBLOCK b g = BBLOCK f g)) as [E|E].
  - rw E bupd_eq bit_off_set; [|apply Hm|apply bpb_range|apply bpb_range]. by rw (bblock_inj g b f) //; apply Hm.
  - rw bupd_ne //. destruct (Z.eqb_spec b f) as [->|]; done.
Qed.
Lemma bitmap_allocated g c f : bitmap_ok g c -> 0 <= f < sb_size g -> used_block g c f = false -> bitmap_ok g (allocated g c f).
Proof.
  intros Hm Hf Hu. pose proof Hm as [Hg Hty Hself Hfree]. split; [done| | |].
  - apply typed_bupd; [apply typed_bupd; [done|]|done]. apply length_bit_on; [done|apply bpb_range].
  - intros b Hb. destruct (Hself b Hb) as [Hr Hub]. split; [done|]. rw used_allocated // Hub orb_true_r //.
  - intros b Hb. rw used_allocated // orb_false_iff. intros [_ ?]. by apply Hfree.
Qed.

Lemma balloc_run s0 c hs H s N : let g := sb s0 in
  tx s0 c hs H s -> bitmap_ok g c -> apart g c H -> (length hs < 28)%nat -> (length hs + length H < 29)%nat -> 8192 < Z.of_nat N -> sb_size g / 8192 + 1 < Z.of_nat N ->
  wpp (balloc d) N s
    (fun f s' => 0 <= f < sb_size g /\ used_block g c f = false /\ (forall b, 0 <= b < f -> used_block g c b = true) /\
       tx s0 (allocated g c f) (logged (logged hs (BBLOCK f g)) f) H s')
    (fun msg => msg = "balloc: out of blocks" /\ forall b, 0 <= b < sb_size g -> used_block g c b = true).
Proof.
  intros g Ht [Hg Hty _ Hfree] [Hmap Hnheld] H28 Hroom HN1 HN2. pose proof (ge_size _ Hg) as Hsz.
  apply (wpp_loop (fun b s' => tx s0 c hs H s' /\ 0 <= b < sb_size g + 8192 /\ b mod 8192 = 0 /\
    forall j, 0 <= j < b -> j < sb_size g -> used_block g c j = true) (fun b => Z.to_nat (sb_size g / 8192 + 1 - b / 8192))).
  { split_and!; [done|lia|lia|done|]. intros j Hj. lia. }
  { rw Z.div_0_l //. pose proof (Z.div_pos (sb_size g) 8192). lia. }
  intros b s1 (H1 & Hb & Hm & Hall). pose proof (tx_sb _ _ _ _ _ H1) as Esb. eapply wpp_run; [reflexivity|]. rw Esb -/g.
  rw u32_small; [|lia]. destruct (Z.ltb_spec b (sb_size g)) as [Hlt|Hge]; cbn [negb].
  2:{ rw /wpp /=. split; [done|]. intros j Hj. apply Hall; lia. }
  set (blk := BBLOCK b g). assert (blk ∉ H.*1) as Hnb by (apply Hmap; lia).
  assert (blk ∈ hs \/ c blk = dblock (disk s0) blk) as Hcl.
  { destruct (decide (blk ∈ hs)); [by left|right]. by eapply tx_clean. }
  eapply wpp_bind; [apply (tx_bread me pid d st s0 c hs H s1 blk N H1 Hnb); [apply (ge_home _ Hg); lia|rw /NBUF; lia..]|]. intros bp s2 H2.
  eapply wpp_bind; [apply (scan_run s0 c hs _ s2 blk bp b (sb_size g) N H2); [by left|lia..]|]. intros [bi|] s2' [-> Hscan].
  - destruct Hscan as (Hbi & Hlt' & Hclr & Hset). destruct (bblock_same g b bi) as [Eb Em]; [lia..|]. set (f := b + bi) in *.
    assert (used_block g c f = false) as Hf by by rw /used_block Eb Em. assert (home_ok st f) as Hhf by (apply Hfree; [lia|done]). assert (f ∉ H.*1) as Hnf by (apply Hnheld; [lia|done]).
    assert (home_ok st blk) as Hhb by (apply (ge_home _ Hg); lia). rw (u32_small f); [|lia]. apply wpp_wp.
    apply wp_bind. eapply wp_mono; [apply (tx_setdata me pid d st s0 c hs _ s2 blk bp _ N H2); by left|]. intros [] s3 H3.
    apply wp_bind. eapply wp_mono; [apply (tx_log_write me pid d st s0 _ hs _ s3 blk bp N H3); [by left|done|lia|lia]|]. intros [] s4 H4.
    apply wp_bind. eapply wp_mono; [eapply (tx_brelse me pid d st); [exact H4|left; apply (proj1 (elem_logged hs blk))]|]. intros [] s5 H5.
    pose proof (length_logged hs blk). apply wp_bind. eapply wp_mono; [apply (bzero_wp s0 _ _ H s5 f N H5); [done|done|lia|rw /NBUF; lia|lia]|]. intros [] s6 H6.
    apply wp_ret. split_and!; [lia|lia|done| |by rw /allocated Eb Em]. intros j Hj. destruct (decide (j < b)); [apply Hall; lia|].
    destruct (bblock_same g b (j - b)) as [Ej Emj]; [lia..|]. replace (b + (j - b)) with j in Ej, Emj by lia. rw /used_block Ej Emj. apply Hset. lia.
  - apply wpp_wp, wp_bind. eapply wp_mono; [eapply (tx_brelse me pid d st); [exact H2|done]|]. intros [] s3 H3. apply wp_ret.
    change BPB with 8192. assert ((b + 8192) / 8192 = b / 8192 + 1) as Ed by (replace (b + 8192) with (b + 1 * 8192) by lia; by rw Z.div_add).
    split; [split_and!; [done|lia|lia| |]|].
    + replace (b + 8192) with (b + 1 * 8192) by lia. by rw Z.mod_add.
    + intros j Hj Hjs. destruct (decide (j < b)); [apply Hall; lia|].
      destruct (bblock_same g b (j - b)) as [Ej Emj]; [lia..|]. replace (b + (j - b)) with j in Ej, Emj by lia. rw /used_block Ej Emj. apply Hscan; lia.
    + rw Ed. pose proof (Z.div_le_mono b (sb_size g) 8192 ltac:(lia) ltac:(lia)). lia.
Qed.

Lemma bfree_run s0 c hs H s f N : let g := sb s0 in
  tx s0 c hs H s -> geometry g -> 0 <= f < sb_size g -> BBLOCK f g ∉ H.*1 -> (length hs < 29)%nat -> (length hs + length H < 30)%nat -> (30 < N)%nat ->
  wpp (bfree d f) N s
    (fun _ s' => used_block g c f = true /\ tx s0 (freed g c f) (logged hs (BBLOCK f g)) H s')
    (fun msg => msg = "freeing free block" /\ used_block g c f = false).
Proof.
  intros g Ht Hg Hf Hn H29 Hroom HN. pose proof (tx_sb _ _ _ _ _ Ht) as Esb. eapply wpp_run; [reflexivity|]. rw Esb -/g. set (blk := BBLOCK f g) in *.
  eapply wpp_bind; [apply (tx_bread me pid d st s0 c hs H s blk N Ht Hn); [by apply (ge_home _ Hg)|rw /NBUF; lia..]|]. intros bp s1 H1.
  eapply wpp_run; [apply (tx_getdata me pid d st s0 c hs _ s1 blk bp N H1); by left|]. change (bit_set (c blk) (f mod BPB)) with (used_block g c f).
  destruct (used_block g c f) eqn:E; cbn [negb]; [|done]. apply wpp_wp.
  apply wp_bind. eapply wp_mono; [apply (tx_setdata me pid d st s0 c hs _ s1 blk bp _ N H1); by left|]. intros [] s2 H2.
  apply wp_bind. eapply wp_mono; [apply (tx_log_write me pid d st s0 _ hs _ s2 blk bp N H2); [by left|by apply (ge_home _ Hg)|done|done]|]. intros [] s3 H3.
  eapply wp_mono; [eapply (tx_brelse me pid d st); [exact H3|left; apply (proj1 (elem_logged hs blk))]|]. by intros [] s4 H4.
Qed.

Lemma apart_allocated g c H f : bitmap_ok g c -> apart g c H -> 0 <= f < sb_size g -> used_block g c f = false -> apart g (allocated g c f) H.
Proof.
  intros Hm [H1 H2] Hf Hu. split; [done|]. intros b Hb. rw used_allocated // orb_false_iff. intros [_ ?]. by apply H2.
Qed.
Lemma logged_max hs blk n : (length hs < n)%nat -> (length (logged hs blk) <= n)%nat.
Proof. pose proof (length_logged hs blk). lia. Qed.

(** [balloc] inside an operation returns the lowest block not marked in the
    bitmap, marks it and no other, fills it with zeros and leaves every block
    outside the bitmap as it was; the bitmap stays in order.  When every block
    is marked it panics, and only then. *)
Theorem balloc_exact s0 c hs H s N : let g := sb s0 in
  tx s0 c hs H s -> bitmap_ok g c -> apart g c H -> (length hs < 28)%nat -> (length hs + length H < 29)%nat ->
  8192 < Z.of_nat N -> sb_size g / 8192 + 1 < Z.of_nat N ->
  wpp (balloc d) N s
    (fun f s' => 0 <= f < sb_size g /\ used_block g c f = false /\ (forall b, 0 <= b < f -> used_block g c b = true) /\
       exists c' hs', tx s0 c' hs' H s' /\ bitmap_ok g c' /\ (length hs' <= length hs + 2)%nat /\
         (forall b, 0 <= b < sb_size g -> used_block g c' b = (b =? f) || used_block g c b) /\ c' f = zero_block /\
         forall b, b <> f -> (forall x, 0 <= x < sb_size g -> BBLOCK x g <> b) -> c' b = c b)
    (fun msg => msg = "balloc: out of blocks" /\ forall b, 0 <= b < sb_size g -> used_block g c b = true).
Proof.
  intros g Ht Hm Hap H28 Hroom HN1 HN2. pose proof (balloc_run s0 c hs H s N Ht Hm Hap H28 Hroom HN1 HN2) as Hr. cbv zeta in Hr. rw -/g in Hr.
  rw /wpp in Hr |- *. destruct (balloc d N s) as [f s'|msg s'| | |]; try done. destruct Hr as (Hf & Hu & Hlow & Htx). split_and!; [lia|lia|done|done|].
  exists (allocated g c f), (logged (logged hs (BBLOCK f g)) f). split_and!; [done|by apply bitmap_allocated| |by intros; apply used_allocated| |].
  - pose proof (length_logged hs (BBLOCK f g)). pose proof (length_logged (logged hs (BBLOCK f g)) f). lia.
  - apply bupd_eq.
  - intros b Hne Hnb. rw /allocated !bupd_ne //. intros ->. by apply (Hnb f).
Qed.
End alloc.

Section roundtrip.
Context {lay : Layout} {drv : DiskDriver} {dok : DriverOk}.
Context (me : nat) (pid : Z) (d st : Z).

Lemma alloc_free_run s s1 N : op_start me pid d st s s1 -> bitmap_ok st (sb s) (dblock (disk s)) ->
  (exists b, 0 <= b < sb_size (sb s) /\ used_block (sb s) (dblock (disk s)) b = false) -> 8192 < Z.of_nat N -> sb_size (sb s) / 8192 + 1 < Z.of_nat N ->
  wp (f ← balloc d; bfree d f) N s1 (fun _ s2 => exists c, op_end me pid d st s1 c s2 /\
    forall b, 0 <= b < sb_size (sb s) -> used_block (sb s) c b = used_block (sb s) (dblock (disk s)) b).
Proof.
  intros [Hrest Ht] Hm (b0 & Hb0 & Hu0) HN1 HN2. assert (sb s1 = sb s) as Esb by exact (f_equal sb Hrest). set (g := sb s) in *.
  pose proof (balloc_run me pid d st s1 (dblock (disk s)) [] [] s1 N Ht) as Hr. cbv zeta in Hr. rw Esb in Hr.
  specialize (Hr Hm (apart_nil g _) ltac:(cbn; lia) ltac:(cbn; lia) HN1 HN2). apply wp_bind. rw /wpp in Hr. rw {1}/wp.
  destruct (balloc d N s1) as [f s2|msg s2| | |]; try done.
  2:{ destruct Hr as [_ Hall]. rw (Hall b0 Hb0) in Hu0. done. }
  destruct Hr as (Hf & Hu & _ & Htx). set (c := dblock (disk s)) in *. set (hs := logged _ f) in Htx.
  assert (length hs <= 2)%nat as Hl.
  { pose proof (length_logged [] (BBLOCK f g)). pose proof (length_logged (logged [] (BBLOCK f g)) f). rw /hs. cbn [length] in *. lia. }
  assert (bitmap_ok st g (allocated g c f)) as Hm2 by by apply bitmap_allocated.
  pose proof (bfree_run me pid d st s1 (allocated g c f) hs [] s2 f N Htx) as Hr2. cbv zeta in Hr2. rw Esb in Hr2.
  specialize (Hr2 (bm_geo _ _ _ Hm) Hf (not_elem_of_nil _) ltac:(lia) ltac:(cbn; lia) ltac:(lia)). rw /wpp in Hr2. rw /wp.
  destruct (bfree d f N s2) as [[] s3|msg s3| | |]; try done.
  2:{ destruct Hr2 as [_ Hf2]. rw (used_allocated st) // Z.eqb_refl in Hf2. done. }
  destruct Hr2 as [_ Htx3]. exists (freed g (allocated g c f) f). split.
  - exists s1, (logged hs (BBLOCK f g)). split_and!; [done..| |done]. pose proof (length_logged hs (BBLOCK f g)). lia.
  - intros b Hb. rw (used_freed st) // (used_allocated st) //. destruct (Z.eqb_spec b f) as [->|]; [by rw Hu|done].
Qed.

(** Allocating a block and freeing it again, as one operation, leaves the
    set of used blocks on disk as it was, also when the machine stops during the
    operation and recovers: no block leaks and none is lost. *)
Theorem balloc_bfree_roundtrip s N : fs_idle me pid d st s -> bitmap_ok st (sb s) (dblock (disk s)) ->
  (exists b, 0 <= b < sb_size (sb s) /\ used_block (sb s) (dblock (disk s)) b = false) -> 8192 < Z.of_nat N -> sb_size (sb s) / 8192 + 1 < Z.of_nat N ->
  let same s' := forall b, 0 <= b < sb_size (sb s) -> used_block (sb s) (dblock (disk s')) b = used_block (sb s) (dblock (disk s)) b in
  wp (operation (f ← balloc d; bfree d f)) N s (fun _ s' => same s' /\
    exists wr, disk s' = writes wr (disk s) /\ forall k s2, fs_boot me pid d st s2 -> disk s2 = writes (take k wr) (disk s) ->
      wp recover_from_log N s2 (fun _ s3 => same s3)).
Proof.
  intros Hi Hm Hfree HN1 HN2 same.
  assert (forall c s', (forall b, ~ log_area st b -> dblock (disk s') b = c b) ->
    (forall b, 0 <= b < sb_size (sb s) -> used_block (sb s) c b = used_block (sb s) (dblock (disk s)) b) -> same s') as Hsame.
  { intros c s' Hd Hc b Hb. rw -(Hc b Hb) /used_block Hd //. apply (ge_home _ _ (bm_geo _ _ _ Hm) b Hb). }
  eapply wp_mono.
  { apply wpp_never, (operation_run me pid d st _ (fun _ c => forall b, 0 <= b < sb_size (sb s) -> used_block (sb s) c b = used_block (sb s) (dblock (disk s)) b) _ s N Hi); [lia|].
    intros s1 H1. by apply wpp_never, alloc_free_run. }
  intros [] s' (_ & c & Hc & Hd & wr & ED & _ & Hcr). split; [by eapply Hsame|]. exists wr. split; [done|]. intros k s2 Hb E2.
  eapply wp_mono; [by apply (Hcr k)|]. intros [] s3 (_ & [Ho|Hn]); by eapply Hsame.
Qed.
End roundtrip.

(** ** An instance *)

(** 60 blocks, of which the first 48 are used; the bitmap is block 45. *)
Definition sb0 : superblock := Superblock FSMAGIC 60 14 200 30 2 32 45.
Definition map0 : list Z := replicate 6 255 ++ replicate 1018 0.
Definition fsa : kstate := set_sb sb0 (set_disk {[ 45 := map0 ]} fs0).
Definition blocks0 : Z -> list Z := dblock (disk fsa).

Lemma bblock0 b : 0 <= b < 60 -> BBLOCK b sb0 = 45.
Proof. intros Hb. rw /BBLOCK. change BPB with 8192. by rw Z.div_small; [|lia]. Qed.
Lemma used0 b : 0 <= b < 60 -> used_block sb0 blocks0 b = (b <? 48).
Proof.
  intros Hb. rw /used_block bblock0 //. change (blocks0 45) with map0. change BPB with 8192. rw Z.mod_small; [|lia].
  assert (forallb (fun b => Bool.eqb (bit_set map0 b) (b <? 48)) (rangeZ 60) = true) as H by by vm_compute.
  rw forallb_forall in H. apply Bool.eqb_prop, H. apply list_elem_of_In, elem_of_rangeZ. lia.
Qed.
Lemma bitmap0 : bitmap_ok 2 sb0 blocks0.
Proof.
  split.
  - split; [done|done|]. intros b Hb. rw bblock0 //. apply home0. lia.
  - intros b. rw /blocks0 /dblock /fsa /=. destruct (decide (b = 45)) as [->|Hne]; [by rw lookup_singleton_eq|by rw lookup_singleton_ne].
  - intros b Hb. by rw bblock0.
  - intros b Hb. rw used0 //. intros H. zbool. apply home0. change (sb_size sb0) with 60 in Hb. lia.
Qed.
Lemma fsa_idle : fs_idle (dok := ram_ok) 0 1 1 2 fsa.
Proof.
  split; [| |exact (boot_good (replicate 1024 0) 1 _ ltac:(done))|done|done|done|done].
  - split; try done; [by eapply calm_ext; [exact calm_ready0| | |left]|]. eexists. apply boot_lru.
  - apply (fi_log _ _ _ _ _ fs0_idle).
Qed.

#[local] Existing Instance small_layout.
#[local] Existing Instance ram_driver.
#[local] Existing Instance ram_ok.


(** The state inside an operation on [fsa]. *)
Definition fsb : kstate := set_log (set_log_outstanding 1 log0) fsa.
Lemma fsb_start : op_start 0 1 1 2 fsa fsb.
Proof.
  split; [reflexivity|]. exists (vw fsb), (log fsb). split_and!; [| | |done|done|done|apply NoDup_nil_2|].
  - split; try done; [by eapply calm_ext; [exact calm_ready0| | |left]|]. eexists. apply boot_lru.
  - destruct (fi_log _ _ _ _ _ fs0_idle) as [[] ? ?]. by split.
  - apply txv_good. exact (fi_good _ _ _ _ _ fsa_idle).
  - intros b. apply (good_content_disk _ _ _ _ _ (fi_good _ _ _ _ _ fsa_idle)). apply not_elem_of_nil.
Qed.
Lemma operation_atomic_witness :
  wp (operation (bzero 1 50)) 40%nat fsa (fun _ s' => dblock (disk s') 50 = zero_block).
Proof.
  eapply wp_mono.
  { apply (operation_atomic 0 1 1 2 (bzero 1 50) (fun _ c => c 50 = zero_block) fsa 40%nat fsa_idle); [lia|]. intros s1 [_ Ht].
    eapply wp_mono; [apply (bzero_wp 0 1 1 2 s1 _ [] [] s1 50 40%nat Ht (not_elem_of_nil _) (home0 50 ltac:(lia))); [cbn; lia|cbn; rw /NBUF; lia|lia]|].
    intros [] s2 H2. exists (bupd 50 zero_block (dblock (disk fsa))). split; [|apply bupd_eq]. exists s1, [50]. split_and!; [done..|cbn; lia|exact H2]. }
  intros [] s' (_ & c & Hc & Hd & _). rw Hd //. rw /log_area. lia.
Defined.
