(* ===== verification/FsInode.v ===== *)
(** * The blocks of a file

    The direct and indirect block numbers of an inode as a map from the blocks
    of the file to blocks of the disk, in order when no block is used twice
    ([file_ok]); [bmap] finds a block or adds it, leaving the contents of the
    file and every other block as they were. *)

From S2P Require Import Prelude Mem KString Spinlock Machine Kalloc Printf Vm KState Proc ProcInv FsFmt FsFmtSpec Sleeplock Bio BioInv BioSpec Log LogInv LogSpec LogTx Fs FsBits FsTx FsOp FsAlloc.

#[local] Transparent lift.

(** The state with other memory. *)
Definition with_mem (M : memory) (s : kstate) : kstate := set_mach (set_mem M (mach s)) s.
Definition kmem (s : kstate) : memory := mem (mach s).
Lemma with_mem_mem M M' s : with_mem M (with_mem M' s) = with_mem M s.
Proof. done. Qed.
Lemma with_mem_id s : with_mem (kmem s) s = s.
Proof. by destruct s as [[]]. Qed.

(** ** Where block [k] of a file is *)

Definition indirect (x : inode) : Z := i_addrs x !!! 12%nat.
Definition ientry (c : Z -> list Z) (a j : Z) : Z := ldb 4 (c a) (4 * j).
(** Its address, 0 when the file has no such block. *)
Definition faddr (c : Z -> list Z) (x : inode) (k : Z) : Z :=
  if k <? 12 then i_addrs x !!! Z.to_nat k else if indirect x =? 0 then 0 else ientry c (indirect x) (k - 12).
(** Its contents; a block that is not there reads as zeros. *)
Definition fblock (c : Z -> list Z) (x : inode) (k : Z) : list Z :=
  if faddr c x k =? 0 then zero_block else c (faddr c x k).
Abbreviation in_file k := (0 <= k < 268).

Section inode.
Context {lay : Layout} {drv : DiskDriver} {dok : DriverOk}.
Context (me : nat) (pid : Z) (d st : Z) (g : superblock).
Implicit Types (s : kstate) (c : Z -> list Z) (hs : list Z) (H : list (Z * nat)) (x : inode).
Abbreviation tx := (tx me pid d st).

(** A block of the data area that is in use. *)
Record data_block c (b : Z) : Prop := {
  db_range : 0 < b < sb_size g;
  db_used : used_block g c b = true;
  db_home : home_ok st b;
  db_map : forall y, 0 <= y < sb_size g -> BBLOCK y g <> b;
  db_inode : forall i, 0 <= i < sb_ninodes g -> IBLOCK i g <> b;
}.
(** The disk in order: the bitmap, and the boot block and the inodes marked. *)
Record disk_ok c : Prop := {
  do_map : bitmap_ok st g c;
  do_boot : 0 < sb_size g /\ used_block g c 0 = true;
  do_inode : forall i, 0 <= i < sb_ninodes g -> 0 <= IBLOCK i g < sb_size g /\ used_block g c (IBLOCK i g) = true;
  do_home : forall i, 0 <= i < sb_ninodes g -> home_ok st (IBLOCK i g);
  do_apart : forall i y, 0 <= i < sb_ninodes g -> 0 <= y < sb_size g -> BBLOCK y g <> IBLOCK i g;
}.
(** The file in order. *)
Record file_ok c x : Prop := {
  fo_addrs : length (i_addrs x) = 13%nat;
  fo_data : forall k, in_file k -> faddr c x k <> 0 -> data_block c (faddr c x k);
  fo_indirect : indirect x <> 0 -> data_block c (indirect x);
  fo_inj : forall j k, in_file j -> in_file k -> faddr c x j <> 0 -> faddr c x j = faddr c x k -> j = k;
  fo_apart : forall k, in_file k -> faddr c x k <> 0 -> faddr c x k <> indirect x;
}.
(** Blocks in use that are neither the file's nor the bitmap's. *)
Record other c x (b : Z) : Prop := {
  ot_range : 0 < b < sb_size g;
  ot_used : used_block g c b = true;
  ot_map : forall y, 0 <= y < sb_size g -> BBLOCK y g <> b;
  ot_file : forall k, in_file k -> faddr c x k <> b;
  ot_indirect : indirect x <> b;
}.
(** What a change of the file keeps. *)
Record evolves c x c' x' : Prop := {
  ev_disk : disk_ok c';
  ev_file : file_ok c' x';
  ev_inode : x' = set_i_addrs (i_addrs x') x;
  ev_addr : forall k, in_file k -> faddr c x k <> 0 -> faddr c' x' k = faddr c x k;
  ev_data : forall b, data_block c b -> data_block c' b;
  ev_other : forall b, other c x b -> other c' x' b /\ c' b = c b;
}.
Lemma evolves_refl c x : disk_ok c -> file_ok c x -> evolves c x c x.
Proof. intros Hd Hf. split; try done. by destruct x. Qed.
Lemma evolves_trans c1 x1 c2 x2 c3 x3 : evolves c1 x1 c2 x2 -> evolves c2 x2 c3 x3 -> evolves c1 x1 c3 x3.
Proof.
  intros [D1 F1 I1 A1 U1 O1] [D2 F2 I2 A2 U2 O2]. split; [done|done| | | |].
  - rw {1}I2 {1}I1. by destruct x1.
  - intros k Hk Hn. rw -(A1 k Hk Hn). apply A2; [done|]. by rw (A1 k Hk Hn).
  - intros b Hb. by apply U2, U1.
  - intros b Hb. destruct (O1 b Hb) as [Hb2 E1]. destruct (O2 b Hb2) as [Hb3 E2]. split; [done|]. by rw E2.
Qed.

(** ** Adding a block *)

Lemma free_fresh c b f : data_block c b -> used_block g c f = false -> b <> f.
Proof. intros Hb Hf ->. by rw (db_used _ _ Hb) in Hf. Qed.
Lemma allocated_frame c f b : used_block g c f = false -> 0 <= f < sb_size g -> used_block g c b = true -> (forall y, 0 <= y < sb_size g -> BBLOCK y g <> b) ->
  allocated g c f b = c b.
Proof. intros Hf Hr Hb Hm. rw /allocated !bupd_ne //; [intros ->; by apply (Hm f)|intros ->; congruence]. Qed.
Lemma used_grows c f b : bitmap_ok st g c -> 0 <= f < sb_size g -> used_block g c f = false -> 0 <= b < sb_size g -> used_block g c b = true ->
  used_block g (allocated g c f) b = true.
Proof. intros Hm Hf Hu Hb Hub. by rw (used_allocated st) // Hub orb_true_r. Qed.
Lemma data_allocated c f b : bitmap_ok st g c -> 0 <= f < sb_size g -> used_block g c f = false -> data_block c b -> data_block (allocated g c f) b.
Proof. intros Hm Hf Hu [Hr Hub Hh Hb Hi]. split; try done. apply used_grows; try done. lia. Qed.
Lemma data_fresh c f : disk_ok c -> 0 <= f < sb_size g -> used_block g c f = false -> data_block (allocated g c f) f.
Proof.
  intros [Hm [Hs Hz] Hi _ _] Hf Hu. split.
  - assert (f <> 0) by (intros ->; congruence). lia.
  - by rw (used_allocated st) // Z.eqb_refl.
  - by apply (bm_free _ _ _ Hm).
  - intros y Hy <-. destruct (bm_self _ _ _ Hm y Hy). congruence.
  - intros i Hi' <-. destruct (Hi i Hi'). congruence.
Qed.
Lemma disk_allocated c f : disk_ok c -> 0 <= f < sb_size g -> used_block g c f = false -> disk_ok (allocated g c f).
Proof.
  intros [Hm [Hs Hz] Hi Hh Ha] Hf Hu. split; [by apply bitmap_allocated| | |done|done].
  - split; [done|]. by apply used_grows.
  - intros i Hi'. destruct (Hi i Hi'). split; [done|]. by apply used_grows.
Qed.
(** Changing a block outside the bitmap changes no mark. *)
Lemma used_bupd c a v b : (forall y, 0 <= y < sb_size g -> BBLOCK y g <> a) -> 0 <= b < sb_size g -> used_block g (bupd a v c) b = used_block g c b.
Proof. intros Ha Hb. rw /used_block bupd_ne //. by apply Ha. Qed.
Lemma data_bupd c a v b : (forall y, 0 <= y < sb_size g -> BBLOCK y g <> a) -> data_block c b -> data_block (bupd a v c) b.
Proof. intros Ha [Hr Hu Hh Hb Hi]. split; try done. rw used_bupd //. lia. Qed.
Lemma disk_bupd c a v : disk_ok c -> (forall y, 0 <= y < sb_size g -> BBLOCK y g <> a) -> length v = 1024%nat -> disk_ok (bupd a v c).
Proof.
  intros [[Hg Hty Hself Hfree] [Hs Hz] Hi Hh Hap] Ha Hv. split; [split| | |done|done].
  - done.
  - by apply typed_bupd.
  - intros b Hb. destruct (Hself b Hb) as [Hr Hu]. by rw used_bupd.
  - intros b Hb. rw used_bupd //. by apply Hfree.
  - by rw used_bupd.
  - intros i Hi'. destruct (Hi i Hi'). by rw used_bupd.
Qed.

(** One more block in the map: block [k] at the fresh address [f]. *)
Lemma add_block c x c' x' k f : file_ok c x -> disk_ok c' -> in_file k -> faddr c x k = 0 -> used_block g c f = false -> 
  x' = set_i_addrs (i_addrs x') x -> length (i_addrs x') = 13%nat -> indirect x' = indirect x -> data_block c' f ->
  (forall j, in_file j -> faddr c' x' j = if j =? k then f else faddr c x j) ->
  (forall b, data_block c b -> data_block c' b) ->
  (forall b, other c x b -> used_block g c' b = true /\ c' b = c b) -> evolves c x c' x'.
Proof.
  intros [Hl Hda Hin Hinj Hap] Hd' Hk Hz Hf Hx Hl' Eind Hdf Hfa Hdat Hoth. split; [done| |done| |done|].
  - split.
    + done.
    + intros j Hj. rw Hfa //. destruct (j =? k); [done|]. intros Hn. by apply Hdat, Hda.
    + rw Eind. intros Hn. by apply Hdat, Hin.
    + intros i j Hi Hj. rw !Hfa //. destruct (Z.eqb_spec i k) as [->|], (Z.eqb_spec j k) as [->|]; intros Hn E; [done| | |by apply Hinj].
      * exfalso. rw E in Hn, Hf. by pose proof (free_fresh c _ _ (Hda j Hj Hn) Hf).
      * exfalso. rw -E in Hf. by pose proof (free_fresh c _ _ (Hda i Hi Hn) Hf).
    + intros j Hj. rw Hfa // Eind. destruct (j =? k); [|by apply Hap]. intros Hn E. destruct (decide (indirect x = 0)) as [E0|E0]; [congruence|].
      pose proof (db_used _ _ (Hin E0)). congruence.
  - intros j Hj Hn. rw Hfa //. destruct (Z.eqb_spec j k) as [->|]; done.
  - intros b Hb. destruct (Hoth b Hb) as [Hu E]. destruct Hb as [Hr Hub Hm Hfile Hind]. split; [|done]. split; try done; [|by rw Eind].
    intros j Hj. rw Hfa //. destruct (j =? k); [|by apply Hfile]. intros ->. congruence.
Qed.

Lemma fblock_same c x c' x' k f : in_file k -> faddr c x k = 0 -> f <> 0 -> c' f = zero_block ->
  (forall j, in_file j -> faddr c' x' j = if j =? k then f else faddr c x j) ->
  (forall j, in_file j -> faddr c x j <> 0 -> c' (faddr c x j) = c (faddr c x j)) ->
  forall j, in_file j -> fblock c' x' j = fblock c x j.
Proof.
  intros Hk Hz Hf0 Hzf Hfa Hsame j Hj. rw /fblock Hfa //. destruct (Z.eqb_spec j k) as [->|Hne].
  - by rw Hz (proj2 (Z.eqb_neq _ _) Hf0).
  - destruct (Z.eqb_spec (faddr c x j) 0) as [E|E]; [done|]. by apply Hsame.
Qed.
(** What adding block [k] at [f] gives. *)
Record added c x c' x' (k f : Z) : Prop := {
  ad_evolves : evolves c x c' x';
  ad_addr : faddr c' x' k = f;
  ad_nonzero : f <> 0;
  ad_same : forall j, in_file j -> fblock c' x' j = fblock c x j;
}.
Lemma add_direct c x k f : disk_ok c -> file_ok c x -> 0 <= k < 12 -> faddr c x k = 0 -> 0 <= f < sb_size g -> used_block g c f = false ->
  added c x (allocated g c f) (set_i_addrs (arr_set (i_addrs x) k f) x) k f.
Proof.
  intros Hd Hf Hk Hz Hr Hu. pose proof (data_fresh c f Hd Hr Hu) as Hdf. pose proof (do_map _ Hd) as Hm. set (x' := set_i_addrs _ x).
  assert (indirect x' = indirect x) as Ei by (rw /indirect /= /arr_set list_lookup_total_insert_ne //; lia).
  assert (forall b, data_block c b -> allocated g c f b = c b) as Hsame.
  { intros b Hb. apply allocated_frame; [done..|apply Hb|apply Hb]. }
  assert (forall j, in_file j -> faddr (allocated g c f) x' j = if j =? k then f else faddr c x j) as Hfa.
  { intros j Hj. rw /faddr Ei. destruct (Z.ltb_spec j 12) as [H12|H12].
    - rw /= /arr_set. destruct (Z.eqb_spec j k) as [->|Hne].
      + apply list_lookup_total_insert_eq. rw (fo_addrs _ _ Hf). lia.
      + apply list_lookup_total_insert_ne. lia.
    - destruct (Z.eqb_spec j k) as [->|_]; [lia|]. destruct (Z.eqb_spec (indirect x) 0) as [|Hn]; [done|].
      rw /ientry Hsame //. by apply Hf. }
  split.
  - apply (add_block c x _ x' k f); try done; [by apply disk_allocated|lia| | |].
    + rw /= /arr_set length_insert. apply Hf.
    + intros b. by apply data_allocated.
    + intros b [Hb Hub Hmb _ _]. split; [apply used_grows; [done..|lia|done]|by apply allocated_frame].
  - rw Hfa; [by rw Z.eqb_refl|lia].
  - pose proof (db_range _ _ Hdf). lia.
  - apply (fblock_same c x _ x' k f); [lia|done|pose proof (db_range _ _ Hdf); lia|by rw /allocated bupd_eq|done|]. intros j Hj Hn. by apply Hsame, Hf.
Qed.
Lemma zero_entry c f j : 0 <= j < 256 -> ientry (allocated g c f) f j = 0.
Proof.
  intros Hj. rw /ientry /allocated bupd_eq /ldb /zero_block. change (Z.to_nat BSIZE) with 1024%nat. rw drop_replicate take_replicate.
  by replace (Nat.min 4 (1024 - Z.to_nat (4 * j))) with 4%nat by lia.
Qed.
Lemma add_indirect c x f : disk_ok c -> file_ok c x -> indirect x = 0 -> 0 <= f < sb_size g -> used_block g c f = false ->
  let x' := set_i_addrs (arr_set (i_addrs x) 12 f) x in
  evolves c x (allocated g c f) x' /\ indirect x' = f /\ f <> 0 /\
  (forall j, in_file j -> faddr (allocated g c f) x' j = faddr c x j) /\ forall j, in_file j -> fblock (allocated g c f) x' j = fblock c x j.
Proof.
  intros Hd Hf Hi Hr Hu x'. pose proof (data_fresh c f Hd Hr Hu) as Hdf. pose proof (do_map _ Hd) as Hm. pose proof (db_range _ _ Hdf) as Hf0.
  assert (indirect x' = f) as Ei by (rw /indirect /= /arr_set list_lookup_total_insert_eq //; rw (fo_addrs _ _ Hf); lia).
  assert (forall j, in_file j -> faddr (allocated g c f) x' j = faddr c x j) as Hfa.
  { intros j Hj. rw /faddr Ei Hi (proj2 (Z.eqb_neq f 0)); [|lia]. destruct (Z.ltb_spec j 12) as [H12|H12].
    - rw /= /arr_set. apply list_lookup_total_insert_ne. lia.
    - apply zero_entry. lia. }
  split_and!; [|done|lia|done|].
  - split; [by apply disk_allocated| |done| | |].
    + split.
      * rw /= /arr_set length_insert. apply Hf.
      * intros j Hj. rw Hfa //. intros Hn. by apply data_allocated, Hf.
      * by rw Ei.
      * intros i j Hi' Hj. rw !Hfa //. by apply Hf.
      * intros j Hj. rw Hfa // Ei. intros Hn. by apply (free_fresh c); [apply Hf|].
    + intros j Hj _. by apply Hfa.
    + intros b. by apply data_allocated.
    + intros b [Hb Hub Hmb Hfb _]. split; [|by apply allocated_frame]. split; [done|apply used_grows; [done..|lia|done]|done| |].
      * intros j Hj. rw Hfa //. by apply Hfb.
      * rw Ei. intros ->. congruence.
  - intros j Hj. rw /fblock Hfa //. destruct (Z.eqb_spec (faddr c x j) 0) as [|Hn]; [done|].
    apply allocated_frame; [done..| |]; apply (fo_data _ _ Hf j Hj Hn).
Qed.
Lemma add_entry c x k f : disk_ok c -> file_ok c x -> indirect x <> 0 -> 12 <= k < 268 -> faddr c x k = 0 -> 0 <= f < sb_size g -> used_block g c f = false ->
  added c x (bupd (indirect x) (stb 4 (c (indirect x)) (4 * (k - 12)) f) (allocated g c f)) x k f.
Proof.
  intros Hd Hf Hi Hk Hz Hr Hu. pose proof (data_fresh c f Hd Hr Hu) as Hdf. pose proof (do_map _ Hd) as Hm. pose proof (db_range _ _ Hdf) as Hf0.
  pose proof (fo_indirect _ _ Hf Hi) as Hdi. set (a := indirect x) in *. pose proof (ge_size _ _ (bm_geo _ _ _ Hm)) as Hsz.
  assert (length (c a) = 1024%nat) as Hlen by apply (bm_typed _ _ _ Hm). assert (fits (c a) (4 * (k - 12)) 4) as Hfit by (split; lia).
  set (c' := bupd a _ _). assert (f <> a) as Hfa by (intros ->; by pose proof (free_fresh c a a Hdi Hu)).
  assert (forall b, b <> a -> data_block c b -> c' b = c b) as Hsame.
  { intros b Hne Hb. rw /c' bupd_ne //. apply allocated_frame; [done..|apply Hb|apply Hb]. }
  assert (forall j, in_file j -> faddr c' x j = if j =? k then f else faddr c x j) as Hadr.
  { intros j Hj. rw /faddr -/a (proj2 (Z.eqb_neq a 0) Hi). destruct (Z.ltb_spec j 12) as [H12|H12].
    - destruct (Z.eqb_spec j k); [lia|done].
    - rw /ientry /c' bupd_eq. destruct (Z.eqb_spec j k) as [->|Hne].
      + rw ldb_stb //. change (256 ^ Z.of_nat 4) with (2 ^ 32). rw Z.mod_small //. lia.
      + rw ldb_stb_ne //; lia. }
  split.
  - apply (add_block c x _ x k f); try done; [|lia|by destruct x|apply Hf| | |].
    + apply disk_bupd; [by apply disk_allocated|apply Hdi|by rw length_stb].
    + apply data_bupd; [apply Hdi|done].
    + intros b Hb. apply data_bupd; [apply Hdi|by apply data_allocated].
    + intros b [Hb Hub Hmb _ Hbi]. rw used_bupd; [|apply Hdi|lia]. split; [apply used_grows; [done..|lia|done]|]. rw /c' bupd_ne //. by apply allocated_frame.
  - rw Hadr; [by rw Z.eqb_refl|lia].
  - lia.
  - apply (fblock_same c x _ x k f); [lia|done|lia| |done|].
    + rw /c' bupd_ne // /allocated bupd_eq //.
    + intros j Hj Hn. apply Hsame; by apply Hf.
Qed.

(** ** The inode inside a transaction *)

Lemma tx_mach s0 c hs H s : tx s0 c hs H s -> mach s = mach s0.
Proof. intros (v & L & Hs & _). exact (f_equal mach (cs_rest _ _ _ _ _ _ _ Hs)). Qed.
Lemma tx_icache s0 c hs H s : tx s0 c hs H s -> icache s = icache s0.
Proof. intros (v & L & Hs & _). exact (f_equal icache (cs_rest _ _ _ _ _ _ _ Hs)). Qed.
Lemma tx_cur s0 c hs H s : tx s0 c hs H s -> cur s = Some me /\ lk_ok (klk s).
Proof. intros (v & L & Hs & _). destruct (cs_calm _ _ _ _ _ _ _ Hs). done. Qed.
Lemma tx_mem s0 c hs H s M : tx s0 c hs H s -> tx (with_mem M s0) c hs H (with_mem M s).
Proof.
  intros (v & L & Hs & Hrest). exists v, L. split; [|exact Hrest]. destruct Hs as [Hc Hr Hd Hl Hv HD HW]. split; try done.
  - by eapply calm_ext; [exact Hc| | |left].
  - exact (f_equal (with_mem M) Hr).
Qed.
Lemma tx_inodes s0 c hs H s I : tx s0 c hs H s -> tx (set_icache I s0) c hs H (set_icache I s).
Proof.
  intros (v & L & Hs & Hrest). exists v, L. split; [|exact Hrest]. destruct Hs as [Hc Hr Hd Hl Hv HD HW]. split; try done.
  - by eapply calm_ext; [exact Hc| | |left].
  - exact (f_equal (set_icache I) Hr).
Qed.
(** Inode [ip] is [x]. *)
Definition with_inode (ip : nat) x s : kstate := set_icache (<[ip := x]> (icache s)) s.
Lemma with_inode_twice ip x y s : with_inode ip x (with_inode ip y s) = with_inode ip x s.
Proof. rw /with_inode. destruct s; cbn. by rw list_insert_insert_eq. Qed.
Lemma with_inode_id ip x s : icache s !! ip = Some x -> with_inode ip x s = s.
Proof. intros Hx. rw /with_inode list_insert_id //. by destruct s. Qed.
Lemma with_inode_at ip x y s : icache s !! ip = Some y -> icache (with_inode ip x s) !! ip = Some x.
Proof. intros Hy. rw /with_inode /= list_lookup_insert_eq //. by eapply lookup_lt_Some. Qed.

Lemma tx_geti {A} s0 c hs H s ip x (f : inode -> A) n : tx s0 c hs H s -> icache s0 !! ip = Some x -> geti ip f n s = Ok (f x) s.
Proof. intros Ht Hx. apply geti_run. by rw (tx_icache _ _ _ _ _ Ht). Qed.
Lemma tx_seti s0 c hs H s ip x f n : tx s0 c hs H s -> icache s0 !! ip = Some x ->
  wp (seti ip f) n s (fun _ s' => tx (with_inode ip (f x) s0) c hs H s').
Proof.
  intros Ht Hx. rw /wp (seti_run ip x); [|by rw (tx_icache _ _ _ _ _ Ht)]. rw (tx_icache _ _ _ _ _ Ht). by apply tx_inodes.
Qed.
Lemma addr_at_run s0 c hs H s ip x (k : Z) n : tx s0 c hs H s -> icache s0 !! ip = Some x -> length (i_addrs x) = 13%nat -> 0 <= k < 13 ->
  addr_at ip k n s = Ok (i_addrs x !!! Z.to_nat k) s.
Proof.
  intros Ht Hx Hl Hk. rw /addr_at /mbind /K_bind (tx_geti s0 c hs H s ip x) //=. destruct (lookup_lt_is_Some_2 (i_addrs x) (Z.to_nat k)) as [a Ha]; [lia|].
  rw /arr_get (proj2 (Z.ltb_ge _ _)); [|lia]. by rw Ha (list_lookup_total_correct _ _ _ Ha).
Qed.
Lemma tx_cleans s0 c hs s blk : tx s0 c hs [] s -> blk ∈ hs \/ c blk = dblock (disk s0) blk.
Proof. intros Ht. destruct (decide (blk ∈ hs)) as [|Hn]; [by left|right]. exact (tx_clean me pid d st s0 c hs [] s blk Ht Hn (not_elem_of_nil _)). Qed.
(** A block read, used and given back. *)
Lemma tx_opens {B} s0 c hs s blk N (k : nat -> K kstate B) Q : tx s0 c hs [] s -> block_ok blk -> (length hs < 29)%nat -> (30 < N)%nat ->
  (forall b s', tx s0 c hs [(blk, b)] s' -> wp (k b) N s' Q) -> wp (b ← bread d blk; k b) N s Q.
Proof.
  intros Ht Hb Hl HN Hk. apply wp_bind. eapply wp_mono; [apply (tx_bread me pid d st s0 c hs [] s blk N Ht (not_elem_of_nil _) Hb); cbn; rw /NBUF; lia|exact Hk].
Qed.

(** ** [bmap] *)

(** How many blocks the indirect block may still add to the log. *)
Definition pot x hs : nat := if indirect x =? 0 then 2%nat else if decide (indirect x ∈ hs) then 0%nat else 1%nat.
Lemma pot_mono x x' hs hs' : indirect x' = indirect x -> hs ⊆ hs' -> (pot x' hs' <= pot x hs)%nat.
Proof. intros E Hs. rw /pot E. destruct (indirect x =? 0); [done|]. destruct (decide (_ ∈ hs)) as [Hi|]; [rw decide_True; [lia|by apply Hs]|case_decide; lia]. Qed.
Lemma pot_logged x hs : indirect x <> 0 -> indirect x ∈ hs -> pot x hs = 0%nat.
Proof. intros Hn Hi. rw /pot (proj2 (Z.eqb_neq _ _) Hn) decide_True //. Qed.
(** The two blocks [balloc] logs. *)
Definition ballocd hs (f : Z) : list Z := logged (logged hs (BBLOCK f g)) f.
Lemma ballocd_ok hs f : hs ⊆ ballocd hs f /\ f ∈ ballocd hs f /\ (length (ballocd hs f) <= length hs + 2)%nat.
Proof.
  rw /ballocd. split_and!.
  - intros h Hh. by apply elem_logged_l, elem_logged_l.
  - apply (proj1 (elem_logged _ _)).
  - pose proof (length_logged hs (BBLOCK f g)). pose proof (length_logged (logged hs (BBLOCK f g)) f). lia.
Qed.

Definition enough (N : nat) : Prop := 8192 < Z.of_nat N /\ sb_size g / 8192 + 1 < Z.of_nat N.
Abbreviation no_space := (fun msg : string => msg = "balloc: out of blocks").
Lemma balloc_fresh s0 c hs H s N : sb s0 = g -> tx s0 c hs H s -> disk_ok c -> (forall h, h ∈ H.*1 -> data_block c h) ->
  (length hs < 28)%nat -> (length hs + length H < 29)%nat -> enough N ->
  wpp (balloc d) N s (fun f s' => 0 <= f < sb_size g /\ used_block g c f = false /\ tx s0 (allocated g c f) (ballocd hs f) H s') no_space.
Proof.
  intros Eg Ht Hd HH H28 H29 [HN1 HN2]. pose proof (balloc_run me pid d st s0 c hs H s N Ht) as Hb. cbv zeta in Hb. rw Eg in Hb.
  eapply wpp_mono; [apply Hb; [apply Hd| |done..]| |].
  - split.
    + intros b Hb' Hin. by apply (db_map _ _ (HH _ Hin) b).
    + intros b _ Hu Hin. rw (db_used _ _ (HH _ Hin)) in Hu. done.
  - intros f s' (Hf & Hu & _ & Htx). done.
  - by intros msg [-> _].
Qed.

(** The result of [bmap] on block [k]. *)
Definition mapped s0 c x hs ip k (r : Z) s' : Prop := exists c' x' hs', tx (with_inode ip x' s0) c' hs' [] s' /\ added c x c' x' k r /\
  hs ⊆ hs' /\ (faddr c x k = 0 -> r ∈ hs') /\ (length hs' + pot x' hs' <= length hs + pot x hs + if (faddr c x k =? 0)%Z then 2 else 0)%nat.

Lemma mapped_present s0 c x hs ip k s : tx s0 c hs [] s -> icache s0 !! ip = Some x -> disk_ok c -> file_ok c x -> faddr c x k <> 0 -> mapped s0 c x hs ip k (faddr c x k) s.
Proof.
  intros Ht Hx Hd Hf Hn. exists c, x, hs. rw with_inode_id //. split_and!; [done| |done|done|rw (proj2 (Z.eqb_neq _ _) Hn); lia].
  split; [by apply evolves_refl|done..].
Qed.
Lemma bmap_direct s0 c hs s ip x k N : sb s0 = g -> tx s0 c hs [] s -> icache s0 !! ip = Some x -> i_dev x = d -> disk_ok c -> file_ok c x -> 0 <= k < 12 ->
  (length hs < 27)%nat -> enough N -> wpp (bmap ip k) N s (mapped s0 c x hs ip k) no_space.
Proof.
  intros Eg Ht Hx Ed Hd Hf Hk Hl HN. rw /bmap. change NDIRECT with 12. rw (proj2 (Z.ltb_lt k 12)); [|lia].
  eapply wpp_run; [apply (addr_at_run s0 c hs [] s ip x k N Ht Hx); [apply Hf|lia]|].
  assert (i_addrs x !!! Z.to_nat k = faddr c x k) as -> by (rw /faddr (proj2 (Z.ltb_lt k 12)) //; lia).
  destruct (Z.eqb_spec (faddr c x k) 0) as [Hz|Hn]; [|by apply wpp_wp, wp_ret, mapped_present].
  eapply wpp_run; [by apply (tx_geti s0 c hs [] s ip x)|]. rw Ed.
  eapply wpp_seq; [apply (balloc_fresh s0 c hs [] s N Eg Ht Hd); [by intros h Hh%not_elem_of_nil|lia|cbn; lia|done]|]. intros f s1 (Hr & Hu & H1).
  eapply wpp_bind; [by eapply (tx_seti s0 (allocated g c f) (ballocd hs f) [] s1 ip x)|]. intros [] s2 H2. apply wpp_wp, wp_ret.
  destruct (ballocd_ok hs f) as (Hs & Hin & Hlen). exists (allocated g c f), (set_i_addrs (arr_set (i_addrs x) k f) x), (ballocd hs f).
  split_and!; [exact H2|by apply add_direct|done|done|]. rw Hz Z.eqb_refl. pose proof (pot_mono x (set_i_addrs (arr_set (i_addrs x) k f) x) hs (ballocd hs f)) as Hp.
  rw {1}/indirect /= /arr_set list_lookup_total_insert_ne in Hp; [|lia]. specialize (Hp eq_refl Hs). rw /arr_set. lia.
Qed.

(** The part of [bmap] below the indirect block. *)
Lemma bmap_entry s0 c hs s ip x k N : sb s0 = g -> tx s0 c hs [] s -> icache s0 !! ip = Some x -> disk_ok c -> file_ok c x -> 12 <= k < 268 -> indirect x <> 0 ->
  (length hs < 27)%nat -> enough N ->
  wpp (bp ← bread d (indirect x); dt ← getdata bp;
       addr ← (if ldb 4 dt (4 * (k - 12)) =? 0 then
                 addr ← balloc d; setdata bp (fun dt => stb 4 dt (4 * (k - 12)) addr);; log_write bp;; mret addr
               else mret (ldb 4 dt (4 * (k - 12))));
       brelse bp;; mret addr) N s (mapped s0 c x hs ip k) no_space.
Proof.
  intros Eg Ht Hx Hd Hf Hk Hi Hl HN. pose proof HN as [HN1 _]. pose proof (fo_indirect _ _ Hf Hi) as Hdi. set (a := indirect x) in *.
  pose proof (tx_cleans s0 c hs s a Ht) as Hcl. assert (faddr c x k = ientry c a (k - 12)) as Efa.
  { rw /faddr (proj2 (Z.ltb_ge k 12)); [|lia]. by rw (proj2 (Z.eqb_neq _ _) Hi). }
  eapply wpp_bind; [apply (tx_bread me pid d st s0 c hs [] s a N Ht (not_elem_of_nil _)); [apply (db_home _ _ Hdi)|cbn; rw /NBUF; lia..]|]. intros b s1 H1.
  eapply wpp_run; [apply (tx_getdata me pid d st s0 c hs _ s1 a b N H1); by left|]. change (ldb 4 (c a) (4 * (k - 12))) with (ientry c a (k - 12)). rw -Efa.
  destruct (Z.eqb_spec (faddr c x k) 0) as [Hz|Hn].
  2:{ apply wpp_wp, wp_bind, wp_ret, wp_bind.
    eapply wp_mono; [eapply (tx_brelse me pid d st); [exact H1|exact Hcl]|]. intros [] s2 H2. apply wp_ret.
    by apply mapped_present. }
  eapply (wpp_seq _ _ _ _ (fun f s' => 0 <= f < sb_size g /\ used_block g c f = false /\
    tx s0 (bupd a (stb 4 (c a) (4 * (k - 12)) f) (allocated g c f)) (logged (ballocd hs f) a) [(a, b)] s')).
  - eapply wpp_seq; [apply (balloc_fresh s0 c hs [(a, b)] s1 N Eg H1 Hd); [by intros h ->%list_elem_of_singleton|lia|cbn; lia|done]|]. intros f s2 (Hr & Hu & H2).
    destruct (ballocd_ok hs f) as (_ & _ & Hlen). apply wpp_wp, wp_bind.
    eapply wp_mono; [apply (tx_setdata me pid d st s0 _ _ [(a, b)] s2 a b _ N H2); by left|]. intros [] s3 H3. rw allocated_frame // in H3; [|apply Hdi|apply Hdi].
    apply wp_bind. eapply wp_mono; [apply (tx_log_write me pid d st s0 _ _ [(a, b)] s3 a b N H3); [by left|apply Hdi|lia|lia]|]. intros [] s4 H4. by apply wp_ret.
  - intros f s2 (Hr & Hu & H2). destruct (ballocd_ok hs f) as (Hs & Hin & Hlen). apply wpp_wp, wp_bind.
    eapply wp_mono; [eapply (tx_brelse me pid d st); [exact H2|left; apply (proj1 (elem_logged _ a))]|]. intros [] s3 H3. apply wp_ret.
    exists (bupd a (stb 4 (c a) (4 * (k - 12)) f) (allocated g c f)), x, (logged (ballocd hs f) a). rw with_inode_id //.
    split_and!; [done|by apply add_entry| |by intros _; apply elem_logged_l|].
    + intros h Hh. by apply elem_logged_l, Hs.
    + rw (pot_logged x (logged _ a)) //; [|apply (proj1 (elem_logged _ a))]. rw Hz Z.eqb_refl /pot (proj2 (Z.eqb_neq _ _) Hi) -/a.
      destruct (decide (a ∈ hs)) as [Ha|Ha]; [|pose proof (length_logged (ballocd hs f) a); lia]. rw /logged decide_True; [lia|by apply Hs].
Qed.
Lemma added_after c x c1 x1 c2 x2 k f : evolves c x c1 x1 -> (forall j, in_file j -> fblock c1 x1 j = fblock c x j) -> added c1 x1 c2 x2 k f -> added c x c2 x2 k f.
Proof. intros H1 Hs [H2 Ha Hn Hs2]. split; [by eapply evolves_trans|done|done|]. intros j Hj. by rw Hs2 // Hs. Qed.
Lemma bmap_run s0 c hs s ip x k N : sb s0 = g -> tx s0 c hs [] s -> icache s0 !! ip = Some x -> i_dev x = d -> disk_ok c -> file_ok c x -> in_file k ->
  (length hs + pot x hs <= 26)%nat -> enough N -> wpp (bmap ip k) N s (mapped s0 c x hs ip k) no_space.
Proof.
  intros Eg Ht Hx Ed Hd Hf Hk Hl HN. destruct (Z.ltb_spec k 12) as [H12|H12]; [apply (bmap_direct s0 c hs s ip x k N); done || lia|].
  rw /bmap. change NDIRECT with 12. change NINDIRECT with 256. rw (proj2 (Z.ltb_ge k 12)); [|lia]. rw (proj2 (Z.ltb_lt (k - 12) 256)); [|lia].
  eapply wpp_run; [by apply (tx_geti s0 c hs [] s ip x)|]. rw Ed. eapply wpp_run; [apply (addr_at_run s0 c hs [] s ip x 12 N Ht Hx); [apply Hf|lia]|].
  change (i_addrs x !!! Z.to_nat 12) with (indirect x). destruct (Z.eqb_spec (indirect x) 0) as [Hz|Hn].
  2:{ eapply wpp_run; [reflexivity|]. apply bmap_entry; try done; lia. }
  assert (pot x hs = 2%nat) as Ep by by rw /pot Hz.
  eapply (wpp_seq _ _ _ _ (fun f s' => let x1 := set_i_addrs (arr_set (i_addrs x) 12 f) x in 0 <= f < sb_size g /\ used_block g c f = false /\
    tx (with_inode ip x1 s0) (allocated g c f) (ballocd hs f) [] s')).
  { eapply wpp_seq; [apply (balloc_fresh s0 c hs [] s N Eg Ht Hd); [by intros h Hh%not_elem_of_nil|lia|cbn; lia|done]|]. intros f s1 (Hr & Hu & H1).
    eapply wpp_bind; [by eapply (tx_seti s0 (allocated g c f) (ballocd hs f) [] s1 ip x)|]. intros [] s2 H2. by apply wpp_wp, wp_ret. }
  intros f s1 (Hr & Hu & H1). destruct (add_indirect c x f Hd Hf Hz Hr Hu) as (Hev & Ei & Hf0 & Hadr & Hblk). destruct (ballocd_ok hs f) as (Hs & Hin & Hlen).
  set (x1 := set_i_addrs _ x) in *. rw -{1}Ei. eapply wpp_mono.
  { apply (bmap_entry (with_inode ip x1 s0) (allocated g c f) (ballocd hs f) s1 ip x1 k N); try done; [by eapply with_inode_at|apply Hev|apply Hev|lia|by rw Ei|lia]. }
  2: done.
  intros r s2 (c2 & x2 & hs2 & H2 & Had & Hs2 & Hnew & Hcnt). exists c2, x2, hs2. rw with_inode_twice in H2. rw Hadr // in Hnew, Hcnt.
  split_and!; [done|by eapply added_after|by etrans|done|]. rw (pot_logged x1) in Hcnt; [|by rw Ei|by rw Ei]. lia.
Qed.
End inode.
