(* ===== verification/FsFile.v ===== *)
(** * The contents of a file

    [readi] and [writei] between a file and kernel memory, and [iupdate].  A
    file is the function from offsets to bytes its blocks hold: [readi] reads
    it, [writei] changes it where it says, adding blocks as needed, and logs no
    more blocks than an operation may. *)

From S2P Require Import Prelude Mem KString Spinlock Machine Kalloc Printf Vm KState Proc ProcInv FsFmt FsFmtSpec Sleeplock Bio BioInv BioSpec Log LogInv LogSpec LogTx Fs FsBits FsTx FsOp FsAlloc FsInode.

#[local] Transparent lift.

(** Byte [i] of the file. *)
Definition fbyte (c : Z -> list Z) (x : inode) (i : Z) : Z := u8 (fblock c x (i / 1024) !!! Z.to_nat (i mod 1024)).
(** The size is within bounds and the blocks below it are there. *)
Record sized (c : Z -> list Z) (x : inode) : Prop := {
  sz_range : 0 <= i_size x <= 268 * 1024;
  sz_blocks : forall k, 0 <= k -> k * 1024 < i_size x -> faddr c x k <> 0;
}.
(** Its blocks are ones the disk driver can address. *)
Record addressable (c : Z -> list Z) (x : inode) : Prop := {
  ar_data : forall k, in_file k -> faddr c x k <> 0 -> block_ok (faddr c x k);
  ar_indirect : indirect x <> 0 -> block_ok (indirect x);
}.
(** How many bytes [readi] reads. *)
Definition rcount (x : inode) (off n : Z) : Z := if i_size x <? off then 0 else Z.min n (i_size x - off).

Section file.
Context {lay : Layout} {drv : DiskDriver} {dok : DriverOk}.
Context (me : nat) (pid : Z) (d st : Z).
Implicit Types (s : kstate) (c : Z -> list Z) (hs : list Z) (H : list (Z * nat)) (x : inode).
Abbreviation tx := (tx me pid d st).
Abbreviation DATA := (kobj O_data).

Lemma poke_run s a bs n : lift (poke_m a bs) n s = Ok tt (with_mem (poke (kmem s) a bs) s).
Proof. done. Qed.
Lemma peek_data_run s a k n : lift (peek_m a k) n s = Ok (peek (kmem s) a k) s.
Proof. by destruct s. Qed.
Lemma copyout_kernel s0 c hs H s dst src len n : tx s0 c hs H s ->
  either_copyout false dst src len n s = Ok 0 (with_mem (memmove (kmem s) dst src len) s).
Proof. intros Ht. destruct (tx_cur _ _ _ _ _ _ _ _ _ Ht) as [_ Hok]. rw /either_copyout /mbind /K_bind myproc_run //. Qed.
Lemma copyin_kernel s0 c hs H s dst src len n : tx s0 c hs H s ->
  either_copyin dst false src len n s = Ok 0 (with_mem (memmove (kmem s) dst src len) s).
Proof. intros Ht. destruct (tx_cur _ _ _ _ _ _ _ _ _ Ht) as [_ Hok]. rw /either_copyin /mbind /K_bind myproc_run //. Qed.
(** [n] bytes of kernel memory at [a], apart from the object [bp->data]. *)
Definition clear_of (a n : Z) : Prop := 0 <= a /\ a + n < 2 ^ 64 /\ (a + n <= DATA \/ DATA + 1024 <= a).

(** ** [readi] *)

Lemma bmap_present s0 c hs s ip x k N : tx s0 c hs [] s -> icache s0 !! ip = Some x -> i_dev x = d -> length (i_addrs x) = 13%nat -> in_file k -> faddr c x k <> 0 -> addressable c x ->
  (length hs < 29)%nat -> (30 < N)%nat -> wp (bmap ip k) N s (fun r s' => r = faddr c x k /\ tx s0 c hs [] s').
Proof.
  intros Ht Hx Hd Hl Hk Hne Har Hhs HN. rw /bmap /faddr in Hne |- *. change NDIRECT with 12. destruct (Z.ltb_spec k 12) as [Hlt|Hge].
  - apply wp_bind. rw /wp (addr_at_run me pid d st s0 c hs [] s ip x k N Ht Hx Hl ltac:(lia)). by rw (proj2 (Z.eqb_neq _ _) Hne).
  - change NINDIRECT with 256. rw (proj2 (Z.ltb_lt _ _)); [|lia]. apply wp_bind. rw /wp (tx_geti me pid d st s0 c hs [] s ip x) // Hd.
    apply wp_bind. rw /wp (addr_at_run me pid d st s0 c hs [] s ip x 12 N Ht Hx Hl ltac:(lia)). change (i_addrs x !!! Z.to_nat 12) with (indirect x).
    destruct (Z.eqb_spec (indirect x) 0) as [|Hi]; [done|]. apply wp_bind, wp_ret.
    pose proof (tx_cleans me pid d st s0 c hs s (indirect x) Ht) as Hcl. eapply tx_opens; [done|by apply (ar_indirect _ _ Har)|done..|]. intros b s1 H1.
    apply wp_bind. rw /wp (tx_getdata me pid d st s0 c hs _ s1 (indirect x) b N H1); [|by left]. rw (proj2 (Z.eqb_neq _ _) Hne).
    apply wp_bind, wp_ret, wp_bind. eapply wp_mono; [by eapply (tx_brelse me pid d st)|]. intros [] s2 H2. by apply wp_ret.
Qed.

(** [M'] is [M] with bytes [off] to [off + n] of the file at [dst], apart from the object [bp->data]. *)
Definition filled c x (off : Z) (M : memory) (dst n : Z) (M' : memory) : Prop :=
  (forall i, 0 <= i < n -> ld8 M' (dst + i) = fbyte c x (off + i)) /\
  (forall a, ~ (dst <= a < dst + n) -> ~ (DATA <= a < DATA + 1024) -> ld8 M' a = ld8 M a).
Lemma length_fblock c x k : typed c -> length (fblock c x k) = 1024%nat.
Proof. intros Hc. rw /fblock. by destruct (faddr c x k =? 0). Qed.
Lemma fblock_at c x k : faddr c x k <> 0 -> fblock c x k = c (faddr c x k).
Proof. intros Hn. by rw /fblock (proj2 (Z.eqb_neq _ _) Hn). Qed.
(** One block's share. *)
Lemma filled_step c x off M dst tot m M1 : typed c -> filled c x off M dst tot M1 -> 0 <= off -> 0 <= tot -> 0 <= m <= 1024 - (off + tot) mod 1024 -> clear_of dst (tot + m) ->
  filled c x off M dst (tot + m) (memmove (poke M1 DATA (fblock c x ((off + tot) / 1024))) (dst + tot) (DATA + (off + tot) mod 1024) m).
Proof.
  intros Hty [Hin Hout] Ho Ht Hm (Hd0 & _ & Hcl). set (o := off + tot) in *. set (blk := fblock c x (o / 1024)). assert (o = off + tot) as Eo by done. clearbody o. pose proof (Z.mod_pos_bound o 1024 ltac:(lia)) as Hmod.
  assert (length blk = 1024%nat) as Hlen by by apply length_fblock. split.
  - intros i Hi. rw ld8_memmove; [|lia]. destruct (decide _) as [E|E].
    + set (j := Z.to_nat (o mod 1024 + (i - tot))). destruct (lookup_lt_is_Some_2 blk j) as [v Hv]; [lia|].
      replace (DATA + o mod 1024 + (dst + i - (dst + tot))) with (DATA + Z.of_nat j) by lia. rw (ld8_poke_in _ _ _ _ v) //.
      pose proof (Z.div_mod o 1024 ltac:(lia)). assert ((off + i) / 1024 = o / 1024) as Ed.
      { symmetry. apply (Z.div_unique_pos _ _ _ (o mod 1024 + (i - tot))); lia. }
      assert ((off + i) mod 1024 = o mod 1024 + (i - tot)) as Em by (symmetry; apply (Z.mod_unique_pos _ _ (o / 1024)); lia).
      by rw /fbyte Ed Em -/blk (list_lookup_total_correct _ _ _ Hv).
    + rw ld8_poke_out; [|rw Hlen; lia]. apply Hin. lia.
  - intros a Ha Hda. rw ld8_memmove; [|lia]. rw decide_False; [|lia]. rw ld8_poke_out; [|rw Hlen; lia]. apply Hout; lia.
Qed.
Lemma readi_wp s0 c hs s ip x dst off n N : tx s0 c hs [] s -> typed c -> icache s0 !! ip = Some x -> i_dev x = d -> length (i_addrs x) = 13%nat -> sized c x -> addressable c x -> 0 <= off -> 0 <= n -> off + n < 2 ^ 31 ->
  clear_of dst n -> (length hs < 29)%nat -> (300 < N)%nat ->
  wp (readi ip false dst off n) N s (fun r s' => r = rcount x off n /\
    exists M, tx (with_mem M s0) c hs [] s' /\ filled c x off (kmem s0) dst (rcount x off n) M).
Proof.
  intros Ht Hty Hx Hd Ha [Hsz Hbl] Har Ho Hn Hon Hcl Hhs HN. rw /readi. apply wp_bind. rw /wp (tx_geti me pid d st s0 c hs [] s ip x) //.
  rw u32_small; [|lia]. rw (proj2 (Z.ltb_ge (off + n) off)); [|lia]. rw orb_false_r /rcount.
  assert (tx (with_mem (kmem s0) s0) c hs [] s) as Ht0 by by rw with_mem_id.
  destruct (Z.ltb_spec (i_size x) off) as [Hpast|Hin].
  { apply wp_ret. split; [done|]. exists (kmem s0). split; [done|]. split; [intros i Hi; lia|done]. }
  set (n' := Z.min n (i_size x - off)). assert ((if i_size x <? off + n then u32 (i_size x - off) else n) = n') as ->.
  { rw /n'. destruct (Z.ltb_spec (i_size x) (off + n)); [rw u32_small|]; lia. }
  apply (wp_loop (fun '(tot, off', dst') s' => 0 <= tot <= n' /\ off' = off + tot /\ dst' = dst + tot /\
      exists M, tx (with_mem M s0) c hs [] s' /\ filled c x off (kmem s0) dst tot M)
    (fun '(tot, _, _) _ => if tot <? n' then S (Z.to_nat ((off + n' - 1) / 1024 - (off + tot) / 1024)) else O)).
  { split_and!; [lia|lia|lia|lia|]. exists (kmem s0). split; [done|]. split; [intros i Hi; lia|done]. }
  { destruct (0 <? n'); [|lia]. assert ((off + n' - 1) / 1024 < 268) by (apply Z.div_lt_upper_bound; lia). pose proof (Z.div_pos (off + 0) 1024). lia. }
  intros [[tot o] q] s1 (Htot & -> & -> & M & H1 & Hfill). destruct (Z.ltb_spec tot n') as [Hlt|Hge]; cbn [negb].
  2:{ apply wp_ret. assert (tot = n') as -> by lia. split; [|by exists M]. rw i32_small //. lia. }
  set (o := off + tot). pose proof (Z.mod_pos_bound o 1024 ltac:(lia)) as Hmod. pose proof (Z.div_mod o 1024 ltac:(lia)) as Hdm.
  assert (0 <= o / 1024 < 268 /\ faddr c x (o / 1024) <> 0) as [Hb Hb0].
  { pose proof (Z.div_pos o 1024). assert (o / 1024 < 268) by (apply Z.div_lt_upper_bound; lia). split; [lia|]. apply Hbl; lia. } change BSIZE with 1024.
  rw (u32_small (n' - tot)); [|lia]. set (m := Z.min _ _). assert (1 <= m <= n' - tot /\ m <= 1024 - o mod 1024) as Hm by lia.
  apply wp_bind. rw /wp (tx_geti me pid d st _ c hs [] s1 ip x _ N H1) //= Hd. apply wp_bind.
  eapply wp_mono; [apply (bmap_present (with_mem M s0) c hs s1 ip x (o / 1024) N); [done..|lia]|]. intros blk s2 [-> H2].
  set (blk := faddr c x (o / 1024)) in *. pose proof (tx_cleans me pid d st _ c hs s2 blk H2) as Hclean. eapply tx_opens; [done|by apply (ar_data _ _ Har)|done|lia|]. intros bp s3 H3.
  apply wp_bind. rw /wp (tx_getdata me pid d st _ c hs _ s3 blk bp N H3); [|by left]. apply wp_bind. rw /wp poke_run.
  assert (kmem s3 = M) as EM by by rw /kmem (tx_mach _ _ _ _ _ _ _ _ _ H3). rw EM. apply (tx_mem _ _ _ _ _ _ _ _ _ (poke M DATA (c blk))) in H3. rw with_mem_mem in H3.
  apply wp_bind. rw /wp (copyout_kernel _ _ _ _ _ _ _ _ _ H3). cbn [Z.eqb]. rw -(fblock_at c x (o / 1024) Hb0) in H3 |- *. set (M' := memmove _ _ _ _).
  apply (tx_mem _ _ _ _ _ _ _ _ _ M') in H3. rw with_mem_mem in H3.
  apply wp_bind. eapply wp_mono; [by eapply (tx_brelse me pid d st)|]. intros [] s4 H4. apply wp_ret.
  destruct Hcl as (Hc0 & Hc1 & Hc2). rw !u32_small; [|lia..]. rw u64_small; [|lia].
  split; [split_and!; [lia|lia|lia|lia|exists M'; split; [done|]]|].
  { apply (filled_step c x off (kmem s0) dst tot m M Hty Hfill Ho); [lia|exact (conj (Z.le_trans _ _ _ (Z.le_0_1) (proj1 (proj1 Hm))) (proj2 Hm))|rw /clear_of; lia]. }
  assert (o / 1024 <= (off + n' - 1) / 1024) as Hle by (apply Z.div_le_mono; lia).
  destruct (Z.ltb_spec (tot + m) n') as [Hlt2|]; [|lia]. assert ((off + (tot + m)) / 1024 = o / 1024 + 1) as E.
  { symmetry. apply (Z.div_unique_pos _ _ _ 0); lia. }
  assert (o / 1024 + 1 <= (off + n' - 1) / 1024) by (rw -E; apply Z.div_le_mono; lia). rw E. lia.
Qed.
End file.
