(* ===== verification/FsWrite.v ===== *)
(** * Writing a file

    [writei] from kernel memory and [iupdate]: the bytes written are those of
    the file, every other byte and every other block stays, blocks are added as
    the file grows, and the log gets no more blocks than an operation may log. *)

From S2P Require Import Prelude Mem KString Spinlock Machine Kalloc Printf Vm KState Proc ProcInv FsFmt FsFmtSpec Sleeplock Bio BioInv BioSpec Log LogInv LogSpec LogTx Fs FsBits FsTx FsOp FsAlloc FsInode FsFile.

#[local] Transparent lift.

Section write.
Context {lay : Layout} {drv : DiskDriver} {dok : DriverOk}.
Context (me : nat) (pid : Z) (d st : Z) (g : superblock).
Implicit Types (s : kstate) (c : Z -> list Z) (hs : list Z) (H : list (Z * nat)) (x : inode).
Abbreviation tx := (tx me pid d st).
Abbreviation DATA := (kobj O_data).
Abbreviation disk_ok := (disk_ok st g).
Abbreviation file_ok := (file_ok st g).
Abbreviation data_block := (data_block st g).
Abbreviation evolves := (evolves st g).
Abbreviation other := (other g).

(** ** Blocks of the file and other blocks *)

(** Contents that keep the block numbers of the file. *)
Lemma faddr_bupd c x a v k : indirect x = 0 \/ indirect x <> a -> faddr (bupd a v c) x k = faddr c x k.
Proof. intros Ha. rw /faddr /ientry. destruct (k <? 12); [done|]. destruct (Z.eqb_spec (indirect x) 0); [done|]. rw bupd_ne //. by destruct Ha. Qed.
Lemma file_bupd c x a v : file_ok c x -> (forall y, 0 <= y < sb_size g -> BBLOCK y g <> a) -> indirect x = 0 \/ indirect x <> a -> file_ok (bupd a v c) x.
Proof.
  intros [Hl Hda Hin Hinj Hap] Hb Ha. split; [done| | | |].
  - intros k Hk. rw faddr_bupd //. intros Hn. by apply data_bupd; [|apply Hda].
  - intros Hn. by apply data_bupd; [|apply Hin].
  - intros j k Hj Hk. rw !faddr_bupd //. by apply Hinj.
  - intros k Hk. rw faddr_bupd //. by apply Hap.
Qed.
Lemma write_block c x k v : disk_ok c -> file_ok c x -> in_file k -> faddr c x k <> 0 -> length v = 1024%nat ->
  let c' := bupd (faddr c x k) v c in
  evolves c x c' x /\ (forall j, faddr c' x j = faddr c x j) /\ forall j, in_file j -> fblock c' x j = if j =? k then v else fblock c x j.
Proof.
  intros Hd Hf Hk Hn Hv c'. pose proof (fo_data _ _ _ _ Hf k Hk Hn) as Hdb. set (a := faddr c x k) in *.
  assert (indirect x = 0 \/ indirect x <> a) as Hi by (right; apply not_eq_sym; by apply (fo_apart _ _ _ _ Hf)).
  assert (forall j, faddr c' x j = faddr c x j) as Hfa by (intros j; by apply faddr_bupd). split_and!; [|done|].
  - split; [by apply disk_bupd; [|apply Hdb|]|by apply file_bupd; [|apply Hdb|]|by destruct x|done| |].
    + intros b Hb. by apply data_bupd; [apply Hdb|].
    + intros b [Hr Hu Hm Hfb Hib]. split; [split|]; try done.
      * rw used_bupd //; [apply Hdb|lia].
      * intros j Hj. rw Hfa. by apply Hfb.
      * rw /c' bupd_ne //. apply not_eq_sym. by apply Hfb.
  - intros j Hj. rw /fblock Hfa. destruct (Z.eqb_spec j k) as [->|Hne].
    + rw (proj2 (Z.eqb_neq _ _) Hn) /c' /a bupd_eq //.
    + destruct (Z.eqb_spec (faddr c x j) 0) as [|Hj0]; [done|]. rw /c' bupd_ne //. intros E. apply Hne. by apply (fo_inj _ _ _ _ Hf).
Qed.

(** ** [iupdate] *)

Record inode_ok x : Prop := {
  in_dev : i_dev x = d;
  in_inum : 0 <= i_inum x < sb_ninodes g;
  in_type : - 2 ^ 15 <= i_type x < 2 ^ 15;
  in_major : - 2 ^ 15 <= i_major x < 2 ^ 15;
  in_minor : - 2 ^ 15 <= i_minor x < 2 ^ 15;
  in_nlink : - 2 ^ 15 <= i_nlink x < 2 ^ 15;
}.
(** The inode is on disk. *)
Definition on_disk c x : Prop := get_dinode (c (IBLOCK (i_inum x) g)) (i_inum x mod IPB) = to_dinode x.
Definition iupdated c x : Z -> list Z :=
  bupd (IBLOCK (i_inum x) g) (put_dinode (c (IBLOCK (i_inum x) g)) (i_inum x mod IPB) (to_dinode x)) c.

Lemma dinode_in_range c x : disk_ok c -> file_ok c x -> inode_ok x -> 0 <= i_size x < 2 ^ 32 -> dinode_ok (to_dinode x).
Proof.
  intros Hd Hf Hx Hs. pose proof (ge_size _ _ (bm_geo _ _ _ (do_map _ _ _ Hd))) as Hsz.
  assert (forall b, data_block c b -> 0 <= b < 2 ^ 32) as Hb by (intros b Hb; pose proof (db_range _ _ _ _ Hb); lia).
  split_and!; try apply Hx; [apply Hs|apply Hs|apply Hf|]. cbn [to_dinode di_addrs]. apply Forall_lookup. intros i a Hi.
  apply lookup_lt_Some in Hi as Hlt. rw (fo_addrs _ _ _ _ Hf) in Hlt. apply list_lookup_total_correct in Hi as Et.
  destruct (decide (a = 0)) as [->|Hn]; [lia|]. apply Hb. destruct (decide (i < 12)%nat) as [H12|H12].
  - assert (faddr c x (Z.of_nat i) = a) as E by (rw /faddr (proj2 (Z.ltb_lt _ _)) ?Nat2Z.id //; lia).
    rw -E. apply (fo_data _ _ _ _ Hf); [lia|by rw E].
  - assert (i = 12%nat) as -> by lia. rw -Et. apply (fo_indirect _ _ _ _ Hf). by rw /indirect Et.
Qed.
Lemma ipb_range i : 0 <= i mod IPB < 16.
Proof. by apply Z.mod_pos_bound. Qed.
Lemma iupdated_ok c x : disk_ok c -> file_ok c x -> inode_ok x -> 0 <= i_size x < 2 ^ 32 ->
  let c' := iupdated c x in
  disk_ok c' /\ file_ok c' x /\ on_disk c' x /\ (forall j, faddr c' x j = faddr c x j) /\ (forall j, in_file j -> fblock c' x j = fblock c x j).
Proof.
  intros Hd Hf Hx Hs c'. pose proof (in_inum _ Hx) as Hi. set (a := IBLOCK (i_inum x) g) in *. assert (length (c a) = 1024%nat) as Hl by apply (bm_typed _ _ _ (do_map _ _ _ Hd)).
  assert (indirect x = 0 \/ indirect x <> a) as Hia.
  { destruct (decide (indirect x = 0)) as [|Hn]; [by left|right]. apply not_eq_sym. by apply (db_inode _ _ _ _ (fo_indirect _ _ _ _ Hf Hn)). }
  assert (forall y, 0 <= y < sb_size g -> BBLOCK y g <> a) as Ha by (intros y Hy; by apply (do_apart _ _ _ Hd)).
  assert (forall j, faddr c' x j = faddr c x j) as Hfa by (intros j; by apply faddr_bupd).
  pose proof (dinode_in_range c x Hd Hf Hx Hs) as Hdi. pose proof (ipb_range (i_inum x)). split_and!; [|by apply file_bupd| |done|].
  - apply disk_bupd; [done..|]. rw /put_dinode length_splice // length_dinode; [|apply Hf]. rw /fits -/a Hl /DINODE. lia.
  - rw /on_disk /c' /iupdated bupd_eq. by apply get_put_dinode.
  - intros j Hj. rw /fblock Hfa. destruct (Z.eqb_spec (faddr c x j) 0) as [|Hn]; [done|]. rw /c' /iupdated bupd_ne //.
    apply not_eq_sym. by apply (db_inode _ _ _ _ (fo_data _ _ _ _ Hf j Hj Hn)).
Qed.
Lemma iupdate_wp s0 c hs s ip x N : sb s0 = g -> tx s0 c hs [] s -> icache s0 !! ip = Some x -> disk_ok c -> inode_ok x -> (length hs < 29)%nat -> (30 < N)%nat ->
  wp (iupdate ip) N s (fun _ s' => tx s0 (iupdated c x) (logged hs (IBLOCK (i_inum x) g)) [] s').
Proof.
  intros Eg Ht Hx Hd Hok Hl HN. pose proof (tx_sb me pid d st _ _ _ _ _ Ht) as Esb. apply wp_bind. rw /wp /gets Esb Eg.
  apply wp_bind. rw /wp (tx_geti me pid d st s0 c hs [] s ip x _ N Ht Hx) (in_dev _ Hok). apply wp_bind. rw /wp (tx_geti me pid d st s0 c hs [] s ip x _ N Ht Hx).
  set (a := IBLOCK (i_inum x) g). eapply tx_opens; [done|apply (do_home _ _ _ Hd), Hok|done..|]. intros b s1 H1. apply wp_bind. rw /wp (tx_geti me pid d st s0 c hs _ s1 ip x _ N H1 Hx).
  apply wp_bind. eapply wp_mono; [apply (tx_setdata me pid d st s0 c hs _ s1 a b _ N H1); by left|]. intros [] s2 H2.
  apply wp_bind. eapply wp_mono; [apply (tx_log_write me pid d st s0 _ hs _ s2 a b N H2); [by left|apply (do_home _ _ _ Hd), Hok|done|done]|]. intros [] s3 H3.
  eapply wp_mono; [eapply (tx_brelse me pid d st); [exact H3|left; apply (proj1 (elem_logged hs a))]|]. by intros [] s4 H4.
Qed.

(** ** [writei] *)

(** Bytes [off] to [off + n] of the file are now those of [M] at [src]. *)
Definition wrote c x (M : memory) (src off n : Z) c' x' : Prop :=
  forall i, 0 <= i < 268 * 1024 -> fbyte c' x' i = if decide (off <= i < off + n) then ld8 M (src + (i - off)) else fbyte c x i.

(** A block patched through [bp->data]. *)
Definition patch (M : memory) (blk : list Z) (o src m : Z) : list Z := peek (memmove (poke M DATA blk) (DATA + o) src m) DATA 1024.
Lemma length_patch M blk o src m : length (patch M blk o src m) = 1024%nat.
Proof. apply length_peek. Qed.
Lemma patch_byte M blk o src m i : length blk = 1024%nat -> 0 <= o -> 0 <= m -> o + m <= 1024 -> clear_of src m -> 0 <= i < 1024 ->
  u8 (patch M blk o src m !!! Z.to_nat i) = if decide (o <= i < o + m) then ld8 M (src + (i - o)) else u8 (blk !!! Z.to_nat i).
Proof.
  intros Hl Ho Hm Hom (_ & _ & Hcl) Hi. rw /patch. set (M' := memmove _ _ _ _).
  rw (list_lookup_total_correct _ _ (ld8 M' (DATA + i))); [|rw peek_lookup; [by rw Z2Nat.id; [|lia]|lia]].
  rw u8_small; [|apply ld8_range]. rw /M' ld8_memmove; [|lia]. destruct (decide (o <= i < o + m)) as [E|E].
  - rw decide_True; [|lia]. rw ld8_poke_out; [|rw Hl; lia]. f_equal. lia.
  - rw decide_False; [|lia]. destruct (lookup_lt_is_Some_2 blk (Z.to_nat i)) as [v Hv]; [lia|].
    rw (list_lookup_total_correct _ _ _ Hv). rw -{1}(Z2Nat.id i); [|lia]. by rw (ld8_poke_in _ _ _ _ v).
Qed.
Lemma wrote_step c x M src off tot m c1 x1 c2 x2 M1 : typed c1 -> wrote c x M src off tot c1 x1 -> 0 <= off -> 0 <= tot -> 0 <= m -> (off + tot) mod 1024 + m <= 1024 ->
  clear_of src (tot + m) -> (forall a, ~ (DATA <= a < DATA + 1024) -> ld8 M1 a = ld8 M a) ->
  (forall j, in_file j -> fblock c2 x2 j = if j =? (off + tot) / 1024 then patch M1 (fblock c1 x1 ((off + tot) / 1024)) ((off + tot) mod 1024) (src + tot) m else fblock c1 x1 j) ->
  wrote c x M src off (tot + m) c2 x2.
Proof.
  intros Hty Hw Ho Ht Hm Hle (Hs0 & Hs1 & Hs2) HM Hb i Hi. set (o := off + tot) in *. assert (o = off + tot) as Eo by done. clearbody o.
  pose proof (Z.mod_pos_bound o 1024 ltac:(lia)) as Hmod. pose proof (Z.div_mod o 1024 ltac:(lia)) as Hdm.
  pose proof (Z.mod_pos_bound i 1024 ltac:(lia)) as Himod. pose proof (Z.div_mod i 1024 ltac:(lia)) as Hidm.
  rw {1}/fbyte Hb; [|lia]. destruct (Z.eqb_spec (i / 1024) (o / 1024)) as [E|E].
  - rw patch_byte; [|by apply length_fblock|lia|lia|lia|rw /clear_of; lia|lia]. destruct (decide (o mod 1024 <= i mod 1024 < o mod 1024 + m)) as [E2|E2].
    + rw decide_True; [|lia]. rw HM; [f_equal; lia|lia].
    + rw -E. change (u8 (fblock c1 x1 (i / 1024) !!! Z.to_nat (i mod 1024))) with (fbyte c1 x1 i). rw Hw //.
      destruct (decide (off <= i < off + tot)); [rw decide_True //; lia|rw decide_False //; lia].
  - change (u8 (fblock c1 x1 (i / 1024) !!! Z.to_nat (i mod 1024))) with (fbyte c1 x1 i). rw Hw //.
    destruct (decide (off <= i < off + tot)); [rw decide_True //; lia|rw decide_False //; lia].
Qed.

(** The blocks that writing [tot] bytes may log, beside the indirect block. *)
Definition budget (off tot : Z) : Z :=
  if tot =? 0 then 0 else 2 * ((off + tot - 1) / 1024 - off / 1024 + 1) - (if off mod 1024 =? 0 then 0 else 1).
Lemma budget_step off tot m : 0 <= off -> 0 <= tot -> tot = 0 \/ (off + tot) mod 1024 = 0 -> 1 <= m -> (off + tot) mod 1024 + m <= 1024 ->
  budget off (tot + m) = budget off tot + if (tot =? 0) && negb (off mod 1024 =? 0) then 1 else 2.
Proof.
  intros Ho Ht Hal Hm Hle. rw /budget (proj2 (Z.eqb_neq (tot + m) 0)); [|lia]. pose proof (Z.div_mod (off + tot) 1024 ltac:(lia)) as Hdm. pose proof (Z.mod_pos_bound (off + tot) 1024 ltac:(lia)) as Hmod.
  assert ((off + (tot + m) - 1) / 1024 = (off + tot) / 1024) as ->.
  { symmetry. apply (Z.div_unique_pos _ _ _ ((off + tot) mod 1024 + m - 1)); lia. }
  destruct (Z.eqb_spec tot 0) as [->|Hne]; cbn [andb].
  - rw Z.add_0_r. destruct (off mod 1024 =? 0); cbn [negb]; lia.
  - destruct Hal as [|Hal]; [done|]. assert ((off + tot - 1) / 1024 = (off + tot) / 1024 - 1) as ->; [|lia].
    symmetry. apply (Z.div_unique_pos _ _ _ 1023); lia.
Qed.
Lemma budget_max off tot : 0 <= off -> 0 <= tot <= 3072 -> 0 <= budget off tot <= 7.
Proof.
  intros Ho Ht. rw /budget. destruct (Z.eqb_spec tot 0); [lia|]. pose proof (Z.div_mod off 1024 ltac:(lia)). pose proof (Z.mod_pos_bound off 1024 ltac:(lia)).
  pose proof (Z.div_mod (off + tot - 1) 1024 ltac:(lia)). pose proof (Z.mod_pos_bound (off + tot - 1) 1024 ltac:(lia)). destruct (Z.eqb_spec (off mod 1024) 0); lia.
Qed.

(** [writei] after [tot] bytes: the contents [c1], the inode [x1], the log [hs1]
    and the memory [M1]. *)
Record winv s0 ip c x hs src off tot s' c1 x1 hs1 M1 : Prop := {
  wi_tx : tx (with_inode ip x1 (with_mem M1 s0)) c1 hs1 [] s';
  wi_evolves : evolves c x c1 x1;
  wi_bytes : wrote c x (kmem s0) src off tot c1 x1;
  wi_mem : forall a, ~ (DATA <= a < DATA + 1024) -> ld8 M1 a = ld8 (kmem s0) a;
  wi_count : Z.of_nat (length hs1 + pot x1 hs1) <= Z.of_nat (length hs + pot x hs) + budget off tot;
  wi_blocks : forall k, 0 <= k -> k * 1024 < Z.max (i_size x) (off + tot) -> faddr c1 x1 k <> 0;
}.
Lemma winv_start s0 ip c x hs src off s : icache s0 !! ip = Some x -> tx s0 c hs [] s -> disk_ok c -> file_ok c x -> sized c x -> off <= i_size x ->
  winv s0 ip c x hs src off 0 s c x hs (kmem s0).
Proof.
  intros Hx Ht Hd Hf [Hsz Hbl] Ho. split.
  - by rw with_mem_id with_inode_id.
  - by apply evolves_refl.
  - intros i Hi. rw decide_False //. lia.
  - done.
  - rw /budget /=. lia.
  - intros k Hk Hlt. apply Hbl; lia.
Qed.

Lemma writei_block {B} (kt kf : K kstate B) Q s0 ip c x hs src off tot m s c1 x1 hs1 M1 N : sb s0 = g -> icache s0 !! ip = Some x -> i_dev x = d ->
  winv s0 ip c x hs src off tot s c1 x1 hs1 M1 -> 0 <= off <= i_size x -> i_size x <= 268 * 1024 -> 0 <= tot -> tot = 0 \/ (off + tot) mod 1024 = 0 ->
  1 <= m -> (off + tot) mod 1024 + m <= 1024 -> off + tot + m <= 268 * 1024 -> clear_of src (tot + m) -> (length hs1 + pot x1 hs1 <= 26)%nat -> enough g N ->
  (forall s' c' x' hs' M', winv s0 ip c x hs src off (tot + m) s' c' x' hs' M' -> wp kt N s' Q) ->
  wpp (blk ← bmap ip ((off + tot) / 1024); bp ← bread d blk; dt ← getdata bp; lift (poke_m DATA dt);;
       e ← either_copyin (DATA + (off + tot) mod 1024) false (src + tot) m; dt ← lift (peek_m DATA (Z.to_nat BSIZE)); setdata bp (fun _ => dt);;
       if e =? -1 then brelse bp;; kf else log_write bp;; brelse bp;; kt) N s Q (fun msg => msg = "balloc: out of blocks").
Proof.
  intros Eg Hx Ed [Ht Hev Hby HM Hcnt Hbl] Ho Hsz Htot Hal Hm Hle Hmax Hcl Hl HN Hkt. pose proof HN as [HN1 _]. set (o := off + tot) in *. set (k := o / 1024).
  assert (in_file k) as Hk by (split; [apply Z.div_pos; lia|apply Z.div_lt_upper_bound; lia]).
  assert (i_dev x1 = d) as Ed1 by by rw (ev_inode _ _ _ _ _ _ Hev).
  eapply wpp_seq.
  { apply (bmap_run me pid d st g (with_inode ip x1 (with_mem M1 s0)) c1 hs1 s ip x1 k N); try done; [by eapply with_inode_at|apply Hev|apply Hev]. }
  intros r s1 (c2 & x2 & hs2 & H1 & [Hev2 Ha Hr Hsame] & Hs2 & Hnew & Hcnt2). rw with_inode_twice in H1.
  pose proof (ev_disk _ _ _ _ _ _ Hev2) as Hd2. pose proof (ev_file _ _ _ _ _ _ Hev2) as Hf2. rw -Ha in Hr, Hnew |- *.
  pose proof (fo_data _ _ _ _ Hf2 k Hk Hr) as Hdb. set (a := faddr c2 x2 k) in *. apply wpp_wp.
  assert (length hs2 < 29)%nat as Hl2 by (destruct (faddr c1 x1 k =? 0); lia).
  eapply tx_opens; [exact H1|apply (db_home _ _ _ _ Hdb)|done|lia|]. intros bp s2 H2. apply wp_bind. rw /wp (tx_getdata me pid d st _ c2 hs2 _ s2 a bp N H2); [|by left].
  apply wp_bind. rw /wp poke_run. assert (kmem s2 = M1) as EM by by rw /kmem (tx_mach _ _ _ _ _ _ _ _ _ H2). rw EM.
  apply (tx_mem _ _ _ _ _ _ _ _ _ (poke M1 DATA (c2 a))) in H2. apply wp_bind. rw /wp (copyin_kernel _ _ _ _ _ _ _ _ _ _ _ _ _ H2).
  change (kmem (with_mem (poke M1 DATA (c2 a)) s2)) with (poke M1 DATA (c2 a)). set (M2 := memmove _ _ _ _).
  apply (tx_mem _ _ _ _ _ _ _ _ _ M2) in H2. apply wp_bind. rw /wp peek_data_run. change (Z.to_nat BSIZE) with 1024%nat.
  change (kmem (with_mem M2 _)) with M2. change (peek M2 DATA 1024) with (patch M1 (c2 a) (o mod 1024) (src + tot) m). set (v := patch _ _ _ _ _).
  apply wp_bind. eapply wp_mono; [apply (tx_setdata me pid d st _ c2 hs2 _ _ a bp (fun _ => v) N H2); by left|]. intros [] s3 H3. cbn [Z.eqb].
  apply wp_bind. eapply wp_mono; [apply (tx_log_write me pid d st _ _ hs2 _ s3 a bp N H3); [by left|apply Hdb|done|lia]|]. intros [] s4 H4.
  apply wp_bind. eapply wp_mono; [eapply (tx_brelse me pid d st); [exact H4|left; apply (proj1 (elem_logged hs2 a))]|]. intros [] s5 H5. eapply Hkt. clear Hkt.
  destruct (write_block c2 x2 k v Hd2 Hf2 Hk Hr) as (Hev3 & Hfa3 & Hfb3); [apply length_patch|]. fold a in Hev3, Hfa3, Hfb3.
  apply (Build_winv _ _ _ _ _ _ _ _ _ (bupd a v c2) x2 (logged hs2 a) M2).
  - exact H5.
  - eapply evolves_trans; [done|]. by eapply evolves_trans.
  - eapply (wrote_step c x (kmem s0) src off tot m c1 x1 _ _ M1); try done; [apply (bm_typed _ _ _ (do_map _ _ _ (ev_disk _ _ _ _ _ _ Hev)))|lia|lia|].
    intros j Hj. fold o k. rw Hfb3 // -(Hsame k) // (fblock_at c2 x2 k Hr) -/a Hsame //.
  - intros b Hb. rw /M2 ld8_memmove; [|lia]. rw decide_False; [|pose proof (Z.mod_pos_bound o 1024); lia]. rw ld8_poke_out; [by apply HM|].
    by rw (bm_typed _ _ _ (do_map _ _ _ Hd2)).
  - rw (budget_step off tot m ltac:(lia) Htot Hal Hm Hle). pose proof (pot_mono x2 x2 hs2 (logged hs2 a) eq_refl ltac:(intros h Hh; by apply elem_logged_l)) as Hp.
    destruct (Z.eqb_spec (faddr c1 x1 k) 0) as [Hz|Hz].
    + assert (logged hs2 a = hs2) as -> by (rw /logged decide_True //; by apply Hnew). destruct (Z.eqb_spec tot 0) as [->|]; cbn [andb]; [|lia].
      destruct (Z.eqb_spec (off mod 1024) 0) as [|Hne]; cbn [negb]; [lia|]. exfalso. apply (Hbl k); [lia| |done]. rw /k /o Z.add_0_r.
      pose proof (Z.div_mod off 1024 ltac:(lia)). pose proof (Z.mod_pos_bound off 1024 ltac:(lia)). lia.
    + pose proof (length_logged hs2 a). destruct (_ && _); lia.
  - intros j Hj Hlt. rw Hfa3. pose proof (Z.div_mod o 1024 ltac:(lia)) as Hdm. fold k in Hdm. destruct (decide (j * 1024 < Z.max (i_size x) o)) as [E|E].
    + rw (ev_addr _ _ _ _ _ _ Hev2); [by apply Hbl|lia|by apply Hbl].
    + pose proof (Z.mod_pos_bound o 1024 ltac:(lia)). assert (o = off + tot) as Eo by done. assert (j = k) as -> by lia. done.
Qed.

Lemma writei_wp s0 c hs s ip x src off n N : sb s0 = g -> tx s0 c hs [] s -> icache s0 !! ip = Some x -> disk_ok c -> file_ok c x -> sized c x -> inode_ok x ->
  0 <= off <= i_size x -> 0 <= n <= 3072 -> off + n <= 268 * 1024 -> clear_of src n -> (length hs < 20)%nat -> enough g N ->
  wpp (writei ip false src off n) N s (fun r s' => r = n /\ exists c1 x1 hs1 M1 s1, winv s0 ip c x hs src off n s1 c1 x1 hs1 M1 /\
     let x' := set_i_size (Z.max (i_size x) (off + n)) x1 in
     tx (with_inode ip x' (with_mem M1 s0)) (iupdated c1 x') (logged hs1 (IBLOCK (i_inum x) g)) [] s')
    (fun msg => msg = "balloc: out of blocks").
Proof.
  intros Eg Ht Hx Hd Hf Hs Hok Ho Hn Hmax Hcl Hl HN. pose proof HN as [HN1 _]. pose proof (sz_range _ _ Hs) as Hsz. pose proof (in_dev _ Hok) as Ed. rw /writei.
  eapply wpp_run; [by apply (tx_geti me pid d st s0 c hs [] s ip x)|]. rw u32_small; [|lia]. rw (proj2 (Z.ltb_ge _ _)); [|lia]. rw (proj2 (Z.ltb_ge (off + n) off)); [|lia].
  change (MAXFILE * BSIZE) with 274432. rw (proj2 (Z.ltb_ge 274432 (off + n))); [|lia]. cbn [orb].
  eapply (wpp_seq _ _ _ _ (fun r s' => r = (n, off + n) /\ exists c1 x1 hs1 M1, winv s0 ip c x hs src off n s' c1 x1 hs1 M1)).
  - apply (wpp_loop (fun '(tot, off', src') s' => 0 <= tot <= n /\ off' = off + tot /\ src' = src + tot /\ (tot = 0 \/ tot = n \/ (off + tot) mod 1024 = 0) /\
        exists c1 x1 hs1 M1, winv s0 ip c x hs src off tot s' c1 x1 hs1 M1)
      (fun '(tot, _, _) => Z.to_nat (n - tot))).
    { split_and!; [lia|lia|lia|lia|by left|]. exists c, x, hs, (kmem s0). apply winv_start; done || lia. }
    { lia. }
    intros [[tot o] q] s1 (Htot & -> & -> & Hal & c1 & x1 & hs1 & M1 & Hw). destruct (Z.ltb_spec tot n) as [Hlt|Hge]; cbn [negb].
    2:{ apply wpp_wp, wp_ret. assert (tot = n) as -> by lia. split; [done|]. by exists c1, x1, hs1, M1. }
    assert (i_dev x1 = d) as Ed1 by by rw (ev_inode _ _ _ _ _ _ (wi_evolves _ _ _ _ _ _ _ _ _ _ _ _ _ Hw)).
    eapply wpp_run; [eapply (tx_geti me pid d st); [apply Hw|by eapply with_inode_at]|]. rw Ed1 (u32_small (n - tot)); [|lia]. change BSIZE with 1024 in *.
    pose proof (Z.mod_pos_bound (off + tot) 1024 ltac:(lia)) as Hmod. set (m := Z.min _ _).
    assert (1 <= m <= n - tot /\ (off + tot) mod 1024 + m <= 1024) as Hm by lia. pose proof (wi_count _ _ _ _ _ _ _ _ _ _ _ _ _ Hw) as Hcnt.
    pose proof (budget_max off (tot + m) ltac:(lia) ltac:(lia)) as Hbud. pose proof (budget_step off tot m ltac:(lia) ltac:(lia) ltac:(lia) ltac:(lia) ltac:(lia)) as Hstep.
    assert (budget off tot <= 5).
    { destruct (Z.eqb_spec tot 0) as [->|]; [rw /budget /=; lia|]. cbn [andb] in Hstep. lia. }
    assert (pot x hs <= 2)%nat by (rw /pot; repeat case_match; lia).
    destruct Hcl as (Hc0 & Hc1 & Hc2).
    eapply (writei_block _ _ _ s0 ip c x hs src off tot m s1 c1 x1 hs1 M1 N Eg Hx Ed Hw); [lia|lia|lia|lia|lia|lia|lia|rw /clear_of; lia|lia|done|].
    intros s' c' x' hs' M' Hw'. apply wp_ret. rw !u32_small; [|lia..]. rw u64_small; [|lia]. split; [|lia]. split_and!; [lia|lia|lia|lia| |by exists c', x', hs', M'].
    destruct (decide (tot + m = n)); [lia|]. right; right. assert ((off + tot) mod 1024 + m = 1024) as E by lia.
    pose proof (Z.div_mod (off + tot) 1024 ltac:(lia)). symmetry. apply (Z.mod_unique_pos _ _ ((off + tot) / 1024 + 1)); lia.
  - intros [tot o] s1 ([= -> ->] & c1 & x1 & hs1 & M1 & Hw). pose proof Hw as [H1 Hev _ _ Hcnt _]. set (sz := Z.max (i_size x) (off + n)).
    pose proof (ev_inode _ _ _ _ _ _ Hev) as Ex. assert (i_size x1 = i_size x) as Esz by by rw Ex. set (x' := set_i_size sz x1).
    assert (inode_ok x') as Hok' by (rw /x' Ex; destruct Hok; by split). assert (i_inum x' = i_inum x) as En by by rw /x' Ex.
    set (s0' := with_mem M1 s0) in *. assert (icache s0' !! ip = Some x) as Hx' by done.
    assert (length hs1 < 29)%nat as Hl1.
    { pose proof (budget_max off n ltac:(lia) ltac:(lia)). assert (pot x hs <= 2)%nat by (rw /pot; repeat case_match; lia). lia. }
    apply wpp_wp, wp_bind. rw /wp (tx_geti me pid d st _ c1 hs1 [] s1 ip x1 _ N H1) ?(with_inode_at _ _ x) // Esz.
    apply wp_bind. eapply (wp_mono _ _ _ (fun _ s' => tx (with_inode ip x' s0') c1 hs1 [] s')).
    { rw /when. destruct (Z.ltb_spec (i_size x) (off + n)) as [Hlt|Hge].
      - eapply wp_mono; [eapply (tx_seti me pid d st _ c1 hs1 [] s1 ip x1 _ N H1); by eapply with_inode_at|]. intros [] s2 H2. rw with_inode_twice in H2.
        assert (set_i_size (off + n) x1 = x') as E by (rw /x' (_ : sz = off + n) //; lia). by rw E in H2.
      - apply wp_ret. assert (x' = x1) as ->; [|done]. rw /x' (_ : sz = i_size x1); [by destruct x1|lia]. }
    intros [] s2 H2. apply wp_bind. eapply wp_mono.
    { eapply (iupdate_wp (with_inode ip x' s0') c1 hs1 s2 ip x' N); try done; [by eapply with_inode_at|apply Hev|lia]. }
    intros [] s3 H3. apply wp_ret. rw i32_small; [|lia]. split; [done|]. exists c1, x1, hs1, M1, s1. split; [done|]. rw En in H3. exact H3.
Qed.
End write.
