(* ===== verification/FsFileSpec.v ===== *)
(** * What [readi] and [writei] promise

    A file is its size and its bytes.  [writei] is a write of the abstract file,
    [readi] a read of it; a write is atomic on disk and fits the log.  The
    reservations of three operations do not. *)

From S2P Require Import Prelude Mem KString Spinlock Machine Kalloc Printf Vm KState Proc ProcInv FsFmt FsFmtSpec Sleeplock Bio BioInv BioSpec Log LogInv LogSpec LogCrash LogTx Durability Fs FsBits FsTx FsOp FsAlloc FsInode FsFile FsWrite.

(** Everything that makes the file [x] well formed on the disk [c]. *)
Record good_file (d st : Z) (g : superblock) (c : Z -> list Z) (x : inode) : Prop := {
  gf_disk : disk_ok st g c;
  gf_file : file_ok st g c x;
  gf_sized : sized c x;
  gf_inode : inode_ok d g x;
}.
(** What a write changes: the bytes and the size of the file; no other block in
    use, and no other inode. *)
Record file_written (g : superblock) (c : Z -> list Z) (x : inode) (M : memory) (src off n : Z) (c' : Z -> list Z) (x' : inode) : Prop := {
  fw_size : i_size x' = Z.max (i_size x) (off + n);
  fw_rest : x' = set_i_size (i_size x') (set_i_addrs (i_addrs x') x);
  fw_bytes : wrote c x M src off n c' x';
  fw_on_disk : on_disk g c' x';
  fw_other : forall b, other g c x b -> b <> IBLOCK (i_inum x) g -> c' b = c b;
  fw_inodes : forall j, 0 <= j < sb_ninodes g -> j <> i_inum x ->
    get_dinode (c' (IBLOCK j g)) (j mod IPB) = get_dinode (c (IBLOCK j g)) (j mod IPB);
}.

Section spec.
Context {lay : Layout} {drv : DiskDriver} {dok : DriverOk}.
Context (me : nat) (pid : Z) (d st : Z) (g : superblock).
Implicit Types (s : kstate) (c : Z -> list Z) (hs : list Z) (x : inode).
Abbreviation tx := (tx me pid d st).
Abbreviation good_file := (good_file d st g).
Abbreviation file_written := (file_written g).
Abbreviation DATA := (kobj O_data).
Abbreviation no_space := (fun msg : string => msg = "balloc: out of blocks").

Lemma fbyte_ext c x c' x' i : 0 <= i < 268 * 1024 -> (forall j, in_file j -> fblock c' x' j = fblock c x j) -> fbyte c' x' i = fbyte c x i.
Proof.
  intros Hi Hb. rw /fbyte Hb //. split; [apply Z.div_pos; lia|apply Z.div_lt_upper_bound; lia].
Qed.
Lemma file_addressable c x : file_ok st g c x -> addressable c x.
Proof. intros Hf. split; [intros k Hk Hn; apply (db_home _ _ _ _ (fo_data _ _ _ _ Hf k Hk Hn))|intros Hn; apply (db_home _ _ _ _ (fo_indirect _ _ _ _ Hf Hn))]. Qed.
(** Inodes of the same block are apart. *)
Lemma inode_apart i j : 0 <= i -> 0 <= j -> i <> j -> i / 16 = j / 16 -> i mod 16 <> j mod 16.
Proof. intros Hi Hj Hne E. pose proof (Z.div_mod i 16 ltac:(lia)). pose proof (Z.div_mod j 16 ltac:(lia)). lia. Qed.

(** The inode table in order: block numbers do not wrap around. *)
Definition itable_ok : Prop := 0 < sb_inodestart g /\ sb_inodestart g + sb_ninodes g < 2 ^ 32.
Lemma iblock_small j : itable_ok -> 0 <= j < sb_ninodes g -> IBLOCK j g = j / 16 + sb_inodestart g /\ 0 <= j / 16.
Proof.
  intros [Hs Hn] Hj. assert (0 <= j / 16 <= j) as Hz by (split; [apply Z.div_pos; lia|apply Z.div_le_upper_bound; lia]).
  rw /IBLOCK. change IPB with 16. rw u32_small; lia.
Qed.
Lemma iblock_inj i j : itable_ok -> 0 <= i < sb_ninodes g -> 0 <= j < sb_ninodes g -> i <> j -> IBLOCK i g = IBLOCK j g -> i mod IPB <> j mod IPB.
Proof.
  intros Ht Hi Hj Hne. destruct (iblock_small i Ht Hi) as [-> _], (iblock_small j Ht Hj) as [-> _]. change IPB with 16. intros E. apply inode_apart; lia.
Qed.
(** The inode table is nobody's data. *)
Lemma itable_other c x j : itable_ok -> disk_ok st g c -> file_ok st g c x -> 0 <= j < sb_ninodes g -> other g c x (IBLOCK j g).
Proof.
  intros Ht Hd Hf Hj. destruct (do_inode _ _ _ Hd j Hj) as [Hr Hu]. destruct (iblock_small j Ht Hj) as [Ej Hj16]. destruct Ht as [Hst _].
  assert (forall a, a = 0 \/ data_block st g c a -> a <> IBLOCK j g) as Ha.
  { intros a [->|Ha]; [lia|]. apply not_eq_sym. by apply (db_inode _ _ _ _ Ha). }
  split; [lia|done|by intros y Hy; apply (do_apart _ _ _ Hd)| |].
  - intros k Hk. apply Ha. destruct (decide (faddr c x k = 0)); [by left|right]. by apply Hf.
  - apply Ha. destruct (decide (indirect x = 0)); [by left|right]. by apply Hf.
Qed.

Lemma written_of_winv s0 ip c x hs src off n s1 c1 x1 hs1 M1 : itable_ok -> good_file c x -> 0 <= off -> 0 <= n -> off + n <= 268 * 1024 ->
  winv me pid d st g s0 ip c x hs src off n s1 c1 x1 hs1 M1 ->
  let x' := set_i_size (Z.max (i_size x) (off + n)) x1 in
  file_written c x (kmem s0) src off n (iupdated g c1 x') x' /\ good_file (iupdated g c1 x') x'.
Proof.
  intros Hit [Hd Hf [Hsz Hbl] Hi] Ho Hn Hmax [_ Hev Hby _ _ Hblk] x'. pose proof (ev_inode _ _ _ _ _ _ Hev) as Ex.
  assert (inode_ok d g x') as Hok' by (rw /x' Ex; destruct Hi; by split). assert (i_inum x' = i_inum x) as En by by rw /x' Ex.
  assert (file_ok st g c1 x') as Hf1 by (destruct (ev_file _ _ _ _ _ _ Hev); by split).
  destruct (iupdated_ok d st g c1 x' (ev_disk _ _ _ _ _ _ Hev) Hf1 Hok') as (Hd2 & Hf2 & Hod & Hfa & Hfb); [cbn; lia|].
  assert (forall j, 0 <= j < sb_ninodes g -> c1 (IBLOCK j g) = c (IBLOCK j g)) as Htab.
  { intros j Hj. by apply (ev_other _ _ _ _ _ _ Hev), itable_other. }
  assert (Z.max (i_size x) (off + n) <= 268 * 1024) as Hsz' by lia.
  split; [split|split; [done|done|split; [cbn; lia|]|done]].
  - done.
  - rw /x' Ex. by destruct x.
  - intros i Hi'. rw (fbyte_ext c1 x') //. exact (Hby i Hi').
  - done.
  - intros b Hb Hne. rw /iupdated bupd_ne; [|by rw En]. by apply (ev_other _ _ _ _ _ _ Hev).
  - intros j Hj Hne. rw /iupdated En -(Htab j Hj). destruct (decide (IBLOCK j g = IBLOCK (i_inum x) g)) as [E|E]; [|by rw bupd_ne].
    rw E bupd_eq. apply get_put_dinode_ne; [apply (bm_typed _ _ _ (do_map _ _ _ (ev_disk _ _ _ _ _ _ Hev)))|apply ipb_range|apply ipb_range| |apply Hf1].
    apply not_eq_sym. apply iblock_inj; [done|done|apply Hi|done|done].
  - intros k Hk Hlt. rw Hfa. exact (Hblk k Hk Hlt).
Qed.

(** [writei] writes when the bytes start in the file and end within the largest file. *)
Abbreviation may_write x off n := (off <= i_size x /\ off + n <= 268 * 1024).
Lemma writei_run s0 c hs s ip x src off n N : sb s0 = g -> tx s0 c hs [] s -> icache s0 !! ip = Some x -> itable_ok -> good_file c x ->
  0 <= off < 2 ^ 31 -> 0 <= n <= 3072 -> clear_of src n -> (length hs < 20)%nat -> enough g N ->
  wpp (writei ip false src off n) N s (fun r s' =>
    if decide (may_write x off n) then r = n /\ exists c' x' hs' M', tx (with_inode ip x' (with_mem M' s0)) c' hs' [] s' /\
      file_written c x (kmem s0) src off n c' x' /\ good_file c' x' /\ (forall a, ~ (DATA <= a < DATA + 1024) -> ld8 M' a = ld8 (kmem s0) a) /\
      (length hs' <= length hs + 10)%nat
    else r = -1 /\ s' = s) no_space.
Proof.
  intros Eg Ht Hx Hit Hg Ho Hn Hcl Hl HN. pose proof Hg as [Hd Hf Hs Hi]. destruct (decide _) as [[Hle Hmax]|Hno].
  - eapply wpp_mono; [apply (writei_wp me pid d st g s0 c hs s ip x src off n N); done || lia| |done].
    intros r s' (-> & c1 & x1 & hs1 & M1 & s1 & Hw & Htx). split; [done|]. cbv zeta in Htx.
    destruct (written_of_winv s0 ip c x hs src off n s1 c1 x1 hs1 M1 Hit Hg ltac:(lia) ltac:(lia) Hmax Hw) as [Hwr Hgood].
    eexists _, _, _, M1. split_and!; [exact Htx|exact Hwr|exact Hgood|by apply (wi_mem _ _ _ _ _ _ _ _ _ _ _ _ _ _ _ _ _ _ Hw)|].
    pose proof (wi_count _ _ _ _ _ _ _ _ _ _ _ _ _ _ _ _ _ _ Hw). pose proof (budget_max off n ltac:(lia) ltac:(lia)).
    assert (pot x hs <= 2)%nat by (rw /pot; repeat case_match; lia). pose proof (length_logged hs1 (IBLOCK (i_inum x) g)). lia.
  - rw /writei. eapply wpp_run; [by apply (tx_geti me pid d st s0 c hs [] s ip x)|]. rw u32_small; [|lia].
    destruct (Z.ltb_spec (i_size x) off) as [|Hle]; cbn [orb]; [by apply wpp_wp, wp_ret|]. rw (proj2 (Z.ltb_ge (off + n) off)); [|lia].
    change (MAXFILE * BSIZE) with 274432. rw (proj2 (Z.ltb_lt 274432 (off + n))); [|lia]. by apply wpp_wp, wp_ret.
Qed.
Lemma good_evolves c x c' x' : good_file c x -> evolves st g c x c' x' -> good_file c' x'.
Proof.
  intros [Hd Hf [Hsz Hbl] Hi] Hev. pose proof (ev_inode _ _ _ _ _ _ Hev) as Ex. assert (i_size x' = i_size x) as Es by by rw Ex.
  split; [apply Hev|apply Hev|split|].
  - by rw Es.
  - intros k Hk Hlt. rw Es in Hlt. rw (ev_addr _ _ _ _ _ _ Hev); [by apply Hbl|lia|by apply Hbl].
  - rw Ex. destruct Hi. by split.
Qed.
(** C14: [bmap] keeps the disk and the file well formed: the block it returns is
    the file's block [k], in use and neither in the bitmap nor in the inode
    table, no block is in two places of the file, and every byte of the file
    and every other block in use is as it was, whether the block was there or
    it, and perhaps the indirect block, had to be added.  Beyond the largest
    file it panics. *)
Theorem bmap_keeps_file s0 c hs s ip x k N : sb s0 = g -> tx s0 c hs [] s -> icache s0 !! ip = Some x -> good_file c x -> 0 <= k ->
  (length hs < 25)%nat -> enough g N ->
  wpp (bmap ip k) N s (fun r s' => k < 268 /\ exists c' x' hs', tx (with_inode ip x' s0) c' hs' [] s' /\ good_file c' x' /\ r = faddr c' x' k /\ data_block st g c' r /\
      (forall i, 0 <= i < 268 * 1024 -> fbyte c' x' i = fbyte c x i) /\ forall b, other g c x b -> c' b = c b)
    (fun msg => msg = if decide (k < 268) then "balloc: out of blocks" else "bmap: out of range").
Proof.
  intros Eg Ht Hx Hg Hk Hl HN. pose proof Hg as [Hd Hf _ Hi]. destruct (decide (k < 268)) as [Hlt|Hge].
  - assert (pot x hs <= 2)%nat by (rw /pot; repeat case_match; lia).
    eapply wpp_mono; [apply (bmap_run me pid d st g s0 c hs s ip x k N); done || lia || apply Hi| |done].
    intros r s' (c' & x' & hs' & H1 & [Hev Ha Hr Hsame] & _). split; [done|]. exists c', x', hs'. pose proof (good_evolves _ _ _ _ Hg Hev) as Hg'.
    split_and!; [done|done|done| |by intros i Hi'; apply fbyte_ext|by intros b Hb; apply (ev_other _ _ _ _ _ _ Hev)].
    rw -Ha. apply Hg'; [lia|by rw Ha].
  - rw /bmap. change NDIRECT with 12. change NINDIRECT with 256. rw (proj2 (Z.ltb_ge k 12)); [|lia]. by rw (proj2 (Z.ltb_ge (k - 12) 256)); [|lia].
Qed.

Lemma tx_log_n s0 c hs s : tx s0 c hs [] s -> log_n (log s) = Z.of_nat (length hs).
Proof. intros (v & L & Hs & Ht & _). rw (cst_log_of _ _ _ _ _ _ _ _ Hs). apply (lc_n _ _ _ _ (tc_cfg _ _ _ _ Ht)). Qed.

(** C2: [writei] from kernel memory writes the file.  When the bytes start
    inside the file and end within the largest file it returns their number;
    the file then holds them at [off], every other byte is as before, the size
    is the larger of the old one and the end of the write, the inode on disk
    agrees with the one in memory, no other inode and no other block in use has
    changed, and the disk, its bitmap and the file are still well formed, also
    when blocks, the indirect one among them, had to be added.  Otherwise it
    returns -1 and changes nothing.  The only panic is that of [balloc] when
    there is no block left. *)
Theorem writei_exact s0 c hs s ip x src off n N : sb s0 = g -> tx s0 c hs [] s -> icache s0 !! ip = Some x -> itable_ok -> good_file c x ->
  0 <= off < 2 ^ 31 -> 0 <= n <= 3072 -> clear_of src n -> (length hs < 20)%nat -> enough g N ->
  wpp (writei ip false src off n) N s (fun r s' =>
    if decide (may_write x off n) then r = n /\ exists c' x' hs' M', tx (with_inode ip x' (with_mem M' s0)) c' hs' [] s' /\
      file_written c x (kmem s0) src off n c' x' /\ good_file c' x' /\ (forall a, ~ (DATA <= a < DATA + 1024) -> ld8 M' a = ld8 (kmem s0) a)
    else r = -1 /\ s' = s) no_space.
Proof.
  intros Eg Ht Hx Hit Hg Ho Hn Hcl Hl HN. eapply wpp_mono; [by apply (writei_run s0 c hs s ip x src off n N)| |done].
  intros r s'. destruct (decide _); [|done]. intros (-> & c' & x' & hs' & M' & H1 & H2 & H3 & H4 & _). split; [done|]. by exists c', x', hs', M'.
Qed.

(** C12: a write of at most 3072 bytes, the most [filewrite] gives [writei] in
    one operation, logs at most [MAXOPBLOCKS] blocks, wherever it starts and
    however many blocks of the file and of the bitmap it touches: what
    [begin_op] reserves is enough. *)
Theorem writei_fits_log s0 c hs s ip x src off n N : sb s0 = g -> tx s0 c hs [] s -> icache s0 !! ip = Some x -> itable_ok -> good_file c x ->
  0 <= off < 2 ^ 31 -> 0 <= n <= 3072 -> clear_of src n -> log_n (log s) < 20 -> enough g N ->
  wpp (writei ip false src off n) N s (fun _ s' => log_n (log s') <= log_n (log s) + MAXOPBLOCKS) no_space.
Proof.
  intros Eg Ht Hx Hit Hg Ho Hn Hcl Hl HN. pose proof (tx_log_n _ _ _ _ Ht) as El. rw El in Hl |- *.
  eapply wpp_mono; [apply (writei_run s0 c hs s ip x src off n N); done || lia| |done].
  intros r s'. destruct (decide _).
  - intros (-> & c' & x' & hs' & M' & H1 & _ & _ & _ & Hlen). rw (tx_log_n _ _ _ _ H1) /MAXOPBLOCKS. lia.
  - intros [_ ->]. rw El /MAXOPBLOCKS. lia.
Qed.

(** [readi] into kernel memory returns the number of bytes of the file from
    [off] on, at most [n], and puts exactly these bytes at [dst]; the disk and
    the log stay as they were. *)
Theorem readi_exact s0 c hs s ip x dst off n N : tx s0 c hs [] s -> icache s0 !! ip = Some x -> good_file c x ->
  0 <= off -> 0 <= n -> off + n < 2 ^ 31 -> clear_of dst n -> (length hs < 29)%nat -> (300 < N)%nat ->
  wp (readi ip false dst off n) N s (fun r s' => r = rcount x off n /\
    exists M, tx (with_mem M s0) c hs [] s' /\ filled c x off (kmem s0) dst (rcount x off n) M).
Proof.
  intros Ht Hx [Hd Hf Hs Hi] Ho Hn Hon Hcl Hhs HN. apply readi_wp; try done; [apply (bm_typed _ _ _ (do_map _ _ _ Hd))|apply Hi|apply Hf|by apply file_addressable].
Qed.

(** C15: what [writei] wrote [readi] reads: reading at the same offset into other
    memory gives the bytes that were written, for old and for new blocks. *)
Theorem write_read_roundtrip s0 c hs s ip x src dst off n N : sb s0 = g -> tx s0 c hs [] s -> icache s0 !! ip = Some x -> itable_ok -> good_file c x ->
  0 <= off -> 0 <= n <= 3072 -> may_write x off n -> clear_of src n -> clear_of dst n -> (length hs < 19)%nat -> enough g N ->
  wpp (writei ip false src off n;; readi ip false dst off n) N s (fun r s' => r = n /\ forall i, 0 <= i < n -> ld8 (kmem s') (dst + i) = ld8 (kmem s0) (src + i)) no_space.
Proof.
  intros Eg Ht Hx Hit Hg Ho Hn Hw Hcs Hcd Hl HN. pose proof HN as [HN1 _]. destruct (sz_range _ _ (gf_sized _ _ _ _ _ Hg)) as [Hs0 Hs1].
  eapply wpp_seq; [apply (writei_run s0 c hs s ip x src off n N); done || lia|]. intros r1 s1 Hr1. rw decide_True // in Hr1.
  destruct Hr1 as (-> & c' & x' & hs' & M' & H1 & Hwr & Hg' & _ & Hlen). pose proof (fw_size _ _ _ _ _ _ _ _ _ Hwr) as Esz.
  assert (rcount x' off n = n) as Er by (rw /rcount Esz (proj2 (Z.ltb_ge _ _)); lia). apply wpp_wp. destruct Hg' as [Hd' Hf' Hs' Hi'].
  eapply wp_mono.
  { apply (readi_wp me pid d st _ c' hs' s1 ip x' dst off n N H1); try done;
      [apply (bm_typed _ _ _ (do_map _ _ _ Hd'))|by eapply with_inode_at|apply Hi'|apply Hf'|by apply file_addressable|lia|lia|lia|lia]. }
  intros r s' (-> & M2 & H2 & Hfill & _). rw Er in Hfill |- *. split; [done|]. intros i Hi.
  assert (kmem s' = M2) as -> by by rw /kmem (tx_mach _ _ _ _ _ _ _ _ _ H2). rw Hfill // (fw_bytes _ _ _ _ _ _ _ _ _ Hwr); [|lia].
  rw decide_True; [|lia]. f_equal. lia.
Qed.

(** ** On disk *)

(** The inode on disk of the file [x], and the file it gives: [sz] bytes [f]. *)
Definition disk_inode c x : inode := of_dinode (get_dinode (c (IBLOCK (i_inum x) g)) (i_inum x mod IPB)) x.
Definition holds_file c x (sz : Z) (f : Z -> Z) : Prop := i_size (disk_inode c x) = sz /\ forall i, 0 <= i < sz -> fbyte c (disk_inode c x) i = f i.

(** A file depends on no block of the log. *)
Lemma fbyte_home c c' x i : good_file c x -> (forall b, ~ log_area st b -> c' b = c b) -> 0 <= i < 268 * 1024 -> fbyte c' x i = fbyte c x i.
Proof.
  intros [_ Hf _ _] Hc Hi. assert (forall b, data_block st g c b -> c' b = c b) as Hdb by (intros b Hb; apply Hc; apply (db_home _ _ _ _ Hb)).
  assert (forall j, faddr c' x j = faddr c x j) as Hfa.
  { intros j. rw /faddr. destruct (j <? 12); [done|]. destruct (Z.eqb_spec (indirect x) 0); [done|]. rw /ientry Hdb //. by apply Hf. }
  apply fbyte_ext; [done|]. intros j Hj. rw /fblock Hfa. destruct (Z.eqb_spec (faddr c x j) 0); [done|]. by apply Hdb, Hf.
Qed.
Lemma holds_of c c' x x' f : good_file c x' -> on_disk g c x' -> i_inum x' = i_inum x -> (forall b, ~ log_area st b -> c' b = c b) ->
  (forall i, 0 <= i < i_size x' -> fbyte c x' i = f i) -> holds_file c' x (i_size x') f.
Proof.
  intros Hg Hod En Hc Hf. pose proof (in_inum _ _ _ (gf_inode _ _ _ _ _ Hg)) as Hn. pose proof (sz_range _ _ (gf_sized _ _ _ _ _ Hg)) as Hsz.
  assert (disk_inode c' x = of_dinode (to_dinode x') x) as E.
  { rw /disk_inode -En Hc; [by rw Hod|]. apply (do_home _ _ _ (gf_disk _ _ _ _ _ Hg) _ Hn). }
  rw /holds_file E. split; [done|]. intros i Hi. rw -Hf // -(fbyte_home c c' x' i Hg Hc) //. lia.
Qed.

(** C1: a write to a file, as one operation, is atomic and durable.  When
    [begin_op; writei; end_op] returns, the disk holds the file with its new
    size and bytes; and if the machine stops after any number of the writes the
    disk received, recovery gives a disk that holds the old file or the new
    one. *)
Theorem file_write_atomic s ip x src off n N : let c0 := dblock (disk s) in
  fs_idle me pid d st s -> sb s = g -> icache s !! ip = Some x -> itable_ok -> good_file c0 x -> on_disk g c0 x ->
  0 <= off -> 0 <= n <= 3072 -> may_write x off n -> clear_of src n -> enough g N ->
  let old D := holds_file (dblock D) x (i_size x) (fbyte c0 x) in
  let new D := holds_file (dblock D) x (Z.max (i_size x) (off + n)) (fun i => if decide (off <= i < off + n) then ld8 (kmem s) (src + (i - off)) else fbyte c0 x i) in
  wpp (operation (writei ip false src off n)) N s (fun r s' => r = n /\ new (disk s') /\
    exists wr, disk s' = writes wr (disk s) /\ forall k s2, fs_boot me pid d st s2 -> disk s2 = writes (take k wr) (disk s) ->
      wp recover_from_log N s2 (fun _ s3 => old (disk s3) \/ new (disk s3))) no_space.
Proof.
  intros c0 Hi Eg Hx Hit Hg Hod Ho Hn Hw Hcl HN old new. pose proof HN as [HN1 _]. destruct (sz_range _ _ (gf_sized _ _ _ _ _ Hg)) as [Hs0 Hs1].
  eapply wpp_mono.
  { apply (operation_run me pid d st _ (fun r c => r = n /\ exists x', file_written c0 x (kmem s) src off n c x' /\ good_file c x') no_space s N Hi); [lia|].
    intros s1 [Hrest Ht]. assert (sb s1 = g) as Eg1 by (rw -Eg; exact (f_equal sb Hrest)). assert (icache s1 = icache s) as Ei1 by exact (f_equal icache Hrest).
    assert (kmem s1 = kmem s) as Em1 by exact (f_equal kmem Hrest).
    eapply wpp_mono; [apply (writei_run s1 c0 [] s1 ip x src off n N); rw ?Ei1; done || lia || (cbn; lia)| |done].
    intros r s2 Hr. rw decide_True // in Hr. destruct Hr as (-> & c' & x' & hs' & M' & H1 & H2 & H3 & _ & H5). rw Em1 in H2.
    exists c'. split; [|split; [done|by exists x']]. exists (with_inode ip x' (with_mem M' s1)), hs'. split_and!; [done..| |done]. cbn in H5. lia. }
  2: done.
  intros r s' (_ & c & (-> & x' & Hwr & Hg') & Hd & wr & ED & _ & Hcr). pose proof (fw_size _ _ _ _ _ _ _ _ _ Hwr) as Esz.
  assert (i_inum x' = i_inum x) as En by by rw (fw_rest _ _ _ _ _ _ _ _ _ Hwr).
  assert (forall D, (forall b, ~ log_area st b -> dblock D b = c b) -> new D) as Hnew.
  { intros D HD. rw /new -Esz. apply (holds_of c _ x x'); [done|apply Hwr|done|done|]. intros i Hi'. apply (fw_bytes _ _ _ _ _ _ _ _ _ Hwr). lia. }
  split_and!; [done|by apply Hnew|]. exists wr. split; [done|]. intros k s2 Hb E2. eapply wp_mono; [by apply (Hcr k)|].
  intros [] s3 (_ & [Ho3|Hn3]); [left|right; by apply Hnew]. apply (holds_of c0 _ x x); [done|done|done|done|done].
Qed.
End spec.

(** ** An instance *)

(** An empty file, inode 1, on the disk of 60 blocks. *)
Definition file0 : inode := Inode 1 1 1 (Sleeplock true 1) true T_FILE 0 0 1 0 (replicate 13 0).
Definition itable0 : list Z := put_dinode (replicate 1024 0) 1 (to_dinode file0).
Definition fsf : kstate := set_icache [file0] (set_disk {[ 45 := map0; 32 := itable0 ]} fsa).
Definition cf : Z -> list Z := dblock (disk fsf).

Lemma cf_map : cf 45 = map0.
Proof. reflexivity. Qed.
Lemma cf_used b : 0 <= b < 60 -> used_block sb0 cf b = (b <? 48).
Proof. intros Hb. rw -used0 // /used_block bblock0 //. Qed.
Lemma iblock0 i : 0 <= i < 200 -> 32 <= IBLOCK i sb0 <= 44.
Proof.
  intros Hi. rw /IBLOCK. change IPB with 16. change (sb_inodestart sb0) with 32. assert (0 <= i / 16 < 13) by (split; [apply Z.div_pos; lia|apply Z.div_lt_upper_bound; lia]).
  rw u32_small; lia.
Qed.
Lemma fsf_disk : disk_ok 2 sb0 cf.
Proof.
  split.
  - destruct bitmap0 as [Hg _ _ _]. split; [done| | |].
    + intros b. rw /cf /dblock /fsf /=. destruct (decide (b = 45)) as [->|]; [by vm_compute|]. rw lookup_insert_ne //.
      destruct (decide (b = 32)) as [->|]; [by vm_compute|by rw lookup_singleton_ne].
    + intros b Hb. by rw bblock0.
    + intros b Hb. rw cf_used //. intros H. zbool. apply home0. change (sb_size sb0) with 60 in Hb. lia.
  - split; [done|]. by rw cf_used.
  - intros i Hi. pose proof (iblock0 i Hi). change (sb_size sb0) with 60. split; [lia|]. rw cf_used; [|lia]. apply Z.ltb_lt. lia.
  - intros i Hi. pose proof (iblock0 i Hi). apply home0. lia.
  - intros i y Hi Hy. pose proof (iblock0 i Hi). rw bblock0 //. lia.
Qed.
Lemma file0_addr c k : in_file k -> faddr c file0 k = 0.
Proof.
  intros Hk. rw /faddr. destruct (Z.ltb_spec k 12); [|done]. cbn [file0 i_addrs]. apply list_lookup_total_correct. apply lookup_replicate_2. lia.
Qed.
Lemma fsf_file : good_file 1 2 sb0 cf file0.
Proof.
  split; [apply fsf_disk|split|split|].
  - done.
  - intros k Hk. by rw file0_addr.
  - done.
  - intros j k Hj Hk. by rw file0_addr.
  - intros k Hk. by rw file0_addr.
  - done.
  - intros k Hk Hlt. cbn in Hlt. lia.
  - by split.
Qed.
Lemma fsf_idle : fs_idle (dok := ram_ok) 0 1 1 2 fsf.
Proof.
  split; [| |exact (boot_good (replicate 1024 0) 1 _ ltac:(done))|done|done|done|done].
  - split; try done; [by eapply calm_ext; [exact calm_ready0| | |left]|]. eexists. apply boot_lru.
  - apply (fi_log _ _ _ _ _ fs0_idle).
Qed.
Lemma fsf_itable : itable_ok sb0.
Proof. by split. Qed.
Lemma enough0 : enough sb0 (Z.to_nat 9000).
Proof. by split. Qed.

#[local] Existing Instance small_layout.
#[local] Existing Instance ram_driver.
#[local] Existing Instance ram_ok.

(** The state inside an operation on [fsf]. *)
Definition fsw : kstate := set_log (set_log_outstanding 1 log0) fsf.
Lemma fsw_tx : tx 0 1 1 2 fsw cf [] [] fsw.
Proof.
  exists (vw fsw), (log fsw). split_and!; [| | |done|done|done|apply NoDup_nil_2|].
  - split; try done; [by eapply calm_ext; [exact calm_ready0| | |left]|]. eexists. apply boot_lru.
  - destruct (fi_log _ _ _ _ _ fs0_idle) as [[] ? ?]. by split.
  - apply txv_good. exact (fi_good _ _ _ _ _ fsf_idle).
  - intros b. apply (good_content_disk _ _ _ _ _ (fi_good _ _ _ _ _ fsf_idle)). apply not_elem_of_nil.
Qed.
(** Two pages of memory. *)
Definition page0 : Z := PHYSTOP - 64 * PGSIZE.
Definition page1 : Z := PHYSTOP - 63 * PGSIZE.
Lemma clear0 n : 0 <= n <= 3072 -> clear_of (lay := small_layout) page0 n /\ clear_of (lay := small_layout) page1 n.
Proof.
  intros Hn. rw /clear_of. change (kobj O_data) with (KERNBASE + (16 + kindex O_data) * PGSIZE). pose proof (kindex_range O_data).
  rw /page0 /page1 /PHYSTOP /KERNBASE /PGSIZE. lia.
Qed.

Lemma bmap_keeps_file_witness :
  wpp (bmap 0 12) (Z.to_nat 9000) fsw (fun r _ => r <> 0) (fun msg => msg = "balloc: out of blocks") /\
  wpp (bmap 0 268) (Z.to_nat 9000) fsw (fun _ _ => False) (fun msg => msg = "bmap: out of range").
Proof.
  split; (eapply wpp_mono; [apply (bmap_keeps_file 0 1 1 2 sb0 fsw cf [] fsw 0 file0 _ (Z.to_nat 9000) eq_refl fsw_tx eq_refl fsf_file); [lia|cbn; lia|apply enough0]| |done]).
  - intros r s' (_ & c' & x' & hs' & _ & _ & _ & H & _). pose proof (db_range _ _ _ _ H). lia.
  - intros r s' [H _]. lia.
Defined.
Lemma writei_exact_witness :
  wpp (writei 0 false page0 0 100) (Z.to_nat 9000) fsw (fun r _ => r = 100) (fun msg => msg = "balloc: out of blocks") /\
  wpp (writei 0 false page0 1 100) (Z.to_nat 9000) fsw (fun r _ => r = -1) (fun msg => msg = "balloc: out of blocks").
Proof.
  split; (eapply wpp_mono; [apply (writei_exact 0 1 1 2 sb0 fsw cf [] fsw 0 file0 page0 _ 100 (Z.to_nat 9000) eq_refl fsw_tx eq_refl fsf_itable fsf_file);
    [lia|lia|apply (clear0 100); lia|cbn; lia|apply enough0]| |done]); intros r s'; destruct (decide _) as [E|E].
  - by intros [-> _].
  - destruct E. cbn. lia.
  - cbn in E. lia.
  - by intros [-> _].
Defined.
Lemma writei_fits_log_witness :
  wpp (writei 0 false page0 0 3072) (Z.to_nat 9000) fsw (fun _ s' => log_n (log s') <= 10) (fun msg => msg = "balloc: out of blocks").
Proof.
  apply (writei_fits_log 0 1 1 2 sb0 fsw cf [] fsw 0 file0 page0 0 3072 (Z.to_nat 9000) eq_refl fsw_tx eq_refl fsf_itable fsf_file);
    [lia|lia|apply (clear0 3072); lia|done|apply enough0].
Defined.
Lemma write_read_roundtrip_witness :
  wpp (writei 0 false page0 0 2000;; readi 0 false page1 0 2000) (Z.to_nat 9000) fsw
    (fun r s' => r = 2000 /\ forall i, 0 <= i < 2000 -> ld8 (kmem s') (page1 + i) = ld8 (kmem fsw) (page0 + i)) (fun msg => msg = "balloc: out of blocks").
Proof.
  apply (write_read_roundtrip 0 1 1 2 sb0 fsw cf [] fsw 0 file0 page0 page1 0 2000 (Z.to_nat 9000) eq_refl fsw_tx eq_refl fsf_itable fsf_file);
    [lia|lia|cbn; lia|apply (clear0 2000); lia|apply (clear0 2000); lia|cbn; lia|apply enough0].
Defined.
Lemma file_write_atomic_witness :
  wpp (operation (writei 0 false page0 0 3000)) (Z.to_nat 9000) fsf
    (fun r s' => r = 3000 /\ i_size (disk_inode sb0 (dblock (disk s')) file0) = 3000) (fun msg => msg = "balloc: out of blocks").
Proof.
  eapply wpp_mono; [apply (file_write_atomic 0 1 1 2 sb0 fsf 0 file0 page0 0 3000 (Z.to_nat 9000) fsf_idle eq_refl eq_refl fsf_itable fsf_file);
    [by vm_compute|lia|lia|cbn; lia|apply (clear0 3000); lia|apply enough0]| |done].
  by intros r s' (-> & [-> _] & _).
Defined.

(** ** How much the log takes

    [begin_op] lets three operations run at once, for [LOGSIZE] = 30 blocks in
    all; the log on disk is 30 blocks with its header, so it takes 29. *)

(** A block logged as it is. *)
Definition relog `{!Layout} `{!DiskDriver} (d blk : Z) : K kstate unit := bp ← bread d blk; log_write bp;; brelse bp.

Section full.
Context {lay : Layout} {drv : DiskDriver} {dok : DriverOk}.
Context (me : nat) (pid : Z) (d st : Z).
Implicit Types (s : kstate) (c : Z -> list Z) (hs : list Z) (H : list (Z * nat)).
Abbreviation tx := (tx me pid d st).
Abbreviation fs_idle := (fs_idle me pid d st).

(** A further operation is let in while its reservation fits. *)
Lemma begin_again s0 c hs s N : tx s0 c hs [] s -> log_committing (log s0) = false -> log_outstanding (log s0) < 100 ->
  Z.of_nat (length hs) + (log_outstanding (log s0) + 1) * MAXOPBLOCKS <= LOGSIZE -> (0 < N)%nat ->
  wp begin_op N s (fun _ s' => tx (set_log (set_log_outstanding (log_outstanding (log s0) + 1) (log s0)) s0) c hs [] s').
Proof.
  intros (v & L & Hs & Ht & Hv & Ho & Ho2 & Hc2 & Hnd & Hc) Hcom Hfew Hroom HN. pose proof (lc_n _ _ _ _ (tc_cfg _ _ _ _ Ht)) as Hn.
  eapply wp_mono; [apply (begin_op_wp me pid (set_log L s0) s v (disk s0) (dtrace s0) N Hs); cbn [log set_log]; [congruence|lia|rw Hn Ho2; done|done]|].
  intros [] s' Hs'. cbn [log set_log] in Hs'. exists v, (set_log_outstanding (log_outstanding L + 1) L). split_and!; [exact Hs'| |done|cbn; lia|cbn; lia|done|done|done].
  destruct Ht as [[] ? ?]. by split.
Qed.
(** Logging one block more when there is room, and when there is none. *)
Lemma relog_wp s0 c hs s blk N : tx s0 c hs [] s -> home_ok st blk -> (length hs < 29)%nat -> (30 < N)%nat ->
  wp (relog d blk) N s (fun _ s' => tx s0 c (logged hs blk) [] s').
Proof.
  intros Ht Hh Hl HN. apply wp_bind. eapply wp_mono; [apply (tx_bread me pid d st s0 c hs [] s blk N Ht (not_elem_of_nil _) (proj1 Hh)); cbn; rw /NBUF; lia|]. intros b s1 H1.
  apply wp_bind. eapply wp_mono; [apply (tx_log_write me pid d st s0 c hs _ s1 blk b N H1); [by left|done|done|done]|]. intros [] s2 H2.
  eapply (tx_brelse me pid d st); [exact H2|]. left. apply (proj1 (elem_logged hs blk)).
Qed.
Lemma log_write_full s0 c hs H s b N : tx s0 c hs H s -> length hs = 29%nat -> wpp (log_write b) N s (fun _ _ => False) (fun msg => msg = "too big a transaction").
Proof.
  intros (v & L & Hs & Ht & _) Hl. pose proof (cst_log_of _ _ _ _ _ _ _ _ Hs) as EL. rw /log_write.
  eapply wpp_run; [apply (acquire_k s); eapply calm_lock, Hs|]. set (s1 := set_klk _ s).
  assert (forall A (f : logst -> A) n, getlog f n s1 = Ok (f L) s1) as Hgl by (intros; rw /getlog /gets -EL //).
  do 2 (eapply wpp_run; [apply Hgl|]). rw (tc_size _ _ _ _ Ht) (lc_n _ _ _ _ (tc_cfg _ _ _ _ Ht)) Hl. eapply wpp_run; [apply Hgl|]. done.
Qed.

Lemma length_logged_new hs blk : blk ∉ hs -> length (logged hs blk) = S (length hs).
Proof. intros Hn. rw /logged decide_False // length_app /=. lia. Qed.
Lemma relog_all s0 c s bs N : tx s0 c [] [] s -> Forall (home_ok st) bs -> NoDup bs -> (length bs <= 29)%nat -> (30 < N)%nat ->
  wp (for_each bs (relog d)) N s (fun _ s' => exists hs, tx s0 c hs [] s' /\ length hs = length bs).
Proof.
  intros Ht Hh Hnd Hl HN. apply (wp_for_each (fun pre s' => exists hs, tx s0 c hs [] s' /\ (forall h, h ∈ hs <-> h ∈ pre) /\ length hs = length pre)).
  - by exists [].
  - intros pre b rest s1 E (hs & H1 & Hin & Hlen). rw E in Hh, Hnd, Hl. rw length_app /= in Hl. apply Forall_app in Hh as [_ Hh]. apply Forall_cons in Hh as [Hb _].
    apply NoDup_app in Hnd as (_ & Hd & _). assert (b ∉ hs) as Hn by (rw Hin; intros Hp; apply (Hd b Hp); by left).
    eapply wp_mono; [apply (relog_wp s0 c hs s1 b N H1 Hb); lia|]. intros [] s2 H2. exists (logged hs b). split_and!; [done| |by rw length_logged_new // length_app Hlen /=; lia].
    intros h. destruct (elem_logged hs b) as [Hs Ho]. rw elem_of_app list_elem_of_singleton. destruct (decide (h = b)) as [->|Hne]; [by split; auto|].
    rw Ho // Hin. split; [by left|by intros [?|?]].
  - intros s1 (hs & H1 & _ & Hlen). by exists hs.
Qed.

(** C26: three operations at once are let in by [begin_op] when the log is empty,
    and each may log [MAXOPBLOCKS] = 10 blocks; but when together they log 30
    different blocks, the last [log_write] panics, the log taking 29. *)
Theorem three_operations_overflow s bs b N : fs_idle s -> Forall (home_ok st) (bs ++ [b]) -> NoDup (bs ++ [b]) -> Z.of_nat (length (bs ++ [b])) = 3 * MAXOPBLOCKS -> (30 < N)%nat ->
  wpp (begin_op;; begin_op;; begin_op;; for_each bs (relog d);; relog d b) N s (fun _ _ => False) (fun msg => msg = "too big a transaction").
Proof.
  intros Hi Hh Hnd Hl HN. rw length_app /= /MAXOPBLOCKS in Hl.
  eapply wpp_bind; [apply (begin_start me pid d st s N Hi); lia|]. intros [] s1 ([_ H1] & _ & _ & Ho & Hc).
  eapply wpp_bind; [apply (begin_again s1 _ [] s1 N H1 Hc); rw ?Ho /LOGSIZE /MAXOPBLOCKS /=; lia|]. intros [] s2 H2. rw Ho in H2.
  eapply wpp_bind; [apply (begin_again _ _ [] s2 N H2); [exact Hc|done|done|lia]|]. intros [] s3 H3.
  apply Forall_app in Hh as [Hh Hb]. apply Forall_cons in Hb as [Hb _]. apply NoDup_app in Hnd as (Hnd & _ & _).
  eapply wpp_bind; [apply (relog_all _ _ s3 bs N H3 Hh Hnd); lia|]. intros [] s4 (hs & H4 & Hlen).
  eapply wpp_bind; [apply (tx_bread me pid d st _ _ hs [] s4 b N H4 (not_elem_of_nil _) (proj1 Hb)); cbn; rw /NBUF; lia|]. intros bp s5 H5.
  eapply wpp_seq; [eapply (log_write_full _ _ hs _ s5 bp N H5); lia|]. done.
Qed.
End full.

Lemma three_operations_overflow_witness :
  wpp (begin_op;; begin_op;; begin_op;; for_each ((fun i => 40 + i) <$> rangeZ 29) (relog 1);; relog 1 69) 40%nat fs0
    (fun _ _ => False) (fun msg => msg = "too big a transaction").
Proof.
  apply (three_operations_overflow 0 1 1 2 fs0 _ 69 40%nat fs0_idle); [by apply homes0|apply (bool_decide_eq_true_1 (NoDup _)); by vm_compute|done|lia].
Defined.
