(* ===== verification/FsDir.v ===== *)
(** * Directories

    A directory is a file of 16-byte entries.  [dirlookup] and [dirlink] scan
    it with [readi]; the theorems see it as a map from names to inode numbers,
    of which they are the lookup and the insertion. *)

From S2P Require Import Prelude Mem KString Spinlock Machine Kalloc Printf Vm KState Proc ProcInv FsFmt FsFmtSpec Sleeplock Bio BioInv BioSpec Log LogInv LogSpec LogCrash LogTx Durability Fs FsBits FsTx FsOp FsAlloc FsInode FsFile FsWrite FsFileSpec.

#[local] Transparent lift.

(** ** Names *)

(** The name in an array: at most [n] characters, up to the first NUL. *)
Fixpoint upto (n : nat) (l : list Z) : list Z :=
  match n, l with
  | S n', x :: l' => if x =? 0 then [] else x :: upto n' l'
  | _, _ => []
  end.
(** An array of which [n] characters, or those up to a NUL, can be read. *)
Definition readable (n : nat) (l : list Z) : Prop := (n <= length l)%nat \/ 0 ∈ l.

Lemma readable_cons n x l : readable (S n) (x :: l) -> x <> 0 -> readable n l.
Proof. intros [H|H] Hx; [left; cbn in H; lia|right]. apply elem_of_cons in H as [?|?]; [by subst|done]. Qed.
Lemma readable_nil n : ~ readable (S n) [].
Proof. intros [H|H]; [cbn in H; lia|by apply not_elem_of_nil in H]. Qed.
(** [strncmp] compares names. *)
Lemma strncmp_names n p q : readable n p -> readable n q -> exists r, strncmp_loop n p q = Some r /\ (r = 0 <-> upto n p = upto n q).
Proof.
  revert p q. induction n as [|n IH]; intros p q Hp Hq; [by exists 0|].
  destruct p as [|x p]; [by apply readable_nil in Hp|]. destruct q as [|y q]; [by apply readable_nil in Hq|]. cbn [strncmp_loop upto].
  destruct (Z.eqb_spec x 0) as [->|Hx]; cbn [negb andb].
  { exists (0 - y). split; [done|]. destruct (Z.eqb_spec y 0) as [->|]; [done|]. split; [lia|done]. }
  destruct (Z.eqb_spec x y) as [->|Hxy]; cbn [andb].
  - rw (proj2 (Z.eqb_neq y 0)) //. destruct (IH p q) as (r & -> & Hr); [by eapply readable_cons..|]. exists r. split; [done|]. rw Hr. split; [by intros ->|by intros [=]].
  - exists (x - y). split; [done|]. split; [lia|]. destruct (Z.eqb_spec y 0); [done|]. by intros [=].
Qed.
(** [strncpy] copies them. *)
Lemma strncpy_names n t : readable n t -> exists w, strncpy_loop n t = Some w /\ length w = n /\ upto n w = upto n t /\
  forall P : Z -> Prop, P 0 -> Forall P t -> Forall P w.
Proof.
  revert t. induction n as [|n IH]; intros t Ht; [by exists []|]. destruct t as [|x t]; [by apply readable_nil in Ht|]. cbn [strncpy_loop upto].
  destruct (Z.eqb_spec x 0) as [->|Hx].
  { exists (replicate (S n) 0). split_and!; [done|by rw length_replicate|done|]. intros P HP _. by apply Forall_replicate. }
  destruct (IH t) as (w & Ew & Hl & Hu & HP); [by eapply readable_cons|]. exists (x :: w). rw Ew.
  split_and!; [by destruct x|cbn; by rw Hl|by rw /= (proj2 (Z.eqb_neq x 0)) // Hu|].
  intros P H0 [H1 H2]%Forall_cons. apply Forall_cons. split; [done|by apply HP].
Qed.

(** ** The inode cache *)

Definition hit (dev inum : Z) (y : inode) : bool := (0 <? i_ref y) && (i_dev y =? dev) && (i_inum y =? inum).
(** A cache of the right size with room in its counts. *)
Record icache_ok (I : list inode) : Prop := {
  ic_len : length I = NINODE;
  ic_refs : Forall (fun y => 0 <= i_ref y < 2 ^ 31 - 1) I;
}.
(** What [iget] makes of the cache: the inode's entry with one more reference,
    or, if it has none, an unused one given to it. *)
Definition igot (I : list inode) (dev inum : Z) (ip : nat) (y' : inode) : Prop := exists y, I !! ip = Some y /\
  (hit dev inum y = true /\ y' = set_i_ref (i_ref y + 1) y \/
   (forall j z, I !! j = Some z -> hit dev inum z = false) /\ i_ref y = 0 /\
     y' = set_i_valid false (set_i_ref 1 (set_i_inum inum (set_i_dev dev y)))).
Lemma igot_names I dev inum ip y' : icache_ok I -> igot I dev inum ip y' -> i_dev y' = dev /\ i_inum y' = inum /\ 0 < i_ref y'.
Proof.
  intros [_ Hr] (y & Hy & [(Hh & ->)|(_ & _ & ->)]); [|done]. rw /hit in Hh. zbool.
  apply (Forall_lookup_1 _ _ _ _ Hr) in Hy. cbn. lia.
Qed.

(** ** Directories as maps *)

(** The first of [n] numbers from [k] on that satisfies [f]. *)
Fixpoint first_from (f : Z -> bool) (n : nat) (k : Z) : option Z :=
  match n with
  | O => None
  | S n' => if f k then Some k else first_from f n' (k + 1)
  end.
Lemma first_from_Some f n k j : first_from f n k = Some j <-> k <= j < k + Z.of_nat n /\ f j = true /\ forall i, k <= i < j -> f i = false.
Proof.
  revert k. induction n as [|n IH]; intros k; cbn [first_from]; [split; [done|lia]|]. destruct (f k) eqn:E.
  - split; [intros [= <-]; split_and!; [lia|lia|done|intros; lia]|]. intros (Hj & Hf & Hno). f_equal.
    destruct (decide (k = j)); [done|]. rw (Hno k) in E; [done|lia].
  - rw IH. split; intros (Hj & Hf & Hno); (split_and!; [| |done|]).
    1-2: lia.
    + intros i Hi. destruct (decide (i = k)) as [->|]; [done|]. apply Hno. lia.
    + destruct (decide (j = k)) as [->|]; [congruence|lia].
    + lia.
    + intros i Hi. apply Hno. lia.
Qed.
Lemma first_from_None f n k : first_from f n k = None <-> forall i, k <= i < k + Z.of_nat n -> f i = false.
Proof.
  revert k. induction n as [|n IH]; intros k; cbn [first_from]; [split; [lia|done]|]. destruct (f k) eqn:E.
  - split; [done|]. intros Hno. rw Hno in E; [done|lia].
  - rw IH. split; intros Hno i Hi; [|apply Hno; lia]. destruct (decide (i = k)) as [->|]; [done|]. apply Hno. lia.
Qed.

(** A directory of [n] entries [e]: where a name is, which inode it names, and
    the entry a new name goes to. *)
Definition named (nm : list Z) (de : dirent) : bool := negb (de_inum de =? 0) && bool_decide (upto 14 nm = upto 14 (de_name de)).
Definition dfind (e : Z -> dirent) (n : nat) (nm : list Z) : option Z := first_from (fun k => named nm (e k)) n 0.
Definition dget (e : Z -> dirent) (n : nat) (nm : list Z) : option Z := (fun k => de_inum (e k)) <$> dfind e n nm.
Definition slot (e : Z -> dirent) (n : nat) : Z := default (Z.of_nat n) (first_from (fun k => de_inum (e k) =? 0) n 0).
Lemma slot_range e n : 0 <= slot e n <= Z.of_nat n /\ (slot e n < Z.of_nat n -> de_inum (e (slot e n)) = 0) /\ forall j, 0 <= j < slot e n -> de_inum (e j) <> 0.
Proof.
  rw /slot. destruct (first_from _ n 0) as [k|] eqn:E; cbn [from_option id].
  - apply first_from_Some in E as (Hk & Hf & Hno). zbool. split_and!; [lia|lia|done|]. intros j Hj. by apply Z.eqb_neq, Hno.
  - rw first_from_None in E. split_and!; [lia|lia|lia|]. intros j Hj. apply Z.eqb_neq, E. lia.
Qed.

(** An entry put into the slot is an insertion into the map. *)
Lemma dget_insert e n nm inum w e' : dfind e n nm = None -> inum <> 0 -> upto 14 w = upto 14 nm ->
  e' (slot e n) = Dirent inum w -> (forall j, 0 <= j < Z.of_nat n -> j <> slot e n -> e' j = e j) ->
  forall nm', dget e' (Nat.max n (Z.to_nat (slot e n + 1))) nm' = if decide (upto 14 nm' = upto 14 nm) then Some inum else dget e n nm'.
Proof.
  intros Hno Hi Hw Hk Hsame nm'. destruct (slot_range e n) as (Hr & Hfree & _). set (k := slot e n) in *. rw /dfind first_from_None in Hno. rw /dget.
  assert (named nm' (e' k) = bool_decide (upto 14 nm' = upto 14 nm)) as Hnk by (rw Hk /named; cbn [de_inum de_name]; by rw (proj2 (Z.eqb_neq _ _) Hi) Hw).
  destruct (decide _) as [E|E].
  - assert (dfind e' (Nat.max n (Z.to_nat (k + 1))) nm' = Some k) as ->; [|by rw /= Hk]. apply first_from_Some. rw Hnk bool_decide_eq_true_2 //.
    split_and!; [lia|lia|done|]. intros i Hi'. rw Hsame; [|lia..]. rw -(Hno i); [|lia]. by rw /named E.
  - rw bool_decide_eq_false_2 // in Hnk. assert (forall j, 0 <= j < Z.of_nat n -> named nm' (e' j) = named nm' (e j)) as Hn.
    { intros j Hj. destruct (decide (j = k)) as [->|]; [|by rw Hsame]. rw Hnk /named Hfree //. lia. }
    destruct (dfind e n nm') as [j|] eqn:Ej; rw /dfind in Ej |- *.
    + apply first_from_Some in Ej as (Hj & Hf & Hb). rw (proj2 (first_from_Some _ _ 0 j)) /=.
      * rw Hsame; [done|lia|]. intros ->. rw -Hn // Hnk in Hf; done.
      * split_and!; [lia|lia|by rw Hn; [|lia]|]. intros i Hi'. rw Hn; [|lia]. by apply Hb.
    + rw first_from_None in Ej. rw (proj2 (first_from_None _ _ 0)) //. intros i Hi'. destruct (decide (i = k)) as [->|]; [done|]. rw Hn; [|lia]. apply Ej. lia.
Qed.

(** [n] bytes of a file from [off] on, and the entries of a directory. *)
Definition fbytes (c : Z -> list Z) (x : inode) (off : Z) (n : nat) : list Z := (fun i => fbyte c x (off + i)) <$> rangeZ n.
Definition dent (c : Z -> list Z) (x : inode) (k : Z) : dirent := get_dirent (fbytes c x (16 * k) 16).
Definition dcount (x : inode) : nat := Z.to_nat (i_size x / 16).
Record dir_ok (x : inode) : Prop := {
  dk_type : i_type x = T_DIR;
  dk_size : i_size x mod 16 = 0;
}.
Lemma length_fbytes c x off n : length (fbytes c x off n) = n.
Proof. by rw /fbytes length_fmap length_rangeZ. Qed.
Lemma fbytes_peek c x off n M a : (forall i, 0 <= i < Z.of_nat n -> fbyte c x (off + i) = ld8 M (a + i)) -> fbytes c x off n = peek M a n.
Proof.
  intros Hi. apply list_eq_same_length with n; [by rw length_peek|by rw length_fbytes|]. intros i u v Hlt. rw peek_lookup // /fbytes list_lookup_fmap rangeZ_lookup //.
  cbn. intros [= <-] [= <-]. apply Hi. lia.
Qed.

(** The bytes of an entry, and the entry of the bytes. *)
Lemma length_dirent de : length (de_name de) = 14%nat -> length (dirent_bytes de) = 16%nat.
Proof. intros Hl. by rw /dirent_bytes length_app length_le_bytes Hl. Qed.
Lemma dirent_bytes_range de : Forall (fun b => 0 <= b < 256) (de_name de) -> Forall (fun b => 0 <= b < 256) (dirent_bytes de).
Proof.
  intros Hn. apply Forall_app. split; [|done]. cbn [le_bytes]. repeat (apply Forall_cons; split; [rw /u8; by apply Z.mod_pos_bound|]). by apply Forall_nil.
Qed.
Lemma get_dirent_bytes inum w : 0 <= inum < 2 ^ 16 -> length w = 14%nat -> get_dirent (dirent_bytes (Dirent inum w)) = Dirent inum w.
Proof.
  intros Hi Hw. rw /get_dirent /dirent_bytes. cbn [de_inum de_name]. f_equal.
  - rw ldb_app_l ?length_le_bytes //. rw ldb_le_bytes. by apply Z.mod_small.
  - rw drop_app_length' ?length_le_bytes //. by rw take_ge ?Hw.
Qed.

Section dir.
Context {lay : Layout} {drv : DiskDriver} {dok : DriverOk}.
Context (me : nat) (pid : Z) (d st : Z).
Implicit Types (s : kstate) (c : Z -> list Z) (hs : list Z) (H : list (Z * nat)) (x y : inode) (I : list inode).
Abbreviation tx := (tx me pid d st).
Abbreviation DATA := (kobj O_data).
Abbreviation DE := (kobj O_de).

Lemma tx_calm s0 c hs H s : tx s0 c hs H s -> calm me pid s.
Proof. intros (v & L & Hs & _). apply Hs. Qed.

(** The scan of the cache, after the entries [pre]. *)
Definition iscanned I dev inum s (pre : list nat) (acc : option nat + nat) (s' : kstate) : Prop :=
  let sl := set_klk (lk_acq L_icache (klk s)) s in
  match acc with
  | inl e => s' = sl /\ (forall j y, (j < length pre)%nat -> I !! j = Some y -> hit dev inum y = false) /\
      match e with
      | Some i => exists y, I !! i = Some y /\ i_ref y = 0
      | None => forall j y, (j < length pre)%nat -> I !! j = Some y -> i_ref y <> 0
      end
  | inr i => exists y, I !! i = Some y /\ hit dev inum y = true /\ s' = with_inode i (set_i_ref (i_ref y + 1) y) s
  end.

(** One entry looked at. *)
Lemma iscan_step s0 s dev inum pre i rest acc s1 n : icache s = icache s0 -> icache_ok (icache s0) -> can_lock L_icache s ->
  seq 0 NINODE = pre ++ i :: rest -> iscanned (icache s0) dev inum s pre acc s1 ->
  wp (match acc with
      | inr _ => mret acc
      | inl empty =>
        ref ← geti i i_ref; dv ← geti i i_dev; nm ← geti i i_inum;
        if (0 <? ref) && (dv =? dev) && (nm =? inum) then
          seti i (set_i_ref (i32 (ref + 1)));; release L_icache;; mret (inr i)
        else mret (inl (match empty with None => if ref =? 0 then Some i else None | e => e end))
      end) n s1 (fun acc' s2 => iscanned (icache s0) dev inum s (pre ++ [i]) acc' s2).
Proof.
  intros EI [Hlen Href] Hcan Epre Hacc. destruct acc as [e|i']; [|by apply wp_ret]. destruct Hacc as (-> & Hno & He).
  assert (i = length pre /\ (i < NINODE)%nat) as [-> Hi].
  { assert (seq 0 NINODE !! length pre = Some i) as Hs by (rw Epre; by apply list_lookup_middle). apply lookup_seq in Hs. lia. }
  destruct (lookup_lt_is_Some_2 (icache s0) (length pre)) as [y Hy]; [by rw Hlen|]. pose proof (Forall_lookup_1 _ _ _ _ Href Hy) as Hr. cbn beta in Hr.
  set (sl := set_klk _ s). assert (icache sl !! length pre = Some y) as Hyl by by rw -Hy -EI.
  apply wp_bind. rw /wp (geti_run _ y) //. apply wp_bind. rw /wp (geti_run _ y) //. apply wp_bind. rw /wp (geti_run _ y) //.
  rw -/(hit dev inum y). destruct (hit dev inum y) eqn:Eh.
  - apply wp_bind. rw /wp (seti_run _ y) //. apply wp_bind. rw i32_small; [|lia].
    rw /wp (release_acquired s) //. exists y. split_and!; [done|done|]. rw /with_inode. by destruct s as [[]].
  - apply wp_ret. rw /iscanned length_app. cbn [length]. split_and!; [done| |].
    + intros j z Hj Hz. destruct (decide (j = length pre)) as [->|]; [by simplify_eq|]. apply (Hno j); [lia|done].
    + destruct e as [e|]; [done|]. destruct (Z.eqb_spec (i_ref y) 0); [by exists y|].
      intros j z Hj Hz. destruct (decide (j = length pre)) as [->|]; [by simplify_eq|]. apply (He j); [lia|done].
Qed.
(** [iget] inside an operation. *)
Lemma iget_wpp s0 c hs H s inum n : tx s0 c hs H s -> icache_ok (icache s0) ->
  wpp (iget d inum) n s (fun ip s' => exists y, igot (icache s0) d inum ip y /\ tx (with_inode ip y s0) c hs H s')
    (fun msg => msg = "iget: no inodes" /\ forall j y, icache s0 !! j = Some y -> i_ref y <> 0).
Proof.
  intros Ht Hok. pose proof Hok as [Hlen Href]. pose proof (tx_icache _ _ _ _ _ _ _ _ _ Ht) as EI.
  assert (can_lock L_icache s) as Hcan by (eapply calm_lock, tx_calm, Ht). rw /iget. eapply wpp_run; [by apply acquire_k|].
  eapply wpp_bind.
  { apply (wp_for_fold (iscanned (icache s0) d inum s)); [split_and!; [done|intros j y Hj; cbn in Hj; lia..]| |by intros b s' Hb; exact Hb].
    intros pre i rest acc s' Epre Hacc. by apply (iscan_step s0 s d inum pre i rest acc s' n). }
  assert (forall j y, icache s0 !! j = Some y -> (j < length (seq 0 NINODE))%nat) as Hin by (intros j y Hy; apply lookup_lt_Some in Hy; rw length_seq; lia).
  assert (forall i y, tx (with_inode i y s0) c hs H (with_inode i y s)) as Htx by (intros i y; rw /with_inode EI; by apply tx_inodes).
  intros acc s' Hacc. destruct acc as [[i|]|i].
  - destruct Hacc as (-> & Hno & y & Hy & Hr). set (sl := set_klk _ s). assert (icache sl !! i = Some y) as Hyl by by rw -Hy -EI.
    do 4 (eapply wpp_run; [apply (seti_run i); first [exact Hyl | cbn; by rw list_lookup_insert_eq; [|rw ?length_insert EI Hlen -Hlen; by eapply lookup_lt_Some]]|]).
    eapply wpp_run; [by apply (release_acquired s)|]. apply wpp_wp, wp_ret.
    eexists. split; [exists y; split; [done|right; split_and!; [|done|reflexivity]]|].
    + intros j z Hz. by apply (Hno j); [eapply Hin|].
    + match goal with |- tx (with_inode _ ?z _) _ _ _ ?t => replace t with (with_inode i z s); [done|] end. rw /with_inode.
      destruct s as [[]]. cbn. by rw !list_insert_insert_eq.
  - destruct Hacc as (-> & Hno & Hr). split; [done|]. intros j y Hy. apply (Hr j); [by eapply Hin|done].
  - destruct Hacc as (y & Hy & Hh & ->). apply wpp_wp, wp_ret. exists (set_i_ref (i_ref y + 1) y). split; [|done]. exists y. split; [done|by left].
Qed.

(** ** Reading entries *)

Context (g : superblock).
Abbreviation good_file := (good_file d st g).
(** The memory [M] up to the entry and the block being copied. *)
Definition scratch_same (M0 M : memory) : Prop := forall a, ~ (DE <= a < DE + 16) -> ~ (DATA <= a < DATA + 1024) -> ld8 M a = ld8 M0 a.
Lemma scratch_trans M0 M1 M2 : scratch_same M0 M1 -> scratch_same M1 M2 -> scratch_same M0 M2.
Proof. intros H1 H2 a Ha Hd. by rw H2 // H1. Qed.
Lemma de_clear : clear_of DE 16.
Proof.
  pose proof (kobj_out O_de) as [H0 _]. pose proof (kobj_apart O_de O_data ltac:(done)) as Ha. pose proof (kobj_hi O_de) as Hh.
  change MAXVA with (2 ^ 38) in Hh. rw /PGSIZE in Ha, Hh. rw /clear_of. lia.
Qed.
Lemma read_dirent_wp s0 c hs s dp x k msg N : tx s0 c hs [] s -> icache s0 !! dp = Some x -> good_file c x -> 0 <= k < Z.of_nat (dcount x) -> (length hs < 29)%nat -> (300 < N)%nat ->
  wp (read_dirent dp (16 * k) msg) N s (fun de s' => de = dent c x k /\ exists M, tx (with_mem M s0) c hs [] s' /\ scratch_same (kmem s0) M).
Proof.
  intros Ht Hx [Hd Hf Hs Hi] Hk Hl HN. pose proof (sz_range _ _ Hs) as Hsz. rw /dcount in Hk. assert (16 * k + 16 <= i_size x) as Hlt by (pose proof (Z.mul_div_le (i_size x) 16); lia).
  apply wp_bind. change DIRENT with 16. eapply wp_mono.
  { apply (readi_wp me pid d st s0 c hs s dp x DE (16 * k) 16 N Ht); try done; [apply (bm_typed _ _ _ (do_map _ _ _ Hd))|apply Hi|apply Hf|by eapply file_addressable|lia|lia|apply de_clear]. }
  assert (rcount x (16 * k) 16 = 16) as Er by (rw /rcount (proj2 (Z.ltb_ge _ _)); lia). rw Er.
  intros r s1 (-> & M & H1 & Hin & Hout). cbn [Z.eqb Pos.eqb negb]. apply wp_bind. rw /wp peek_data_run. split.
  - rw /dent (fbytes_peek c x (16 * k) 16 M DE); [|intros i Hi'; by rw Hin]. by rw /kmem (tx_mach _ _ _ _ _ _ _ _ _ H1).
  - exists M. split; [done|]. exact Hout.
Qed.

(** ** [dirlookup] *)

Abbreviation dlookup c x nm := (dfind (dent c x) (dcount x) nm).
Abbreviation no_inode I := (fun msg : string => msg = "iget: no inodes" /\ forall j y, I !! j = Some y -> i_ref y <> 0).
(** What [dirlookup] returns, and what it leaves. *)
Definition looked_up s0 c hs x nm (r : option (nat * Z)) s' : Prop := exists M, scratch_same (kmem s0) M /\
  match r with
  | None => dlookup c x nm = None /\ tx (with_mem M s0) c hs [] s'
  | Some (ip, off) => exists k y, dlookup c x nm = Some k /\ off = 16 * k /\ igot (icache s0) d (de_inum (dent c x k)) ip y /\
      tx (with_inode ip y (with_mem M s0)) c hs [] s'
  end.
Lemma length_dent_name c x k : length (de_name (dent c x k)) = 14%nat.
Proof. rw /dent /get_dirent. cbn [de_name]. by rw length_take length_drop length_fbytes. Qed.
Lemma namecmp_dent nm c x k : readable 14 nm -> exists r, namecmp nm (de_name (dent c x k)) = Some r /\ (r = 0 <-> upto 14 nm = upto 14 (de_name (dent c x k))).
Proof. intros Hn. apply (strncmp_names 14); [done|]. left. by rw length_dent_name. Qed.

Lemma dirlookup_wpp s0 c hs s dp x nm N : tx s0 c hs [] s -> icache_ok (icache s0) -> icache s0 !! dp = Some x -> good_file c x -> dir_ok x -> readable 14 nm ->
  (length hs < 29)%nat -> (300 < N)%nat -> (dcount x < N)%nat ->
  wpp (dirlookup dp nm) N s (fun r s' => looked_up s0 c hs x nm r s') (fun msg => dlookup c x nm <> None /\ no_inode (icache s0) msg).
Proof.
  intros Ht Hok Hx Hg [Hty Hmod] Hnm Hl HN Hcnt. pose proof (sz_range _ _ (gf_sized _ _ _ _ _ Hg)) as Hsz.
  assert (i_size x = 16 * Z.of_nat (dcount x)) as Esz.
  { rw /dcount Z2Nat.id; [|apply Z.div_pos; lia]. pose proof (Z.div_mod (i_size x) 16 ltac:(lia)). lia. }
  rw /dirlookup. eapply wpp_run; [by apply (tx_geti me pid d st s0 c hs [] s dp x)|]. rw Hty. cbn [Z.eqb Pos.eqb negb T_DIR].
  apply (wpp_loop (fun off s' => exists k M, off = 16 * k /\ 0 <= k <= Z.of_nat (dcount x) /\ (forall j, 0 <= j < k -> named nm (dent c x j) = false) /\
      scratch_same (kmem s0) M /\ tx (with_mem M s0) c hs [] s') (fun off => (dcount x - Z.to_nat (off / 16))%nat)).
  { exists 0, (kmem s0). split_and!; [done|lia|lia|intros; lia|done|]. by rw with_mem_id. }
  { cbn; lia. }
  intros off s1 (k & M & -> & Hk & Hno & HM & H1). eapply wpp_run; [by apply (tx_geti me pid d st (with_mem M s0) c hs [] s1 dp x)|].
  rw Esz. destruct (Z.ltb_spec (16 * k) (16 * Z.of_nat (dcount x))) as [Hlt|Hge]; cbn [negb].
  2:{ apply wpp_wp, wp_ret. exists M. split; [done|]. split; [|done]. apply first_from_None. intros i Hi. apply Hno. lia. }
  eapply wpp_bind; [apply (read_dirent_wp (with_mem M s0) c hs s1 dp x k); done || lia|]. intros de s2 (-> & M2 & H2 & HM2).
  rw with_mem_mem in H2. assert (scratch_same (kmem s0) M2) as HM02 by (eapply scratch_trans; [exact HM|exact HM2]).
  assert (forall j, named nm (dent c x k) = false -> 0 <= j < k + 1 -> named nm (dent c x j) = false) as Hnext.
  { intros j Hkk Hj. destruct (decide (j = k)) as [->|]; [done|]. apply Hno. lia. }
  assert (named nm (dent c x k) = false -> let off := u32 (16 * k + DIRENT) in (exists k' M', off = 16 * k' /\ 0 <= k' <= Z.of_nat (dcount x) /\
    (forall j, 0 <= j < k' -> named nm (dent c x j) = false) /\ scratch_same (kmem s0) M' /\ tx (with_mem M' s0) c hs [] s2) /\
    (dcount x - Z.to_nat (off / 16) < dcount x - Z.to_nat (16 * k / 16))%nat) as Hgo.
  { intros Hkk. cbv zeta. change DIRENT with 16. rw u32_small; [|lia]. replace (16 * k + 16) with ((k + 1) * 16) by lia. replace (16 * k) with (k * 16) by lia. rw !Z.div_mul //.
    split; [exists (k + 1), M2; split_and!; [lia|lia|lia|by intros j; apply Hnext|done|done]|lia]. }
  destruct (Z.eqb_spec (de_inum (dent c x k)) 0) as [E0|E0].
  { apply wpp_wp, wp_ret, Hgo. by rw /named E0. }
  destruct (namecmp_dent nm c x k Hnm) as (r & -> & Hr). eapply wpp_run; [done|]. destruct (Z.eqb_spec r 0) as [->|Hr0].
  - eapply wpp_run; [by apply (tx_geti me pid d st (with_mem M2 s0) c hs [] s2 dp x)|]. rw (in_dev _ _ _ (gf_inode _ _ _ _ _ Hg)).
    assert (dlookup c x nm = Some k) as Ek.
    { apply first_from_Some. split_and!; [lia|lia| |intros i Hi; apply Hno; lia]. rw /named (proj2 (Z.eqb_neq _ _) E0) bool_decide_eq_true_2 //. tauto. }
    eapply wpp_seq; [eapply wpp_mono; [by apply (iget_wpp (with_mem M2 s0))|by intros a b Hab; exact Hab|by intros msg Hm; rw Ek]|].
    intros ip s3 (y & Hy & H3). apply wpp_wp, wp_ret. exists M2. split; [done|]. by exists k, y.
  - apply wpp_wp, wp_ret, Hgo. rw /named bool_decide_eq_false_2; [by rw andb_false_r|tauto].
Qed.

(** C18: [dirlookup] looks a name up.  It returns nothing exactly when no entry
    in use has the name; otherwise the offset of the first such entry and the
    inode-cache entry of the inode it names, with one more reference: the one
    that was there, or an unused one given to it.  Disk, log and the rest of
    the kernel are as before.  It panics only when the name is found and every
    entry of the cache is in use. *)
Theorem dirlookup_finds s0 c hs s dp x nm N : tx s0 c hs [] s -> icache_ok (icache s0) -> icache s0 !! dp = Some x -> good_file c x -> dir_ok x -> readable 14 nm ->
  (length hs < 29)%nat -> (300 < N)%nat -> (dcount x < N)%nat ->
  let found := dget (dent c x) (dcount x) nm in
  wpp (dirlookup dp nm) N s (fun r s' => exists M, scratch_same (kmem s0) M /\
      match r with
      | None => found = None /\ tx (with_mem M s0) c hs [] s'
      | Some (ip, off) => exists k y, off = 16 * k /\ named nm (dent c x k) = true /\ found = Some (i_inum y) /\ i_dev y = d /\ 0 < i_ref y /\
          igot (icache s0) d (i_inum y) ip y /\ tx (with_inode ip y (with_mem M s0)) c hs [] s'
      end)
    (fun msg => found <> None /\ no_inode (icache s0) msg).
Proof.
  intros Ht Hok Hx Hg Hdir Hnm Hl HN Hcnt found. eapply wpp_mono; [by apply (dirlookup_wpp s0 c hs s dp x nm N)| |].
  - intros [[ip off]|] s' (M & HM & Hr); exists M; (split; [done|]).
    + destruct Hr as (k & y & Hf & -> & Hy & H'). destruct (igot_names _ _ _ _ _ Hok Hy) as (Ed & En & Hr). exists k, y.
      pose proof Hf as (_ & Hn & _)%first_from_Some. split_and!; [done|done|by rw /found /dget Hf En|done|done|by rw En|done].
    + destruct Hr as [Hf H']. by rw /found /dget Hf.
  - intros msg [Hf Hm]. split; [|done]. rw /found /dget. by destruct (dlookup c x nm).
Qed.

(** ** [dirlink] *)

Abbreviation free_slot c x := (slot (dent c x) (dcount x)).
Lemma slot_is e n k : 0 <= k <= Z.of_nat n -> (forall j, 0 <= j < k -> de_inum (e j) <> 0) -> (k < Z.of_nat n -> de_inum (e k) = 0) -> slot e n = k.
Proof.
  intros Hk Hno Hf. destruct (slot_range e n) as (Hr & H1 & H2). destruct (Z.lt_trichotomy (slot e n) k) as [Hlt|[?|Hgt]]; [|done|].
  - exfalso. apply (Hno (slot e n)); [lia|]. apply H1. lia.
  - exfalso. apply (H2 k); [lia|]. apply Hf. lia.
Qed.
Lemma dirlink_scan s0 c hs s dp x N : tx s0 c hs [] s -> icache s0 !! dp = Some x -> good_file c x -> i_size x = 16 * Z.of_nat (dcount x) -> (length hs < 29)%nat -> (300 < N)%nat -> (dcount x < N)%nat ->
  wp (loop (fun '(off, de) =>
      size ← geti dp i_size;
      if negb (u32 off <? size) then mret (inr (off, de)) else
      de ← read_dirent dp (u32 off) "dirlink read";
      if de_inum de =? 0 then mret (inr (off, de)) else mret (inl (i32 (off + DIRENT), de))) (0, Dirent 0 (replicate 14 0))) N s
    (fun '(off, de) s' => off = 16 * free_slot c x /\ length (de_name de) = 14%nat /\ exists M, scratch_same (kmem s0) M /\ tx (with_mem M s0) c hs [] s').
Proof.
  intros Ht Hx Hg Esz Hl HN Hcnt. pose proof (sz_range _ _ (gf_sized _ _ _ _ _ Hg)) as Hsz.
  apply (wp_loop (fun '(off, de) s' => exists k M, off = 16 * k /\ length (de_name de) = 14%nat /\ 0 <= k <= Z.of_nat (dcount x) /\ (forall j, 0 <= j < k -> de_inum (dent c x j) <> 0) /\
      scratch_same (kmem s0) M /\ tx (with_mem M s0) c hs [] s') (fun '(off, _) _ => (dcount x - Z.to_nat (off / 16))%nat)).
  { exists 0, (kmem s0). split_and!; [done|done|lia|lia|intros; lia|done|]. by rw with_mem_id. }
  { cbn; lia. }
  intros [off de] s1 (k & M & -> & Hde & Hk & Hno & HM & H1). apply wp_bind. rw /wp (tx_geti me pid d st (with_mem M s0) c hs [] s1 dp x) //.
  rw Esz u32_small; [|lia]. destruct (Z.ltb_spec (16 * k) (16 * Z.of_nat (dcount x))) as [Hlt|Hge]; cbn [negb].
  2:{ apply wp_ret. split; [f_equal; symmetry; apply slot_is; [done|done|lia]|]. split; [done|by exists M]. }
  apply wp_bind. eapply wp_mono; [apply (read_dirent_wp (with_mem M s0) c hs s1 dp x k); done || lia|]. intros de' s2 (-> & M2 & H2 & HM2).
  rw with_mem_mem in H2. assert (scratch_same (kmem s0) M2) as HM02 by (eapply scratch_trans; [exact HM|exact HM2]).
  destruct (Z.eqb_spec (de_inum (dent c x k)) 0) as [E0|E0]; apply wp_ret.
  - split; [f_equal; symmetry; by apply slot_is|]. split; [apply length_dent_name|by exists M2].
  - change DIRENT with 16. rw i32_small; [|lia]. replace (16 * k + 16) with ((k + 1) * 16) by lia. replace (16 * k) with (k * 16) by lia. rw !Z.div_mul //.
    split; [exists (k + 1), M2; split_and!; [lia|apply length_dent_name|lia|lia| |done|done]|lia].
    intros j Hj. destruct (decide (j = k)) as [->|]; [done|]. apply Hno. lia.
Qed.

(** The write of an entry into slot [k], seen through the entries. *)
Lemma dent_written c x M off c' x' k de : file_written g c x M DE off 16 c' x' -> off = 16 * k -> 0 <= k -> off + 16 <= 268 * 1024 ->
  peek M DE 16 = dirent_bytes de -> 0 <= de_inum de < 2 ^ 16 -> length (de_name de) = 14%nat ->
  dent c' x' k = de /\ forall j, 0 <= j -> 16 * j + 16 <= 268 * 1024 -> j <> k -> dent c' x' j = dent c x j.
Proof.
  intros Hw -> Hk Hmax Hp Hi Hl. pose proof (fw_bytes _ _ _ _ _ _ _ _ _ Hw) as Hb. split.
  - rw /dent (fbytes_peek c' x' (16 * k) 16 M DE); [rw Hp; destruct de; by apply get_dirent_bytes|].
    intros i Hi'. rw Hb; [|lia]. rw decide_True; [|lia]. f_equal. lia.
  - intros j Hj Hjm Hne. rw /dent /fbytes. f_equal. apply list_fmap_ext. intros n i Hn. apply lookup_lt_Some in Hn as Hlt. rw length_rangeZ in Hlt.
    rw rangeZ_lookup // in Hn. injection Hn as <-. rw Hb; [|lia]. rw decide_False //. lia.
Qed.
End dir.

(** ** An instance *)

(** An empty directory, inode 1, and a cache with room. *)
Definition dir0 : inode := set_i_type T_DIR file0.
Definition free0 : inode := Inode 0 0 0 (Sleeplock false 0) false 0 0 0 0 0 (replicate 13 0).
Definition fsd : kstate := set_icache (dir0 :: replicate 49 free0) fsw.
Definition name0 : list Z := [108; 115; 0].

#[local] Existing Instance small_layout.
#[local] Existing Instance ram_driver.
#[local] Existing Instance ram_ok.

Lemma fsd_tx : tx 0 1 1 2 fsd cf [] [] fsd.
Proof. exact (tx_inodes 0 1 1 2 fsw cf [] [] fsw _ fsw_tx). Qed.
Lemma dir0_file : good_file 1 2 sb0 cf dir0.
Proof. destruct fsf_file as [Hd [] [] []]. split; [done|by split..]. Qed.
Lemma fsd_cache : icache_ok (icache fsd).
Proof. split; [done|]. apply Forall_cons. split; [by cbn|]. by apply Forall_replicate. Qed.

