(* ===== verification/FsName.v ===== *)
(** * Path names to inodes

    [namex] walks a path: it locks each directory, looks the next element up
    and gives the directory back.  Over a well-formed tree of directories it
    finds the inode the path names, and of all the references to inodes it
    takes on the way it keeps the one it returns. *)

From S2P Require Import Prelude Mem KString Spinlock Machine Kalloc Printf Vm KState Proc ProcInv FsFmt FsFmtSpec Sleeplock Bio BioInv BioSpec Log LogInv LogSpec LogCrash LogTx Durability Fs FsBits FsTx FsOp FsAlloc FsInode FsFile FsWrite FsFileSpec FsDir.

#[local] Transparent lift.

(** ** Paths

    [skipelem] against the elements of a path: the runs of characters between
    slashes. *)

(** The elements of a path, in order. *)
Fixpoint elements (p : list Z) : list (list Z) :=
  match p with
  | [] => []
  | c :: p' =>
    if c =? 47 then elements p'
    else match elements p' with
         | e :: es => if default 47 (head p') =? 47 then [c] :: e :: es else (c :: e) :: es
         | [] => [[c]]
         end
  end.
Example elements_abc : elements (bytes_of_string "/a//bb/c/") = [bytes_of_string "a"; bytes_of_string "bb"; bytes_of_string "c"].
Proof. reflexivity. Qed.

(** [name] after an element [e] was copied into it: cut at 14, NUL-terminated if shorter. *)
Definition copied (name e : list Z) : list Z :=
  if decide (14 <= length e)%nat then take 14 e else e ++ 0 :: drop (length e + 1) name.

Lemma elements_slash p : elements (47 :: p) = elements p.
Proof. done. Qed.
Lemma elements_run e q : e <> [] -> Forall (fun c => c <> 47) e -> (q = [] \/ exists q', q = 47 :: q') -> elements (e ++ q) = e :: elements q.
Proof.
  intros Hne He Hq. induction He as [|c e Hc He IH]; [done|]. cbn [app elements]. rw (proj2 (Z.eqb_neq c 47) Hc). destruct e as [|c' e].
  - cbn [app]. destruct Hq as [->|[q' ->]]; [done|]. cbn [elements]. destruct (elements q'); done.
  - rw IH //. cbn [app]. apply Forall_cons in He as [Hc' _]. by rw (proj2 (Z.eqb_neq c' 47) Hc').
Qed.
(** A path is slashes, an element, and a rest that starts with a slash. *)
Lemma path_split p : exists n e q, p = replicate n 47 ++ e ++ q /\ Forall (fun c => c <> 47) e /\ (q = [] \/ exists q', q = 47 :: q') /\ (e = [] -> q = []).
Proof.
  induction p as [|c p (n & e & q & -> & He & Hq & Hn)]; [by exists O, [], []; split_and!; auto|].
  destruct (decide (c = 47)) as [->|Hc]; [exists (S n), e, q; by split_and!|]. destruct n as [|n].
  - exists O, (c :: e), q. split_and!; [done|by constructor|done|done].
  - exists O, [c], (replicate (S n) 47 ++ e ++ q). split_and!; [done|by constructor|right; by eexists|done].
Qed.
Lemma elements_skip n p : elements (replicate n 47 ++ p) = elements p.
Proof. induction n; [done|]. cbn [replicate app]. by rw elements_slash. Qed.
Lemma skip_slashes_run n p : default 47 (head p) <> 47 -> skip_slashes (replicate n 47 ++ p) = Some p.
Proof. intros Hp. induction n as [|n IH]; [|done]. destruct p as [|c p]; [done|]. cbn in *. by rw (proj2 (Z.eqb_neq c 47) Hp). Qed.
Lemma path_elem_run e q : Forall (fun c => c <> 47 /\ c <> 0) e -> (exists c q', q = c :: q' /\ (c = 47 \/ c = 0)) -> path_elem (e ++ q) = Some (e, q).
Proof.
  intros He (c0 & q' & -> & Hc0). induction He as [|c e [H1 H2] He IH]; cbn.
  - destruct Hc0 as [-> | ->]; done.
  - by rw (proj2 (Z.eqb_neq _ _) H1) (proj2 (Z.eqb_neq _ _) H2) IH.
Qed.
Lemma copied_run name e : length name = 14%nat ->
  (if DIRSIZ <=? Z.of_nat (length e) then splice name 0 (take (Z.to_nat DIRSIZ) e) else arr_set (splice name 0 e) (Z.of_nat (length e)) 0) = copied name e.
Proof.
  intros Hn. rw /copied /splice. change (Z.to_nat DIRSIZ) with 14%nat. change (Z.to_nat 0) with O. rw take_0. cbn [app Nat.add]. case_decide as E.
  - rw (proj2 (Z.leb_le _ _)); [|rw /DIRSIZ; lia]. rw drop_ge; [by rw app_nil_r|rw length_take; lia].
  - rw (proj2 (Z.leb_gt _ _)); [|rw /DIRSIZ; lia]. rw /arr_set Nat2Z.id. destruct (lookup_lt_is_Some_2 name (length e)) as [x Hx]; [lia|].
    rw insert_app_r_alt; [|lia]. rw Nat.sub_diag (drop_S _ _ _ Hx) /=. by rw Nat.add_1_r.
Qed.

(** [skipelem] on a path: with no element left it returns the null pointer
    and leaves [name]; otherwise it copies the first element into [name], cut at
    DIRSIZ characters, and returns a shorter path without leading slashes whose
    elements are the others. *)
Theorem skipelem_exact p rest name : Forall (fun c => c <> 0) p -> length name = 14%nat ->
  match elements p with
  | [] => skipelem (p ++ 0 :: rest) name = Some (None, name)
  | e :: es => exists p', skipelem (p ++ 0 :: rest) name = Some (Some (p' ++ 0 :: rest), copied name e) /\
      elements p' = es /\ head p' <> Some 47 /\ (length p' < length p)%nat /\ Forall (fun c => c <> 0) p'
  end.
Proof.
  intros Hp Hn. destruct (path_split p) as (n & e & q & -> & He & Hq & Hnq). rw elements_skip. rw !Forall_app in Hp. destruct Hp as (_ & He0 & Hq0).
  rw /skipelem -!app_assoc. destruct e as [|c e].
  { rw (Hnq eq_refl). cbn [app elements]. by rw skip_slashes_run. }
  pose proof He as [Hc _]%Forall_cons. pose proof He0 as [Hc0 _]%Forall_cons. rw skip_slashes_run; [|done]. cbn [mbind option_bind app head default from_option].
  rw (proj2 (Z.eqb_neq c 0) Hc0). assert (elements (c :: e ++ q) = (c :: e) :: elements q) as -> by by apply (elements_run (c :: e)). change (c :: e ++ q ++ 0 :: rest) with ((c :: e) ++ (q ++ 0 :: rest)).
  rw path_elem_run; [|by apply Forall_and|destruct Hq as [->|[q' ->]]; [by exists 0, rest; auto|by exists 47, (q' ++ 0 :: rest); auto]].
  cbn [mbind option_bind]. rw copied_run //. destruct (path_split q) as (n' & e' & q2 & -> & He' & Hq2 & Hn2).
  exists (e' ++ q2). rw elements_skip -!app_assoc. rw skip_slashes_run.
  - cbn [mbind option_bind]. split_and!; [done|done| |rw !length_app; cbn [app length]; rw ?length_app; lia|rw !Forall_app in Hq0; apply Forall_app; tauto].
    destruct e' as [|c' e']; [by rw (Hn2 eq_refl)|]. apply Forall_cons in He' as [? _]. cbn. congruence.
  - destruct e' as [|c' e']; [by rw (Hn2 eq_refl)|]. by apply Forall_cons in He' as [? _].
Qed.

(** ** References *)

Implicit Types (I : list inode) (y z : inode).

(** The number of references to inode [inum] of [dev]. *)
Definition iref (I : list inode) (dev inum : Z) : Z := default 0 (i_ref <$> find (hit dev inum) I).
(** No inode has two entries in use. *)
Definition iuniq (I : list inode) : Prop := forall (i j : nat) y z, I !! i = Some y -> I !! j = Some z -> hit (i_dev y) (i_inum y) y = true -> hit (i_dev y) (i_inum y) z = true -> i = j.

Lemma hit_key dev inum y : hit dev inum y = true <-> 0 < i_ref y /\ i_dev y = dev /\ i_inum y = inum.
Proof. rw /hit !andb_true_iff Z.ltb_lt !Z.eqb_eq. tauto. Qed.
Lemma iuniq_hit I dev inum i j y z : iuniq I -> I !! i = Some y -> I !! j = Some z -> hit dev inum y = true -> hit dev inum z = true -> i = j.
Proof. intros Hu Hy Hz Hhy Hhz. pose proof Hhy as (_ & <- & <-)%hit_key. by eapply Hu. Qed.
Lemma iref_hit I dev inum i y : iuniq I -> I !! i = Some y -> hit dev inum y = true -> iref I dev inum = i_ref y.
Proof.
  intros Hu Hy Hh. rw /iref. destruct (find (hit dev inum) I) as [z|] eqn:E.
  - apply find_some in E as [Hz Hhz]. apply list_elem_of_In, list_elem_of_lookup in Hz as [j Hz]. assert (i = j) as <- by by eapply iuniq_hit. by simplify_eq.
  - pose proof (find_none _ _ E y) as Hn. rw Hn // in Hh. apply list_elem_of_In, list_elem_of_lookup. by exists i.
Qed.
Lemma iref_none I dev inum : (forall (i : nat) y, I !! i = Some y -> hit dev inum y = false) -> iref I dev inum = 0.
Proof.
  intros Hno. rw /iref. destruct (find (hit dev inum) I) as [z|] eqn:E; [|done].
  apply find_some in E as [Hz Hhz]. apply list_elem_of_In, list_elem_of_lookup in Hz as [j Hz]. by rw (Hno j z) in Hhz.
Qed.
Lemma iref_cases I dev inum : (exists (i : nat) y, I !! i = Some y /\ hit dev inum y = true) \/ (forall (i : nat) y, I !! i = Some y -> hit dev inum y = false).
Proof.
  destruct (find (hit dev inum) I) as [z|] eqn:E.
  - left. apply find_some in E as [Hz Hhz]. apply list_elem_of_In, list_elem_of_lookup in Hz as [j Hz]. by exists j, z.
  - right. intros i y Hy. apply (find_none _ _ E). apply list_elem_of_In, list_elem_of_lookup. by exists i.
Qed.
(** One entry replaced. *)
Lemma iref_put I ip y y' dev inum : iuniq I -> iuniq (<[ip := y']> I) -> I !! ip = Some y ->
  iref (<[ip := y']> I) dev inum = if hit dev inum y' then i_ref y' else if hit dev inum y then 0 else iref I dev inum.
Proof.
  intros Hu Hu' Hy. pose proof (lookup_lt_Some _ _ _ Hy) as Hlt. assert (<[ip := y']> I !! ip = Some y') as Hy' by by apply list_lookup_insert_eq.
  destruct (hit dev inum y') eqn:Eh'; [by eapply iref_hit|]. destruct (hit dev inum y) eqn:Eh.
  - apply iref_none. intros i z Hz. destruct (decide (i = ip)) as [->|Hne]; [by simplify_eq|]. rw list_lookup_insert_ne // in Hz.
    destruct (hit dev inum z) eqn:Ez; [|done]. destruct Hne. by eapply (iuniq_hit I).
  - destruct (iref_cases I dev inum) as [(i & z & Hz & Hh)|Hno].
    + assert (i <> ip) as Hne by (intros ->; simplify_eq; congruence). rw (iref_hit I dev inum i z) //. apply (iref_hit _ dev inum i z); [done| |done]. by rw list_lookup_insert_ne.
    + rw (iref_none I) //. apply iref_none. intros i z Hz. destruct (decide (i = ip)) as [->|Hne]; [by simplify_eq|]. rw list_lookup_insert_ne // in Hz. by eapply Hno.
Qed.
(** Replacing an entry by one for the same inode, or an unused one by the only one for its inode. *)
Lemma iuniq_put I ip y y' : iuniq I -> I !! ip = Some y ->
  (forall j z, j <> ip -> I !! j = Some z -> hit (i_dev y') (i_inum y') y' = true -> hit (i_dev y') (i_inum y') z = false) -> iuniq (<[ip := y']> I).
Proof.
  intros Hu Hy Hno. pose proof (lookup_lt_Some _ _ _ Hy) as Hlt. intros i j a b. rw !list_lookup_insert.
  destruct (decide (ip = i /\ _)) as [[<- _]|Hi], (decide (ip = j /\ _)) as [[<- _]|Hj]; [done| | |apply Hu].
  - intros [= <-] Hb Ha Hh. rw (Hno j b) // in Hh. intros ->. by destruct Hj.
  - intros Ha [= <-] Hh1 Hh2. pose proof Hh2 as (Hr & Ed & En)%hit_key. rw -Ed -En (Hno i a) // in Hh1.
    + intros ->. by destruct Hi.
    + by apply hit_key.
Qed.
Lemma iuniq_same I ip y y' : iuniq I -> I !! ip = Some y -> 0 < i_ref y -> i_dev y' = i_dev y -> i_inum y' = i_inum y -> iuniq (<[ip := y']> I).
Proof.
  intros Hu Hy Hr Ed En. apply (iuniq_put I ip y); [done|done|]. intros j z Hne Hz _. destruct (hit _ _ z) eqn:Ez; [|done].
  destruct Hne. rw Ed En in Ez. eapply (Hu j ip z y); [done|done|..]; pose proof Ez as (Hrz & Edz & Enz)%hit_key; apply hit_key; by rw ?Edz ?Enz.
Qed.

(** ** Names cut to an entry *)

Lemma upto_take n l : Forall (fun c => c <> 0) l -> upto n l = take n l.
Proof. intros Hl. revert n. induction Hl as [|c l Hc _ IH]; intros [|n]; [done..|]. cbn [upto take]. by rw (proj2 (Z.eqb_neq c 0) Hc) IH. Qed.
Lemma upto_nul n l r : Forall (fun c => c <> 0) l -> (length l < n)%nat -> upto n (l ++ 0 :: r) = l.
Proof. intros Hl. revert n. induction Hl as [|c l Hc _ IH]; intros [|n] Hn; cbn in Hn; [lia|done|lia|]. cbn [upto app]. rw (proj2 (Z.eqb_neq c 0) Hc) IH //. lia. Qed.
Lemma elements_nonzero p : Forall (fun c => c <> 0) p -> Forall (Forall (fun c => c <> 0)) (elements p).
Proof.
  induction 1 as [|c p Hc Hp IH]; [by constructor|]. cbn [elements]. destruct (c =? 47); [done|]. destruct (elements p) as [|e es]; [by repeat constructor|].
  apply Forall_cons in IH as [He Hes]. destruct (_ =? 47); repeat (apply Forall_cons; split); done || by apply Forall_nil.
Qed.
Lemma copied_name name e : length name = 14%nat -> Forall (fun c => c <> 0) e ->
  length (copied name e) = 14%nat /\ upto 14 (copied name e) = upto 14 e.
Proof.
  intros Hn He. rw /copied. destruct (decide _) as [Hl|Hl].
  - rw length_take. split; [lia|]. rw !upto_take //; [|by apply Forall_take]. by rw take_take.
  - rw length_app. cbn [length]. rw length_drop. split; [lia|]. rw upto_nul //; [|lia]. rw upto_take // take_ge //. lia.
Qed.
Lemma dget_name e n nm nm' : upto 14 nm = upto 14 nm' -> dget e n nm = dget e n nm'.
Proof. intros E. rw /dget /dfind. assert (forall m k, first_from (fun k => named nm (e k)) m k = first_from (fun k => named nm' (e k)) m k) as ->; [|done]. induction m as [|m IH]; intros k; [done|]. cbn [first_from]. by rw IH /named E. Qed.

Section name.
Context {lay : Layout} {drv : DiskDriver} {dok : DriverOk}.
Context (me : nat) (pid : Z) (d st : Z) (g : superblock).
Implicit Types (s : kstate) (c : Z -> list Z) (hs : list Z) (H : list (Z * nat)) (x : inode).
Abbreviation tx := (tx me pid d st).
Abbreviation good_file := (good_file d st g).
Abbreviation unlocked := (Sleeplock false 0).
Abbreviation mine := (Sleeplock true pid).

(** Inode [i] as the disk has it, in an entry with [r] references and lock [l]. *)
Definition on_disk_inode c (i : Z) : dinode := get_dinode (c (IBLOCK i g)) (i mod IPB).
Definition cached c (i r : Z) (l : sleeplock) : inode :=
  let e := on_disk_inode c i in Inode d i r l true (di_type e) (di_major e) (di_minor e) (di_nlink e) (di_size e) (di_addrs e).
Abbreviation inode_at c i := (cached c i 1 unlocked).

(** ** Locking and reference counts inside an operation *)

Lemma tx_procs s0 c hs H s ch : tx s0 c hs H s -> tx s0 c hs H (set_procs (imap (woken (Some me) ch) (procs s)) s).
Proof.
  intros (v & L & [Hc Hr Hd Hl Hv HD HW] & Hrest). exists v, L. split; [|exact Hrest]. split; try done.
  eapply calm_ext; [exact Hc|done|done|]. right. by eexists.
Qed.
Lemma slock_inode s0 c hs H s ip y : tx s0 c hs H s -> icache s0 !! ip = Some y -> slock (SL_inode ip) s = Some (i_lock y).
Proof. intros Ht Hy. by rw /slock (tx_icache _ _ _ _ _ _ _ _ _ Ht) Hy. Qed.
Lemma tx_put_slock s0 c hs H s ip y v : tx s0 c hs H s -> icache s0 !! ip = Some y -> tx (with_inode ip (set_i_lock v y) s0) c hs H (put_slock (SL_inode ip) v s).
Proof. intros Ht Hy. rw /put_slock (tx_icache _ _ _ _ _ _ _ _ _ Ht) (alter_insert _ _ ip y) //. by apply tx_inodes. Qed.

Lemma ilock_wp s0 c hs s ip y N : tx s0 c hs [] s -> sb s0 = g -> icache s0 !! ip = Some y -> 1 <= i_ref y -> sl_locked (i_lock y) = false -> i_dev y = d ->
  (i_valid y = true -> y = cached c (i_inum y) (i_ref y) (i_lock y)) -> di_type (on_disk_inode c (i_inum y)) <> 0 -> block_ok (IBLOCK (i_inum y) g) ->
  (length hs < 29)%nat -> (30 < N)%nat ->
  wp (ilock (Some ip)) N s (fun _ s' => tx (with_inode ip (cached c (i_inum y) (i_ref y) mine) s0) c hs [] s').
Proof.
  intros Ht Eg Hy Hr Hl Hd Hv Hty Hblk Hhs HN. rw /ilock. apply wp_bind. rw /wp (tx_geti me pid d st s0 c hs [] s ip y) //.
  rw (proj2 (Z.ltb_ge _ _)); [|lia]. apply wp_bind.
  rw /wp (acquiresleep_run me pid _ (i_lock y)); [|by eapply tx_calm|by eapply slock_inode|done|lia].
  pose proof (tx_put_slock s0 c hs [] s ip y mine Ht Hy) as H1. set (s1 := put_slock _ _ s) in *. set (y1 := set_i_lock mine y) in *.
  assert (icache (with_inode ip y1 s0) !! ip = Some y1) as Hy1 by by eapply with_inode_at.
  apply wp_bind. rw /wp (tx_geti me pid d st _ c hs [] s1 ip y1 _ _ H1 Hy1). cbn [y1 set_i_lock i_valid]. destruct (i_valid y) eqn:Ev.
  { apply wp_ret. replace (cached c (i_inum y) (i_ref y) mine) with y1; [done|]. by rw /y1 {1}(Hv eq_refl). }
  apply wp_bind, wp_gets. assert (sb s1 = g) as -> by (rw (tx_sb _ _ _ _ _ _ _ _ _ H1); exact Eg).
  apply wp_bind. rw /wp (tx_geti me pid d st _ c hs [] s1 ip y1 _ _ H1 Hy1). change (i_dev y1) with (i_dev y). rw Hd.
  apply wp_bind. rw /wp (tx_geti me pid d st _ c hs [] s1 ip y1 _ _ H1 Hy1). change (i_inum y1) with (i_inum y).
  pose proof (tx_cleans me pid d st _ c hs s1 (IBLOCK (i_inum y) g) H1) as Hcl. eapply tx_opens; [done|done|done|done|]. intros b s2 H2.
  apply wp_bind. rw /wp (tx_getdata me pid d st _ c hs _ s2 (IBLOCK (i_inum y) g) b N H2); [|by left].
  apply wp_bind. eapply wp_mono; [by eapply (tx_seti me pid d st)|]. intros [] s3 H3. rw with_inode_twice in H3.
  apply wp_bind. eapply wp_mono; [by eapply (tx_brelse me pid d st)|]. intros [] s4 H4.
  apply wp_bind. eapply wp_mono; [by eapply (tx_seti me pid d st); [exact H4|by eapply with_inode_at]|]. intros [] s5 H5. rw with_inode_twice in H5.
  assert (set_i_valid true (of_dinode (get_dinode (c (IBLOCK (i_inum y) g)) (i_inum y mod IPB)) y1) = cached c (i_inum y) (i_ref y) mine) as Ey.
  { rw /cached -Hd. by destruct y. }
  rw Ey in H5. apply wp_bind. rw /wp (tx_geti me pid d st _ c hs [] s5 ip (cached c (i_inum y) (i_ref y) mine) _ _ H5); [|by eapply with_inode_at].
  cbn [cached i_type]. rw (proj2 (Z.eqb_neq _ _) Hty). exact H5.
Qed.
Lemma iunlock_wp s0 c hs s ip y N : tx s0 c hs [] s -> icache s0 !! ip = Some y -> 1 <= i_ref y -> i_lock y = mine ->
  wp (iunlock (Some ip)) N s (fun _ s' => tx (with_inode ip (set_i_lock unlocked y) s0) c hs [] s').
Proof.
  intros Ht Hy Hr Hl. pose proof (tx_calm _ _ _ _ _ _ _ _ _ Ht) as Hc. pose proof (slock_inode _ _ _ _ _ _ _ Ht Hy) as Hs. rw Hl in Hs.
  rw /iunlock. apply wp_bind. rw /wp (holdingsleep_run me pid) //. cbn [negb]. apply wp_bind. rw /wp (tx_geti me pid d st s0 c hs [] s ip y) //.
  rw (proj2 (Z.ltb_ge _ _)); [|lia]. rw (releasesleep_run me pid _ mine) //.
  pose proof (tx_procs _ _ _ _ _ (Ch_sleeplock (SL_inode ip)) (tx_put_slock s0 c hs [] s ip y unlocked Ht Hy)) as H1. by rw procs_put_slock in H1.
Qed.
(** A critical section of the cache's lock that replaces one entry. *)
Lemma icache_section s0 c hs s ip y' n : tx s0 c hs [] s -> let sl := set_klk (lk_acq L_icache (klk s)) s in
  release L_icache n (set_icache (<[ip := y']> (icache sl)) sl) = Ok tt (with_inode ip y' s) /\ tx (with_inode ip y' s0) c hs [] (with_inode ip y' s).
Proof.
  intros Ht sl. split; [|rw /with_inode (tx_icache _ _ _ _ _ _ _ _ _ Ht); by apply tx_inodes].
  rw (release_acquired s) //; [rw /with_inode; by destruct s as [[]]|]. eapply calm_lock, tx_calm, Ht.
Qed.
Lemma iput_wp s0 c hs s ip y N : tx s0 c hs [] s -> icache s0 !! ip = Some y -> 1 <= i_ref y < 2 ^ 31 -> (i_valid y = true -> i_nlink y <> 0) ->
  wp (iput ip) N s (fun _ s' => tx (with_inode ip (set_i_ref (i_ref y - 1) y) s0) c hs [] s').
Proof.
  intros Ht Hy Hr Hn. destruct (icache_section s0 c hs s ip (set_i_ref (i_ref y - 1) y) N Ht) as [Hrel Htx].
  rw /iput. apply wp_bind. rw /wp (acquire_k s); [|eapply calm_lock, tx_calm, Ht]. set (sl := set_klk _ s) in *.
  assert (icache sl !! ip = Some y) as Hyl by (change (icache s !! ip = Some y); by rw (tx_icache _ _ _ _ _ _ _ _ _ Ht)).
  do 3 (apply wp_bind; rw /wp (geti_run ip y) //).
  assert (((i_ref y =? 1) && i_valid y && (i_nlink y =? 0)) = false) as ->.
  { destruct (i_valid y); [|by rw andb_false_r]. rw (proj2 (Z.eqb_neq _ _) (Hn eq_refl)). apply andb_false_r. }
  apply wp_bind, wp_ret, wp_bind. rw /wp (seti_run ip y) // i32_small; [|lia]. by rw Hrel.
Qed.
Lemma idup_wp s0 c hs s ip y N : tx s0 c hs [] s -> icache s0 !! ip = Some y -> 0 <= i_ref y < 2 ^ 31 - 1 ->
  wp (idup ip) N s (fun r s' => r = ip /\ tx (with_inode ip (set_i_ref (i_ref y + 1) y) s0) c hs [] s').
Proof.
  intros Ht Hy Hr. destruct (icache_section s0 c hs s ip (set_i_ref (i_ref y + 1) y) N Ht) as [Hrel Htx].
  rw /idup. apply wp_bind. rw /wp (acquire_k s); [|eapply calm_lock, tx_calm, Ht]. set (sl := set_klk _ s) in *.
  assert (icache sl !! ip = Some y) as Hyl by (change (icache s !! ip = Some y); by rw (tx_icache _ _ _ _ _ _ _ _ _ Ht)).
  apply wp_bind. rw /wp (seti_run ip y) // i32_small; [|lia]. apply wp_bind. by rw /wp Hrel.
Qed.

(** ** The cache during a walk *)

(** The cache agrees with the disk [c]; [L] is the one entry that may be locked. *)
Record icoh (L : option nat) c I : Prop := {
  ih_len : length I = NINODE;
  ih_refs : Forall (fun y => 0 <= i_ref y) I;
  ih_uniq : iuniq I;
  ih_lock : forall i y, I !! i = Some y -> L <> Some i -> sl_locked (i_lock y) = false;
  ih_disk : forall (i : nat) y, I !! i = Some y -> i_dev y = d -> 0 < i_ref y -> i_valid y = true -> y = cached c (i_inum y) (i_ref y) (i_lock y);
}.
Lemma icoh_put L L' c I (ip : nat) y y' : icoh L c I -> I !! ip = Some y -> 0 <= i_ref y' -> iuniq (<[ip := y']> I) ->
  (L' <> Some ip -> sl_locked (i_lock y') = false) -> (forall i, i <> ip -> L' <> Some i -> L <> Some i) ->
  (i_dev y' = d -> 0 < i_ref y' -> i_valid y' = true -> y' = cached c (i_inum y') (i_ref y') (i_lock y')) -> icoh L' c (<[ip := y']> I).
Proof.
  intros [Hl Hr Hu Hk Hd] Hy Hr' Hu' Hlk HL Hd'. split; [by rw length_insert|by apply Forall_insert|done| |].
  - intros i z Hz Hne. apply list_lookup_insert_Some in Hz as [(<- & <- & _)|(Hi & Hz)]; [by apply Hlk|]. apply (Hk i z Hz), HL; [done|done].
  - intros i z Hz. apply list_lookup_insert_Some in Hz as [(<- & <- & _)|(_ & Hz)]; [done|]. by eapply Hd.
Qed.
(** With room in the counts. *)
Definition room I (k : Z) : Prop := forall e n, iref I e n < 2 ^ 31 - k.
Lemma icoh_ok L c I : icoh L c I -> room I 1 -> icache_ok I.
Proof.
  intros Hi Hroom. split; [apply Hi|]. apply Forall_lookup. intros i y Hy. pose proof (Forall_lookup_1 _ _ _ _ (ih_refs _ _ _ Hi) Hy) as Hr. cbn beta in Hr.
  split; [done|]. destruct (decide (i_ref y = 0)); [lia|]. specialize (Hroom (i_dev y) (i_inum y)).
  rw (iref_hit I _ _ i y) in Hroom; [|apply Hi|done|apply hit_key; split_and!; [lia|done..]]. lia.
Qed.
(** A reference taken, and one given back. *)
Abbreviation one e n i := (if decide (e = d /\ n = i) then 1 else 0).
Lemma igot_coh L c I inum ip y' : icoh L c I -> igot I d inum ip y' ->
  icoh L c (<[ip := y']> I) /\ hit d inum y' = true /\ forall e n, iref (<[ip := y']> I) e n = iref I e n + one e n inum.
Proof.
  intros Hi (y & Hy & Hc). pose proof (Forall_lookup_1 _ _ _ _ (ih_refs _ _ _ Hi) Hy) as Hr. cbn beta in Hr.
  assert (i_lock y' = i_lock y) as El by by destruct Hc as [(_ & ->)|(_ & _ & ->)].
  assert (hit d inum y' = true) as Hh by (destruct Hc as [((Hr0 & Ed & En)%hit_key & ->)|(_ & _ & ->)]; apply hit_key; cbn; split_and!; done || lia).
  assert (iuniq (<[ip := y']> I)) as Hu.
  { destruct Hc as [((Hr0 & Ed & En)%hit_key & ->)|(Hno & _ & ->)]; [apply (iuniq_same I ip y); done || apply Hi|].
    apply (iuniq_put I ip y); [apply Hi|done|]. intros j z _ Hz _. by apply (Hno j). }
  split_and!; [|done|].
  - apply (icoh_put L L c I ip y); [done|done|apply hit_key in Hh; lia|done|by rw El; eapply (ih_lock _ _ _ Hi)|done|].
    destruct Hc as [((Hr0 & Ed & En)%hit_key & ->)|(_ & _ & ->)]; [|done]. intros _ _ Hv.
    pose proof (ih_disk _ _ _ Hi ip y Hy Ed Hr0 Hv) as E. exact (f_equal (set_i_ref (i_ref y + 1)) E).
  - intros e n. rw (iref_put I ip y) //; [|apply Hi]. pose proof Hh as (Hr' & Ed' & En')%hit_key. destruct (decide _) as [[-> ->]|Hne].
    + rw Hh. destruct Hc as [(Hhy & ->)|(Hno & _ & ->)]; cbn [i_ref set_i_ref set_i_valid].
      * by rw (iref_hit I d inum ip y) //; apply Hi.
      * by rw iref_none.
    + destruct (hit e n y') eqn:E1; [destruct Hne; by apply hit_key in E1 as (_ & <- & <-)|]. destruct (hit e n y) eqn:E2; [|lia]. exfalso.
      destruct Hc as [(Hhy & ->)|(_ & Hr0 & _)]; [|apply hit_key in E2; lia]. destruct Hne. by apply hit_key in E2 as (_ & <- & <-).
Qed.
Lemma drop_coh c I ip i r : icoh (Some ip) c I -> I !! ip = Some (cached c i r mine) -> 0 < r ->
  icoh None c (<[ip := cached c i (r - 1) unlocked]> I) /\ forall e n, iref (<[ip := cached c i (r - 1) unlocked]> I) e n = iref I e n - one e n i.
Proof.
  intros Hi Hy Hr. assert (iuniq (<[ip := cached c i (r - 1) unlocked]> I)) as Hu by (eapply (iuniq_same I ip); [apply Hi|exact Hy|done..]).
  split; [apply (icoh_put (Some ip) None c I ip (cached c i r mine)); [done|done|cbn; lia|done|done|naive_solver|done]|].
  intros e n. rw (iref_put I ip (cached c i r mine)) //; [|apply Hi]. destruct (decide _) as [[-> ->]|Hne].
  - rw (iref_hit I d i ip (cached c i r mine)); [|apply Hi|done|by apply hit_key]. destruct (hit d i (cached c i (r - 1) unlocked)) eqn:E; [done|].
    rw (proj2 (hit_key d i (cached c i r mine))); [|done]. destruct (decide (r = 1)) as [->|]; [done|]. rw (proj2 (hit_key _ _ _)) // in E. cbn. split_and!; [lia|done..].
  - destruct (hit e n (cached c i (r - 1) unlocked)) eqn:E1; [destruct Hne; by apply hit_key in E1 as (_ & <- & <-)|].
    destruct (hit e n (cached c i r mine)) eqn:E2; [destruct Hne; by apply hit_key in E2 as (_ & <- & <-)|lia].
Qed.

(** ** Trees of directories *)

Definition live c (i : Z) : Prop := 0 < i < sb_ninodes g /\ di_type (on_disk_inode c i) <> 0.
Abbreviation dir_get c i nm := (dget (dent c (inode_at c i)) (dcount (inode_at c i)) nm).
(** Inodes in use are well-formed files with links to them; directories have
    whole entries, which name inodes in use. *)
Record tree_ok c : Prop := {
  tr_good : forall i, live c i -> good_file c (inode_at c i);
  tr_links : forall i, live c i -> di_nlink (on_disk_inode c i) <> 0;
  tr_dir : forall i, live c i -> di_type (on_disk_inode c i) = T_DIR -> dir_ok (inode_at c i);
  tr_entries : forall i nm j, live c i -> di_type (on_disk_inode c i) = T_DIR -> dir_get c i nm = Some j -> live c j;
}.
(** The inode a path leads to from [i]. *)
Fixpoint resolve c (i : Z) (es : list (list Z)) : option Z :=
  match es with
  | [] => Some i
  | e :: es' => if di_type (on_disk_inode c i) =? T_DIR then j ← dir_get c i e; resolve c j es' else None
  end.

(** The cache is [I] and agrees with the disk; nothing else has changed. *)
Definition walking s0 c hs (L : option nat) I s : Prop := icoh L c I /\ exists M, scratch_same (kmem s0) M /\ tx (set_icache I (with_mem M s0)) c hs [] s.

Lemma good_entry c i r l : good_file c (inode_at c i) -> good_file c (cached c i r l).
Proof. intros [Hd [] [] []]. split; [done|by split..]. Qed.
Lemma entry_lock_wp s0 c hs I s ip i y N : sb s0 = g -> tree_ok c -> live c i -> walking s0 c hs None I s -> I !! ip = Some y -> hit d i y = true ->
  (length hs < 29)%nat -> (30 < N)%nat ->
  wp (ilock (Some ip)) N s (fun _ s' => let I' := <[ip := cached c i (i_ref y) mine]> I in
    walking s0 c hs (Some ip) I' s' /\ I' !! ip = Some (cached c i (i_ref y) mine) /\ forall e n, iref I' e n = iref I e n).
Proof.
  intros Eg Htr Hlv (Hi & M & HM & Ht) Hy Hh Hl HN. pose proof Hh as (Hr & Ed & En)%hit_key. pose proof (tr_good _ Htr i Hlv) as Hg.
  eapply wp_mono; [apply (ilock_wp _ c hs s ip y N Ht); try done|].
  - lia.
  - by eapply (ih_lock _ _ _ Hi).
  - intros Hv. by eapply (ih_disk _ _ _ Hi).
  - rw En. apply Hlv.
  - rw En. apply (do_home _ _ _ (gf_disk _ _ _ _ _ Hg)). destruct Hlv as [Hlv _]. lia.
  - rw En. intros [] s' Ht' I'. assert (iuniq I') as Hu by (apply (iuniq_same I ip y); [apply Hi|done|done|by rw Ed|by rw En]).
    split_and!; [split; [apply (icoh_put None (Some ip) c I ip y); [done|done|cbn; lia|done|done|done|done]|by exists M]|apply list_lookup_insert_eq; by eapply lookup_lt_Some|].
    intros e n. rw (iref_put I ip y) //; [|apply Hi]. assert (hit e n (cached c i (i_ref y) mine) = hit e n y) as -> by by rw /hit /= Ed En.
    destruct (hit e n y) eqn:E; [|done]. symmetry. apply (iref_hit I e n ip y); [apply Hi|done|done].
Qed.
Lemma entry_drop_wp s0 c hs I s ip i r N : tree_ok c -> live c i -> walking s0 c hs (Some ip) I s -> I !! ip = Some (cached c i r mine) -> 0 < r < 2 ^ 31 ->
  wp (iunlockput ip) N s (fun _ s' => let I' := <[ip := cached c i (r - 1) unlocked]> I in
    walking s0 c hs None I' s' /\ forall e n, iref I' e n = iref I e n - one e n i).
Proof.
  intros Htr Hlv (Hi & M & HM & Ht) Hy Hr. rw /iunlockput. apply wp_bind. eapply wp_mono; [apply (iunlock_wp _ c hs s ip _ N Ht Hy); [cbn; lia|done]|].
  intros [] s1 H1. eapply wp_mono; [eapply (iput_wp _ c hs s1 ip (cached c i r unlocked) N H1); [by eapply with_inode_at|cbn; lia|]|].
  - intros _. by apply (tr_links _ Htr).
  - intros [] s2 H2. rw with_inode_twice in H2. destruct (drop_coh c I ip i r Hi Hy ltac:(lia)) as [Hc Hrf]. split; [split; [done|by exists M]|done].
Qed.
Lemma iref_nonneg L c I e n : icoh L c I -> 0 <= iref I e n.
Proof.
  intros Hi. destruct (iref_cases I e n) as [(i & y & Hy & Hh)|Hno]; [|by rw iref_none].
  rw (iref_hit I e n i y) //; [|apply Hi]. apply hit_key in Hh. lia.
Qed.
(** Only the addresses and the size of an entry matter for what a directory holds. *)
Lemma dent_entry c i r l k : dent c (cached c i r l) k = dent c (inode_at c i) k.
Proof. reflexivity. Qed.
Lemma dget_entry c i r l nm k : dfind (dent c (cached c i r l)) (dcount (cached c i r l)) nm = k ->
  dir_get c i nm = (fun j => de_inum (dent c (inode_at c i) j)) <$> k.
Proof. intros <-. reflexivity. Qed.
Lemma entry_lookup_wpp s0 c hs I s ip i r nm N : tree_ok c -> live c i -> di_type (on_disk_inode c i) = T_DIR -> walking s0 c hs (Some ip) I s ->
  I !! ip = Some (cached c i r mine) -> 0 < r -> room I 1 -> readable 14 nm -> (length hs < 29)%nat -> (Z.to_nat 17152 < N)%nat ->
  wpp (dirlookup ip nm) N s (fun res s' => match res with
    | None => dir_get c i nm = None /\ walking s0 c hs (Some ip) I s'
    | Some (nx, _) => exists j z r', let I' := <[nx := z]> I in dir_get c i nm = Some j /\ walking s0 c hs (Some ip) I' s' /\ I' !! nx = Some z /\ hit d j z = true /\
        (forall e n, iref I' e n = iref I e n + one e n j) /\ I' !! ip = Some (cached c i r' mine) /\ 0 < r'
    end) (fun msg => msg = "iget: no inodes").
Proof.
  intros Htr Hlv Hty (Hi & M & HM & Ht) Hy Hr Hroom Hnm Hl HN. pose proof (tr_good _ Htr i Hlv) as Hg. pose proof (sz_range _ _ (gf_sized _ _ _ _ _ Hg)) as Hsz.
  pose proof (icoh_ok _ _ _ Hi Hroom) as Hok. destruct (tr_dir _ Htr i Hlv Hty) as [Hd1 Hd2].
  assert (Z.of_nat (dcount (inode_at c i)) <= 17152) as Hcnt.
  { rw /dcount. set (z := i_size (inode_at c i)) in *. clearbody z. assert (z / 16 <= 17152) by (apply Z.div_le_upper_bound; lia). pose proof (Z.div_pos z 16). lia. }
  eapply wpp_mono; [apply (dirlookup_wpp me pid d st g _ c hs s ip (cached c i r mine) nm N Ht); first [done | by apply good_entry | by split | change (dcount (cached c i r mine)) with (dcount (inode_at c i)); lia | lia]| |].
  - intros [[nx off]|] s' (M' & HM' & Hres).
    + destruct Hres as (k & z & Hf & _ & Hgot & H'). rw dent_entry in Hgot. exists (de_inum (dent c (inode_at c i) k)), z. destruct (igot_coh _ _ _ _ _ _ Hi Hgot) as (Hc' & Hh & Hrf).
      pose proof Hgot as (y & Hyn & Hcase). assert (exists r', <[nx := z]> I !! ip = Some (cached c i r' mine) /\ 0 < r') as (r' & Hy' & Hr').
      { destruct (decide (nx = ip)) as [->|Hne]; [|exists r; by rw list_lookup_insert_ne]. rw list_lookup_insert_eq; [|by eapply lookup_lt_Some].
        change (I !! ip = Some y) in Hyn. assert (y = cached c i r mine) as -> by congruence. destruct Hcase as [(_ & ->)|(_ & Hr0 & _)]; [|cbn in Hr0; lia]. exists (r + 1). split; [done|lia]. }
      exists r'. split_and!; [exact (dget_entry c i r mine nm _ Hf)| |apply list_lookup_insert_eq; by eapply lookup_lt_Some|done|done|done|done].
      split; [done|]. exists M'. split; [by eapply scratch_trans|done].
    + destruct Hres as [Hf H']. split; [exact (dget_entry c i r mine nm _ Hf)|].
      split; [done|]. exists M'. split; [by eapply scratch_trans|done].
  - by intros msg [_ [-> _]].
Qed.

(** ** [namex] *)

(** A reference to [i] more than at the start, in entry [ip]. *)
Definition at_inode s0 c hs (i : Z) (ip : nat) s : Prop := exists I y,
  walking s0 c hs None I s /\ I !! ip = Some y /\ hit d i y = true /\ forall e n, iref I e n = iref (icache s0) e n + one e n i.
(** As many as at the start. *)
Definition nowhere s0 c hs s : Prop := exists I, walking s0 c hs None I s /\ forall e n, iref I e n = iref (icache s0) e n.

(** One element of the path. *)
Definition descend (path name : list Z) (ip : nat) : K kstate (list Z * list Z * nat + option nat * list Z) :=
  ilock (Some ip);;
  t ← geti ip i_type;
  if negb (t =? T_DIR) then iunlockput ip;; mret (inr (None, name)) else
  c ← the (head path);
  if false && (c =? 0) then iunlock (Some ip);; mret (inr (Some ip, name)) else
  nx ← dirlookup ip name;
  match nx with
  | None => iunlockput ip;; mret (inr (None, name))
  | Some (next, _) => iunlockput ip;; mret (inl (path, name, next))
  end.
Lemma descend_wpp s0 c hs s path name ip i N : sb s0 = g -> icoh None c (icache s0) -> room (icache s0) 3 -> tree_ok c -> live c i -> at_inode s0 c hs i ip s ->
  path <> [] -> readable 14 name -> (length hs < 29)%nat -> (Z.to_nat 17152 < N)%nat ->
  wpp (descend path name ip) N s (fun r s' =>
      match (if di_type (on_disk_inode c i) =? T_DIR then dir_get c i name else None) with
      | None => r = inr (None, name) /\ nowhere s0 c hs s'
      | Some j => exists nx, r = inl (path, name, nx) /\ live c j /\ at_inode s0 c hs j nx s'
      end) (fun msg => msg = "iget: no inodes").
Proof.
  intros Eg Hi0 Hroom Htr Hlv (I & y & Hw & Hy & Hh & Hrf) Hp Hnm Hl HN. pose proof Hh as (Hr & _)%hit_key.
  assert (forall e n, 0 <= iref (icache s0) e n) as Hnn by (intros; by eapply iref_nonneg).
  eapply wpp_bind; [apply (entry_lock_wp s0 c hs I s ip i y N); done || lia|]. intros [] s1. cbv zeta. set (I1 := <[ip := _]> I). intros (Hw1 & Hy1 & Hrf1).
  assert (room I1 2) as Hroom1 by (intros e n; rw Hrf1 Hrf; specialize (Hroom e n); destruct (decide _); lia).
  assert (i_ref y = iref I1 d i) as Er.
  { rw (iref_hit I1 d i ip (cached c i (i_ref y) mine)) //; [apply Hw1|by apply hit_key]. }
  pose proof Hw1 as (_ & M1 & _ & H1). eapply wpp_run; [by apply (tx_geti me pid d st _ c hs [] s1 ip (cached c i (i_ref y) mine) _ _ H1)|].
  cbn [cached i_type]. destruct (Z.eqb_spec (di_type (on_disk_inode c i)) T_DIR) as [Hty|Hty]; cbn [negb].
  2:{ eapply wpp_bind; [apply (entry_drop_wp s0 c hs I1 s1 ip i (i_ref y) N); try done; specialize (Hroom1 d i); lia|]. intros [] s2 [Hw2 Hrf2].
      apply wpp_wp, wp_ret. split; [done|]. eexists. split; [exact Hw2|]. intros e n. rw Hrf2 Hrf1 Hrf. lia. }
  destruct path as [|c0 path]; [done|]. eapply wpp_run; [done|]. cbn [andb].
  eapply wpp_seq; [apply (entry_lookup_wpp s0 c hs I1 s1 ip i (i_ref y) name N); try done; intros e n; specialize (Hroom1 e n); lia|].
  intros [[nx off]|] s2.
  - intros (j & z & r' & Hget & Hw2 & Hz & Hhz & Hrf2 & Hy2 & Hr'). set (I2 := <[nx := z]> I1) in *.
    assert (r' = iref I2 d i) as Er' by (rw (iref_hit I2 d i ip (cached c i r' mine)) //; [apply Hw2|by apply hit_key]).
    assert (iref I2 d i = iref (icache s0) d i + 1 + one d i j) as E2 by (rw Hrf2 Hrf1 Hrf (decide_True _ _ (conj eq_refl eq_refl)) //).
    eapply wpp_bind; [apply (entry_drop_wp s0 c hs I2 s2 ip i r' N); try done; specialize (Hroom d i); destruct (decide (d = d /\ i = j)); lia|]. intros [] s3 [Hw3 Hrf3].
    apply wpp_wp, wp_ret. rw Hget. exists nx. split; [done|].
    split; [by eapply tr_entries|]. set (I3 := <[ip := _]> I2) in *.
    assert (exists z', I3 !! nx = Some z' /\ hit d j z' = true) as (z' & Hz' & Hhz').
    { destruct (decide (nx = ip)) as [->|Hne]; [|exists z; by rw /I3 list_lookup_insert_ne]. assert (j = i) as -> by (assert (z = cached c i r' mine) as -> by congruence; by apply hit_key in Hhz as (_ & _ & <-)).
      rw decide_True // in E2. eexists. split; [apply list_lookup_insert_eq; by eapply lookup_lt_Some|]. apply hit_key. cbn. specialize (Hnn d i). lia. }
    exists I3, z'. split_and!; [done|done|done|]. intros e n. rw Hrf3 Hrf2 Hrf1 Hrf. lia.
  - intros [-> Hw2]. eapply wpp_bind; [apply (entry_drop_wp s0 c hs I1 s2 ip i (i_ref y) N); try done; specialize (Hroom1 d i); lia|]. intros [] s3 [Hw3 Hrf3].
    apply wpp_wp, wp_ret. split; [done|]. eexists. split; [exact Hw3|]. intros e n. rw Hrf3 Hrf1 Hrf. lia.
Qed.

(** Where a path starts: at the root, or in the process's directory. *)
Definition starts c s0 s (p : list Z) (i : Z) : Prop := live c i /\
  if default 0 (head p) =? 47 then d = ROOTDEV /\ i = ROOTINO
  else exists pr ip y, procs s !! me = Some pr /\ p_cwd pr = Some ip /\ icache s0 !! ip = Some y /\ hit d i y = true.
Lemma walking_start s0 c hs s : tx s0 c hs [] s -> icoh None c (icache s0) -> walking s0 c hs None (icache s0) s.
Proof. intros Ht Hi. split; [done|]. exists (kmem s0). split; [done|]. rw with_mem_id. by replace (set_icache (icache s0) s0) with s0 by by destruct s0. Qed.
Lemma start_wpp s0 c hs s p i N : tx s0 c hs [] s -> icoh None c (icache s0) -> room (icache s0) 3 -> starts c s0 s p i ->
  wpp (if default 0 (head p) =? 47 then iget ROOTDEV ROOTINO else p ← myproc; i ← the p; cwd ← getp i p_cwd; d ← the cwd; idup d) N s
    (fun ip s' => at_inode s0 c hs i ip s') (fun msg => msg = "iget: no inodes").
Proof.
  intros Ht Hi Hroom [_ Hst].
  assert (room (icache s0) 1) as Hroom1 by (intros e n; specialize (Hroom e n); lia). pose proof (icoh_ok _ _ _ Hi Hroom1) as Hok.
  assert (forall ip y, igot (icache s0) d i ip y -> forall s', tx (with_inode ip y s0) c hs [] s' -> at_inode s0 c hs i ip s') as Hend.
  { intros ip y Hgot s' Ht'. destruct (igot_coh _ _ _ _ _ _ Hi Hgot) as (Hc & Hh & Hrf). pose proof Hgot as (y0 & Hy0 & _). exists (<[ip := y]> (icache s0)), y.
    split_and!; [split; [done|]|apply list_lookup_insert_eq; by eapply lookup_lt_Some|done|done]. exists (kmem s0). split; [done|].
    by replace (set_icache (<[ip := y]> (icache s0)) (with_mem (kmem s0) s0)) with (with_inode ip y s0) by by rw with_mem_id. }
  destruct (default 0 (head p) =? 47).
  - destruct Hst as [<- <-]. eapply wpp_mono; [by apply (iget_wpp me pid d st s0 c hs [] s i N Ht)| |by intros msg [-> _]]. intros ip s' (y & Hgot & Ht'). by eapply Hend.
  - destruct Hst as (pr & ip & y & Hp & Hcwd & Hy & Hh). destruct (tx_cur _ _ _ _ _ _ _ _ _ Ht) as [Hcur Hlk].
    eapply wpp_run; [by apply myproc_run|]. rw Hcur. eapply wpp_run; [done|]. eapply wpp_run; [by apply (getp_run _ me pr)|]. rw Hcwd. eapply wpp_run; [done|].
    apply wpp_wp. pose proof (Forall_lookup_1 _ _ _ _ (ic_refs _ Hok) Hy) as Hr. eapply wp_mono; [by apply (idup_wp s0 c hs s ip y N)|].
    intros r s' [-> Ht']. eapply Hend; [|exact Ht']. exists y. split; [done|by left].
Qed.

End name.

(** ** An instance *)

(** A root directory with two entries, itself and the empty file [a]. *)
Definition root0 : dinode := Dinode T_DIR 0 0 1 32 (46 :: replicate 12 0).
Definition leaf0 : dinode := Dinode T_FILE 0 0 1 0 (replicate 13 0).
Definition itable1 : list Z := put_dinode (put_dinode (replicate 1024 0) 1 root0) 2 leaf0.
Definition dirblk : list Z := dirent_bytes (Dirent 1 (46 :: replicate 13 0)) ++ dirent_bytes (Dirent 2 (97 :: replicate 13 0)) ++ replicate (Z.to_nat 992) 0.
Definition fst0 : kstate := set_icache (replicate 50 free0) (set_disk {[ 45 := map0; 32 := itable1; 46 := dirblk ]} fsw).
Definition ct : Z -> list Z := dblock (disk fst0).

#[local] Existing Instance small_layout.
#[local] Existing Instance ram_driver.
#[local] Existing Instance ram_ok.

Lemma fst0_tx : tx 0 1 1 2 fst0 ct [] [] fst0.
Proof.
  pose proof (boot_good (replicate 1024 0) 1 (disk fst0) ltac:(done)) as Hgood.
  exists (vw fst0), (log fst0). split_and!; [| | |done|done|done|apply NoDup_nil_2|].
  - split; try done; [by eapply calm_ext; [exact calm_ready0| | |left]|]. eexists. apply boot_lru.
  - destruct (fi_log _ _ _ _ _ fs0_idle) as [[] ? ?]. by split.
  - apply txv_good. exact Hgood.
  - intros b. apply (good_content_disk _ _ _ _ _ Hgood). apply not_elem_of_nil.
Qed.
Lemma ct_at b : ct b = if decide (b = 45) then map0 else if decide (b = 32) then itable1 else if decide (b = 46) then dirblk else replicate 1024 0.
Proof.
  rw /ct /dblock /fst0. cbn [disk set_icache set_disk]. destruct (decide (b = 45)) as [->|]; [done|]. rw lookup_insert_ne //.
  destruct (decide (b = 32)) as [->|]; [done|]. rw lookup_insert_ne //. destruct (decide (b = 46)) as [->|]; [done|]. by rw lookup_singleton_ne.
Qed.
Lemma ct_used b : 0 <= b < 60 -> used_block sb0 ct b = (b <? 48).
Proof. intros Hb. rw -used0 // /used_block bblock0 //. Qed.
Lemma ct_disk : disk_ok 2 sb0 ct.
Proof.
  split.
  - destruct bitmap0 as [Hg _ _ _]. split; [done| | |].
    + intros b. rw ct_at. repeat destruct (decide _); by vm_compute.
    + intros b Hb. by rw bblock0.
    + intros b Hb. rw ct_used //. intros H. zbool. apply home0. change (sb_size sb0) with 60 in Hb. lia.
  - split; [done|]. by rw ct_used.
  - intros i Hi. pose proof (iblock0 i Hi). change (sb_size sb0) with 60. split; [lia|]. rw ct_used; [|lia]. apply Z.ltb_lt. lia.
  - intros i Hi. pose proof (iblock0 i Hi). apply home0. lia.
  - intros i y Hi Hy. pose proof (iblock0 i Hi). rw bblock0 //. lia.
Qed.
Abbreviation odi := (on_disk_inode sb0 ct).
Abbreviation root_at := (cached 1 sb0 ct 1 1 (Sleeplock false 0)).
Abbreviation leaf_at := (cached 1 sb0 ct 2 1 (Sleeplock false 0)).

Lemma ldb_zeros w n o : ldb w (replicate n 0) o = 0.
Proof. rw /ldb drop_replicate take_replicate. generalize (w `min` (n - Z.to_nat o))%nat as m. induction m as [|m IH]; [done|]. cbn [replicate le_val]. by rw IH. Qed.
Lemma odi_1 : odi 1 = root0.
Proof. by vm_compute. Qed.
Lemma odi_2 : odi 2 = leaf0.
Proof. by vm_compute. Qed.
Lemma odi_rest i : 0 < i < 200 -> i <> 1 -> i <> 2 -> di_type (odi i) = 0.
Proof.
  intros Hi H1 H2. rw /on_disk_inode ct_at. pose proof (iblock0 i ltac:(lia)) as Hb. rw decide_False; [|lia].
  destruct (decide (IBLOCK i sb0 = 32)) as [E|E].
  - assert (0 <= i / 16) as Hd by (apply Z.div_pos; lia). rw /IBLOCK in E. change IPB with 16 in E |- *. change (sb_inodestart sb0) with 32 in E.
    rw u32_small in E; [|pose proof (Z.div_le_upper_bound i 16 13 ltac:(lia) ltac:(lia)); lia]. pose proof (Z.div_mod i 16 ltac:(lia)) as Em. pose proof (Z.mod_pos_bound i 16 ltac:(lia)).
    rw /itable1 get_put_dinode_ne; [|first [lia|by vm_compute]..]. rw get_put_dinode_ne; [|first [lia|by vm_compute]..]. rw /get_dinode. cbn [di_type]. by rw ldb_zeros.
  - rw decide_False; [|lia]. rw /get_dinode. cbn [di_type]. by rw ldb_zeros.
Qed.
Lemma live_12 i : live sb0 ct i -> i = 1 \/ i = 2.
Proof.
  intros [Hi Ht]. change (sb_ninodes sb0) with 200 in Hi. destruct (decide (i = 1)); [by left|]. destruct (decide (i = 2)); [by right|]. by rw odi_rest in Ht.
Qed.
Lemma data_46 : data_block 2 sb0 ct 46.
Proof.
  split; [done|by rw ct_used|by apply home0; lia| |].
  - intros y Hy. by rw bblock0.
  - intros i Hi. pose proof (iblock0 i Hi). lia.
Qed.
(** A file with no indirect block whose direct ones are [46], if any. *)
Lemma addr_or_none b n (k : Z) : in_file k -> (b :: replicate 12 0) !!! Z.to_nat k = n -> k < 12 -> n = b /\ k = 0 \/ n = 0.
Proof.
  intros Hk <- H12. destruct (decide (k = 0)) as [->|Hk0]; [by left|right]. replace (Z.to_nat k) with (S (Z.to_nat (k - 1))) by lia.
  apply list_lookup_total_correct. rw lookup_cons_ne_0 //. apply lookup_replicate_2. lia.
Qed.
Lemma one_block_file x b : i_addrs x = b :: replicate 12 0 -> (b = 0 \/ b = 46) -> file_ok 2 sb0 ct x.
Proof.
  intros Ea Hb. assert (indirect x = 0) as Ei by by rw /indirect Ea. assert (forall k, in_file k -> faddr ct x k <> 0 -> faddr ct x k = 46 /\ k = 0) as Hf.
  { intros k Hk. rw /faddr Ei Ea. destruct (Z.ltb_spec k 12); [|done]. destruct (addr_or_none b _ k Hk eq_refl H) as [[-> ->]| ->]; [|done]. by destruct Hb as [-> | ->]. }
  split; [by rw Ea| | | |].
  - intros k Hk Hn. destruct (Hf k Hk Hn) as [-> _]. apply data_46.
  - by rw Ei.
  - intros j k Hj Hk Hn E. destruct (Hf j Hj Hn) as [_ ->]. rw E in Hn. by destruct (Hf k Hk Hn) as [_ ->].
  - intros k Hk Hn. by rw Ei.
Qed.
Lemma tree0 : tree_ok 1 2 sb0 ct.
Proof.
  split.
  - intros i [-> | ->]%live_12; (split; [apply ct_disk| |split|split]); rw /cached ?odi_1 ?odi_2; try done.
    + by eapply (one_block_file _ 46); [|right].
    + intros k Hk Hlt. cbn in Hlt. assert (k = 0) as -> by lia. done.
    + by eapply (one_block_file _ 0); [|left].
    + intros k Hk Hlt. cbn in Hlt. lia.
  - intros i [-> | ->]%live_12; rw ?odi_1 ?odi_2 //.
  - intros i [-> | ->]%live_12; rw /cached ?odi_1 ?odi_2 //.
  - intros i nm j [-> | ->]%live_12; rw ?odi_1 ?odi_2 //. intros _ Hd. rw /dget in Hd. apply fmap_Some in Hd as (k & (Hk & _)%first_from_Some & ->).
    change (Z.of_nat (dcount root_at)) with 2 in Hk. assert (k = 0 \/ k = 1) as [-> | ->] by lia; by vm_compute.
Qed.
Lemma fst0_unused j y : icache fst0 !! j = Some y -> i_ref y = 0.
Proof. by intros [-> _]%lookup_replicate. Qed.
Lemma fst0_coh : icoh 1 sb0 None ct (icache fst0).
Proof.
  split; [done|by apply Forall_replicate| | |].
  - intros i j y z Hy Hz Hh. apply fst0_unused in Hy. apply hit_key in Hh. lia.
  - intros i y [-> _]%lookup_replicate _. done.
  - intros i y Hy _ Hr. apply fst0_unused in Hy. lia.
Qed.
Lemma fst0_room k : k < 2 ^ 31 -> room (icache fst0) k.
Proof. intros Hk e n. rw iref_none; [lia|]. intros i y Hy. apply fst0_unused in Hy. by rw /hit Hy. Qed.
Lemma starts_root p : head p = Some 47 -> starts 0 1 sb0 ct fst0 fst0 p 1.
Proof. intros Hp. rw /starts Hp. split; [|done]. split; [done|]. by rw odi_1. Qed.

(** [/a] is inode 2, and [/a/b] is nothing. *)
Definition path_a : list Z := [47; 97].
Definition path_ab : list Z := [47; 97; 47; 98].

(** The root in the cache, and [a] looked up in it. *)
Definition fst1 : kstate := set_icache (root_at :: replicate 49 free0) fst0.
Definition name_a : list Z := [97; 0].
Lemma dirlookup_finds_witness :
  wpp (dirlookup 0 name_a) (Z.to_nat 400) fst1 (fun r s' => exists ip off y, r = Some (ip, off) /\ i_inum y = 2 /\ icache s' !! ip = Some y) (fun msg => msg = "iget: no inodes").
Proof.
  assert (tx 0 1 1 2 fst1 ct [] [] fst1) as Ht by exact (tx_inodes 0 1 1 2 fst0 ct [] [] fst0 _ fst0_tx).
  assert (icache_ok (icache fst1)) as Hok by (split; [done|]; apply Forall_cons; split; [by cbn|by apply Forall_replicate]).
  assert (live sb0 ct 1) as Hlv by (split; [done|by rw odi_1]).
  pose proof (dirlookup_finds 0 1 1 2 sb0 fst1 ct [] fst1 0 root_at name_a (Z.to_nat 400) Ht Hok eq_refl (tr_good _ _ _ _ tree0 1 Hlv)) as Hd.
  assert (dget (dent ct root_at) (dcount root_at) name_a = Some 2) as Eg by by vm_compute. cbv zeta in Hd. rw Eg in Hd.
  assert (dir_ok root_at) as Hdir by (apply (tr_dir _ _ _ _ tree0 1 Hlv); by rw odi_1). assert (readable 14 name_a) as Hnm by (right; apply elem_of_cons; right; apply elem_of_cons; by left).
  assert (dcount root_at = 2%nat) as Ec by by vm_compute. rw Ec in Hd. eapply wpp_mono; [apply (Hd Hdir Hnm); [cbn; lia|lia|lia]| |].
  - intros [[ip off]|] s' (M & _ & Hr); [|by destruct Hr as [Hf _]]. destruct Hr as (k & y & _ & _ & [= Ey] & _ & _ & (y0 & Hy0 & _) & Ht').
    exists ip, off, y. split_and!; [done|done|]. rw (tx_icache _ _ _ _ _ _ _ _ _ Ht'). by eapply with_inode_at.
  - by intros msg [_ [-> _]].
Defined.
