(* ===== verification/FsTrunc.v ===== *)
(** * Truncating a file

    [itrunc] gives every block of a file back: the direct ones, those of the
    indirect block and the indirect block itself.  The blocks are distinct and
    in use, so none is freed twice, and no other block is touched. *)

From S2P Require Import Prelude Mem KString Spinlock Machine Kalloc Printf Vm KState Proc ProcInv FsFmt FsFmtSpec Sleeplock Bio BioInv BioSpec Log LogInv LogSpec LogCrash LogTx Durability Fs FsBits FsTx FsOp FsAlloc FsInode FsFile FsWrite FsFileSpec FsDir FsName.

#[local] Transparent lift.

(** The blocks of a file: its first [i] direct ones, its first [j] indirect
    ones, all of them. *)
Definition direct (x : inode) (i : nat) : list Z := filter (fun a => a <> 0) (take i (i_addrs x)).
Definition indirects (c : Z -> list Z) (x : inode) (j : nat) : list Z := filter (fun a => a <> 0) (ientry c (indirect x) <$> rangeZ j).
Definition blocks (c : Z -> list Z) (x : inode) : list Z :=
  direct x 12 ++ if indirect x =? 0 then [] else indirects c x 256 ++ [indirect x].
(** Its first [i] addresses cleared. *)
Definition cleared (x : inode) (i : nat) : inode := set_i_addrs (replicate i 0 ++ drop i (i_addrs x)) x.

Section trunc.
Context {lay : Layout} {drv : DiskDriver} {dok : DriverOk}.
Context (me : nat) (pid : Z) (d st : Z) (g : superblock).
Implicit Types (s : kstate) (c : Z -> list Z) (hs F : list Z) (H : list (Z * nat)) (x : inode).
Abbreviation tx := (tx me pid d st).
Abbreviation good_file := (good_file d st g).
Abbreviation disk_ok := (disk_ok st g).
Abbreviation data_block := (data_block st g).

(** [c'] is [c] with the blocks [F] free. *)
Record frees c F c' : Prop := {
  fr_disk : disk_ok c';
  fr_used : forall b, 0 <= b < sb_size g -> used_block g c' b = used_block g c b && negb (bool_decide (b ∈ F));
  fr_same : forall b, (forall y, 0 <= y < sb_size g -> BBLOCK y g <> b) -> c' b = c b;
}.
Lemma frees_nil c : disk_ok c -> frees c [] c.
Proof. intros Hd. split; [done| |done]. intros b Hb. rw bool_decide_eq_false_2; [by rw andb_true_r|apply not_elem_of_nil]. Qed.
Lemma disk_freed c f : disk_ok c -> data_block c f -> disk_ok (freed g c f).
Proof.
  intros Hd Hf. pose proof (do_map _ _ _ Hd) as Hm. pose proof (db_range _ _ _ _ Hf) as Hr.
  assert (forall b, 0 <= b < sb_size g -> b <> f -> used_block g (freed g c f) b = used_block g c b) as Hu.
  { intros b Hb Hne. rw (used_freed st) //; [|lia]. by rw (proj2 (Z.eqb_neq _ _) Hne). }
  split.
  - split; [apply Hm| | |].
    + apply typed_bupd; [apply Hm|]. apply length_bit_off; [apply Hm|apply bpb_range].
    + intros b Hb. destruct (bm_self _ _ _ Hm b Hb) as [H1 H2]. split; [done|]. rw Hu //. by apply (db_map _ _ _ _ Hf).
    + intros b Hb. destruct (decide (b = f)) as [->|]; [intros _; apply Hf|]. rw Hu //. by apply (bm_free _ _ _ Hm).
  - destruct (do_boot _ _ _ Hd) as [H1 H2]. split; [done|]. rw Hu //; lia.
  - intros i Hi. destruct (do_inode _ _ _ Hd i Hi) as [H1 H2]. split; [done|]. rw Hu //. by apply (db_inode _ _ _ _ Hf).
  - apply Hd.
  - apply Hd.
Qed.
Lemma frees_step c F c1 f : frees c F c1 -> data_block c f -> f ∉ F -> used_block g c1 f = true /\ frees c (F ++ [f]) (freed g c1 f).
Proof.
  intros [Hd Hu Hs] Hf Hn. pose proof (db_range _ _ _ _ Hf) as Hr. assert (used_block g c1 f = true) as Hu1.
  { rw Hu; [|lia]. rw (db_used _ _ _ _ Hf) bool_decide_eq_false_2 //. }
  split; [done|]. assert (data_block c1 f) as Hf1 by (destruct Hf; by split). split; [by apply disk_freed| |].
  - intros b Hb. rw (used_freed st) //; [|apply Hd|lia]. rw Hu //. destruct (Z.eqb_spec b f) as [->|Hne]; cbn [negb andb].
    + rw bool_decide_eq_true_2; [by rw andb_false_r|]. apply elem_of_app. right. by left.
    + f_equal. f_equal. apply bool_decide_ext. rw elem_of_app list_elem_of_singleton. tauto.
  - intros b Hb. rw /freed bupd_ne; [by apply Hs|]. apply not_eq_sym, Hb. lia.
Qed.

(** ** One block *)

(** With one block of bitmap, at most that block is logged. *)
Definition may_log hs hs' : Prop := hs' = hs \/ hs' = logged hs (BBLOCK 0 g).
Lemma may_log_again hs hs' : may_log hs hs' -> may_log hs (logged hs' (BBLOCK 0 g)).
Proof. intros [-> | ->]; right; [done|]. rw {1}/logged decide_True //. apply (proj1 (elem_logged hs _)). Qed.
Lemma may_log_len hs hs' : may_log hs hs' -> (length hs' <= length hs + 1)%nat.
Proof. intros [-> | ->]; [lia|apply length_logged]. Qed.
Lemma may_log_keeps hs hs' b : may_log hs hs' -> b ∈ hs -> b ∈ hs'.
Proof. intros [-> | ->]; [done|apply elem_logged_l]. Qed.
Lemma may_log_only hs hs' b : may_log hs hs' -> b <> BBLOCK 0 g -> b ∈ hs' -> b ∈ hs.
Proof. intros [-> | ->] Hb; [done|]. by apply (proj2 (elem_logged hs (BBLOCK 0 g))). Qed.
Lemma one_bitmap f : sb_size g <= 8192 -> 0 <= f < sb_size g -> BBLOCK f g = BBLOCK 0 g.
Proof. intros Hg Hf. rw /BBLOCK. change BPB with 8192. by rw !Z.div_small; [|lia..]. Qed.

Lemma bfree_frees s0 c F c1 hs hs1 H s f N : sb s0 = g -> sb_size g <= 8192 -> tx s0 c1 hs1 H s -> frees c F c1 -> may_log hs hs1 -> data_block c f -> f ∉ F ->
  (forall y, 0 <= y < sb_size g -> BBLOCK y g ∉ H.*1) -> (length H <= 1)%nat -> (length hs < 27)%nat -> (30 < N)%nat ->
  wp (bfree d f) N s (fun _ s' => exists c2 hs2, tx s0 c2 hs2 H s' /\ frees c (F ++ [f]) c2 /\ may_log hs hs2).
Proof.
  intros Eg Hone Ht Hfr Hlog Hf Hn HH HlH Hl HN. pose proof (db_range _ _ _ _ Hf) as Hr. pose proof (may_log_len _ _ Hlog) as Hl1.
  destruct (frees_step c F c1 f Hfr Hf Hn) as [Hu Hfr2]. pose proof (bfree_run me pid d st s0 c1 hs1 H s f N) as Hb. cbv zeta in Hb. rw Eg in Hb.
  apply wpp_never. eapply wpp_mono; [apply Hb; [done|apply (do_map _ _ _ (fr_disk _ _ _ Hfr))|lia|apply HH; lia|lia|lia|done]| |].
  - intros [] s' [_ Ht']. exists (freed g c1 f), (logged hs1 (BBLOCK f g)). split_and!; [done|done|]. rw one_bitmap //; [|lia]. by apply may_log_again.
  - intros msg [_ Hf0]. congruence.
Qed.

(** ** The direct blocks *)

Lemma cleared_next x i a : i_addrs x !! i = Some a -> <[i := 0]> (i_addrs (cleared x i)) = i_addrs (cleared x (S i)).
Proof.
  intros Ha. cbn [cleared set_i_addrs i_addrs]. rw (drop_S _ _ _ Ha). rw insert_app_r_alt; [|by rw length_replicate]. rw length_replicate Nat.sub_diag. cbn [insert list_insert].
  rw replicate_S_end -app_assoc //.
Qed.
Lemma cleared_at x i a : i_addrs x !! i = Some a -> i_addrs (cleared x i) !! i = Some a.
Proof. intros Ha. cbn. rw lookup_app_r length_replicate // Nat.sub_diag lookup_drop Nat.add_0_r //. Qed.
Lemma cleared_set x i a : i_addrs x !! i = Some a -> set_i_addrs (<[i := 0]> (i_addrs (cleared x i))) (cleared x i) = cleared x (S i).
Proof. intros Ha. by rw (cleared_next _ _ _ Ha). Qed.
Lemma cleared_zero x i : i_addrs x !! i = Some 0 -> cleared x (S i) = cleared x i.
Proof. intros Ha. rw -(cleared_set _ _ _ Ha) list_insert_id; [by destruct x|by apply cleared_at]. Qed.
Lemma direct_next x i a : i_addrs x !! i = Some a -> direct x (S i) = if decide (a = 0) then direct x i else direct x i ++ [a].
Proof.
  intros Ha. rw /direct (take_S_r _ _ _ Ha) filter_app filter_cons filter_nil. destruct (decide (a <> 0)), (decide (a = 0)); try done. by rw app_nil_r.
Qed.
Lemma direct_in c x i a : (i <= 12)%nat -> a ∈ direct x i -> exists k, 0 <= k < Z.of_nat i /\ faddr c x k = a /\ a <> 0.
Proof.
  intros Hi [Ha (j & Hj)%list_elem_of_lookup]%list_elem_of_filter. apply lookup_take_Some in Hj as [Hj Hlt]. exists (Z.of_nat j). split; [lia|]. split; [|done].
  rw /faddr (proj2 (Z.ltb_lt _ _)); [|lia]. rw Nat2Z.id. by apply list_lookup_total_correct.
Qed.
Lemma direct_wp s0 c hs s ip x N : sb s0 = g -> sb_size g <= 8192 -> tx s0 c hs [] s -> icache s0 !! ip = Some x -> good_file c x -> (length hs < 27)%nat -> (30 < N)%nat ->
  wp (for_each (rangeZ (Z.to_nat NDIRECT)) (fun i => a ← addr_at ip i; when (negb (a =? 0)) (dev ← geti ip i_dev; bfree dev a;; set_addr ip i 0))) N s
    (fun _ s' => exists c1 hs1, tx (with_inode ip (cleared x 12) s0) c1 hs1 [] s' /\ frees c (direct x 12) c1 /\ may_log hs hs1).
Proof.
  intros Eg Hone Ht Hx [Hd Hf Hs Hi] Hl HN. pose proof (fo_addrs _ _ _ _ Hf) as Ha.
  apply (wp_for_each_range (fun i s' => exists c1 hs1, tx (with_inode ip (cleared x i) s0) c1 hs1 [] s' /\ frees c (direct x i) c1 /\ may_log hs hs1)); [| |done].
  { exists c, hs. split_and!; [|by apply frees_nil|by left]. replace (cleared x 0) with x by by destruct x. by rw with_inode_id. }
  intros i s1 Hlt (c1 & hs1 & H1 & Hfr & Hlog). change (Z.to_nat NDIRECT) with 12%nat in Hlt. destruct (lookup_lt_is_Some_2 (i_addrs x) i) as [a Hai]; [lia|].
  assert (icache (with_inode ip (cleared x i) s0) !! ip = Some (cleared x i)) as Hxi by by eapply with_inode_at.
  assert (length (i_addrs (cleared x i)) = 13%nat) as Hli by (cbn; rw length_app length_replicate length_drop; lia).
  apply wp_bind. rw /wp (addr_at_run me pid d st _ c1 hs1 [] s1 ip (cleared x i) (Z.of_nat i) N H1 Hxi Hli); [|lia].
  rw Nat2Z.id (list_lookup_total_correct _ _ _ (cleared_at x i a Hai)). rw (direct_next x i a Hai).
  destruct (Z.eqb_spec a 0) as [->|Hn]; cbn [negb when].
  { apply wp_ret. exists c1, hs1. rw cleared_zero //. }
  rw decide_False //. apply wp_bind. rw /wp (tx_geti me pid d st _ c1 hs1 [] s1 ip (cleared x i) _ N H1 Hxi). change (i_dev (cleared x i)) with (i_dev x). rw (in_dev _ _ _ Hi).
  assert (faddr c x (Z.of_nat i) = a) as Efa by (rw /faddr (proj2 (Z.ltb_lt _ _)); [|lia]; rw Nat2Z.id; by apply list_lookup_total_correct).
  apply wp_bind. eapply wp_mono.
  { apply (bfree_frees (with_inode ip (cleared x i) s0) c (direct x i) c1 hs hs1 [] s1 a N); try done; [rw -Efa; apply Hf; [lia|by rw Efa]| |by intros y Hy; apply not_elem_of_nil|cbn; lia].
    intros Hin. destruct (direct_in c x i a ltac:(lia) Hin) as (k & Hk & Ek & _). assert (k = Z.of_nat i) as -> by (apply (fo_inj _ _ _ _ Hf); [lia|lia|by rw Ek|by rw Ek Efa]). lia. }
  intros [] s2 (c2 & hs2 & H2 & Hfr2 & Hlog2). eapply wp_mono; [by apply (tx_seti me pid d st _ c2 hs2 [] s2 ip (cleared x i) _ N H2)|].
  intros [] s3 H3. exists c2, hs2. split_and!; [|done|done]. rw with_inode_twice in H3. rw /arr_set Nat2Z.id (cleared_set _ _ _ Hai) in H3. exact H3.
Qed.

(** ** The indirect blocks *)

Lemma indirects_next c x (j : nat) : let a := ientry c (indirect x) (Z.of_nat j) in
  indirects c x (S j) = if decide (a = 0) then indirects c x j else indirects c x j ++ [a].
Proof.
  intros a. rw /indirects rangeZ_S fmap_app filter_app. cbn [fmap list_fmap]. rw -/a filter_cons filter_nil. destruct (decide (a <> 0)), (decide (a = 0)); try done. by rw app_nil_r.
Qed.
Lemma indirects_in c x j a : (j <= 256)%nat -> indirect x <> 0 -> a ∈ indirects c x j -> exists k, 12 <= k < 12 + Z.of_nat j /\ faddr c x k = a /\ a <> 0.
Proof.
  intros Hj Hi [Ha (i & -> & Hin)%list_elem_of_fmap]%list_elem_of_filter. apply list_elem_of_lookup in Hin as [k Hk]. apply lookup_lt_Some in Hk as Hlt. rw length_rangeZ in Hlt.
  rw rangeZ_lookup // in Hk. injection Hk as <-. exists (12 + Z.of_nat k). split; [lia|]. split; [|done]. rw /faddr (proj2 (Z.ltb_ge _ _)); [|lia]. rw (proj2 (Z.eqb_neq _ _) Hi). f_equal. lia.
Qed.
Lemma faddr_indirect c x (j : nat) : indirect x <> 0 -> faddr c x (12 + Z.of_nat j) = ientry c (indirect x) (Z.of_nat j).
Proof. intros Hi. rw /faddr (proj2 (Z.ltb_ge _ _)); [|lia]. rw (proj2 (Z.eqb_neq _ _) Hi). f_equal. lia. Qed.
(** The blocks before a place of the file do not hold that place's block. *)
Lemma block_new c x (j : nat) : file_ok st g c x -> (j < 256)%nat -> indirect x <> 0 -> let a := ientry c (indirect x) (Z.of_nat j) in a <> 0 -> a ∉ direct x 12 ++ indirects c x j.
Proof.
  intros Hf Hj Hi a Hn Hin. assert (exists k, 0 <= k < 12 + Z.of_nat j /\ faddr c x k = a) as (k & Hk & Ek).
  { apply elem_of_app in Hin as [Hin|Hin]; [destruct (direct_in c x 12 a ltac:(lia) Hin) as (k & ? & ? & _)|destruct (indirects_in c x j a ltac:(lia) Hi Hin) as (k & ? & ? & _)]; exists k; (split; [lia|done]). }
  pose proof (faddr_indirect c x j Hi) as Ej. assert (k = 12 + Z.of_nat j) as -> by (apply (fo_inj _ _ _ _ Hf); [lia|lia|by rw Ek|by rw Ek Ej]). lia.
Qed.
Lemma indirect_new c x : file_ok st g c x -> indirect x <> 0 -> indirect x ∉ direct x 12 ++ indirects c x 256.
Proof.
  intros Hf Hi Hin. assert (exists k, in_file k /\ faddr c x k = indirect x) as (k & Hk & Ek).
  { apply elem_of_app in Hin as [Hin|Hin]; [destruct (direct_in c x 12 _ ltac:(lia) Hin) as (k & ? & ? & _)|destruct (indirects_in c x 256 _ ltac:(lia) Hi Hin) as (k & ? & ? & _)]; exists k; (split; [lia|done]). }
  by apply (fo_apart _ _ _ _ Hf k Hk); rw Ek.
Qed.
Lemma entries_wp s0 c hs c1 hs1 s x bp N : sb s0 = g -> sb_size g <= 8192 -> good_file c x -> indirect x <> 0 -> tx s0 c1 hs1 [(indirect x, bp)] s ->
  frees c (direct x 12) c1 -> may_log hs hs1 -> (length hs < 27)%nat -> (30 < N)%nat ->
  wp (for_each (rangeZ (Z.to_nat NINDIRECT)) (fun j => dt ← getdata bp; when (negb (ldb 4 dt (4 * j) =? 0)) (bfree d (ldb 4 dt (4 * j))))) N s
    (fun _ s' => exists c2 hs2, tx s0 c2 hs2 [(indirect x, bp)] s' /\ frees c (direct x 12 ++ indirects c x 256) c2 /\ may_log hs hs2 /\ c2 (indirect x) = c1 (indirect x)).
Proof.
  intros Eg Hone [Hd Hf Hs Hi] Hin Ht Hfr Hlog Hl HN. pose proof (fo_indirect _ _ _ _ Hf Hin) as Hdb.
  assert (forall F c', frees c F c' -> c' (indirect x) = c (indirect x)) as Hsame by (intros F c' Hfr'; apply (fr_same _ _ _ Hfr'), Hdb).
  apply (wp_for_each_range (fun j s' => exists c2 hs2, tx s0 c2 hs2 [(indirect x, bp)] s' /\ frees c (direct x 12 ++ indirects c x j) c2 /\ may_log hs hs2)).
  { exists c1, hs1. split_and!; [done| |done]. by rw app_nil_r. }
  2:{ intros s' (c2 & hs2 & H2 & Hfr2 & Hlog2). exists c2, hs2. split_and!; [done|done|done|]. by rw (Hsame _ _ Hfr2) (Hsame _ _ Hfr). }
  intros j s1 Hj (c2 & hs2 & H2 & Hfr2 & Hlog2). change (Z.to_nat NINDIRECT) with 256%nat in Hj.
  apply wp_bind. rw /wp (tx_getdata me pid d st s0 c2 hs2 _ s1 (indirect x) bp N H2); [|by left]. rw (Hsame _ _ Hfr2) indirects_next.
  change (ldb 4 (c (indirect x)) (4 * Z.of_nat j)) with (ientry c (indirect x) (Z.of_nat j)). set (a := ientry c (indirect x) (Z.of_nat j)).
  destruct (Z.eqb_spec a 0) as [E|Hn]; cbn [negb when].
  { apply wp_ret. exists c2, hs2. rw decide_True //. }
  rw decide_False //. pose proof (faddr_indirect c x j Hin) as Ej. rw -/a in Ej. eapply wp_mono.
  { apply (bfree_frees s0 c (direct x 12 ++ indirects c x j) c2 hs hs2 [(indirect x, bp)] s1 a N); try done; [rw -Ej; apply Hf; [lia|by rw Ej]|by apply block_new|].
    intros y Hy. apply not_elem_of_cons. split; [by apply (db_map _ _ _ _ Hdb)|apply not_elem_of_nil]. }
  intros [] s2 (c3 & hs3 & H3 & Hfr3 & Hlog3). exists c3, hs3. by rw app_assoc.
Qed.

(** ** [itrunc] *)

Definition emptied (x : inode) : inode := set_i_size 0 (cleared x 13).
Lemma indirect_cleared x : length (i_addrs x) = 13%nat -> i_addrs x !! 12%nat = Some (indirect x).
Proof. intros Hl. destruct (lookup_lt_is_Some_2 (i_addrs x) 12) as [a Ha]; [lia|]. by rw Ha /indirect (list_lookup_total_correct _ _ _ Ha). Qed.
(** The indirect part. *)
Lemma indirect_wp s0 c hs c1 hs1 s ip x N : sb s0 = g -> sb_size g <= 8192 -> good_file c x -> icache s0 !! ip = Some x -> tx (with_inode ip (cleared x 12) s0) c1 hs1 [] s ->
  frees c (direct x 12) c1 -> may_log hs hs1 -> (length hs < 27)%nat -> (30 < N)%nat ->
  wp (a ← addr_at ip NDIRECT;
      when (negb (a =? 0))
        (dev ← geti ip i_dev;
         bp ← bread dev a;
         for_each (rangeZ (Z.to_nat NINDIRECT)) (fun j => dt ← getdata bp; when (negb (ldb 4 dt (4 * j) =? 0)) (bfree dev (ldb 4 dt (4 * j))));;
         brelse bp;;
         bfree dev a;;
         set_addr ip NDIRECT 0)) N s
    (fun _ s' => exists c2 hs2, tx (with_inode ip (cleared x 13) s0) c2 hs2 [] s' /\ frees c (blocks c x) c2 /\ may_log hs hs2).
Proof.
  intros Eg Hone Hg Hx Ht Hfr Hlog Hl HN. pose proof Hg as [Hd Hf Hs Hi]. pose proof (indirect_cleared x (fo_addrs _ _ _ _ Hf)) as H12. pose proof (may_log_len _ _ Hlog) as Hl1.
  set (s1 := with_inode ip (cleared x 12) s0) in *. assert (icache s1 !! ip = Some (cleared x 12)) as Hx1 by by eapply with_inode_at.
  apply wp_bind. rw /wp (addr_at_run me pid d st s1 c1 hs1 [] s ip (cleared x 12) 12 N Ht Hx1); [|cbn; rw length_drop (fo_addrs _ _ _ _ Hf); done|lia].
  change (Z.to_nat 12) with 12%nat. rw (list_lookup_total_correct _ _ _ (cleared_at x 12 _ H12)). rw /blocks. destruct (Z.eqb_spec (indirect x) 0) as [E0|Hn]; cbn [negb when].
  { apply wp_ret. exists c1, hs1. rw app_nil_r. split_and!; [|done|done]. rw E0 in H12. by rw (cleared_zero x 12 H12). }
  pose proof (fo_indirect _ _ _ _ Hf Hn) as Hdb.
  apply wp_bind. rw /wp (tx_geti me pid d st s1 c1 hs1 [] s ip (cleared x 12) _ N Ht Hx1). change (i_dev (cleared x 12)) with (i_dev x). rw (in_dev _ _ _ Hi).
  pose proof (tx_cleans me pid d st s1 c1 hs1 s (indirect x) Ht) as Hcl.
  eapply tx_opens; [done|apply (db_home _ _ _ _ Hdb)|lia|done|]. intros bp s2 H2.
  apply wp_bind. eapply wp_mono; [by apply (entries_wp s1 c hs c1 hs1 s2 x bp N)|]. intros [] s3 (c3 & hs3 & H3 & Hfr3 & Hlog3 & Esame).
  apply wp_bind. eapply wp_mono; [eapply (tx_brelse me pid d st); [exact H3|]|].
  { destruct Hcl as [Hin|Ec]; [left|right; by rw Esame]. eapply may_log_keeps; [exact Hlog3|]. eapply may_log_only; [exact Hlog| |exact Hin].
    apply not_eq_sym, (db_map _ _ _ _ Hdb). pose proof (db_range _ _ _ _ Hdb). lia. }
  intros [] s4 H4. apply wp_bind. eapply wp_mono.
  { apply (bfree_frees s1 c (direct x 12 ++ indirects c x 256) c3 hs hs3 [] s4 (indirect x) N); try done; [by apply indirect_new|by intros y Hy; apply not_elem_of_nil|cbn; lia]. }
  intros [] s5 (c5 & hs5 & H5 & Hfr5 & Hlog5). eapply wp_mono; [by apply (tx_seti me pid d st s1 c5 hs5 [] s5 ip (cleared x 12) _ N H5)|].
  intros [] s6 H6. exists c5, hs5. rw app_assoc. split_and!; [|done|done]. rw /s1 with_inode_twice in H6. exact (eq_ind _ (fun y => tx (with_inode ip y s0) c5 hs5 [] s6) H6 _ (cleared_set _ _ _ H12)).
Qed.

Lemma emptied_file c x : disk_ok c -> length (i_addrs x) = 13%nat -> file_ok st g c (emptied x) /\ sized c (emptied x).
Proof.
  intros Hd Hl. assert (i_addrs (emptied x) = replicate 13 0) as Ea by (cbn; by rw drop_ge ?Hl). assert (indirect (emptied x) = 0) as Ei by by rw /indirect Ea.
  assert (forall k, in_file k -> faddr c (emptied x) k = 0) as Hf.
  { intros k Hk. rw /faddr Ei Ea. destruct (Z.ltb_spec k 12); [|done]. apply list_lookup_total_correct, lookup_replicate_2. lia. }
  split; split; rw ?Ea ?Ei //.
  - intros k Hk. by rw Hf.
  - intros j k Hj Hk. by rw Hf.
  - intros k Hk Hlt. cbn in Hlt. lia.
Qed.
(** C19: [itrunc] frees the blocks of the file and no other: exactly its direct
    blocks, those of its indirect block and the indirect block itself lose
    their mark, none of them twice; the inode, in memory and on disk, is empty;
    every block outside the bitmap and the inode's own is as it was; disk and
    file are well formed, and at most two blocks are logged.  For disks whose
    bitmap is one block, of 8192 blocks at most. *)
Theorem itrunc_frees s0 c hs s ip x N : sb s0 = g -> sb_size g <= 8192 -> tx s0 c hs [] s -> icache s0 !! ip = Some x -> good_file c x -> (length hs < 27)%nat -> (30 < N)%nat ->
  wp (itrunc ip) N s (fun _ s' => exists c' hs', tx (with_inode ip (emptied x) s0) c' hs' [] s' /\
    (forall b, 0 <= b < sb_size g -> used_block g c' b = used_block g c b && negb (bool_decide (b ∈ blocks c x))) /\
    (forall b, (forall y, 0 <= y < sb_size g -> BBLOCK y g <> b) -> b <> IBLOCK (i_inum x) g -> c' b = c b) /\
    on_disk g c' (emptied x) /\ good_file c' (emptied x) /\ (length hs' <= length hs + 2)%nat).
Proof.
  intros Eg Hone Ht Hx Hg Hl HN. pose proof Hg as [Hd Hf Hs Hi]. rw /itrunc. apply wp_bind. eapply wp_mono; [by apply (direct_wp s0 c hs s ip x N)|].
  intros [] s1 (c1 & hs1 & H1 & Hfr1 & Hlog1).
  eapply wp_nest; [by apply (indirect_wp s0 c hs c1 hs1 s1 ip x N)|]. intros [] s2 (c2 & hs2 & H2 & Hfr2 & Hlog2). pose proof (may_log_len _ _ Hlog2) as Hl2.
  apply wp_bind. eapply wp_mono; [by apply (tx_seti me pid d st _ c2 hs2 [] s2 ip (cleared x 13) _ N H2); eapply with_inode_at|]. intros [] s3 H3. rw with_inode_twice -/(emptied x) in H3.
  assert (inode_ok d g (emptied x)) as Hok by (destruct Hi; by split). pose proof (fr_disk _ _ _ Hfr2) as Hd2.
  destruct (emptied_file c2 x Hd2 (fo_addrs _ _ _ _ Hf)) as [Hf2 Hs2].
  eapply wp_mono; [apply (iupdate_wp me pid d st g (with_inode ip (emptied x) s0) c2 hs2 s3 ip (emptied x) N Eg H3); try done; [by eapply with_inode_at|lia]|]. intros [] s4 H4.
  destruct (iupdated_ok d st g c2 (emptied x) Hd2 Hf2 Hok ltac:(cbn; lia)) as (Hd4 & Hf4 & Hod & Hfa & _).
  eexists _, _. split_and!; [exact H4| | |done| |].
  - intros b Hb. rw /iupdated used_bupd //; [by apply (fr_used _ _ _ Hfr2)|]. intros y Hy. apply (do_apart _ _ _ Hd2); [apply Hi|done].
  - intros b Hb Hne. rw /iupdated bupd_ne //. by apply (fr_same _ _ _ Hfr2).
  - split; [done|done| |done]. split; [cbn; lia|]. intros k Hk Hlt. cbn in Hlt. lia.
  - pose proof (length_logged hs2 (IBLOCK (i_inum (emptied x)) g)). lia.
Qed.
End trunc.

(** ** An instance *)

#[local] Existing Instance small_layout.
#[local] Existing Instance ram_driver.
#[local] Existing Instance ram_ok.

(** The directory of [fst1] has block 46. *)
Lemma itrunc_frees_witness : wp (itrunc 0) 40%nat fst1 (fun _ s' => icache s' !! 0%nat = Some (emptied (cached 1 sb0 ct 1 1 (Sleeplock false 0))) /\
  exists c, forall b, 0 <= b < 60 -> used_block sb0 c b = (b <? 48) && negb (b =? 46)).
Proof.
  assert (tx 0 1 1 2 fst1 ct [] [] fst1) as Ht by exact (tx_inodes 0 1 1 2 fst0 ct [] [] fst0 _ fst0_tx).
  assert (live sb0 ct 1) as Hlv by (split; [done|by rw odi_1]). assert (sb_size sb0 <= 8192) as Hone by done.
  assert (blocks ct (cached 1 sb0 ct 1 1 (Sleeplock false 0)) = [46]) as Eb by by vm_compute.
  eapply wp_mono; [apply (itrunc_frees 0 1 1 2 sb0 fst1 ct [] fst1 0 _ 40%nat eq_refl Hone Ht eq_refl (tr_good _ _ _ _ tree0 1 Hlv)); [cbn; lia|lia]|].
  intros [] s' (c' & hs' & H' & Hu & _). split; [rw (tx_icache _ _ _ _ _ _ _ _ _ H'); reflexivity|]. exists c'. intros b Hb. rw Hu // ct_used // Eb. f_equal. f_equal.
  destruct (Z.eqb_spec b 46) as [->|Hne]; [by vm_compute|]. apply bool_decide_eq_false_2. by rw list_elem_of_singleton.
Defined.
