(* ===== verification/Pipe.v ===== *)
(** * [kernel/pipe.c]

    Pipes: a 512-byte circular buffer with two counters that wrap at 2^32.
    [struct pipe] lives in the page [pipealloc] obtained and is identified by
    the address of that page.  [pipealloc], which closes files on failure, is
    with the file layer. *)

From S2P Require Import Prelude Mem KString Spinlock Machine Kalloc Vm KState Proc.

Definition PIPESIZE : Z := 512.

Section pipe.
Context {lay : Layout}.

(** [pi->...]; a freed pipe is not accessible. *)
Definition getpi {A} (pi : Z) (f : pipe -> A) : K kstate A :=
  t ← gets pipes; p ← the (t !! pi); mret (f p).
Definition setpi (pi : Z) (f : pipe -> pipe) : K kstate unit :=
  modify (fun s => set_pipes (alter f pi (pipes s)) s).

(** [kfree(pi)] *)
Definition free_pipe (pi : Z) : K kstate unit :=
  modify (fun s => set_pipes (delete pi (pipes s)) s);; lift (kfree pi).

Definition pipeclose (pi : Z) (writable : bool) : K kstate unit :=
  acquire (L_pipe pi);;
  (if writable then setpi pi (set_pi_writeopen false);; wakeup (Ch_nread pi)
   else setpi pi (set_pi_readopen false);; wakeup (Ch_nwrite pi));;
  r ← getpi pi pi_readopen; w ← getpi pi pi_writeopen;
  if negb r && negb w then release (L_pipe pi);; free_pipe pi
  else release (L_pipe pi).

(** [pi->data[pi->nwrite++ % PIPESIZE] = ch;] *)
Definition pipe_put (ch : Z) (p : pipe) : pipe :=
  set_pi_nwrite (u32 (pi_nwrite p + 1))
    (set_pi_data (arr_set (pi_data p) (pi_nwrite p mod PIPESIZE) ch) p).
(** [pi->nread++] *)
Definition pipe_skip (p : pipe) : pipe := set_pi_nread (u32 (pi_nread p + 1)) p.

Definition pipe_full (p : pipe) : bool := pi_nwrite p =? u32 (pi_nread p + PIPESIZE).
Definition pipe_empty (p : pipe) : bool := pi_nread p =? pi_nwrite p.

Definition pipewrite (pi addr n : Z) : K kstate Z :=
  p ← myproc; pr ← the p;
  acquire (L_pipe pi);;
  r ← loop (fun i =>
    if negb (i <? n) then mret (inr (inr i)) else
    readopen ← getpi pi pi_readopen;
    killed ← getp pr p_killed;
    if negb readopen || negb (killed =? 0) then release (L_pipe pi);; mret (inr (inl tt)) else
    full ← getpi pi pipe_full;
    if full : bool then
      wakeup (Ch_nread pi);;
      sleep (Ch_nwrite pi) (L_pipe pi);;
      mret (inl i)
    else
      pt ← getp pr p_pagetable;
      e ← lift (copyin pt (kobj O_ch) (u64 (addr + i)) 1);
      if e =? -1 then mret (inr (inr i)) else
      ch ← gets (fun s => ld8 (mem (mach s)) (kobj O_ch));
      setpi pi (pipe_put ch);;
      mret (inl (i + 1))) 0;
  match r with
  | inl _ => mret (-1)
  | inr i => wakeup (Ch_nread pi);; release (L_pipe pi);; mret i
  end.

(** The wait for data; [None]: killed. *)
Definition piperead_wait (pi : Z) (pr : nat) : K kstate (option unit) :=
  loop (fun _ : unit =>
    empty ← getpi pi pipe_empty;
    writeopen ← getpi pi pi_writeopen;
    if negb (empty && writeopen) then mret (inr (Some tt)) else
    killed ← getp pr p_killed;
    if negb (killed =? 0) then release (L_pipe pi);; mret (inr None) else
    sleep (Ch_nread pi) (L_pipe pi);;
    mret (inl tt)) tt.

Definition piperead_copy (pi : Z) (pr : nat) (addr n : Z) : K kstate Z :=
  loop (fun i =>
    if negb (i <? n) then mret (inr i) else
    empty ← getpi pi pipe_empty;
    if empty : bool then mret (inr i) else
    data ← getpi pi pi_data;
    nread ← getpi pi pi_nread;
    ch ← arr_get data (nread mod PIPESIZE);
    setpi pi pipe_skip;;
    lift (poke_m (kobj O_ch) [ch]);;
    pt ← getp pr p_pagetable;
    e ← lift (copyout pt (u64 (addr + i)) (kobj O_ch) 1);
    if e =? -1 then mret (inr i) else mret (inl (i + 1))) 0.

Definition piperead (pi addr n : Z) : K kstate Z :=
  p ← myproc; pr ← the p;
  acquire (L_pipe pi);;
  w ← piperead_wait pi pr;
  match w with
  | None => mret (-1)
  | Some _ =>
    i ← piperead_copy pi pr addr n;
    wakeup (Ch_nwrite pi);;
    release (L_pipe pi);;
    mret i
  end.

End pipe.
