(* ===== verification/PipeSpec.v ===== *)
(** * Pipes as queues

    [pipe_repr p q]: the circular buffer of [p] holds the bytes [q], oldest
    first.  The counters wrap at 2^32; the theorems hold across the wrap.
    [exchange] runs a writer that sleeps whenever the pipe is full against a
    reader that drains it. *)

From S2P Require Import Prelude Mem KString Spinlock Machine Kalloc Printf Vm VmInv VmCopy KState Proc VmCheck VmSpec ProcInv Pipe.

(** ** The circular buffer *)

Record pipe_repr (p : pipe) (q : list Z) : Prop := {
  pq_data : length (pi_data p) = 512%nat;
  pq_nread : 0 <= pi_nread p < 2 ^ 32;
  pq_nwrite : 0 <= pi_nwrite p < 2 ^ 32;
  pq_count : u32 (pi_nwrite p - pi_nread p) = Z.of_nat (length q);
  pq_room : (length q <= 512)%nat;
  pq_bytes : forall i c, q !! i = Some c ->
    pi_data p !! Z.to_nat ((pi_nread p + Z.of_nat i) mod PIPESIZE) = Some c;
}.

Lemma u32_mod_512 a b : (u32 a + b) mod PIPESIZE = (a + b) mod PIPESIZE.
Proof.
  pose proof (Z.div_mod a (2 ^ 32) ltac:(done)). rw /u32 /PIPESIZE.
  replace (a + b) with (a mod 2 ^ 32 + b + (8388608 * (a / 2 ^ 32)) * 512) by lia.
  by rw Z.mod_add.
Qed.
Lemma u32_sub_cases a b : 0 <= a < 2 ^ 32 -> 0 <= b < 2 ^ 32 ->
  u32 (a - b) = if a <? b then a - b + 2 ^ 32 else a - b.
Proof.
  intros Ha Hb. rw /u32. case_match; zbool.
  - symmetry. apply (Z.mod_unique_pos _ _ (-1)); lia.
  - apply Z.mod_small. lia.
Qed.
Lemma u32_add_cases a b : 0 <= a < 2 ^ 32 -> 0 <= b < 2 ^ 32 ->
  u32 (a + b) = if a + b <? 2 ^ 32 then a + b else a + b - 2 ^ 32.
Proof.
  intros Ha Hb. rw /u32. case_match; zbool.
  - apply Z.mod_small. lia.
  - symmetry. apply (Z.mod_unique_pos _ _ 1); lia.
Qed.

Section repr.
Implicit Types (p : pipe) (q : list Z).

Lemma pipe_full_spec p q : pipe_repr p q -> pipe_full p = bool_decide (length q = 512%nat).
Proof.
  intros [_ Hr Hw Hc Hq _]. rw /pipe_full /PIPESIZE. rw u32_sub_cases // in Hc.
  rw u32_add_cases //. case_bool_decide; [apply Z.eqb_eq|apply Z.eqb_neq];
    destruct (Z.ltb_spec (pi_nwrite p) (pi_nread p)), (Z.ltb_spec (pi_nread p + 512) (2 ^ 32)); lia.
Qed.
Lemma pipe_empty_spec p q : pipe_repr p q -> pipe_empty p = bool_decide (q = []).
Proof.
  intros [_ Hr Hw Hc Hq _]. rw /pipe_empty. rw u32_sub_cases // in Hc.
  case_bool_decide as E; [apply Z.eqb_eq|apply Z.eqb_neq].
  - subst q. simpl in Hc. case_match; zbool; lia.
  - destruct q; [done|]. simpl in Hc. case_match; zbool; lia.
Qed.

Lemma mod_512_range a : 0 <= a mod PIPESIZE < 512.
Proof. by apply Z.mod_pos_bound. Qed.
(** Positions less than a buffer apart are distinct cells. *)
Lemma mod_512_inj a i j : 0 <= i < 512 -> 0 <= j < 512 ->
  (a + i) mod PIPESIZE = (a + j) mod PIPESIZE -> i = j.
Proof.
  intros Hi Hj E. pose proof (Z.div_mod (a + i) PIPESIZE ltac:(done)).
  pose proof (Z.div_mod (a + j) PIPESIZE ltac:(done)). rw /PIPESIZE in E H H0. lia.
Qed.

Lemma pipe_put_repr p q ch :
  pipe_repr p q -> (length q < 512)%nat -> pipe_repr (pipe_put ch p) (q ++ [ch]).
Proof.
  intros [Hd Hr Hw Hc Hq Hb] Hlt. rw u32_sub_cases // in Hc.
  assert (pi_nwrite p mod PIPESIZE = (pi_nread p + Z.of_nat (length q)) mod PIPESIZE) as Ew.
  { rw -Hc. case_match; [|f_equal; lia].
    replace (pi_nread p + (pi_nwrite p - pi_nread p + 2 ^ 32)) with (pi_nwrite p + 8388608 * PIPESIZE) by (rw /PIPESIZE; lia).
    by rw Z.mod_add. }
  split; simpl.
  - by rw length_insert.
  - done.
  - apply u32_range.
  - rw length_app u32_sub_cases; [|apply u32_range|done]. rw u32_add_cases //. simpl.
    repeat (case_match; zbool); lia.
  - rw length_app /=. lia.
  - intros i c Hi. rw /arr_set. apply lookup_app_Some in Hi as [Hi|[Hge Hi]].
    + pose proof (lookup_lt_Some _ _ _ Hi). rw list_lookup_insert_ne; [by apply Hb|].
      rw Ew. intros E. pose proof (mod_512_range (pi_nread p + Z.of_nat (length q))).
      pose proof (mod_512_range (pi_nread p + Z.of_nat i)).
      assert (Z.of_nat (length q) = Z.of_nat i); [|lia].
      apply (mod_512_inj (pi_nread p)); [lia|lia|]. apply Z2Nat.inj in E; lia.
    + apply list_lookup_singleton_Some in Hi as [Hi ->].
      assert (i = length q) as -> by lia. rw Ew list_lookup_insert_eq //.
      pose proof (mod_512_range (pi_nread p + Z.of_nat (length q))). lia.
Qed.

Lemma pipe_skip_repr p c q :
  pipe_repr p (c :: q) ->
  pi_data p !! Z.to_nat (pi_nread p mod PIPESIZE) = Some c /\ pipe_repr (pipe_skip p) q.
Proof.
  intros [Hd Hr Hw Hc Hq Hb]. rw u32_sub_cases // in Hc. simpl in Hc, Hq. split.
  { rw -(Hb O c) //. by rw Z.add_0_r. }
  split; simpl; try done.
  - apply u32_range.
  - rw u32_sub_cases; [|done|apply u32_range]. rw u32_add_cases //. repeat (case_match; zbool); lia.
  - lia.
  - intros i d Hi. rw u32_mod_512. rw -(Hb (S i) d) //. do 3 f_equal. lia.
Qed.
End repr.

(** ** Moving bytes between a pipe and user memory *)

Section transfer.
Context {lay : Layout}.
Implicit Types (m : memory) (T : gmap (list Z) Z) (s : kstate).

Abbreviation CH := (kobj O_ch).

(** A buffer of [n] bytes at [u] that user code may access: allocatable pages,
    no tables, distinct. *)
Record user_buf m T (u n : Z) : Prop := {
  ub_page : forall va, u <= va < u + n -> page_ok (upage m T va);
  ub_table : forall va x p, u <= va < u + n -> T !! x = Some p -> upage m T va <> p;
  ub_inj : forall va vb, u <= va < u + n -> u <= vb < u + n ->
    upage m T va = upage m T vb -> va - va mod PGSIZE = vb - vb mod PGSIZE;
  ub_lo : 0 <= u;
  ub_hi : u + n <= 2 ^ 64;
}.

(** Kernel objects are not in allocatable pages. *)
Lemma kobj_off_page o p : page_ok p -> off_page p (kobj o).
Proof.
  intros Hp. pose proof (page_ok_range p Hp). destruct (kobj_out o) as [_ [H'|H']], Hp as [_ Hp];
    rw /off_page; [left|right]; pglia.
Qed.

Lemma user_buf_nonzero m T u n va : user_buf m T u n -> u <= va < u + n -> upage m T va <> 0.
Proof. intros Hb Hva. pose proof (page_ok_u64 _ (ub_page _ _ _ _ Hb va Hva)). lia. Qed.

Lemma user_buf_range m T u n i :
  user_buf m T u n -> 0 <= i < n -> user_range m T (u + i) CH 1.
Proof.
  intros Hb Hi. split.
  - intros va x p Hva. apply (ub_table _ _ _ _ Hb). lia.
  - intros va a Hva _ Ha. replace a with CH by lia. apply kobj_off_page, (ub_page _ _ _ _ Hb). lia.
  - intros va vb Hva Hvb _. apply (ub_inj _ _ _ _ Hb); lia.
Qed.
Lemma user_buf_inj m T u n va vb :
  user_buf m T u n -> u <= va < u + n -> u <= vb < u + n -> uphys m T va = uphys m T vb -> va = vb.
Proof.
  intros Hb Ha Hv E.
  assert (upage m T va = upage m T vb) as Ep.
  { symmetry. apply uphys_page; [apply upage_aligned|]. rw -E. apply uphys_in. }
  pose proof (ub_inj _ _ _ _ Hb va vb Ha Hv Ep). rw /uphys Ep in E. lia.
Qed.
Lemma uphys_not_ch m T u n va : user_buf m T u n -> u <= va < u + n -> uphys m T va <> CH.
Proof.
  intros Hb Hva E. pose proof (kobj_off_page O_ch _ (ub_page _ _ _ _ Hb va Hva)) as Ho.
  pose proof (uphys_in m T va). rw /off_page in Ho. lia.
Qed.

Lemma lost_1 u k : lost u k 1 = 0.
Proof.
  pose proof (Z.mod_pos_bound u PGSIZE ltac:(done)). rw lost_last; [done|lia|lia].
Qed.

(** [m'] is [m] with [bs] delivered at the user addresses from [u], the
    one-byte kernel variable [ch] aside. *)
Record delivered m T (u : Z) (bs : list Z) m' : Prop := {
  dl_in : forall j c, bs !! j = Some c -> ld8 m' (uphys m T (u + Z.of_nat j)) = c;
  dl_out : forall a, a <> CH ->
    (forall j, (j < length bs)%nat -> uphys m T (u + Z.of_nat j) <> a) -> ld8 m' a = ld8 m a;
}.

Lemma delivered_pt m root T u n bs m' :
  pt_inv m root T -> user_buf m T u n -> Z.of_nat (length bs) <= n -> delivered m T u bs m' ->
  pt_inv m' root T /\ forall va, upage m' T va = upage m T va.
Proof.
  intros Hpt Hb Hn [_ Ho].
  destruct (pt_inv_ext m m' root T) as [Hpt' Hlf]; [|done|].
  { intros x p a Hx Ha. apply Ho.
    - intros ->. pose proof (kobj_off_page O_ch p (pt_pages _ _ _ Hpt _ _ Hx)) as Hf. rw /off_page in Hf. lia.
    - intros j Hj E. apply (ub_table _ _ _ _ Hb (u + Z.of_nat j) x p); [lia|done|].
      apply uphys_page; [by apply (pt_pages _ _ _ Hpt x)|]. by rw E. }
  split; [done|]. intros va. by rw /upage /uaddr Hlf.
Qed.

(** Delivering one more byte: [ch = c; copyout(pagetable, u + i, &ch, 1)]. *)
Lemma deliver_one (ms : mstate) m root T u n bs c N :
  pt_inv m root T -> user_buf m T u n -> Z.of_nat (length bs) < n -> 0 <= c < 256 ->
  delivered m T u bs (mem ms) -> (1 < N)%nat ->
  wp (poke_m CH [c];; copyout root (u64 (u + Z.of_nat (length bs))) CH 1) N ms (fun e ms' =>
    e = 0 /\ ms' = set_mem (mem ms') ms /\ delivered m T u (bs ++ [c]) (mem ms')).
Proof.
  intros Hpt Hb Hn Hc Hdl HN. set (i := Z.of_nat (length bs)) in *.
  destruct (delivered_pt m root T u n bs (mem ms) Hpt Hb ltac:(lia) Hdl) as [Hpt1 Hup1].
  pose proof (ub_lo _ _ _ _ Hb). pose proof (ub_hi _ _ _ _ Hb).
  rw u64_small; [|lia]. apply wp_bind, wp_modify. set (ms1 := set_mem _ ms).
  assert (forall a, ld8 (mem ms1) a = if decide (a = CH) then c else ld8 (mem ms) a) as Hld1.
  { intros a. rw /ms1 /= ld8_st8. destruct (decide (CH = a)) as [<-|].
    - rw decide_True // u8_small //.
    - rw decide_False; [done|congruence]. }
  assert (delivered m T u bs (mem ms1)) as Hdl1.
  { destruct Hdl as [Hi Ho]. split.
    - intros j d Hj. pose proof (lookup_lt_Some _ _ _ Hj). rw Hld1 decide_False; [by apply Hi|].
      eapply uphys_not_ch; [done|lia].
    - intros a Ha Hj. rw Hld1 decide_False //. by apply Ho. }
  destruct (delivered_pt m root T u n bs (mem ms1) Hpt Hb ltac:(lia) Hdl1) as [Hpt2 Hup2].
  assert (forall va, uphys (mem ms1) T va = uphys m T va) as Hph by (intros va; by rw /uphys Hup2).
  eapply wp_mono; [apply (copyout_wp ms1 root T (u + i) CH 1 N); [done| |lia|lia|lia]|].
  { eapply user_range_ext; [apply Hup2|by apply (user_buf_range m T u n i); [|lia]|].
    apply (ur_kern _ _ _ _ _ (user_buf_range m T u n i Hb ltac:(lia))). }
  intros e ms2 [Hms2 [(-> & _ & Hcp)|(_ & c' & Hc' & E & _)]]; last first.
  { exfalso. rw Hup2 in E. eapply (user_buf_nonzero m T u n); [done| |exact E]. lia. }
  rw lost_1 Z.sub_0_r in Hcp. destruct Hcp as [Hin Hout]. split_and!; [done|by rw Hms2|].
  assert (ld8 (mem ms2) (uphys m T (u + i)) = c) as Hnew.
  { rw -Hph Hin; [|lia]. rw Z.sub_diag Z.add_0_r Hld1 decide_True //. }
  assert (forall a, uphys m T (u + i) <> a -> ld8 (mem ms2) a = ld8 (mem ms1) a) as Hrest.
  { intros a Ha. apply Hout. intros va Hva. rw Hph. by replace va with (u + i) by lia. }
  destruct Hdl1 as [Hi1 Ho1]. split.
  - intros j d Hj. apply lookup_app_Some in Hj as [Hj|[Hge Hj]].
    + pose proof (lookup_lt_Some _ _ _ Hj). rw Hrest; [by apply Hi1|]. intros E.
      apply (user_buf_inj m T u n) in E; [lia|done|lia|lia].
    + apply list_lookup_singleton_Some in Hj as [Hj ->]. replace (Z.of_nat j) with i by lia. done.
  - intros a Ha Hj. rw length_app /= in Hj. rw Hrest; [|apply (Hj (length bs)); lia].
    apply Ho1; [done|]. intros j Hlt. apply Hj. lia.
Qed.

(** ** Reading *)

(** A state that differs from [s] only in pipe [pi] and in memory. *)
Definition pipe_state (pi : Z) (pp : pipe) (m : memory) s : kstate :=
  set_mach (set_mem m (mach s)) (set_pipes (<[pi := pp]> (pipes s)) s).

Lemma getpi_run {A} pi pp (f : pipe -> A) s n :
  pipes s !! pi = Some pp -> getpi pi f n s = Ok (f pp) s.
Proof. intros Hp. rw /getpi /mbind /K_bind /= Hp //. Qed.
Lemma setpi_run pi pp f s n :
  pipes s !! pi = Some pp -> setpi pi f n s = Ok tt (set_pipes (<[pi := f pp]> (pipes s)) s).
Proof.
  intros Hp. rw /setpi /modify. do 3 f_equal. apply map_eq. intros k.
  rw lookup_alter lookup_insert. case_decide; subst; [by rw Hp|done].
Qed.

Lemma pipe_state_lookup pi pp m s : pipes (pipe_state pi pp m s) !! pi = Some pp.
Proof. apply lookup_insert_eq. Qed.
Lemma pipe_state_set pi pp pp' m m' s :
  set_mach (set_mem m' (mach (pipe_state pi pp m s)))
    (set_pipes (<[pi := pp']> (pipes (pipe_state pi pp m s))) (pipe_state pi pp m s))
  = pipe_state pi pp' m' s.
Proof. rw /pipe_state /=. by rw insert_insert_eq. Qed.

Definition byte_list (q : list Z) : Prop := Forall (fun c => 0 <= c < 256) q.

Lemma take_S_snoc (q : list Z) i c : q !! i = Some c -> take (S i) q = take i q ++ [c].
Proof. apply take_S_r. Qed.

Lemma piperead_copy_wp s pr p pi pp q root T u n N :
  procs s !! pr = Some p -> p_pagetable p = root -> pt_inv (mem (mach s)) root T ->
  user_buf (mem (mach s)) T u n -> pipes s !! pi = Some pp -> pipe_repr pp q -> byte_list q ->
  0 <= n -> (Z.to_nat n < N)%nat -> (1 < N)%nat ->
  wp (piperead_copy pi pr u n) N s (fun i s' => i = Z.min n (Z.of_nat (length q)) /\
    exists pp' m', s' = pipe_state pi pp' m' s /\ pipe_repr pp' (drop (Z.to_nat i) q) /\
      pi_readopen pp' = pi_readopen pp /\ pi_writeopen pp' = pi_writeopen pp /\
      delivered (mem (mach s)) T u (take (Z.to_nat i) q) m').
Proof.
  intros Hp Hroot Hpt Hb Hpi Hq Hby Hn HN HN1. set (m := mem (mach s)) in *.
  apply (wp_loop
    (fun i s' => 0 <= i <= n /\ i <= Z.of_nat (length q) /\
       exists pp' m', s' = pipe_state pi pp' m' s /\ pipe_repr pp' (drop (Z.to_nat i) q) /\
         pi_readopen pp' = pi_readopen pp /\ pi_writeopen pp' = pi_writeopen pp /\
         delivered m T u (take (Z.to_nat i) q) m')
    (fun i _ => Z.to_nat (n - i))).
  { split_and!; [lia..|]. exists pp, m. split_and!; [|done|done|done|].
    - rw /pipe_state insert_id // /m. by destruct s as [[]].
    - split; [done|]. intros a _ _. done. }
  { lia. }
  intros i s1 (Hi & Hiq & pp1 & m1 & -> & Hq1 & Hro & Hwo & Hdl).
  destruct (Z.ltb_spec i n) as [Hlt|Hge]; simpl; last first.
  { apply wp_ret. split; [lia|]. exists pp1, m1. done. }
  apply wp_bind. rw /wp (getpi_run pi pp1) ?pipe_state_lookup //. rw (pipe_empty_spec _ _ Hq1).
  destruct (drop (Z.to_nat i) q) as [|c q'] eqn:Ed.
  { rw bool_decide_eq_true_2 //. apply wp_ret. apply (f_equal length) in Ed. rw length_drop /= in Ed.
    split; [lia|]. exists pp1, m1. rw drop_ge; [|lia]. done. }
  rw bool_decide_eq_false_2 //.
  destruct (pipe_skip_repr _ _ _ Hq1) as [Hc Hq2].
  assert (q !! Z.to_nat i = Some c) as Hqi by by rw -(Nat.add_0_r (Z.to_nat i)) -lookup_drop Ed.
  assert (length (take (Z.to_nat i) q) = Z.to_nat i) as Elen.
  { rw length_take. apply lookup_lt_Some in Hqi. lia. }
  apply wp_bind. rw /wp (getpi_run pi pp1) ?pipe_state_lookup //.
  apply wp_bind. rw /wp (getpi_run pi pp1) ?pipe_state_lookup //.
  apply wp_bind, (wp_arr_get _ _ c); [apply mod_512_range|done|].
  apply wp_bind. rw /wp (setpi_run pi pp1) ?pipe_state_lookup //.
  pose proof (deliver_one (set_mem m1 (mach s)) m root T u n (take (Z.to_nat i) q) c N Hpt Hb) as Hd1.
  rw Elen Z2Nat.id in Hd1; [|lia].
  specialize (Hd1 ltac:(lia)). destruct (Forall_lookup_1 _ _ _ _ Hby Hqi) as [Hc0 Hc1].
  specialize (Hd1 ltac:(lia) Hdl HN1). apply wp_bind_inv in Hd1.
  apply wp_bind, wp_lift. eapply wp_mono; [exact Hd1|]. intros [] ms1 Hd2. clear Hd1.
  apply wp_bind. rw /wp (getp_run _ pr p) // Hroot.
  apply wp_bind, wp_lift. rw sget_sput. eapply wp_mono; [exact Hd2|].
  intros e ms2 (-> & Hms2 & Hdl2). apply wp_ret. split; [|lia].
  split_and!; [lia|lia|apply lookup_lt_Some in Hqi; lia|].
  exists (pipe_skip pp1), (mem ms2). rw Z2Nat.inj_add //; [|lia]. rw Nat.add_1_r.
  split_and!; [|rw (drop_S _ _ _ Hqi) in Ed; by simplify_eq|done|done|by rw (take_S_snoc _ _ c)].
  rw sput_sput {1}Hms2. exact (pipe_state_set pi pp1 (pipe_skip pp1) m1 (mem ms2) s).
Qed.

(** The effect of a non-blocking [piperead] by process [pr]. *)
Definition read_state (pr : nat) (pi : Z) (pp : pipe) (m : memory) s : kstate :=
  set_procs (imap (woken (Some pr) (Ch_nwrite pi)) (procs s)) (pipe_state pi pp m s).

Lemma locked_pipe_proc s pi i :
  locked (L_proc i) (lk_acq (L_pipe pi) (klk s)) = locked (L_proc i) (klk s).
Proof. by apply locked_acq_ne. Qed.

Lemma piperead_wp s pr p pi pp q root T u n N :
  cur s = Some pr -> procs s !! pr = Some p -> p_pagetable p = root -> length (procs s) = NPROC ->
  pt_inv (mem (mach s)) root T -> user_buf (mem (mach s)) T u n ->
  can_lock (L_pipe pi) s -> procs_unlocked s ->
  pipes s !! pi = Some pp -> pipe_repr pp q -> byte_list q -> (q <> [] \/ pi_writeopen pp = false) ->
  0 <= n -> (Z.to_nat n < N)%nat -> (1 < N)%nat ->
  wp (piperead pi u n) N s (fun i s' => i = Z.min n (Z.of_nat (length q)) /\
    exists pp' m', s' = read_state pr pi pp' m' s /\ pipe_repr pp' (drop (Z.to_nat i) q) /\
      pi_readopen pp' = pi_readopen pp /\ pi_writeopen pp' = pi_writeopen pp /\
      delivered (mem (mach s)) T u (take (Z.to_nat i) q) m').
Proof.
  intros Hc Hp Hroot Hlen Hpt Hb Hcl Hun Hpi Hq Hby Hne Hn HN HN1.
  rw /piperead. apply wp_bind. rw /wp myproc_run; [|apply Hcl]. rw Hc. apply wp_bind. rw /wp /=.
  apply wp_bind. rw /wp acquire_k //. set (s1 := set_klk _ s).
  apply wp_bind. assert (piperead_wait pi pr N s1 = Ok (Some tt) s1) as Hw.
  { rw /piperead_wait /loop. destruct N as [|N']; [lia|]. simpl. rw /mbind /K_bind.
    rw (getpi_run pi pp) //= (getpi_run pi pp) //= (pipe_empty_spec _ _ Hq).
    destruct Hne as [Hq0| ->]; [by rw bool_decide_eq_false_2|by rw andb_false_r]. }
  rw /wp Hw. apply wp_bind.
  eapply wp_mono; [apply (piperead_copy_wp s1 pr p pi pp q root T u n N); done|].
  intros i s2 (-> & pp' & m' & -> & Hq' & Hro & Hwo & Hdl).
  assert (lk_ok (lk_acq (L_pipe pi) (klk s))) as Hok1 by (apply lk_acq_ok; apply Hcl).
  apply wp_bind. rw /wp wakeup_run; [|done| |done].
  2:{ intros i Hi Hci. rw /klk /= locked_pipe_proc. by apply Hun. }
  apply wp_bind. rw /wp (release_acquired s) //. apply wp_ret. split; [done|].
  exists pp', m'. split_and!; [|done..]. rw /read_state Hc. by destruct s as [[]].
Qed.

(** ** Writing *)

(** The [n] bytes user code sees at [u]. *)
Definition user_bytes m T (u : Z) (n : nat) : list Z :=
  (fun j => ld8 m (uphys m T (u + j))) <$> rangeZ n.
Lemma user_bytes_S m T u n :
  user_bytes m T u (S n) = user_bytes m T u n ++ [ld8 m (uphys m T (u + Z.of_nat n))].
Proof. by rw /user_bytes /rangeZ seq_S !fmap_app. Qed.
Lemma length_user_bytes m T u n : length (user_bytes m T u n) = n.
Proof. by rw /user_bytes length_fmap length_rangeZ. Qed.

(** Memories that agree everywhere but on the kernel variable [ch]. *)
Definition same_but_ch m m' : Prop := forall a, a <> CH -> ld8 m' a = ld8 m a.

Lemma same_but_ch_pt m root T m' :
  pt_inv m root T -> same_but_ch m m' ->
  pt_inv m' root T /\ forall va, upage m' T va = upage m T va.
Proof.
  intros Hpt Hs. destruct (pt_inv_ext m m' root T) as [Hpt' Hlf]; [|done|].
  { intros x p a Hx Ha. apply Hs. intros ->.
    pose proof (kobj_off_page O_ch p (pt_pages _ _ _ Hpt _ _ Hx)) as Hf. rw /off_page in Hf. lia. }
  split; [done|]. intros va. by rw /upage /uaddr Hlf.
Qed.

(** [copyin(pagetable, &ch, u + i, 1)] *)
Lemma fetch_one (ms : mstate) m root T u n i N :
  pt_inv m root T -> user_buf m T u n -> 0 <= i < n -> same_but_ch m (mem ms) -> (1 < N)%nat ->
  wp (copyin root CH (u64 (u + i)) 1) N ms (fun e ms' =>
    e = 0 /\ ms' = set_mem (mem ms') ms /\ same_but_ch m (mem ms') /\
    ld8 (mem ms') CH = ld8 m (uphys m T (u + i))).
Proof.
  intros Hpt Hb Hi Hs HN. destruct (same_but_ch_pt m root T (mem ms) Hpt Hs) as [Hpt1 Hup].
  pose proof (ub_lo _ _ _ _ Hb). pose proof (ub_hi _ _ _ _ Hb). rw u64_small; [|lia].
  assert (forall va, uphys (mem ms) T va = uphys m T va) as Hph by (intros va; by rw /uphys Hup).
  eapply wp_mono; [apply (copyin_wp ms root T (u + i) CH 1 N); [done| | |lia|lia|lia]|].
  { eapply user_range_ext; [apply Hup|by apply (user_buf_range m T u n i)|].
    apply (ur_kern _ _ _ _ _ (user_buf_range m T u n i Hb ltac:(lia))). }
  { intros x p a Hx Ha. replace a with CH by lia. by apply kobj_off_page, (pt_pages _ _ _ Hpt x). }
  intros e ms2 [Hms2 [(-> & _ & Hcp)|(_ & c' & Hc' & E & _)]]; last first.
  { exfalso. rw Hup in E. eapply (user_buf_nonzero m T u n); [done| |exact E]. lia. }
  rw lost_1 Z.sub_0_r in Hcp. split_and!; [done|done| |].
  - intros a Ha. rw Hcp decide_False; [by apply Hs|lia].
  - rw Hcp decide_True; [|lia]. rw Z.sub_diag Z.add_0_r Hph. apply Hs.
    eapply uphys_not_ch; [done|lia].
Qed.

(** ** Writing, more than fits too *)

(** The body of [pipewrite]'s loop, and what follows the loop. *)
Definition write_body (pi : Z) (pr : nat) (addr n i : Z) : K kstate (Z + (unit + Z)) :=
  if negb (i <? n) then mret (inr (inr i)) else
  readopen ← getpi pi pi_readopen;
  killed ← getp pr p_killed;
  if negb readopen || negb (killed =? 0) then release (L_pipe pi);; mret (inr (inl tt)) else
  full ← getpi pi pipe_full;
  if full : bool then
    wakeup (Ch_nread pi);;
    sleep (Ch_nwrite pi) (L_pipe pi);;
    mret (inl i)
  else
    pt ← getp pr p_pagetable;
    e ← lift (copyin pt CH (u64 (addr + i)) 1);
    if e =? -1 then mret (inr (inr i)) else
    ch ← gets (fun s => ld8 (mem (mach s)) CH);
    setpi pi (pipe_put ch);;
    mret (inl (i + 1)).
Definition write_end (pi : Z) (r : unit + Z) : K kstate Z :=
  match r with
  | inl _ => mret (-1)
  | inr i => wakeup (Ch_nread pi);; release (L_pipe pi);; mret i
  end.
Lemma pipewrite_loop pi addr n wr s N : cur s = Some wr -> can_lock (L_pipe pi) s ->
  pipewrite pi addr n N s =
    bindr (loop_n N (write_body pi wr addr n) 0 N (set_klk (lk_acq (L_pipe pi) (klk s)) s)) (fun r s' => write_end pi r N s').
Proof. intros Hc Hl. rw /pipewrite /mbind /K_bind myproc_run; [|apply Hl]. rw Hc /= acquire_k //. Qed.

(** While the writer [wr] sleeps, process [rd] reads up to [k] bytes to [v];
    then the scheduler picks the writer again. *)
Definition reader_turn (pi : Z) (wr rd : nat) (v k : Z) : K kstate Z :=
  sched_leave wr;;
  modify (set_cur (Some rd));;
  x ← piperead pi v k;
  modify (set_cur None);;
  b ← sched_enter wr;
  if b : bool then mret x else panic "the writer is not runnable".
(** A run of [pipewrite] in which every sleep is such a turn: the bytes the
    reader saw in its buffer, the writer's result and the final state. *)
Fixpoint exchange (d : nat) (turn : kstate -> res kstate Z) (see : memory -> Z -> list Z) (got : list Z)
    (r : res kstate Z) : option (list Z * Z * kstate) :=
  match r, d with
  | Ok i s, _ => Some (got, i, s)
  | Sched s kk, S d' =>
    match turn s with
    | Ok x s' => exchange d' turn see (got ++ see (mem (mach s')) x) (kk s')
    | _ => None
    end
  | _, _ => None
  end.

Lemma woken_pagetable me ch i p : p_pagetable (woken me ch i p) = p_pagetable p.
Proof. rw /woken. by case_bool_decide. Qed.
Lemma woken_killed me ch i p : p_killed (woken me ch i p) = p_killed p.
Proof. rw /woken. by case_bool_decide. Qed.

Lemma byte_list_user m T u n : byte_list (user_bytes m T u n).
Proof.
  apply Forall_forall. intros c (j & -> & _)%list_elem_of_fmap. apply ld8_range.
Qed.
Lemma user_bytes_lookup m T u n j :
  (j < n)%nat -> user_bytes m T u n !! j = Some (ld8 m (uphys m T (u + Z.of_nat j))).
Proof. intros Hj. by rw /user_bytes list_lookup_fmap rangeZ_lookup. Qed.

(** What was delivered is what user code sees. *)
Lemma delivered_bytes m T v bs m' : delivered m T v bs m' -> (forall va, upage m' T va = upage m T va) ->
  user_bytes m' T v (length bs) = bs.
Proof.
  intros Hdl Hup. apply list_eq. intros j. destruct (decide (j < length bs)%nat) as [Hj|Hj].
  - destruct (lookup_lt_is_Some_2 bs j Hj) as [c Ec]. rw Ec user_bytes_lookup //. f_equal.
    rw -(dl_in _ _ _ _ _ Hdl j c Ec) /uphys. f_equal. by rw Hup.
  - rw !lookup_ge_None_2 //; [|rw length_user_bytes]; lia.
Qed.

Lemma user_buf_ext m m' T u n :
  (forall va, upage m' T va = upage m T va) -> user_buf m T u n -> user_buf m' T u n.
Proof.
  intros He [H1 H2 H3 H4 H5]. split; try done.
  - intros va Hva. rw He. by apply H1.
  - intros va x p Hva. rw He. by apply H2.
  - intros va vb Ha Hv. rw !He. by apply H3.
Qed.

(** The lock state of a process that sleeps with [l], through the switch to
    the scheduler and back. *)
Lemma leave_locks l i l0 : lk_ok l0 -> noff l0 = 0 -> l <> L_proc i ->
  locked l l0 = false -> locked (L_proc i) l0 = false ->
  lk_rel (L_proc i) (lk_rel l (lk_acq (L_proc i) (lk_acq l l0))) = l0.
Proof.
  intros Hok Hn Hne Hl Hi. rw -{2}(rel_acq (L_proc i) l0) //. destruct Hok as [_ _ _ He].
  rw /lk_rel /lk_acq /= Hn /=. f_equal. rw filter_cons_True; [|done]. rw !filter_cons_False /=; [|tauto..].
  f_equal. apply filter_all. intros [k' x] Hin Hk. simpl in Hk. subst k'.
  apply locked_false in Hl. apply Hl, list_elem_of_fmap. by exists (l, x).
Qed.
Lemma resume_after i l l0 s n : lk_ok l0 -> noff l0 = 0 -> locked l l0 = false -> locked (L_proc i) l0 = false ->
  klk s = lk_acq (L_proc i) l0 ->
  resume i l (sie l0) n s = Ok tt (set_procs (alter (set_p_chan None) i (procs s)) (set_klk (lk_acq l l0) s)).
Proof.
  intros Hok Hn Hl Hi Hk. rw /resume /mbind /K_bind (lift_Ok _ _ _ tt (lk_acq (L_proc i) l0)).
  2:{ change (Ok tt (set_intena (sie l0) (klk s)) = Ok tt (lk_acq (L_proc i) l0)). rw Hk /lk_acq /set_intena /= Hn //. }
  set (s1 := set_procs (alter (set_p_chan None) i (procs s)) (set_klk (lk_acq (L_proc i) l0) s)).
  change (bindr (release (L_proc i) n s1) (fun _ s' => acquire l n s') = Ok tt (set_procs (alter (set_p_chan None) i (procs s)) (set_klk (lk_acq l l0) s))).
  rw (release_acquired (set_klk l0 s) s1) //. cbn [bindr]. rw acquire_k //.
Qed.

Lemma alter_pipe (pi : Z) (f : pipe -> pipe) pp (t : gmap Z pipe) : t !! pi = Some pp -> alter f pi t = <[pi := f pp]> t.
Proof. intros Hp. apply map_eq. intros j. rw lookup_alter lookup_insert. case_decide; subst; [by rw Hp|done]. Qed.

Section stream.
Context (wr rd : nat) (pi rootw rootr u n v k : Z) (Tw Tr : gmap (list Z) Z) (m0 : memory) (l0 : lstate) (N : nat).
Context (Hbw : user_buf m0 Tw u n) (Hbr : user_buf m0 Tr v k) (Hn : 0 <= n) (Hk : 0 < k).
(** The reader's buffer is neither in the writer's buffer nor in its tables. *)
Context (Hapart : forall va, v <= va < v + k ->
  (forall x p, Tw !! x = Some p -> upage m0 Tr va <> p) /\ (forall vb, u <= vb < u + n -> upage m0 Tr va <> upage m0 Tw vb)).
Context (Hl0 : lk_ok l0) (Hoff : noff l0 = 0) (Hlp : locked (L_pipe pi) l0 = false)
  (Hlq : forall i, (i < NPROC)%nat -> locked (L_proc i) l0 = false).
Context (HN : (Z.to_nat k < N)%nat) (HN1 : (1 < N)%nat) (Hwrd : wr <> rd).

Abbreviation D := (user_bytes m0 Tw u (Z.to_nat n)).
Abbreviation body := (write_body pi wr u n).

Record mem_ok (m : memory) : Prop := {
  mo_w : pt_inv m rootw Tw;
  mo_r : pt_inv m rootr Tr;
  mo_uw : forall va, upage m Tw va = upage m0 Tw va;
  mo_ur : forall va, upage m Tr va = upage m0 Tr va;
  mo_data : forall va, u <= va < u + n -> ld8 m (uphys m0 Tw va) = ld8 m0 (uphys m0 Tw va);
}.
(** The state at the head of the writer's loop, [q] being queued. *)
Record at_loop (q : list Z) (st : kstate) : Prop := {
  al_cur : cur st = Some wr;
  al_len : length (procs st) = NPROC;
  al_wr : exists p, procs st !! wr = Some p /\ p_killed p = 0 /\ p_pagetable p = rootw;
  al_rd : exists p, procs st !! rd = Some p /\ p_pagetable p = rootr;
  al_lk : klk st = lk_acq (L_pipe pi) l0;
  al_pipe : exists pp, pipes st !! pi = Some pp /\ pipe_repr pp q /\ pi_readopen pp = true;
  al_bytes : byte_list q;
  al_mem : mem_ok (mem (mach st));
}.

Lemma pt_keep m m' root T : pt_inv m root T -> (forall va, upage m T va = upage m0 T va) ->
  (forall a, a <> CH -> (forall va, v <= va < v + k -> uphys m0 Tr va <> a) -> ld8 m' a = ld8 m a) ->
  (forall va x p, v <= va < v + k -> T !! x = Some p -> upage m0 Tr va <> p) ->
  pt_inv m' root T /\ forall va, upage m' T va = upage m0 T va.
Proof.
  intros Hpt Hup Hm Hta. destruct (pt_inv_ext m m' root T) as [Hpt' Hlf]; [|done|].
  { intros x p a Hx Ha. apply Hm.
    - intros ->. pose proof (kobj_off_page O_ch p (pt_pages _ _ _ Hpt _ _ Hx)) as Hf. rw /off_page in Hf. lia.
    - intros va Hva E. apply (Hta va x p Hva Hx). apply uphys_page; [by apply (pt_pages _ _ _ Hpt x)|]. by rw E. }
  split; [done|]. intros va. rw -Hup. by rw /upage /uaddr Hlf.
Qed.
Lemma mem_ok_keep m m' : mem_ok m ->
  (forall a, a <> CH -> (forall va, v <= va < v + k -> uphys m0 Tr va <> a) -> ld8 m' a = ld8 m a) -> mem_ok m'.
Proof.
  intros [Hw Hr Huw Hur Hd] Hm. destruct (pt_keep m m' rootw Tw) as [Hw' Huw']; [done..|by intros va x p Hva; apply Hapart|].
  destruct (pt_keep m m' rootr Tr) as [Hr' Hur']; [done..|intros va x p Hva; by apply (ub_table _ _ _ _ Hbr)|].
  split; try done. intros va Hva. rw Hm; [by apply Hd|by eapply uphys_not_ch|].
  intros vb Hvb E. destruct (Hapart vb Hvb) as [_ Hne]. apply (Hne va Hva). symmetry.
  apply uphys_page; [apply upage_aligned|]. rw -E. apply uphys_in.
Qed.

(** One byte goes into a pipe that is not full. *)
Lemma put_step q st i : at_loop q st -> (length q < 512)%nat -> 0 <= i < n -> exists c st',
  D !! Z.to_nat i = Some c /\ body i N st = Ok (inl (i + 1)) st' /\ at_loop (q ++ [c]) st'.
Proof.
  intros [Hc Hlen (p & Hp & Hkl & Hroot) Hrd Hlk (pp & Hpi & Hq & Hro) Hby Hm] Hlt Hi.
  destruct (proj1 (wp_run _ _ _ _) (fetch_one (mach st) (mem (mach st)) rootw Tw u n i N (mo_w _ Hm) (user_buf_ext _ _ _ _ _ (mo_uw _ Hm) Hbw) Hi
    (fun a _ => eq_refl) HN1)) as (e & ms1 & Ef & -> & Hms1 & Hs1 & Hch).
  assert (uphys (mem (mach st)) Tw (u + i) = uphys m0 Tw (u + i)) as Hph by by rw /uphys (mo_uw _ Hm).
  rw Hph (mo_data _ Hm) in Hch; [|lia]. set (c := ld8 m0 (uphys m0 Tw (u + i))) in *.
  exists c, (set_pipes (<[pi := pipe_put c pp]> (pipes st)) (set_mach ms1 st)). split_and!.
  - rw user_bytes_lookup; [|lia]. by rw Z2Nat.id; [|lia].
  - rw /write_body (proj2 (Z.ltb_lt _ _)); [|lia]. cbn [negb]. rw /mbind /K_bind (getpi_run pi pp) // Hro /= (getp_run _ wr p) // Hkl /=.
    rw (getpi_run pi pp) // (pipe_full_spec _ _ Hq) bool_decide_eq_false_2; [|lia]. cbn [bindr].
    rw (getp_run _ wr p) // Hroot. cbn [bindr]. rw (lift_Ok _ _ _ 0 ms1) //. simpl. by rw Hch (alter_pipe _ _ pp).
  - split; cbn; try done.
    + by exists p.
    + rw /klk /= Hms1. exact Hlk.
    + exists (pipe_put c pp). split_and!; [apply lookup_insert_eq|by apply pipe_put_repr|done].
    + apply Forall_app_2; [done|]. apply Forall_singleton, ld8_range.
    + apply (mem_ok_keep (mem (mach st))); [done|]. intros a Ha _. by apply Hs1.
Qed.

(** The loop puts [c] bytes in a row into a pipe with room for them. *)
Lemma fill c q st i j : at_loop q st -> (length q + c <= 512)%nat -> 0 <= i -> i + Z.of_nat c <= n -> (c <= j)%nat -> exists st',
  loop_n j body i N st = loop_n (j - c) body (i + Z.of_nat c) N st' /\ at_loop (q ++ take c (drop (Z.to_nat i) D)) st'.
Proof.
  revert q st i j. induction c as [|c IH]; intros q st i j Hat Hq Hi Hin Hj.
  { exists st. rw Z.add_0_r Nat.sub_0_r app_nil_r. done. }
  destruct j as [|j]; [lia|]. destruct (put_step q st i Hat) as (x & st1 & Hx & E & Hat1); [lia|lia|].
  destruct (IH (q ++ [x]) st1 (i + 1) j Hat1) as (st' & E' & Hat'); [rw length_app /=; lia|lia|lia|lia|].
  exists st'. cbn [loop_n]. rw E. cbn [bindr]. rw E' Nat.sub_succ. split; [f_equal; lia|].
  rw (drop_S _ x) //=. replace (S (Z.to_nat i)) with (Z.to_nat (i + 1)) by lia. by rw -app_assoc in Hat'.
Qed.

(** What the writer leaves when it finds the pipe full, and what it makes of
    the state it is switched back to in. *)
Definition slept (st : kstate) : kstate :=
  asleep wr (Ch_nwrite pi) (L_pipe pi) (set_procs (imap (woken (Some wr) (Ch_nread pi)) (procs st)) st).
Definition back (s : kstate) : kstate :=
  set_procs (alter (set_p_chan None) wr (procs s)) (set_klk (lk_acq (L_pipe pi) l0) s).

Lemma slept_wr p st : procs st !! wr = Some p -> procs (slept st) !! wr = Some (sleeping (Ch_nwrite pi) p).
Proof.
  intros Hp. rw /= list_lookup_alter decide_True // list_lookup_imap Hp /= /woken bool_decide_eq_false_2 //. tauto.
Qed.
(** A full pipe: the writer wakes the readers and sleeps. *)
Lemma writer_sleeps q st i : at_loop q st -> length q = 512%nat -> 0 <= i < n -> exists kk,
  body i N st = Sched (slept st) kk /\ forall s2, klk s2 = lk_acq (L_proc wr) l0 -> kk s2 = Ok (inl i) (back s2).
Proof.
  intros [Hc Hlen (p & Hp & Hkl & Hroot) _ Hlk (pp & Hpi & Hq & Hro) _ _] Hfull Hi.
  assert (wr < NPROC)%nat as Hwr by (rw -Hlen; by eapply lookup_lt_Some).
  set (st1 := set_procs (imap (woken (Some wr) (Ch_nread pi)) (procs st)) st).
  assert (lk_ok (klk st)) as Hok by (rw Hlk; by apply lk_acq_ok).
  assert (forall j, (j < NPROC)%nat -> locked (L_proc j) (klk st) = false) as Hun by (intros j Hj; rw Hlk locked_acq_ne //; by apply Hlq).
  destruct (sleep_run (Ch_nwrite pi) (L_pipe pi) wr (woken (Some wr) (Ch_nread pi) wr p) st1 N) as (kk & Hsl & Hkk);
    [done|by rw /= list_lookup_imap Hp|done|by rw /st1 /klk /= -/(klk st) Hlk /= Hoff|by rw /st1 /klk /= -/(klk st) Hlk held_acq|by apply Hun|].
  exists (fun s2 => bindr (kk s2) (fun _ s3 => Ok (inl i) s3)). split.
  - rw /write_body (proj2 (Z.ltb_lt _ _)); [|lia]. cbn [negb]. rw /mbind /K_bind (getpi_run pi pp) // Hro /= (getp_run _ wr p) // Hkl /=.
    rw (getpi_run pi pp) // (pipe_full_spec _ _ Hq) bool_decide_eq_true_2 //. cbn [bindr].
    rw wakeup_run //; [|by intros j Hj _; apply Hun]. rw Hc. cbn [bindr]. fold st1. by rw Hsl.
  - intros s2 Hk2. assert (intena (klk st1) = sie l0) as Ei by by rw /st1 /klk /= -/(klk st) Hlk /= Hoff.
    rw Hkk Ei (resume_after _ _ l0) //. by apply Hlq.
Qed.

(** The reader's turn takes the oldest bytes and leaves the writer runnable. *)
Lemma reader_reads q st : at_loop q st -> length q = 512%nat -> exists s2,
  let x := Z.min k 512 in
  reader_turn pi wr rd v k N (slept st) = Ok x s2 /\ klk s2 = lk_acq (L_proc wr) l0 /\
  at_loop (drop (Z.to_nat x) q) (back s2) /\ user_bytes (mem (mach s2)) Tr v (Z.to_nat x) = take (Z.to_nat x) q.
Proof.
  intros [Hc Hlen (p & Hp & Hkl & Hroot) (pr & Hpr & Hrr) Hlk (pp & Hpi & Hq & Hro) Hby Hm] Hfull.
  assert (wr < NPROC)%nat as Hwr by (rw -Hlen; by eapply lookup_lt_Some).
  assert (q <> []) as Hne by (by destruct q). pose proof (slept_wr p st Hp) as Hw1. set (s1 := slept st) in *.
  assert (klk s1 = lk_rel (L_pipe pi) (lk_acq (L_proc wr) (lk_acq (L_pipe pi) l0))) as Hlk1 by (rw /s1 /slept /asleep /klk /= -/(klk st) Hlk //).
  assert (sched_leave wr N s1 = Ok tt (set_klk l0 (set_cur None s1))) as El.
  { rw sched_leave_run Hlk1; [by rw leave_locks //; apply Hlq| | |].
    - apply lk_rel_ok; [apply lk_acq_ok; [by apply lk_acq_ok|rw locked_acq_ne //; by apply Hlq]|simpl; lia|rw held_acq_ne // held_acq //].
    - simpl. lia.
    - rw held_rel_ne // held_acq //. }
  set (s3 := set_cur (Some rd) (set_klk l0 (set_cur None s1))).
  pose proof (piperead_wp s3 rd (woken (Some wr) (Ch_nread pi) rd pr) pi pp q rootr Tr v k N) as Hrd.
  destruct (proj1 (wp_run _ _ _ _) (Hrd eq_refl ltac:(by rw /= list_lookup_alter_ne // list_lookup_imap Hpr) ltac:(by rw woken_pagetable)
    ltac:(by rw /= length_alter length_imap) (mo_r _ Hm) (user_buf_ext _ _ _ _ _ (mo_ur _ Hm) Hbr) (conj Hl0 Hlp) (fun i Hi _ => Hlq i Hi)
    Hpi Hq Hby (or_introl Hne) ltac:(lia) HN HN1)) as (x & s4 & Erd & -> & pp4 & m4 & -> & Hq4 & Hro4 & _ & Hdl).
  clear Hrd. rw Hfull in Erd Hq4 Hdl |- *. change (Z.of_nat 512) with 512 in *. set (x := k `min` 512) in *.
  set (p4 := set_p_state RUNNABLE (sleeping (Ch_nwrite pi) p)).
  set (s4 := set_cur None (read_state rd pi pp4 m4 s3)).
  assert (procs s4 !! wr = Some p4) as Hw4.
  { rw /= list_lookup_imap. change (alter _ wr _) with (procs s1). rw Hw1 /= /woken bool_decide_eq_true_2 //. split; [congruence|done]. }
  assert (procs s4 !! rd = Some (woken (Some rd) (Ch_nwrite pi) rd (woken (Some wr) (Ch_nread pi) rd pr))) as Hr4
    by by rw /= list_lookup_imap list_lookup_alter_ne // list_lookup_imap Hpr.
  assert (length (procs s4) = NPROC) as Hlen4 by by rw /= length_imap length_alter length_imap.
  destruct (delivered_pt (mem (mach st)) rootr Tr v k (take (Z.to_nat x) q) m4 (mo_r _ Hm) (user_buf_ext _ _ _ _ _ (mo_ur _ Hm) Hbr) ltac:(rw length_take; lia) Hdl) as [_ Hup4].
  pose proof (sched_enter_run wr p4 s4 N (conj Hl0 (Hlq _ Hwr)) Hw4) as Een. destruct (decide (p_state p4 = RUNNABLE)) as [_|Hx]; [|by destruct Hx].
  eexists. split_and!.
  - rw /reader_turn /mbind /K_bind El. cbn [bindr modify]. fold s3. rw Erd. cbn [bindr modify]. fold s4. rw Een. reflexivity.
  - done.
  - split; try done; cbn [procs back set_procs set_klk set_cur cur].
    + by rw !length_alter.
    + exists (set_p_chan None (set_p_state RUNNING p4)). by rw !list_lookup_alter !decide_True // Hw4.
    + eexists. rw !list_lookup_alter_ne // Hr4. split; [done|]. by rw !woken_pagetable.
    + exists pp4. split_and!; [apply lookup_insert_eq|done|by rw Hro4].
    + by apply Forall_drop.
    + apply (mem_ok_keep (mem (mach st))); [done|]. intros a Ha Hnot. apply (dl_out _ _ _ _ _ Hdl); [done|].
      intros j Hj. rw /uphys (mo_ur _ Hm). apply Hnot. rw length_take in Hj. lia.
  - assert (length (take (Z.to_nat x) q) = Z.to_nat x) as El4 by (rw length_take; lia).
    rw -{1}El4. by eapply delivered_bytes.
Qed.

Abbreviation turn := (reader_turn pi wr rd v k N).
Abbreviation see := (fun m x => user_bytes m Tr v (Z.to_nat x)).

Lemma body_end st : body n N st = Ok (inr (inr n)) st.
Proof. by rw /write_body Z.ltb_irrefl. Qed.
(** The end of the loop: the readers are woken and the lock is released. *)
Lemma write_finishes q st d got : at_loop q st -> exists s' pp',
  exchange d turn see got (write_end pi (inr n) N st) = Some (got, n, s') /\
  klk s' = l0 /\ pipes s' !! pi = Some pp' /\ pipe_repr pp' q.
Proof.
  intros [Hc Hlen _ _ Hlk (pp & Hpi & Hq & _) _ _]. rw /write_end /mbind /K_bind wakeup_run //.
  2:{ rw Hlk. by apply lk_acq_ok. }
  2:{ intros j Hj _. rw Hlk locked_acq_ne //. by apply Hlq. }
  cbn [bindr]. rw (release_acquired (set_klk l0 st)) //. eexists _, pp. split_and!; [by destruct d|done|done|done].
Qed.

Definition full_ (q : list Z) : Z := if decide (length q = 512%nat) then 1 else 0.
Lemma stream_ok d q i st j got : at_loop q st -> 0 <= i <= n -> n - i + full_ q <= Z.of_nat d -> 2 * (n - i) + full_ q < Z.of_nat j ->
  exists got' s' pp' rest,
    exchange d turn see got (bindr (loop_n j body i N st) (fun r s' => write_end pi r N s')) = Some (got', n, s') /\
    klk s' = l0 /\ pipes s' !! pi = Some pp' /\ pipe_repr pp' rest /\ got' ++ rest = got ++ q ++ drop (Z.to_nat i) D.
Proof.
  revert q i st j got. induction d as [|d IH]; intros q i st j got Hat Hi Hd Hj;
    pose proof Hat as [_ _ _ _ _ (pp0 & _ & Hq0 & _) _ _]; pose proof (pq_room _ _ Hq0) as Hroom; clear pp0 Hq0;
    assert (full_ q = 0 /\ length q <> 512%nat \/ full_ q = 1 /\ length q = 512%nat) as Hf by (rw /full_; case_decide; lia).
  all: set (c := Z.to_nat (Z.min (512 - Z.of_nat (length q)) (n - i))).
  all: destruct (fill c q st i j Hat) as (st1 & E & Hat1); [lia..|]; rw E; clear E.
  all: set (q1 := q ++ _) in Hat1; assert (length q1 = length q + c)%nat as Hlen1
    by (rw /q1 length_app length_take length_drop length_user_bytes; lia).
  all: destruct (decide (i + Z.of_nat c = n)) as [Hend|Hmore].
  1, 3: destruct (j - c)%nat as [|j'] eqn:Ej; [lia|]; cbn [loop_n]; rw Hend body_end; cbn [bindr];
    match goal with |- context [exchange ?d0 _ _ _ _] => destruct (write_finishes q1 st1 d0 got Hat1) as (s' & pp' & Ex & Hl & Hp' & Hr') end;
    exists got, s', pp', q1; split_and!; [exact Ex|done|done|done|]; rw /q1 take_ge; [done|rw length_drop length_user_bytes; lia].
  - exfalso. lia.
  - assert (length q1 = 512%nat) as Hfull by lia. destruct (j - c)%nat as [|j'] eqn:Ej; [lia|].
    destruct (writer_sleeps q1 st1 (i + Z.of_nat c) Hat1 Hfull) as (kk & Eb & Hkk); [lia|].
    destruct (reader_reads q1 st1 Hat1 Hfull) as (s2 & Et & Hk2 & Hat2 & Hsee). set (x := k `min` 512) in *.
    assert (full_ (drop (Z.to_nat x) q1) = 0) as Hf2 by (rw /full_ decide_False // length_drop; lia).
    cbn [loop_n]. rw Eb. cbn [bindr exchange]. rw Et Hsee. rw Hkk //. cbn [bindr].
    destruct (IH (drop (Z.to_nat x) q1) (i + Z.of_nat c) (back s2) j' (got ++ take (Z.to_nat x) q1) Hat2)
      as (got' & s' & pp' & rest & Ex & Hl & Hp' & Hr' & Eq); [lia|lia|lia|].
    exists got', s', pp', rest. split_and!; [exact Ex|done|done|done|]. rw Eq -app_assoc (app_assoc (take _ _)) take_drop /q1 -app_assoc.
    do 2 f_equal. replace (Z.to_nat (i + Z.of_nat c)) with (Z.to_nat i + c)%nat by lia. by rw -drop_drop take_drop.
Qed.
End stream.

(** What a process that may use pipe [pi] looks like: its page tables are well
    formed and the user buffer is mapped. *)
Record pipe_user s (pr : nat) (p : proc) (root : Z) T (u n : Z) : Prop := {
  pu_proc : procs s !! pr = Some p;
  pu_root : p_pagetable p = root;
  pu_pt : pt_inv (mem (mach s)) root T;
  pu_buf : user_buf (mem (mach s)) T u n;
}.
(** The buffer at [v] is in no page of the buffer at [u] and in no page of its tables. *)
Definition apart m T (u n : Z) T' (v k : Z) : Prop := forall va, v <= va < v + k ->
  (forall x p, T !! x = Some p -> upage m T' va <> p) /\ (forall vb, u <= vb < u + n -> upage m T' va <> upage m T vb).

End transfer.

(** ** Claims *)

Section claims.
Context {lay : Layout}.
Implicit Types (T : gmap (list Z) Z) (s : kstate).

(** A read of a pipe that has data, or no writer, delivers the oldest
    bytes to the user's buffer, as many as there are up to the count asked
    for, and leaves the rest queued. *)
Theorem piperead_dequeues s pr p pi pp q root T u n N :
  cur s = Some pr -> pipe_user s pr p root T u n -> length (procs s) = NPROC ->
  can_lock (L_pipe pi) s -> procs_unlocked s ->
  pipes s !! pi = Some pp -> pipe_repr pp q -> byte_list q -> (q <> [] \/ pi_writeopen pp = false) ->
  0 <= n -> (Z.to_nat n < N)%nat -> (1 < N)%nat ->
  wp (piperead pi u n) N s (fun i s' => i = Z.min n (Z.of_nat (length q)) /\
    exists pp' m', s' = read_state pr pi pp' m' s /\ pipe_repr pp' (drop (Z.to_nat i) q) /\
      pi_readopen pp' = pi_readopen pp /\ pi_writeopen pp' = pi_writeopen pp /\
      delivered (mem (mach s)) T u (take (Z.to_nat i) q) m').
Proof. intros Hc [] **. by apply (piperead_wp s pr p pi pp q root). Qed.

(** C20: bytes travel through a pipe in order, and no unread byte is
    overwritten, however many are written.  Process [wr] writes [n] bytes, any
    number of them; whenever the pipe is full it sleeps, and process [rd] reads
    up to [k] bytes and so wakes it.  The write then completes with the result
    [n] and the lock released, and what the reader has got, followed by what is
    still queued (at most 512 bytes), is what was queued before followed by the
    writer's bytes; this holds wherever the 32-bit counters stand. *)
Theorem pipe_fifo s wr pw rd pr pi pp q rootw Tw u n rootr Tr v k N d :
  cur s = Some wr -> wr <> rd -> pipe_user s wr pw rootw Tw u n -> pipe_user s rd pr rootr Tr v k ->
  apart (mem (mach s)) Tw u n Tr v k -> length (procs s) = NPROC -> p_killed pw = 0 ->
  lk_ok (klk s) -> noff (klk s) = 0 -> locked (L_pipe pi) (klk s) = false ->
  (forall i, (i < NPROC)%nat -> locked (L_proc i) (klk s) = false) ->
  pipes s !! pi = Some pp -> pipe_repr pp q -> byte_list q -> pi_readopen pp = true ->
  0 <= n -> 0 < k -> 2 * n + 1 < Z.of_nat N -> k < Z.of_nat N -> n < Z.of_nat d ->
  exists got s' pp' rest,
    exchange d (reader_turn pi wr rd v k N) (fun m x => user_bytes m Tr v (Z.to_nat x)) [] (pipewrite pi u n N s) = Some (got, n, s') /\
    klk s' = klk s /\ pipes s' !! pi = Some pp' /\ pipe_repr pp' rest /\
    got ++ rest = q ++ user_bytes (mem (mach s)) Tw u (Z.to_nat n).
Proof.
  intros Hc Hne [Hpw Hrw Hptw Hbw] [Hpr Hrr Hptr Hbr] Hap Hlen Hkl Hok Hoff Hlp Hlq Hpi Hq Hby Hro Hn Hk HN HNk Hd.
  rw (pipewrite_loop _ _ _ wr) //.
  destruct (stream_ok wr rd pi rootw rootr u n v k Tw Tr (mem (mach s)) (klk s) N Hbw Hbr Hn Hk Hap Hok Hoff Hlp Hlq
    ltac:(lia) ltac:(lia) Hne d q 0 (set_klk (lk_acq (L_pipe pi) (klk s)) s) N []) as (got & s' & pp' & rest & H).
  - split; try done; [by exists pw|by exists pr|by exists pp].
  - lia.
  - rw /full_. case_decide; lia.
  - rw /full_. case_decide; lia.
  - exists got, s', pp', rest. exact H.
Qed.

End claims.

(** ** The theorems on a concrete state *)

#[local] Existing Instance small_layout.
Abbreviation TA := (list_to_map (demo_tables 0) : gmap (list Z) Z).
Abbreviation TB := (list_to_map (demo_tables 10) : gmap (list Z) Z).

(** A pipe whose counters are about to wrap, with two bytes in it. *)
Definition demo_pipe : pipe :=
  Pipe (<[510%nat := 104]> (<[511%nat := 105]> (replicate 512 0))) (2 ^ 32 - 2) 0 true true.
Definition pdemo : kstate := set_pipes {[ pg 18 := demo_pipe ]} kdemo.

Lemma demo_pipe_repr : pipe_repr demo_pipe [104; 105].
Proof.
  split; [by vm_compute..|simpl; lia|].
  intros [|[|i]] c Hi; simplify_eq; by vm_compute.
Qed.
Lemma pdemo_upage b va : b = 0 \/ b = 10 -> 0 <= va < PGSIZE ->
  upage (mem demo) (list_to_map (demo_tables b) : gmap (list Z) Z) va = pg (b + 6).
Proof.
  intros [-> | ->] Hva; rw /upage Z.mod_small // Z.sub_diag; by vm_compute.
Qed.
Lemma demo_user_buf b u n : b = 0 \/ b = 10 -> 0 <= u -> 0 <= n -> u + n <= PGSIZE ->
  user_buf (mem demo) (list_to_map (demo_tables b) : gmap (list Z) Z) u n.
Proof.
  intros Hb Hu Hn Hle. split; [| | |done|rw /PGSIZE in Hle; lia].
  - intros va Hva. rw pdemo_upage //; [|lia]. destruct Hb as [-> | ->]; by vm_compute.
  - intros va x p Hva Hx%elem_of_Tl. rw pdemo_upage //; [|lia]. simpl in Hx.
    destruct Hb as [-> | ->]; repeat destruct Hx as [[= <- <-]|Hx]; done.
  - intros va vb Ha Hv _. rw !Z.mod_small; lia.
Qed.
Lemma pdemo_user b i p u n : b = 0 \/ b = 10 -> 0 <= u -> 0 <= n -> u + n <= PGSIZE ->
  procs kdemo !! i = Some p -> p_pagetable p = pg b ->
  pipe_user pdemo i p (pg b) (list_to_map (demo_tables b) : gmap (list Z) Z) u n.
Proof.
  intros Hb Hu Hn Hle Hp Hr. split; [done|done| |by apply demo_user_buf]. by apply (demo_inv b Hb).
Qed.
Lemma pdemo_locks pi : can_lock (L_pipe pi) pdemo /\ procs_unlocked pdemo.
Proof. split; [split; [apply lk_ok_zero|done]|]. intros i Hi. done. Qed.

Abbreviation proc_a := (demo_proc 1 (pg 0) (pg 5) RUNNING).
Abbreviation proc_b := (demo_proc 2 (pg 10) (pg 15) RUNNABLE).

(** 600 bytes written to a pipe that holds two, by reads of 100. *)
Lemma pipe_fifo_witness : exists got s',
  exchange (Z.to_nat 700) (reader_turn (pg 18) 0 1 40 100 (Z.to_nat 1300)) (fun m x => user_bytes m TB 40 (Z.to_nat x)) []
    (pipewrite (pg 18) 16 600 (Z.to_nat 1300) pdemo) = Some (got, 600, s') /\ (Z.to_nat 90 <= length got)%nat.
Proof.
  destruct (pipe_fifo pdemo 0 proc_a 1 proc_b (pg 18) demo_pipe [104; 105] (pg 0) TA 16 600 (pg 10) TB 40 100 (Z.to_nat 1300) (Z.to_nat 700))
    as (got & s' & pp' & rest & H & _ & _ & Hr & E).
  - reflexivity.
  - done.
  - apply pdemo_user; (done || by left).
  - apply pdemo_user; (done || by right).
  - intros va Hva. change (mem (mach pdemo)) with (mem demo). rw (pdemo_upage 10); [|by right|rw /PGSIZE; lia]. split.
    + intros x p Hx%elem_of_Tl. simpl in Hx. repeat destruct Hx as [[= <- <-]|Hx]; done.
    + intros vb Hvb. by rw (pdemo_upage 0); [|by left|rw /PGSIZE; lia].
  - reflexivity.
  - reflexivity.
  - apply lk_ok_zero.
  - reflexivity.
  - reflexivity.
  - intros i _. reflexivity.
  - reflexivity.
  - apply demo_pipe_repr.
  - by repeat constructor.
  - reflexivity.
  - lia.
  - lia.
  - lia.
  - lia.
  - lia.
  - exists got, s'. split; [exact H|]. pose proof (pq_room _ _ Hr) as Hroom. apply (f_equal length) in E.
    rw !length_app length_user_bytes in E. change (length [104; 105]) with 2%nat in E. lia.
Defined.
