(* ===== verification/File.v ===== *)
(** * [kernel/file.c] and [pipealloc] of [kernel/pipe.c]

    The table of open files: reference counting, and reads and writes that
    dispatch on what the file is. *)

From S2P Require Import Prelude Mem KString Spinlock Machine Kalloc Vm KState Proc Console Pipe FsFmt Sleeplock Bio Log Fs.

Section file.
Context {lay : Layout} {drv : DiskDriver}.

Definition filealloc : K kstate (option nat) :=
  acquire L_ftable;;
  r ← for_exit (seq 0 NFILE) (fun f =>
    ref ← getf f f_ref;
    if ref =? 0 then setf f (set_f_ref 1);; release L_ftable;; mret (Some f)
    else mret None);
  match r with
  | Some f => mret (Some f)
  | None => release L_ftable;; mret None
  end.

Definition filedup (f : nat) : K kstate nat :=
  acquire L_ftable;;
  ref ← getf f f_ref;
  if ref <? 1 then panic "filedup" else
  setf f (set_f_ref (i32 (ref + 1)));;
  release L_ftable;;
  mret f.

Definition fileclose (f : nat) : K kstate unit :=
  acquire L_ftable;;
  ref ← getf f f_ref;
  if ref <? 1 then panic "fileclose" else
  setf f (set_f_ref (i32 (ref - 1)));;
  ref ← getf f f_ref;
  if 0 <? ref then release L_ftable else
  ff ← getf f id;
  setf f (set_f_ref 0);;
  setf f (set_f_type FD_NONE);;
  release L_ftable;;
  match f_type ff with
  | FD_PIPE => pipeclose (f_pipe ff) (f_writable ff)
  | FD_INODE | FD_DEVICE =>
    begin_op;;
    ip ← the (f_ip ff);
    iput ip;;
    end_op
  | FD_NONE => mret tt
  end.

Definition filestat (f : nat) (addr : Z) : K kstate Z :=
  p ← myproc;
  t ← getf f f_type; ip ← getf f f_ip;
  match t with
  | FD_INODE | FD_DEVICE =>
    ilock ip;;
    ip' ← the ip;
    st ← lift (peek_m (kobj O_st) 24);
    st ← stati ip' st;
    lift (poke_m (kobj O_st) st);;
    iunlock ip;;
    i ← the p;
    pt ← getp i p_pagetable;
    r ← lift (copyout pt addr (kobj O_st) 24);
    mret (if r <? 0 then -1 else 0)
  | _ => mret (-1)
  end.

(** [f->major < 0 || f->major >= NDEV || !devsw[f->major].read] *)
Definition fileread (f : nat) (addr n : Z) : K kstate Z :=
  readable ← getf f f_readable;
  if negb readable then mret (-1) else
  t ← getf f f_type;
  match t with
  | FD_PIPE => pi ← getf f f_pipe; piperead pi addr n
  | FD_DEVICE =>
    major ← getf f f_major;
    if (major <? 0) || (NDEV <=? major) then mret (-1) else
    match devsw_read major with
    | None => mret (-1)
    | Some read => read true addr n
    end
  | FD_INODE =>
    ip ← getf f f_ip;
    ilock ip;;
    ip' ← the ip;
    off ← getf f f_off;
    r ← readi ip' true addr off (u32 n);
    when (0 <? r) (setf f (fun x => set_f_off (u32 (f_off x + r)) x));;
    iunlock ip;;
    mret r
  | FD_NONE => panic "fileread"
  end.

(** The most [filewrite] hands to one transaction. *)
Definition WRITE_MAX : Z := (MAXOPBLOCKS - 1 - 1 - 2) / 2 * BSIZE.

Definition filewrite (f : nat) (addr n : Z) : K kstate Z :=
  writable ← getf f f_writable;
  if negb writable then mret (-1) else
  t ← getf f f_type;
  match t with
  | FD_PIPE => pi ← getf f f_pipe; pipewrite pi addr n
  | FD_DEVICE =>
    major ← getf f f_major;
    if (major <? 0) || (NDEV <=? major) then mret (-1) else
    match devsw_write major with
    | None => mret (-1)
    | Some write => write true addr n
    end
  | FD_INODE =>
    i ← loop (fun i =>
      if negb (i <? n) then mret (inr i) else
      let n1 := Z.min (n - i) WRITE_MAX in
      begin_op;;
      ip ← getf f f_ip;
      ilock ip;;
      ip' ← the ip;
      off ← getf f f_off;
      r ← writei ip' true (u64 (addr + i)) off (u32 n1);
      when (0 <? r) (setf f (fun x => set_f_off (u32 (f_off x + r)) x));;
      iunlock ip;;
      end_op;;
      if negb (r =? n1) then mret (inr i) else mret (inl (i + r))) 0;
    mret (if i =? n then n else -1)
  | FD_NONE => panic "filewrite"
  end.

(** ** Pipes *)

(** [bad:] of [pipealloc]; [kalloc] fails last, so [pi] is null there. *)
Definition pipealloc_bad (f0 f1 : option nat) : K kstate (option (nat * nat)) :=
  match f0 with Some f => fileclose f | None => mret tt end;;
  match f1 with Some f => fileclose f | None => mret tt end;;
  mret None.

(** The files for reading and for writing; [None] is the result [-1].  The
    data array keeps what the page held. *)
Definition pipealloc : K kstate (option (nat * nat)) :=
  f0 ← filealloc;
  match f0 with
  | None => pipealloc_bad None None
  | Some r =>
    f1 ← filealloc;
    match f1 with
    | None => pipealloc_bad f0 None
    | Some w =>
      pi ← lift kalloc;
      if pi =? 0 then pipealloc_bad f0 f1 else
      data ← lift (peek_m (pi + 24) 512);
      modify (fun s => set_pipes (<[pi := Pipe data 0 0 true true]> (pipes s)) s);;
      setf r (set_f_type FD_PIPE);;
      setf r (set_f_readable true);;
      setf r (set_f_writable false);;
      setf r (set_f_pipe pi);;
      setf w (set_f_type FD_PIPE);;
      setf w (set_f_readable false);;
      setf w (set_f_writable true);;
      setf w (set_f_pipe pi);;
      mret (Some (r, w))
    end
  end.

End file.
