(* ===== verification/Kproc.v ===== *)
(** * [kernel/proc.c], the part that uses the file system

    [userinit], [fork] and [exit], and the trap frame of a process. *)

From S2P Require Import Prelude Mem KString Spinlock Machine Kalloc Printf Vm KState Proc FsFmt Sleeplock Bio Log Fs File.

(** ** The trap frame ([struct trapframe]): offsets of the fields used *)

Definition TF_kernel_satp : Z := 0.
Definition TF_kernel_sp : Z := 8.
Definition TF_kernel_trap : Z := 16.
Definition TF_epc : Z := 24.
Definition TF_kernel_hartid : Z := 32.
Definition TF_sp : Z := 48.
Definition TF_a0 : Z := 112.
Definition TF_a1 : Z := 120.
Definition TF_a7 : Z := 168.
(** [sizeof(struct trapframe)] *)
Definition TF_SIZE : nat := 288.

Section kproc.
Context {lay : Layout} {drv : DiskDriver}.

(** [p->trapframe->r] *)
Definition tf_get (p : nat) (r : Z) : K kstate Z :=
  tf ← getp p p_trapframe; lift (load64 (tf + r)).
Definition tf_set (p : nat) (r v : Z) : K kstate unit :=
  tf ← getp p p_trapframe; lift (store64 (tf + r) v).

(** [safestrcpy(p->name, t, sizeof(p->name))] *)
Definition set_name (p : nat) (t : list Z) : K kstate unit :=
  old ← getp p p_name;
  nm ← the (safestrcpy old t 16);
  setp p (set_p_name nm).

Definition initcode : list Z :=
  [ 0x17; 0x05; 0x00; 0x00; 0x13; 0x05; 0x45; 0x02;
    0x97; 0x05; 0x00; 0x00; 0x93; 0x85; 0x35; 0x02;
    0x93; 0x08; 0x70; 0x00; 0x73; 0x00; 0x00; 0x00;
    0x93; 0x08; 0x20; 0x00; 0x73; 0x00; 0x00; 0x00;
    0xef; 0xf0; 0x9f; 0xff; 0x2f; 0x69; 0x6e; 0x69;
    0x74; 0x00; 0x00; 0x24; 0x00; 0x00; 0x00; 0x00;
    0x00; 0x00; 0x00; 0x00 ].

Definition userinit : K kstate unit :=
  r ← allocproc;
  modify (set_initproc r);;
  p ← the r;
  pt ← getp p p_pagetable;
  lift (poke_m (kobj O_initcode) initcode);;
  lift (uvminit pt (kobj O_initcode) (Z.of_nat (length initcode)));;
  setp p (set_p_sz PGSIZE);;
  tf_set p TF_epc 0;;
  tf_set p TF_sp PGSIZE;;
  set_name p (cstring "initcode");;
  cwd ← namei (cstring "/");
  setp p (set_p_cwd cwd);;
  setp p (set_p_state RUNNABLE);;
  release (L_proc p).

(** The code after [panic("1")] and [panic("2")] is not reached. *)
Definition fork : K kstate Z :=
  r ← myproc; p ← the r;
  r ← allocproc;
  match r with
  | None => panic "1"
  | Some np =>
    pt ← getp p p_pagetable; npt ← getp np p_pagetable; sz ← getp p p_sz;
    e ← lift (uvmcopy pt npt sz);
    if e <? 0 then panic "2" else
    setp np (set_p_sz sz);;
    tf ← getp p p_trapframe; ntf ← getp np p_trapframe;
    regs ← lift (peek_m tf TF_SIZE);
    lift (poke_m ntf regs);;
    tf_set np TF_a0 0;;
    for_each (rangeZ NOFILE) (fun i =>
      fs ← getp p p_ofile; f ← arr_get fs i;
      match f with
      | None => mret tt
      | Some f =>
        f' ← filedup f;
        setp np (fun x => set_p_ofile (arr_set (p_ofile x) i (Some f')) x)
      end);;
    cwd ← getp p p_cwd; d ← the cwd;
    d' ← idup d;
    setp np (set_p_cwd (Some d'));;
    nm ← getp p p_name;
    set_name np nm;;
    pid ← getp np p_pid;
    release (L_proc np);;
    acquire L_wait;;
    setp np (set_p_parent (Some p));;
    release L_wait;;
    acquire (L_proc np);;
    setp np (set_p_state RUNNABLE);;
    release (L_proc np);;
    mret pid
  end.

(** The cleanup of ring buffers at the top of [exit] is commented out. *)
Definition exit {A} (status : Z) : K kstate A :=
  r ← myproc; p ← the r;
  ip ← gets initproc;
  if decide (Some p = ip) then panic "init exiting" else
  for_each (rangeZ NOFILE) (fun fd =>
    fs ← getp p p_ofile; f ← arr_get fs fd;
    match f with
    | None => mret tt
    | Some f =>
      fileclose f;;
      setp p (fun x => set_p_ofile (arr_set (p_ofile x) fd None) x)
    end);;
  begin_op;;
  cwd ← getp p p_cwd; d ← the cwd;
  iput d;;
  end_op;;
  setp p (set_p_cwd None);;
  acquire L_wait;;
  reparent p;;
  par ← getp p p_parent;
  (* wakeup(0) wakes nobody: no process sleeps on the null channel *)
  match par with Some i => wakeup (Ch_proc i) | None => mret tt end;;
  acquire (L_proc p);;
  setp p (set_p_xstate status);;
  setp p (set_p_state ZOMBIE);;
  release L_wait;;
  sched;;
  panic "zombie exit".

End kproc.
