(* ===== verification/Exec.v ===== *)
(** * [kernel/exec.c]

    Replacing the image of a process by an ELF file.  [argv] is the list of the
    addresses of the argument strings, each in a page [sys_exec] filled. *)

From S2P Require Import Prelude Mem KString Spinlock Machine Kalloc Vm KState Proc FsFmt Sleeplock Bio Log Fs File Kproc.

(** ** elf.h *)

Definition ELF_MAGIC : Z := 0x464C457F.
Definition ELF_PROG_LOAD : Z := 1.

Record elfhdr := Elfhdr {
  e_magic : Z;
  e_entry : Z;
  e_phoff : Z;
  e_phnum : Z;
}.
(** The fields [exec] uses of a 64-byte file header. *)
Definition get_elfhdr (bs : list Z) : elfhdr :=
  Elfhdr (ldb 4 bs 0) (ldb 8 bs 24) (ldb 8 bs 32) (ldb 2 bs 56).
Definition ELFHDR : Z := 64.

Record proghdr := Proghdr {
  ph_type : Z;
  ph_off : Z;
  ph_vaddr : Z;
  ph_filesz : Z;
  ph_memsz : Z;
}.
Definition get_proghdr (bs : list Z) : proghdr :=
  Proghdr (ldb 4 bs 0) (ldb 8 bs 8) (ldb 8 bs 16) (ldb 8 bs 32) (ldb 8 bs 40).
Definition PROGHDR : Z := 56.

Section exec.
Context {lay : Layout} {drv : DiskDriver}.

Definition loadseg (pagetable va : Z) (ip : nat) (offset sz : Z) : K kstate Z :=
  if negb (va mod PGSIZE =? 0) then panic "loadseg: va must be page aligned" else
  loop (fun i =>
    if negb (i <? sz) then mret (inr 0) else
    pa ← lift (walkaddr pagetable (u64 (va + i)));
    if pa =? 0 then panic "loadseg: address should exist" else
    let n := if u32 (sz - i) <? PGSIZE then u32 (sz - i) else PGSIZE in
    r ← readi ip false pa (u32 (offset + i)) n;
    if negb (u32 r =? n) then mret (inr (-1)) else
    mret (inl (u32 (i + PGSIZE)))) 0.

(** The program headers: [inl sz] when all were loaded, [inr sz] for [bad]. *)
Definition exec_load (ip : nat) (elf : elfhdr) (pagetable : Z) : K kstate (Z + Z) :=
  loop (fun '(i, off, sz) =>
    if negb (i <? e_phnum elf) then mret (inr (inl sz)) else
    r ← readi ip false (kobj O_ph) (u32 off) PROGHDR;
    if negb (r =? PROGHDR) then mret (inr (inr sz)) else
    bs ← lift (peek_m (kobj O_ph) 56);
    let ph := get_proghdr bs in
    let next sz := mret (inl (i + 1, i32 (off + PROGHDR), sz)) in
    if negb (ph_type ph =? ELF_PROG_LOAD) then next sz else
    if ph_memsz ph <? ph_filesz ph then mret (inr (inr sz)) else
    if u64 (ph_vaddr ph + ph_memsz ph) <? ph_vaddr ph then mret (inr (inr sz)) else
    sz1 ← lift (uvmalloc pagetable sz (u64 (ph_vaddr ph + ph_memsz ph)));
    if sz1 =? 0 then mret (inr (inr sz)) else
    if negb (ph_vaddr ph mod PGSIZE =? 0) then mret (inr (inr sz1)) else
    r ← loadseg pagetable (ph_vaddr ph) ip (u32 (ph_off ph)) (u32 (ph_filesz ph));
    if r <? 0 then mret (inr (inr sz1)) else
    next sz1) (0, i32 (e_phoff elf), 0).

(** Pushing the argument strings: the stack pointer and the [ustack] entries,
    or [None] for [bad]. *)
Definition push_args (pagetable stackbase : Z) (argv : list Z) (sp : Z) : K kstate (option (Z * list Z)) :=
  for_fold argv (Some (sp, [])) (fun acc arg =>
    match acc with
    | None => mret None
    | Some (sp, ustack) =>
      if (MAXARG <=? length ustack)%nat then mret None else
      str ← lift (peek_m arg (Z.to_nat PGSIZE));
      len ← the (strlen str);
      let sp := u64 (sp - (len + 1)) in
      let sp := u64 (sp - sp mod 16) in
      if sp <? stackbase then mret None else
      r ← lift (copyout pagetable sp arg (len + 1));
      if r <? 0 then mret None else mret (Some (sp, ustack ++ [sp]))
    end).

(** [last]: what follows the last slash. *)
Fixpoint basename (last s : list Z) : option (list Z) :=
  match s with
  | [] => None
  | c :: r => if c =? 0 then Some last else basename (if c =? 47 then r else last) r
  end.

(** [bad:], with [ip] still locked or not. *)
Definition exec_bad (pagetable sz : Z) (ip : option nat) : K kstate Z :=
  when (negb (pagetable =? 0)) (lift (proc_freepagetable pagetable sz));;
  match ip with
  | Some ip => iunlockput ip;; end_op
  | None => mret tt
  end;;
  mret (-1).

(** From the end of loading on: the stack, the arguments, the commit. *)
Definition exec_stack (p : nat) (path : list Z) (argv : list Z) (elf : elfhdr) (pagetable sz : Z)
    : K kstate Z :=
  oldsz ← getp p p_sz;
  let sz := PGROUNDUP sz in
  sz1 ← lift (uvmalloc pagetable sz (u64 (sz + 2 * PGSIZE)));
  if sz1 =? 0 then exec_bad pagetable sz None else
  let sz := sz1 in
  lift (uvmclear pagetable (u64 (sz - 2 * PGSIZE)));;
  let stackbase := u64 (sz - PGSIZE) in
  r ← push_args pagetable stackbase argv sz;
  match r with
  | None => exec_bad pagetable sz None
  | Some (sp, ustack) =>
    let argc := Z.of_nat (length ustack) in
    let sp := u64 (sp - (argc + 1) * 8) in
    let sp := u64 (sp - sp mod 16) in
    if sp <? stackbase then exec_bad pagetable sz None else
    lift (poke_m (kobj O_ustack) ((ustack ++ [0]) ≫= le_bytes 8));;
    r ← lift (copyout pagetable sp (kobj O_ustack) ((argc + 1) * 8));
    if r <? 0 then exec_bad pagetable sz None else
    tf_set p TF_a1 sp;;
    last ← the (basename path path);
    set_name p last;;
    oldpagetable ← getp p p_pagetable;
    setp p (set_p_pagetable pagetable);;
    setp p (set_p_sz sz);;
    tf_set p TF_epc (e_entry elf);;
    tf_set p TF_sp sp;;
    lift (proc_freepagetable oldpagetable oldsz);;
    mret argc
  end.

Definition exec (path : list Z) (argv : list Z) : K kstate Z :=
  r ← myproc; p ← the r;
  begin_op;;
  oip ← namei path;
  match oip with
  | None => end_op;; mret (-1)
  | Some ip =>
    ilock (Some ip);;
    r ← readi ip false (kobj O_elf) 0 ELFHDR;
    if negb (r =? ELFHDR) then exec_bad 0 0 (Some ip) else
    bs ← lift (peek_m (kobj O_elf) 64);
    let elf := get_elfhdr bs in
    if negb (e_magic elf =? ELF_MAGIC) then exec_bad 0 0 (Some ip) else
    tf ← getp p p_trapframe;
    pagetable ← lift (proc_pagetable tf);
    if pagetable =? 0 then exec_bad 0 0 (Some ip) else
    r ← exec_load ip elf pagetable;
    match r with
    | inr sz => exec_bad pagetable sz (Some ip)
    | inl sz =>
      iunlockput ip;;
      end_op;;
      exec_stack p path argv elf pagetable sz
    end
  end.

End exec.
