(* ===== verification/Sysfile.v ===== *)
(** * [kernel/sysfile.c] and the argument fetching of [kernel/syscall.c]

    The file-system calls.  A [char] array filled by [argstr] is the list of
    the characters fetched, its NUL last. *)

From S2P Require Import Prelude Mem KString Spinlock Machine Kalloc Vm KState Proc Pipe FsFmt Sleeplock Bio Log Fs File Kproc Exec.

(** fcntl.h *)
Definition O_RDONLY : Z := 0x000.
Definition O_WRONLY : Z := 0x001.
Definition O_RDWR : Z := 0x002.
Definition O_CREATE : Z := 0x200.
Definition O_TRUNC : Z := 0x400.

Section sysfile.
Context {lay : Layout} {drv : DiskDriver}.

(** ** Arguments *)

Definition fetchaddr (addr : Z) : K kstate (option Z) :=
  r ← myproc; p ← the r;
  sz ← getp p p_sz; pt ← getp p p_pagetable;
  if (sz <=? addr) || (sz <? u64 (addr + 8)) then mret None else
  e ← lift (copyin pt (kobj O_ip) addr 8);
  if negb (e =? 0) then mret None else
  v ← lift (load64 (kobj O_ip));
  mret (Some v).

(** The result and what was stored in the buffer. *)
Definition fetchstr (addr max : Z) : K kstate (Z * list Z) :=
  r ← myproc; p ← the r;
  pt ← getp p p_pagetable;
  '(err, buf) ← lift (copyinstr pt addr max);
  if err <? 0 then mret (err, buf) else
  n ← the (strlen buf);
  mret (n, buf).

Definition argraw (n : Z) : K kstate Z :=
  r ← myproc; p ← the r;
  if (0 <=? n) && (n <=? 5) then tf_get p (TF_a0 + 8 * n) else panic "argraw".
Definition argint (n : Z) : K kstate Z := v ← argraw n; mret (i32 v).
Definition argaddr (n : Z) : K kstate Z := argraw n.
Definition argstr (n max : Z) : K kstate (Z * list Z) := a ← argaddr n; fetchstr a max.

(** The descriptor and its file. *)
Definition argfd (n : Z) : K kstate (option (Z * nat)) :=
  fd ← argint n;
  if (fd <? 0) || (Z.of_nat NOFILE <=? fd) then mret None else
  r ← myproc; p ← the r;
  fs ← getp p p_ofile; f ← arr_get fs fd;
  mret (f' ← f; Some (fd, f')).

Definition set_ofile (p : nat) (fd : Z) (f : option nat) : K kstate unit :=
  setp p (fun x => set_p_ofile (arr_set (p_ofile x) fd f) x).

Definition fdalloc (f : nat) : K kstate Z :=
  r ← myproc; p ← the r;
  r ← for_exit (rangeZ NOFILE) (fun fd =>
    fs ← getp p p_ofile; x ← arr_get fs fd;
    match x with
    | None => set_ofile p fd (Some f);; mret (Some fd)
    | Some _ => mret None
    end);
  mret (default (-1) r).

(** ** Descriptors *)

Definition sys_dup : K kstate Z :=
  a ← argfd 0;
  match a with
  | None => mret (-1)
  | Some (_, f) =>
    fd ← fdalloc f;
    if fd <? 0 then mret (-1) else
    filedup f;; mret fd
  end.

Definition sys_read : K kstate Z :=
  a ← argfd 0;
  match a with
  | None => mret (-1)
  | Some (_, f) => n ← argint 2; p ← argaddr 1; fileread f p n
  end.
Definition sys_write : K kstate Z :=
  a ← argfd 0;
  match a with
  | None => mret (-1)
  | Some (_, f) => n ← argint 2; p ← argaddr 1; filewrite f p n
  end.

Definition sys_close : K kstate Z :=
  a ← argfd 0;
  match a with
  | None => mret (-1)
  | Some (fd, f) =>
    r ← myproc; p ← the r;
    set_ofile p fd None;;
    fileclose f;;
    mret 0
  end.

Definition sys_fstat : K kstate Z :=
  a ← argfd 0;
  match a with
  | None => mret (-1)
  | Some (_, f) => st ← argaddr 1; filestat f st
  end.

(** ** Links *)

(** [ip->nlink += d; iupdate(ip);] *)
Definition add_nlink (ip : nat) (d : Z) : K kstate unit :=
  seti ip (fun x => set_i_nlink (i16 (i_nlink x + d)) x);;
  iupdate ip.

(** [bad:] of [sys_link]. *)
Definition link_bad (ip : nat) : K kstate Z :=
  ilock (Some ip);;
  add_nlink ip (-1);;
  iunlockput ip;;
  end_op;;
  mret (-1).

Definition sys_link : K kstate Z :=
  '(n, old) ← argstr 0 MAXPATH;
  if n <? 0 then mret (-1) else
  '(n, new) ← argstr 1 MAXPATH;
  if n <? 0 then mret (-1) else
  begin_op;;
  r ← namei old;
  match r with
  | None => end_op;; mret (-1)
  | Some ip =>
    ilock (Some ip);;
    t ← geti ip i_type;
    if t =? T_DIR then iunlockput ip;; end_op;; mret (-1) else
    add_nlink ip 1;;
    iunlock (Some ip);;
    '(odp, name) ← nameiparent new;
    match odp with
    | None => link_bad ip
    | Some dp =>
      ilock (Some dp);;
      ddev ← geti dp i_dev; idev ← geti ip i_dev; inum ← geti ip i_inum;
      r ← (if negb (ddev =? idev) then mret (-1) else dirlink dp name inum);
      if r <? 0 then iunlockput dp;; link_bad ip else
      iunlockput dp;;
      iput ip;;
      end_op;;
      mret 0
    end
  end.

Definition isdirempty (dp : nat) : K kstate bool :=
  loop (fun off =>
    size ← geti dp i_size;
    if negb (u32 off <? size) then mret (inr true) else
    de ← read_dirent dp (u32 off) "isdirempty: readi";
    if negb (de_inum de =? 0) then mret (inr false) else
    mret (inl (i32 (off + DIRENT)))) (2 * DIRENT).

(** [bad:] of [sys_unlink]. *)
Definition unlink_bad (dp : nat) : K kstate Z := iunlockput dp;; end_op;; mret (-1).

Definition sys_unlink : K kstate Z :=
  '(n, path) ← argstr 0 MAXPATH;
  if n <? 0 then mret (-1) else
  begin_op;;
  '(odp, name) ← nameiparent path;
  match odp with
  | None => end_op;; mret (-1)
  | Some dp =>
    ilock (Some dp);;
    c1 ← the (namecmp name (cstring "."));
    if c1 =? 0 then unlink_bad dp else
    c2 ← the (namecmp name (cstring ".."));
    if c2 =? 0 then unlink_bad dp else
    r ← dirlookup dp name;
    match r with
    | None => unlink_bad dp
    | Some (ip, off) =>
      ilock (Some ip);;
      nlink ← geti ip i_nlink;
      if nlink <? 1 then panic "unlink: nlink < 1" else
      t ← geti ip i_type;
      busy ← (if t =? T_DIR then e ← isdirempty ip; mret (negb e) else mret false);
      if busy : bool then iunlockput ip;; unlink_bad dp else
      lift (poke_m (kobj O_de) (replicate 16 0));;
      r ← writei dp false (kobj O_de) off DIRENT;
      if negb (r =? DIRENT) then panic "unlink: writei" else
      t ← geti ip i_type;
      when (t =? T_DIR) (add_nlink dp (-1));;
      iunlockput dp;;
      add_nlink ip (-1);;
      iunlockput ip;;
      end_op;;
      mret 0
    end
  end.

(** ** Creating and opening *)

Definition create (path : list Z) (type major minor : Z) : K kstate (option nat) :=
  '(odp, name) ← nameiparent path;
  match odp with
  | None => mret None
  | Some dp =>
    ilock (Some dp);;
    r ← dirlookup dp name;
    match r with
    | Some (ip, _) =>
      iunlockput dp;;
      ilock (Some ip);;
      t ← geti ip i_type;
      if (type =? T_FILE) && ((t =? T_FILE) || (t =? T_DEVICE)) then mret (Some ip) else
      iunlockput ip;;
      mret None
    | None =>
      dev ← geti dp i_dev;
      ip ← ialloc dev type;
      ilock (Some ip);;
      seti ip (set_i_major major);;
      seti ip (set_i_minor minor);;
      seti ip (set_i_nlink 1);;
      iupdate ip;;
      inum ← geti ip i_inum;
      when (type =? T_DIR)
        (add_nlink dp 1;;
         r ← dirlink ip (cstring ".") inum;
         if r <? 0 then panic "create dots" else
         dinum ← geti dp i_inum;
         r ← dirlink ip (cstring "..") dinum;
         if r <? 0 then panic "create dots" else mret tt);;
      r ← dirlink dp name inum;
      if r <? 0 then panic "create: dirlink" else
      iunlockput dp;;
      mret (Some ip)
    end
  end.

(** The inode [sys_open] opens, locked; [None] after [end_op]. *)
Definition open_inode (path : list Z) (omode : Z) : K kstate (option nat) :=
  if negb (Z.land omode O_CREATE =? 0) then
    r ← create path T_FILE 0 0;
    match r with
    | None => end_op;; mret None
    | Some ip => mret (Some ip)
    end
  else
    r ← namei path;
    match r with
    | None => end_op;; mret None
    | Some ip =>
      ilock (Some ip);;
      t ← geti ip i_type;
      if (t =? T_DIR) && negb (omode =? O_RDONLY) then iunlockput ip;; end_op;; mret None
      else mret (Some ip)
    end.

Definition sys_open : K kstate Z :=
  '(n, path) ← argstr 0 MAXPATH;
  if n <? 0 then mret (-1) else
  omode ← argint 1;
  begin_op;;
  r ← open_inode path omode;
  match r with
  | None => mret (-1)
  | Some ip =>
    t ← geti ip i_type; major ← geti ip i_major;
    if (t =? T_DEVICE) && ((major <? 0) || (NDEV <=? major)) then
      iunlockput ip;; end_op;; mret (-1)
    else
    fo ← filealloc;
    fd ← match fo with None => mret (-1) | Some f => fdalloc f end;
    match fo with
    | None => iunlockput ip;; end_op;; mret (-1)
    | Some f =>
      if fd <? 0 then fileclose f;; iunlockput ip;; end_op;; mret (-1) else
      (if t =? T_DEVICE then setf f (set_f_type FD_DEVICE);; setf f (set_f_major major)
       else setf f (set_f_type FD_INODE);; setf f (set_f_off 0));;
      setf f (set_f_ip (Some ip));;
      setf f (set_f_readable (Z.land omode O_WRONLY =? 0));;
      setf f (set_f_writable (negb (Z.land omode O_WRONLY =? 0) || negb (Z.land omode O_RDWR =? 0)));;
      when (negb (Z.land omode O_TRUNC =? 0) && (t =? T_FILE)) (itrunc ip);;
      iunlock (Some ip);;
      end_op;;
      mret fd
    end
  end.

(** The common end of [sys_mkdir] and [sys_mknod]. *)
Definition finish_create (r : option nat) : K kstate Z :=
  match r with
  | None => end_op;; mret (-1)
  | Some ip => iunlockput ip;; end_op;; mret 0
  end.

Definition sys_mkdir : K kstate Z :=
  begin_op;;
  '(n, path) ← argstr 0 MAXPATH;
  r ← (if n <? 0 then mret None else create path T_DIR 0 0);
  finish_create r.

Definition sys_mknod : K kstate Z :=
  begin_op;;
  '(n, path) ← argstr 0 MAXPATH;
  r ← (if n <? 0 then mret None else
         major ← argint 1; minor ← argint 2;
         create path T_DEVICE (i16 major) (i16 minor));
  finish_create r.

Definition sys_chdir : K kstate Z :=
  r ← myproc; p ← the r;
  begin_op;;
  '(n, path) ← argstr 0 MAXPATH;
  r ← (if n <? 0 then mret None else namei path);
  match r with
  | None => end_op;; mret (-1)
  | Some ip =>
    ilock (Some ip);;
    t ← geti ip i_type;
    if negb (t =? T_DIR) then iunlockput ip;; end_op;; mret (-1) else
    iunlock (Some ip);;
    cwd ← getp p p_cwd; d ← the cwd;
    iput d;;
    end_op;;
    setp p (set_p_cwd (Some ip));;
    mret 0
  end.

(** ** exec and pipe *)

(** The pages of [argv] in order, and whether the vector was complete. *)
Definition fetch_argv (uargv : Z) : K kstate (list Z * bool) :=
  loop (fun argv =>
    let i := Z.of_nat (length argv) in
    if (MAXARG <=? length argv)%nat then mret (inr (argv, false)) else
    r ← fetchaddr (u64 (uargv + 8 * i));
    match r with
    | None => mret (inr (argv, false))
    | Some uarg =>
      if uarg =? 0 then mret (inr (argv, true)) else
      page ← lift kalloc;
      if page =? 0 then mret (inr (argv, false)) else
      '(n, buf) ← fetchstr uarg PGSIZE;
      lift (poke_m page buf);;
      if n <? 0 then mret (inr (argv ++ [page], false)) else mret (inl (argv ++ [page]))
    end) [].

Definition sys_exec : K kstate Z :=
  '(n, path) ← argstr 0 MAXPATH;
  if n <? 0 then mret (-1) else
  uargv ← argaddr 1;
  '(argv, ok) ← fetch_argv uargv;
  ret ← (if ok : bool then exec path argv else mret (-1));
  for_each argv (fun a => lift (kfree a));;
  mret ret.

(** [fileclose(rf); fileclose(wf); return -1;] *)
Definition pipe_bad (rf wf : nat) : K kstate Z := fileclose rf;; fileclose wf;; mret (-1).

Definition sys_pipe : K kstate Z :=
  r ← myproc; p ← the r;
  fdarray ← argaddr 0;
  r ← pipealloc;
  match r with
  | None => mret (-1)
  | Some (rf, wf) =>
    fd0 ← fdalloc rf;
    if fd0 <? 0 then pipe_bad rf wf else
    fd1 ← fdalloc wf;
    if fd1 <? 0 then set_ofile p fd0 None;; pipe_bad rf wf else
    pt ← getp p p_pagetable;
    lift (poke_m (kobj O_fd0) (le_bytes 4 fd0));;
    e ← lift (copyout pt fdarray (kobj O_fd0) 4);
    e ← (if e <? 0 then mret e else
           lift (poke_m (kobj O_fd1) (le_bytes 4 fd1));;
           lift (copyout pt (u64 (fdarray + 4)) (kobj O_fd1) 4));
    if e <? 0 then
      set_ofile p fd0 None;;
      set_ofile p fd1 None;;
      pipe_bad rf wf
    else mret 0
  end.

End sysfile.
