(* ===== verification/Syscall.v ===== *)
(** * [kernel/sysproc.c], [kernel/syscall.c] and [kernel/trap.c]

    The process and ring-buffer calls, the dispatch on the call number, and
    the traps: from user space, from the kernel, and devices. *)

From S2P Require Import Prelude Mem KString Spinlock Machine Kalloc Printf Vm KState Proc Hw Console Virtio Ringbuf Pipe FsFmt Sleeplock Bio Log Fs File Kproc Exec Sysfile.

Section syscall.
Context {lay : Layout} {drv : DiskDriver}.

(** ** sysproc.c *)

Definition sys_exit : K kstate Z := n ← argint 0; exit n.
Definition sys_getpid : K kstate Z := r ← myproc; p ← the r; getp p p_pid.
Definition sys_fork : K kstate Z := fork.
Definition sys_wait : K kstate Z := p ← argaddr 0; wait p.

Definition sys_sbrk : K kstate Z :=
  n ← argint 0;
  r ← myproc; p ← the r;
  addr ← getp p p_sz;
  e ← growproc n;
  mret (if e <? 0 then -1 else i32 addr).

(** The comparison [ticks - ticks0 < n] is on unsigned integers. *)
Definition sys_sleep : K kstate Z :=
  n ← argint 0;
  acquire L_ticks;;
  ticks0 ← gets ticks;
  loop (fun _ : unit =>
    t ← gets ticks;
    if negb (u32 (t - ticks0) <? u32 n) then release L_ticks;; mret (inr 0) else
    r ← myproc; p ← the r;
    killed ← getp p p_killed;
    if negb (killed =? 0) then release L_ticks;; mret (inr (-1)) else
    sleep Ch_ticks L_ticks;; mret (inl tt)) tt.

Definition sys_kill : K kstate Z := pid ← argint 0; kill pid.

Definition sys_uptime : K kstate Z :=
  acquire L_ticks;;
  xticks ← gets ticks;
  release L_ticks;;
  mret xticks.

(** [char buf[16]] with the characters [copyinstr] stored over what the stack
    held; its result is not looked at. *)
Definition name_arg (q : Z) : K kstate (list Z) :=
  r ← myproc; p ← the r;
  pt ← getp p p_pagetable;
  '(_, got) ← lift (copyinstr pt q 16);
  junk ← lift (peek_m (kobj O_buf) 16);
  mret (splice junk 0 got).

Definition sys_createbuf : K kstate Z :=
  q ← argaddr 0; passedValue ← argint 1; p ← argaddr 2;
  buf ← name_arg q;
  createbuf buf passedValue p.
Definition sys_closebuf : K kstate Z :=
  q ← argaddr 0; passedValue ← argint 1;
  buf ← name_arg q;
  closebuf buf passedValue.

(** ** syscall.c *)

(** [syscalls[num]]; the numbers are those of syscall.h. *)
Definition syscalls (num : Z) : option (K kstate Z) :=
  match num with
  | 1 => Some sys_fork | 2 => Some sys_exit | 3 => Some sys_wait | 4 => Some sys_pipe
  | 5 => Some sys_read | 6 => Some sys_kill | 7 => Some sys_exec | 8 => Some sys_fstat
  | 9 => Some sys_chdir | 10 => Some sys_dup | 11 => Some sys_getpid | 12 => Some sys_sbrk
  | 13 => Some sys_sleep | 14 => Some sys_uptime | 15 => Some sys_open | 16 => Some sys_write
  | 17 => Some sys_mknod | 18 => Some sys_unlink | 19 => Some sys_link | 20 => Some sys_mkdir
  | 21 => Some sys_close | 22 => Some sys_createbuf | 23 => Some sys_closebuf
  | _ => None
  end.

Definition syscall : K kstate unit :=
  r ← myproc; p ← the r;
  a7 ← tf_get p TF_a7;
  let num := i32 a7 in
  match syscalls num with
  | Some f => v ← f; tf_set p TF_a0 v
  | None =>
    pid ← getp p p_pid; name ← getp p p_name;
    lift (printf ("%d %s: unknown sys call %d" +:+ nl) [AInt pid; AStr (Some name); AInt num]);;
    tf_set p TF_a0 (u64 (-1))
  end.

(** ** trap.c *)

Definition trapinithart : K kstate unit := w_csr "stvec" (kobj O_kernelvec).

Definition clockintr : K kstate unit :=
  acquire L_ticks;;
  modify (fun s => set_ticks (u32 (ticks s + 1)) s);;
  wakeup Ch_ticks;;
  release L_ticks.

Definition devintr : K kstate Z :=
  scause ← r_csr "scause";
  if negb (Z.land scause 0x8000000000000000 =? 0) && (Z.land scause 0xff =? 9) then
    irq ← plic_claim;
    (if irq =? UART0_IRQ then uartintr
     else if irq =? VIRTIO0_IRQ then virtio_disk_intr
     else when (negb (irq =? 0))
       (lift (printf ("unexpected interrupt irq=%d" +:+ nl) [AInt irq])));;
    when (negb (irq =? 0)) (plic_complete irq);;
    mret 1
  else if scause =? 0x8000000000000001 then
    h ← hartid;
    when (h =? 0) clockintr;;
    sip ← r_csr "sip";
    w_csr "sip" (Z.land sip (Z.lnot 2));;
    mret 2
  else mret 0.

(** What is passed to [userret]: the trap frame's address and [satp]. *)
Definition usertrapret : K kstate (Z * Z) :=
  r ← myproc; p ← the r;
  lift (S := lstate) intr_off;;
  w_csr "stvec" (TRAMPOLINE + (kobj O_uservec - trampoline));;
  satp ← r_csr "satp";
  tf_set p TF_kernel_satp satp;;
  kstack ← getp p p_kstack;
  tf_set p TF_kernel_sp (u64 (kstack + PGSIZE));;
  tf_set p TF_kernel_trap (kobj O_usertrap);;
  h ← hartid;
  tf_set p TF_kernel_hartid h;;
  x ← r_sstatus;
  w_sstatus (Z.lor (Z.land x (Z.lnot SSTATUS_SPP)) SSTATUS_SPIE);;
  epc ← tf_get p TF_epc;
  w_csr "sepc" epc;;
  pt ← getp p p_pagetable;
  mret (TRAPFRAME, MAKE_SATP pt).

Definition usertrap : K kstate (Z * Z) :=
  st ← r_sstatus;
  if negb (Z.land st SSTATUS_SPP =? 0) then panic "usertrap: not from user mode" else
  w_csr "stvec" (kobj O_kernelvec);;
  r ← myproc; p ← the r;
  sepc ← r_csr "sepc";
  tf_set p TF_epc sepc;;
  scause ← r_csr "scause";
  which_dev ← (if scause =? 8 then
      killed ← getp p p_killed;
      when (negb (killed =? 0)) (exit (-1));;
      epc ← tf_get p TF_epc;
      tf_set p TF_epc (u64 (epc + 4));;
      lift (S := lstate) intr_on;;
      syscall;;
      mret 0
    else
      d ← devintr;
      if negb (d =? 0) then mret d else
      pid ← getp p p_pid;
      lift (printf ("usertrap(): unexpected scause %p pid=%d" +:+ nl) [APtr scause; AInt pid]);;
      stval ← r_csr "stval"; sepc ← r_csr "sepc";
      lift (printf ("            sepc=%p stval=%p" +:+ nl) [APtr sepc; APtr stval]);;
      setp p (set_p_killed 1);;
      mret 0);
  killed ← getp p p_killed;
  when (negb (killed =? 0)) (exit (-1));;
  when (which_dev =? 2) yield;;
  usertrapret.

Definition kerneltrap : K kstate unit :=
  sepc ← r_csr "sepc"; sstatus ← r_sstatus; scause ← r_csr "scause";
  if Z.land sstatus SSTATUS_SPP =? 0 then panic "kerneltrap: not from supervisor mode" else
  on ← lift (S := lstate) intr_get;
  if on : bool then panic "kerneltrap: interrupts enabled" else
  which_dev ← devintr;
  if which_dev =? 0 then
    lift (printf ("scause %p" +:+ nl) [APtr scause]);;
    sepc ← r_csr "sepc"; stval ← r_csr "stval";
    lift (printf ("sepc=%p stval=%p" +:+ nl) [APtr sepc; APtr stval]);;
    panic "kerneltrap"
  else
  when (which_dev =? 2)
    (r ← myproc;
     match r with
     | None => mret tt
     | Some p => st ← getp p p_state; when (bool_decide (st = RUNNING)) yield
     end);;
  w_csr "sepc" sepc;;
  w_sstatus sstatus.

(** ** proc.c: the first run of a process *)

Definition forkret : K kstate (Z * Z) :=
  r ← myproc; p ← the r;
  release (L_proc p);;
  f ← gets first;
  when f (modify (set_first false);; fsinit ROOTDEV);;
  usertrapret.

(** ** vm.c and main.c: bringing up the first hart *)

Definition kvminit : K kstate Z := lift kvmmake.
Definition kvminithart (kernel_pagetable : Z) : K kstate unit :=
  w_csr "satp" (MAKE_SATP kernel_pagetable).

(** [main] on hart 0, up to [scheduler()]. *)
Definition main : K kstate unit :=
  consoleinit;;
  lift (printf nl []);;
  lift (printf ("xv6 kernel is booting" +:+ nl) []);;
  lift (printf nl []);;
  lift kinit;;
  kpt ← kvminit;
  kvminithart kpt;;
  procinit;;
  trapinithart;;
  plicinit;;
  plicinithart;;
  binit;;
  iinit;;
  virtio_disk_init;;
  userinit.

End syscall.
