(* ===== verification/RingbufInv.v ===== *)
(** * Ring buffers in the address space

    What [processSpace_mapper] and [closebuf] do to the page table of the
    calling process.  The windows for ring buffers lie in the region of the
    trapframe's last-level table, so mapping them needs no table page: with
    enough free pages for the buffer itself the mapping cannot fail. *)

From S2P Require Import Prelude Mem KString Spinlock Machine Kalloc Printf Vm VmInv VmCopy KState Proc ProcInv Ringbuf.

(** The ten windows of the address space. *)
Definition win (j : Z) : Z := MAP_START + SPACE_JUMP * j.
(** Pages of a window: the buffer twice, and the book. *)
Definition WPAGES : Z := 2 * Z.of_nat RINGBUF_SIZE + 1.

Ltac winlia := unfold win, MAP_START, SPACE_JUMP, MAXMAPLOC, WPAGES, RINGBUF_SIZE in *; pglia.

Lemma MAXVA_val : MAXVA = 2 ^ 38.
Proof. done. Qed.

Lemma top_table va : MAP_START <= va < MAXVA -> PX 2 va = 255 /\ PX 1 va = 511.
Proof.
  intros Hva. rw !PX_spec //. rw /MAP_START MAXVA_val in Hva.
  change (2 ^ (12 + 9 * 2)) with (2 ^ 30). change (2 ^ (12 + 9 * 1)) with (2 ^ 21).
  replace (va / 2 ^ 30) with 255 by (apply (Z.div_unique _ _ _ (va - 255 * 2 ^ 30)); pglia).
  replace (va / 2 ^ 21) with 131071 by (apply (Z.div_unique _ _ _ (va - 131071 * 2 ^ 21)); pglia).
  done.
Qed.

Lemma win_range j i :
  0 <= j < 10 -> 0 <= i < WPAGES ->
  MAP_START <= win j + PGSIZE * i < TRAPFRAME /\ (win j + PGSIZE * i) mod PGSIZE = 0 /\
  win j + PGSIZE * i + PGSIZE <= TRAPFRAME.
Proof.
  intros Hj Hi. pose proof MAXVA_val. split_and!; [winlia|winlia| |winlia].
  rw /win /MAP_START /SPACE_JUMP MAXVA_val.
  replace (2 ^ 38 - 2 * PGSIZE - 10 * 34 * PGSIZE + 34 * PGSIZE * j + PGSIZE * i)
    with ((2 ^ 26 - 342 + 34 * j + i) * PGSIZE) by pglia.
  by rw Z.mod_mul.
Qed.

(** Distinct windows share no page. *)
Lemma win_disjoint j j' i i' :
  0 <= j < 10 -> 0 <= j' < 10 -> 0 <= i < WPAGES -> 0 <= i' < WPAGES ->
  win j + PGSIZE * i = win j' + PGSIZE * i' -> j = j' /\ i = i'.
Proof. intros. winlia. Qed.

Section mapper.
Context {lay : Layout}.
Implicit Types (T : gmap (list Z) Z) (s : kstate).

(** Every window is mapped whole, for user access, or not at all. *)
Definition win_free (lf : Z -> Z) (j : Z) : Prop :=
  forall i, 0 <= i < WPAGES -> Z.odd (lf (win j + PGSIZE * i)) = false.
Definition win_used (lf : Z -> Z) (j : Z) : Prop :=
  forall i, 0 <= i < WPAGES -> Z.odd (lf (win j + PGSIZE * i)) = true /\
    Z.testbit (lf (win j + PGSIZE * i)) 4 = true /\ PTE2PA (lf (win j + PGSIZE * i)) <> 0.
Definition windows_ok (lf : Z -> Z) : Prop :=
  forall j, 0 <= j < 10 -> win_free lf j \/ win_used lf j.

Lemma win_uaddr m T j :
  0 <= j < 10 -> win_free (leaf m T) j \/ win_used (leaf m T) j ->
  uaddr m T (win j) = 0 <-> win_free (leaf m T) j.
Proof.
  intros Hj Hw. destruct (win_range j 0 Hj) as (Hr & _ & _); [winlia|].
  rw Z.mul_0_r Z.add_0_r in Hr. rw /uaddr (proj2 (Z.leb_gt _ _)); [|pglia].
  assert (0 <= 0 < WPAGES) as H0 by winlia. split; intros H.
  - destruct Hw as [|Hu]; [done|]. exfalso. destruct (Hu 0 H0) as (Ho & Ht & Hp).
    rw Z.mul_0_r Z.add_0_r in Ho Ht Hp. by rw Ho Ht /= in H.
  - specialize (H 0 H0). rw Z.mul_0_r Z.add_0_r in H. by rw H.
Qed.

(** The search finds the first free window. *)
Lemma find_window_wp (m : mstate) root T n :
  pt_inv (mem m) root T -> windows_ok (leaf (mem m) T) -> (10 < n)%nat ->
  wp (find_window root) n m (fun w m' => m' = m /\
    match w with
    | Some start => exists j, 0 <= j < 10 /\ start = win j /\ win_free (leaf (mem m) T) j
    | None => forall j, 0 <= j < 10 -> win_used (leaf (mem m) T) j
    end).
Proof.
  intros Hpt Hok Hn.
  apply (wp_loop (fun start m' => m' = m /\ exists j, 0 <= j < 10 /\ start = win j /\
                    forall j', 0 <= j' < j -> win_used (leaf (mem m) T) j')
                 (fun start _ => Z.to_nat ((win 10 - start) / SPACE_JUMP))).
  { split; [done|]. exists 0. rw /win. split_and!; lia. }
  { rw /win. replace (MAP_START + SPACE_JUMP * 10 - MAP_START) with (10 * SPACE_JUMP) by lia.
    rw Z.div_mul //. }
  intros start m' (-> & j & Hj & -> & Hbefore). pose proof (win_range j 0 Hj) as Hr.
  rw Z.mul_0_r Z.add_0_r in Hr.
  apply wp_bind. rw /wp (walkaddr_run m root T) //; [|rw /win /MAP_START MAXVA_val; winlia].
  destruct (Z.eqb_spec (uaddr (mem m) T (win j)) 0) as [E|E].
  { apply wp_ret. split; [done|]. exists j. split_and!; [lia..|done|].
    by apply win_uaddr in E; [|done|apply Hok]. }
  assert (win_used (leaf (mem m) T) j) as Hu.
  { destruct (Hok j Hj) as [Hf|]; [|done]. by apply win_uaddr in Hf; [|done|left]. }
  assert (forall j', 0 <= j' < j + 1 -> win_used (leaf (mem m) T) j') as Hb'.
  { intros j' Hj'. destruct (decide (j' = j)) as [->|]; [done|]. apply Hbefore. lia. }
  destruct (Z.ltb_spec MAXMAPLOC (win j + SPACE_JUMP)) as [Hlast|Hmore]; apply wp_ret.
  - split; [done|]. intros j' Hj'. apply Hb'. winlia.
  - split.
    + split; [done|]. exists (j + 1). split_and!; [winlia|winlia|winlia|done].
    + rw /win. replace (MAP_START + SPACE_JUMP * 10 - (MAP_START + SPACE_JUMP * j)) with ((10 - j) * SPACE_JUMP) by lia.
      replace (MAP_START + SPACE_JUMP * 10 - (MAP_START + SPACE_JUMP * j + SPACE_JUMP)) with ((9 - j) * SPACE_JUMP) by lia.
      rw !Z.div_mul //. lia.
Qed.

(** ** Table accesses *)

Lemma getrb_run {A} i r (f : ringbuf -> A) s n :
  0 <= i -> ringbufs s !! Z.to_nat i = Some r -> getrb i f n s = Ok (f r) s.
Proof.
  intros Hi Hr. rw /getrb /mbind /K_bind /= /arr_get (proj2 (Z.ltb_ge _ _)) //. by rw Hr.
Qed.
Lemma setrb_run i r f s n :
  0 <= i -> ringbufs s !! Z.to_nat i = Some r ->
  setrb i f n s = Ok tt (set_ringbufs (<[Z.to_nat i := f r]> (ringbufs s)) s).
Proof.
  intros Hi Hr. rw /setrb /mbind /K_bind /=.
  rw (proj2 (arr_ok_spec _ _)); [|apply lookup_lt_Some in Hr; lia].
  rw /modify (alter_insert _ _ _ r) //.
Qed.

(** ** The mapping loop *)

(** [lf'] is [lf] with the first [k] pages of the window at [start] mapped to
    [pages], taken round and round. *)
Definition win_mapped (lf lf' : Z -> Z) (start : Z) (pages : list Z) (k : Z) : Prop :=
  forall b, b mod PGSIZE = 0 -> 0 <= b < MAXVA ->
    lf' b = if decide (start <= b < start + PGSIZE * k)
            then new_pte (pages !!! Z.to_nat ((b - start) / PGSIZE mod 16)) PTE_RB else lf b.

Lemma win_mapped_S (lf lf1 lf2 : Z -> Z) start pages k :
  start mod PGSIZE = 0 -> 0 <= k -> 0 <= start -> start + PGSIZE * (k + 1) <= MAXVA ->
  win_mapped lf lf1 start pages k ->
  (forall b, lf2 b = if decide (same_page (start + PGSIZE * k) b)
                     then new_pte (pages !!! Z.to_nat (k mod 16)) PTE_RB else lf1 b) ->
  win_mapped lf lf2 start pages (k + 1).
Proof.
  intros Hm Hk H0 Hmax H1 H2 b Hb Hbr. rw H2.
  assert ((start + PGSIZE * k) mod PGSIZE = 0) as Hkm by by apply aligned_add.
  destruct (decide (same_page _ _)) as [E|E];
    rw same_page_aligned // in E; [|pglia| |pglia].
  - rw -E decide_True; [|pglia].
    replace (start + PGSIZE * k - start) with (k * PGSIZE) by lia. by rw Z.div_mul.
  - rw H1 //. repeat case_decide; try done; [pglia|].
    destruct (pages_disjoint b (start + PGSIZE * k) Hb Hkm); [congruence|pglia..].
Qed.

(** Pages a ring buffer may be mapped to. *)
Definition mappable (p : Z) : Prop := p mod PGSIZE = 0 /\ 0 <= p < 2 ^ 56.
Lemma page_ok_mappable p : page_ok p -> mappable p.
Proof. intros Hp. split; [apply Hp|by apply page_ok_56]. Qed.

(** Bytes outside the tables [T] and the pages [l] are the same. *)
Definition kept_off T (l : list Z) (m m' : memory) : Prop :=
  forall a, (forall x p, T !! x = Some p -> off_page p a) -> (forall p, p ∈ l -> off_page p a) ->
    ld8 m' a = ld8 m a.

Lemma PTE_RB_range : 0 <= PTE_RB < 1024.
Proof. done. Qed.

(** Mapping page [i] of a free window to [pa] always succeeds. *)
Lemma map_page (m : mstate) root T l p0 j i pa n :
  vm_inv m root T l -> T !! [255; 511] = Some p0 -> 0 <= j < 10 -> 0 <= i < WPAGES ->
  Z.odd (leaf (mem m) T (win j + PGSIZE * i)) = false -> mappable pa -> (0 < n)%nat ->
  exists m', mappages root (win j + i * PGSIZE) PGSIZE pa PTE_RB n m = Ok 0 m' /\
    vm_inv m' root T l /\ lk m' = lk m /\ out m' = out m /\ kept_off T [] (mem m) (mem m') /\
    forall b, leaf (mem m') T b = if decide (same_page (win j + PGSIZE * i) b)
                                  then new_pte pa PTE_RB else leaf (mem m) T b.
Proof.
  intros Hinv HT Hj Hi Hodd [Hpa1 Hpa2] Hn. destruct n as [|n]; [lia|].
  destruct (win_range j i Hj Hi) as (Hr & Hm & Hr2). rw (Z.mul_comm i).
  assert (MAP_START <= win j + PGSIZE * i < MAXVA) as Hva by pglia.
  assert (0 <= win j + PGSIZE * i < MAXVA) as Hva0 by (split; [|lia]; rw /MAP_START MAXVA_val in Hva; pglia).
  destruct (top_table _ Hva) as [E2 E1].
  assert (T !! [PX 2 (win j + PGSIZE * i); PX 1 (win j + PGSIZE * i)] = Some p0) as HT' by by rw E2 E1.
  rw (mappages_one m root T _ p0) //; [|apply Hinv].
  destruct (vm_inv_leaf m root T l (win j + PGSIZE * i) p0 (new_pte pa PTE_RB) Hinv HT')
    as (Hinv' & Hfr & Hlf); [by apply pte_range|].
  eexists. split_and!; [done|done|done|done| |exact Hlf].
  intros a Ha _. by apply (pf_bytes _ _ _ _ _ _ Hfr).
Qed.

(** The pages a mapping uses: fresh ones, the head of the free list, or those
    of the existing buffer. *)
Definition rb_pages (newmap : bool) (l : list Z) (r : ringbuf) : list Z :=
  if newmap then take 16 l else rb_bufPA r.
(** [bufPA] and the number of pages taken after [i] iterations. *)
Definition rb_taken (newmap : bool) (i : nat) : nat := if newmap then Nat.min i 16 else O.
Definition rb_bufs (newmap : bool) (l : list Z) (r : ringbuf) (i : nat) : list Z :=
  take (rb_taken newmap i) l ++ drop (rb_taken newmap i) (rb_bufPA r).

Record map_inv (newmap : bool) s root T (l : list Z) ci r j (i : nat) s' : Prop := {
  mi_vm : vm_inv (mach s') root T (drop (rb_taken newmap i) l);
  mi_lk : lk (mach s') = lk (mach s);
  mi_st : s' = set_mach (mach s') (set_ringbufs
            (<[Z.to_nat ci := set_rb_bufPA (rb_bufs newmap l r i) r]> (ringbufs s)) s);
  mi_map : win_mapped (leaf (mem (mach s)) T) (leaf (mem (mach s')) T) (win j)
             (rb_pages newmap l r) (Z.of_nat i);
  mi_off : kept_off T (take 16 l) (mem (mach s)) (mem (mach s'));
}.

Lemma kept_off_trans T l m1 m2 m3 : kept_off T l m1 m2 -> kept_off T l m2 m3 -> kept_off T l m1 m3.
Proof. intros H1 H2 a Ha Hl. by rw H2 // H1. Qed.
Lemma kept_off_weaken T l l' m m' : (forall p, p ∈ l -> p ∈ l') -> kept_off T l m m' -> kept_off T l' m m'.
Proof. intros Hl H a Ha Hp. apply H; auto. Qed.

(** Before page [i] is mapped: the buffer has a page for it. *)
Lemma map_iter_page (newmap : bool) s root T l ci r j mem0 i s1 n :
  map_inv newmap s root T l ci r j i s1 -> 0 <= ci -> ringbufs s !! Z.to_nat ci = Some r ->
  length (rb_bufPA r) = 16%nat -> (newmap = true -> (16 <= length l)%nat) -> (i < 32)%nat ->
  wp (if (Z.of_nat i <? Z.of_nat RINGBUF_SIZE) && newmap then
        mem ← lift kalloc;
        setrb ci (fun r => set_rb_bufPA (arr_set (rb_bufPA r) (Z.of_nat i) mem) r);;
        mret mem
      else mret mem0) n s1 (fun _ s2 =>
    vm_inv (mach s2) root T (drop (rb_taken newmap (S i)) l) /\ lk (mach s2) = lk (mach s) /\
    s2 = set_mach (mach s2) (set_ringbufs
           (<[Z.to_nat ci := set_rb_bufPA (rb_bufs newmap l r (S i)) r]> (ringbufs s)) s) /\
    (forall va, leaf (mem (mach s2)) T va = leaf (mem (mach s1)) T va) /\
    kept_off T (take 16 l) (mem (mach s)) (mem (mach s2)) /\
    rb_bufs newmap l r (S i) !! (i mod 16)%nat = Some (rb_pages newmap l r !!! (i mod 16)%nat)).
Proof.
  intros [Hvm Hlk Hst Hmap Hoff] Hci Hr Hlen Hl Hi.
  assert (forall k, (k < 16)%nat -> newmap = true -> l !! k = Some (take 16 l !!! k)) as Hlook.
  { intros k Hk Hnew. specialize (Hl Hnew). destruct (lookup_lt_is_Some_2 l k) as [q Hq]; [lia|].
    rw Hq. f_equal. symmetry. apply list_lookup_total_correct. by rw lookup_take decide_True. }
  destruct ((Z.of_nat i <? Z.of_nat RINGBUF_SIZE) && newmap) eqn:E.
  - zbool. subst newmap. assert (i < 16)%nat as Hi16 by (rw /RINGBUF_SIZE in H; lia).
    specialize (Hl eq_refl). destruct (lookup_lt_is_Some_2 l i) as [q Hq]; [lia|].
    rw /rb_taken Nat.min_l in Hvm; [|lia]. rw (drop_S _ _ _ Hq) in Hvm.
    destruct (vm_inv_kalloc _ _ _ _ _ n Hvm) as (m2 & Hrun & Hvm2 & Hlk2 & _ & Hlf2 & Hoff2).
    apply wp_bind, wp_lift. rw /wp Hrun. apply wp_bind.
    set (s2 := sput m2 s1).
    assert (ringbufs s2 !! Z.to_nat ci = Some (set_rb_bufPA (rb_bufs true l r i) r)) as Hr2.
    { rw /s2 Hst /= list_lookup_insert_eq //. by apply lookup_lt_Some in Hr. }
    rw /wp (setrb_run ci _ _ _ _ Hci Hr2).
    assert (arr_set (rb_bufs true l r i) (Z.of_nat i) q = rb_bufs true l r (S i)) as Ebuf.
    { rw /rb_bufs /arr_set /rb_taken !Nat.min_l; [|lia..]. rw Nat2Z.id.
      rw insert_app_r_alt; [|rw length_take; lia]. rw length_take Nat.min_l; [|lia].
      rw Nat.sub_diag. destruct (lookup_lt_is_Some_2 (rb_bufPA r) i) as [y Hy]; [lia|].
      rw (drop_S _ _ _ Hy) (take_S_r _ _ _ Hq) -app_assoc //. }
    rw /rb_taken Nat.min_l; [|lia]. split_and!; [done|by rw /= Hlk2|..].
    + rw /s2 Hst /=. rw /set_ringbufs /set_mach /=. f_equal. rw list_insert_insert_eq.
      f_equal. rw /set_rb_bufPA /=. by rw Ebuf.
    + done.
    + eapply kept_off_trans; [exact Hoff|]. intros a _ Ha. apply Hoff2, Ha.
      by eapply elem_take.
    + rw Nat.mod_small; [|lia]. rw /rb_bufs /rb_taken Nat.min_l; [|lia].
      rw lookup_app_l ?lookup_take ?decide_True; [|lia|rw length_take; lia]. by apply Hlook.
  - assert (rb_taken newmap (S i) = rb_taken newmap i /\
      (rb_taken newmap i = O \/ newmap = true /\ rb_taken newmap i = 16%nat)) as [Et Et2].
    { rw /rb_taken. destruct newmap; [|auto]. rw /RINGBUF_SIZE andb_true_r in E. zbool. lia. }
    apply wp_ret. rw /rb_bufs Et. split_and!; [done..|].
    pose proof (Nat.mod_upper_bound i 16 ltac:(lia)).
    destruct Et2 as [Ez|[-> Ez]]; rw /rb_taken in Ez |- *.
    + destruct newmap; [rw /RINGBUF_SIZE andb_true_r in E; zbool; lia|]. rw take_0 drop_0 /=. apply list_lookup_lookup_total_lt. lia.
    + rw Ez lookup_app_l; [|rw length_take; lia]. rw lookup_take decide_True //. by apply Hlook.
Qed.

Lemma map_iter_wp (newmap : bool) s root T l p0 ci r j mem0 i s1 n :
  map_inv newmap s root T l ci r j i s1 -> T !! [255; 511] = Some p0 -> 0 <= j < 10 ->
  win_free (leaf (mem (mach s)) T) j -> 0 <= ci -> ringbufs s !! Z.to_nat ci = Some r ->
  length (rb_bufPA r) = 16%nat -> (newmap = true -> (16 <= length l)%nat) -> (i < 32)%nat ->
  Forall mappable (rb_pages newmap l r) -> (0 < n)%nat ->
  wp (map_iter root ci (win j) newmap mem0 (Z.of_nat i)) n s1 (fun acc s' =>
    (exists mem, acc = inl mem) /\ map_inv newmap s root T l ci r j (S i) s').
Proof.
  intros Hmi HT Hj Hfree Hci Hr Hlen Hl Hi Hpg Hn. apply wp_bind.
  eapply wp_mono; [by apply (map_iter_page newmap s root T l ci r j mem0 i s1 n)|].
  intros mem1 s2 (Hvm & Hlk & Hst & Hlf & Hoff & Hpa).
  set (pa := rb_pages newmap l r !!! (i mod 16)%nat) in *.
  assert (ringbufs s2 !! Z.to_nat ci = Some (set_rb_bufPA (rb_bufs newmap l r (S i)) r)) as Hr2.
  { rw Hst /= list_lookup_insert_eq //. by apply lookup_lt_Some in Hr. }
  apply wp_bind. rw /wp (getrb_run _ _ _ _ _ Hci Hr2) /=.
  assert (Z.to_nat (Z.of_nat i mod Z.of_nat RINGBUF_SIZE) = (i mod 16)%nat) as Emod
    by (rw -Nat2Z.inj_mod Nat2Z.id //).
  apply wp_bind, (wp_arr_get _ _ pa); [by apply Z.mod_pos_bound|by rw Emod|].
  assert (Z.odd (leaf (mem (mach s2)) T (win j + PGSIZE * Z.of_nat i)) = false) as Hodd.
  { destruct (win_range j (Z.of_nat i) Hj) as (Hw & Hwm & Hw2); [winlia|].
    rw Hlf (mi_map _ _ _ _ _ _ _ _ _ _ Hmi) //; [|pose proof MAXVA_val; winlia].
    rw decide_False; [|lia]. apply Hfree. winlia. }
  destruct (map_page (mach s2) root T (drop (rb_taken newmap (S i)) l) p0 j (Z.of_nat i) pa n)
    as (m3 & Hrun & Hvm3 & Hlk3 & _ & Hoff3 & Hlf3); [done|done|done|winlia|done| |done|].
  { rw Forall_forall in Hpg. apply Hpg, list_elem_of_lookup. exists (i mod 16)%nat.
    apply list_lookup_lookup_total_lt. pose proof (Nat.mod_upper_bound i 16 ltac:(lia)).
    rw /rb_pages. destruct newmap; [rw length_take; specialize (Hl eq_refl); lia|lia]. }
  apply wp_bind, wp_lift. rw /wp Hrun /=. split; [by eexists|].
  split; simpl; [done|congruence|by rw {1}Hst| |].
  - rw Nat2Z.inj_succ. destruct (win_range j (Z.of_nat i) Hj) as (Hw & Hwm & Hw2); [winlia|].
    destruct (win_range j 0 Hj) as (_ & Hwm0 & _); [winlia|]. rw Z.mul_0_r Z.add_0_r in Hwm0.
    eapply (win_mapped_S _ (leaf (mem (mach s2)) T)); [done|lia| | | |].
    + pose proof MAXVA_val. winlia.
    + winlia.
    + intros b Hb Hbr. rw Hlf. by apply (mi_map _ _ _ _ _ _ _ _ _ _ Hmi).
    + intros b. rw Hlf3 /pa. do 3 f_equal. change 16 with (Z.of_nat 16). rw -Nat2Z.inj_mod Nat2Z.id //.
  - eapply kept_off_trans; [exact Hoff|]. by eapply kept_off_weaken, Hoff3; [intros ? ?%not_elem_of_nil].
Qed.

Lemma map_loop_wp (newmap : bool) s root T l p0 ci r j n :
  vm_inv (mach s) root T l -> T !! [255; 511] = Some p0 -> 0 <= j < 10 ->
  win_free (leaf (mem (mach s)) T) j -> 0 <= ci -> ringbufs s !! Z.to_nat ci = Some r ->
  length (rb_bufPA r) = 16%nat -> (newmap = true -> (16 <= length l)%nat) ->
  Forall mappable (rb_pages newmap l r) -> (0 < n)%nat ->
  wp (for_fold (rangeZ (RINGBUF_SIZE * 2)) (inl 0) (fun acc i =>
        match acc with
        | inr v => mret acc
        | inl mem => map_iter root ci (win j) newmap mem i
        end)) n s (fun acc s' =>
    (exists mem, acc = inl mem) /\ map_inv newmap s root T l ci r j 32 s').
Proof.
  intros Hvm HT Hj Hfree Hci Hr Hlen Hl Hpg Hn.
  apply (wp_for_fold_range (fun i acc s' =>
    (exists mem, acc = inl mem) /\ map_inv newmap s root T l ci r j i s')).
  - split; [by eexists|]. assert (rb_taken newmap 0 = O) as E by by destruct newmap.
    split; rw /rb_bufs ?E /=; [by rw drop_0|done| | |done].
    + rw drop_0 list_insert_id; [by destruct s|]. rw Hr. by destruct r.
    + intros b _ _. by rw decide_False; [|lia].
  - intros i acc s1 Hi [[mem1 ->] Hmi]. by eapply map_iter_wp.
  - done.
Qed.

(** ** [processSpace_mapper] *)

(** [lf'] is [lf] with the window at [start] mapped: [pages] twice, then [book]. *)
Definition ring_mapped (lf lf' : Z -> Z) (start : Z) (pages : list Z) (book : Z) : Prop :=
  forall b, b mod PGSIZE = 0 -> 0 <= b < MAXVA ->
    lf' b = if decide (start <= b < start + PGSIZE * 32)
            then new_pte (pages !!! Z.to_nat ((b - start) / PGSIZE mod 16)) PTE_RB
            else if decide (b = start + PGSIZE * 32) then new_pte book PTE_RB else lf b.

Definition rb_book_page (newmap : bool) (l : list Z) (r : ringbuf) : Z :=
  if newmap then l !!! 16%nat else rb_book r.

(** The result of a successful mapping of window [j]. *)
Record mapper_ok (newmap : bool) s root T (l : list Z) ci r j s' : Prop := {
  mo_free : win_free (leaf (mem (mach s)) T) j;
  mo_vm : vm_inv (mach s') root T (if newmap then drop 17 l else l);
  mo_lk : lk (mach s') = lk (mach s);
  mo_st : s' = set_mach (mach s') (set_ringbufs (<[Z.to_nat ci :=
            Ringbuf (rb_refcount r) (rb_name r) (rb_pidsRW r) (rb_pages newmap l r) (win j)
              (rb_book_page newmap l r)]> (ringbufs s)) s);
  mo_map : ring_mapped (leaf (mem (mach s)) T) (leaf (mem (mach s')) T) (win j)
             (rb_pages newmap l r) (rb_book_page newmap l r);
  mo_off : kept_off T (take 17 l) (mem (mach s)) (mem (mach s'));
}.

(** The book page: a fresh one, or the buffer's. *)
Lemma book_wp (newmap : bool) s root T l ci r1 s1 n :
  vm_inv (mach s1) root T (if newmap then drop 16 l else l) -> 0 <= ci ->
  s1 = set_mach (mach s1) (set_ringbufs (<[Z.to_nat ci := r1]> (ringbufs s)) s) ->
  (Z.to_nat ci < length (ringbufs s))%nat -> (newmap = true -> (17 <= length l)%nat) ->
  wp (when newmap (b ← lift kalloc; setrb ci (set_rb_book b))) n s1 (fun _ s2 =>
    vm_inv (mach s2) root T (if newmap then drop 17 l else l) /\ lk (mach s2) = lk (mach s1) /\
    s2 = set_mach (mach s2) (set_ringbufs
           (<[Z.to_nat ci := set_rb_book (rb_book_page newmap l r1) r1]> (ringbufs s)) s) /\
    (forall va, leaf (mem (mach s2)) T va = leaf (mem (mach s1)) T va) /\
    kept_off T (take 17 l) (mem (mach s1)) (mem (mach s2))).
Proof.
  intros Hvm Hci Hst Hlt Hl. rw /rb_book_page. destruct newmap; simpl.
  - specialize (Hl eq_refl). assert (l !! 16%nat = Some (l !!! 16%nat)) as H16
      by (apply list_lookup_lookup_total_lt; lia).
    rw (drop_S _ _ _ H16) in Hvm.
    destruct (vm_inv_kalloc _ _ _ _ _ n Hvm) as (m2 & Hrun & Hvm2 & Hlk2 & _ & Hlf2 & Hoff2).
    apply wp_bind, wp_lift. rw /wp Hrun.
    rw (setrb_run ci r1 _ _ _ Hci); [|by rw Hst /= list_lookup_insert_eq].
    split_and!; [done|done| |done|].
    + rw Hst /=. rw /set_ringbufs /set_mach /=. by rw list_insert_insert_eq.
    + intros a _ Ha. apply Hoff2, Ha. eapply elem_take; [exact H16|lia].
  - apply wp_ret. split_and!; [done|done| |done|done]. rw {1}Hst. by destruct r1.
Qed.

Lemma processSpace_mapper_wp (newmap : bool) s root T l p0 ip p ci r n :
  cur s = Some ip -> procs s !! ip = Some p -> p_pagetable p = root -> lk_ok (klk s) ->
  vm_inv (mach s) root T l -> T !! [255; 511] = Some p0 ->
  windows_ok (leaf (mem (mach s)) T) ->
  0 <= ci -> ringbufs s !! Z.to_nat ci = Some r -> length (rb_bufPA r) = 16%nat ->
  (newmap = true -> (17 <= length l)%nat) ->
  (newmap = false -> Forall mappable (rb_bufPA r) /\ mappable (rb_book r)) -> (10 < n)%nat ->
  wp (processSpace_mapper ci newmap) n s (fun ret s' =>
    ret = -1 /\ s' = s /\ (forall j, 0 <= j < 10 -> win_used (leaf (mem (mach s)) T) j) \/
    ret = 0 /\ exists j, 0 <= j < 10 /\ mapper_ok newmap s root T l ci r j s').
Proof.
  intros Hc Hp Hpt Hok Hvm HT Hwin Hci Hr Hlen Hl Hold Hn.
  assert (Forall page_ok l) as Hlok by (eapply flist_page_ok, (vi_free _ _ _ _ Hvm)).
  assert (Forall mappable (rb_pages newmap l r)) as Hpg.
  { rw /rb_pages. destruct newmap; [|by apply Hold].
    apply Forall_take. eapply Forall_impl; [done|]. apply page_ok_mappable. }
  assert (mappable (rb_book_page newmap l r)) as Hbk.
  { rw /rb_book_page. destruct newmap; [|by apply Hold]. apply page_ok_mappable.
    rw Forall_lookup in Hlok. specialize (Hl eq_refl). apply (Hlok 16%nat), list_lookup_lookup_total_lt. lia. }
  rw /processSpace_mapper. apply wp_bind. rw /wp myproc_run // Hc.
  apply wp_bind. rw /wp /=. apply wp_bind. rw /wp (getp_run s ip p) // Hpt.
  apply wp_bind, wp_lift. eapply wp_mono; [apply (find_window_wp (mach s) root T); [apply Hvm|done|done]|].
  intros [start|] m' [-> Hw]; last first.
  { apply wp_ret. left. split_and!; [done|by destruct s|done]. }
  destruct Hw as (j & Hj & -> & Hfree). rw sput_sget. apply wp_bind.
  rw /wp (setrb_run _ _ _ _ _ Hci Hr). set (r1 := set_rb_vabuf (win j) r). set (s0 := set_ringbufs _ s).
  assert (ringbufs s0 !! Z.to_nat ci = Some r1) as Hr1.
  { rw /s0 /= list_lookup_insert_eq //. by apply lookup_lt_Some in Hr. }
  apply wp_bind. eapply wp_mono; [apply (map_loop_wp newmap s0 root T l p0 ci r1 j n); try done|].
  { intros Hnew. specialize (Hl Hnew). lia. }
  { lia. }
  intros acc s1 [[mem1 ->] [Hvm1 Hlk1 Hst1 Hmap1 Hoff1]].
  assert (rb_bufs newmap l r1 32 = rb_pages newmap l r) as Eb.
  { rw /rb_bufs /rb_pages /rb_taken. destruct newmap; simpl; [|done].
    rw drop_ge; [by rw app_nil_r|]. rw /r1 /=. lia. }
  rw Eb in Hst1. apply wp_bind.
  eapply wp_mono; [apply (book_wp newmap s root T l ci (set_rb_bufPA (rb_pages newmap l r) r1) s1 n)|].
  { rw /rb_taken in Hvm1. destruct newmap; [done|by rw drop_0 in Hvm1]. }
  { done. }
  { rw {1}Hst1 /s0 /=. rw /set_ringbufs /set_mach /=. by rw list_insert_insert_eq. }
  { by apply lookup_lt_Some in Hr. }
  { done. }
  intros _ s2 (Hvm2 & Hlk2 & Hst2 & Hlf2 & Hoff2).
  apply wp_bind. rw /wp (getrb_run ci (set_rb_book (rb_book_page newmap l r)
    (set_rb_bufPA (rb_pages newmap l r) r1))) //; last first.
  { rw Hst2 /= list_lookup_insert_eq //. by apply lookup_lt_Some in Hr. }
  destruct (map_page (mach s2) root T (if newmap then drop 17 l else l) p0 j 32 (rb_book_page newmap l r) n)
    as (m3 & Hrun & Hvm3 & Hlk3 & _ & Hoff3 & Hlf3); [done|done|done|winlia| |done|lia|].
  { destruct (win_range j 32 Hj) as (Hw & Hwm & _); [winlia|].
    rw Hlf2 Hmap1 //; [|pose proof MAXVA_val; winlia]. rw decide_False; [|lia]. apply Hfree. winlia. }
  apply wp_bind, wp_lift. replace (2 * Z.of_nat RINGBUF_SIZE) with 32 by done. rw /wp Hrun /=.
  right. split; [done|]. exists j. split; [done|]. split; [done|done| | | |].
  - by rw /= Hlk3 Hlk2 Hlk1.
  - rw {1}Hst2. done.
  - intros b Hb Hbr. simpl. rw Hlf3 Hlf2 Hmap1 //. destruct (win_range j 32 Hj) as (Hw & Hwm & _); [winlia|].
    pose proof MAXVA_val. rw (decide_ext _ _ _ _ (same_page_aligned (win j + PGSIZE * 32) b Hwm ltac:(winlia) Hb Hbr)).
    repeat case_decide; try done; (winlia || congruence).
  - simpl. eapply kept_off_trans; [eapply kept_off_weaken, Hoff1|].
    { intros q. apply elem_take_mono. lia. }
    eapply kept_off_trans; [exact Hoff2|]. by eapply kept_off_weaken, Hoff3; [intros ? ?%not_elem_of_nil].
Qed.

(** ** Physical bytes behind a window *)

Definition RB_BYTES : Z := 65536.   (* RINGBUF_SIZE pages *)

Lemma new_pte_uaddr m T va p :
  va mod PGSIZE = 0 -> 0 <= va < MAXVA -> leaf m T va = new_pte p PTE_RB -> mappable p ->
  uaddr m T va = p.
Proof.
  intros Hm Hva Hlf [Hp1 Hp2]. rw /uaddr (proj2 (Z.leb_gt _ _)); [|lia]. rw Hlf /new_pte.
  rw pte_valid (pte_flag p PTE_RB 4) //=. by apply PTE2PA_pte.
Qed.

Lemma win_offset j off :
  0 <= j < 10 -> 0 <= off < PGSIZE * WPAGES ->
  (win j + off) mod PGSIZE = off mod PGSIZE /\
  win j + off - (win j + off) mod PGSIZE = win j + PGSIZE * (off / PGSIZE) /\
  0 <= off / PGSIZE < WPAGES.
Proof.
  intros Hj Ho. destruct (win_range j 0 Hj) as (_ & Hm & _); [winlia|].
  rw Z.mul_0_r Z.add_0_r in Hm.
  assert ((win j + off) mod PGSIZE = off mod PGSIZE) as E.
  { rw Z.add_mod // Hm Z.add_0_l Z.mod_mod //. }
  pose proof (Z.div_mod off PGSIZE ltac:(done)). split_and!; [done|lia|apply Z.div_pos; [lia|done]|].
  apply Z.div_lt_upper_bound; [done|lia].
Qed.

(** Offset [off] of a mapped window reaches page [off / PGSIZE] of the buffer,
    counted round the sixteen pages, or the book. *)
Definition ring_page (pages : list Z) (book off : Z) : Z :=
  if off <? 2 * RB_BYTES then pages !!! Z.to_nat (off / PGSIZE mod 16) else book.

Lemma ring_uphys m T lf j pages book off :
  ring_mapped lf (leaf m T) (win j) pages book -> 0 <= j < 10 ->
  length pages = 16%nat -> Forall mappable pages -> mappable book ->
  0 <= off < PGSIZE * WPAGES ->
  upage m T (win j + off) = ring_page pages book off /\
  uphys m T (win j + off) = ring_page pages book off + off mod PGSIZE.
Proof.
  intros Hmap Hj Hlen Hpg Hbk Ho.
  destruct (win_offset j off Hj Ho) as (E1 & E2 & Hq).
  destruct (win_range j (off / PGSIZE) Hj Hq) as (Hr & Hm & _).
  assert (0 <= win j + PGSIZE * (off / PGSIZE) < MAXVA) as Hva.
  { pose proof MAXVA_val. rw /MAP_START MAXVA_val in Hr. pglia. }
  enough (upage m T (win j + off) = ring_page pages book off) as Eu by (by rw /uphys Eu E1).
  rw /upage E2. apply new_pte_uaddr; [done|done| |].
  - rw Hmap // /ring_page. pose proof (Z.div_mod off PGSIZE ltac:(done)).
    pose proof (Z.mod_pos_bound off PGSIZE ltac:(done)).
    replace (win j + PGSIZE * (off / PGSIZE) - win j) with (off / PGSIZE * PGSIZE) by lia.
    rw Z.div_mul //. destruct (Z.ltb_spec off (2 * RB_BYTES)) as [Hlt|Hge].
    + rw decide_True //. rw /RB_BYTES in Hlt. pglia.
    + rw decide_False; [|rw /RB_BYTES in Hge; pglia]. rw decide_True //.
      rw /RB_BYTES in Hge. winlia.
  - rw /ring_page. case_match; [|done]. rw Forall_lookup in Hpg.
    apply (Hpg (Z.to_nat (off / PGSIZE mod 16))), list_lookup_lookup_total_lt.
    pose proof (Z.mod_pos_bound (off / PGSIZE) 16 ltac:(done)). lia.
Qed.

(** The second half of the window is the first half again. *)
Lemma ring_page_double pages book off :
  0 <= off < RB_BYTES -> ring_page pages book (off + RB_BYTES) = ring_page pages book off.
Proof.
  intros Ho. rw /ring_page /RB_BYTES in Ho |- *. rw !(proj2 (Z.ltb_lt _ _)); [|lia..].
  change 65536 with (16 * PGSIZE). rw Z.div_add //. do 2 f_equal.
  rw -{1}(Z.mul_1_l 16) Z.mod_add //.
Qed.

(** The pages of a mapping are sixteen mappable ones; fresh pages are distinct
    and come off the head of the free list. *)
Lemma rb_pages_ok (newmap : bool) (m : mstate) l r :
  free_pages m l -> length (rb_bufPA r) = 16%nat -> (newmap = true -> (17 <= length l)%nat) ->
  (newmap = false -> Forall mappable (rb_bufPA r) /\ mappable (rb_book r)) ->
  length (rb_pages newmap l r) = 16%nat /\ Forall mappable (rb_pages newmap l r) /\
  mappable (rb_book_page newmap l r) /\
  (newmap = true -> NoDup (rb_book_page newmap l r :: rb_pages newmap l r) /\
     rb_pages newmap l r ++ rb_book_page newmap l r :: drop 17 l = l).
Proof.
  intros [Hfl Hnd] Hlen Hl Hold. apply flist_page_ok in Hfl.
  rw /rb_pages /rb_book_page. destruct newmap; [|destruct Hold; done].
  specialize (Hl eq_refl). destruct (lookup_lt_is_Some_2 l 16) as [b Hb]; [lia|].
  assert (l = take 16 l ++ b :: drop 17 l) as El by by rw (take_drop_middle _ _ _ Hb).
  assert (l !!! 16%nat = b) as -> by by apply list_lookup_total_correct.
  rw Forall_forall in Hfl. split_and!.
  - rw length_take. lia.
  - apply Forall_forall. intros q Hq%elem_take_in. by apply page_ok_mappable, Hfl.
  - apply page_ok_mappable, Hfl. by eapply list_elem_of_lookup_2.
  - intros _. split; [|done]. rw El in Hnd. apply NoDup_app in Hnd as (H1 & H2 & H3).
    constructor; [|done]. intros Hin. eapply H2; [done|by left].
Qed.

Lemma ring_page_in pages book off :
  length pages = 16%nat -> ring_page pages book off ∈ book :: pages.
Proof.
  intros Hl. rw /ring_page. case_match; [|by left]. right.
  eapply list_elem_of_lookup_2, list_lookup_lookup_total_lt.
  pose proof (Z.mod_pos_bound (off / PGSIZE) 16 ltac:(done)). lia.
Qed.

(** ** Several page tables *)

(** Two page tables with no page in common. *)
Definition tables_apart (T T' : gmap (list Z) Z) : Prop :=
  forall x y p, T !! x = Some p -> T' !! y <> Some p.

(** Work on one table that takes pages off the free list keeps the other. *)
Lemma vm_inv_other (m m' : mstate) root T root' T' l l' :
  vm_inv m root T l -> vm_inv m' root T l' -> vm_inv m root' T' l -> tables_apart T' T ->
  (forall p, p ∈ l' -> p ∈ l) ->
  kept_off T (take 17 l) (mem m) (mem m') ->
  vm_inv m' root' T' l' /\ forall va, leaf (mem m') T' va = leaf (mem m) T' va.
Proof.
  intros [_ [Hfl _] Hpt1 _] [Hlk' Hf' _ _] [Hlk Hf Hpt Hsep] Hap Hsub Hoff.
  apply flist_page_ok in Hfl. rw Forall_forall in Hfl.
  destruct (pt_inv_ext (mem m) (mem m') root' T') as [Hpt' Hlf]; [|done|].
  { intros x p a Hx Ha. pose proof (pt_pages _ _ _ Hpt _ _ Hx) as [Hpm _].
    assert (forall q, q mod PGSIZE = 0 -> q <> p -> off_page q a) as Hdis.
    { intros q Hq Hne. destruct (pages_disjoint p q); [done|done|done|left; lia|right; lia]. }
    apply Hoff.
    - intros y q Hy. apply Hdis; [by apply (pt_pages _ _ _ Hpt1 y)|]. intros ->. by eapply Hap.
    - intros q Hq%elem_take_in. apply Hdis; [by apply Hfl|]. intros ->. by eapply Hsep. }
  split; [|done]. split; [done|done|done|]. intros x p Hx Hin. eapply Hsep; [done|]. by apply Hsub.
Qed.

End mapper.
