(* ===== verification/RingbufSpec.v ===== *)
(** * Main properties of the ring buffers

    The theorems about [kernel/ringbuf.c], with instances on a concrete kernel
    state: two processes with the page tables of [VmCheck]. *)

From S2P Require Import Prelude Mem KString Spinlock Machine Kalloc Printf Vm VmInv VmCopy KState Proc VmCheck ProcInv Ringbuf RingbufInv.

(** ** Main properties *)

Section claims.
Context {lay : Layout}.
Implicit Types (T : gmap (list Z) Z) (s : kstate).

(** C8: the ring-buffer window.  In a process whose page table maps the
    trapframe, with seventeen free pages for a new buffer (or an existing
    buffer), [processSpace_mapper] either finds all ten windows in use and
    changes nothing, or succeeds: it records the window in the table entry,
    the 128 KiB from its start reach the sixteen pages of the buffer twice in
    a row, the next page is the book, and no other mapping changes. *)
Theorem ring_window_mapped (newmap : bool) s root T l p0 ip p ci r n :
  cur s = Some ip -> procs s !! ip = Some p -> p_pagetable p = root -> lk_ok (klk s) ->
  vm_inv (mach s) root T l -> T !! [255; 511] = Some p0 ->
  windows_ok (leaf (mem (mach s)) T) ->
  0 <= ci -> ringbufs s !! Z.to_nat ci = Some r -> length (rb_bufPA r) = 16%nat ->
  (newmap = true -> (17 <= length l)%nat) ->
  (newmap = false -> Forall mappable (rb_bufPA r) /\ mappable (rb_book r)) -> (10 < n)%nat ->
  wp (processSpace_mapper ci newmap) n s (fun ret s' =>
    ret = -1 /\ s' = s /\ (forall j, 0 <= j < 10 -> win_used (leaf (mem (mach s)) T) j) \/
    ret = 0 /\ exists j r', 0 <= j < 10 /\ win_free (leaf (mem (mach s)) T) j /\
      ringbufs s' !! Z.to_nat ci = Some r' /\ rb_vabuf r' = win j /\
      rb_refcount r' = rb_refcount r /\ rb_name r' = rb_name r /\ rb_pidsRW r' = rb_pidsRW r /\
      (newmap = false -> rb_bufPA r' = rb_bufPA r /\ rb_book r' = rb_book r) /\
      (newmap = true -> NoDup (rb_book r' :: rb_bufPA r') /\
         free_pages (mach s') (drop 17 l) /\ rb_bufPA r' ++ [rb_book r'] ++ drop 17 l = l) /\
      (forall off, 0 <= off < RB_BYTES ->
         uphys (mem (mach s')) T (win j + off) =
           rb_bufPA r' !!! Z.to_nat (off / PGSIZE) + off mod PGSIZE /\
         uphys (mem (mach s')) T (win j + RB_BYTES + off) = uphys (mem (mach s')) T (win j + off)) /\
      (forall off, 0 <= off < PGSIZE ->
         uphys (mem (mach s')) T (win j + 2 * RB_BYTES + off) = rb_book r' + off) /\
      (forall b, b mod PGSIZE = 0 -> 0 <= b < MAXVA ->
         ~ win j <= b < win j + PGSIZE * WPAGES ->
         leaf (mem (mach s')) T b = leaf (mem (mach s)) T b)).
Proof.
  intros Hc Hp Hpt Hok Hvm HT Hwin Hci Hr Hlen Hl Hold Hn.
  eapply wp_mono; [by apply (processSpace_mapper_wp newmap s root T l p0 ip p ci r n)|].
  intros ret s' [Hm|(-> & j & Hj & [Hfree Hvm' Hlk Hst Hmap Hoff])]; [by left|right].
  destruct (rb_pages_ok newmap (mach s) l r) as (Hl16 & Hpg & Hbk & Hnew); [apply Hvm|done..|].
  assert (forall off, 0 <= off < PGSIZE * WPAGES -> uphys (mem (mach s')) T (win j + off) =
    ring_page (rb_pages newmap l r) (rb_book_page newmap l r) off + off mod PGSIZE) as Hphys.
  { intros off Ho. by eapply ring_uphys. }
  split; [done|]. eexists j, _. split; [done|]. split; [done|].
  split. { rw Hst /= list_lookup_insert_eq //. by apply lookup_lt_Some in Hr. }
  cbn [rb_vabuf rb_refcount rb_name rb_pidsRW rb_bufPA rb_book]. split_and!; [done..| | | | |].
  - by intros ->.
  - intros Hn1. destruct (Hnew Hn1) as [Hnd El]. split_and!; [done| |done].
    rw Hn1 in Hvm'. apply Hvm'.
  - intros off Ho. assert (2 * RB_BYTES <= PGSIZE * WPAGES) by (rw /RB_BYTES; winlia).
    rw -Z.add_assoc (Z.add_comm RB_BYTES) !Hphys; [|rw /RB_BYTES in Ho H |- *; lia..].
    rw ring_page_double //. rw /ring_page (proj2 (Z.ltb_lt _ _)); [|rw /RB_BYTES in Ho |- *; lia].
    rw Z.mod_small; last first.
    { split; [apply Z.div_pos; [lia|done]|]. apply Z.div_lt_upper_bound; [done|]. rw /RB_BYTES in Ho. pglia. }
    split; [done|]. f_equal. rw /RB_BYTES. change 65536 with (16 * PGSIZE). by rw Z.mod_add.
  - intros off Ho. rw -Z.add_assoc Hphys; [|rw /RB_BYTES; winlia].
    rw /ring_page (proj2 (Z.ltb_ge _ _)); [|rw /RB_BYTES; lia]. f_equal.
    rw Z.add_comm. change (2 * RB_BYTES) with (32 * PGSIZE). rw Z.mod_add // Z.mod_small //.
  - intros b Hb Hbr Hout. rw Hmap // decide_False; [|winlia]. rw decide_False //. winlia.
Qed.

(** C4: the buffer is shared.  When process [ipA] creates a buffer and process
    [ipB] then maps it, byte for byte the two windows are the same physical
    memory: what one writes at an offset of its window the other reads at the
    same offset of its own. *)
Theorem ring_buffer_shared s rootA TA rootB TB l pA pB ipA prA ipB prB ci r n :
  cur s = Some ipA -> procs s !! ipA = Some prA -> p_pagetable prA = rootA ->
  procs s !! ipB = Some prB -> p_pagetable prB = rootB -> lk_ok (klk s) ->
  vm_inv (mach s) rootA TA l -> vm_inv (mach s) rootB TB l -> tables_apart TB TA -> tables_apart TA TB ->
  TA !! [255; 511] = Some pA -> TB !! [255; 511] = Some pB ->
  windows_ok (leaf (mem (mach s)) TA) -> windows_ok (leaf (mem (mach s)) TB) ->
  0 <= ci -> ringbufs s !! Z.to_nat ci = Some r -> length (rb_bufPA r) = 16%nat ->
  (17 <= length l)%nat -> (10 < n)%nat ->
  (exists jA, 0 <= jA < 10 /\ win_free (leaf (mem (mach s)) TA) jA) ->
  (exists jB, 0 <= jB < 10 /\ win_free (leaf (mem (mach s)) TB) jB) ->
  wp (vA ← (_ ← processSpace_mapper ci true; getrb ci rb_vabuf);
      modify (set_cur (Some ipB));;
      vB ← (_ ← processSpace_mapper ci false; getrb ci rb_vabuf);
      mret (vA, vB)) n s (fun '(vA, vB) s' =>
    forall off, 0 <= off < PGSIZE * WPAGES ->
      upage (mem (mach s')) TA (vA + off) <> 0 /\
      uphys (mem (mach s')) TA (vA + off) = uphys (mem (mach s')) TB (vB + off)).
Proof.
  intros Hc HpA HptA HpB HptB Hok HvmA HvmB HapBA HapAB HTA HTB HwA HwB Hci Hr Hlen Hl Hn
    (jA & HjA & HfA) (jB & HjB & HfB).
  assert (0 <= 0 < WPAGES) as H0 by winlia.
  destruct (rb_pages_ok true (mach s) l r) as (Hl16 & Hpg & Hbk & Hnew); [apply HvmA|done..|].
  destruct (Hnew eq_refl) as [_ El].
  assert (Forall page_ok l) as Hlok by (eapply flist_page_ok, (vi_free _ _ _ _ HvmA)).
  apply wp_bind, wp_bind. eapply wp_mono;
    [by apply (processSpace_mapper_wp true s rootA TA l pA ipA prA ci r n)|].
  intros ret s1 [(_ & _ & Hu)|(-> & j1 & Hj1 & Hok1)].
  { destruct (Hu jA HjA 0 H0) as [Ho _]. by rw HfA in Ho. }
  destruct Hok1 as [_ Hvm1 Hlk1 Hst1 Hmap1 Hoff1]. set (pages := rb_pages true l r) in *.
  set (book := rb_book_page true l r) in *.
  set (r1 := Ringbuf (rb_refcount r) (rb_name r) (rb_pidsRW r) pages (win j1) book) in *.
  assert (ringbufs s1 !! Z.to_nat ci = Some r1) as Hr1.
  { rw Hst1 /= list_lookup_insert_eq //. by apply lookup_lt_Some in Hr. }
  rw /wp (getrb_run _ _ _ _ _ Hci Hr1). apply wp_bind, wp_modify.
  destruct (vm_inv_other (mach s) (mach s1) rootA TA rootB TB l (drop 17 l)) as [HvmB1 HlfB];
    [done..|intros q; apply elem_drop_in|done|].
  assert (win_free (leaf (mem (mach s1)) TB) jB) as HfB1 by (intros i Hi; rw HlfB; by apply HfB).
  apply wp_bind, wp_bind. eapply wp_mono;
    [apply (processSpace_mapper_wp false (set_cur (Some ipB) s1) rootB TB (drop 17 l) pB ipB prB ci r1 n)|].
  all: try done.
  { by rw /= Hst1. }
  { by rw /klk /= Hlk1. }
  { intros j Hj. destruct (HwB j Hj) as [Hw|Hw]; [left|right]; intros i Hi; simpl; rw HlfB; by apply Hw. }
  intros ret s2 [(_ & _ & Hu)|(-> & j2 & Hj2 & Hok2)].
  { destruct (Hu jB HjB 0 H0) as [Ho _]. by rw /= HfB1 in Ho. }
  destruct Hok2 as [_ Hvm2 Hlk2 Hst2 Hmap2 Hoff2]. rw {1 2}/rb_pages {1 2}/rb_book_page in Hmap2 Hst2.
  destruct (vm_inv_other (mach s1) (mach s2) rootB TB rootA TA (drop 17 l) (drop 17 l)) as [_ HlfA2]; [done..|].
  rw /wp (getrb_run ci (Ringbuf (rb_refcount r1) (rb_name r1) (rb_pidsRW r1) pages (win j2) book));
    [|done|rw Hst2 /= list_lookup_insert_eq //; by apply lookup_lt_Some in Hr1].
  apply wp_ret. simpl. intros off Hoff.
  destruct (ring_uphys (mem (mach s2)) TA (leaf (mem (mach s)) TA) j1 pages book off) as [EpA EuA]; [|done..|].
  { intros b Hb Hbr. rw HlfA2. by apply Hmap1. }
  destruct (ring_uphys (mem (mach s2)) TB _ j2 pages book off Hmap2) as [EpB EuB]; [done..|].
  split; [|by rw EuA EuB]. rw EpA. pose proof (ring_page_in pages book off Hl16) as Hin.
  rw Forall_forall in Hlok. destruct (page_ok_u64 (ring_page pages book off)); [|lia].
  apply Hlok. rw -El elem_of_app elem_of_cons. apply elem_of_cons in Hin. tauto.
Qed.

End claims.

(** ** The theorems on a concrete state *)

#[local] Existing Instance small_layout.
Abbreviation TA := (list_to_map (demo_tables 0) : gmap (list Z) Z).
Abbreviation TB := (list_to_map (demo_tables 10) : gmap (list Z) Z).

Definition windows_free (m : memory) (T : gmap (list Z) Z) : bool :=
  forallb (fun j => forallb (fun i => negb (Z.odd (leaf m T (win j + PGSIZE * i)))) (rangeZ 33)) (rangeZ 10).
Lemma windows_free_ok m T j : windows_free m T = true -> 0 <= j < 10 -> win_free (leaf m T) j.
Proof.
  rw /windows_free forallb_forall. intros H Hj i Hi.
  specialize (H j). rw forallb_forall in H. apply negb_true_iff, H.
  - apply list_elem_of_In, elem_of_rangeZ. lia.
  - apply list_elem_of_In, elem_of_rangeZ. winlia.
Qed.
Lemma demo_windows b j : b = 0 \/ b = 10 -> 0 <= j < 10 ->
  win_free (leaf (mem demo) (list_to_map (demo_tables b) : gmap (list Z) Z)) j.
Proof. intros [-> | ->] Hj; apply windows_free_ok; try done; by vm_compute. Qed.
Lemma demo_tables_apart : tables_apart TA TB /\ tables_apart TB TA.
Proof.
  split; intros x y p Hx%elem_of_Tl Hy%elem_of_Tl; simpl in Hx, Hy;
    repeat destruct Hx as [[= <- <-]|Hx]; try done;
    repeat destruct Hy as [[= Hy]|Hy]; done.
Qed.

Lemma ring_window_mapped_witness :
  wp (processSpace_mapper 3 true) 20 kdemo (fun ret _ => ret = -1 \/ ret = 0).
Proof.
  eapply wp_mono; [apply (ring_window_mapped true kdemo (pg 0) TA demo_free (pg 2) 0
    (demo_proc 1 (pg 0) (pg 5) RUNNING) 3 zero_ringbuf 20)|].
  - reflexivity.
  - reflexivity.
  - reflexivity.
  - apply lk_ok_zero.
  - apply demo_inv. by left.
  - by vm_compute.
  - intros j Hj. left. apply demo_windows; [by left|done].
  - done.
  - reflexivity.
  - reflexivity.
  - intros _. vm_compute. lia.
  - done.
  - lia.
  - intros ret s' [[-> _]|[-> _]]; [by left|by right].
Defined.

Lemma ring_buffer_shared_witness :
  wp (vA ← (_ ← processSpace_mapper 3 true; getrb 3 rb_vabuf);
      modify (set_cur (Some 1%nat));;
      vB ← (_ ← processSpace_mapper 3 false; getrb 3 rb_vabuf);
      mret (vA, vB)) 20 kdemo (fun '(vA, vB) s' =>
    forall off, 0 <= off < PGSIZE * WPAGES ->
      upage (mem (mach s')) TA (vA + off) <> 0 /\
      uphys (mem (mach s')) TA (vA + off) = uphys (mem (mach s')) TB (vB + off)).
Proof.
  apply (ring_buffer_shared kdemo (pg 0) TA (pg 10) TB demo_free (pg 2) (pg 12)
    0 (demo_proc 1 (pg 0) (pg 5) RUNNING) 1 (demo_proc 2 (pg 10) (pg 15) RUNNABLE) 3 zero_ringbuf 20);
    try reflexivity.
  - apply lk_ok_zero.
  - apply demo_inv. by left.
  - apply demo_inv. by right.
  - apply demo_tables_apart.
  - apply demo_tables_apart.
  - intros j Hj. left. apply (demo_windows 0); [by left|done].
  - intros j Hj. left. apply (demo_windows 10); [by right|done].
  - done.
  - vm_compute. lia.
  - lia.
  - exists 0. split; [done|]. apply (demo_windows 0); [by left|done].
  - exists 0. split; [done|]. apply (demo_windows 10); [by right|done].
Defined.
