(* ===== verification/RingbufCreate.v ===== *)
(** * [createbuf]

    Opening a named buffer: the search of the table, the creation of a new
    buffer and the attachment to an existing one, each as a whole system call. *)

From S2P Require Import Prelude Mem KString Spinlock Machine Kalloc Printf Vm VmInv VmCopy KState Proc VmCheck ProcInv Ringbuf RingbufInv RingbufSpec Pipe PipeSpec.

(** ** The searches *)

(** The first entry of a table that satisfies [P]. *)
Definition first {A} (P : A -> Prop) `{!forall x, Decision (P x)} (l : list A) : option nat := fst <$> list_find P l.

Lemma first_Some {A} (P : A -> Prop) `{!forall x, Decision (P x)} (l : list A) i :
  first P l = Some i -> exists x, l !! i = Some x /\ P x.
Proof.
  rw /first. intros ([j x] & E & ->)%fmap_Some. apply list_find_Some in E as (Hx & HP & _). eauto.
Qed.

Lemma for_exit_first {S A} (P : A -> Prop) `{!forall x, Decision (P x)} (l : list A) (f : Z -> K S (option Z)) n s :
  (forall i x, l !! i = Some x -> f (Z.of_nat i) n s = Ok (if decide (P x) then Some (Z.of_nat i) else None) s) ->
  for_exit (rangeZ (length l)) f n s = Ok (Z.of_nat <$> first P l) s.
Proof.
  intros Hf. rw /rangeZ.
  enough (forall r k, drop k l = r -> for_exit (Z.of_nat <$> seq k (length r)) f n s =
    Ok ((fun i => Z.of_nat (k + i)) <$> first P r) s) as Hgen by exact (Hgen l 0%nat (drop_0 _)).
  induction r as [|x r IH]; intros k Hk; simpl; [done|].
  assert (l !! k = Some x) as Hx by by rw -(Nat.add_0_r k) -lookup_drop Hk.
  rw /mbind /K_bind (Hf k x Hx) /first /=. destruct (decide (P x)); simpl; [by rw Nat.add_0_r|].
  rw (IH (Datatypes.S k)).
  - rw /first. destruct (list_find P r) as [[i q]|]; simpl; [|done]. by rw Nat.add_succ_r.
  - rw (drop_S _ _ _ Hx) in Hk. by simplify_eq.
Qed.

Definition named (nm : list Z) (r : ringbuf) : Prop := cstr (rb_name r) = Some nm.
#[export] Instance named_dec nm r : Decision (named nm r).
Proof. rw /named. apply _. Defined.
Definition unused (r : ringbuf) : Prop := rb_refcount r = 0.
#[export] Instance unused_dec r : Decision (unused r).
Proof. rw /unused. apply _. Defined.

Section search.
Context {lay : Layout}.

(** One step of the search for a name. *)
Definition name_test (straddr : list Z) (i : Z) : K kstate (option Z) :=
  name ← getrb i rb_name; c ← str (strcmp straddr name); mret (if c =? 0 then Some i else None).
Lemma name_test_run straddr nm (i : nat) r s n : cstr straddr = Some nm ->
  ringbufs s !! i = Some r -> is_Some (cstr (rb_name r)) ->
  name_test straddr (Z.of_nat i) n s = Ok (if decide (named nm r) then Some (Z.of_nat i) else None) s.
Proof.
  intros Hs Hr [b Hb]. rw /name_test /mbind /K_bind (getrb_run _ r); [|lia|by rw Nat2Z.id]. simpl.
  destruct (strcmp_cstr _ _ _ _ Hs Hb) as (c & -> & Hc). simpl.
  rw /mret /K_ret. do 2 f_equal. rw /named. destruct (Z.eqb_spec c 0) as [E|E].
  - rw decide_True //. rw Hb. f_equal. symmetry. by apply Hc.
  - rw decide_False //. intros E'. apply E, Hc. congruence.
Qed.

Lemma find_name_run straddr nm s n : cstr straddr = Some nm -> length (ringbufs s) = 10%nat ->
  Forall (fun r => is_Some (cstr (rb_name r))) (ringbufs s) ->
  find_name MAX_RINGBUFS straddr n s = Ok (Z.of_nat <$> first (named nm) (ringbufs s)) s.
Proof.
  intros Hs Hlen Hn. rw /find_name /MAX_RINGBUFS -Hlen. apply for_exit_first. intros i r Hr.
  apply (name_test_run straddr nm i r s n Hs Hr (Forall_lookup_1 _ _ _ _ Hn Hr)).
Qed.
Lemma find_free_run s n : length (ringbufs s) = 10%nat ->
  find_free n s = Ok (Z.of_nat <$> first unused (ringbufs s)) s.
Proof.
  intros Hlen. rw /find_free /MAX_RINGBUFS -Hlen. apply for_exit_first. intros i r Hr.
  rw /mbind /K_bind (getrb_run _ r); [|lia|by rw Nat2Z.id]. simpl. rw /mret /K_ret /unused. do 2 f_equal.
  destruct (Z.eqb_spec (rb_refcount r) 0); [by rw decide_True|by rw decide_False].
Qed.

(** Taking another lock leaves the memory invariant alone. *)
Lemma vm_inv_acq s root T l k : vm_inv (mach s) root T l -> can_lock k s -> k <> L_kmem ->
  vm_inv (mach (set_klk (lk_acq k (klk s)) s)) root T l.
Proof.
  intros [[Hok Hk] Hf Hp Hs] [_ Hc] Hne. split; [|done|done|done]. split.
  - by apply lk_acq_ok.
  - by rw /= locked_acq_ne.
Qed.

End search.

(** ** Handing the address to the caller *)

Section create.
Context {lay : Layout}.
Implicit Types (T : gmap (list Z) Z) (s : kstate).

Abbreviation VB := (kobj O_vabuf).

Lemma kobj_off_range o q a : page_ok q -> kobj o <= a < kobj o + PGSIZE -> off_page q a.
Proof.
  intros Hp Ha. pose proof (page_ok_range q Hp). destruct (kobj_out o) as [_ [H'|H']], Hp as [_ Hp];
    rw /off_page; [left|right]; pglia.
Qed.
(** A user buffer as a target of [copyout] from a kernel object. *)
Lemma user_buf_object m T u n o : user_buf m T u n -> n <= PGSIZE -> user_range m T u (kobj o) n.
Proof.
  intros Hb Hn. split.
  - intros va x p Hva. by apply (ub_table _ _ _ _ Hb).
  - intros va a Hva _ Ha. apply (kobj_off_range o); [by apply (ub_page _ _ _ _ Hb)|lia].
  - intros va vb Hva Hvb _. by apply (ub_inj _ _ _ _ Hb).
Qed.
Lemma byte_le w z i b : le_bytes w z !! i = Some b -> u8 b = b.
Proof.
  revert z i. induction w as [|w IH]; intros z [|i]; simpl; try done; [|apply IH].
  intros [= <-]. by rw /u8 Z.mod_mod.
Qed.

(** [hand_out] is entered with the lock that [s] could take. *)
Lemma hand_out_wp s s2 ip p root T retv ci r (ex : Z) n :
  klk s2 = lk_acq L_ringbuf (klk s) -> can_lock L_ringbuf s -> locked (L_proc ip) (klk s) = false ->
  procs s2 !! ip = Some p -> p_pagetable p = root -> pt_inv (mem (mach s2)) root T ->
  user_buf (mem (mach s2)) T retv 8 -> retv mod 8 = 0 ->
  0 <= ci -> ringbufs s2 !! Z.to_nat ci = Some r -> (8 < n)%nat ->
  wp (hand_out ip retv ci ex) n s2 (fun ret s' => ret = ex /\ ringbufs s' = ringbufs s2 /\
    procs s' = alter (set_p_validRingBuf 1) ip (procs s2) /\ klk s' = klk s /\ cur s' = cur s2 /\
    pt_inv (mem (mach s')) root T /\
    (forall va, upage (mem (mach s')) T va = upage (mem (mach s2)) T va) /\
    freelist (mach s') = freelist (mach s2) /\
    (forall q a, page_ok q -> (forall va, retv <= va < retv + 8 -> upage (mem (mach s2)) T va <> q) ->
       q <= a < q + PGSIZE -> ld8 (mem (mach s')) a = ld8 (mem (mach s2)) a) /\
    forall i b, le_bytes 8 (rb_vabuf r) !! i = Some b ->
      ld8 (mem (mach s')) (uphys (mem (mach s2)) T (retv + Z.of_nat i)) = b).
Proof.
  intros Hk Hcl Hpl Hp Hroot Hpt Hub H8 Hci Hr Hn. rw /hand_out.
  apply wp_bind. rw /wp (getrb_run _ r) //. apply wp_bind. rw /wp (getp_run _ _ p) // Hroot.
  set (bs := le_bytes 8 (rb_vabuf r)). assert (length bs = 8%nat) as Hlb by done.
  apply wp_bind, wp_lift, wp_modify. set (m1 := poke (mem (mach s2)) VB bs).
  assert (forall q a, page_ok q -> q <= a < q + PGSIZE -> ld8 m1 a = ld8 (mem (mach s2)) a) as Hpoke.
  { intros q a Hq Ha. apply ld8_poke_out. intros Hin.
    pose proof (kobj_off_range O_vabuf q a Hq) as Hf. rw /off_page in Hf. rw Hlb in Hin. pglia. }
  destruct (pt_inv_ext (mem (mach s2)) m1 root T) as [Hpt1 Hlf1]; [|done|].
  { intros x q a Hx Ha. apply (Hpoke q); [|done]. apply (pt_pages _ _ _ Hpt _ _ Hx). }
  assert (forall va, upage m1 T va = upage (mem (mach s2)) T va) as Hup1 by (intros va; by rw /upage /uaddr Hlf1).
  assert (forall va, uphys m1 T va = uphys (mem (mach s2)) T va) as Hph1 by (intros va; by rw /uphys Hup1).
  pose proof (ub_lo _ _ _ _ Hub). pose proof (ub_hi _ _ _ _ Hub).
  pose proof (user_buf_object _ _ _ _ O_vabuf Hub ltac:(done)) as Hur.
  assert (user_range m1 T retv VB 8) as Hur1 by by (eapply user_range_ext; [apply Hup1|exact Hur|apply (ur_kern _ _ _ _ _ Hur)]).
  apply wp_bind, wp_lift. rw sget_sput. eapply wp_mono; [apply (copyout_wp _ root T retv VB 8 n); (done || lia)|].
  intros e ms [Hms [(-> & _ & Hcp)|(_ & c' & Hc' & E & _)]]; last first.
  { exfalso. simpl in E. rw Hup1 in E. eapply (user_buf_nonzero _ T retv 8); [exact Hub| |exact E]. lia. }
  rw lost_none in Hcp; [|left; rw -Z.add_mod_idemp_l // H8 //]. cbn [mem set_mem] in Hcp.
  destruct (copied_out_pt _ root _ _ _ _ _ _ Hpt1 Hur1 (Z.le_refl 8) Hcp) as [Hpt2 Hup2].
  set (s3 := sput ms _). assert (klk s3 = lk_acq L_ringbuf (klk s)) as Hk3 by by rw /s3 /klk /= Hms /= -Hk.
  assert (can_lock (L_proc ip) s3) as Hcl3.
  { split; rw Hk3; [by apply lk_acq_ok; [apply Hcl|apply Hcl]|by rw locked_acq_ne]. }
  apply wp_bind. rw /wp (acquire_k _ _ _ Hcl3). apply wp_bind, wp_modify.
  apply wp_bind. rw /wp (release_acquired s3) //. apply wp_bind. rw /wp (release_acquired s) //.
  split_and!; try done.
  - intros va. by rw /= Hup2 Hup1.
  - by rw /= Hms.
  - intros q a Hq Hne Ha. simpl. destruct Hcp as [_ Hout]. rw Hout; [by eapply Hpoke|].
    intros va Hva E. apply (Hne va); [lia|]. rw -Hup1. apply uphys_page; [apply Hq|by rw E].
  - intros i b Hb. simpl. rw -Hph1. destruct Hcp as [Hin _].
    assert (i < 8)%nat by (apply lookup_lt_Some in Hb; by rw Hlb in Hb).
    rw Hin; [|lia]. rw (Z.add_comm retv) Z.add_simpl_r. by rw (ld8_poke_in _ _ bs i b) // (byte_le _ _ _ _ Hb).
Qed.

(** ** Mapping under the lock *)

(** Changes outside the tables and the free pages keep the memory invariant. *)
Lemma vm_inv_kept (m m' : mstate) root T l :
  vm_inv m root T l -> free_lock L_kmem m' -> freelist m' = freelist m ->
  (forall q a, page_ok q -> (q ∈ l \/ exists x, T !! x = Some q) -> q <= a < q + PGSIZE -> ld8 (mem m') a = ld8 (mem m) a) ->
  vm_inv m' root T l /\ forall va, leaf (mem m') T va = leaf (mem m) T va.
Proof.
  intros [_ [Hfl Hnd] Hpt Hsep] Hlk Hfr Hkept.
  destruct (pt_inv_ext (mem m) (mem m') root T) as [Hpt' Hlf]; [|done|].
  { intros x q a Hx Ha. apply (Hkept q); [apply (pt_pages _ _ _ Hpt _ _ Hx)|eauto|done]. }
  split; [|done]. split; [done| |done|done]. split; [|done]. rw Hfr.
  eapply flist_ext; [|exact Hfl]. intros q Hq. apply flist_page_ok in Hfl. rw Forall_forall in Hfl.
  apply ldn_ext. intros i Hi. apply (Hkept q); [by apply Hfl|by left|pglia].
Qed.

(** The window at [win j] of the page table [T] shows the buffer of [r]. *)
Definition window_of (m : memory) T (j : Z) (r : ringbuf) : Prop :=
  rb_vabuf r = win j /\ forall off, 0 <= off < PGSIZE * WPAGES ->
    uphys m T (win j + off) = ring_page (rb_bufPA r) (rb_book r) off + off mod PGSIZE.

(** A page outside the window keeps its mapping; so does every mapped page. *)
Lemma ring_mapped_upage m m' T j pages book va :
  ring_mapped (leaf m T) (leaf m' T) (win j) pages book -> win_free (leaf m T) j -> 0 <= j < 10 ->
  0 <= va -> upage m T va <> 0 -> upage m' T va = upage m T va.
Proof.
  intros Hmap Hfree Hj Hva Hnz. rw /upage /uaddr in Hnz |- *.
  set (b := va - va mod PGSIZE) in *. destruct (Z.leb_spec MAXVA b) as [|Hb]; [done|].
  assert (b mod PGSIZE = 0 /\ 0 <= b) as [Hb0 Hb1].
  { pose proof (Z.div_mod va PGSIZE ltac:(done)) as E. replace b with (va / PGSIZE * PGSIZE) by lia.
    rw Z.mod_mul //. split; [done|]. pose proof (Z.div_pos va PGSIZE Hva ltac:(done)). pglia. }
  destruct (decide (win j <= b < win j + PGSIZE * WPAGES)) as [Hin|Hout].
  - exfalso. destruct (win_range j 0 Hj) as (_ & Hwm & _); [winlia|]. rw Z.mul_0_r Z.add_0_r in Hwm.
    assert (Z.odd (leaf m T b) = false) as Ho; [|by rw Ho in Hnz].
    destruct (win_offset j (b - win j) Hj) as (_ & E & Hi); [lia|].
    replace (win j + (b - win j)) with b in E by lia. rw Hb0 Z.sub_0_r in E. rw E. by apply Hfree.
  - by rw Hmap // !decide_False; [|winlia..].
Qed.
Lemma user_buf_mapped m m' T j pages book u n :
  ring_mapped (leaf m T) (leaf m' T) (win j) pages book -> win_free (leaf m T) j -> 0 <= j < 10 ->
  user_buf m T u n -> user_buf m' T u n /\ forall va, u <= va < u + n -> upage m' T va = upage m T va.
Proof.
  intros Hmap Hfree Hj Hb. pose proof (ub_lo _ _ _ _ Hb).
  assert (forall va, u <= va < u + n -> upage m' T va = upage m T va) as He.
  { intros va Hva. eapply ring_mapped_upage; [done..|lia|by eapply user_buf_nonzero]. }
  split; [|done]. destruct Hb as [H1 H2 H3 H4 H5]. split; try done.
  - intros va Hva. rw He //. by apply H1.
  - intros va x p Hva. rw He //. by apply H2.
  - intros va vb Ha Hv. rw !He //. by apply H3.
Qed.

(** The state left by a call that opened entry [ci], now [r'], in window [j];
    [l'] are the pages still free. *)
Record opened root T (l' : list Z) (ip : nat) (retv : Z) (ci : nat) r' (j : Z) s s' : Prop := {
  op_lock : klk s' = klk s;
  op_table : ringbufs s' = <[ci := r']> (ringbufs s);
  op_procs : procs s' = alter (set_p_validRingBuf 1) ip (procs s);
  op_cur : cur s' = cur s;
  op_vm : vm_inv (mach s') root T l';
  op_win : 0 <= j < 10;
  op_free : win_free (leaf (mem (mach s)) T) j;
  op_map : window_of (mem (mach s')) T j r';
  op_leaf : ring_mapped (leaf (mem (mach s)) T) (leaf (mem (mach s')) T) (win j) (rb_bufPA r') (rb_book r');
  op_addr : forall i b, le_bytes 8 (win j) !! i = Some b ->
    ld8 (mem (mach s')) (uphys (mem (mach s')) T (retv + Z.of_nat i)) = b;
}.

(** What a caller of [createbuf] needs: a running process with its page table
    and a result buffer, both locks free. *)
Record caller root T (l : list Z) p0 (ip : nat) p (retv : Z) s : Prop := {
  ca_cur : cur s = Some ip;
  ca_proc : procs s !! ip = Some p;
  ca_root : p_pagetable p = root;
  ca_lock : can_lock L_ringbuf s;
  ca_plock : locked (L_proc ip) (klk s) = false;
  ca_vm : vm_inv (mach s) root T l;
  ca_top : T !! [255; 511] = Some p0;
  ca_wins : windows_ok (leaf (mem (mach s)) T);
  ca_room : exists j, 0 <= j < 10 /\ win_free (leaf (mem (mach s)) T) j;
  ca_buf : user_buf (mem (mach s)) T retv 8;
  ca_align : retv mod 8 = 0;
  ca_sep : forall va, retv <= va < retv + 8 -> upage (mem (mach s)) T va ∉ l;
}.

Lemma open_wp (newmap : bool) s root T l p0 ip p retv (ci : nat) r ex n :
  caller root T l p0 ip p retv s ->
  (ci < length (ringbufs s))%nat -> length (rb_bufPA r) = 16%nat ->
  (newmap = true -> (17 <= length l)%nat) ->
  (newmap = false -> Forall mappable (rb_bufPA r) /\ mappable (rb_book r)) -> (10 < n)%nat ->
  wp (processSpace_mapper (Z.of_nat ci) newmap) n
    (set_ringbufs (<[ci := r]> (ringbufs s)) (set_klk (lk_acq L_ringbuf (klk s)) s)) (fun e s2 =>
    e = 0 /\ wp (hand_out ip retv (Z.of_nat ci) ex) n s2 (fun ret s' => ret = ex /\ exists j,
      opened root T (if newmap then drop 17 l else l) ip retv ci
        (Ringbuf (rb_refcount r) (rb_name r) (rb_pidsRW r) (rb_pages newmap l r) (win j) (rb_book_page newmap l r)) j s s')).
Proof.
  intros Hca Hci Hlen Hl Hold Hn. pose proof Hca as [Hc Hp Hpt Hcl Hpl Hvm HT Hw (j0 & Hj0 & Hf0) Hub H8 Hsep].
  set (s1 := set_ringbufs _ _).
  assert (vm_inv (mach s1) root T l) as Hvm1 by by apply vm_inv_acq.
  assert (ringbufs s1 !! Z.to_nat (Z.of_nat ci) = Some r) as Hr1 by by rw Nat2Z.id /s1 /= list_lookup_insert_eq.
  destruct (rb_pages_ok newmap (mach s1) l r) as (Hl16 & Hpg & Hbk & _); [apply Hvm1|done..|].
  eapply wp_mono; [apply (processSpace_mapper_wp newmap s1 root T l p0 ip p (Z.of_nat ci) r n); try done|].
  { destruct Hcl. by apply lk_acq_ok. }
  { lia. }
  intros e s2 [(_ & _ & Hu)|(-> & j & Hj & [Hfree Hvm2 Hlk2 Hst2 Hmap Hoff])].
  { destruct (Hu j0 Hj0 0) as [Ho _]; [winlia|]. rw /= Hf0 // in Ho. }
  split; [done|]. set (r' := Ringbuf _ _ _ _ _ _) in *. rw Nat2Z.id in Hst2.
  destruct (user_buf_mapped (mem (mach s)) (mem (mach s2)) T j _ _ retv 8 Hmap Hfree Hj Hub) as [Hub2 Hup2].
  assert (ringbufs s2 !! Z.to_nat (Z.of_nat ci) = Some r') as Hr2.
  { rw Nat2Z.id Hst2 /= list_insert_insert_eq list_lookup_insert_eq //. }
  eapply wp_mono; [apply (hand_out_wp s s2 ip p root T retv (Z.of_nat ci) r' ex n); try done|].
  { by rw Hst2. }
  { apply Hvm2. }
  { lia. }
  { lia. }
  intros ret s' (-> & Hrb & Hprocs & Hk & Hcur & Hpt' & Hup' & Hfl & Hkept & Haddr). split; [done|]. exists j.
  assert (forall va, uphys (mem (mach s')) T va = uphys (mem (mach s2)) T va) as Hph by (intros va; by rw /uphys Hup').
  assert (forall q, q ∈ (if newmap then drop 17 l else l) -> q ∈ l) as Hsub
    by (intros q; destruct newmap; [apply elem_drop_in|done]).
  destruct (vm_inv_kept (mach s2) (mach s') root T (if newmap then drop 17 l else l)) as [Hvm' Hlf']; [done| |done| |].
  { rw /free_lock. change (lk (mach s')) with (klk s'). rw Hk. apply Hvm. }
  { intros q a Hq Hor Ha. apply (Hkept q); [done| |done]. intros va Hva. rw Hup2 //. intros <-.
    destruct Hor as [Hin|[x Hx]]; [by eapply Hsep; [|apply Hsub]|by eapply (ub_table _ _ _ _ Hub)]. }
  split; try done.
  - rw Hrb Hst2 /= list_insert_insert_eq //.
  - rw Hprocs Hst2 //.
  - rw Hcur Hst2 //.
  - split; [done|]. intros off Ho. rw Hph. by eapply ring_uphys.
  - intros b Hb Hbr. rw Hlf'. by apply Hmap.
  - intros i b Hb. rw Hph. by apply Haddr.
Qed.

(** ** The whole call *)

(** The shape of the table. *)
Record table_wf s : Prop := {
  tw_len : length (ringbufs s) = 10%nat;
  tw_entry : Forall (fun r => is_Some (cstr (rb_name r)) /\ length (rb_name r) = 16%nat /\
    length (rb_pidsRW r) = 2%nat /\ length (rb_bufPA r) = 16%nat) (ringbufs s);
}.

(** The owners of a buffer only [pid] has open, for writing or reading. *)
Definition pids_of (opdesc pid : Z) : list Z := if opdesc =? 0 then [pid; 0] else [0; pid].

Lemma set_pids r opdesc pid : length (rb_pidsRW r) = 2%nat -> opdesc = 0 \/ opdesc = 1 ->
  set_pid opdesc pid (set_pid (1 - opdesc) 0 r) = set_rb_pidsRW (pids_of opdesc pid) r.
Proof.
  destruct r as [c nm ps ? ? ?]. destruct ps as [|a [|b [|]]]; try done. by intros _ [-> | ->].
Qed.

(** Several updates of one entry. *)
Lemma wp_setrb_at (ci : nat) r f l s n Q : ringbufs s = <[ci := r]> l -> (ci < length l)%nat ->
  Q tt (set_ringbufs (<[ci := f r]> l) s) -> wp (setrb (Z.of_nat ci) f) n s Q.
Proof.
  intros E Hci HQ. rw /wp (setrb_run _ r); [|lia|by rw Nat2Z.id E list_lookup_insert_eq].
  by rw E Nat2Z.id list_insert_insert_eq.
Qed.

Lemma create_enter s root T l p0 ip p retv straddr nm opdesc fo n Q :
  caller root T l p0 ip p retv s -> table_wf s -> cstr straddr = Some nm ->
  opdesc = 0 \/ opdesc = 1 -> first (named nm) (ringbufs s) = fo ->
  wp (if 0 <? default (-1) (Z.of_nat <$> fo) then join_buf ip opdesc (default (-1) (Z.of_nat <$> fo))
      else new_buf ip straddr opdesc (default (-1) (Z.of_nat <$> fo))) n
    (set_klk (lk_acq L_ringbuf (klk s)) s) (fun res s2 =>
    if res is Some ci then wp (hand_out ip retv ci (if fo is Some _ then 0 else 1)) n s2 Q else Q (-1) s2) ->
  wp (createbuf straddr opdesc retv) n s Q.
Proof.
  intros Hca [Hlen Hent] Hstr Hop Hfo HQ. pose proof (ca_lock _ _ _ _ _ _ _ _ Hca) as Hcl.
  rw /createbuf. rw (proj2 (orb_false_iff _ _)); [|split; apply Z.ltb_ge; lia].
  apply wp_bind. rw /wp acquire_k //. set (s1 := set_klk _ s) in *.
  apply wp_bind. rw /wp myproc_run; [|destruct Hcl; by apply lk_acq_ok].
  rw /s1 /= (ca_cur _ _ _ _ _ _ _ _ Hca) -/s1. apply wp_bind. rw /wp /=.
  apply wp_bind. rw /wp (find_name_run straddr nm) //; [|eapply Forall_impl; [exact Hent|by intros ? [? _]]].
  change (ringbufs s1) with (ringbufs s). rw Hfo. apply wp_bind.
  eapply wp_mono; [exact HQ|]. intros [ci|] s2 H2; [|by apply wp_ret]. by destruct fo.
Qed.

Lemma create_wp s root T l p0 ip p retv straddr nm opdesc fo ci r n :
  caller root T l p0 ip p retv s -> table_wf s -> cstr straddr = Some nm ->
  opdesc = 0 \/ opdesc = 1 -> first (named nm) (ringbufs s) = fo -> fo = None \/ fo = Some O ->
  first unused (ringbufs s) = Some ci -> ringbufs s !! ci = Some r ->
  (17 <= length l)%nat -> (10 < n)%nat ->
  wp (createbuf straddr opdesc retv) n s (fun ret s' =>
    ret = (if fo is Some _ then 0 else 1) /\ exists j name',
      cstr name' = Some (take 7 nm) /\ length name' = 16%nat /\
      opened root T (drop 17 l) ip retv ci
        (Ringbuf 1 name' (pids_of opdesc (p_pid p)) (take 16 l) (win j) (l !!! 16%nat)) j s s').
Proof.
  intros Hca [Hlen Hent] Hstr Hop Hfo Hfo0 Hun Hr Hl Hn. pose proof (ca_lock _ _ _ _ _ _ _ _ Hca) as Hcl.
  pose proof (lookup_lt_Some _ _ _ Hr) as Hlt.
  destruct (Forall_lookup_1 _ _ _ _ Hent Hr) as (_ & Hnm16 & Hps & Hb16).
  destruct (first_Some _ _ _ Hun) as (r0 & Hr0 & Hu). assert (r0 = r) as -> by congruence. rw /unused in Hu.
  destruct (safestrcpy_ok (rb_name r) straddr nm 8) as (name' & Hcp & Hnm' & Hln' & _); [done|done|lia|].
  eapply create_enter; [done..|]. replace (0 <? default (-1) (Z.of_nat <$> fo)) with false;
    last by destruct Hfo0 as [-> | ->].
  rw /new_buf. apply wp_bind. rw /wp find_free_run //.
  set (s1 := set_klk _ s). change (ringbufs s1) with (ringbufs s). rw Hun.
  cbn [fmap option_fmap option_map default from_option]. cbv zeta.
  assert (ringbufs s = <[ci := r]> (ringbufs s)) as Hid by by rw list_insert_id.
  apply wp_bind. eapply wp_setrb_at; [exact Hid|done|].
  apply wp_bind. eapply wp_setrb_at; [reflexivity|done|].
  apply wp_bind. rw /wp (getp_run _ _ p); [|apply Hca].
  apply wp_bind. eapply wp_setrb_at; [reflexivity|done|]. rw set_pids //.
  apply wp_bind. apply wp_bind. rw /wp (getrb_run (Z.of_nat ci) (set_rb_pidsRW (pids_of opdesc (p_pid p)) (set_rb_refcount (i32 (rb_refcount r + 1)) r)));
    [|lia|rw Nat2Z.id /= list_lookup_insert_eq //]. rw /str. cbn [rb_name set_rb_pidsRW set_rb_refcount]. rw Hcp.
  apply wp_bind. rw /wp. cbn [the mret K_ret]. eapply wp_setrb_at; [reflexivity|done|].
  rw Hu. apply wp_bind. eapply wp_mono; [apply (open_wp true s root T l p0 ip p retv ci
    (Ringbuf 1 name' (pids_of opdesc (p_pid p)) (rb_bufPA r) (rb_vabuf r) (rb_book r)) (if fo is Some _ then 0 else 1) n); done|].
  intros e s2 [-> Htail]. apply wp_ret. cbv beta iota. eapply wp_mono; [exact Htail|].
  intros ret s' (-> & j & Ho). split; [done|]. exists j, name'. split_and!; [done|lia|done].
Qed.

Lemma attach_wp s root T l p0 ip p retv straddr nm opdesc ci r n :
  caller root T l p0 ip p retv s -> table_wf s -> cstr straddr = Some nm ->
  opdesc = 0 \/ opdesc = 1 -> first (named nm) (ringbufs s) = Some ci -> (0 < ci)%nat ->
  ringbufs s !! ci = Some r -> rb_pidsRW r !! Z.to_nat opdesc = Some 0 ->
  0 <= rb_refcount r < 2 ^ 31 - 1 -> Forall mappable (rb_bufPA r) -> mappable (rb_book r) -> (10 < n)%nat ->
  wp (createbuf straddr opdesc retv) n s (fun ret s' => ret = 0 /\ exists j,
    opened root T l ip retv ci (Ringbuf (rb_refcount r + 1) (rb_name r)
      (<[Z.to_nat opdesc := p_pid p]> (rb_pidsRW r)) (rb_bufPA r) (win j) (rb_book r)) j s s').
Proof.
  intros Hca [Hlen Hent] Hstr Hop Hfo Hci Hr Hown Hrc Hpg Hbk Hn. pose proof (ca_lock _ _ _ _ _ _ _ _ Hca) as Hcl.
  pose proof (lookup_lt_Some _ _ _ Hr) as Hlt.
  destruct (Forall_lookup_1 _ _ _ _ Hent Hr) as (_ & Hnm16 & Hps & Hb16).
  eapply create_enter; [done..|]. cbn [fmap option_fmap option_map default from_option].
  rw /id (proj2 (Z.ltb_lt 0 (Z.of_nat ci))); [|lia]. set (s1 := set_klk _ s).
  rw /join_buf. apply wp_bind. rw /wp (getp_run _ _ p); [|apply Hca].
  assert (ringbufs s1 !! Z.to_nat (Z.of_nat ci) = Some r) as Hr1 by by rw Nat2Z.id.
  apply wp_bind. rw /wp (getrb_run (Z.of_nat ci) r) //; [|lia].
  apply wp_bind. apply (wp_arr_get _ _ 0); [lia|done|].
  apply wp_bind. rw /wp (getrb_run (Z.of_nat ci) r) //; [|lia]. rw (proj2 (Z.ltb_ge _ 0)); [|lia]. cbn [negb orb Z.eqb].
  assert (ringbufs s = <[ci := r]> (ringbufs s)) as Hid by by rw list_insert_id.
  apply wp_bind. eapply wp_setrb_at; [exact Hid|done|].
  apply wp_bind. eapply wp_setrb_at; [reflexivity|done|].
  apply wp_bind. cbn [rb_refcount set_pid set_rb_pidsRW]. rw i32_small; [|lia].
  eapply wp_mono; [apply (open_wp false s root T l p0 ip p retv ci
    (Ringbuf (rb_refcount r + 1) (rb_name r) (<[Z.to_nat opdesc := p_pid p]> (rb_pidsRW r)) (rb_bufPA r) (rb_vabuf r) (rb_book r)) 0 n); done|].
  intros e s2 [-> Htail]. exact Htail.
Qed.

(** ** Main properties *)

(** C28: creating a buffer.  When no entry has the name and some entry is
    unused, [createbuf] takes the first unused entry, counts one user, records
    the caller in the slot of its role and the name cut to seven characters,
    gives it the seventeen pages at the head of the free list, maps it twice in
    a row in a free window of the caller, stores the window's address at
    [retvaddr] and returns 1. *)
Theorem createbuf_creates s root T l p0 ip p retv straddr nm opdesc ci r n :
  caller root T l p0 ip p retv s -> table_wf s -> cstr straddr = Some nm ->
  opdesc = 0 \/ opdesc = 1 -> first (named nm) (ringbufs s) = None ->
  first unused (ringbufs s) = Some ci -> ringbufs s !! ci = Some r ->
  (17 <= length l)%nat -> (10 < n)%nat ->
  wp (createbuf straddr opdesc retv) n s (fun ret s' => ret = 1 /\ exists j name',
    cstr name' = Some (take 7 nm) /\
    opened root T (drop 17 l) ip retv ci
      (Ringbuf 1 name' (pids_of opdesc (p_pid p)) (take 16 l) (win j) (l !!! 16%nat)) j s s').
Proof.
  intros. eapply wp_mono; [eapply (create_wp s root T l p0 ip p retv straddr nm opdesc None ci r n); (done || by left)|].
  intros ret s' (-> & j & nm' & ? & _ & ?). eauto.
Qed.

(** C29: joining a buffer.  When the first entry with the name is not entry 0,
    its role is free and its pages are in order, [createbuf] returns 0, counts
    one more user and maps the pages the entry already has in a free window of
    the caller, whose address it stores at [retvaddr]. *)
Theorem createbuf_joins s root T l p0 ip p retv straddr nm opdesc ci r n :
  caller root T l p0 ip p retv s -> table_wf s -> cstr straddr = Some nm ->
  opdesc = 0 \/ opdesc = 1 -> first (named nm) (ringbufs s) = Some ci -> (0 < ci)%nat ->
  ringbufs s !! ci = Some r -> rb_pidsRW r !! Z.to_nat opdesc = Some 0 ->
  0 <= rb_refcount r < 2 ^ 31 - 1 -> Forall mappable (rb_bufPA r) -> mappable (rb_book r) -> (10 < n)%nat ->
  wp (createbuf straddr opdesc retv) n s (fun ret s' => ret = 0 /\ exists j,
    opened root T l ip retv ci (Ringbuf (rb_refcount r + 1) (rb_name r)
      (<[Z.to_nat opdesc := p_pid p]> (rb_pidsRW r)) (rb_bufPA r) (win j) (rb_book r)) j s s').
Proof. apply attach_wp. Qed.

(** C30: a buffer in entry 0 is never joined.  When entry 0 is in use under the
    name, [createbuf] returns 0 like a join, but leaves entry 0 as it is and
    maps fresh pages under another entry: the two processes share no page. *)
Theorem createbuf_slot0_not_shared s root T l p0 ip p retv straddr nm opdesc r0 ci r n :
  caller root T l p0 ip p retv s -> table_wf s -> cstr straddr = Some nm ->
  opdesc = 0 \/ opdesc = 1 -> ringbufs s !! 0%nat = Some r0 -> named nm r0 -> ~ unused r0 ->
  (forall q, q ∈ rb_bufPA r0 -> q ∉ l) ->
  first unused (ringbufs s) = Some ci -> ringbufs s !! ci = Some r ->
  (17 <= length l)%nat -> (10 < n)%nat ->
  wp (createbuf straddr opdesc retv) n s (fun ret s' => ret = 0 /\ ci <> 0%nat /\
    ringbufs s' !! 0%nat = Some r0 /\ exists j r',
      opened root T (drop 17 l) ip retv ci r' j s s' /\ (forall q, q ∈ rb_bufPA r0 -> q ∉ rb_bufPA r')).
Proof.
  intros Hca Hw Hs Hop Hr0 Hnm Hused Hsep Hun Hr Hl Hn.
  assert (first (named nm) (ringbufs s) = Some 0%nat) as Hfo.
  { destruct (ringbufs s) as [|x rest]; [done|]. simpl in Hr0. simplify_eq. by rw /first /= decide_True. }
  eapply wp_mono; [eapply (create_wp s root T l p0 ip p retv straddr nm opdesc (Some 0%nat) ci r n); (done || by right)|].
  intros ret s' (-> & j & nm' & _ & _ & Ho). split; [done|].
  assert (ci <> 0%nat) as Hne.
  { intros ->. apply first_Some in Hun as (x & Hx & Hu). by simplify_eq. }
  split; [done|]. split.
  - rw (op_table _ _ _ _ _ _ _ _ _ _ Ho) list_lookup_insert_ne //.
  - eexists j, _. split; [exact Ho|]. intros q Hq Hin. eapply Hsep; [exact Hq|]. by apply elem_take_in in Hin.
Qed.

(** [createbuf] refuses a role that is not 0 or 1, and a role that another
    process already has in the buffer; it returns -1 and changes nothing. *)
Theorem createbuf_refuses s root T l p0 ip p retv straddr nm opdesc n :
  caller root T l p0 ip p retv s -> table_wf s -> cstr straddr = Some nm ->
  opdesc < 0 \/ 1 < opdesc \/
  (exists ci r o, (opdesc = 0 \/ opdesc = 1) /\ first (named nm) (ringbufs s) = Some ci /\ (0 < ci)%nat /\
     ringbufs s !! ci = Some r /\ rb_pidsRW r !! Z.to_nat opdesc = Some o /\ o <> 0) ->
  createbuf straddr opdesc retv n s = Ok (-1) s.
Proof.
  intros Hca [Hlen Hent] Hstr Hop. pose proof (ca_lock _ _ _ _ _ _ _ _ Hca) as Hcl.
  destruct (decide (opdesc < 0 \/ 1 < opdesc)) as [Hbad|Hgood].
  { rw /createbuf (proj2 (orb_true_iff _ _)) //. destruct Hbad; [left|right]; by apply Z.ltb_lt. }
  destruct Hop as [|[|(ci & r & o & Hop & Hfo & Hci & Hr & Ho & Hne)]]; [tauto..|].
  assert (wp (createbuf straddr opdesc retv) n s (fun ret s' => ret = -1 /\ s' = s)) as Hwp; last first.
  { rw /wp in Hwp. destruct (createbuf straddr opdesc retv n s) as [a s'| | | |]; try done. by destruct Hwp as [-> ->]. }
  eapply create_enter; [done..|]. cbn [fmap option_fmap option_map default from_option].
  rw /id (proj2 (Z.ltb_lt 0 (Z.of_nat ci))); [|lia]. set (s1 := set_klk _ s).
  rw /join_buf. apply wp_bind. rw /wp (getp_run _ _ p); [|apply Hca].
  assert (ringbufs s1 !! Z.to_nat (Z.of_nat ci) = Some r) as Hr1 by by rw Nat2Z.id.
  apply wp_bind. rw /wp (getrb_run (Z.of_nat ci) r) //; [|lia].
  apply wp_bind. apply (wp_arr_get _ _ o); [lia|done|].
  apply wp_bind. rw /wp (getrb_run (Z.of_nat ci) r) //; [|lia]. rw (proj2 (Z.eqb_neq o 0)) //. cbn [negb orb].
  apply wp_bind. rw /wp (release_acquired s) //. apply wp_ret. split; [done|]. apply set_klk_back.
Qed.

End create.

(** ** The theorems on a concrete state *)

#[local] Existing Instance small_layout.

(** A buffer "abc" that process 9 has open for writing. *)
Definition abc : ringbuf :=
  Ringbuf 1 (bytes_of_string "abc" ++ replicate 13 0) [9; 0] (replicate 16 (pg 18)) (win 0) (pg 19).
Definition with_abc (i : nat) : kstate := set_ringbufs (<[i := abc]> (ringbufs kdemo)) kdemo.

Lemma demo_caller rb : caller (pg 0) TA demo_free (pg 2) 0 proc_a 16 (set_ringbufs rb kdemo).
Proof.
  split; try done.
  - split; [apply lk_ok_zero|done].
  - by apply (demo_inv 0); left.
  - intros j Hj. left. apply (demo_windows 0); [by left|done].
  - exists 0. split; [done|]. apply (demo_windows 0); [by left|done].
  - apply (demo_user_buf 0); [by left|done|done|done].
  - intros va Hva. rw (pdemo_upage 0); [|by left|pglia]. refine (bool_decide_unpack _ _). by vm_compute.
Qed.
Lemma demo_table i : (i < 10)%nat -> table_wf (with_abc i).
Proof.
  intros Hi. split; [by rw /= length_insert|]. apply Forall_insert; [by apply Forall_replicate; vm_compute; eauto|].
  by vm_compute; eauto.
Qed.
Lemma kdemo_table : table_wf kdemo.
Proof. split; [done|]. by apply Forall_replicate; vm_compute; eauto. Qed.

Lemma createbuf_creates_witness :
  wp (createbuf (cstring "ring") 0 16) 20 kdemo (fun ret _ => ret = 1).
Proof.
  eapply wp_mono; [apply (createbuf_creates kdemo (pg 0) TA demo_free (pg 2) 0 proc_a 16
    (cstring "ring") (bytes_of_string "ring") 0 0 zero_ringbuf 20)|].
  - exact (demo_caller (ringbufs kdemo)).
  - exact kdemo_table.
  - reflexivity.
  - by left.
  - reflexivity.
  - reflexivity.
  - reflexivity.
  - vm_compute. lia.
  - lia.
  - intros ret s' [-> _]. reflexivity.
Defined.

Lemma createbuf_joins_witness :
  wp (createbuf (cstring "abc") 1 16) 20 (with_abc 3) (fun ret _ => ret = 0).
Proof.
  eapply wp_mono; [apply (createbuf_joins (with_abc 3) (pg 0) TA demo_free (pg 2) 0 proc_a 16
    (cstring "abc") (bytes_of_string "abc") 1 3 abc 20)|].
  - apply demo_caller.
  - apply demo_table. lia.
  - reflexivity.
  - by right.
  - reflexivity.
  - lia.
  - reflexivity.
  - reflexivity.
  - done.
  - apply Forall_replicate. by vm_compute.
  - by vm_compute.
  - lia.
  - intros ret s' [-> _]. reflexivity.
Defined.

Lemma createbuf_slot0_not_shared_witness :
  wp (createbuf (cstring "abc") 1 16) 20 (with_abc 0) (fun ret s' => ret = 0 /\ ringbufs s' !! 0%nat = Some abc).
Proof.
  eapply wp_mono; [apply (createbuf_slot0_not_shared (with_abc 0) (pg 0) TA demo_free (pg 2) 0 proc_a 16
    (cstring "abc") (bytes_of_string "abc") 1 abc 1 zero_ringbuf 20)|].
  - apply demo_caller.
  - apply demo_table. lia.
  - reflexivity.
  - by right.
  - reflexivity.
  - reflexivity.
  - done.
  - intros q Hq%elem_of_replicate. destruct Hq as [-> _]. refine (bool_decide_unpack _ _). by vm_compute.
  - reflexivity.
  - reflexivity.
  - vm_compute. lia.
  - lia.
  - intros ret s' (-> & _ & H & _). split; [reflexivity|exact H].
Defined.
