(* ===== verification/RingbufClose.v ===== *)
(** * [closebuf]

    Closing a buffer: the message it prints, the search, the unmapping of the
    window and, for the last user, the return of the pages. *)

From Stdlib Require Import Ascii.
From S2P Require Import Prelude Mem KString Spinlock Machine Kalloc Printf Vm VmInv VmCopy KState Proc VmCheck ProcInv Ringbuf RingbufInv RingbufSpec RingbufCreate.

(** ** Printing *)

Section close.
Context {lay : Layout}.
Implicit Types (m : mstate) (T : gmap (list Z) Z) (s : kstate).

#[local] Transparent lift acquire release.

Definition emit (bs : list Z) m : mstate := set_out (out m ++ bs) m.

Lemma uartputc_run c m n : lk_ok (lk m) -> uartputc_sync c n m = Ok tt (emit [u8 c] m).
Proof.
  intros Hok. pose proof (push_pop (lk m) n Hok) as Hpp.
  rw /mbind /K_bind in Hpp. rw /uartputc_sync /mbind /K_bind /lift /=.
  destruct (push_off n (lk m)) as [[] l1| | | |] eqn:E; rw ?E /= in Hpp |- *; try done.
  rw Hpp /=. by destruct m.
Qed.
Lemma printf_loop_plain fmt m n : lk_ok (lk m) -> Forall (fun c => 0 < c < 256 /\ c <> chr "%") fmt ->
  printf_loop (fmt ++ [0]) [] n m = Ok tt (emit fmt m).
Proof.
  intros Hok Hf. revert m Hok. induction Hf as [|c fmt [Hc Hp] Hf IH]; intros m Hok.
  { rw /emit app_nil_r. by destruct m. }
  cbn [app printf_loop]. rw (proj2 (Z.eqb_neq c 0)); [|lia]. rw (proj2 (Z.eqb_neq c (chr "%"))) //. cbn [negb].
  rw /mbind /K_bind /consputc (proj2 (Z.eqb_neq c BACKSPACE)); [|rw /BACKSPACE; lia].
  rw uartputc_run // u8_small; [|lia]. cbn [bindr]. rw IH //. rw /emit /= -app_assoc. done.
Qed.
Lemma printf_plain fmt m n : lk_ok (lk m) -> locked L_pr (lk m) = false ->
  Forall (fun c => 0 < c < 256 /\ c <> chr "%") (bytes_of_string fmt) ->
  printf fmt [] n m = Ok tt (emit (bytes_of_string fmt) m).
Proof.
  intros Hok Hf Hc. rw /printf /cstring /mbind /K_bind /=. destruct (prlocking m) eqn:Hl; rw /when.
  - rw /acquire. rw (lift_Ok (acquire_ L_pr) n m tt (lk_acq L_pr (lk m))); last by apply acquire_run.
    cbn [bindr]. rw printf_loop_plain //; [|by apply lk_acq_ok]. cbn [bindr].
    rw /release (lift_Ok (release_ L_pr) n _ tt (lk m)); [by destruct m|].
    pose proof (noff_nonneg _ Hok). rw release_run; [by rw /= rel_acq|by apply lk_acq_ok|simpl; lia|apply held_acq].
  - cbn [bindr mret K_ret]. by rw printf_loop_plain.
Qed.
#[local] Opaque lift acquire release.

(** ** Unmapping the window *)

(** The window at [win j] is mapped to [pages] twice and to [book]. *)
Definition window_mapped (lf : Z -> Z) (j : Z) (pages : list Z) (book : Z) : Prop :=
  forall i, 0 <= i < WPAGES ->
    lf (win j + PGSIZE * i) = new_pte (ring_page pages book (PGSIZE * i)) PTE_RB.

Lemma unmapped_trans va j (lf lf1 lf2 : Z -> Z) : 0 <= j ->
  unmapped va j lf lf1 -> unmapped (va + PGSIZE * j) 1 lf1 lf2 -> unmapped va (j + 1) lf lf2.
Proof.
  intros Hj H1 H2 b Hb Hr. rw H2 // H1 //. repeat case_decide; try done; pglia.
Qed.

(** Pages freed by [k] calls that free: the last one first. *)
Definition freed (do_free : bool) (ps l : list Z) : list Z := if do_free then rev ps ++ l else l.

(** One page of the window. *)
Lemma unmap_page_wp m root T l j i (do_free : bool) p n :
  vm_inv m root T l -> 0 <= j < 10 -> 0 <= i < WPAGES ->
  leaf (mem m) T (win j + PGSIZE * i) = new_pte p PTE_RB -> mappable p ->
  (do_free = true -> page_ok p /\ (p ∉ l) /\ forall x, T !! x <> Some p) -> (1 < n)%nat ->
  wp (uvmunmap root (win j + i * PGSIZE) 1 do_free) n m (fun _ m' =>
    vm_inv m' root T (freed do_free [p] l) /\ lk m' = lk m /\
    unmapped (win j + PGSIZE * i) 1 (leaf (mem m) T) (leaf (mem m') T)).
Proof.
  intros Hvm Hj Hi Hlf [Hp1 Hp2] Hfree Hn. destruct (win_range j i Hj Hi) as (Hr & Hm & Hr2).
  rw (Z.mul_comm i). assert (PTE2PA (leaf (mem m) T (win j + PGSIZE * i)) = p) as Hpa.
  { rw Hlf /new_pte. by apply PTE2PA_pte. }
  eapply wp_mono; [apply (uvmunmap_one m root T l _ do_free n); try done|].
  - rw /MAP_START MAXVA_val in Hr. pglia.
  - pose proof MAXVA_val. pglia.
  - rw Hlf. apply pte_valid.
  - rw Hlf /new_pte PTE_FLAGS_pte //.
  - rw Hpa. done.
  - intros [] m' H. rw Hpa in H. rw /freed. by destruct do_free.
Qed.
(** Sixteen pages from page [o] of the window on. *)
Lemma unmap_pages_wp m root T l j (o : nat) (do_free : bool) pages n :
  vm_inv m root T l -> 0 <= j < 10 -> Z.of_nat o + 16 < WPAGES -> length pages = 16%nat ->
  (forall i p, pages !! i = Some p -> leaf (mem m) T (win j + PGSIZE * Z.of_nat (o + i)) = new_pte p PTE_RB) ->
  Forall mappable pages ->
  (do_free = true -> NoDup pages /\ forall p, p ∈ pages -> page_ok p /\ (p ∉ l) /\ forall x, T !! x <> Some p) ->
  (1 < n)%nat ->
  wp (for_each (rangeZ RINGBUF_SIZE) (fun i => uvmunmap root (win j + (Z.of_nat o + i) * PGSIZE) 1 do_free)) n m
    (fun _ m' => vm_inv m' root T (freed do_free pages l) /\ lk m' = lk m /\
      unmapped (win j + PGSIZE * Z.of_nat o) 16 (leaf (mem m) T) (leaf (mem m') T)).
Proof.
  intros Hvm Hj Ho Hlen Hlf Hpg Hfree Hn.
  apply (wp_for_each_range (fun k m' => vm_inv m' root T (freed do_free (take k pages) l) /\ lk m' = lk m /\
    unmapped (win j + PGSIZE * Z.of_nat o) (Z.of_nat k) (leaf (mem m) T) (leaf (mem m') T))).
  - split_and!; [by destruct do_free|done|]. intros b _ _. by rw decide_False; [|lia].
  - intros k m1 Hk (Hvm1 & Hlk1 & Hun1). change RINGBUF_SIZE with 16%nat in Hk.
    destruct (lookup_lt_is_Some_2 pages k) as [p Hp]; [lia|].
    destruct (win_range j (Z.of_nat (o + k)) Hj) as (Hr & Hm & Hr2); [lia|].
    rw -Nat2Z.inj_add. eapply wp_mono; [apply (unmap_page_wp m1 root T (freed do_free (take k pages) l) j _ do_free p n); try done|].
    + lia.
    + rw Hun1 //; [|rw /MAP_START MAXVA_val in Hr; pose proof MAXVA_val; pglia].
      rw decide_False; [by apply Hlf|]. rw Nat2Z.inj_add. pglia.
    + rw Forall_lookup in Hpg. by eapply Hpg.
    + intros Hd. destruct (Hfree Hd) as [Hnd Hall]. destruct (Hall p) as (H1 & H2 & H3); [by eapply list_elem_of_lookup_2|].
      split_and!; [done| |done]. rw /freed Hd elem_of_app list_elem_of_In -in_rev -list_elem_of_In. intros [Hin|]; [|done].
      rw -(take_drop_middle _ _ _ Hp) in Hnd. apply NoDup_app in Hnd as (_ & Hdis & _). eapply Hdis; [done|by left].
    + intros [] m2 (Hvm2 & Hlk2 & Hun2). split_and!; [|congruence|].
      * rw (take_S_r _ _ _ Hp) /freed in Hvm2 |- *. destruct do_free; [|done]. by rw rev_app_distr.
      * rw Nat2Z.inj_succ. eapply unmapped_trans; [lia|exact Hun1|].
        by rw Nat2Z.inj_add Z.mul_add_distr_l Z.add_assoc in Hun2.
  - intros m' (Hvm' & Hlk' & Hun'). rw take_ge in Hvm'; [done|]. by rw Hlen.
Qed.

(** The whole window. *)
Lemma unmap_window_wp m root T l j (do_free : bool) pages book n :
  vm_inv m root T l -> 0 <= j < 10 -> length pages = 16%nat -> window_mapped (leaf (mem m) T) j pages book ->
  Forall mappable (book :: pages) ->
  (do_free = true -> NoDup (book :: pages) /\
     forall p, p ∈ book :: pages -> page_ok p /\ (p ∉ l) /\ forall x, T !! x <> Some p) ->
  (1 < n)%nat ->
  wp (unmap_window root (win j) do_free) n m (fun _ m' =>
    vm_inv m' root T (freed do_free (pages ++ [book]) l) /\ lk m' = lk m /\
    unmapped (win j) WPAGES (leaf (mem m) T) (leaf (mem m') T)).
Proof.
  intros Hvm Hj Hlen Hmap [Hbk Hpg]%Forall_cons_1 Hfree Hn.
  assert (forall (o i : nat) p, o = O \/ o = 16%nat -> pages !! i = Some p ->
    leaf (mem m) T (win j + PGSIZE * Z.of_nat (o + i)) = new_pte p PTE_RB) as Hlf.
  { intros o i p Ho Hp. pose proof (lookup_lt_Some _ _ _ Hp). rw Hmap; [|winlia].
    rw /ring_page (proj2 (Z.ltb_lt _ _)); [|rw /RB_BYTES; pglia]. f_equal.
    rw Z.mul_comm Z.div_mul //. apply list_lookup_total_correct. rw -Hp. f_equal.
    replace (Z.of_nat (o + i)) with (Z.of_nat i + (Z.of_nat o / 16) * 16); last first.
    { rw Nat2Z.inj_add. destruct Ho as [-> | ->];
      [change (Z.of_nat 0 / 16 * 16) with 0|change (Z.of_nat 16 / 16 * 16) with 16]; lia. }
    rw Z.mod_add // Z.mod_small; lia. }
  apply wp_bind. eapply wp_mono; [apply (unmap_pages_wp m root T l j 0 do_free pages n); try done|].
  { intros i p. apply (Hlf O). by left. }
  { intros Hd. destruct (Hfree Hd) as [Hnd Hall]. apply NoDup_cons in Hnd as [_ Hnd]. split; [done|]. intros p Hp. apply Hall. by right. }
  intros [] m1 (Hvm1 & Hlk1 & Hun1). apply wp_bind. rw Z.mul_0_r Z.add_0_r in Hun1.
  destruct (win_range j 0 Hj) as (Hr0 & _ & _); [winlia|]. pose proof MAXVA_val.
  assert (forall i, 16 <= i < WPAGES -> leaf (mem m1) T (win j + PGSIZE * i) = leaf (mem m) T (win j + PGSIZE * i)) as Hlf1.
  { intros i Hi. destruct (win_range j i Hj) as (Hr & Hm & Hr2); [lia|].
    rw Hun1 //; [|rw /MAP_START MAXVA_val in Hr; pglia]. rw decide_False //. pglia. }
  eapply wp_mono; [apply (unmap_pages_wp m1 root T _ j 16 false pages n Hvm1); try done|].
  { intros i p Hp. pose proof (lookup_lt_Some _ _ _ Hp). rw Hlf1; [|winlia]. apply (Hlf 16%nat); [by right|done]. }
  intros [] m2 (Hvm2 & Hlk2 & Hun2).
  assert (unmapped (win j) 32 (leaf (mem m) T) (leaf (mem m2) T)) as Hun.
  { intros b Hb Hr. rw Hun2 // Hun1 //. repeat case_decide; try done; pglia. }
  eapply wp_mono; [apply (unmap_page_wp m2 root T _ j 32 do_free book n Hvm2); try done|].
  { destruct (win_range j 32 Hj) as (Hr & Hm & Hr2); [winlia|]. rw Hun //; [|rw /MAP_START MAXVA_val in Hr; pglia].
    rw decide_False; [|pglia]. rw Hmap //. }
  { intros Hd. destruct (Hfree Hd) as [Hnd Hall]. destruct (Hall book) as (H1 & H2 & H3); [by left|]. split_and!; [done| |done].
    apply NoDup_cons in Hnd as [Hnd _]. rw /freed Hd elem_of_app list_elem_of_In -in_rev -list_elem_of_In. tauto. }
  intros [] m3 (Hvm3 & Hlk3 & Hun3). split_and!; [|congruence|].
  - rw /freed in Hvm3 |- *. destruct do_free; [by rw rev_app_distr|done].
  - by eapply (unmapped_trans _ 32).
Qed.

(** ** The search *)

(** A scan reaches its [i]th step. *)
Lemma for_exit_reach {S B} (f : Z -> K S (option B)) (i N : nat) n (t : S) : (i < N)%nat ->
  (forall k, (k < i)%nat -> f (Z.of_nat k) n t = Ok None t) ->
  for_exit (rangeZ N) f n t = for_exit (Z.of_nat i :: (Z.of_nat <$> seq (1 + i) (N - (1 + i)))) f n t.
Proof.
  intros Hi Hf. rw /rangeZ. change (Z.of_nat i :: _) with (Z.of_nat <$> seq i (Datatypes.S (N - (1 + i)))).
  replace (Datatypes.S (N - (1 + i))) with (N - i)%nat by lia. rw -{1}(Nat.sub_0_r N).
  enough (forall d k, (k + d = i)%nat -> for_exit (Z.of_nat <$> seq k (N - k)) f n t =
    for_exit (Z.of_nat <$> seq i (N - i)) f n t) as Hd by by apply (Hd i).
  induction d as [|d IH]; intros k Hk; [by replace k with i by lia|].
  replace (N - k)%nat with (Datatypes.S (N - (1 + k))) by lia.
  cbn [seq fmap list_fmap for_exit]. rw /mbind /K_bind Hf; [|lia]. cbn [bindr]. apply IH. lia.
Qed.

Lemma find_name_found bound straddr nm s (i : nat) n : cstr straddr = Some nm -> (length (ringbufs s) <= bound)%nat ->
  Forall (fun r => is_Some (cstr (rb_name r))) (ringbufs s) -> first (named nm) (ringbufs s) = Some i ->
  find_name bound straddr n s = Ok (Some (Z.of_nat i)) s.
Proof.
  intros Hs Hlen Hn (x & Hx & Ei)%fmap_Some. destruct x as [i' r]. simpl in Ei. subst i'.
  apply list_find_Some in Hx as (Hr & Hp & Hbefore). pose proof (lookup_lt_Some _ _ _ Hr).
  rw /find_name (for_exit_reach _ i); [|lia|].
  - pose proof (name_test_run straddr nm i r s n Hs Hr (Forall_lookup_1 _ _ _ _ Hn Hr)) as H'.
    rw decide_True // in H'. cbn [for_exit]. rw {1}/mbind {1}/K_bind. fold (name_test straddr (Z.of_nat i)). by rw H'.
  - intros k Hk. destruct (lookup_lt_is_Some_2 (ringbufs s) k) as [y Hy]; [lia|].
    pose proof (name_test_run straddr nm k y s n Hs Hy (Forall_lookup_1 _ _ _ _ Hn Hy)) as H'.
    rw decide_False // in H'. by eapply Hbefore.
Qed.
Lemma find_name_absent bound straddr nm s n : cstr straddr = Some nm -> (length (ringbufs s) < bound)%nat ->
  Forall (fun r => is_Some (cstr (rb_name r))) (ringbufs s) -> first (named nm) (ringbufs s) = None ->
  find_name bound straddr n s = Undef s.
Proof.
  intros Hs Hlen Hn Hx%fmap_None. rw list_find_None in Hx. rw /find_name (for_exit_reach _ (length (ringbufs s))) //.
  - cbn [for_exit]. assert (getrb (Z.of_nat (length (ringbufs s))) rb_name n s = Undef s) as Hg.
    { rw /getrb /mbind /K_bind /= /arr_get (proj2 (Z.ltb_ge _ _)); [|lia].
      by rw Nat2Z.id (proj2 (lookup_ge_None (ringbufs s) _)). }
    rw /mbind /K_bind Hg. done.
  - intros k Hk. destruct (lookup_lt_is_Some_2 (ringbufs s) k Hk) as [y Hy].
    pose proof (name_test_run straddr nm k y s n Hs Hy (Forall_lookup_1 _ _ _ _ Hn Hy)) as H'.
    rw decide_False // in H'. rw Forall_lookup in Hx. by eapply Hx.
Qed.

(** ** The call *)

Definition here : list Z := bytes_of_string ("Here" +:+ nl).

Lemma vm_inv_emit bs m root T l : vm_inv m root T l -> vm_inv (emit bs m) root T l.
Proof. intros []. by split. Qed.

(** A running process with its page table, the locks free. *)
Record closer root T (l : list Z) (ip : nat) p s : Prop := {
  cl_cur : cur s = Some ip;
  cl_proc : procs s !! ip = Some p;
  cl_root : p_pagetable p = root;
  cl_lock : can_lock L_ringbuf s;
  cl_prlock : locked L_pr (klk s) = false;
  cl_plock : locked (L_proc ip) (klk s) = false;
  cl_vm : vm_inv (mach s) root T l;
}.

(** The entry after a user closed it, [last] or not. *)
Definition closed_entry (last : bool) (r : ringbuf) : ringbuf :=
  if last then Ringbuf 0 (arr_set (rb_name r) 0 0) (arr_set (arr_set (rb_pidsRW r) 0 0) 1 0) (rb_bufPA r) 0 0
  else set_rb_refcount (rb_refcount r - 1) r.
(** Does process [pid] still have a buffer open, by the table? *)
Definition has_buf (pid : Z) (rb : list ringbuf) : bool :=
  existsb (fun r => existsb (Z.eqb pid) (take 2 (rb_pidsRW r))) (take MAX_RINGBUFS rb).

(** When the window of the first entry with the name is mapped in the caller's
    page table, [closebuf] returns 0 and unmaps all 33 pages; the last user's
    call clears the entry and gives the sixteen pages of the buffer and the book
    back, an earlier user's only counts down. *)
Lemma closebuf_wp s root T l ip p straddr nm opdesc (i : nat) r j n :
  let last := bool_decide (rb_refcount r <= 1) in
  closer root T l ip p s -> table_wf s -> cstr straddr = Some nm ->
  first (named nm) (ringbufs s) = Some i -> ringbufs s !! i = Some r -> - 2 ^ 31 < rb_refcount r < 2 ^ 31 ->
  0 <= j < 10 -> rb_vabuf r = win j -> window_mapped (leaf (mem (mach s)) T) j (rb_bufPA r) (rb_book r) ->
  Forall mappable (rb_book r :: rb_bufPA r) ->
  (last = true -> NoDup (rb_book r :: rb_bufPA r) /\
     forall q, q ∈ rb_book r :: rb_bufPA r -> page_ok q /\ (q ∉ l) /\ forall x, T !! x <> Some q) ->
  (1 < n)%nat ->
  wp (closebuf straddr opdesc) n s (fun ret s' => ret = 0 /\ klk s' = klk s /\
    let rb := <[i := closed_entry last r]> (ringbufs s) in
    ringbufs s' = rb /\
    procs s' = alter (set_p_validRingBuf (if has_buf (p_pid p) rb then 1 else 0)) ip (procs s) /\
    vm_inv (mach s') root T (freed last (rb_bufPA r ++ [rb_book r]) l) /\
    unmapped (win j) WPAGES (leaf (mem (mach s)) T) (leaf (mem (mach s')) T)).
Proof.
  intros last [Hc Hp Hroot Hcl Hpr Hpl Hvm] [Hlen Hent] Hstr Hfi Hr Hrc Hj Hva Hmap Hpg Hfree Hn.
  pose proof (lookup_lt_Some _ _ _ Hr) as Hlt. destruct Hcl as [Hok Hfl].
  destruct (Forall_lookup_1 _ _ _ _ Hent Hr) as (_ & Hnm16 & Hps & Hb16).
  rw /closebuf. apply wp_bind, wp_lift. rw /wp printf_plain //; [|by repeat constructor]. fold here.
  set (s1 := sput (emit here (sget s)) s). assert (klk s1 = klk s) as Hk1 by done.
  apply wp_bind. rw /wp myproc_run //. change (cur s1) with (cur s). rw Hc. apply wp_bind. rw /wp /=.
  apply wp_bind. rw /wp acquire_k //. rw Hk1. set (s2 := set_klk _ s1).
  assert (vm_inv (mach s2) root T l) as Hvm2 by (apply (vm_inv_acq s1); [by apply vm_inv_emit|by split|done]).
  assert (ringbufs s2 = ringbufs s) as Hrb2 by done.
  apply wp_bind. rw /wp (find_name_found RINGBUF_SIZE straddr nm s2 i) //; rw ?Hrb2 ?Hlen; [|by apply Nat.leb_le|];
    last by (eapply Forall_impl; [exact Hent|by intros ? [? _]]).
  cbn [default from_option]. cbv zeta. rw /id (proj2 (Z.eqb_neq (Z.of_nat i) (-1))); [|lia].
  apply wp_bind. rw /wp (getrb_run (Z.of_nat i) r); [|lia|by rw Nat2Z.id Hrb2]. rw Hva.
  assert (ringbufs s2 = <[i := r]> (ringbufs s)) as Hid by by rw list_insert_id.
  apply wp_bind. eapply wp_setrb_at; [exact Hid|done|]. rw i32_small; [|lia].
  set (r1 := set_rb_refcount (rb_refcount r - 1) r). set (s3 := set_ringbufs _ s2).
  apply wp_bind. rw /wp (getrb_run (Z.of_nat i) r1); [|lia|by rw Nat2Z.id /s3 /= list_lookup_insert_eq].
  assert (negb (1 <=? rb_refcount r1) = last) as ->.
  { rw /last /r1 /=. case_bool_decide; [apply negb_true_iff, Z.leb_gt|apply negb_false_iff, Z.leb_le]; lia. }
  set (rb := <[i := closed_entry last r]> (ringbufs s)). set (s4 := set_ringbufs rb s2).
  apply wp_bind. apply (wp_mono _ _ _ (fun _ s' => s' = s4)).
  { rw /when. destruct last eqn:El.
    - eapply wp_setrb_at; [reflexivity|done|]. by rw /s4 /rb /closed_entry.
    - apply wp_ret. by rw /s4 /rb /closed_entry. }
  intros [] s' ->. apply wp_bind. rw /wp (getp_run _ _ p) // Hroot.
  apply wp_bind, wp_lift. eapply wp_mono; [by apply (unmap_window_wp (mach s2) root T l j last (rb_bufPA r) (rb_book r) n)|].
  intros [] m' (Hvm5 & Hlk5 & Hun5). set (s5 := sput m' s4).
  assert (klk s5 = lk_acq L_ringbuf (klk s)) as Hk5 by by rw /klk /s5 /= Hlk5.
  apply wp_bind. rw /wp (getp_run _ _ p) //. apply wp_bind, wp_gets. change (ringbufs s5) with rb. fold (has_buf (p_pid p) rb).
  assert (can_lock (L_proc ip) s5) as Hcl5.
  { split; rw Hk5; [by apply lk_acq_ok|by rw locked_acq_ne]. }
  apply wp_bind. rw /wp (acquire_k _ _ _ Hcl5). apply wp_bind, wp_modify.
  apply wp_bind. rw /wp (release_acquired s5) //. apply wp_bind. rw /wp (release_acquired s) //.
  split_and!; try done. destruct Hvm5 as [_ Hf5 Hp5 Hs5]. split; try done. split; [done|]. apply Hvm.
Qed.

(** ** Main properties *)

(** C32: closing a name that is not in the table reads past the end of the
    table: the scan runs to [RINGBUF_SIZE] = 16 entries of an array of 10. *)
Theorem closebuf_unknown_undefined s root T l ip p straddr nm opdesc n :
  closer root T l ip p s -> table_wf s -> cstr straddr = Some nm -> first (named nm) (ringbufs s) = None ->
  exists s', closebuf straddr opdesc n s = Undef s'.
Proof.
  intros [Hc Hp Hroot [Hok Hfl] Hpr Hpl Hvm] [Hlen Hent] Hstr Hfi.
  rw /closebuf {1}/mbind {1}/K_bind (lift_Ok _ n s tt (emit here (mach s))); last first.
  { apply printf_plain; [done|done|by repeat constructor]. }
  cbn [bindr]. set (s1 := sput _ s). rw {1}/mbind {1}/K_bind myproc_run //. cbn [bindr]. change (cur s1) with (cur s). rw Hc.
  rw {1}/mbind {1}/K_bind. cbn [the mret K_ret bindr].
  rw {1}/mbind {1}/K_bind acquire_k //. cbn [bindr]. rw {1}/mbind {1}/K_bind.
  rw (find_name_absent RINGBUF_SIZE straddr nm) //; [by eexists| |].
  - change (ringbufs _) with (ringbufs s). rw Hlen. by apply Nat.ltb_lt.
  - change (ringbufs _) with (ringbufs s). eapply Forall_impl; [exact Hent|by intros ? [? _]].
Qed.

Lemma opened_window root T l' ip retv ci r' j s s' : opened root T l' ip retv ci r' j s s' ->
  length (rb_bufPA r') = 16%nat -> window_mapped (leaf (mem (mach s')) T) j (rb_bufPA r') (rb_book r').
Proof.
  intros Ho Hlen i Hi. destruct (win_range j i (op_win _ _ _ _ _ _ _ _ _ _ Ho) Hi) as (Hr & Hm & Hr2).
  rw (op_leaf _ _ _ _ _ _ _ _ _ _ Ho) //; [|rw /MAP_START MAXVA_val in Hr; pose proof MAXVA_val; pglia].
  rw /ring_page. replace (win j + PGSIZE * i - win j) with (i * PGSIZE) by lia. rw (Z.mul_comm PGSIZE) !Z.div_mul //.
  destruct (Z.ltb_spec (i * PGSIZE) (2 * RB_BYTES)); rw /RB_BYTES in H.
  - rw decide_True //. pglia.
  - rw decide_False; [|pglia]. rw decide_True //. winlia.
Qed.

Lemma first_insert {A} (P : A -> Prop) `{!forall x, Decision (P x)} (l : list A) i x :
  first P l = None -> (i < length l)%nat -> P x -> first P (<[i := x]> l) = Some i.
Proof.
  rw /first fmap_None list_find_None. intros Hn Hi Hx.
  rw (proj2 (list_find_Some P (<[i := x]> l) i x)) //. split_and!; [by rw list_lookup_insert_eq|done|].
  intros k y Hy Hk. rw list_lookup_insert_ne in Hy; [|lia]. rw Forall_lookup in Hn. by eapply Hn.
Qed.
Lemma opened_closer root T l l' p0 ip p retv ci r' j s s' :
  caller root T l p0 ip p retv s -> locked L_pr (klk s) = false -> opened root T l' ip retv ci r' j s s' ->
  closer root T l' ip (set_p_validRingBuf 1 p) s'.
Proof.
  intros [Hc Hp Hpt Hcl Hpl Hvm HT Hw Hroom Hub H8 Hsep] Hpr [Hk Htab Hprocs Hcur Hvm' _ _ _ _ _]. split; try done.
  - congruence.
  - rw Hprocs list_lookup_alter_eq Hp //.
  - by rw /can_lock Hk.
  - by rw Hk.
  - by rw Hk.
Qed.
(** Unmapping a window that was free before it was mapped restores every
    address. *)
Lemma unmapped_restores (m m1 m2 : memory) T j pages book va :
  ring_mapped (leaf m T) (leaf m1 T) (win j) pages book -> win_free (leaf m T) j -> 0 <= j < 10 ->
  unmapped (win j) WPAGES (leaf m1 T) (leaf m2 T) -> 0 <= va -> upage m2 T va = upage m T va.
Proof.
  intros Hmap Hfree Hj Hun Hva. rw /upage /uaddr. set (b := va - va mod PGSIZE).
  destruct (Z.leb_spec MAXVA b) as [|Hb]; [done|].
  assert (b mod PGSIZE = 0 /\ 0 <= b) as [Hb0 Hb1].
  { pose proof (Z.div_mod va PGSIZE ltac:(done)) as E. replace b with (va / PGSIZE * PGSIZE) by lia.
    rw Z.mod_mul //. split; [done|]. pose proof (Z.div_pos va PGSIZE Hva ltac:(done)). pglia. }
  rw Hun // Hmap //. destruct (decide (win j <= b < win j + PGSIZE * WPAGES)) as [Hin|Hout].
  - assert (Z.odd (leaf m T b) = false) as ->; [|done].
    destruct (win_offset j (b - win j) Hj) as (_ & E & Hi); [lia|].
    replace (win j + (b - win j)) with b in E by lia. rw Hb0 Z.sub_0_r in E. rw E. by apply Hfree.
  - rw !decide_False //; winlia.
Qed.

(** C31: opening and closing.  A process that creates a buffer, with a name of at
    most seven characters, and closes it again leaves its address space, the
    lock state and the set of free pages as they were, and the entry unused,
    unnamed and without owners. *)
Theorem create_close_roundtrip s root T l p0 ip p retv straddr nm opdesc ci r n :
  caller root T l p0 ip p retv s -> locked L_pr (klk s) = false -> table_wf s -> cstr straddr = Some nm ->
  (length nm <= 7)%nat -> opdesc = 0 \/ opdesc = 1 -> first (named nm) (ringbufs s) = None ->
  first unused (ringbufs s) = Some ci -> ringbufs s !! ci = Some r ->
  (17 <= length l)%nat -> (10 < n)%nat ->
  wp (createbuf straddr opdesc retv;; closebuf straddr opdesc) n s (fun ret s' => ret = 0 /\ klk s' = klk s /\
    (exists r', ringbufs s' = <[ci := r']> (ringbufs s) /\ unused r' /\ named [] r' /\ rb_pidsRW r' = [0; 0]) /\
    (exists l', vm_inv (mach s') root T l' /\ l' ≡ₚ l) /\
    forall va, 0 <= va -> upage (mem (mach s')) T va = upage (mem (mach s)) T va).
Proof.
  intros Hca Hpr Hwf Hstr Hnm7 Hop Hfo Hun Hr Hl Hn. pose proof (lookup_lt_Some _ _ _ Hr) as Hlt.
  pose proof (ca_vm _ _ _ _ _ _ _ _ Hca) as Hvm.
  apply wp_bind. eapply wp_mono; [apply (create_wp s root T l p0 ip p retv straddr nm opdesc None ci r n); (done || by left)|].
  intros _ s1 (_ & j & name' & Hname & Hlen' & Ho). rw take_ge // in Hname.
  set (r1 := Ringbuf _ _ _ _ _ _) in Ho. pose proof Ho as [Hk1 Htab1 Hprocs1 Hcur1 Hvm1 Hj Hfree1 Hmap1 Hleaf1 _].
  destruct (rb_pages_ok true (mach s) l r) as (Hl16 & Hpg & Hbk & Hnew); [apply Hvm| |done|done|].
  { destruct Hwf as [_ Hent]. by apply (Forall_lookup_1 _ _ _ _ Hent Hr). }
  destruct (Hnew eq_refl) as [Hnd El]. rw /rb_pages /rb_book_page in Hl16 Hpg Hbk Hnd El.
  assert (Forall page_ok l) as Hlok by (eapply flist_page_ok, (vi_free _ _ _ _ Hvm)). rw Forall_forall in Hlok.
  assert (NoDup l) as Hndl by apply (vi_free _ _ _ _ Hvm).
  assert (forall q, q ∈ rb_book r1 :: rb_bufPA r1 -> q ∈ l /\ (q ∉ drop 17 l)) as Hin.
  { intros q Hq. apply elem_of_cons in Hq. pose proof Hndl as Hnd2. rw -El in Hnd2. split.
    - rw -El elem_of_app elem_of_cons. simpl in Hq. tauto.
    - apply NoDup_app in Hnd2 as (_ & Hd & [Hb _]%NoDup_cons). destruct Hq as [->|Hq]; [exact Hb|].
      intros Hdr. eapply Hd; [exact Hq|by right]. }
  eapply wp_mono; [apply (closebuf_wp s1 root T (drop 17 l) ip (set_p_validRingBuf 1 p) straddr nm opdesc ci r1 j n); try done|].
  - by eapply opened_closer.
  - destruct Hwf as [Hw1 Hw2]. split; rw Htab1; [by rw length_insert|]. apply Forall_insert; [done|].
    split_and!; [by rw /= Hname|done|by destruct Hop as [-> | ->]|done].
  - rw Htab1. by apply first_insert.
  - by rw Htab1 list_lookup_insert_eq.
  - by apply (opened_window _ _ _ _ _ _ _ _ _ _ Ho).
  - by constructor.
  - intros _. split; [done|]. intros q Hq. destruct (Hin q Hq) as [Hq1 Hq2].
    split_and!; [by apply Hlok|done|]. intros x Hx. by eapply (vi_sep _ _ _ _ Hvm).
  - lia.
  - intros ret s2 (-> & Hk2 & Htab2 & _ & Hvm2 & Hun2). split_and!; [done|congruence| | |].
    + eexists. rw Htab2 Htab1 list_insert_insert_eq. split; [done|]. split_and!; [done| |by destruct Hop as [-> | ->]].
      rw /named /=. destruct name'; [done|]. done.
    + eexists. split; [exact Hvm2|]. rw /freed /= -{4}El. rw rev_app_distr /= -Permutation_rev. apply Permutation_middle.
    + intros va Hva. by eapply unmapped_restores.
Qed.
End close.

(** ** The theorems on a concrete state *)

#[local] Existing Instance small_layout.

Lemma demo_closer rb : closer (pg 0) TA demo_free 0 (demo_proc 1 (pg 0) (pg 5) RUNNING) (set_ringbufs rb kdemo).
Proof.
  split; try done.
  - split; [apply lk_ok_zero|done].
  - by apply (demo_inv 0); left.
Qed.

Lemma closebuf_unknown_undefined_witness :
  exists s', closebuf (cstring "ring") 0 20%nat kdemo = Undef s'.
Proof.
  apply (closebuf_unknown_undefined kdemo (pg 0) TA demo_free 0 (demo_proc 1 (pg 0) (pg 5) RUNNING)
    (cstring "ring") (bytes_of_string "ring") 0 20).
  - exact (demo_closer (ringbufs kdemo)).
  - exact kdemo_table.
  - reflexivity.
  - reflexivity.
Defined.

Lemma create_close_roundtrip_witness :
  wp (createbuf (cstring "ring") 0 16;; closebuf (cstring "ring") 0) 20 kdemo (fun ret s' => ret = 0 /\
    forall va, 0 <= va -> upage (mem (mach s')) TA va = upage (mem (mach kdemo)) TA va).
Proof.
  eapply wp_mono; [apply (create_close_roundtrip kdemo (pg 0) TA demo_free (pg 2) 0
    (demo_proc 1 (pg 0) (pg 5) RUNNING) 16 (cstring "ring") (bytes_of_string "ring") 0 0 zero_ringbuf 20)|].
  - exact (demo_caller (ringbufs kdemo)).
  - reflexivity.
  - exact kdemo_table.
  - reflexivity.
  - vm_compute. lia.
  - by left.
  - reflexivity.
  - reflexivity.
  - reflexivity.
  - vm_compute. lia.
  - lia.
  - intros ret s' (-> & _ & _ & _ & H). split; [reflexivity|exact H].
Defined.
