(* ===== verification/FastIpc.v ===== *)
(** * [user/fastipc.h]

    The user side of FastIPC: a table of open buffers and the calls that
    reserve and release parts of a buffer.  Reader and writer share the two
    counters of the book page; every atomic load and store of a counter is a
    scheduling point (the outcome [Sched]), so that the model covers all
    interleavings of the two processes.

    The system calls are a parameter, [RingSys]. *)

From S2P Require Import Prelude Mem KString Spinlock Machine Printf.

Definition BUF_SIZE : Z := 65536.
Definition BOOKOFFSET : Z := 131072.
Definition MAX_USER_RINGBUFS : nat := 10.

(** [struct user_ring_buf] *)
Record uring := URing {
  u_buf : Z;
  u_book : Z;
  u_exists : Z;
  u_name : list Z;
}.

(** The memory the processes share, the table of the calling process, and what
    it printed. *)
Record ustate := UState {
  umem : memory;
  utab : list uring;
  uout : list (string * list arg);
}.
Definition set_umem (x : memory) (s : ustate) : ustate := UState x (utab s) (uout s).
Definition set_utab (x : list uring) (s : ustate) : ustate := UState (umem s) x (uout s).
Definition set_uout (x : list (string * list arg)) (s : ustate) : ustate := UState (umem s) (utab s) x.

(** The system calls: [createbuf] returns its result and the address it stored
    through its last argument. *)
Class RingSys := {
  sys_createbuf : list Z -> Z -> K ustate (Z * Z);
  sys_closebuf : list Z -> Z -> K ustate Z;
}.

Section fastipc.
Context {sys : RingSys}.

Definition uprintf (fmt : string) (args : list arg) : K ustate unit :=
  modify (fun s => set_uout (uout s ++ [(fmt, args)]) s).
(** [exit(1)] ends the run. *)
Definition exit1 {A} : K ustate A := panic "exit(1)".

(** Another process may run here. *)
Definition atomic_point : K ustate unit := fun _ s => Sched s (fun s' => Ok tt s').

(** [store] and [load]: the value passes through an [int]. *)
Definition store (p v : Z) : K ustate unit :=
  atomic_point;;
  modify (fun s => set_umem (st64 (umem s) p (u64 (i32 v))) s).
Definition load (p : Z) : K ustate Z :=
  atomic_point;;
  gets (fun s => i32 (ld64 (umem s) p)).

(** [&book->read_done] and [&book->write_done] *)
Definition read_done (book : Z) : Z := book.
Definition write_done (book : Z) : Z := book + 8.

Definition setu (i : Z) (f : uring -> uring) : K ustate unit :=
  modify (fun s => set_utab (alter f (Z.to_nat i) (utab s)) s).

(** [strcpy(name, t)] into an array of the size of [name]. *)
Definition strcpy (name t : list Z) : K ustate (list Z) :=
  match cstr t with
  | None => undef
  | Some a => if (length a <? length name)%nat then mret (a ++ 0 :: drop (S (length a)) name) else undef
  end.

Definition createRingBuf (straddr : list Z) (opdesc : Z) : K ustate Z :=
  '(exists_, ringbuf) ← sys_createbuf straddr opdesc;
  if exists_ =? -1 then uprintf (nl +:+ "Ringbuf could not be created" +:+ nl) [];; mret (-1) else
  match strlen straddr with
  | None => undef
  | Some len =>
    if 16 <? len then uprintf (nl +:+ "Sizeof Name is > 16 : %d" +:+ nl) [AInt len];; mret (-1) else
    r ← for_exit (rangeZ MAX_USER_RINGBUFS) (fun i =>
      t ← gets utab; e ← arr_get t i;
      if u_exists e =? 1 then mret None else
      let book := ringbuf + BOOKOFFSET in
      setu i (fun e => URing ringbuf book (u_exists e) (u_name e));;
      (if negb (exists_ =? 0) then store (read_done book) 0;; store (write_done book) 0
       else setu i (fun e => URing (u_buf e) (u_book e) 1 (u_name e)));;
      t ← gets utab; e ← arr_get t i;
      name ← strcpy (u_name e) straddr;
      setu i (fun e => URing (u_buf e) (u_book e) (u_exists e) name);;
      mret (Some i));
    match r with
    | Some i => mret i
    | None => uprintf (nl +:+ "Max Ringbuf Limit Reached" +:+ nl) [];; mret (-1)
    end
  end.

(** The check every call makes of its descriptor; [None]: it failed. *)
Definition descriptor (rd : Z) : K ustate (option uring) :=
  if Z.of_nat MAX_USER_RINGBUFS <? rd then mret None else
  t ← gets utab; e ← arr_get t rd;
  mret (if u_exists e =? 1 then Some e else None).

Definition closeRingBuf (straddr : list Z) (rd opdesc : Z) : K ustate Z :=
  d ← descriptor rd;
  match d with
  | None => uprintf ("Invalid Descriptor for Close: %d" +:+ nl) [AInt rd];; mret (-1)
  | Some e =>
    match strcmp (u_name e) straddr with
    | None => undef
    | Some c =>
      if negb (c =? 0) then
        uprintf ("Invalid Name for Descriptor: %s :: %s" +:+ nl) [AStr (Some straddr); AStr (Some (u_name e))];;
        mret (-1)
      else
        setu rd (fun e => URing (u_buf e) (u_book e) 0 (u_name e));;
        sys_closebuf straddr opdesc
    end
  end.

(** The result, [*addr] and [*bytes]; [None] when they are not written. *)
Definition ringbuf_start_write (rd : Z) : K ustate (Z * option (Z * Z)) :=
  d ← descriptor rd;
  match d with
  | None => uprintf ("Invalid Descriptor for Read Start: %d" +:+ nl) [AInt rd];; mret (-1, None)
  | Some e =>
    read ← load (read_done (u_book e));
    write ← load (write_done (u_book e));
    let free := u64 (BUF_SIZE - u64 (u64 write - u64 read)) in
    if free <? 0 then uprintf ("Start Write: Buffer is -ve" +:+ nl) [];; exit1 else
    mret (0, Some (u_buf e, i32 free))
  end.

Definition ringbuf_finish_write (rd bytes : Z) : K ustate Z :=
  d ← descriptor rd;
  match d with
  | None => uprintf ("Invalid Descriptor for Read Start: %d" +:+ nl) [AInt rd];; mret (-1)
  | Some e =>
    write ← load (write_done (u_book e));
    store (write_done (u_book e)) (u64 (u64 write + bytes));;
    mret 0
  end.

Definition ringbuf_start_read (rd : Z) : K ustate (Z * option (Z * Z)) :=
  d ← descriptor rd;
  match d with
  | None => uprintf ("Invalid Descriptor for Read Start: %d" +:+ nl) [AInt rd];; mret (-1, None)
  | Some e =>
    read ← load (read_done (u_book e));
    write ← load (write_done (u_book e));
    if u64 (BUF_SIZE - u64 (u64 write - u64 read)) <? 0
    then uprintf ("Start Read: Buffer is -ve" +:+ nl) [];; exit1 else
    mret (0, Some (u_buf e, i32 (u64 (u64 write - u64 read))))
  end.

Definition ringbuf_finish_read (rd bytes : Z) : K ustate Z :=
  d ← descriptor rd;
  match d with
  | None => uprintf ("Invalid Descriptor for Read Start: %d" +:+ nl) [AInt rd];; mret (-1)
  | Some e =>
    read ← load (read_done (u_book e));
    store (read_done (u_book e)) (u64 (u64 read + bytes));;
    mret 0
  end.

End fastipc.
