(* ===== verification/FastIpcSpec.v ===== *)
(** * The FastIPC counters under interleaving

    A writer and a reader process use a ring buffer through the calls of
    [user/fastipc.h]: the writer asks for room and commits at most what it was
    offered, the reader asks for data and consumes at most what it was offered.
    [istep] interleaves the two at every atomic access to the counters. *)

From stdpp Require Import relations.
From S2P Require Import Prelude Mem KString Spinlock Machine Printf FastIpc.

(** ** Arithmetic of the counters *)

Lemma i32_cong a b : a mod 2 ^ 32 = b mod 2 ^ 32 -> i32 a = i32 b.
Proof. intros E. by rw /i32 /u32 E. Qed.
Lemma u64_mod32 a : u64 a mod 2 ^ 32 = a mod 2 ^ 32.
Proof.
  rw /u64 {2}(Z.div_mod a (2 ^ 64)) //. change (2 ^ 64) with (2 ^ 32 * 2 ^ 32) at 2.
  rw -Z.mul_assoc Z.add_comm Z.mul_comm Z.mod_add //.
Qed.
(** A counter passes unharmed, modulo 2^32, through [int] and back. *)
Lemma cell_mod32 a : u64 (i32 a) mod 2 ^ 32 = a mod 2 ^ 32.
Proof. by rw u64_mod32 i32_mod. Qed.
Lemma i32_cell a : i32 (u64 (i32 a)) = i32 a.
Proof. apply i32_cong, cell_mod32. Qed.

(** The distance of two counters, computed on their truncated values. *)
Lemma distance_mod32 w r : u64 (u64 (i32 w) - u64 (i32 r)) mod 2 ^ 32 = (w - r) mod 2 ^ 32.
Proof. by rw u64_mod32 Zminus_mod !cell_mod32 -Zminus_mod. Qed.
Lemma counter_distance w r :
  0 <= w - r < 2 ^ 31 -> i32 (u64 (u64 (i32 w) - u64 (i32 r))) = w - r.
Proof.
  intros H. rw -(i32_small (w - r)); [|lia]. apply i32_cong, distance_mod32.
Qed.
Lemma counter_room w r :
  0 <= w - r <= BUF_SIZE ->
  i32 (u64 (BUF_SIZE - u64 (u64 (i32 w) - u64 (i32 r)))) = BUF_SIZE - (w - r).
Proof.
  intros H. rw -(i32_small (BUF_SIZE - (w - r))); [|rw /BUF_SIZE in H |- *; lia].
  apply i32_cong. by rw u64_mod32 Zminus_mod distance_mod32 -Zminus_mod.
Qed.
Lemma counter_add w n : i32 (u64 (u64 (i32 w) + n)) = i32 (w + n).
Proof. apply i32_cong. by rw u64_mod32 Z.add_mod // cell_mod32 -Z.add_mod. Qed.

(** ** The two processes *)

Section clients.
Context {sys : RingSys}.

(** The writer commits each amount of the list that fits what
    [ringbuf_start_write] offers and reports it; the others it drops. *)
Definition report (r n : Z) : K ustate unit := when (r =? 0) (uprintf "%d" [AInt n]).
Fixpoint writer (rd : Z) (amounts : list Z) : K ustate unit :=
  match amounts with
  | [] => mret tt
  | n :: amounts' =>
    '(_, o) ← ringbuf_start_write rd;
    match o with
    | None => mret tt
    | Some (_, bytes) =>
      if n <=? bytes then r ← ringbuf_finish_write rd n; report r n;; writer rd amounts' else writer rd amounts'
    end
  end.
Fixpoint reader (rd : Z) (amounts : list Z) : K ustate unit :=
  match amounts with
  | [] => mret tt
  | n :: amounts' =>
    '(_, o) ← ringbuf_start_read rd;
    match o with
    | None => mret tt
    | Some (_, bytes) =>
      if n <=? bytes then r ← ringbuf_finish_read rd n; report r n;; reader rd amounts' else reader rd amounts'
    end
  end.

(** The sum of the amounts a process reported. *)
Fixpoint committed (o : list (string * list arg)) : Z :=
  match o with
  | [] => 0
  | (_, args) :: o' => match args with [AInt n] => n | _ => 0 end + committed o'
  end.

(** A process: its own table and output, and what it does next. *)
Record proc_ := Proc_ {
  pr_tab : list uring;
  pr_out : list (string * list arg);
  pr_next : option (ustate -> res ustate unit);
}.
Record ipc := Ipc { ipc_mem : memory; ipc_w : proc_; ipc_r : proc_ }.

(** A process runs up to its next atomic access, or ends. *)
Inductive pstep : memory -> proc_ -> memory -> proc_ -> Prop :=
| pstep_sched m t o k s' k' :
    k (UState m t o) = Sched s' k' ->
    pstep m (Proc_ t o (Some k)) (umem s') (Proc_ (utab s') (uout s') (Some k'))
| pstep_done m t o k s' :
    k (UState m t o) = Ok tt s' ->
    pstep m (Proc_ t o (Some k)) (umem s') (Proc_ (utab s') (uout s') None).
Inductive istep : ipc -> ipc -> Prop :=
| istep_w m w r m' w' : pstep m w m' w' -> istep (Ipc m w r) (Ipc m' w' r)
| istep_r m w r m' r' : pstep m r m' r' -> istep (Ipc m w r) (Ipc m' w r').

(** *** Program points of the two processes *)

(** Before a call; before the load of [read_done], of [write_done]; before the
    load and the store of the commit. *)
Inductive wpc :=
| W0 (l : list Z) | W1 (n : Z) (l : list Z) | W2 (n : Z) (l : list Z) (rv : Z)
| W3 (n : Z) (l : list Z) | W4 (n : Z) (l : list Z) (v : Z).

Context (rdw rdr : Z) (ew er : uring).

(** What follows the two loads of a start call. *)
Definition w_tail (n : Z) (l : list Z) (read write : Z) : K ustate unit :=
  '(_, o) ← (let free := u64 (BUF_SIZE - u64 (u64 write - u64 read)) in
    if free <? 0 then uprintf ("Start Write: Buffer is -ve" +:+ nl) [];; exit1 else
    mret (0, Some (u_buf ew, i32 free)));
  match o with
  | None => mret tt
  | Some (_, bytes) => if n <=? bytes then r ← ringbuf_finish_write rdw n; report r n;; writer rdw l else writer rdw l
  end.
Definition r_tail (n : Z) (l : list Z) (read write : Z) : K ustate unit :=
  '(_, o) ← (if u64 (BUF_SIZE - u64 (u64 write - u64 read)) <? 0
    then uprintf ("Start Read: Buffer is -ve" +:+ nl) [];; exit1 else
    mret (0, Some (u_buf er, i32 (u64 (u64 write - u64 read)))));
  match o with
  | None => mret tt
  | Some (_, bytes) => if n <=? bytes then r ← ringbuf_finish_read rdr n; report r n;; reader rdr l else reader rdr l
  end.

Definition w_cont (pc : wpc) : K ustate unit :=
  match pc with
  | W0 l => writer rdw l
  | W1 n l =>
    read ← gets (fun s => i32 (ld64 (umem s) (read_done (u_book ew))));
    write ← load (write_done (u_book ew)); w_tail n l read write
  | W2 n l read =>
    write ← gets (fun s => i32 (ld64 (umem s) (write_done (u_book ew)))); w_tail n l read write
  | W3 n l =>
    write ← gets (fun s => i32 (ld64 (umem s) (write_done (u_book ew))));
    store (write_done (u_book ew)) (u64 (u64 write + n));; report 0 n;; writer rdw l
  | W4 n l v =>
    modify (fun s => set_umem (st64 (umem s) (write_done (u_book ew)) (u64 (i32 v))) s);;
    report 0 n;; writer rdw l
  end.
Definition r_cont (pc : wpc) : K ustate unit :=
  match pc with
  | W0 l => reader rdr l
  | W1 n l =>
    read ← gets (fun s => i32 (ld64 (umem s) (read_done (u_book er))));
    write ← load (write_done (u_book er)); r_tail n l read write
  | W2 n l read =>
    write ← gets (fun s => i32 (ld64 (umem s) (write_done (u_book er)))); r_tail n l read write
  | W3 n l =>
    read ← gets (fun s => i32 (ld64 (umem s) (read_done (u_book er))));
    store (read_done (u_book er)) (u64 (u64 read + n));; report 0 n;; reader rdr l
  | W4 n l v =>
    modify (fun s => set_umem (st64 (umem s) (read_done (u_book er)) (u64 (i32 v))) s);;
    report 0 n;; reader rdr l
  end.

(** The table of a process has descriptor [rd] open on the buffer [e]. *)
Definition opened (t : list uring) (rd : Z) (e : uring) : Prop :=
  0 <= rd < 10 /\ t !! Z.to_nat rd = Some e /\ u_exists e = 1.

Lemma descriptor_run t rd e o m n :
  opened t rd e -> descriptor rd n (UState m t o) = Ok (Some e) (UState m t o).
Proof.
  intros (Hr & He & Hx). rw /descriptor (proj2 (Z.ltb_ge _ _)); [|rw /MAX_USER_RINGBUFS; lia].
  rw /mbind /K_bind /= /arr_get (proj2 (Z.ltb_ge _ _)); [|lia]. by rw He /= Hx.
Qed.

(** A suspended run that goes on as [c]. *)
Definition goes (r : res ustate unit) (s : ustate) (c : K ustate unit) (N : nat) : Prop :=
  exists k, r = Sched s k /\ forall s', k s' = c N s'.

Lemma u64_not_neg a : (u64 a <? 0) = false.
Proof. apply Z.ltb_ge. pose proof (u64_range a). lia. Qed.

Lemma w_tail_run n l read write N s :
  w_tail n l read write N s =
    (if n <=? i32 (u64 (BUF_SIZE - u64 (u64 write - u64 read)))
     then r ← ringbuf_finish_write rdw n; report r n;; writer rdw l else writer rdw l) N s.
Proof. rw /w_tail u64_not_neg. reflexivity. Qed.
Lemma r_tail_run n l read write N s :
  r_tail n l read write N s =
    (if n <=? i32 (u64 (u64 write - u64 read))
     then r ← ringbuf_finish_read rdr n; report r n;; reader rdr l else reader rdr l) N s.
Proof. rw /r_tail u64_not_neg. reflexivity. Qed.

Section steps.
Context (m : memory) (o : list (string * list arg)) (N : nat).

Section writer_steps.
Context (t : list uring) (Ho : opened t rdw ew).
Abbreviation s := (UState m t o).

Lemma writer_W0 n l : goes (w_cont (W0 (n :: l)) N s) s (w_cont (W1 n l)) N.
Proof.
  eexists. split; [|reflexivity].
  rw /= /mbind /K_bind /ringbuf_start_write /mbind /K_bind (descriptor_run _ _ _ _ _ _ Ho). reflexivity.
Qed.
Lemma writer_W1 n l : goes (w_cont (W1 n l) N s) s
  (w_cont (W2 n l (i32 (ld64 m (read_done (u_book ew)))))) N.
Proof. by eexists. Qed.
Lemma writer_W2 n l rv :
  let room := i32 (u64 (BUF_SIZE - u64 (u64 (i32 (ld64 m (write_done (u_book ew)))) - u64 rv))) in
  if n <=? room then goes (w_cont (W2 n l rv) N s) s (w_cont (W3 n l)) N
  else w_cont (W2 n l rv) N s = w_cont (W0 l) N s.
Proof.
  intros room. assert (w_cont (W2 n l rv) N s = w_tail n l rv (i32 (ld64 m (write_done (u_book ew)))) N s)
    as -> by done.
  rw w_tail_run. fold room. destruct (n <=? room); [|done]. eexists. split; [|reflexivity].
  rw /mbind /K_bind /ringbuf_finish_write /mbind /K_bind (descriptor_run _ _ _ _ _ _ Ho). reflexivity.
Qed.
Lemma writer_W3 n l : goes (w_cont (W3 n l) N s) s
  (w_cont (W4 n l (u64 (u64 (i32 (ld64 m (write_done (u_book ew)))) + n)))) N.
Proof. by eexists. Qed.
Lemma writer_W4 n l v :
  w_cont (W4 n l v) N s =
  w_cont (W0 l) N (UState (st64 m (write_done (u_book ew)) (u64 (i32 v))) t (o ++ [("%d", [AInt n])])).
Proof. done. Qed.
End writer_steps.

Section reader_steps.
Context (t : list uring) (Ho : opened t rdr er).
Abbreviation s := (UState m t o).

Lemma reader_W0 n l : goes (r_cont (W0 (n :: l)) N s) s (r_cont (W1 n l)) N.
Proof.
  eexists. split; [|reflexivity].
  rw /= /mbind /K_bind /ringbuf_start_read /mbind /K_bind (descriptor_run _ _ _ _ _ _ Ho). reflexivity.
Qed.
Lemma reader_W1 n l : goes (r_cont (W1 n l) N s) s
  (r_cont (W2 n l (i32 (ld64 m (read_done (u_book er)))))) N.
Proof. by eexists. Qed.
Lemma reader_W2 n l rv :
  let avail := i32 (u64 (u64 (i32 (ld64 m (write_done (u_book er)))) - u64 rv)) in
  if n <=? avail then goes (r_cont (W2 n l rv) N s) s (r_cont (W3 n l)) N
  else r_cont (W2 n l rv) N s = r_cont (W0 l) N s.
Proof.
  intros avail. assert (r_cont (W2 n l rv) N s = r_tail n l rv (i32 (ld64 m (write_done (u_book er)))) N s)
    as -> by done.
  rw r_tail_run. fold avail. destruct (n <=? avail); [|done]. eexists. split; [|reflexivity].
  rw /mbind /K_bind /ringbuf_finish_read /mbind /K_bind (descriptor_run _ _ _ _ _ _ Ho). reflexivity.
Qed.
Lemma reader_W3 n l : goes (r_cont (W3 n l) N s) s
  (r_cont (W4 n l (u64 (u64 (i32 (ld64 m (read_done (u_book er)))) + n)))) N.
Proof. by eexists. Qed.
Lemma reader_W4 n l v :
  r_cont (W4 n l v) N s =
  r_cont (W0 l) N (UState (st64 m (read_done (u_book er)) (u64 (i32 v))) t (o ++ [("%d", [AInt n])])).
Proof. done. Qed.
End reader_steps.
End steps.

(** *** The invariant *)

(** The cells of the book hold the counts [r] and [w], cut to an [int]. *)
Record book_inv (m : memory) (b r w : Z) : Prop := {
  bk_read : ld64 m (read_done b) = u64 (i32 r);
  bk_write : ld64 m (write_done b) = u64 (i32 w);
  bk_dist : 0 <= w - r <= BUF_SIZE;
}.

Definition sizes (l : list Z) : Prop := Forall (fun n => 0 <= n) l.
Definition w_at (pc : wpc) (r w : Z) : Prop :=
  match pc with
  | W0 l => sizes l
  | W1 n l => sizes (n :: l)
  | W2 n l rv => sizes (n :: l) /\ exists r0, rv = i32 r0 /\ r0 <= r /\ w - r0 <= BUF_SIZE
  | W3 n l => sizes (n :: l) /\ w + n - r <= BUF_SIZE
  | W4 n l v => sizes (n :: l) /\ w + n - r <= BUF_SIZE /\ v = u64 (u64 (i32 w) + n)
  end.
Definition r_at (pc : wpc) (r w : Z) : Prop :=
  match pc with
  | W0 l => sizes l
  | W1 n l => sizes (n :: l)
  | W2 n l rv => sizes (n :: l) /\ rv = i32 r
  | W3 n l => sizes (n :: l) /\ n <= w - r
  | W4 n l v => sizes (n :: l) /\ n <= w - r /\ v = u64 (u64 (i32 r) + n)
  end.

(** What one process does leaves the other where it was. *)
Lemma w_at_mono pc r r' w : r <= r' -> w_at pc r w -> w_at pc r' w.
Proof.
  intros Hr. destruct pc; simpl; try done.
  - intros (Hs & r0 & -> & ? & ?). split; [done|]. exists r0. split_and!; [done|lia|lia].
  - intros [? ?]. split; [done|lia].
  - intros (? & ? & ?). split_and!; [done|lia|done].
Qed.
Lemma r_at_mono pc r w w' : w <= w' -> r_at pc r w -> r_at pc r w'.
Proof.
  intros Hw. destruct pc; simpl; try done.
  - intros [? ?]. split; [done|lia].
  - intros (? & ? & ?). split_and!; [done|lia|done].
Qed.

Lemma committed_app o o' : committed (o ++ o') = committed o + committed o'.
Proof. induction o as [|[f a] o IH]; [done|]. cbn. rw IH. lia. Qed.
Lemma committed_one o n : committed (o ++ [("%d", [AInt n])]) = committed o + n.
Proof. rw committed_app /=. lia. Qed.

(** The outcome of a run up to the next access, from a known point. *)
Definition advances (cont : wpc -> K ustate unit) (at_ : wpc -> Z -> Z -> Prop) N r w
    (x : res ustate unit) (s : ustate) : Prop :=
  x = Ok tt s \/ exists pc, goes x s (cont pc) N /\ at_ pc r w.

Lemma writer_idle m t o N l r w :
  opened t rdw ew -> sizes l ->
  advances w_cont w_at N r w (w_cont (W0 l) N (UState m t o)) (UState m t o).
Proof.
  intros Ho Hl. destruct l as [|n l]; [by left|]. right. exists (W1 n l).
  split; [by apply writer_W0|done].
Qed.
Lemma reader_idle m t o N l r w :
  opened t rdr er -> sizes l ->
  advances r_cont r_at N r w (r_cont (W0 l) N (UState m t o)) (UState m t o).
Proof.
  intros Ho Hl. destruct l as [|n l]; [by left|]. right. exists (W1 n l).
  split; [by apply reader_W0|done].
Qed.

Lemma sizes_tail n l : sizes (n :: l) -> 0 <= n /\ sizes l.
Proof. apply Forall_cons_1. Qed.

Lemma writer_advances m t o N pc r w0 :
  opened t rdw ew -> book_inv m (u_book ew) r (w0 + committed o) -> w_at pc r (w0 + committed o) ->
  exists m' o', committed o <= committed o' /\ book_inv m' (u_book ew) r (w0 + committed o') /\
    advances w_cont w_at N r (w0 + committed o') (w_cont pc N (UState m t o)) (UState m' t o').
Proof.
  intros Ho Hb Hat. pose proof Hb as [Hbr Hbw Hd]. destruct pc as [l|n l|n l rv|n l|n l v]; simpl in Hat.
  - exists m, o. split_and!; [lia|done|by apply writer_idle].
  - exists m, o. split_and!; [lia|done|]. right. eexists. split; [apply writer_W1|].
    split; [done|]. exists r. rw Hbr i32_cell. split_and!; [done|lia|lia].
  - destruct Hat as (Hs & r0 & -> & Hr0 & Hr1). exists m, o. split_and!; [lia|done|].
    pose proof (writer_W2 m o N t Ho n l (i32 r0)) as Hw. cbv zeta in Hw.
    rw Hbw i32_cell counter_room in Hw; [|lia]. case_match; zbool.
    + right. exists (W3 n l). split; [done|]. split; [done|lia].
    + rw Hw. apply writer_idle; [done|]. by apply sizes_tail in Hs as [_ ?].
  - destruct Hat as [Hs Hn]. exists m, o. split_and!; [lia|done|]. right. eexists.
    split; [apply writer_W3|]. by rw Hbw i32_cell.
  - destruct Hat as (Hs & Hn & ->). apply sizes_tail in Hs as [Hn0 Hs].
    rw writer_W4. set (m' := st64 _ _ _). exists m', (o ++ [("%d", [AInt n])]).
    split_and!; [rw committed_one; lia| |by apply writer_idle]. rw committed_one Z.add_assoc. split; [..|lia].
    + rw /m' ld64_st64_ne //. rw /write_done /read_done. lia.
    + rw /m' ld64_st64_eq counter_add /u64 Z.mod_mod //.
Qed.

Lemma reader_advances m t o N pc r0 w :
  opened t rdr er -> book_inv m (u_book er) (r0 + committed o) w -> r_at pc (r0 + committed o) w ->
  exists m' o', committed o <= committed o' /\ book_inv m' (u_book er) (r0 + committed o') w /\
    advances r_cont r_at N (r0 + committed o') w (r_cont pc N (UState m t o)) (UState m' t o').
Proof.
  intros Ho Hb Hat. pose proof Hb as [Hbr Hbw Hd]. destruct pc as [l|n l|n l rv|n l|n l v]; simpl in Hat.
  - exists m, o. split_and!; [lia|done|by apply reader_idle].
  - exists m, o. split_and!; [lia|done|]. right. eexists. split; [apply reader_W1|].
    split; [done|]. by rw Hbr i32_cell.
  - destruct Hat as (Hs & ->). exists m, o. split_and!; [lia|done|].
    pose proof (reader_W2 m o N t Ho n l (i32 (r0 + committed o))) as Hr. cbv zeta in Hr.
    rw Hbw i32_cell counter_distance in Hr; [|rw /BUF_SIZE in Hd; lia]. case_match; zbool.
    + right. exists (W3 n l). split; [done|]. split; [done|lia].
    + rw Hr. apply reader_idle; [done|]. by apply sizes_tail in Hs as [_ ?].
  - destruct Hat as [Hs Hn]. exists m, o. split_and!; [lia|done|]. right. eexists.
    split; [apply reader_W3|]. by rw Hbr i32_cell.
  - destruct Hat as (Hs & Hn & ->). apply sizes_tail in Hs as [Hn0 Hs].
    rw reader_W4. set (m' := st64 _ _ _). exists m', (o ++ [("%d", [AInt n])]).
    split_and!; [rw committed_one; lia| |by apply reader_idle]. rw committed_one Z.add_assoc. split; [..|lia].
    + rw /m' ld64_st64_eq counter_add /u64 Z.mod_mod //.
    + rw /m' ld64_st64_ne //. rw /write_done /read_done. lia.
Qed.

(** A process at some point of its program, with its descriptor open. *)
Definition proc_at (cont : wpc -> K ustate unit) (at_ : wpc -> Z -> Z -> Prop) (rd : Z) (e : uring)
    (N : nat) (r w : Z) (p : proc_) : Prop :=
  opened (pr_tab p) rd e /\
  match pr_next p with
  | None => True
  | Some k => exists pc, (forall s, k s = cont pc N s) /\ at_ pc r w
  end.
(** The counts are those of the start plus what each process reported. *)
Definition ipc_inv (N : nat) (r0 w0 : Z) (st : ipc) : Prop :=
  let r := r0 + committed (pr_out (ipc_r st)) in
  let w := w0 + committed (pr_out (ipc_w st)) in
  book_inv (ipc_mem st) (u_book ew) r w /\
  proc_at w_cont w_at rdw ew N r w (ipc_w st) /\ proc_at r_cont r_at rdr er N r w (ipc_r st).

Lemma advances_pstep cont at_ rd e N r w m p m' p' k mem' o' :
  pr_next p = Some k -> opened (pr_tab p) rd e ->
  advances cont at_ N r w (k (UState m (pr_tab p) (pr_out p))) (UState mem' (pr_tab p) o') ->
  pstep m p m' p' -> m' = mem' /\ pr_out p' = o' /\ proc_at cont at_ rd e N r w p'.
Proof.
  intros Hk Ho Ha Hp. destruct Hp as [m t o k0 s' k' E|m t o k0 s' E]; simpl in *; simplify_eq.
  - destruct Ha as [Ha|(pc & (k1 & Ek & Hk1) & Hat)]; [congruence|].
    rw E in Ek. simplify_eq. split_and!; [done|done|]. split; [done|]. simpl. by exists pc.
  - destruct Ha as [Ha|(pc & (k1 & Ek & _) & _)]; [|congruence]. rw E in Ha. simplify_eq. done.
Qed.

Lemma proc_at_mono_r N r r' w p : r <= r' ->
  proc_at w_cont w_at rdw ew N r w p -> proc_at w_cont w_at rdw ew N r' w p.
Proof.
  intros Hr [Ho Hn]. split; [done|]. destruct (pr_next p); [|done].
  destruct Hn as (pc & ? & ?). exists pc. split; [done|]. by eapply w_at_mono.
Qed.
Lemma proc_at_mono_w N r w w' p : w <= w' ->
  proc_at r_cont r_at rdr er N r w p -> proc_at r_cont r_at rdr er N r w' p.
Proof.
  intros Hr [Ho Hn]. split; [done|]. destruct (pr_next p); [|done].
  destruct Hn as (pc & ? & ?). exists pc. split; [done|]. by eapply r_at_mono.
Qed.

Lemma pstep_next m p m' p' : pstep m p m' p' -> exists k, pr_next p = Some k.
Proof. destruct 1; by eexists. Qed.

Lemma ipc_inv_step N r0 w0 st st' :
  u_book er = u_book ew -> ipc_inv N r0 w0 st -> istep st st' -> ipc_inv N r0 w0 st'.
Proof.
  intros Hbook (Hb & Hw & Hr) Hstep.
  destruct Hstep as [m pw pr m' pw' Hp|m pw pr m' pr' Hp]; simpl in *.
  - destruct (pstep_next _ _ _ _ Hp) as [k Hk]. destruct Hw as [Ho Hn]. rw Hk in Hn.
    destruct Hn as (pc & Epc & Hat).
    destruct (writer_advances m (pr_tab pw) (pr_out pw) N pc (r0 + committed (pr_out pr)) w0)
      as (mem' & o' & Hle & Hb' & Ha); [done..|].
    rw -Epc in Ha. destruct (advances_pstep _ _ rdw ew _ _ _ _ _ _ _ _ _ _ Hk Ho Ha Hp) as (-> & <- & Hw').
    split_and!; [done|done|eapply proc_at_mono_w; [|exact Hr]]. simpl. lia.
  - destruct (pstep_next _ _ _ _ Hp) as [k Hk]. destruct Hr as [Ho Hn]. rw Hk in Hn.
    destruct Hn as (pc & Epc & Hat).
    destruct (reader_advances m (pr_tab pr) (pr_out pr) N pc r0 (w0 + committed (pr_out pw)))
      as (mem' & o' & Hle & Hb' & Ha); [done|by rw Hbook|done|].
    rw -Epc in Ha. destruct (advances_pstep _ _ rdr er _ _ _ _ _ _ _ _ _ _ Hk Ho Ha Hp) as (-> & <- & Hr').
    split_and!; [by rw /= -Hbook|eapply proc_at_mono_r; [|exact Hw]|done]. simpl. lia.
Qed.
Lemma ipc_inv_steps N r0 w0 st st' :
  u_book er = u_book ew -> rtc istep st st' -> ipc_inv N r0 w0 st -> ipc_inv N r0 w0 st'.
Proof. intros Hbook. induction 1 as [|? ? ? Hs _ IH]; [done|]. intros HI. apply IH. by eapply ipc_inv_step. Qed.

(** A process that is not done can go on. *)
Lemma advances_steps cont at_ N r w m mem' o' p k : pr_next p = Some k ->
  advances cont at_ N r w (k (UState m (pr_tab p) (pr_out p))) (UState mem' (pr_tab p) o') ->
  exists m' p', pstep m p m' p'.
Proof.
  destruct p as [t o nx]. intros Hk Ha. simpl in *. subst nx.
  destruct Ha as [Ha|(pc & (k' & Ha & _) & _)]; do 2 eexists; [by eapply pstep_done|by eapply pstep_sched].
Qed.
Lemma ipc_inv_goes N r0 w0 st p k : u_book er = u_book ew -> ipc_inv N r0 w0 st ->
  p = ipc_w st \/ p = ipc_r st -> pr_next p = Some k -> exists m' p', pstep (ipc_mem st) p m' p'.
Proof.
  intros Hbook (Hb & [Ho1 Hw] & [Ho2 Hr]) [-> | ->] Hk.
  - rw Hk in Hw. destruct Hw as (pc & Epc & Hat).
    destruct (writer_advances _ _ _ N pc _ w0 Ho1 Hb Hat) as (m' & o' & _ & _ & Ha).
    rw -Epc in Ha. by eapply advances_steps.
  - rw Hk in Hr. destruct Hr as (pc & Epc & Hat). rw -Hbook in Hb.
    destruct (reader_advances _ _ _ N pc r0 _ Ho2 Hb Hat) as (m' & o' & _ & _ & Ha).
    rw -Epc in Ha. by eapply advances_steps.
Qed.

End clients.

(** ** Main properties *)

Section claims.
Context {sys : RingSys}.

(** A process that starts running [prog] with table [t]. *)
Definition start (t : list uring) (N : nat) (prog : K ustate unit) : proc_ :=
  Proc_ t [] (Some (prog N)).

(** A run without interference. *)
Fixpoint alone {A} (x : res ustate A) : res ustate A :=
  match x with Sched s k => alone (k s) | _ => x end.
Lemma alone_bindr {A B} (x : res ustate A) (f : A -> ustate -> res ustate B) :
  alone (bindr x f) = match alone x with
    | Ok a s => alone (f a s) | Panic msg s => Panic msg s | Undef s => Undef s | _ => Spin end.
Proof. induction x as [a s|msg s|s| |s k IH]; cbn; [done..|apply IH]. Qed.
Lemma alone_bind {A B} (c : K ustate A) (f : A -> K ustate B) n s :
  alone ((c ≫= f) n s) = match alone (c n s) with
    | Ok a s' => alone (f a n s') | Panic msg s' => Panic msg s' | Undef s' => Undef s' | _ => Spin end.
Proof. apply alone_bindr. Qed.

(** run alone on counters [r] and [w] of any size, [ringbuf_start_write]
    offers exactly the free space, [ringbuf_start_read] exactly the unread
    bytes, although both counters pass through an [int]. *)
Theorem start_offers_exact m t o rd e r w n :
  opened t rd e -> book_inv m (u_book e) r w ->
  alone (ringbuf_start_write rd n (UState m t o)) =
    Ok (0, Some (u_buf e, BUF_SIZE - (w - r))) (UState m t o) /\
  alone (ringbuf_start_read rd n (UState m t o)) = Ok (0, Some (u_buf e, w - r)) (UState m t o).
Proof.
  intros Ho [Hr Hw Hd]. split.
  - rw /ringbuf_start_write /mbind /K_bind (descriptor_run _ _ e) //=.
    rw Hr Hw !i32_cell u64_not_neg /= counter_room //.
  - rw /ringbuf_start_read /mbind /K_bind (descriptor_run _ _ e) //=.
    rw Hr Hw !i32_cell u64_not_neg /= counter_distance //. rw /BUF_SIZE in Hd. lia.
Qed.

Lemma finish_write_alone m t o rd e n k : opened t rd e ->
  alone (ringbuf_finish_write rd n k (UState m t o)) =
    Ok 0 (UState (st64 m (write_done (u_book e)) (u64 (i32 (u64 (u64 (i32 (ld64 m (write_done (u_book e)))) + n))))) t o).
Proof. intros Ho. rw /ringbuf_finish_write /mbind /K_bind (descriptor_run _ _ e) //. Qed.
(** Committing [n] bytes adds [n] to the writer's count and leaves the
    reader's, and conversely. *)
Theorem finish_advances m t o rd e r w n k :
  opened t rd e -> book_inv m (u_book e) r w -> 0 <= n ->
  (w + n - r <= BUF_SIZE -> exists m',
     alone (ringbuf_finish_write rd n k (UState m t o)) = Ok 0 (UState m' t o) /\
     book_inv m' (u_book e) r (w + n)) /\
  (n <= w - r -> exists m',
     alone (ringbuf_finish_read rd n k (UState m t o)) = Ok 0 (UState m' t o) /\
     book_inv m' (u_book e) (r + n) w).
Proof.
  intros Ho [Hr Hw Hd] Hn. split; intros Hle; eexists; (split;
    [rw ?/ringbuf_finish_write ?/ringbuf_finish_read /mbind /K_bind (descriptor_run _ _ e) //|]).
  - split; [|rw Hw i32_cell ld64_st64_eq counter_add /u64 Z.mod_mod //|lia].
    rw ld64_st64_ne //. rw /write_done /read_done. lia.
  - split; [rw Hr i32_cell ld64_st64_eq counter_add /u64 Z.mod_mod //| |lia].
    rw ld64_st64_ne //. rw /write_done /read_done. lia.
Qed.

(** C6: however the atomic accesses of a writer and a reader interleave, and
    however far the counters have run (past the range of [int] too): the cells
    of the book hold the counts of the start plus exactly what the two
    processes reported as committed and as consumed; the bytes written and not
    yet read are between 0 and the size of the buffer; a start call that runs
    without interference offers exactly the free space or exactly the unread
    bytes; and neither process is ever stuck: it does not index outside its
    table and does not take the exit for a negative count. *)
Theorem ring_counters_safe rdw rdr ew er tw tr b r0 w0 m ws rs N st :
  opened tw rdw ew -> opened tr rdr er -> u_book ew = b -> u_book er = b ->
  book_inv m b r0 w0 -> sizes ws -> sizes rs ->
  rtc istep (Ipc m (start tw N (writer rdw ws)) (start tr N (reader rdr rs))) st ->
  let r := r0 + committed (pr_out (ipc_r st)) in
  let w := w0 + committed (pr_out (ipc_w st)) in
  book_inv (ipc_mem st) b r w /\
  (forall o, alone (ringbuf_start_write rdw N (UState (ipc_mem st) (pr_tab (ipc_w st)) o)) =
     Ok (0, Some (u_buf ew, BUF_SIZE - (w - r))) (UState (ipc_mem st) (pr_tab (ipc_w st)) o)) /\
  (forall o, alone (ringbuf_start_read rdr N (UState (ipc_mem st) (pr_tab (ipc_r st)) o)) =
     Ok (0, Some (u_buf er, w - r)) (UState (ipc_mem st) (pr_tab (ipc_r st)) o)) /\
  forall p k, p = ipc_w st \/ p = ipc_r st -> pr_next p = Some k ->
    exists m' p', pstep (ipc_mem st) p m' p'.
Proof.
  intros How Hor Hbw Hbr Hb Hws Hrs Hrtc r w. assert (u_book er = u_book ew) as Hbook by congruence.
  assert (ipc_inv rdw rdr ew er N r0 w0 st) as Hinv.
  { eapply ipc_inv_steps; [done|exact Hrtc|]. rw /ipc_inv /= !Z.add_0_r Hbw.
    split_and!; [done|split; [done|by exists (W0 ws)]|split; [done|by exists (W0 rs)]]. }
  pose proof Hinv as (Hbk & [Ho1 _] & [Ho2 _]). split_and!.
  - by rw -Hbw.
  - intros o. by apply start_offers_exact.
  - intros o. apply start_offers_exact; [done|]. by rw Hbook.
  - intros p k. by eapply ipc_inv_goes.
Qed.

End claims.

(** ** A buffer that has just been created *)

(** System calls of which [createbuf] succeeds with a new buffer at [a]. *)
Definition fresh_sys (a : Z) : RingSys := {|
  sys_createbuf := fun _ _ => mret (1, a);
  sys_closebuf := fun _ _ => mret 0;
|}.

Lemma length_bytes_of_string x : length (bytes_of_string x) = String.length x.
Proof. rw /bytes_of_string length_fmap. induction x as [|c x IH]; simpl; [done|by rw IH]. Qed.
Lemma cstr_cstring x : Forall (fun c => c <> 0) (bytes_of_string x) -> cstr (cstring x) = Some (bytes_of_string x).
Proof. apply cstr_app_nul. Qed.

(** Entry [i] is the first of the table that is not marked as existing. *)
Definition first_free (t : list uring) (i : nat) (e : uring) : Prop :=
  t !! i = Some e /\ u_exists e <> 1 /\ forall j e', (j < i)%nat -> t !! j = Some e' -> u_exists e' = 1.

Section fresh.
Context {sys : RingSys}.

(** A loop over indices that goes on before [i] and leaves at [i]. *)
Lemma for_exit_at {B} (f : Z -> K ustate (option B)) i k n s s' b : (i < k)%nat ->
  (forall j, (j < i)%nat -> f (Z.of_nat j) n s = Ok None s) ->
  alone (f (Z.of_nat i) n s) = Ok (Some b) s' ->
  alone (for_exit (rangeZ k) f n s) = Ok (Some b) s'.
Proof.
  intros Hi Hgo Hat. rw /rangeZ.
  enough (forall d j, (j + d = i)%nat -> alone (for_exit (Z.of_nat <$> seq j (k - j)) f n s) = Ok (Some b) s') as H
    by (specialize (H i 0%nat eq_refl); by rw Nat.sub_0_r in H).
  induction d as [|d IH]; intros j Hj; (replace (k - j)%nat with (S (k - S j)) by lia); cbn [seq fmap list_fmap for_exit].
  - replace j with i by lia. by rw alone_bind Hat.
  - rw /mbind /K_bind Hgo; [|lia]. apply IH. lia.
Qed.

(** What the table and the memory are after a new buffer at [a]. *)
Definition fresh_entry (a : Z) (name : list Z) (e : uring) : uring :=
  URing a (a + BOOKOFFSET) (u_exists e) (name ++ 0 :: drop (S (length name)) (u_name e)).
Definition fresh_book (a : Z) (m : memory) : memory :=
  st64 (st64 m (read_done (a + BOOKOFFSET)) 0) (write_done (a + BOOKOFFSET)) 0.

Lemma create_fresh_run (x a : Z) (name : string) opdesc i e n s m t o :
  sys_createbuf (cstring name) opdesc n s = Ok (x, a) (UState m t o) -> x <> 0 -> x <> -1 ->
  (String.length name < length (u_name e) <= 16)%nat -> Forall (fun c => c <> 0) (bytes_of_string name) ->
  length t = MAX_USER_RINGBUFS -> first_free t i e ->
  alone (createRingBuf (cstring name) opdesc n s) =
    Ok (Z.of_nat i) (UState (fresh_book a m) (<[i := fresh_entry a (bytes_of_string name) e]> t) o).
Proof.
  intros Hsys Hx0 Hx1 Hlen Hnz Ht (Hi & He & Hbefore). pose proof (cstr_cstring name Hnz) as Hc.
  pose proof (strlen_cstr _ _ Hc) as Hl. rw length_bytes_of_string in Hl.
  assert (i < MAX_USER_RINGBUFS)%nat as Hi10 by (rw -Ht; by eapply lookup_lt_Some).
  rw /createRingBuf /mbind /K_bind Hsys. cbn [bindr]. rw (proj2 (Z.eqb_neq _ _) Hx1) Hl (proj2 (Z.ltb_ge _ _)); [|lia].
  rw -/(K_bind _ _ _) alone_bindr.
  erewrite for_exit_at; [reflexivity|exact Hi10|..].
  - intros j Hj. destruct (lookup_lt_is_Some_2 t j) as [e' Hj']; [lia|].
    rw /mbind /K_bind /= /arr_get (proj2 (Z.ltb_ge _ _)); [|lia]. by rw Nat2Z.id Hj' /= (Hbefore j e' Hj Hj').
  - rw /mbind /K_bind /= /arr_get (proj2 (Z.ltb_ge _ _)); [|lia]. rw Nat2Z.id Hi /= (proj2 (Z.eqb_neq _ _) He) (proj2 (Z.eqb_neq _ _) Hx0) /=.
    rw list_lookup_alter decide_True // Hi /= /strcpy Hc (proj2 (Nat.ltb_lt _ _)); [|rw length_bytes_of_string /=; lia]. cbn.
    rw !list_alter_alter_eq (alter_insert _ _ _ e) //.
Qed.

(** A descriptor that is in range but not marked as existing is refused. *)
Lemma descriptor_refused t i e o m n :
  (i < MAX_USER_RINGBUFS)%nat -> t !! i = Some e -> u_exists e <> 1 ->
  descriptor (Z.of_nat i) n (UState m t o) = Ok None (UState m t o).
Proof.
  intros Hi He Hx. rw /descriptor (proj2 (Z.ltb_ge _ _)); [|lia].
  rw /mbind /K_bind /= /arr_get (proj2 (Z.ltb_ge _ _)); [|lia]. by rw Nat2Z.id He /= (proj2 (Z.eqb_neq _ _) Hx).
Qed.

(** C27: the descriptor of a new buffer is unusable.  When the system call
    creates a buffer (it answers neither 0, which is for a buffer that was
    there, nor -1), [createRingBuf] returns the first free entry of the table,
    with the address, the name and two counters of zero, but does not set its
    [exists] field: each of the five calls on that descriptor then fails with
    -1, printing a message and changing neither the memory nor the table. *)
Theorem create_fresh_unusable (x a : Z) (name : string) opdesc i e n s m t o :
  sys_createbuf (cstring name) opdesc n s = Ok (x, a) (UState m t o) -> x <> 0 -> x <> -1 ->
  (String.length name < length (u_name e) <= 16)%nat -> Forall (fun c => c <> 0) (bytes_of_string name) ->
  length t = MAX_USER_RINGBUFS -> first_free t i e ->
  let rd := Z.of_nat i in
  exists m' t', alone (createRingBuf (cstring name) opdesc n s) = Ok rd (UState m' t' o) /\
    m' = fresh_book a m /\ t' = <[i := fresh_entry a (bytes_of_string name) e]> t /\
    forall k o',
      (exists msg, alone (ringbuf_start_write rd k (UState m' t' o')) = Ok (-1, None) (UState m' t' (o' ++ msg))) /\
      (exists msg, alone (ringbuf_start_read rd k (UState m' t' o')) = Ok (-1, None) (UState m' t' (o' ++ msg))) /\
      (forall bytes, exists msg, alone (ringbuf_finish_write rd bytes k (UState m' t' o')) = Ok (-1) (UState m' t' (o' ++ msg))) /\
      (forall bytes, exists msg, alone (ringbuf_finish_read rd bytes k (UState m' t' o')) = Ok (-1) (UState m' t' (o' ++ msg))) /\
      (forall nm op, exists msg, alone (closeRingBuf nm rd op k (UState m' t' o')) = Ok (-1) (UState m' t' (o' ++ msg))).
Proof.
  intros Hsys Hx0 Hx1 Hlen Hnz Ht Hff rd. do 2 eexists. split_and!; [by eapply create_fresh_run|done|done|].
  destruct Hff as (Hi & He & _). pose proof (lookup_lt_Some _ _ _ Hi) as Hlt.
  intros k o'. set (m' := fresh_book a m). set (t' := <[i := _]> t).
  assert (descriptor rd k (UState m' t' o') = Ok None (UState m' t' o')) as Hd
    by by eapply descriptor_refused; [lia|by apply list_lookup_insert_eq|].
  split_and!; intros; eexists;
    rw ?/ringbuf_start_write ?/ringbuf_start_read ?/ringbuf_finish_write ?/ringbuf_finish_read ?/closeRingBuf
      /mbind /K_bind Hd; reflexivity.
Qed.
End fresh.

(** ** The theorems on concrete counters *)

(** The interleaving chosen by a list of turns: [true] lets the writer run to
    its next access, [false] the reader; a turn of a process that cannot go on
    is skipped. *)
Definition turn (m : memory) (p : proc_) : option (memory * proc_) :=
  match pr_next p with
  | None => None
  | Some k =>
    match k (UState m (pr_tab p) (pr_out p)) with
    | Ok tt s => Some (umem s, Proc_ (utab s) (uout s) None)
    | Sched s k' => Some (umem s, Proc_ (utab s) (uout s) (Some k'))
    | _ => None
    end
  end.
Fixpoint run_turns (l : list bool) (st : ipc) : ipc :=
  match l with
  | [] => st
  | true :: l' =>
    run_turns l' (match turn (ipc_mem st) (ipc_w st) with Some (m, p) => Ipc m p (ipc_r st) | None => st end)
  | false :: l' =>
    run_turns l' (match turn (ipc_mem st) (ipc_r st) with Some (m, p) => Ipc m (ipc_w st) p | None => st end)
  end.
Lemma turn_pstep m p m' p' : turn m p = Some (m', p') -> pstep m p m' p'.
Proof.
  destruct p as [t o [k|]]; rw /turn /=; [|done].
  destruct (k (UState m t o)) as [[] s| | | |s k'] eqn:E; intros [= <- <-]; by constructor.
Qed.
Lemma run_turns_rtc l st : rtc istep st (run_turns l st).
Proof.
  revert st. induction l as [|[] l IH]; intros [m w r]; cbn; [done|..].
  - destruct (turn m w) as [[m' w']|] eqn:E; [|apply IH]. eapply rtc_l; [|apply IH]. by apply istep_w, turn_pstep.
  - destruct (turn m r) as [[m' r']|] eqn:E; [|apply IH]. eapply rtc_l; [|apply IH]. by apply istep_r, turn_pstep.
Qed.

(** A book whose counters have passed 2^31: 2^31 + 5 bytes written, 2^31 - 3 read. *)
Definition book0 : memory :=
  st64 (st64 ∅ (read_done 4096) (u64 (i32 (2 ^ 31 - 3)))) (write_done 4096) (u64 (i32 (2 ^ 31 + 5))).
Definition uring0 : uring := URing 0 4096 1 (replicate 16 0).
Lemma book0_inv : book_inv book0 4096 (2 ^ 31 - 3) (2 ^ 31 + 5).
Proof. split; by vm_compute. Qed.
Lemma opened0 : opened [uring0] 0 uring0.
Proof. by split_and!. Qed.

Definition ipc0 : ipc := Ipc book0 (start [uring0] 10 (writer 0 [100000; 100; 3])) (start [uring0] 10 (reader 0 [5; 8])).
(** The reader is in its first call while the writer commits. *)
Definition turns0 : list bool :=
  [false; false; true; true; true; true; true; true; false; true; true; false; false; true; true; true; false; false; true; true; true;
   false; false; false; false; false; true; true; true].

(** Both processes end in this run: 103 bytes were committed and 13 consumed. *)
Lemma ring_counters_safe_witness :
  let st := run_turns turns0 ipc0 in
  (pr_next (ipc_w st) = None /\ pr_next (ipc_r st) = None) /\
  book_inv (ipc_mem st) 4096 (2 ^ 31 - 3 + 13) (2 ^ 31 + 5 + 103).
Proof.
  destruct (ring_counters_safe 0 0 uring0 uring0 [uring0] [uring0] 4096 (2 ^ 31 - 3) (2 ^ 31 + 5)
    book0 [100000; 100; 3] [5; 8] 10 (run_turns turns0 ipc0)) as (H & _).
  - apply opened0.
  - apply opened0.
  - reflexivity.
  - reflexivity.
  - apply book0_inv.
  - repeat constructor; lia.
  - repeat constructor; lia.
  - exact (run_turns_rtc turns0 ipc0).
  - split; [split; vm_compute; reflexivity|].
    assert (committed (pr_out (ipc_r (run_turns turns0 ipc0))) = 13) as Er by (vm_compute; reflexivity).
    assert (committed (pr_out (ipc_w (run_turns turns0 ipc0))) = 103) as Ew by (vm_compute; reflexivity).
    rw Er Ew in H. exact H.
Defined.

(** A table whose first entry is in use. *)
Definition table0 : list uring := uring0 :: replicate 9 (URing 0 0 0 (replicate 16 0)).
Lemma create_fresh_unusable_witness :
  exists m' t', alone (createRingBuf (sys := fresh_sys 8192) (cstring "ring") 0 3%nat (UState ∅ table0 [])) = Ok 1 (UState m' t' []).
Proof.
  destruct (create_fresh_unusable (sys := fresh_sys 8192) 1 8192 "ring" 0 1 (URing 0 0 0 (replicate 16 0)) 3
    (UState ∅ table0 []) ∅ table0 []) as (m' & t' & H & _).
  - reflexivity.
  - done.
  - done.
  - vm_compute. lia.
  - vm_compute. repeat constructor; done.
  - reflexivity.
  - split; [reflexivity|]. split; [done|]. intros [|j] e' Hj; [|lia]. by intros [= <-].
  - exists m', t'. exact H.
Defined.
