(* ===== verification/Rg.v ===== *)
(** * Two processes sharing memory: a rely-guarantee logic

    A computation over [ustate] is a tree whose inner nodes are its scheduling
    points.  [rg] says that it keeps the shared invariant at every such point,
    whatever the other process does in between as long as that keeps the
    invariant too, and that it never panics and never does anything undefined.
    Each process owns a ghost value; the invariant relates the memory and the
    two ghosts.  [adequate] turns a triple for each process into a statement
    about all interleavings ([istep]). *)

From stdpp Require Import relations.
From S2P Require Import Prelude Mem Spinlock Machine Printf FastIpc FastIpcSpec.

Section rg.
(** The ghosts of this process and of the other; the table of this process. *)
Context {G O : Type} (Inv : memory -> G -> O -> Prop) (t : list uring).

Fixpoint rg {A} (h : O) (r : res ustate A) (Q : A -> G -> Prop) : Prop :=
  match r with
  | Ok a s => exists g, Inv (umem s) g h /\ utab s = t /\ Q a g
  | Sched s k => exists g, Inv (umem s) g h /\ utab s = t /\
      forall m h', Inv m g h' -> rg h' (k (UState m t (uout s))) Q
  | Spin => True
  | Panic _ _ | Undef _ => False
  end.
Definition triple {A} (g : G) (c : K ustate A) (Q : A -> G -> Prop) : Prop :=
  forall m h o n, Inv m g h -> rg h (c n (UState m t o)) Q.

Lemma rg_mono {A} h (r : res ustate A) Q Q' : rg h r Q -> (forall a g, Q a g -> Q' a g) -> rg h r Q'.
Proof.
  intros Hr H. revert h Hr. induction r as [a s|msg s|s| |s k IH]; intros h; cbn; [|done..|].
  - intros (g & HI & Ht & HQ). exists g. auto.
  - intros (g & HI & Ht & Hk). exists g. split_and!; [done|done|]. intros m h' HI'. apply IH. by apply Hk.
Qed.
Lemma rg_bind {A B} h (r : res ustate A) (f : A -> ustate -> res ustate B) P Q :
  rg h r P -> (forall a g m h' o, P a g -> Inv m g h' -> rg h' (f a (UState m t o)) Q) -> rg h (bindr r f) Q.
Proof.
  intros Hr Hf. revert h Hr. induction r as [a s|msg s|s| |s k IH]; intros h; cbn; [|done..|].
  - intros (g & HI & Ht & HP). destruct s as [m t' o]. cbn in *. subst t'. by eapply Hf.
  - intros (g & HI & Ht & Hk). exists g. split_and!; [done|done|]. intros m h' HI'. apply IH. by apply Hk.
Qed.

Lemma t_bind {A B} g (c : K ustate A) (f : A -> K ustate B) P Q :
  triple g c P -> (forall a g', P a g' -> triple g' (f a) Q) -> triple g (c ≫= f) Q.
Proof.
  intros Hc Hf m h o n HI. rw /mbind /K_bind. eapply rg_bind; [by apply Hc|]. intros a g' m' h' o' HP HI'. by apply (Hf a g').
Qed.
Lemma t_mono {A} g (c : K ustate A) P Q : triple g c P -> (forall a g', P a g' -> Q a g') -> triple g c Q.
Proof. intros Hc H m h o n HI. eapply rg_mono; [by apply Hc|done]. Qed.
Lemma t_ret {A} g (a : A) (Q : A -> G -> Prop) : Q a g -> triple g (mret a) Q.
Proof. intros HQ m h o n HI. by exists g. Qed.
(** The ghost changes between two accesses. *)
Lemma t_ghost {A} g g' (c : K ustate A) Q : (forall m h, Inv m g h -> Inv m g' h) -> triple g' c Q -> triple g c Q.
Proof. intros H Hc m h o n HI. by apply Hc, H. Qed.
Lemma t_point g : triple g atomic_point (fun _ g' => g' = g).
Proof. intros m h o n HI. exists g. split_and!; [done|done|]. intros m' h' HI'. by exists g. Qed.
Lemma t_print g fmt args : triple g (uprintf fmt args) (fun _ g' => g' = g).
Proof. intros m h o n HI. by exists g. Qed.
(** An access that may depend on the memory as it is. *)
Lemma t_gets {A} g (f : ustate -> A) (Q : A -> G -> Prop) :
  (forall m h o, Inv m g h -> exists g', Inv m g' h /\ Q (f (UState m t o)) g') -> triple g (gets f) Q.
Proof. intros H m h o n HI. destruct (H m h o HI) as (g' & HI' & HQ). by exists g'. Qed.
Lemma t_store g (f : memory -> memory) (Q : unit -> G -> Prop) :
  (forall m h, Inv m g h -> exists g', Inv (f m) g' h /\ Q tt g') -> triple g (modify (fun s => set_umem (f (umem s)) s)) Q.
Proof. intros H m h o n HI. destruct (H m h HI) as (g' & HI' & HQ). by exists g'. Qed.
Lemma t_loop {A B} (J : A -> G -> Prop) (body : A -> K ustate (A + B)) a g Q :
  J a g -> (forall a g, J a g -> triple g (body a) (fun r g' => match r with inl a' => J a' g' | inr b => Q b g' end)) ->
  triple g (loop body a) Q.
Proof.
  intros HJ Hb m h o n HI. rw /loop. enough (forall j a g m h o, J a g -> Inv m g h -> rg h (loop_n j body a n (UState m t o)) Q) as H by by eapply H.
  clear -Hb. induction j as [|j IH]; intros a g m h o HJ HI; [done|]. cbn [loop_n].
  eapply rg_bind; [by apply (Hb a g HJ)|]. intros [a'|b] g' m' h' o' HQ HI'; [by eapply IH|by exists g'].
Qed.
(** A lookup in the table of the process. *)
Lemma t_descriptor g rd e : opened t rd e -> triple g (descriptor rd) (fun d g' => d = Some e /\ g' = g).
Proof. intros Ho m h o n HI. rw (descriptor_run _ _ e) //. by exists g. Qed.
End rg.

(** ** All interleavings *)

Section adequacy.
Context {G H : Type} (Inv : memory -> G -> H -> Prop).
Context (tw tr : list uring) (QW : G -> Prop) (QR : H -> Prop).
Definition flip_inv m h g := Inv m g h.

Definition suspended {G O} (I : memory -> G -> O -> Prop) t (Q : G -> Prop) g (p : proc_) : Prop :=
  pr_tab p = t /\
  match pr_next p with
  | None => Q g
  | Some k => forall m h, I m g h -> rg I t h (k (UState m t (pr_out p))) (fun _ => Q)
  end.
Definition sound (st : ipc) : Prop :=
  exists g h, Inv (ipc_mem st) g h /\ suspended Inv tw QW g (ipc_w st) /\ suspended flip_inv tr QR h (ipc_r st).

Lemma suspended_step {G' O'} (I : memory -> G' -> O' -> Prop) t Q g h m p m' p' :
  I m g h -> suspended I t Q g p -> pstep m p m' p' -> exists g', I m' g' h /\ suspended I t Q g' p'.
Proof.
  intros HI [Ht Hs] Hp. destruct Hp as [m t' o k s' k' E|m t' o k s' E]; cbn in *; subst t'; specialize (Hs m h HI); rw E in Hs; cbn in Hs.
  - destruct Hs as (g' & HI' & Ht' & Hk). exists g'. split; [done|]. split; [done|]. cbn. done.
  - destruct Hs as (g' & HI' & Ht' & HQ). exists g'. by split_and!.
Qed.
Lemma sound_step st st' : sound st -> istep st st' -> sound st'.
Proof.
  intros (g & h & HI & Hw & Hr) Hs. destruct Hs as [m w r m' w' Hp|m w r m' r' Hp]; cbn in *.
  - destruct (suspended_step Inv tw QW g h _ _ _ _ HI Hw Hp) as (g' & ? & ?). by exists g', h.
  - destruct (suspended_step flip_inv tr QR h g _ _ _ _ HI Hr Hp) as (h' & ? & ?). by exists g, h'.
Qed.

Lemma sound_steps st st' : rtc istep st st' -> sound st -> sound st'.
Proof. induction 1 as [|? ? ? Hs _ IH]; [done|]. intros H0. apply IH. by eapply sound_step. Qed.

(** A process that does not fail: it reaches its next access, ends, or has used
    up the bound on a loop that waits. *)
Definition unharmed (m : memory) (p : proc_) : Prop :=
  match pr_next p with
  | None => True
  | Some k => match k (UState m (pr_tab p) (pr_out p)) with Panic _ _ | Undef _ => False | _ => True end
  end.
Lemma suspended_unharmed {G' O'} (I : memory -> G' -> O' -> Prop) t Q g h m p : I m g h -> suspended I t Q g p -> unharmed m p.
Proof.
  intros HI [<- Hs]. rw /unharmed. destruct (pr_next p) as [k|]; [|done]. specialize (Hs m h HI). by destruct (k _).
Qed.
Lemma adequate m N cw cr g0 h0 st : Inv m g0 h0 ->
  triple Inv tw g0 cw (fun _ => QW) -> triple flip_inv tr h0 cr (fun _ => QR) ->
  rtc istep (Ipc m (start tw N cw) (start tr N cr)) st ->
  exists g h, Inv (ipc_mem st) g h /\ unharmed (ipc_mem st) (ipc_w st) /\ unharmed (ipc_mem st) (ipc_r st) /\
    (pr_next (ipc_w st) = None -> QW g) /\ (pr_next (ipc_r st) = None -> QR h).
Proof.
  intros HI Hw Hr Hsteps. assert (sound st) as (g & h & HI' & Hw' & Hr').
  { assert (sound (Ipc m (start tw N cw) (start tr N cr))) as H0.
    { exists g0, h0. split_and!; [done|split; [done|intros m1 h1 H1; by apply Hw]|split; [done|intros m1 h1 H1; by apply Hr]]. }
    by eapply sound_steps. }
  exists g, h. split_and!; [done|by eapply suspended_unharmed|by eapply (suspended_unharmed flip_inv)|..].
  - intros E. destruct Hw' as [_ Hw']. by rw E in Hw'.
  - intros E. destruct Hr' as [_ Hr']. by rw E in Hr'.
Qed.
End adequacy.
