(* ===== verification/RingTest.v ===== *)
(** * [user/ringtest.c]

    The program that sends blocks through a ring buffer: the child writes
    pseudo-random bytes, the parent reads them and compares them with the same
    sequence.  Every access to a byte of the buffer is a scheduling point, like
    the accesses to the counters.  The counter in the model runs over the turns
    of the outer loops; [fork] is given by its result, [wait] is a parameter. *)

From S2P Require Import Prelude Mem KString Spinlock Machine Printf FastIpc.

Module RingTest.

(** The C library's generator: the new state, which is the value too. *)
Definition do_rand (ctx : Z) : Z :=
  let x := ctx mod 0x7ffffffe + 1 in
  let hi := x / 127773 in
  let lo := x mod 127773 in
  let x := 16807 * lo - 2836 * hi in
  let x := if x <? 0 then x + 0x7fffffff else x in
  u64 (x - 1).
(** [rand()]: the [int] returned and the new [rand_next]. *)
Definition rand (rand_next : Z) : Z * Z := let x := do_rand rand_next in (i32 x, x).

Section transfer.
Context {G : Type} (gen : G -> Z * G).

(** A byte of the buffer. *)
Definition put (p v : Z) : K ustate unit := atomic_point;; modify (fun s => set_umem (st8 (umem s) p v) s).
Definition get (p : Z) : K ustate Z := atomic_point;; gets (fun s => ld8 (umem s) p).

(** [do ringbuf_start_write(...); while(bytes < size)]: the pointer; it is
    uninitialised when the call fails. *)
Definition wait_write (rd size : Z) : K ustate Z :=
  loop (fun _ : unit =>
    '(_, o) ← ringbuf_start_write rd;
    match o with
    | None => undef
    | Some (addr, bytes) => mret (if bytes <? size then inl tt else inr addr)
    end) tt.
Definition wait_read (rd size : Z) : K ustate Z :=
  loop (fun _ : unit =>
    '(_, o) ← ringbuf_start_read rd;
    match o with
    | None => undef
    | Some (addr, bytes) => mret (if bytes <? size then inl tt else inr addr)
    end) tt.

(** The inner loops: [n] bytes from [p] on. *)
Fixpoint put_bytes (n : nat) (p : Z) (g : G) : K ustate (Z * G) :=
  match n with
  | O => mret (p, g)
  | S n' => let '(x, g') := gen g in put p (u8 x);; put_bytes n' (u64 (p + 1)) g'
  end.
Fixpoint check_bytes (n : nat) (i p : Z) (g : G) : K ustate (Z * G) :=
  match n with
  | O => mret (p, g)
  | S n' =>
    ch ← get p;
    let '(x, g') := gen g in
    if negb (ch =? u8 x) then
      uprintf ("Not Same! %c :: %c" +:+ nl) [AInt ch; AInt (u8 i)];; exit1
    else uprintf "yo " [];; check_bytes n' (i + 1) (u64 (p + 1)) g'
  end.

(** One turn of the writer's loop and of the reader's. *)
Definition write_turn (rd size : Z) (g : G) : K ustate G :=
  addr ← wait_write rd size;
  '(p, g) ← put_bytes (Z.to_nat size) addr g;
  uprintf "%p\t" [APtr p];; uprintf nl [];;
  ringbuf_finish_write rd size;;
  uprintf nl [];; mret g.
Definition read_turn (rd size : Z) (g : G) : K ustate G :=
  addr ← wait_read rd size;
  '(p, g) ← check_bytes (Z.to_nat size) 0 addr g;
  uprintf "%p\t" [APtr p];; uprintf nl [];;
  ringbuf_finish_read rd size;;
  uprintf nl [];; mret g.

(** [while(counter < limit)]: the final counter. *)
Definition write_loop (rd size limit : Z) (g : G) : K ustate Z :=
  loop (fun '(counter, g) =>
    if counter <? limit then g ← write_turn rd size g; mret (inl (u64 (counter + size), g))
    else mret (inr counter)) (0, g).
Definition read_loop (rd size limit : Z) (g : G) : K ustate Z :=
  loop (fun '(counter, g) =>
    if counter <? limit then g ← read_turn rd size g; mret (inl (u64 (counter + size), g))
    else mret (inr counter)) (0, g).
End transfer.

(** [main]: the child writes, the parent reads. *)
Section main.
Context {sys : RingSys} (fork wait : K ustate Z).
Definition str1 : list Z := bytes_of_string "Bye" ++ replicate 13 0.
Definition exit {A} (n : Z) : K ustate A := panic (if n =? 0 then "exit(0)" else "exit(-1)").

Definition child : K ustate unit :=
  ringBuf1 ← createRingBuf str1 1;
  counter ← write_loop rand ringBuf1 4096 100 1;
  r ← closeRingBuf str1 ringBuf1 1;
  (if r =? -1 then uprintf ("Error Closing %s" +:+ nl) [AStr (Some str1)] else mret tt);;
  uprintf (nl +:+ "Written %d bytes" +:+ nl) [AInt counter].
Definition parent : K ustate unit :=
  ringBuf1 ← createRingBuf str1 0;
  counter ← read_loop rand ringBuf1 4096 100000 1;
  r ← closeRingBuf str1 ringBuf1 0;
  (if r =? -1 then uprintf ("Error Closing %s" +:+ nl) [AStr (Some str1)] else mret tt);;
  uprintf (nl +:+ "Read %d bytes" +:+ nl) [AInt counter];;
  wait;; mret tt.
Definition main : K ustate unit :=
  status ← fork;
  if status <? 0 then exit (-1) else
  (if status =? 0 then child else parent);;
  exit 0.
End main.

End RingTest.
