(* ===== verification/RingTestSpec.v ===== *)
(** * Blocks through a ring buffer arrive intact when only one fits

    [ringbuf_start_write] hands out the start of the buffer whatever the
    counters say.  When two blocks do not fit, a writer that waits for room
    therefore writes only while the buffer is empty, and every block arrives
    intact under every interleaving ([ring_transfer_intact]); when two fit, the
    second overwrites the first ([ring_overwrites_unread]). *)

From stdpp Require Import relations.
From S2P Require Import Prelude Mem KString Spinlock Machine Printf FastIpc FastIpcSpec Rg RingTest.
Import RingTest.

Section transfer.
Context {G : Type} (gen : G -> Z * G) (g0 : G).
(** The buffer of 65536 bytes at [a], its book at [b], the count [c0] both cells start from,
    the size of a block. *)
Context (a b c0 : Z) (sz : nat).
Context (Hsz : (0 < sz)%nat) (Hone : Z.of_nat sz <= 65536 < 2 * Z.of_nat sz).
Context (Ha : 0 <= a) (Hb : b = a + 131072) (Hb64 : b < 2 ^ 64).

(** The state of the generator after [i] values, and byte [i] of the data. *)
Definition gst (i : nat) : G := Nat.iter i (fun g => (gen g).2) g0.
Definition data (i : nat) : Z := u8 (gen (gst i)).1.
(** The first [i] bytes of block [k] are in the buffer. *)
Definition holds (m : memory) (k i : nat) : Prop := forall x, (x < i)%nat -> ld8 m (a + Z.of_nat x) = data (k * sz + x).

(** The writer's ghost: blocks published, bytes of the next one stored once the
    buffer is known to be empty, blocks it knows to be read.  The reader's:
    blocks read, whether it knows the next one to be there. *)
Record wghost := WG { wg_k : nat; wg_fill : option nat; wg_seen : nat }.
Record rghost := RGh { rg_j : nat; rg_full : bool }.
Definition count (k : nat) : Z := c0 + Z.of_nat sz * Z.of_nat k.
Record inv (m : memory) (w : wghost) (r : rghost) : Prop := {
  i_read : ld64 m (read_done b) = u64 (i32 (count (rg_j r)));
  i_write : ld64 m (write_done b) = u64 (i32 (count (wg_k w)));
  i_order : (wg_seen w <= rg_j r <= wg_k w)%nat /\ (wg_k w <= wg_seen w + 1)%nat;
  i_fill : forall i, wg_fill w = Some i -> wg_seen w = wg_k w /\ holds m (wg_k w) i;
  i_data : wg_k w = S (rg_j r) -> holds m (rg_j r) sz;
  i_full : rg_full r = true -> wg_k w = S (rg_j r);
}.
Abbreviation Wt t := (triple inv t).
Abbreviation Rt t := (triple (flip_inv inv) t).

Lemma holds_st64 m k i p v : holds m k i -> (i <= sz)%nat -> p = read_done b \/ p = write_done b -> holds (st64 m p v) k i.
Proof.
  intros H Hi Hp x Hx. rw ld8_stn_out; [by apply H|]. rw /read_done /write_done in Hp. lia.
Qed.
Lemma count_S k : count (S k) = count k + Z.of_nat sz.
Proof. rw /count. lia. Qed.

(** ** The writer *)

Section writer.
Context (t : list uring) (rd : Z) (e : uring) (Ho : opened t rd e) (Hbuf : u_buf e = a) (Hbook : u_book e = b).

Lemma w_load_read k s : Wt t (WG k None s) (load (read_done b)) (fun v g => exists s', v = i32 (count s') /\ g = WG k None s').
Proof.
  eapply t_bind; [apply t_point|]. intros _ _ ->. apply t_gets. intros m [j fl] o [Hr Hw Hord Hfi Hda Hfu]. cbn in *. exists (WG k None j).
  split; [|exists j; by rw Hr i32_cell]. split; cbn; try done. lia.
Qed.
Lemma w_load_write g : Wt t g (load (write_done b)) (fun v g' => v = i32 (count (wg_k g)) /\ g' = g).
Proof. eapply t_bind; [apply t_point|]. intros _ _ ->. apply t_gets. intros m h o HI. exists g. split; [done|]. by rw /= (i_write _ _ _ HI) i32_cell. Qed.
Lemma w_start k s : Wt t (WG k None s) (ringbuf_start_write rd) (fun r g => exists s', (s' <= k <= s' + 1)%nat /\
  r = (0, Some (a, BUF_SIZE - Z.of_nat sz * (Z.of_nat k - Z.of_nat s'))) /\ g = WG k None s').
Proof.
  rw /ringbuf_start_write. eapply t_bind; [by apply t_descriptor|]. intros _ _ [-> ->]. rw Hbook.
  eapply t_bind; [apply w_load_read|]. intros v g (s' & -> & ->). eapply t_bind; [apply w_load_write|]. intros v' g' [-> ->].
  rw u64_not_neg Hbuf. cbn [wg_k]. intros m h o n HI. pose proof HI as [_ _ [Hord1 Hord2] _ _ _]. cbn in Hord1, Hord2.
  exists (WG k None s'). split_and!; [done|done|]. exists s'. split_and!; [lia|lia| |done].
  rw counter_room; [by rw /count; do 3 f_equal; lia|]. rw /count /BUF_SIZE. nia.
Qed.
Lemma w_wait k s : Wt t (WG k None s) (wait_write rd (Z.of_nat sz)) (fun p g => p = a /\ g = WG k (Some O) k).
Proof.
  rw /wait_write. apply (t_loop _ _ (fun _ g => exists s, g = WG k None s)); [by exists s|]. intros [] g (s1 & ->).
  eapply t_bind; [apply w_start|]. intros r g (s' & Hs' & -> & ->). change BUF_SIZE with 65536. destruct (Z.ltb_spec (65536 - Z.of_nat sz * (Z.of_nat k - Z.of_nat s')) (Z.of_nat sz)) as [Hlt|Hge].
  - apply t_ret. by exists s'.
  - assert (s' = k) as -> by nia. apply (t_ghost _ _ _ (WG k (Some O) k)); [|by apply t_ret]. intros m h [Hr Hw Hord Hfi Hda Hfu]. split; cbn in *; try done.
    intros i [= <-]. split; [done|]. intros x Hx. lia.
Qed.
Lemma w_put k i n : (i + n <= sz)%nat -> Wt t (WG k (Some i) k) (put_bytes gen n (a + Z.of_nat i) (gst (k * sz + i)))
  (fun r g => r.2 = gst (k * sz + (i + n)) /\ g = WG k (Some (i + n)%nat) k).
Proof.
  revert i. induction n as [|n IH]; intros i Hi; cbn [put_bytes]; [by apply t_ret; rw Nat.add_0_r|].
  destruct (gen (gst (k * sz + i))) as [x g'] eqn:Eg. rw u64_small; [|lia].
  assert (g' = gst (k * sz + S i)) as -> by by rw Nat.add_succ_r /gst /= -/(gst _) Eg.
  eapply (t_bind _ _ _ _ _ (fun _ g => g = WG k (Some (S i)) k)).
  - eapply t_bind; [apply t_point|]. intros _ _ ->. apply t_store. intros m h [Hr Hw Hord Hfi Hda Hfu]. destruct (Hfi i eq_refl) as [_ Hh]. cbn in *.
    exists (WG k (Some (S i)) k). split; [|done].
    assert (forall p, p = read_done b \/ p = write_done b -> ld64 (st8 m (a + Z.of_nat i) (u8 x)) p = ld64 m p) as Hcell.
    { intros p Hp. apply ldn_ext. intros q Hq. apply ld8_st8_ne. rw /read_done /write_done in Hp. lia. }
    split; cbn; rw ?Hcell; auto; [|lia]. intros i' [= <-]. split; [done|]. intros y Hy. rw ld8_st8. case_decide as E.
    + assert (y = i) as -> by lia. by rw /data Eg /= /u8 Z.mod_mod.
    + apply Hh. lia.
  - intros _ g ->. replace (a + Z.of_nat i + 1) with (a + Z.of_nat (S i)) by lia. eapply t_mono; [apply IH; lia|]. by rw Nat.add_succ_comm.
Qed.
Lemma w_finish k : Wt t (WG k (Some sz) k) (ringbuf_finish_write rd (Z.of_nat sz)) (fun _ g => g = WG (S k) None k).
Proof.
  rw /ringbuf_finish_write. eapply t_bind; [by apply t_descriptor|]. intros _ _ [-> ->]. rw Hbook.
  eapply t_bind; [apply w_load_write|]. intros v g [-> ->]. apply (t_bind _ _ _ _ _ (fun _ g => g = WG (S k) None k)); [|intros _ g ->; by apply t_ret].
  eapply t_bind; [apply t_point|]. intros _ _ ->. apply (t_store _ _ _ (fun m => st64 m (write_done b) _)). intros m [j fl] [Hr Hw Hord Hfi Hda Hfu]. destruct (Hfi sz eq_refl) as [_ Hh]. cbn in *.
  assert (j = k) as -> by lia. exists (WG (S k) None k). split; [|done]. split; cbn.
  - rw ld64_st64_ne //. rw /read_done /write_done. lia.
  - rw ld64_st64_eq counter_add count_S /u64 Z.mod_mod //.
  - lia.
  - done.
  - intros _. apply holds_st64; [done|lia|by right].
  - done.
Qed.
Lemma w_turn k s : Wt t (WG k None s) (write_turn gen rd (Z.of_nat sz) (gst (k * sz)))
  (fun g' g => g' = gst (S k * sz) /\ exists s', g = WG (S k) None s').
Proof.
  rw /write_turn. eapply t_bind; [apply w_wait|]. intros p g [-> ->]. rw Nat2Z.id. eapply t_bind.
  { pose proof (w_put k 0 sz ltac:(lia)) as H. rw Z.add_0_r Nat.add_0_r in H. exact H. }
  intros [p g'] g [Hg ->]. cbn in Hg. subst g'. rw Nat.add_0_l. eapply t_bind; [apply t_print|]. intros _ g ->. eapply t_bind; [apply t_print|]. intros _ g ->.
  eapply t_bind; [apply w_finish|]. intros _ g ->. eapply t_bind; [apply t_print|]. intros _ g ->. apply t_ret. split; [f_equal; lia|by exists k].
Qed.
Lemma w_loop limit : limit < 2 ^ 63 -> Wt t (WG O None O) (write_loop gen rd (Z.of_nat sz) limit g0;; mret tt) (fun _ g => limit <= Z.of_nat sz * Z.of_nat (wg_k g)).
Proof.
  intros Hl. apply (t_bind _ _ _ _ _ (fun _ g => limit <= Z.of_nat sz * Z.of_nat (wg_k g))); [|intros _ g Hg; by apply t_ret].
  apply (t_loop _ _ (fun st g => exists k s, st = (Z.of_nat sz * Z.of_nat k, gst (k * sz)) /\ g = WG k None s)).
  { exists O, O. split; [by rw Z.mul_0_r|done]. }
  intros st g (k & s & -> & ->). destruct (Z.ltb_spec (Z.of_nat sz * Z.of_nat k) limit); [|by apply t_ret].
  eapply t_bind; [apply w_turn|]. intros g' g (-> & s' & ->). apply t_ret. exists (S k), s'. split; [|done].
  rw u64_small; [f_equal; lia|lia].
Qed.
End writer.

(** ** The reader *)

Section reader.
Context (t : list uring) (rd : Z) (e : uring) (Ho : opened t rd e) (Hbuf : u_buf e = a) (Hbook : u_book e = b).

Lemma r_load_read g : Rt t g (load (read_done b)) (fun v g' => v = i32 (count (rg_j g)) /\ g' = g).
Proof. eapply t_bind; [apply t_point|]. intros _ _ ->. apply t_gets. intros m h o HI. exists g. split; [done|]. by rw /= (i_read _ _ _ HI) i32_cell. Qed.
Lemma r_load_write j : Rt t (RGh j false) (load (write_done b)) (fun v g => exists f : bool, v = i32 (count (if f then S j else j)) /\ g = RGh j f).
Proof.
  eapply t_bind; [apply t_point|]. intros _ _ ->. apply t_gets. intros m [k fi se] o [Hr Hw Hord Hfi Hda Hfu]. cbn in *.
  rw Hw i32_cell. destruct (decide (k = S j)) as [->|Hk].
  - exists (RGh j true). split; [|by exists true]. by split.
  - exists (RGh j false). split; [by split|]. exists false. split; [|done]. by replace k with j by lia.
Qed.
Lemma r_start j : Rt t (RGh j false) (ringbuf_start_read rd) (fun r g => exists f : bool, r = (0, Some (a, if f then Z.of_nat sz else 0)) /\ g = RGh j f).
Proof.
  rw /ringbuf_start_read. eapply t_bind; [by apply t_descriptor|]. intros _ _ [-> ->]. rw Hbook.
  eapply t_bind; [apply r_load_read|]. intros v g [-> ->]. eapply t_bind; [apply r_load_write|]. intros v' g' (f & -> & ->).
  rw u64_not_neg Hbuf. apply t_ret. exists f. split; [|done]. cbn [rg_j].
  rw counter_distance; [|destruct f; rw /count; lia]. do 3 f_equal. destruct f; rw /count; lia.
Qed.
Lemma r_wait j : Rt t (RGh j false) (wait_read rd (Z.of_nat sz)) (fun p g => p = a /\ g = RGh j true).
Proof.
  rw /wait_read. apply (t_loop _ _ (fun _ g => g = RGh j false)); [done|]. intros [] g ->. eapply t_bind; [apply r_start|]. intros r g ([] & -> & ->).
  - rw Z.ltb_irrefl. by apply t_ret.
  - rw (proj2 (Z.ltb_lt _ _)); [|lia]. by apply t_ret.
Qed.
Lemma r_check j i ch n : (i + n <= sz)%nat -> Rt t (RGh j true) (check_bytes gen n ch (a + Z.of_nat i) (gst (j * sz + i)))
  (fun r g => r.2 = gst (j * sz + (i + n)) /\ g = RGh j true).
Proof.
  revert i ch. induction n as [|n IH]; intros i ch Hi; cbn [check_bytes]; [by apply t_ret; rw Nat.add_0_r|].
  apply (t_bind _ _ _ _ _ (fun v g => v = data (j * sz + i) /\ g = RGh j true)).
  { eapply t_bind; [apply t_point|]. intros _ _ ->. apply t_gets. intros m [k fi se] o HI. exists (RGh j true). split; [done|].
    destruct HI as [Hr Hw Hord Hfi Hda Hfu]. cbn in *. split; [|done]. apply Hda; [by apply Hfu|lia]. }
  intros v g [-> ->]. destruct (gen (gst (j * sz + i))) as [x g'] eqn:Eg. rw /data Eg Z.eqb_refl. cbn [negb].
  assert (g' = gst (j * sz + S i)) as -> by by rw Nat.add_succ_r /gst /= -/(gst _) Eg.
  eapply t_bind; [apply t_print|]. intros _ g ->. rw u64_small; [|lia]. replace (a + Z.of_nat i + 1) with (a + Z.of_nat (S i)) by lia.
  eapply t_mono; [apply IH; lia|]. by rw Nat.add_succ_comm.
Qed.
Lemma r_finish j : Rt t (RGh j true) (ringbuf_finish_read rd (Z.of_nat sz)) (fun _ g => g = RGh (S j) false).
Proof.
  rw /ringbuf_finish_read. eapply t_bind; [by apply t_descriptor|]. intros _ _ [-> ->]. rw Hbook.
  eapply t_bind; [apply r_load_read|]. intros v g [-> ->].
  apply (t_bind _ _ _ _ _ (fun _ g => g = RGh (S j) false)); [|intros _ g ->; by apply t_ret].
  eapply t_bind; [apply t_point|]. intros _ _ ->. apply (t_store _ _ _ (fun m => st64 m (read_done b) _)).
  intros m [k fi se] [Hr Hw Hord Hfi Hda Hfu]. cbn in *. rw (Hfu eq_refl) in Hw Hord Hfi Hda |- *. exists (RGh (S j) false). split; [|done]. split; cbn.
  - rw ld64_st64_eq counter_add count_S /u64 Z.mod_mod //.
  - rw ld64_st64_ne //. rw /read_done /write_done. lia.
  - lia.
  - intros i Hf. destruct (Hfi i Hf) as [? _]. lia.
  - lia.
  - done.
Qed.
Lemma r_turn j : Rt t (RGh j false) (read_turn gen rd (Z.of_nat sz) (gst (j * sz))) (fun g' g => g' = gst (S j * sz) /\ g = RGh (S j) false).
Proof.
  rw /read_turn. eapply t_bind; [apply r_wait|]. intros p g [-> ->]. rw Nat2Z.id. eapply t_bind.
  { pose proof (r_check j 0 0 sz ltac:(lia)) as H. rw Z.add_0_r Nat.add_0_r in H. exact H. }
  intros [p g'] g [Hg ->]. cbn in Hg. subst g'. eapply t_bind; [apply t_print|]. intros _ g ->. eapply t_bind; [apply t_print|]. intros _ g ->.
  eapply t_bind; [apply r_finish|]. intros _ g ->. eapply t_bind; [apply t_print|]. intros _ g ->. apply t_ret. split; [f_equal; lia|done].
Qed.
Lemma r_loop limit : limit < 2 ^ 63 -> Rt t (RGh O false) (read_loop gen rd (Z.of_nat sz) limit g0;; mret tt) (fun _ g => limit <= Z.of_nat sz * Z.of_nat (rg_j g)).
Proof.
  intros Hl. apply (t_bind _ _ _ _ _ (fun _ g => limit <= Z.of_nat sz * Z.of_nat (rg_j g))); [|intros _ g Hg; by apply t_ret].
  apply (t_loop _ _ (fun st g => exists j, st = (Z.of_nat sz * Z.of_nat j, gst (j * sz)) /\ g = RGh j false)).
  { exists O. split; [by rw Z.mul_0_r|done]. }
  intros st g (j & -> & ->). destruct (Z.ltb_spec (Z.of_nat sz * Z.of_nat j) limit); [|by apply t_ret].
  eapply t_bind; [apply r_turn|]. intros g' g (-> & ->). apply t_ret. exists (S j). split; [|done]. rw u64_small; [f_equal; lia|lia].
Qed.
End reader.
End transfer.

(** C5: when a block fits the buffer but two do not, a writer and a reader of
    [ringtest.c] transfer any sequence of blocks intact: in every interleaving,
    down to single bytes, neither process panics or does anything undefined
    (so the comparison of a byte read with the byte written never fails),
    at most one block is unread, the book holds the two counts, and a process
    that has ended has transferred its limit. *)
Theorem ring_transfer_intact {G} (gen : G -> Z * G) g0 a c0 (sz : nat) tw tr rdw rdr ew er lw lr m N st :
  Z.of_nat sz <= BUF_SIZE < 2 * Z.of_nat sz -> 0 <= a -> a + BOOKOFFSET < 2 ^ 64 -> lw < 2 ^ 63 -> lr < 2 ^ 63 ->
  opened tw rdw ew -> opened tr rdr er -> u_buf ew = a -> u_buf er = a -> u_book ew = a + BOOKOFFSET -> u_book er = a + BOOKOFFSET ->
  book_inv m (a + BOOKOFFSET) c0 c0 ->
  rtc istep (Ipc m (start tw N (write_loop gen rdw (Z.of_nat sz) lw g0;; mret tt)) (start tr N (read_loop gen rdr (Z.of_nat sz) lr g0;; mret tt))) st ->
  unharmed (ipc_mem st) (ipc_w st) /\ unharmed (ipc_mem st) (ipc_r st) /\
  exists j k : nat, (j <= k <= j + 1)%nat /\
    book_inv (ipc_mem st) (a + BOOKOFFSET) (c0 + Z.of_nat sz * Z.of_nat j) (c0 + Z.of_nat sz * Z.of_nat k) /\
    (pr_next (ipc_w st) = None -> lw <= Z.of_nat sz * Z.of_nat k) /\ (pr_next (ipc_r st) = None -> lr <= Z.of_nat sz * Z.of_nat j).
Proof.
  intros Hone Ha Hb64 Hlw Hlr How Hor Hbw Hbr Hkw Hkr [Hr Hw _] Hsteps. change BUF_SIZE with 65536 in Hone. set (b := a + BOOKOFFSET) in *.
  assert (0 < sz)%nat as Hsz by lia. assert (b = a + 131072) as Hb by done.
  destruct (adequate (inv gen g0 a b c0 sz) tw tr (fun g => lw <= Z.of_nat sz * Z.of_nat (wg_k g)) (fun g => lr <= Z.of_nat sz * Z.of_nat (rg_j g))
    m N (write_loop gen rdw (Z.of_nat sz) lw g0;; mret tt) (read_loop gen rdr (Z.of_nat sz) lr g0;; mret tt) (WG O None O) (RGh O false) st)
    as ([k fi se] & [j fu] & HI & Huw & Hur & HQw & HQr); [|by eapply w_loop|by eapply r_loop|done|].
  { split; cbn; rw /count ?Z.mul_0_r ?Z.add_0_r; try done; lia. }
  destruct HI as [Hr' Hw' Hord _ _ _]. cbn in *. split_and!; [done|done|]. exists j, k. split_and!; [lia|lia| |done|done].
  split; [done|done|]. rw /BUF_SIZE. nia.
Qed.

(** ** Two blocks fit *)

(** A run of one process without interference is an interleaving. *)
Lemma alone_writes (x : res ustate unit) s : alone x = Ok tt s -> forall m t o k r, k (UState m t o) = x ->
  rtc istep (Ipc m (Proc_ t o (Some k)) r) (Ipc (umem s) (Proc_ (utab s) (uout s) None) r).
Proof.
  induction x as [a s1|msg s1|s1| |s1 k1 IH]; intros E m t o k r Hk; cbn in E; [|done..|].
  - destruct a. injection E as <-. apply rtc_once, istep_w. by apply pstep_done with (k := k).
  - eapply rtc_l; [apply istep_w; by apply (pstep_sched _ _ _ _ s1 k1)|]. destruct s1 as [m1 t1 o1]. by eapply IH.
Qed.
Lemma alone_harms (x : res ustate unit) msg s : alone x = Panic msg s -> forall m t o k w, k (UState m t o) = x ->
  exists st, rtc istep (Ipc m w (Proc_ t o (Some k))) st /\ ~ unharmed (ipc_mem st) (ipc_r st).
Proof.
  induction x as [a s1|msg1 s1|s1| |s1 k1 IH]; intros E m t o k w Hk; cbn in E; [done| |done..|].
  - eexists. split; [apply rtc_refl|]. rw /unharmed /= Hk. tauto.
  - destruct s1 as [m1 t1 o1]. destruct (IH _ E m1 t1 o1 k1 w eq_refl) as (st & Hst & Hu). exists st. split; [|done].
    eapply rtc_l; [apply istep_r; by apply (pstep_sched _ _ _ _ (UState m1 t1 o1) k1)|done].
Qed.

Section overwrite.
Context {G : Type} (gen : G -> Z * G) (g0 : G) (a b c0 : Z) (sz : nat).
Context (Hsz : (0 < sz)%nat) (Ha : 0 <= a) (Hb : b = a + 131072) (Hb64 : b < 2 ^ 64).
Context (t : list uring) (rd : Z) (e : uring) (Ho : opened t rd e) (Hbuf : u_buf e = a) (Hbook : u_book e = b).
Abbreviation gst := (gst gen g0).
Abbreviation data := (data gen g0).
Abbreviation holds := (holds gen g0 a sz).
Abbreviation count := (count c0 sz).

Lemma gst_S i : (gen (gst i)).2 = gst (S i).
Proof. done. Qed.

Lemma alone_wait_write m o n k : book_inv m b c0 (count k) -> Z.of_nat sz * Z.of_nat (S k) <= BUF_SIZE ->
  alone (wait_write rd (Z.of_nat sz) (S n) (UState m t o)) = Ok a (UState m t o).
Proof.
  intros Hbk Hroom. rw -Hbook in Hbk. rw /wait_write /loop. cbn [loop_n]. rw alone_bindr alone_bind.
  rw (proj1 (start_offers_exact m t o rd e _ _ (S n) Ho Hbk)) Hbuf. rw (proj2 (Z.ltb_ge _ _)) //. rw /count. lia.
Qed.
Lemma alone_wait_read m o n k : book_inv m b c0 (count (S k)) ->
  alone (wait_read rd (Z.of_nat sz) (S n) (UState m t o)) = Ok a (UState m t o).
Proof.
  intros Hbk. rw -Hbook in Hbk. rw /wait_read /loop. cbn [loop_n]. rw alone_bindr alone_bind.
  rw (proj2 (start_offers_exact m t o rd e _ _ (S n) Ho Hbk)) Hbuf. rw (proj2 (Z.ltb_ge _ _)) //. rw /count. lia.
Qed.

(** Bytes stored from [a + i] on, the data from [j + i] on. *)
Lemma alone_put n j i m o N : (i + n <= sz)%nat -> Z.of_nat sz <= BUF_SIZE -> exists m',
  alone (put_bytes gen n (a + Z.of_nat i) (gst (j + i)) N (UState m t o)) =
    Ok (a + Z.of_nat (i + n), gst (j + (i + n))) (UState m' t o) /\
  (forall x, (i <= x < i + n)%nat -> ld8 m' (a + Z.of_nat x) = data (j + x)) /\
  (forall q, q < a + Z.of_nat i \/ a + Z.of_nat (i + n) <= q -> ld8 m' q = ld8 m q).
Proof.
  intros Hi Hs. rw /BUF_SIZE in Hs. revert i m Hi. induction n as [|n IH]; intros i m Hi; cbn [put_bytes].
  { exists m. rw Nat.add_0_r. split_and!; [done|lia|done]. }
  destruct (gen (gst (j + i))) as [x g'] eqn:Eg. rw u64_small; [|lia].
  assert (g' = gst (j + S i)) as -> by by rw Nat.add_succ_r -gst_S Eg.
  rw alone_bind. cbn. replace (a + Z.of_nat i + 1) with (a + Z.of_nat (S i)) by lia.
  set (m1 := st8 m (a + Z.of_nat i) (u8 x)). destruct (IH (S i) m1) as (m' & E & Hin & Hout); [lia|]. exists m'.
  replace (i + S n)%nat with (S i + n)%nat by lia. split_and!; [exact E|..].
  - intros y Hy. destruct (decide (y = i)) as [->|Hne]; [|apply Hin; lia].
    rw Hout; [|lia]. rw /m1 /= ld8_st8 decide_True // /data Eg /= /u8 Z.mod_mod //.
  - intros q Hq. rw Hout; [|lia]. rw /m1 /= ld8_st8_ne //. lia.
Qed.

(** One block stored and committed while nobody reads. *)
Lemma alone_write_turn k m o N : book_inv m b c0 (count k) -> Z.of_nat sz * Z.of_nat (S k) <= BUF_SIZE -> exists m' o',
  alone (write_turn gen rd (Z.of_nat sz) (gst (k * sz)) (S N) (UState m t o)) = Ok (gst (S k * sz)) (UState m' t o') /\
  book_inv m' b c0 (count (S k)) /\ holds m' k sz /\
  forall q, a + Z.of_nat sz <= q < b -> ld8 m' q = ld8 m q.
Proof.
  intros Hbk Hroom. assert (Z.of_nat sz <= BUF_SIZE) as Hs by nia. change BUF_SIZE with 65536 in *.
  rw /write_turn alone_bind (alone_wait_write m o N k) // alone_bind Nat2Z.id.
  destruct (alone_put sz (k * sz) 0 m o (S N)) as (m1 & E & Hin & Hout); [lia|done|].
  rw Z.add_0_r Nat.add_0_r Nat.add_0_l in E. rw E. cbn [uprintf]. rw !alone_bind. cbn [alone modify uprintf].
  rw alone_bind. cbn [alone modify uprintf]. rw alone_bind (finish_write_alone _ _ _ _ e) // Hbook.
  assert (forall p, b <= p -> ld8 m1 p = ld8 m p) as Hbk1 by (intros p Hp; apply Hout; lia).
  assert (forall p, p = read_done b \/ p = write_done b -> ld64 m1 p = ld64 m p) as Hcell.
  { intros p Hp. apply ldn_ext. intros q Hq. apply Hbk1. rw /read_done /write_done in Hp. lia. }
  destruct Hbk as [Hr Hw Hd]. do 2 eexists. split; [rw /= (Nat.add_comm sz); reflexivity|].
  cbn [umem set_uout]. rw Hcell; [|by right]. rw Hw i32_cell counter_add (count_S _ _ Hsz). split_and!.
  - split; [rw ld64_st64_ne; [by rw Hcell; [|left]|rw /read_done /write_done; lia]|rw ld64_st64_eq /u64 Z.mod_mod //|].
    rw /count /BUF_SIZE in Hd |- *. nia.
  - intros x Hx. rw ld8_stn_out; [apply Hin; lia|rw /write_done; lia].
  - intros q Hq. rw ld8_stn_out; [|rw /write_done; lia]. apply Hout. lia.
Qed.

(** The writer's loop from block [k] to block [k + d], the last one stored over
    the others. *)
Lemma alone_write_turns limit d k j m o N : (d < j)%nat -> (0 < k + d)%nat ->
  Z.of_nat sz * (Z.of_nat (k + d) - 1) < limit <= Z.of_nat sz * Z.of_nat (k + d) -> Z.of_nat sz * Z.of_nat (k + d) <= BUF_SIZE ->
  book_inv m b c0 (count k) -> ((0 < k)%nat -> holds m (k - 1) sz) -> exists m' o',
  alone (loop_n j (fun '(counter, g) =>
    if counter <? limit then g ← write_turn gen rd (Z.of_nat sz) g; mret (inl (u64 (counter + Z.of_nat sz), g))
    else mret (inr counter)) (Z.of_nat sz * Z.of_nat k, gst (k * sz)) (S N) (UState m t o)) =
    Ok (Z.of_nat sz * Z.of_nat (k + d)) (UState m' t o') /\
  book_inv m' b c0 (count (k + d)) /\ holds m' (k + d - 1) sz /\
  forall q, a + Z.of_nat sz <= q < b -> ld8 m' q = ld8 m q.
Proof.
  intros Hj H0 Hl Hroom Hbk Hh. change BUF_SIZE with 65536 in Hroom. revert k j m o Hj H0 Hl Hroom Hbk Hh.
  induction d as [|d IH]; intros k [|j] m o Hj H0 Hl Hroom Hbk Hh; [lia| |lia|]; cbn [loop_n].
  - rw Nat.add_0_r in H0 Hl |- *. rw (proj2 (Z.ltb_ge _ _)); [|lia]. exists m, o. split_and!; [done|done|by apply Hh|done].
  - rw (proj2 (Z.ltb_lt _ _)); [|nia]. rw alone_bindr alone_bind.
    destruct (alone_write_turn k m o N) as (m1 & o1 & -> & Hbk1 & Hh1 & Hf1); [done|change BUF_SIZE with 65536; nia|].
    cbn. rw u64_small; [|lia]. replace (Z.of_nat sz * Z.of_nat k + Z.of_nat sz) with (Z.of_nat sz * Z.of_nat (S k)) by lia.
    replace (k + S d)%nat with (S k + d)%nat in * by lia.
    destruct (IH (S k) j m1 o1) as (m2 & o2 & E & Hbk2 & Hh2 & Hf2); [lia|lia|done|done|done|by rw Nat.sub_succ Nat.sub_0_r|].
    exists m2, o2. split_and!; [exact E|done|done|]. intros q Hq. by rw Hf2 ?Hf1.
Qed.

(** The reader's comparison from byte [i] on fails when a byte differs. *)
Lemma alone_check_fails n i ch m o N k : (i + n <= sz)%nat -> Z.of_nat sz <= BUF_SIZE -> holds m k sz ->
  (exists x, (i <= x < i + n)%nat /\ data x <> data (k * sz + x)) -> exists msg s,
  alone (check_bytes gen n ch (a + Z.of_nat i) (gst i) N (UState m t o)) = Panic msg s.
Proof.
  intros Hi Hs Hh (x & Hx & Hne). change BUF_SIZE with 65536 in Hs. revert i ch o Hi Hx.
  induction n as [|n IH]; intros i ch o Hi Hx; [lia|]. cbn [check_bytes]. rw alone_bind.
  change (alone (get _ N (UState m t o))) with (Ok (ld8 m (a + Z.of_nat i)) (UState m t o)). cbv iota beta. rw Hh; [|lia].
  destruct (gen (gst i)) as [v g'] eqn:Eg. assert (g' = gst (S i)) as -> by by rw -gst_S Eg.
  destruct (Z.eqb_spec (data (k * sz + i)) (u8 v)) as [He|He]; cbn; [|by do 2 eexists].
  rw u64_small; [|lia]. replace (a + Z.of_nat i + 1) with (a + Z.of_nat (S i)) by lia. apply IH; [lia|].
  destruct (decide (x = i)) as [->|]; [|lia]. destruct Hne. by rw He /data Eg.
Qed.
Lemma alone_read_fails limit k m o N : 0 < limit -> Z.of_nat sz <= BUF_SIZE -> book_inv m b c0 (count (S k)) -> holds m k sz ->
  (exists x, (x < sz)%nat /\ data x <> data (k * sz + x)) -> exists msg s,
  alone ((read_loop gen rd (Z.of_nat sz) limit g0;; mret tt) (S N) (UState m t o)) = Panic msg s.
Proof.
  intros Hl Hs Hbk Hh (x & Hx & Hne). rw alone_bind /read_loop /loop. cbn [loop_n]. rw (proj2 (Z.ltb_lt _ _)) // alone_bindr alone_bind.
  rw /read_turn alone_bind (alone_wait_read m o N k) // alone_bind Nat2Z.id.
  destruct (alone_check_fails sz 0 0 m o (S N) k) as (msg & s & E); [lia|done|done|exists x; split; [lia|done]|].
  rw Z.add_0_r in E. change (gst 0) with g0 in E. rw E. by do 2 eexists.
Qed.
End overwrite.

(** C25: the data do not survive when two blocks fit the buffer.  A writer of
    [ringtest.c]'s loop that commits [n >= 2] blocks before the reader looks
    has stored them all at the start of the buffer, because
    [ringbuf_start_write] hands out that address whatever the counters say:
    the counters say that [n] blocks are unread, the buffer holds the last one
    only, the rest of it was never written; and a reader that then looks for
    the first block finds a wrong byte and exits, as soon as the first block
    differs from the last. *)
Theorem ring_overwrites_unread {G} (gen : G -> Z * G) g0 a c0 (sz n : nat) tw tr rdw rdr ew er lw lr m N :
  (0 < sz)%nat -> (2 <= n)%nat -> Z.of_nat sz * Z.of_nat n <= BUF_SIZE -> 0 <= a -> a + BOOKOFFSET < 2 ^ 64 ->
  Z.of_nat sz * (Z.of_nat n - 1) < lw <= Z.of_nat sz * Z.of_nat n -> 0 < lr -> (n < N)%nat ->
  opened tw rdw ew -> opened tr rdr er -> u_buf ew = a -> u_buf er = a -> u_book ew = a + BOOKOFFSET -> u_book er = a + BOOKOFFSET ->
  book_inv m (a + BOOKOFFSET) c0 c0 ->
  (exists x, (x < sz)%nat /\ data gen g0 x <> data gen g0 ((n - 1) * sz + x)) ->
  exists st st',
    rtc istep (Ipc m (start tw N (write_loop gen rdw (Z.of_nat sz) lw g0;; mret tt)) (start tr N (read_loop gen rdr (Z.of_nat sz) lr g0;; mret tt))) st /\
    pr_next (ipc_w st) = None /\
    book_inv (ipc_mem st) (a + BOOKOFFSET) c0 (c0 + Z.of_nat sz * Z.of_nat n) /\
    (forall x, (x < sz)%nat -> ld8 (ipc_mem st) (a + Z.of_nat x) = data gen g0 ((n - 1) * sz + x)) /\
    (forall q, a + Z.of_nat sz <= q < a + BUF_SIZE -> ld8 (ipc_mem st) q = ld8 m q) /\
    rtc istep st st' /\ ~ unharmed (ipc_mem st') (ipc_r st').
Proof.
  intros Hsz Hn Hroom Ha Hb64 Hlw Hlr HN How Hor Hbw Hbr Hkw Hkr Hbk Hne. destruct N as [|N]; [lia|].
  destruct (alone_write_turns gen g0 a (a + BOOKOFFSET) c0 sz Hsz Ha eq_refl Hb64 tw rdw ew How Hbw Hkw lw n 0 (S N) m [] N)
    as (m' & o' & E & Hbk' & Hh & Hf); [lia|lia|done|done|by rw /count Z.mul_0_r Z.add_0_r|lia|]. rw Z.mul_0_r in E.
  assert (alone ((write_loop gen rdw (Z.of_nat sz) lw g0;; mret tt) (S N) (UState m tw [])) = Ok tt (UState m' tw o')) as Ew.
  { rw alone_bind /write_loop /loop. change (gst gen g0 (0 * sz)) with g0 in E. by rw E. }
  rw Nat.add_0_l in Hbk' Hh. destruct n as [|n]; [lia|]. rw Nat.sub_succ Nat.sub_0_r in Hh Hne |- *.
  destruct (alone_read_fails gen g0 a (a + BOOKOFFSET) c0 sz Hsz Ha eq_refl Hb64 tr rdr er Hor Hbr Hkr lr n m' [] N)
    as (msg & s & Er); [done|change BUF_SIZE with 65536 in *; nia|done|done|done|].
  destruct (alone_harms _ _ _ Er m' tr [] _ (Proc_ tw o' None) eq_refl) as (st' & Hst' & Hu).
  eexists _, st'. split_and!; [by apply (alone_writes _ _ Ew)|done|done|done| |exact Hst'|done].
  intros q Hq. apply Hf. rw /BUF_SIZE /BOOKOFFSET in Hq |- *. lia.
Qed.

Definition uring1 : uring := URing 0 BOOKOFFSET 1 (replicate 16 0).
Definition book1 : memory := st64 (st64 ∅ (read_done BOOKOFFSET) 0) (write_done BOOKOFFSET) 0.
Lemma ring_transfer_intact_witness :
  unharmed book1 (start [uring1] 5 (write_loop rand 0 65536 100000 1;; mret tt)).
Proof.
  destruct (ring_transfer_intact rand 1 0 0 (Z.to_nat 65536) [uring1] [uring1] 0 0 uring1 uring1 100000 100000 book1 5%nat
    (Ipc book1 (start [uring1] 5 (write_loop rand 0 65536 100000 1;; mret tt)) (start [uring1] 5 (read_loop rand 0 65536 100000 1;; mret tt)))) as (H & _).
  - done.
  - done.
  - done.
  - done.
  - done.
  - by split_and!.
  - by split_and!.
  - reflexivity.
  - reflexivity.
  - reflexivity.
  - reflexivity.
  - by split.
  - apply rtc_refl.
  - exact H.
Defined.

(** Two blocks of 4096 bytes of [ringtest.c]'s generator. *)
Lemma ring_overwrites_unread_witness : exists st st',
  rtc istep (Ipc book1 (start [uring1] 8 (write_loop rand 0 4096 8192 1;; mret tt)) (start [uring1] 8 (read_loop rand 0 4096 4096 1;; mret tt))) st /\
  book_inv (ipc_mem st) BOOKOFFSET 0 8192 /\ rtc istep st st' /\ ~ unharmed (ipc_mem st') (ipc_r st').
Proof.
  destruct (ring_overwrites_unread rand 1 0 0 (Z.to_nat 4096) 2 [uring1] [uring1] 0 0 uring1 uring1 8192 4096 book1 8%nat)
    as (st & st' & H1 & _ & H2 & _ & _ & H3 & H4).
  - lia.
  - lia.
  - done.
  - done.
  - done.
  - done.
  - done.
  - lia.
  - by split_and!.
  - by split_and!.
  - reflexivity.
  - reflexivity.
  - reflexivity.
  - reflexivity.
  - by split.
  - exists 0%nat. split; [lia|]. by vm_compute.
  - exists st, st'. split_and!; [exact H1|exact H2|exact H3|exact H4].
Defined.
