(* ===== verification/Ulib.v ===== *)
(** * [user/ulib.c] and [user/printf.c]

    The C library of the user programs.  A user program runs over a state [S]
    of which it sees only the system calls ([Usys]); [exit] ends the run.
    Strings are character arrays, as in the model of [kernel/string.c]. *)

From Stdlib Require Import Ascii.
From S2P Require Import Prelude Mem KString Spinlock Machine Printf.

(** [struct stat] *)
Record ustat := UStat { st_dev : Z; st_ino : Z; st_type : Z; st_nlink : Z; st_size : Z }.

(** The system calls of [user.h] that the programs make.  [sys_read] returns
    its result together with the bytes it stored, [sys_fstat] and [sys_pipe]
    what they stored. *)
Class Usys (S : Type) := {
  sys_read : Z -> Z -> K S (Z * list Z);
  sys_write : Z -> list Z -> K S Z;
  sys_open : list Z -> Z -> K S Z;
  sys_close : Z -> K S Z;
  sys_fstat : Z -> K S (Z * ustat);
  sys_dup : Z -> K S Z;
  sys_pipe : K S (Z * (Z * Z));
  sys_fork : K S Z;
  sys_wait : K S Z;
  sys_exec : list Z -> list (list Z) -> K S Z;
  sys_kill : Z -> K S Z;
  sys_sleep : Z -> K S Z;
  sys_chdir : list Z -> K S Z;
  sys_mknod : list Z -> Z -> Z -> K S Z;
  sys_link : list Z -> list Z -> K S Z;
  sys_unlink : list Z -> K S Z;
  sys_mkdir : list Z -> K S Z;
}.

Module Ulib.
Section ulib.
Context {S : Type} {sys : Usys S}.

(** [exit(n)] does not return. *)
Definition exit {A} (n : Z) : K S A := panic (if n =? 0 then "exit(0)" else "exit(1)").

(** ** Strings *)

(** [while(( *s++ = *t++) != 0)]: the new contents of [s]; [None] when either
    array ends first. *)
Fixpoint strcpy (s t : list Z) : option (list Z) :=
  match s, t with
  | _ :: s', x :: t' => if x =? 0 then Some (0 :: s') else cons x <$> strcpy s' t'
  | _, _ => None
  end.

Fixpoint strcmp (p q : list Z) : option Z :=
  match p, q with
  | x :: p', y :: q' => if negb (x =? 0) && (x =? y) then strcmp p' q' else Some (u8 x - u8 y)
  | _, _ => None
  end.

Fixpoint strlen_loop (n : Z) (s : list Z) : option Z :=
  match s with
  | [] => None
  | c :: s' => if c =? 0 then Some n else strlen_loop (n + 1) s'
  end.
Definition strlen (s : list Z) : option Z := u32 <$> strlen_loop 0 s.

(** The position of [c] before the NUL: [Some None] is the null pointer. *)
Fixpoint strchr (s : list Z) (c : Z) : option (option nat) :=
  match s with
  | [] => None
  | x :: s' =>
      if x =? 0 then Some None
      else if x =? c then Some (Some O)
      else option_map Datatypes.S <$> strchr s' c
  end.

(** [n = n*10 + *s++ - '0'] in [int]. *)
Fixpoint atoi_loop (n : Z) (s : list Z) : option Z :=
  match s with
  | [] => None
  | c :: s' =>
      if (chr "0" <=? c) && (c <=? chr "9") then atoi_loop (i32 (n * 10 + c - chr "0")) s' else Some n
  end.
Definition atoi (s : list Z) : option Z := atoi_loop 0 s.

(** ** Memory *)

Fixpoint memset_loop (k : nat) (i : Z) (m : memory) (dst c : Z) : memory :=
  match k with
  | O => m
  | Datatypes.S k' => memset_loop k' (i + 1) (st8 m (dst + i) c) dst c
  end.
Definition memset (m : memory) (dst c n : Z) : memory := memset_loop (Z.to_nat (u32 n)) 0 m dst c.

(** Forwards when the source is above, else backwards from the end. *)
Definition memmove (m : memory) (vdst vsrc n : Z) : memory :=
  if vdst <? vsrc then copy_up (Z.to_nat n) m vdst vsrc
  else copy_down (Z.to_nat n) m (vdst + n) (vsrc + n).
Definition memcmp (m : memory) (s1 s2 n : Z) : Z := memcmp_loop (Z.to_nat (u32 n)) m s1 s2.
Definition memcpy (m : memory) (dst src n : Z) : memory := memmove m dst src (i32 n).

(** ** Input *)

(** [buf[i] = c]: undefined outside the array. *)
Definition put (buf : list Z) (i c : Z) : K S (list Z) :=
  if arr_ok buf i then mret (arr_set buf i c) else undef.

Definition gets (buf : list Z) (max : Z) : K S (list Z) :=
  '(buf, i) ← loop (fun '(buf, i) =>
    if negb (i + 1 <? max) then mret (inr (buf, i)) else
    '(cc, l) ← sys_read 0 1;
    if cc <? 1 then mret (inr (buf, i)) else
    c ← arr_get l 0;
    buf ← put buf i c;
    if (c =? 10) || (c =? 13) then mret (inr (buf, i + 1)) else mret (inl (buf, i + 1))) (buf, 0);
  put buf i 0.

Definition O_RDONLY : Z := 0x000.
Definition O_WRONLY : Z := 0x001.
Definition O_RDWR : Z := 0x002.
Definition O_CREATE : Z := 0x200.
Definition O_TRUNC : Z := 0x400.

Definition stat (n : list Z) : K S (Z * option ustat) :=
  fd ← sys_open n O_RDONLY;
  if fd <? 0 then mret (-1, None) else
  '(r, st) ← sys_fstat fd;
  sys_close fd;;
  mret (r, Some st).

(** ** Formatted output *)

Definition digits : list Z := bytes_of_string "0123456789ABCDEF".

Definition putc (fd c : Z) : K S unit := sys_write fd [u8 c];; mret tt.

(** The characters of [x] in [base], least significant first; [buf] has 16
    elements. *)
Fixpoint printint_loop (fuel : nat) (x base : Z) (buf : list Z) : K S (list Z) :=
  match fuel with
  | O => spin
  | Datatypes.S fuel' =>
    if negb (length buf <? 16)%nat then undef else
    d ← arr_get digits (x mod base);
    let buf := buf ++ [d] in
    let x := x / base in
    if negb (x =? 0) then printint_loop fuel' x base buf else mret buf
  end.
Definition printint (fd xx base : Z) (sgn : bool) : K S unit :=
  let xx := i32 xx in
  let neg := sgn && (xx <? 0) in
  if neg && (xx =? - 2 ^ 31) then undef else   (* -xx overflows *)
  let x := if neg then u32 (- xx) else u32 xx in
  buf ← printint_loop 33 x base [];
  if neg && negb (length buf <? 16)%nat then undef else
  let buf := if neg then buf ++ [chr "-"] else buf in
  for_each (rev buf) (putc fd).

Definition printptr (fd x : Z) : K S unit :=
  putc fd (chr "0");; putc fd (chr "x");;
  _ ← for_fold (rangeZ 16) x (fun x _ =>
        d ← arr_get digits (Z.shiftr x 60); putc fd d;; mret (u64 (Z.shiftl x 4)));
  mret tt.

Fixpoint putstr (fd : Z) (s : list Z) : K S unit :=
  match s with
  | [] => undef
  | c :: s' => if c =? 0 then mret tt else putc fd c;; putstr fd s'
  end.

(** [va_arg(ap, t)]: undefined without an argument or with one of another type. *)
Definition va_int (ap : list arg) : K S (Z * list arg) :=
  match ap with AInt x :: ap' => mret (x, ap') | _ => undef end.
Definition va_ptr (ap : list arg) : K S (Z * list arg) :=
  match ap with APtr x :: ap' => mret (x, ap') | _ => undef end.
Definition va_str (ap : list arg) : K S (option (list Z) * list arg) :=
  match ap with AStr s :: ap' => mret (s, ap') | _ => undef end.

(** [state] is 0 or ['%']. *)
Fixpoint vprintf (fd : Z) (state : Z) (fmt : list Z) (ap : list arg) : K S unit :=
  match fmt with
  | [] => undef
  | c :: fmt' =>
    if c =? 0 then mret tt else
    if state =? 0 then
      if c =? chr "%" then vprintf fd (chr "%") fmt' ap else putc fd c;; vprintf fd 0 fmt' ap
    else
      if c =? chr "d" then '(x, ap) ← va_int ap; printint fd x 10 true;; vprintf fd 0 fmt' ap
      else if c =? chr "l" then '(x, ap) ← va_ptr ap; printint fd x 10 false;; vprintf fd 0 fmt' ap
      else if c =? chr "x" then '(x, ap) ← va_int ap; printint fd x 16 false;; vprintf fd 0 fmt' ap
      else if c =? chr "p" then '(x, ap) ← va_ptr ap; printptr fd x;; vprintf fd 0 fmt' ap
      else if c =? chr "s" then
        '(s, ap) ← va_str ap; putstr fd (default (cstring "(null)") s);; vprintf fd 0 fmt' ap
      else if c =? chr "c" then '(x, ap) ← va_int ap; putc fd x;; vprintf fd 0 fmt' ap
      else if c =? chr "%" then putc fd c;; vprintf fd 0 fmt' ap
      else putc fd (chr "%");; putc fd c;; vprintf fd 0 fmt' ap
  end.
Definition fprintf (fd : Z) (fmt : string) (ap : list arg) : K S unit := vprintf fd 0 (cstring fmt) ap.
Definition printf (fmt : string) (ap : list arg) : K S unit := vprintf 1 0 (cstring fmt) ap.

End ulib.
End Ulib.

(** ** Files as streams *)

(** What the programs rely on of [read] and [write]: a file descriptor has
    unread input, [read] delivers a piece of it, empty only at its end or when
    nothing was asked for; writes are recorded in order. *)
Class StreamOk (S : Type) `{!Usys S} := {
  input : Z -> S -> list Z;
  output : S -> list (Z * list Z);
  sys_read_wp : forall fd n N s, 0 <= n -> wp (sys_read fd n) N s (fun r s' =>
    exists l, r = (Z.of_nat (length l), l) /\ Z.of_nat (length l) <= n /\
      input fd s = l ++ input fd s' /\ (l = [] -> n = 0 \/ input fd s = []) /\ output s' = output s);
  sys_write_wp : forall fd l N s, wp (sys_write fd l) N s (fun r s' =>
    r = Z.of_nat (length l) /\ output s' = output s ++ [(fd, l)] /\ forall fd', input fd' s' = input fd' s);
}.

(** A process whose input arrives in pieces of the sizes [w_cuts] (plus one). *)
Record world := World { w_in : list Z; w_cuts : list nat; w_out : list (Z * list Z) }.

Definition world_read (n : Z) (w : world) : list Z * world :=
  let k := Nat.min (Z.to_nat n) (S (hd O (w_cuts w))) in
  (take k (w_in w), World (drop k (w_in w)) (tl (w_cuts w)) (w_out w)).

#[export] Instance world_sys : Usys world := {|
  sys_read := fun _ n _ w => let '(l, w') := world_read n w in Ok (Z.of_nat (length l), l) w';
  sys_write := fun fd l _ w => Ok (Z.of_nat (length l)) (World (w_in w) (w_cuts w) (w_out w ++ [(fd, l)]));
  sys_open := fun _ _ => mret 3;
  sys_close := fun _ => mret 0;
  sys_fstat := fun _ => mret (-1, UStat 0 0 0 0 0);
  sys_dup := fun _ => mret (-1);
  sys_pipe := mret (-1, (0, 0));
  sys_fork := mret (-1);
  sys_wait := mret (-1);
  sys_exec := fun _ _ => mret (-1);
  sys_kill := fun _ => mret (-1);
  sys_sleep := fun _ => mret 0;
  sys_chdir := fun _ => mret (-1);
  sys_mknod := fun _ _ _ => mret (-1);
  sys_link := fun _ _ => mret (-1);
  sys_unlink := fun _ => mret (-1);
  sys_mkdir := fun _ => mret (-1);
|}.
#[export] Instance world_ok : StreamOk world.
Proof.
  exists (fun _ w => w_in w) w_out.
  - intros fd n N [i c o] Hn. rw /wp /=. set (k := Nat.min _ _). exists (take k i). split_and!; [done| | | |done].
    + rw length_take. lia.
    + by rw take_drop.
    + intros E. apply (f_equal length) in E. rw length_take /= in E. destruct (decide (n = 0)) as [|Hne]; [by left|].
      right. destruct i; [done|]. simpl in E. lia.
  - intros fd l N w. done.
Defined.
