(* ===== verification/UlibSpec.v ===== *)
(** * Main properties of the user C library

    The text [printf] writes, against a specification of formats that does not
    follow the code; numbers read by [atoi]; the line [gets] reads. *)

From Stdlib Require Import Ascii.
From S2P Require Import Prelude Mem KString Spinlock Machine Printf Ulib.

(** ** Digits *)

(** The digits of [x] in [base], least significant first: at most [k]. *)
Fixpoint digs (k : nat) (base x : Z) : list Z :=
  match k with
  | O => []
  | S k' => x mod base :: (if x / base =? 0 then [] else digs k' base (x / base))
  end.
(** The value of digits, most significant first. *)
Definition value (base : Z) (l : list Z) : Z := fold_left (fun a d => a * base + d) l 0.
Definition digit_char (d : Z) : Z := Ulib.digits !!! Z.to_nat d.

Lemma fold_value base l a : fold_left (fun a d => a * base + d) l a = a * base ^ Z.of_nat (length l) + value base l.
Proof.
  rw /value. revert a. induction l as [|d l IH]; intros a; simpl; [by rw Z.mul_1_r Z.add_0_r|].
  rw IH (IH d) Nat2Z.inj_succ Z.pow_succ_r; lia.
Qed.
Lemma value_snoc base l d : value base (l ++ [d]) = value base l * base + d.
Proof. by rw /value fold_left_app. Qed.

Lemma digs_spec k base x : 1 < base -> 0 <= x < base ^ Z.of_nat k -> (0 < k)%nat ->
  value base (rev (digs k base x)) = x /\ Forall (fun d => 0 <= d < base) (digs k base x) /\
  (0 < length (digs k base x) <= k)%nat.
Proof.
  intros Hb. revert x. induction k as [|k IH]; intros x Hx Hk; [lia|]. simpl.
  pose proof (Z.mod_pos_bound x base ltac:(lia)) as Hm. pose proof (Z.div_mod x base ltac:(lia)) as Hd.
  destruct (Z.eqb_spec (x / base) 0) as [E|E].
  - split_and!; [rw /value /=; nia|constructor; [done|constructor]|simpl; lia..].
  - assert (0 <= x / base) as H0 by (apply Z.div_pos; lia).
    assert (x / base < base ^ Z.of_nat k) as Hlt.
    { apply Z.div_lt_upper_bound; [lia|]. rw Nat2Z.inj_succ Z.pow_succ_r in Hx; lia. }
    destruct k as [|k]; [change (base ^ Z.of_nat 0) with 1 in Hlt; lia|].
    destruct (IH (x / base)) as (IHv & IHf & IHl); [done|lia|].
    split_and!; [|by constructor|simpl in *; lia..].
    simpl rev. rw value_snoc IHv. lia.
Qed.

Lemma digit_lookup d : 0 <= d < 16 -> Ulib.digits !! Z.to_nat d = Some (digit_char d).
Proof. intros Hd. apply list_lookup_lookup_total_lt. change (length Ulib.digits) with 16%nat. lia. Qed.
Lemma digit_decimal d : 0 <= d < 10 -> digit_char d = chr "0" + d.
Proof.
  intros Hd. assert (forallb (fun d => digit_char d =? chr "0" + d) (rangeZ 10) = true) as H by by vm_compute.
  rw forallb_forall in H. apply Z.eqb_eq, H, list_elem_of_In, elem_of_rangeZ. lia.
Qed.

(** ** [printint] *)

Section printing.
Context {S : Type} {sys : Usys S} {ok : StreamOk S}.
Implicit Types (s : S) (fd : Z).

Lemma printint_loop_run k fuel base x buf n s :
  1 < base <= 16 -> 0 <= x < base ^ Z.of_nat k -> (0 < k <= fuel)%nat -> (length buf + k <= 16)%nat ->
  Ulib.printint_loop fuel x base buf n s = Ok (buf ++ (digit_char <$> digs k base x)) s.
Proof.
  intros Hb. revert fuel x buf. induction k as [|k IH]; intros fuel x buf Hx Hk Hl; [lia|].
  destruct fuel as [|fuel]; [lia|]. cbn [Ulib.printint_loop].
  rw (proj2 (Nat.ltb_lt _ _)); [|lia]. cbn [negb]. pose proof (Z.mod_pos_bound x base ltac:(lia)) as Hm.
  rw /mbind /K_bind /arr_get (proj2 (Z.ltb_ge _ _)); [|lia]. rw digit_lookup; [|lia]. cbn [mret K_ret bindr digs].
  destruct (Z.eqb_spec (x / base) 0) as [E|E]; cbn [negb fmap list_fmap]; [done|].
  assert (0 <= x / base < base ^ Z.of_nat k) as Hlt.
  { split; [apply Z.div_pos; lia|]. apply Z.div_lt_upper_bound; [lia|]. rw Nat2Z.inj_succ Z.pow_succ_r in Hx; lia. }
  destruct k as [|k]; [change (base ^ Z.of_nat 0) with 1 in Hlt; lia|].
  rw IH; [|done|lia|rw length_app /=; lia]. by rw -app_assoc.
Qed.

(** Characters written one at a time. *)
Definition chars fd (l : list Z) : list (Z * list Z) := (fun c => (fd, [c])) <$> l.

(** Output only: the text [t] is written to [fd]. *)
Definition writes fd (t : list Z) s s' : Prop :=
  output s' = output s ++ chars fd t /\ forall fd', input fd' s' = input fd' s.
Lemma wrote_nil fd s : writes fd [] s s.
Proof. by rw /writes app_nil_r. Qed.
Lemma wrote_app fd t1 t2 s s1 s2 : writes fd t1 s s1 -> writes fd t2 s1 s2 -> writes fd (t1 ++ t2) s s2.
Proof. intros [H1 I1] [H2 I2]. split; [by rw H2 H1 /chars fmap_app app_assoc|]. intros fd'. by rw I2. Qed.

Lemma putc_writes fd c n s : wp (Ulib.putc fd c) n s (fun _ s' => writes fd [u8 c] s s').
Proof. apply wp_bind. eapply wp_mono; [apply sys_write_wp|]. intros r s' (_ & Ho & Hi). by apply wp_ret. Qed.
Lemma puts_writes fd l n s : Forall (fun c => 0 <= c < 256) l ->
  wp (for_each l (Ulib.putc fd)) n s (fun _ s' => writes fd l s s').
Proof.
  intros Hl. apply (wp_for_each (fun pre s' => writes fd pre s s')); [apply wrote_nil| |done].
  intros pre c rest s1 -> E. eapply wp_mono; [apply putc_writes|]. intros [] s2 E2.
  apply Forall_app in Hl as [_ Hl]. apply Forall_cons_1 in Hl as [Hc _]. rw u8_small // in E2. by eapply wrote_app.
Qed.

Lemma digits_byte l : Forall (fun d => 0 <= d < 16) l -> Forall (fun c => 0 <= c < 256) (digit_char <$> l).
Proof.
  intros Hl. apply Forall_fmap. eapply Forall_impl; [exact Hl|]. intros d Hd. simpl.
  assert (Forall (fun c => 0 <= c < 256) Ulib.digits) as Hall by (by repeat constructor).
  rw Forall_lookup in Hall. eapply Hall, digit_lookup, Hd.
Qed.

(** The text of a C [int] in [base]. *)
Definition int_text (base : Z) (sgn : bool) (xx : Z) : list Z :=
  let neg := sgn && (xx <? 0) in
  (if neg then [chr "-"] else []) ++ (digit_char <$> rev (digs 16 base (if neg then - xx else u32 xx))).

Lemma digs_more k k' base x : 1 < base -> 0 <= x < base ^ Z.of_nat k -> (0 < k <= k')%nat -> digs k base x = digs k' base x.
Proof.
  intros Hb. revert k' x. induction k as [|k IH]; intros k' x Hx Hk; [lia|]. destruct k' as [|k']; [lia|]. simpl.
  destruct (Z.eqb_spec (x / base) 0) as [E|E]; [done|]. f_equal.
  assert (0 <= x / base < base ^ Z.of_nat k) as Hlt.
  { split; [apply Z.div_pos; lia|]. apply Z.div_lt_upper_bound; [lia|]. rw Nat2Z.inj_succ Z.pow_succ_r in Hx; lia. }
  destruct k as [|k]; [change (base ^ Z.of_nat 0) with 1 in Hlt; lia|]. apply IH; [done|lia].
Qed.

Lemma base_pow base x : base = 10 \/ base = 16 -> 0 <= x < 2 ^ 32 -> 0 <= x < base ^ Z.of_nat 10.
Proof. intros [-> | ->]; simpl; lia. Qed.

Lemma printint_wp fd xx base sgn n s : base = 10 \/ base = 16 -> - 2 ^ 31 <= xx < 2 ^ 31 -> sgn && (xx =? - 2 ^ 31) = false ->
  wp (Ulib.printint fd xx base sgn) n s (fun _ s' => writes fd (int_text base sgn xx) s s') /\
  (length (int_text base sgn xx) <= 11)%nat.
Proof.
  intros Hb Hx Hmin. assert (1 < base <= 16) as Hb' by lia. set (neg := sgn && (xx <? 0)).
  set (x := if neg then - xx else u32 xx).
  assert (0 <= x < 2 ^ 32) as Hxr.
  { rw /x. destruct neg eqn:E; [rw /neg in E; zbool; lia|apply u32_range]. }
  pose proof (base_pow base x Hb Hxr) as Hx10.
  destruct (digs_spec 10 base x) as (_ & Hd & Hlen); [lia|done|lia|].
  assert (digs 16 base x = digs 10 base x) as E16 by (symmetry; apply digs_more; [lia|done|lia]).
  rw /int_text -/neg -/x E16. split; last first.
  { rw length_app length_fmap length_rev. destruct neg; cbn [length]; lia. }
  rw /Ulib.printint i32_small // -/neg.
  assert (neg && (xx =? - 2 ^ 31) = false) as -> by (rw /neg; destruct sgn; [by rw andb_true_l in Hmin; rw Hmin andb_false_r|done]).
  replace (if neg then u32 (- xx) else u32 xx) with x; last first.
  { rw /x. destruct neg eqn:E; [|done]. rw /neg in E. zbool. symmetry. apply u32_small. lia. }
  apply wp_bind. rw /wp (printint_loop_run 10); [|lia|done|lia|simpl; lia]. cbn [app].
  rw length_fmap (proj2 (Nat.ltb_lt (length (digs 10 base x)) 16)); [|lia]. rw andb_false_r.
  set (l := digit_char <$> digs 10 base x).
  assert (Forall (fun c => 0 <= c < 256) l) as Hl.
  { apply digits_byte. eapply Forall_impl; [exact Hd|]. intros d Hd'. simpl in Hd'. lia. }
  assert (rev (if neg then l ++ [chr "-"] else l) =
    (if neg then [chr "-"] else []) ++ (digit_char <$> rev (digs 10 base x))) as Erev.
  { rw /l. change (digit_char <$> rev (digs 10 base x)) with (map digit_char (rev (digs 10 base x))). rw map_rev.
    destruct neg; [by rw rev_app_distr|done]. }
  rw -Erev. apply puts_writes. apply Forall_rev. destruct neg; [|done]. apply Forall_app. split; [done|by repeat constructor].
Qed.

(** ** [vprintf] *)

(** The 16 digits of a pointer. *)
Definition ptr_text (x : Z) : list Z :=
  [chr "0"; chr "x"] ++ ((fun i => digit_char (x / 16 ^ (15 - i) mod 16)) <$> rangeZ 16).
(** The text of a string argument. *)
Definition str_text (s : option (list Z)) : option (list Z) := map u8 <$> cstr (default (cstring "(null)") s).

(** The text of a signed argument; for the least [int] the code is undefined. *)
Definition signed_text (x : Z) : option (list Z) :=
  if i32 x =? - 2 ^ 31 then None else Some (int_text 10 true (i32 x)).
Lemma signed_text_small x : - 2 ^ 31 < x < 2 ^ 31 -> signed_text x = Some (int_text 10 true x).
Proof. intros Hx. rw /signed_text i32_small; [|lia]. rw (proj2 (Z.eqb_neq _ _)) //. lia. Qed.

(** What the scan of a format writes; [pct]: after a ["%"].  This follows the
    code, which understands more than its comment promises: ["%l"] prints the
    low 32 bits of a [uint64]. *)
Fixpoint fmt_text (pct : bool) (fmt : list Z) (ap : list arg) : option (list Z) :=
  match fmt with
  | [] => None
  | c :: fmt' =>
    if c =? 0 then Some [] else
    if negb pct then
      if c =? chr "%" then fmt_text true fmt' ap else cons (u8 c) <$> fmt_text false fmt' ap
    else if c =? chr "d" then
      match ap with AInt x :: ap => t ← signed_text x; app t <$> fmt_text false fmt' ap | _ => None end
    else if c =? chr "l" then
      match ap with APtr x :: ap => app (int_text 10 false (i32 x)) <$> fmt_text false fmt' ap | _ => None end
    else if c =? chr "x" then
      match ap with AInt x :: ap => app (int_text 16 false (i32 x)) <$> fmt_text false fmt' ap | _ => None end
    else if c =? chr "p" then
      match ap with APtr x :: ap => app (ptr_text x) <$> fmt_text false fmt' ap | _ => None end
    else if c =? chr "s" then
      match ap with AStr s :: ap => t ← str_text s; app t <$> fmt_text false fmt' ap | _ => None end
    else if c =? chr "c" then
      match ap with AInt x :: ap => cons (u8 x) <$> fmt_text false fmt' ap | _ => None end
    else if c =? chr "%" then cons (u8 c) <$> fmt_text false fmt' ap
    else app [chr "%"; u8 c] <$> fmt_text false fmt' ap
  end.
Definition args_ok (ap : list arg) : Prop := Forall (fun a => if a is APtr x then 0 <= x < 2 ^ 64 else True) ap.

Lemma putstr_writes fd l t n s : cstr l = Some t -> wp (Ulib.putstr fd l) n s (fun _ s' => writes fd (u8 <$> t) s s').
Proof.
  revert t s. induction l as [|c l IH]; intros t s Ht; [done|]. cbn [Ulib.putstr]. simpl in Ht.
  destruct (Z.eqb_spec c 0) as [->|Hc]; [simplify_eq; apply wp_ret, wrote_nil|].
  assert (exists t', cstr l = Some t' /\ t = c :: t') as (t' & Ht' & ->).
  { destruct c; [done|..]; destruct (cstr l); simplify_eq/=; eauto. }
  apply wp_bind. eapply wp_mono; [apply putc_writes|]. intros [] s1 E1.
  eapply wp_mono; [by apply IH|]. intros [] s2 E2. cbn [fmap list_fmap]. by apply (wrote_app fd [u8 c] _ s s1).
Qed.

Lemma printint_writes fd xx base sgn n s : base = 10 \/ base = 16 -> sgn && (i32 xx =? - 2 ^ 31) = false ->
  wp (Ulib.printint fd xx base sgn) n s (fun _ s' => writes fd (int_text base sgn (i32 xx)) s s').
Proof.
  intros Hb Hmin. destruct (printint_wp fd (i32 xx) base sgn n s Hb (i32_range xx) Hmin) as [Hwp _].
  rw /Ulib.printint in Hwp |- *. by rw (i32_small (i32 xx)) in Hwp; [|apply i32_range].
Qed.

Lemma nibble x i : 0 <= i < 16 -> u64 (x * 16 ^ i) / 2 ^ 60 = x / 16 ^ (15 - i) mod 16.
Proof.
  intros Hi. rw /u64. change (2 ^ 60) with (16 ^ 15).
  assert (0 < 16 ^ i /\ 0 < 16 ^ (15 - i)) as [H1 H2] by (split; apply Z.pow_pos_nonneg; lia).
  replace (2 ^ 64) with (16 ^ (15 - i) * 16 * 16 ^ i); last first.
  { replace (16 ^ (15 - i) * 16 * 16 ^ i) with (16 ^ (15 - i) * 16 ^ i * 16) by lia. by rw -Z.pow_add_r; [replace (15 - i + i) with 15 by lia|lia..]. }
  rw Z.mul_mod_distr_r; [|lia..]. replace (16 ^ 15) with (16 ^ (15 - i) * 16 ^ i); last first.
  { rw -Z.pow_add_r; [f_equal; lia|lia..]. }
  rw Z.div_mul_cancel_r; [|lia..]. rw Z.rem_mul_r; [|lia..].
  rw (Z.mul_comm (16 ^ (15 - i))) Z.div_add; [|lia]. rw Z.div_small; [lia|]. apply Z.mod_pos_bound. lia.
Qed.
Lemma printptr_writes fd x n s : 0 <= x < 2 ^ 64 ->
  wp (Ulib.printptr fd x) n s (fun _ s' => writes fd (ptr_text x) s s').
Proof.
  intros Hx. apply wp_bind. eapply wp_mono; [apply putc_writes|]. intros [] s1 E1.
  apply wp_bind. eapply wp_mono; [apply putc_writes|]. intros [] s2 E2. apply wp_bind.
  pose proof (wrote_app _ _ _ _ _ _ E1 E2) as E12.
  apply (wp_for_fold_range (fun i y s' => y = u64 (x * 16 ^ Z.of_nat i) /\
    writes fd ((fun i => digit_char (x / 16 ^ (15 - i) mod 16)) <$> rangeZ i) s2 s')).
  - split; [by rw Z.mul_1_r u64_small|apply wrote_nil].
  - intros i y s3 Hi [-> E3]. rw Z.shiftr_div_pow2 // nibble; [|lia].
    pose proof (Z.mod_pos_bound (x / 16 ^ (15 - Z.of_nat i)) 16 ltac:(done)) as Hm.
    apply wp_bind. apply (wp_arr_get _ _ (digit_char (x / 16 ^ (15 - Z.of_nat i) mod 16))); [lia|by apply digit_lookup|].
    apply wp_bind. eapply wp_mono; [apply putc_writes|]. intros [] s4 E4. apply wp_ret. split.
    + rw Z.shiftl_mul_pow2 // /u64 Zmult_mod_idemp_l Nat2Z.inj_succ Z.pow_succ_r; [|lia]. f_equal. lia.
    + rw u8_small in E4; last first.
      { assert (Forall (fun c => 0 <= c < 256) (digit_char <$> [x / 16 ^ (15 - Z.of_nat i) mod 16])) as Hb.
        { apply digits_byte. by constructor. }
        by apply Forall_cons_1 in Hb as [? _]. }
      rw /rangeZ seq_S !fmap_app /=. by eapply wrote_app.
  - intros y s' [_ E3]. apply wp_ret. rw /ptr_text. by eapply wrote_app.
Qed.

Lemma vprintf_writes fd pct fmt ap t n s : args_ok ap -> fmt_text pct fmt ap = Some t ->
  wp (Ulib.vprintf fd (if pct then chr "%" else 0) fmt ap) n s (fun _ s' => writes fd t s s').
Proof.
  revert pct ap t s. induction fmt as [|c fmt IH]; intros pct ap t s Hap Ht; [done|]. cbn [fmt_text Ulib.vprintf] in Ht |- *.
  assert (forall (w : K S unit) t1 rest ap', (forall s, wp w n s (fun _ s' => writes fd t1 s s')) -> args_ok ap' ->
    fmt_text false fmt ap' = Some rest -> t = t1 ++ rest ->
    wp (w;; Ulib.vprintf fd 0 fmt ap') n s (fun _ s' => writes fd t s s')) as Hstep.
  { intros w t1 rest ap' Hw Hap' Hrest ->. apply wp_bind. eapply wp_mono; [apply Hw|]. intros [] s1 E1.
    eapply wp_mono; [by apply (IH false ap' rest)|]. intros [] s2 E2. by eapply wrote_app. }
  destruct (c =? 0); [simplify_eq; apply wp_ret, wrote_nil|]. destruct pct; cbn [negb] in Ht.
  - change (chr "%" =? 0) with false. cbv iota.
    repeat match goal with |- context [c =? chr ?x] => destruct (c =? chr x) end.
    + destruct ap as [|[x| |] ap]; try done. apply bind_Some in Ht as (u & Hu & (rest & Hr & ->)%fmap_Some). apply wp_bind, wp_ret.
      rw /signed_text in Hu. destruct (i32 x =? - 2 ^ 31) eqn:Ex; simplify_eq.
      eapply Hstep; [intros; apply printint_writes; [by left|done]|by apply Forall_cons_1 in Hap as [_ ?]|done|done].
    + destruct ap as [|[|x|] ap]; try done. apply fmap_Some in Ht as (rest & Hr & ->). apply wp_bind, wp_ret.
      eapply Hstep; [intros; apply printint_writes; [by left|done]|by apply Forall_cons_1 in Hap as [_ ?]|done|done].
    + destruct ap as [|[x| |] ap]; try done. apply fmap_Some in Ht as (rest & Hr & ->). apply wp_bind, wp_ret.
      eapply Hstep; [intros; apply printint_writes; [by right|done]|by apply Forall_cons_1 in Hap as [_ ?]|done|done].
    + destruct ap as [|[|x|] ap]; try done. apply fmap_Some in Ht as (rest & Hr & ->). apply wp_bind, wp_ret.
      apply Forall_cons_1 in Hap as [Hx Hap]. eapply Hstep; [intros; by apply printptr_writes|done|done|done].
    + destruct ap as [|[| |x] ap]; try done. apply bind_Some in Ht as (u & Hu & (rest & Hr & ->)%fmap_Some). apply wp_bind, wp_ret.
      apply fmap_Some in Hu as (u' & Hu' & ->).
      eapply Hstep; [intros; by apply putstr_writes|by apply Forall_cons_1 in Hap as [_ ?]|done|done].
    + destruct ap as [|[x| |] ap]; try done. apply fmap_Some in Ht as (rest & Hr & ->). apply wp_bind, wp_ret.
      eapply Hstep; [intros; apply putc_writes|by apply Forall_cons_1 in Hap as [_ ?]|done|done].
    + apply fmap_Some in Ht as (rest & Hr & ->). eapply Hstep; [intros; apply putc_writes|done|done|done].
    + apply fmap_Some in Ht as (rest & Hr & ->). apply wp_bind. eapply wp_mono; [apply putc_writes|]. intros [] s1 E1.
      apply wp_bind. eapply wp_mono; [apply putc_writes|]. intros [] s2 E2. eapply wp_mono; [by apply (IH false ap rest)|].
      intros [] s3 E3. pose proof (wrote_app _ _ _ _ _ _ E1 E2) as E12. exact (wrote_app _ _ _ _ _ _ E12 E3).
  - change (0 =? 0) with true. cbv iota. destruct (c =? chr "%"); [by apply (IH true)|].
    apply fmap_Some in Ht as (rest & Hr & ->). eapply Hstep; [intros; apply putc_writes|done|done|done].
Qed.

(** ** Formats

    What a format means, independently of the code: a sequence of pieces, each
    of which has its spelling in the format, its argument and its text.  The
    conversions are those the comment of [vprintf] promises. *)

Inductive piece :=
| Lit (c : ascii)               (* a character that stands for itself *)
| Percent                       (* "%%" *)
| Dec (x : Z)                   (* "%d" and an int *)
| Hex (x : Z)                   (* "%x" and an int *)
| Ptr (x : Z)                   (* "%p" and a uint64 *)
| Str (t : option (list Z)).    (* "%s" and a string, or the null pointer *)

Definition percent (c : ascii) (fmt : string) : string := String "%" (String c fmt).
Fixpoint format_of (ps : list piece) : string :=
  match ps with
  | [] => EmptyString
  | Lit c :: ps => String c (format_of ps)
  | Percent :: ps => percent "%" (format_of ps)
  | Dec _ :: ps => percent "d" (format_of ps)
  | Hex _ :: ps => percent "x" (format_of ps)
  | Ptr _ :: ps => percent "p" (format_of ps)
  | Str _ :: ps => percent "s" (format_of ps)
  end.
Fixpoint args_of (ps : list piece) : list arg :=
  match ps with
  | [] => []
  | Lit _ :: ps | Percent :: ps => args_of ps
  | Dec x :: ps | Hex x :: ps => AInt x :: args_of ps
  | Ptr x :: ps => APtr x :: args_of ps
  | Str t :: ps => AStr ((fun t => t ++ [0]) <$> t) :: args_of ps
  end.

(** The character of a digit; the digits of [x], most significant first,
    without leading zeros. *)
Definition hexit (d : Z) : Z := if d <? 10 then chr "0" + d else chr "A" + (d - 10).
Definition numeral (base x : Z) (t : list Z) : Prop := exists ds, t = hexit <$> ds /\
  Forall (fun d => 0 <= d < base) ds /\ value base ds = x /\ (ds = [0] \/ exists d ds', ds = d :: ds' /\ d <> 0).
(** The text of a piece. *)
Definition piece_text (p : piece) (t : list Z) : Prop :=
  match p with
  | Lit c => t = [chr c]
  | Percent => t = [chr "%"]
  | Dec x => if decide (x < 0) then exists t', t = chr "-" :: t' /\ numeral 10 (- x) t' else numeral 10 x t
  | Hex x => numeral 16 (x mod 2 ^ 32) t
  | Ptr x => exists ds, t = chr "0" :: chr "x" :: (hexit <$> ds) /\ length ds = 16%nat /\
      Forall (fun d => 0 <= d < 16) ds /\ value 16 ds = x
  | Str t' => t = default (bytes_of_string "(null)") t'
  end.
Fixpoint format_text (ps : list piece) (t : list Z) : Prop :=
  match ps with
  | [] => t = []
  | p :: ps => exists t1 t2, t = t1 ++ t2 /\ piece_text p t1 /\ format_text ps t2
  end.
(** Literals are no NUL and no ["%"]; the arguments are in the range of their
    C types (the least [int] excepted); strings hold no NUL. *)
Definition piece_ok (p : piece) : Prop :=
  match p with
  | Lit c => chr c <> 0 /\ chr c <> chr "%"
  | Percent => True
  | Dec x => - 2 ^ 31 < x < 2 ^ 31
  | Hex x => - 2 ^ 31 <= x < 2 ^ 31
  | Ptr x => 0 <= x < 2 ^ 64
  | Str t => if t is Some t then Forall (fun c => 0 < c < 256) t else True
  end.

Lemma hexit_digit d : 0 <= d < 16 -> digit_char d = hexit d.
Proof.
  intros Hd. assert (forallb (fun d => digit_char d =? hexit d) (rangeZ 16) = true) as H by by vm_compute.
  rw forallb_forall in H. apply Z.eqb_eq, H, list_elem_of_In, elem_of_rangeZ. lia.
Qed.
Lemma hexits ds base : base <= 16 -> Forall (fun d => 0 <= d < base) ds -> digit_char <$> ds = hexit <$> ds.
Proof.
  intros Hb Hd. apply list_fmap_ext. intros i d Hi. rw Forall_lookup in Hd. apply hexit_digit. specialize (Hd i d Hi). simpl in Hd. lia.
Qed.
(** The digits end with the most significant one, which is not zero. *)
Lemma digs_last k base x : 1 < base -> 0 <= x < base ^ Z.of_nat k -> (0 < k)%nat ->
  digs k base x = [0] \/ exists d l, digs k base x = l ++ [d] /\ d <> 0.
Proof.
  intros Hb. revert x. induction k as [|k IH]; intros x Hx Hk; [lia|]. cbn [digs].
  pose proof (Z.div_mod x base ltac:(lia)) as Hd. destruct (Z.eqb_spec (x / base) 0) as [E|E].
  - destruct (decide (x mod base = 0)) as [->|Hne]; [by left|right]. by exists (x mod base), [].
  - assert (0 <= x / base < base ^ Z.of_nat k) as Hlt.
    { split; [apply Z.div_pos; lia|]. apply Z.div_lt_upper_bound; [lia|]. rw Nat2Z.inj_succ Z.pow_succ_r in Hx; lia. }
    destruct k as [|k]; [change (base ^ Z.of_nat 0) with 1 in Hlt; lia|]. right.
    destruct (IH (x / base)) as [El|(d & l & El & Hne)]; [done|lia| |].
    + cbn [digs] in El. exfalso. destruct (x / base / base =? 0) eqn:E2; simplify_eq.
      * apply Z.eqb_eq in E2. pose proof (Z.div_mod (x / base) base ltac:(lia)). lia.
      * cbn in H. destruct k; simplify_eq. apply Z.eqb_neq in E2. pose proof (Z.div_pos (x / base) base). change (base ^ Z.of_nat 1) with (base * 1) in Hlt.
        rw Z.div_small in E2; lia.
    + exists d, (x mod base :: l). by rw El.
Qed.
Lemma digs_numeral base x : base = 10 \/ base = 16 -> 0 <= x < 2 ^ 32 -> numeral base x (digit_char <$> rev (digs 16 base x)).
Proof.
  intros Hb Hx. pose proof (base_pow base x Hb Hx) as Hx10. rw -(digs_more 10 16); [|lia|done|lia].
  destruct (digs_spec 10 base x) as (Hv & Hd & _); [lia|done|lia|]. exists (rev (digs 10 base x)).
  split_and!; [apply (hexits _ base); [lia|by apply Forall_rev]|by apply Forall_rev|done|].
  destruct (digs_last 10 base x) as [->|(d & l & -> & Hne)]; [lia|done|lia|by left|right]. exists d, (rev l). by rw rev_app_distr.
Qed.

(** The 16 digits of a pointer have its value. *)
Lemma nibbles_value k x : 0 <= x -> value 16 ((fun i => x / 16 ^ (Z.of_nat k - 1 - i) mod 16) <$> rangeZ k) = x mod 16 ^ Z.of_nat k.
Proof.
  revert x. induction k as [|k IH]; intros x Hx; [by rw Z.mod_1_r|]. rw rangeZ_S fmap_app. cbn [fmap list_fmap]. rw value_snoc.
  replace (Z.of_nat (Datatypes.S k) - 1 - Z.of_nat k) with 0 by lia. rw Z.div_1_r.
  assert ((fun i => x / 16 ^ (Z.of_nat (Datatypes.S k) - 1 - i) mod 16) <$> rangeZ k = (fun i => x / 16 / 16 ^ (Z.of_nat k - 1 - i) mod 16) <$> rangeZ k) as ->.
  { apply list_fmap_ext. intros j i Hi. apply list_elem_of_lookup_2, elem_of_rangeZ in Hi.
    rw Z.div_div; [|lia|apply Z.pow_pos_nonneg; lia]. do 2 f_equal. rw -Z.pow_succ_r; [f_equal; lia|lia]. }
  rw IH; [|by apply Z.div_pos]. rw Nat2Z.inj_succ Z.pow_succ_r; [|lia]. rw Z.rem_mul_r; [lia|lia|apply Z.pow_pos_nonneg; lia].
Qed.

(** One piece of a format, as the code scans it. *)
Lemma scan_lit c f ap : chr c <> 0 -> chr c <> chr "%" -> fmt_text false (cstring (String c f)) ap = cons (chr c) <$> fmt_text false (cstring f) ap.
Proof.
  intros H0 Hp. change (cstring (String c f)) with (chr c :: cstring f). cbn [fmt_text negb].
  rw (proj2 (Z.eqb_neq _ _) H0) (proj2 (Z.eqb_neq _ _) Hp) u8_small //. rw /chr. pose proof (N_ascii_bounded c). lia.
Qed.
Lemma scan_percent f ap : fmt_text false (cstring (percent "%" f)) ap = cons (chr "%") <$> fmt_text false (cstring f) ap.
Proof. done. Qed.
Lemma scan_d f x ap : fmt_text false (cstring (percent "d" f)) (AInt x :: ap) = (t ← signed_text x; app t <$> fmt_text false (cstring f) ap).
Proof. done. Qed.
Lemma scan_x f x ap : fmt_text false (cstring (percent "x" f)) (AInt x :: ap) = app (int_text 16 false (i32 x)) <$> fmt_text false (cstring f) ap.
Proof. done. Qed.
Lemma scan_p f x ap : fmt_text false (cstring (percent "p" f)) (APtr x :: ap) = app (ptr_text x) <$> fmt_text false (cstring f) ap.
Proof. done. Qed.
Lemma scan_s f x ap : fmt_text false (cstring (percent "s" f)) (AStr x :: ap) = (t ← str_text x; app t <$> fmt_text false (cstring f) ap).
Proof. done. Qed.

Lemma dec_text x : - 2 ^ 31 < x < 2 ^ 31 -> piece_text (Dec x) (int_text 10 true x).
Proof.
  intros Hx. rw /piece_text /int_text. cbn [andb]. destruct (Z.ltb_spec x 0) as [Hn|Hn]; [rw decide_True //|rw decide_False; [|lia]].
  - eexists. split; [done|]. apply digs_numeral; [by left|lia].
  - cbn [app]. rw u32_small; [|lia]. apply digs_numeral; [by left|lia].
Qed.
Lemma ptr_piece_text x : 0 <= x < 2 ^ 64 -> piece_text (Ptr x) (ptr_text x).
Proof.
  intros Hx. exists ((fun i => x / 16 ^ (15 - i) mod 16) <$> rangeZ 16). assert (Forall (fun d => 0 <= d < 16) ((fun i => x / 16 ^ (15 - i) mod 16) <$> rangeZ 16)) as Hd.
  { apply Forall_fmap, Forall_forall. intros i _. by apply Z.mod_pos_bound. }
  split_and!; [|by rw length_fmap length_rangeZ|done|].
  - rw /ptr_text -(hexits _ 16) // -list_fmap_compose //.
  - etrans; [apply (nibbles_value 16)|apply Z.mod_small]; [lia|exact Hx].
Qed.
Lemma str_piece_text u : piece_ok (Str u) -> str_text ((fun t => t ++ [0]) <$> u) = Some (default (bytes_of_string "(null)") u).
Proof.
  destruct u as [u|]; [|done]. intros Hu. cbn in Hu. rw /str_text /= cstr_app_nul; [|eapply Forall_impl; [exact Hu|]; simpl; lia].
  cbn. f_equal. induction Hu as [|c u Hc _ IH]; [done|]. cbn. rw IH u8_small //. lia.
Qed.

(** The scan of the format of some pieces writes their text. *)
Lemma format_scan ps : Forall piece_ok ps -> args_ok (args_of ps) /\
  exists t, fmt_text false (cstring (format_of ps)) (args_of ps) = Some t /\ format_text ps t.
Proof.
  induction 1 as [|p ps Hp _ (Ha & t & Et & Ht)]; [split; [by constructor|by exists []]|]. split.
  { destruct p; cbn; [done|done|by constructor..]. }
  destruct p as [c| |x|x|x|u]; cbn [format_of args_of].
  - destruct Hp as [H0 Hpc]. rw scan_lit // Et. eexists. split; [done|]. by exists [chr c], t.
  - rw scan_percent Et. eexists. split; [done|]. by exists [chr "%"], t.
  - rw scan_d signed_text_small // Et. eexists. split; [done|]. exists (int_text 10 true x), t. split_and!; [done|by apply dec_text|done].
  - rw scan_x Et i32_small //. eexists. split; [done|]. exists (int_text 16 false x), t. split_and!; [done| |done].
    apply digs_numeral; [by right|apply u32_range].
  - rw scan_p Et. eexists. split; [done|]. exists (ptr_text x), t. split_and!; [done|by apply ptr_piece_text|done].
  - rw scan_s str_piece_text // Et. eexists. split; [done|]. by eexists _, t.
Qed.

(** The pieces determine the text. *)
Lemma value_cons base d ds : value base (d :: ds) = d * base ^ Z.of_nat (length ds) + value base ds.
Proof. rw /value /=. by rw fold_value. Qed.
Lemma value_bound base ds : 1 < base -> Forall (fun d => 0 <= d < base) ds -> 0 <= value base ds < base ^ Z.of_nat (length ds).
Proof.
  intros Hb. induction 1 as [|d ds Hd _ IH]; [done|]. rw value_cons. cbn [length]. rw Nat2Z.inj_succ Z.pow_succ_r; [nia|lia].
Qed.
Lemma value_inj base ds ds' : 1 < base -> Forall (fun d => 0 <= d < base) ds -> Forall (fun d => 0 <= d < base) ds' ->
  length ds = length ds' -> value base ds = value base ds' -> ds = ds'.
Proof.
  intros Hb Hd. revert ds'. induction Hd as [|d ds Hd Hds IH]; intros [|d' ds'] Hd' El Ev; [done|done|done|].
  apply Forall_cons in Hd' as [Hd' Hds']. rw !value_cons in Ev. injection El as El. rw El in Ev.
  pose proof (value_bound base ds Hb Hds). pose proof (value_bound base ds' Hb Hds'). rw El in H.
  assert (d = d') as -> by nia. f_equal. apply IH; [done|done|lia].
Qed.
Lemma numeral_length base d ds x : 1 < base -> Forall (fun d => 0 <= d < base) (d :: ds) -> d <> 0 -> value base (d :: ds) = x ->
  base ^ Z.of_nat (length ds) <= x < base ^ Z.of_nat (Datatypes.S (length ds)).
Proof.
  intros Hb Hd Hne <-. pose proof (value_bound base _ Hb Hd). apply Forall_cons in Hd as [Hd Hds].
  pose proof (value_bound base ds Hb Hds). rw value_cons in H |- *. cbn [length] in H. nia.
Qed.
Lemma numeral_unique base x t t' : base = 10 \/ base = 16 -> numeral base x t -> numeral base x t' -> t = t'.
Proof.
  intros Hb (ds & -> & Hd & Hv & Hl) (ds' & -> & Hd' & Hv' & Hl'). assert (1 < base) as Hb1 by lia. f_equal.
  destruct Hl as [->|(d & l & -> & Hne)], Hl' as [->|(d' & l' & -> & Hne')]; [done|..].
  - pose proof (numeral_length base d' l' x Hb1 Hd' Hne' Hv') as [H _]. pose proof (Z.pow_pos_nonneg base (Z.of_nat (length l'))). cbn in Hv. lia.
  - pose proof (numeral_length base d l x Hb1 Hd Hne Hv) as [H _]. pose proof (Z.pow_pos_nonneg base (Z.of_nat (length l))). cbn in Hv'. lia.
  - apply (value_inj base); [done|done|done| |congruence].
    pose proof (numeral_length base d l x Hb1 Hd Hne Hv) as [H1 H2]. pose proof (numeral_length base d' l' x Hb1 Hd' Hne' Hv') as [H3 H4].
    cbn. f_equal. destruct (Nat.lt_total (length l) (length l')) as [Hc|[Hc|Hc]]; [|done|]; exfalso.
    + pose proof (Z.pow_le_mono_r base (Z.of_nat (Datatypes.S (length l))) (Z.of_nat (length l'))). lia.
    + pose proof (Z.pow_le_mono_r base (Z.of_nat (Datatypes.S (length l'))) (Z.of_nat (length l))). lia.
Qed.
Lemma format_text_unique ps t t' : format_text ps t -> format_text ps t' -> t = t'.
Proof.
  revert t t'. induction ps as [|p ps IH]; intros t t'; [by intros -> ->|]. intros (a & r & -> & Ha & Hr) (a' & r' & -> & Ha' & Hr').
  f_equal; [|by apply IH]. destruct p as [c| |x|x|x|u]; cbn in Ha, Ha'; try congruence.
  - destruct (decide (x < 0)); [|by apply (numeral_unique 10 x); [left|..]].
    destruct Ha as (b & -> & Hb), Ha' as (b' & -> & Hb'). f_equal. by apply (numeral_unique 10 (- x)); [left|..].
  - by apply (numeral_unique 16 (x mod 2 ^ 32)); [right|..].
  - destruct Ha as (ds & -> & El & Hd & Hv), Ha' as (ds' & -> & El' & Hd' & Hv'). do 3 f_equal. apply (value_inj 16); congruence || done.
Qed.

(** ** [atoi] *)

Lemma atoi_digits l a : Forall (fun d => 0 <= d < 10) l -> 0 <= a ->
  a * 10 ^ Z.of_nat (length l) + value 10 l < 2 ^ 31 ->
  Ulib.atoi_loop a ((digit_char <$> l) ++ [0]) = Some (a * 10 ^ Z.of_nat (length l) + value 10 l).
Proof.
  intros Hl. revert a. induction Hl as [|d l Hd Hl IH]; intros a Ha Hlt; [rw /value /= Z.mul_1_r Z.add_0_r //|].
  cbn [fmap list_fmap app Ulib.atoi_loop]. rw digit_decimal //.
  rw (proj2 (andb_true_iff _ _)); [|split; apply Z.leb_le; change (chr "9") with (chr "0" + 9); lia].
  assert (value 10 (d :: l) = d * 10 ^ Z.of_nat (length l) + value 10 l) as Ev by (rw /value /=; by rw fold_value).
  assert (0 <= value 10 l) as Hv.
  { clear -Hl. rw -(rev_involutive l). assert (Forall (fun d => 0 <= d < 10) (rev l)) as H by by apply Forall_rev.
    induction H as [|e r He _ IHr]; [done|]. simpl rev. rw value_snoc. lia. }
  rw Ev in Hlt |- *. simpl length in Hlt |- *. rw Nat2Z.inj_succ Z.pow_succ_r in Hlt |- *; [|lia..].
  pose proof (Z.pow_pos_nonneg 10 (Z.of_nat (length l)) ltac:(lia) ltac:(lia)).
  replace (a * 10 + (chr "0" + d) - chr "0") with (a * 10 + d) by lia.
  assert (0 <= a * 10 + d < 2 ^ 31) as Hr by nia. rw i32_small; [|lia].
  rw IH; [f_equal; lia|lia|lia].
Qed.

(** ** [gets] *)

Definition eol (c : Z) : bool := (c =? 10) || (c =? 13).
(** Why a line ended: its last character, the room, the end of the input. *)
Definition line_end (max : Z) (l rest : list Z) : Prop :=
  (exists l' c, l = l' ++ [c] /\ eol c = true) \/ Z.of_nat (length l) + 1 = max \/ rest = [].

(** The first line of an input, with its end character, cut to [k] characters. *)
Fixpoint first_line (k : nat) (inp : list Z) : list Z :=
  match k, inp with
  | Datatypes.S k', c :: inp' => c :: (if eol c then [] else first_line k' inp')
  | _, _ => []
  end.
Lemma first_line_unique max l rest : Z.of_nat (length l) < max -> Forall (fun c => eol c = false) (removelast l) ->
  line_end max l rest -> l = first_line (Z.to_nat max - 1) (l ++ rest).
Proof.
  intros Hl Hf He. assert (exists k, Z.to_nat max - 1 = k /\ (length l <= k)%nat /\
    ((exists l' c, l = l' ++ [c] /\ eol c = true) \/ length l = k \/ rest = []))%nat as (k & -> & Hk & He').
  { eexists. split; [done|]. split; [lia|]. destruct He as [He|[He|He]]; [by left|right; left; lia|by right; right]. }
  clear max Hl He. revert k Hk Hf He'. induction l as [|c l IH]; intros k Hk Hf He.
  { destruct He as [(l' & c & E & _)|[He| ->]]; [by destruct l'|by destruct k|by destruct k]. }
  destruct k as [|k]; [simpl in Hk; lia|]. cbn. f_equal. destruct l as [|c' l].
  { destruct (eol c) eqn:Ec; [done|]. destruct He as [(l' & c' & E & Ec')|[[= <-]| ->]]; [|done|by destruct k].
    destruct l' as [|x [|]]; simplify_eq/=. congruence. }
  cbn [removelast] in Hf. apply Forall_cons_1 in Hf as [-> Hf]. apply IH; [simpl in *; lia|done|].
  destruct He as [(l' & x & E & Ex)|[He|He]]; [|right; left; simpl in *; lia|by right; right].
  left. destruct l' as [|y l']; simplify_eq/=. by exists l', x.
Qed.

Lemma put_run (buf : list Z) i c n s : (i < length buf)%nat ->
  Ulib.put buf (Z.of_nat i) c n s = Ok (<[i := c]> buf) s.
Proof. intros Hi. rw /Ulib.put (proj2 (arr_ok_spec _ _)); [|lia]. by rw /arr_set Nat2Z.id. Qed.
Lemma put_next (l buf : list Z) c : (length l < length buf)%nat ->
  <[length l := c]> (l ++ drop (length l) buf) = (l ++ [c]) ++ drop (length (l ++ [c])) buf.
Proof.
  intros Hl. rw insert_app_r_alt // Nat.sub_diag. destruct (lookup_lt_is_Some_2 buf (length l) Hl) as [y Hy].
  rw (drop_S _ _ _ Hy) /= -app_assoc length_app Nat.add_comm //.
Qed.

Lemma gets_wp (buf : list Z) max n s : 1 <= max <= Z.of_nat (length buf) -> (Z.to_nat max < n)%nat ->
  wp (Ulib.gets buf max) n s (fun buf' s' => exists l, input 0 s = l ++ input 0 s' /\
    buf' = l ++ 0 :: drop (Datatypes.S (length l)) buf /\ Z.of_nat (length l) < max /\
    Forall (fun c => eol c = false) (removelast l) /\ line_end max l (input 0 s') /\ output s' = output s).
Proof.
  intros Hmax Hn. apply wp_bind.
  apply (wp_loop (fun '(b, i) s1 => exists l, i = Z.of_nat (length l) /\ b = l ++ drop (length l) buf /\
      input 0 s = l ++ input 0 s1 /\ i < max /\ Forall (fun c => eol c = false) l /\ output s1 = output s)
    (fun '(_, i) _ => Z.to_nat (max - i))).
  { exists []. by split_and!; [..|lia|constructor|]. }
  { lia. }
  intros [b i] s1 (l & -> & -> & Hin & Hlt & Hf & Ho).
  assert (length l < length buf)%nat as Hlb by lia.
  assert (forall l0 (s2 : S) Q, length l0 = length l -> Q (l0 ++ 0 :: drop (Datatypes.S (length l)) buf) s2 ->
    wp (Ulib.put (l0 ++ drop (length l) buf) (Z.of_nat (length l)) 0) n s2 Q) as Hput.
  { intros l0 s2 Q El HQ. rw /wp put_run; [|rw length_app length_drop; lia].
    rw -El put_next ?El; [|done]. by rw -app_assoc length_app Nat.add_comm El. }
  assert (Forall (fun c => eol c = false) (removelast l)) as Hfr.
  { destruct l as [|x l _] using rev_ind; [done|]. rw removelast_last. by apply Forall_app in Hf as [? _]. }
  destruct (Z.ltb_spec (Z.of_nat (length l) + 1) max) as [Hmore|Hfull]; cbn [negb]; last first.
  { apply wp_ret. apply Hput; [done|]. exists l. split_and!; try done. right. left. lia. }
  apply wp_bind. eapply wp_mono; [apply (sys_read_wp 0 1); lia|].
  intros r s2 (l1 & -> & Hl1 & Hin1 & Hempty & Ho1). cbn beta iota.
  destruct l1 as [|c l1].
  { cbn [length]. change (Z.of_nat 0 <? 1) with true. cbn iota. apply wp_ret. apply Hput; [done|].
    destruct (Hempty eq_refl) as [|Hnil]; [lia|]. simpl in Hin1.
    exists l. rw -Hin1 Hnil. split_and!; [by rw Hin Hnil|done|done|done| |congruence]. by right; right. }
  destruct l1 as [|? ?]; [|simpl in Hl1; lia]. cbn [length]. change (Z.of_nat 1 <? 1) with false. cbn iota.
  apply wp_bind. apply (wp_arr_get _ _ c); [done|done|].
  apply wp_bind. rw /wp put_run; [|rw length_app length_drop; lia]. rw put_next //.
  assert (input 0 s = (l ++ [c]) ++ input 0 s2) as Hin2 by by rw Hin Hin1 -app_assoc.
  fold (eol c). destruct (eol c) eqn:Ec; apply wp_ret.
  - replace (Z.of_nat (length l) + 1) with (Z.of_nat (length (l ++ [c]))) by (rw length_app /=; lia).
    rw /wp put_run; [|rw !length_app length_drop /=; lia]. rw put_next; [|rw length_app /=; lia].
    exists (l ++ [c]). split_and!; [done| |rw length_app /=; lia|by rw removelast_last|left; eauto|congruence].
    rw -app_assoc. do 2 f_equal. rw (length_app (l ++ [c])) /=. cbn [app]. f_equal. f_equal. lia.
  - split; [|lia]. exists (l ++ [c]). split_and!; [rw length_app /=; lia|done|done|lia| |congruence].
    apply Forall_app. split; [done|by constructor].
Qed.

(** ** Main properties *)

(** The text of the pieces [ps], which they determine, is written to [fd]. *)
Definition prints fd (ps : list piece) s s' : Prop := exists t, format_text ps t /\ (forall t', format_text ps t' -> t' = t) /\
  output s' = output s ++ chars fd t /\ forall fd', input fd' s' = input fd' s.

(** C33: [printf] is exact on the conversions its comment promises.  For every
    format made of literal characters, ["%%"], ["%d"], ["%x"], ["%p"] and ["%s"],
    and arguments of the types they ask for (the least [int] excepted for
    ["%d"], where the code negates it), [printf] writes to the standard output
    the text the format stands for, character by character, and nothing else:
    the decimal numeral with its sign, the hexadecimal numeral of the unsigned
    value, ["0x"] and the sixteen digits of the pointer, the string or
    ["(null)"].  The numerals are given by their value and by having no leading
    zero, which determines them.  The same holds of [fprintf] on any descriptor;
    in particular the 16-character buffer of a number never overflows. *)
Theorem printf_exact ps n s : Forall piece_ok ps ->
  wp (Ulib.printf (format_of ps) (args_of ps)) n s (fun _ s' => prints 1 ps s s') /\
  forall fd, wp (Ulib.fprintf fd (format_of ps) (args_of ps)) n s (fun _ s' => prints fd ps s s').
Proof.
  intros Hps. destruct (format_scan ps Hps) as (Ha & t & Et & Ht).
  assert (forall fd, wp (Ulib.vprintf fd 0 (cstring (format_of ps)) (args_of ps)) n s (fun _ s' => prints fd ps s s')) as Hp; [|split; [apply Hp|exact Hp]].
  intros fd. eapply wp_mono; [by apply (vprintf_writes fd false)|]. intros [] s' [Ho Hi]. exists t.
  split_and!; [done|intros t' Ht'; by eapply format_text_unique|done|done].
Qed.

(** [printint] stays inside its 16-character buffer.  For every C [int] but
    the least, signed or not, in base 10 or 16, it writes the sign and the digits, at most
    eleven characters, and the digits, most significant first, have the value
    of the number (its absolute value when signed, its unsigned value when not). *)
Theorem printint_fits fd xx base sgn n s : base = 10 \/ base = 16 -> - 2 ^ 31 < xx < 2 ^ 31 ->
  wp (Ulib.printint fd xx base sgn) n s (fun _ s' => exists (neg : bool) ds,
    output s' = output s ++ chars fd ((if neg then [chr "-"] else []) ++ (digit_char <$> ds)) /\
    neg = sgn && (xx <? 0) /\ value base ds = (if neg then - xx else u32 xx) /\
    Forall (fun d => 0 <= d < base) ds /\ (0 < length ds <= 10)%nat).
Proof.
  intros Hb Hx. destruct (printint_wp fd xx base sgn n s Hb) as [Hwp _]; [lia|rw (proj2 (Z.eqb_neq _ _)); [by rw andb_false_r|lia]|].
  eapply wp_mono; [exact Hwp|]. intros [] s' [Ho _]. rw /int_text in Ho. cbv zeta in Ho.
  set (neg := sgn && (xx <? 0)) in *. set (x := if neg then - xx else u32 xx) in *.
  assert (0 <= x < 2 ^ 32) as Hxr.
  { rw /x. destruct neg eqn:E; [rw /neg in E; zbool; lia|apply u32_range]. }
  pose proof (base_pow base x Hb Hxr) as Hx10.
  rw -(digs_more 10 16) in Ho; [|lia|done|lia].
  destruct (digs_spec 10 base x) as (Hv & Hd & Hlen); [lia|done|lia|].
  eexists neg, _. split; [exact Ho|]. rw length_rev. split_and!; [done|done|by apply Forall_rev|lia..].
Qed.

(** Printing and reading numbers.  What [printf("%d")] writes for a
    non-negative [int] is a string that [atoi] turns back into the number. *)
Theorem printf_atoi_roundtrip fd x n s : 0 <= x < 2 ^ 31 ->
  wp (Ulib.fprintf fd "%d" [AInt x]) n s (fun _ s' => exists t,
    output s' = output s ++ chars fd t /\ Ulib.atoi (t ++ [0]) = Some x).
Proof.
  intros Hx. rw /Ulib.fprintf. change (cstring "%d") with [37; 100; 0]. cbn [Ulib.vprintf Z.eqb Pos.eqb].
  apply wp_bind, wp_ret. apply wp_bind.
  destruct (printint_wp fd x 10 true n s) as [Hwp _]; [by left|lia|rw (proj2 (Z.eqb_neq _ _)) //; lia|]. eapply wp_mono; [exact Hwp|].
  intros [] s' [Ho _]. apply wp_ret. eexists. split; [exact Ho|].
  rw /int_text (proj2 (Z.ltb_ge x 0)); [|lia]. cbn [andb app]. rw u32_small; [|lia].
  assert (0 <= x < 10 ^ Z.of_nat 10) as Hx10 by (apply base_pow; [by left|lia]).
  rw -(digs_more 10 16) //; [|lia].
  destruct (digs_spec 10 10 x) as (Hv & Hd & Hlen); [done|done|lia|].
  rw /Ulib.atoi atoi_digits; [|by apply Forall_rev|lia|lia]. by rw Hv.
Qed.

(** [gets] reads one line.  Given room for [max] characters it terminates
    with the next characters of the standard input followed by a NUL, fewer
    than [max] of them, none but the last a newline or carriage return, and
    stops only at such a character, when the room is used up or at the end of
    the input; the rest of the array and of the input is untouched. *)
Theorem gets_reads_line (buf : list Z) max n s : 1 <= max <= Z.of_nat (length buf) -> (Z.to_nat max < n)%nat ->
  wp (Ulib.gets buf max) n s (fun buf' s' => exists l, input 0 s = l ++ input 0 s' /\
    buf' = l ++ 0 :: drop (Datatypes.S (length l)) buf /\ Z.of_nat (length l) < max /\
    Forall (fun c => eol c = false) (removelast l) /\ line_end max l (input 0 s') /\ output s' = output s).
Proof. apply gets_wp. Qed.

End printing.

(** ** The theorems on concrete inputs *)

Definition two_lines : world := World (bytes_of_string "ls -l" ++ [10] ++ bytes_of_string "cd" ++ [10]) [] [].

Definition pieces0 : list piece :=
  [Dec (-7); Lit ":"; Str (Some (bytes_of_string "ok")); Lit ","; Hex 250; Percent; Ptr 4096].
Lemma pieces0_text : format_text pieces0 (bytes_of_string "-7:ok,FA%0x0000000000001000").
Proof.
  exists (bytes_of_string "-7"), (bytes_of_string ":ok,FA%0x0000000000001000"). split_and!; [done| |].
  { exists [chr "7"]. split; [done|]. exists [7]. split_and!; [done|by repeat constructor|done|right; by exists 7, []]. }
  exists (bytes_of_string ":"), (bytes_of_string "ok,FA%0x0000000000001000"). split_and!; [done|done|].
  exists (bytes_of_string "ok"), (bytes_of_string ",FA%0x0000000000001000"). split_and!; [done|done|].
  exists (bytes_of_string ","), (bytes_of_string "FA%0x0000000000001000"). split_and!; [done|done|].
  exists (bytes_of_string "FA"), (bytes_of_string "%0x0000000000001000"). split_and!; [done| |].
  { exists [15; 10]. split_and!; [done|by repeat constructor|done|right; by exists 15, [10]]. }
  exists (bytes_of_string "%"), (bytes_of_string "0x0000000000001000"). split_and!; [done|done|].
  exists (bytes_of_string "0x0000000000001000"), []. split_and!; [done| |done].
  exists (replicate 12 0 ++ [1; 0; 0; 0]). split_and!; [done|done|by repeat constructor|done].
Qed.
Lemma printf_exact_witness : format_of pieces0 = "%d:%s,%x%%%p"%string /\
  wp (Ulib.printf (format_of pieces0) (args_of pieces0)) 0 two_lines (fun _ s' =>
    output s' = chars 1 (bytes_of_string "-7:ok,FA%0x0000000000001000")).
Proof.
  split; [reflexivity|]. destruct (printf_exact pieces0 0 two_lines) as [H _].
  - repeat constructor; done.
  - eapply wp_mono; [exact H|]. intros [] s' (t & _ & Hu & E & _). rw (Hu _ pieces0_text). exact E.
Defined.
