(* ===== verification/Umalloc.v ===== *)
(** * [user/umalloc.c]

    The allocator of the user programs: a circular list of free blocks, in
    address order, whose headers lie in front of the blocks.  The heap is byte
    memory; a header at address [p] has its pointer at [p] and its size, in
    units of [sizeof(Header)], at [p + 8].  The address of the static header
    [base] is a parameter, as is the system call [sbrk]. *)

From S2P Require Import Prelude Mem KString Spinlock Machine.

Record heap := Heap { hmem : memory; freep : Z; brk : Z }.
Definition set_hmem (m : memory) (h : heap) : heap := Heap m (freep h) (brk h).
Definition set_freep (p : Z) (h : heap) : heap := Heap (hmem h) p (brk h).

(** What the allocator is linked with: the address of [base], and [sbrk]. *)
Class Heapenv := {
  base : Z;
  sbrk : Z -> K heap Z;
}.

Module Umalloc.
Section umalloc.
Context {env : Heapenv}.

(** [sizeof(Header)] *)
Definition HDR : Z := 16.

(** [p->s.ptr] and [p->s.size] *)
Definition ptr (p : Z) : K heap Z := gets (fun h => ld64 (hmem h) p).
Definition size (p : Z) : K heap Z := gets (fun h => ld32 (hmem h) (p + 8)).
Definition set_ptr (p v : Z) : K heap unit := modify (fun h => set_hmem (st64 (hmem h) p v) h).
Definition set_size (p v : Z) : K heap unit := modify (fun h => set_hmem (st32 (hmem h) (p + 8) v) h).

(** The search of [free]: the block after which [bp] goes. *)
Definition free_place (bp : Z) : K heap Z :=
  p ← gets freep;
  loop (fun p =>
    nx ← ptr p;
    if (p <? bp) && (bp <? nx) then mret (inr p) else
    if (nx <=? p) && ((p <? bp) || (bp <? nx)) then mret (inr p) else
    mret (inl nx)) p.

Definition free (ap : Z) : K heap unit :=
  let bp := u64 (ap - HDR) in
  p ← free_place bp;
  sz ← size bp; nx ← ptr p;
  (if u64 (bp + sz * HDR) =? nx then
     nsz ← size nx; set_size bp (u32 (sz + nsz));;
     nn ← ptr nx; set_ptr bp nn
   else set_ptr bp nx);;
  psz ← size p;
  (if u64 (p + psz * HDR) =? bp then
     sz ← size bp; set_size p (u32 (psz + sz));;
     nn ← ptr bp; set_ptr p nn
   else set_ptr p bp);;
  modify (set_freep p).

(** [sbrk] takes an [int]; -1 is its error. *)
Definition morecore (nu : Z) : K heap Z :=
  let nu := if nu <? 4096 then 4096 else nu in
  p ← sbrk (i32 (nu * HDR));
  if p =? -1 then mret 0 else
  set_size p nu;;
  free (u64 (p + HDR));;
  gets freep.

Definition malloc (nbytes : Z) : K heap Z :=
  let nunits := u32 ((nbytes + HDR - 1) / HDR + 1) in
  f ← gets freep;
  when (f =? 0) (set_ptr base base;; modify (set_freep base);; set_size base 0);;
  prevp ← gets freep;
  p ← ptr prevp;
  loop (fun '(prevp, p) =>
    sz ← size p;
    if nunits <=? sz then
      p ← (if sz =? nunits then nx ← ptr p; set_ptr prevp nx;; mret p
           else
             set_size p (u32 (sz - nunits));;
             sz ← size p;
             let p := u64 (p + sz * HDR) in
             set_size p nunits;; mret p);
      modify (set_freep prevp);;
      mret (inr (u64 (p + HDR)))
    else
      f ← gets freep;
      if p =? f then
        p ← morecore nunits;
        if p =? 0 then mret (inr 0) else nx ← ptr p; mret (inl (p, nx))
      else nx ← ptr p; mret (inl (p, nx))) (prevp, p).

End umalloc.
End Umalloc.
