(* ===== verification/UmallocSpec.v ===== *)
(** * Main properties of the allocator

    The abstract heap is a list of free blocks in address order and a list of
    live blocks; [malloc] and [free] keep them disjoint, coalesced and
    complete. *)

From Stdlib Require Import Sorted.
From S2P Require Import Prelude Mem KString Spinlock Machine Umalloc.
Import Umalloc.

(** A block: its address and its size in units of 16 bytes. *)
Abbreviation block := (Z * Z)%type.
Definition bend (x : block) : Z := x.1 + 16 * x.2.
(** Below, with a gap: adjacent free blocks are one block. *)
Definition before (x y : block) : Prop := bend x < y.1.
Definition apart (x y : block) : Prop := bend x <= y.1 \/ bend y <= x.1.
Fixpoint pairwise (l : list block) : Prop :=
  match l with [] => True | x :: l' => Forall (apart x) l' /\ pairwise l' end.
Definition units (l : list block) : Z := foldr (fun x n => x.2 + n) 0 l.

(** ** Disjoint blocks *)

Lemma apart_sym x y : apart x y -> apart y x.
Proof. rw /apart. tauto. Qed.

Lemma pairwise_app l1 l2 : pairwise (l1 ++ l2) <->
  pairwise l1 /\ pairwise l2 /\ forall x y, x ∈ l1 -> y ∈ l2 -> apart x y.
Proof.
  induction l1 as [|z l1 IH]; simpl.
  - split; [|tauto]. intros H. split_and!; [done..|]. by intros x y ?%elem_of_nil.
  - rw Forall_app IH !Forall_forall. split.
    + intros ((H1 & H2) & H3 & H4 & H5). split_and!; [done..|]. intros x y [->|Hx]%elem_of_cons Hy; eauto.
    + intros ((H1 & H2) & H3 & H4). split_and!; try done.
      * intros y Hy. apply H4; [by left|done].
      * intros x y Hx. apply H4. by right.
Qed.
Lemma pairwise_perm l l' : l ≡ₚ l' -> pairwise l -> pairwise l'.
Proof.
  induction 1 as [|x l l' Hp IH|x y l|l1 l2 l3 _ IH1 _ IH2]; simpl; [done| | |auto].
  - intros [Hf Hw]. split; [by rw -Hp|auto].
  - intros ([Hxy Hf]%Forall_cons_1 & Hg & Hw). split_and!; [constructor; [by apply apart_sym|done]|done|done].
Qed.
Lemma units_app l l' : units (l ++ l') = units l + units l'.
Proof. rw /units. induction l as [|x l IH]; simpl; lia. Qed.
Lemma units_cons x l : units (x :: l) = x.2 + units l.
Proof. done. Qed.

(** Joining adjacent blocks, splitting one. *)
Lemma pairwise_join a z z' l : 1 <= z -> 1 <= z' -> Forall (fun x => 1 <= x.2) l ->
  pairwise ((a, z) :: (a + 16 * z, z') :: l) -> pairwise ((a, z + z') :: l).
Proof.
  intros Hz Hz' Hl [[_ H1]%Forall_cons_1 [H2 Hw]]. split; [|done]. rw !Forall_forall in H1 H2 Hl. apply Forall_forall.
  intros x Hx. specialize (H1 x Hx). specialize (H2 x Hx). specialize (Hl x Hx).
  rw /apart /bend /= in H1 H2 |- *. lia.
Qed.
Lemma pairwise_split a z k l : 0 <= k <= z -> pairwise ((a, z) :: l) ->
  pairwise ((a, z - k) :: (a + 16 * (z - k), k) :: l).
Proof.
  intros Hk [H Hw]. rw Forall_forall in H. split; [constructor; [rw /apart /bend /=; lia|]|split; [|done]];
    apply Forall_forall; intros x Hx; specialize (H x Hx); rw /apart /bend /= in H |- *; lia.
Qed.

(** ** The list in memory *)

(** The blocks [F] are linked one after the other, the last to [last]. *)
Fixpoint seg (m : memory) (F : list block) (last : Z) : Prop :=
  match F with
  | [] => True
  | x :: F' => ld64 m x.1 = default last (fst <$> head F') /\ ld32 m (x.1 + 8) = x.2 /\ seg m F' last
  end.

Lemma seg_app m F1 F2 last : seg m (F1 ++ F2) last <-> seg m F1 (default last (fst <$> head F2)) /\ seg m F2 last.
Proof.
  induction F1 as [|x F1 IH]; simpl; [tauto|]. rw IH. destruct F1; simpl; tauto.
Qed.
Lemma seg_ext m m' F last :
  (forall x b, x ∈ F -> x.1 <= b < x.1 + 16 -> ld8 m' b = ld8 m b) -> seg m F last -> seg m' F last.
Proof.
  induction F as [|x F IH]; simpl; [done|]. intros He (H1 & H2 & H3). split_and!.
  - rw -H1. apply ldn_ext. intros i Hi. apply (He x); [by left|lia].
  - rw -H2. apply ldn_ext. intros i Hi. apply (He x); [by left|lia].
  - apply IH; [|done]. intros y b Hy. apply He. by right.
Qed.
(** The successor of position [i] of a circular list of [len] blocks. *)
Definition nxt (len i : nat) : nat := if decide (S i = len) then O else S i.
Lemma seg_lookup m x F i y : seg m (x :: F) x.1 -> (x :: F) !! i = Some y ->
  exists y', (x :: F) !! nxt (length (x :: F)) i = Some y' /\ ld64 m y.1 = y'.1 /\ ld32 m (y.1 + 8) = y.2.
Proof.
  intros Hs Hi. pose proof (lookup_lt_Some _ _ _ Hi) as Hlt. rw -(take_drop_middle _ _ _ Hi) in Hs.
  apply seg_app in Hs as [_ (H1 & H2 & _)]. rw /nxt. case_decide as E.
  - exists x. split_and!; [done| |done]. rw H1 drop_ge; [done|]. lia.
  - destruct (lookup_lt_is_Some_2 (x :: F) (S i)) as [y' Hy']; [lia|]. exists y'. split_and!; [done| |done].
    rw H1. by rw (drop_S _ _ _ Hy').
Qed.

(** Steps from position [i] to position [k]. *)
Definition dist (len k i : nat) : nat := if decide (i <= k)%nat then (k - i)%nat else (len - i + k)%nat.
Lemma dist_nxt len k i : (i < len)%nat -> (k < len)%nat -> i <> k -> dist len k i = S (dist len k (nxt len i)).
Proof. rw /dist /nxt. intros. repeat case_decide; lia. Qed.
Lemma dist_max len k i : (i < len)%nat -> (k < len)%nat -> (dist len k i <= dist len k (nxt len k) < len)%nat.
Proof. rw /dist /nxt. intros. repeat case_decide; lia. Qed.
Lemma dist_inj len k i j : (i < len)%nat -> (j < len)%nat -> (k < len)%nat -> dist len k i = dist len k j -> i = j.
Proof. rw /dist. intros ???. repeat case_decide; lia. Qed.

(** ** The invariant *)

(** What the allocator relies on: [base] is an ordinary address below the heap,
    and [sbrk] of a positive size either fails or appends to the heap. *)
Class HeapenvOk `{!Heapenv} := {
  base_pos : 0 < base;
  sbrk_wp : forall k N h, 0 < k < 2 ^ 31 -> wp (sbrk k) N h (fun r h' =>
    r = -1 /\ h' = h \/
    r = brk h /\ freep h' = freep h /\ brk h' = brk h + k /\ brk h' <= 2 ^ 31 /\
      forall b, b < brk h -> ld8 (hmem h') b = ld8 (hmem h) b);
}.

Section heap.
Context {env : Heapenv} {envok : HeapenvOk}.
Implicit Types (h : heap) (F L : list block) (m : memory).

Definition block_ok h (x : block) : Prop := base + 16 <= x.1 /\ 1 <= x.2 /\ bend x <= brk h.

(** [F] are the free blocks after [base], in order; [L] the live ones. *)
Record heap_ok h F L : Prop := {
  ho_seg : seg (hmem h) ((base, 0) :: F) base;
  ho_freep : freep h ∈ ((base, 0) :: F).*1;
  ho_sorted : StronglySorted before F;
  ho_blocks : Forall (block_ok h) (F ++ L);
  ho_apart : pairwise (F ++ L);
  ho_live : Forall (fun x => ld32 (hmem h) (x.1 + 8) = x.2) L;
  ho_brk : base + 16 <= brk h <= 2 ^ 31;
}.

Lemma heap_ok_free h F L x : heap_ok h F L -> x ∈ F -> block_ok h x.
Proof. intros Hh Hx. pose proof (ho_blocks _ _ _ Hh) as Hb. rw Forall_forall in Hb. apply Hb, elem_of_app. by left. Qed.
Lemma heap_ok_live h F L x : heap_ok h F L -> x ∈ L -> block_ok h x.
Proof. intros Hh Hx. pose proof (ho_blocks _ _ _ Hh) as Hb. rw Forall_forall in Hb. apply Hb, elem_of_app. by right. Qed.

Lemma sorted_lookup {A} (R : A -> A -> Prop) (l : list A) i j x y : StronglySorted R l -> (i < j)%nat ->
  l !! i = Some x -> l !! j = Some y -> R x y.
Proof.
  intros Hs. revert i j. induction Hs as [|z l Hs IH Hf]; intros [|i] [|j] Hij Hx Hy; try done; try lia; simplify_eq/=.
  - rw Forall_lookup in Hf. by eapply Hf.
  - eapply IH; [|done..]. lia.
Qed.
(** The addresses ascend, from [base] on. *)
Lemma heap_ascending h F L i j x y : heap_ok h F L -> (i < j)%nat ->
  ((base, 0) :: F) !! i = Some x -> ((base, 0) :: F) !! j = Some y -> x.1 < y.1.
Proof.
  intros Hh Hij Hx Hy. destruct j as [|j]; [lia|]. simpl in Hy.
  pose proof (heap_ok_free h F L y Hh ltac:(by eapply list_elem_of_lookup_2)) as Hby. rw /block_ok in Hby.
  destruct i as [|i]; simpl in Hx; [simplify_eq; simpl; lia|].
  pose proof (heap_ok_free h F L x Hh ltac:(by eapply list_elem_of_lookup_2)) as Hbx. rw /block_ok in Hbx.
  pose proof (sorted_lookup _ _ _ _ _ _ (ho_sorted _ _ _ Hh) (proj2 (Nat.succ_lt_mono i j) Hij) Hx Hy) as Hb.
  rw /before /bend in Hb. lia.
Qed.

Lemma heap_ok_addr h F L i x : heap_ok h F L -> ((base, 0) :: F) !! i = Some x -> base <= x.1 < 2 ^ 31 + base.
Proof.
  intros Hh Hx. pose proof base_pos. pose proof (ho_brk _ _ _ Hh). destruct i as [|i]; simpl in Hx; [simplify_eq; simpl; lia|].
  pose proof (heap_ok_free h F L x Hh ltac:(by eapply list_elem_of_lookup_2)) as Hbx. rw /block_ok /bend in Hbx. lia.
Qed.

(** Where a block that is not free goes: after the free blocks below it. *)
Lemma place_split h F L bp sz : heap_ok h F ((bp, sz) :: L) -> exists P S, F = P ++ S /\
  (forall x, x ∈ P -> bend x <= bp) /\ (forall x, x ∈ S -> bp + 16 * sz <= x.1).
Proof.
  intros Hh. destruct Hh as [_ _ Hs Hb Ha _ _]. pose proof Hb as Hb'. apply Forall_app in Hb' as [Hbf [Hbp _]%Forall_cons_1].
  assert (forall x, x ∈ F -> apart x (bp, sz)) as Hap.
  { intros x Hx. apply pairwise_app in Ha as (_ & _ & Ha). apply Ha; [done|by left]. }
  clear Ha Hb. induction Hs as [|x F Hs IH Hf].
  { exists [], []. split_and!; [done|by intros ? ?%elem_of_nil..]. }
  apply Forall_cons_1 in Hbf as [Hbx Hbf].
  destruct (Hap x ltac:(by left)) as [Hlo|Hhi].
  - destruct IH as (P & S & -> & HP & HS); [done|intros; apply Hap; by right|].
    exists (x :: P), S. split_and!; [done| |done]. intros y [->|Hy]%elem_of_cons; auto.
  - exists [], (x :: F). rw /bend /= in Hhi. split_and!; [done|by intros ? ?%elem_of_nil|].
    intros y [->|Hy]%elem_of_cons; [lia|]. rw Forall_forall in Hf. specialize (Hf y Hy). rw /before /bend in Hf.
    rw /block_ok /= in Hbx. lia.
Qed.

Lemma free_place_wp h F P S bp n L : heap_ok h F L -> F = P ++ S -> base < bp ->
  (forall x, x ∈ P -> x.1 < bp) -> (forall x, x ∈ S -> bp < x.1) -> (length F + 2 < n)%nat ->
  wp (free_place bp) n h (fun p h' => h' = h /\ exists z, last ((base, 0) :: P) = Some (p, z)).
Proof.
  intros Hh EF Hbp HP HS Hn. apply wp_bind, wp_gets. set (len := length ((base, 0) :: F)).
  assert (len = Datatypes.S (length F)) as Hlen by done.
  assert (length P < len)%nat as HK by (rw Hlen EF length_app; lia).
  destruct (proj1 (list_elem_of_lookup _ _) (ho_freep _ _ _ Hh)) as [i0 Hi0]. rw list_lookup_fmap in Hi0.
  destruct (((base, 0) :: F) !! i0) as [x0|] eqn:Hx0; [|done]. simpl in Hi0.
  assert (forall i x, ((base, 0) :: F) !! i = Some x -> (i <= length P)%nat -> x.1 < bp) as Hlow.
  { intros [|i] x Hx Hi; simpl in Hx; [by simplify_eq|]. rw EF lookup_app_l in Hx; [|lia]. by eapply HP, list_elem_of_lookup_2. }
  assert (forall i x, ((base, 0) :: F) !! i = Some x -> (length P < i)%nat -> bp < x.1) as Hhigh.
  { intros [|i] x Hx Hi; simpl in Hx; [lia|]. rw EF lookup_app_r in Hx; [|lia]. by eapply HS, list_elem_of_lookup_2. }
  apply (wp_loop_ghost (fun i p s => s = h /\ exists x, ((base, 0) :: F) !! i = Some x /\ p = x.1)
    (dist len (length P)) _ _ i0).
  { split; [done|]. exists x0. split; [done|]. congruence. }
  { apply lookup_lt_Some in Hx0. pose proof (dist_max len (length P) i0 Hx0 HK). lia. }
  intros i p s (-> & x & Hx & ->). pose proof (lookup_lt_Some _ _ _ Hx) as Hilt.
  destruct (seg_lookup _ _ _ _ _ (ho_seg _ _ _ Hh) Hx) as (y & Hy & Hld & _).
  apply wp_bind, wp_gets. rw Hld.
  destruct (decide (i = length P)) as [->|Hne].
  - pose proof (Hlow _ _ Hx ltac:(lia)) as Hxb.
    assert (last ((base, 0) :: P) = Some x) as Hlast.
    { rw last_lookup /=. rw -Hx EF app_comm_cons lookup_app_l //. simpl. lia. }
    destruct (decide (Datatypes.S (length P) = len)) as [E|E].
    + rw /nxt decide_True // in Hy. injection Hy as <-. cbn [fst].
      rw (proj2 (Z.ltb_lt _ _) Hxb) (proj2 (Z.ltb_ge bp base)); [|lia]. cbn [andb orb].
      rw (proj2 (Z.leb_le base x.1)); [|by destruct (heap_ok_addr _ _ _ _ _ Hh Hx)]. cbn [andb].
      apply wp_ret. split; [done|]. exists x.2. by destruct x.
    + rw /nxt decide_False // in Hy. pose proof (Hhigh _ _ Hy ltac:(lia)) as Hyb.
      rw (proj2 (Z.ltb_lt _ _) Hxb) (proj2 (Z.ltb_lt _ _) Hyb). apply wp_ret. split; [done|]. exists x.2. by destruct x.
  - assert (wp (mret (inl y.1) : K heap (Z + Z)) n h (fun r s' => match r with
      | inl a' => exists g', (s' = h /\ exists x, ((base, 0) :: F) !! g' = Some x /\ a' = x.1) /\ (dist len (length P) g' < dist len (length P) i)%nat
      | inr b => s' = h /\ exists z, last ((base, 0) :: P) = Some (b, z) end)) as Hgo.
    { apply wp_ret. exists (nxt len i). split; [split; [done|by exists y]|]. pose proof (dist_nxt len (length P) i Hilt HK Hne). lia. }
    destruct (decide (i < length P)%nat) as [Hi|Hi].
    + pose proof (Hlow _ _ Hx ltac:(lia)) as Hxb. rw /nxt decide_False in Hy; [|lia].
      pose proof (Hlow _ _ Hy ltac:(lia)) as Hyb. pose proof (heap_ascending _ _ _ _ _ _ _ Hh (Nat.lt_succ_diag_r i) Hx Hy).
      rw (proj2 (Z.ltb_ge bp y.1)); [|lia]. rw (proj2 (Z.leb_gt y.1 x.1)) // andb_false_r. exact Hgo.
    + pose proof (Hhigh _ _ Hx ltac:(lia)) as Hxb. rw (proj2 (Z.ltb_ge x.1 bp)); [|lia]. cbn [andb orb].
      replace ((y.1 <=? x.1) && (bp <? y.1)) with false; [exact Hgo|]. symmetry. apply andb_false_iff.
      rw /nxt in Hy. case_decide as E; [right; injection Hy as <-; apply Z.ltb_ge; simpl; lia|left].
      apply Z.leb_gt. by apply (heap_ascending _ _ _ _ _ _ _ Hh (Nat.lt_succ_diag_r i) Hx Hy).
Qed.

(** ** Coalescing *)

Lemma ss_app (l1 l2 : list block) : StronglySorted before (l1 ++ l2) <->
  StronglySorted before l1 /\ StronglySorted before l2 /\ forall x y, x ∈ l1 -> y ∈ l2 -> before x y.
Proof.
  induction l1 as [|z l1 IH]; simpl.
  - split; [|tauto]. intros H. split_and!; [constructor|done|]. by intros x y ?%elem_of_nil.
  - split.
    + intros [Hs Hf]%StronglySorted_inv. apply IH in Hs as (H1 & H2 & H3). apply Forall_app in Hf as [Hf1 Hf2].
      split_and!; [by constructor|done|]. rw Forall_forall in Hf2. intros x y [->|Hx]%elem_of_cons Hy; auto.
    + intros ([Hs Hf]%StronglySorted_inv & H2 & H3). constructor.
      * apply IH. split_and!; [done..|]. intros x y Hx. apply H3. by right.
      * apply Forall_app. split; [done|]. apply Forall_forall. intros y. apply H3. by left.
Qed.

(** The blocks of a heap, wherever they are stored. *)
Record blocks_ok h F L : Prop := {
  bo_sorted : StronglySorted before F;
  bo_blocks : Forall (block_ok h) (F ++ L);
  bo_apart : pairwise (F ++ L);
}.

(** The size of [bp] and the blocks above it once it has absorbed the next. *)
Definition up (bp sz : Z) S : Z * list block :=
  match S with
  | (q, zq) :: S' => if bp + 16 * sz =? q then (sz + zq, S') else (sz, S)
  | [] => (sz, [])
  end.
(** The block [x] below [bp] absorbs it, or it is a block of its own. *)
Definition down (x : block) (bp sz : Z) : list block :=
  if bend x =? bp then [(x.1, x.2 + sz)] else [x; (bp, sz)].

Lemma blocks_perm h F L F' L' : blocks_ok h F L -> F ++ L ≡ₚ F' ++ L' -> StronglySorted before F' -> blocks_ok h F' L'.
Proof. intros [_ Hb Ha] Hp Hs. split; [done|by rw -Hp|by eapply pairwise_perm]. Qed.

Lemma up_ok h P S bp sz L : blocks_ok h (P ++ S) ((bp, sz) :: L) -> (forall x, x ∈ S -> bp + 16 * sz <= x.1) ->
  blocks_ok h (P ++ (up bp sz S).2) ((bp, (up bp sz S).1) :: L) /\
  (forall y, y ∈ (up bp sz S).2 -> before (bp, (up bp sz S).1) y) /\
  units (up bp sz S).2 + (up bp sz S).1 = units S + sz /\ sz <= (up bp sz S).1 /\
  exists S0, S = S0 ++ (up bp sz S).2.
Proof.
  intros Hb HS. destruct S as [|[q zq] S]; simpl.
  { split_and!; [done|by intros y ?%elem_of_nil|lia|lia|by exists []]. }
  pose proof (bo_sorted _ _ _ Hb) as Hs. apply ss_app in Hs as (H1 & H2 & H3). apply StronglySorted_inv in H2 as [H2 Hq].
  rw Forall_forall in Hq. destruct (Z.eqb_spec (bp + 16 * sz) q) as [E|E]; simpl.
  - destruct Hb as [_ Hb Ha].
    assert ((P ++ (q, zq) :: S) ++ (bp, sz) :: L ≡ₚ (bp, sz) :: (q, zq) :: ((P ++ S) ++ L)) as Hp.
    { rw -Permutation_middle. f_equiv. by rw -app_assoc /= -Permutation_middle app_assoc. }
    rw Hp in Hb. apply Forall_cons_1 in Hb as [Hb1 Hb]. apply Forall_cons_1 in Hb as [Hb2 Hb].
    assert (blocks_ok h (P ++ S) ((bp, sz + zq) :: L)) as Hok.
    { split.
      - apply ss_app. split_and!; [done..|]. intros x y Hx Hy. apply H3; [done|by right].
      - rw -Permutation_middle. constructor; [|done]. rw /block_ok /bend /= in Hb1 Hb2 |- *. lia.
      - eapply pairwise_perm; [symmetry; apply Permutation_sym, Permutation_middle|].
        apply pairwise_join; [apply Hb1|apply Hb2| |].
        + eapply Forall_impl; [exact Hb|]. by intros x (_ & ? & _).
        + rw E. by eapply pairwise_perm. }
    split_and!; [done| |lia|rw /block_ok /= in Hb2; lia|by exists [(q, zq)]].
    intros y Hy. specialize (Hq y Hy). rw /before /bend /= in Hq |- *. lia.
  - split_and!; [done| |lia|lia|by exists []]. intros y [->|Hy]%elem_of_cons.
    + rw /before /bend /=. specialize (HS (q, zq) ltac:(by left)). simpl in HS. lia.
    + specialize (HS (q, zq) ltac:(by left)). simpl in HS. specialize (Hq y Hy). rw /before /bend /= in Hq |- *.
      destruct Hb as [_ Hb _]. apply Forall_app in Hb as [Hb _]. apply Forall_app in Hb as [_ [Hb _]%Forall_cons_1].
      rw /block_ok /= in Hb. lia.
Qed.

Lemma down_ok h P x S bp sz L : blocks_ok h ((P ++ [x]) ++ S) ((bp, sz) :: L) -> bend x <= bp ->
  (forall y, y ∈ S -> before (bp, sz) y) ->
  blocks_ok h (P ++ down x bp sz ++ S) L /\ units (P ++ down x bp sz ++ S) = units ((P ++ [x]) ++ S) + sz.
Proof.
  intros Hb Hx HS. pose proof (bo_sorted _ _ _ Hb) as Hs. apply ss_app in Hs as (H1 & H2 & H3).
  pose proof H1 as H1'. apply ss_app in H1' as (H4 & _ & H5).
  assert (block_ok h x /\ block_ok h (bp, sz)) as [Hbx Hbp].
  { destruct Hb as [_ Hb _]. apply Forall_app in Hb as [Hb [Hb' _]%Forall_cons_1]. split; [|done].
    apply Forall_app in Hb as [Hb _]. apply Forall_app in Hb as [_ Hb]. by apply Forall_cons_1 in Hb as [? _]. }
  rw /down. destruct (Z.eqb_spec (bend x) bp) as [E|E].
  - split; last first.
    { rw !units_app !units_cons /=. rw /units /=. lia. }
    destruct Hb as [_ Hb Ha].
    assert (((P ++ [x]) ++ S) ++ (bp, sz) :: L ≡ₚ x :: (bp, sz) :: ((P ++ S) ++ L)) as Hp.
    { rw -Permutation_middle -!app_assoc /=. rw -(Permutation_middle P). by apply perm_swap. }
    split.
    + apply ss_app. split_and!; [done| |].
      * simpl. constructor; [done|]. apply Forall_forall. intros y Hy. specialize (HS y Hy).
        rw /before /bend /= in HS |- *. rw /bend in E. lia.
      * intros z y Hz [Hy|Hy]%elem_of_app.
        -- apply list_elem_of_singleton in Hy as ->. specialize (H5 z x Hz ltac:(by left)). done.
        -- apply H3; [|done]. apply elem_of_app. by left.
    + rw Hp in Hb. apply Forall_cons_1 in Hb as [_ Hb]. apply Forall_cons_1 in Hb as [_ Hb].
      rw -app_assoc /= -Permutation_middle app_assoc. constructor; [|done].
      rw /block_ok /bend /= in Hbx Hbp E |- *. lia.
    + apply (pairwise_perm ((x.1, x.2 + sz) :: (P ++ S) ++ L)).
      { rw -app_assoc /= -Permutation_middle app_assoc //. }
      apply (pairwise_join x.1 x.2 sz); [apply Hbx|apply Hbp| |].
      * rw Hp in Hb. apply Forall_cons_1 in Hb as [_ Hb]. apply Forall_cons_1 in Hb as [_ Hb].
        eapply Forall_impl; [exact Hb|]. by intros y (_ & ? & _).
      * eapply pairwise_perm; [|exact Ha]. rw Hp. rw /bend in E. rw E. by destruct x.
  - split; last first.
    { rw !units_app !units_cons /=. rw /units /=. lia. }
    eapply blocks_perm; [exact Hb| |].
    { rw -!app_assoc /=. apply Permutation_app_head, Permutation_skip. symmetry. apply Permutation_middle. }
    rw (_ : P ++ [x; (bp, sz)] ++ S = (P ++ [x]) ++ (bp, sz) :: S); [|by rw -app_assoc].
    apply ss_app. split_and!; [done| |].
    + constructor; [done|]. by apply Forall_forall.
    + intros z y Hz [->|Hy]%elem_of_cons; [|by apply H3].
      apply elem_of_app in Hz as [Hz|Hz]; [|apply list_elem_of_singleton in Hz as ->; rw /before /=; lia].
      specialize (H5 z x Hz ltac:(by left)). rw /before /= in H5 |- *. rw /bend in Hx. rw /block_ok in Hbx. lia.
Qed.

(** ** [free] *)

(** Nothing changes outside the header at [a]. *)
Definition same_off m m' (a : Z) : Prop := forall b, ~ a <= b < a + 16 -> ld8 m' b = ld8 m b.
(** The header at [a]. *)
Definition hdr m (a nx sz : Z) : Prop := ld64 m a = nx /\ ld32 m (a + 8) = sz.

Lemma hdr_off m m' a b nx sz : same_off m m' b -> a + 16 <= b \/ b + 16 <= a -> hdr m a nx sz -> hdr m' a nx sz.
Proof.
  intros Hs Hd [H1 H2]. split; [rw -H1|rw -H2]; apply ldn_ext; intros i Hi; apply Hs; lia.
Qed.
Lemma hdr_set_ptr m a nx sz v : 0 <= v < 2 ^ 64 -> hdr m a nx sz ->
  hdr (st64 m a v) a v sz /\ same_off m (st64 m a v) a.
Proof.
  intros Hv [H1 H2]. split; [split|].
  - by rw ld64_st64_eq u64_small.
  - rw ldn_stn_ne //. lia.
  - intros b Hb. apply ld8_stn_out. lia.
Qed.
Lemma hdr_set_size m a nx v : 0 <= v < 2 ^ 32 -> ld64 m a = nx ->
  hdr (st32 m (a + 8) v) a nx v /\ same_off m (st32 m (a + 8) v) a.
Proof.
  intros Hv H1. split; [split|].
  - rw ldn_stn_ne //. lia.
  - by rw ld32_st32_eq u32_small.
  - intros b Hb. apply ld8_stn_out. lia.
Qed.
Lemma same_off_trans m1 m2 m3 a : same_off m1 m2 a -> same_off m2 m3 a -> same_off m1 m3 a.
Proof. intros H1 H2 b Hb. by rw H2 // H1. Qed.

Definition next_of (S : list block) : Z := default base (fst <$> head S).

Lemma free_up_wp h S bp sz n Q :
  seg (hmem h) S base -> ld32 (hmem h) (bp + 8) = sz -> 0 < base < bp -> 1 <= sz -> bp + 16 * sz <= 2 ^ 31 ->
  (forall x, x ∈ S -> bp + 16 * sz <= x.1 /\ 1 <= x.2 /\ bend x <= 2 ^ 31) ->
  (forall m', hdr m' bp (next_of (up bp sz S).2) (up bp sz S).1 -> same_off (hmem h) m' bp -> Q tt (set_hmem m' h)) ->
  wp (if u64 (bp + sz * HDR) =? next_of S then
        nsz ← size (next_of S); set_size bp (u32 (sz + nsz));;
        nn ← ptr (next_of S); set_ptr bp nn
      else set_ptr bp (next_of S)) n h Q.
Proof.
  intros Hseg Hsz Hbase Hsz1 Hlim HS HQ. rw /HDR (Z.mul_comm sz) u64_small; [|lia].
  destruct S as [|[q zq] S]; simpl in *.
  { rw /next_of /=. rw (proj2 (Z.eqb_neq _ _)); [|lia]. apply wp_modify. simpl.
    destruct (hdr_set_ptr (hmem h) bp (ld64 (hmem h) bp) sz base) as [H1 H2]; [lia|done|]. by apply HQ. }
  destruct Hseg as (Hq1 & Hq2 & Hseg). destruct (HS (q, zq) ltac:(by left)) as (Hq & Hz & Hend). rw /bend /= in Hq Hz Hend.
  rw /next_of /=. destruct (Z.eqb_spec (bp + 16 * sz) q) as [E|E].
  - apply wp_bind, wp_gets. rw Hq2. rw u32_small; [|lia]. apply wp_bind, wp_modify, wp_bind, wp_gets. simpl.
    destruct (hdr_set_size (hmem h) bp _ (sz + zq) ltac:(lia) eq_refl) as [H1 H2].
    assert (hdr (st32 (hmem h) (bp + 8) (sz + zq)) q (next_of S) zq) as [Hnn _].
    { eapply (hdr_off _ _ _ bp); [exact H2|lia|]. done. }
    rw Hnn. apply wp_modify. simpl in HQ |- *.
    assert (0 <= next_of S < 2 ^ 64) as Hr by (rw -Hnn; apply ld64_range).
    destruct (hdr_set_ptr _ bp _ _ (next_of S) Hr H1) as [H3 H4]. apply HQ; [done|by eapply same_off_trans].
  - apply wp_modify. simpl in HQ |- *. destruct (hdr_set_ptr (hmem h) bp (ld64 (hmem h) bp) sz q) as [H1 H2]; [lia|done|].
    by apply HQ.
Qed.

Lemma free_down_wp h p zp pn bp nn sz n Q :
  hdr (hmem h) p pn zp -> hdr (hmem h) bp nn sz -> p + 16 <= bp -> 0 < p -> p + 16 * zp <= bp -> 0 <= zp -> 1 <= sz ->
  bp + 16 * sz <= 2 ^ 31 ->
  (forall m', same_off (hmem h) m' p ->
     (if bend (p, zp) =? bp then hdr m' p nn (zp + sz) else hdr m' p bp zp) -> Q tt (set_hmem m' h)) ->
  wp (if u64 (p + zp * HDR) =? bp then
        sz ← size bp; set_size p (u32 (zp + sz));;
        nn ← ptr bp; set_ptr p nn
      else set_ptr p bp) n h Q.
Proof.
  intros Hp Hb Hle Hpos Hend Hz0 Hs1 Hlim HQ. rw /HDR (Z.mul_comm zp) u64_small; [|lia]. rw /bend /= in HQ. destruct (Z.eqb_spec (p + 16 * zp) bp) as [E|E].
  - apply wp_bind, wp_gets. rw (proj2 Hb) u32_small; [|lia]. apply wp_bind, wp_modify, wp_bind, wp_gets. simpl.
    destruct (hdr_set_size (hmem h) p _ (zp + sz) ltac:(lia) eq_refl) as [H1 H2].
    assert (hdr (st32 (hmem h) (p + 8) (zp + sz)) bp nn sz) as [Hnn _] by (eapply (hdr_off _ _ _ p); [exact H2|lia|done]).
    rw Hnn. apply wp_modify. simpl.
    assert (0 <= nn < 2 ^ 64) as Hr by (rw -Hnn; apply ld64_range).
    destruct (hdr_set_ptr _ p _ _ nn Hr H1) as [H3 H4]. apply HQ; [by eapply same_off_trans|done].
  - apply wp_modify. destruct (hdr_set_ptr (hmem h) p _ zp bp ltac:(lia) Hp) as [H1 H2]. by apply HQ.
Qed.

(** The list after the two steps. *)
Lemma relinked m m1 m2 pre p zp S S' bp sz pn :
  seg m (pre ++ (p, zp) :: S) base -> hdr m p pn zp -> (forall y, y ∈ S' -> y ∈ S) -> seg m S' base ->
  (forall x, x ∈ pre -> x.1 + 16 <= p) -> p + 16 <= bp -> (forall y, y ∈ S -> bp + 16 <= y.1) ->
  hdr m1 bp (next_of S') sz -> same_off m m1 bp -> same_off m1 m2 p ->
  (if bend (p, zp) =? bp then hdr m2 p (next_of S') (zp + sz) else hdr m2 p bp zp) ->
  seg m2 (pre ++ down (p, zp) bp sz ++ S') base.
Proof.
  intros Hseg Hp Hsub HS' Hpre Hpb HS H1 Ho1 Ho2 H2. apply seg_app in Hseg as [Hpr _].
  assert (forall b, ~ bp <= b < bp + 16 -> ~ p <= b < p + 16 -> ld8 m2 b = ld8 m b) as Hkeep.
  { intros b Hb1 Hb2. by rw Ho2 // Ho1. }
  assert (seg m2 pre p) as Hpr2.
  { eapply seg_ext; [|exact Hpr]. intros x b Hx Hb. specialize (Hpre x Hx). apply Hkeep; lia. }
  assert (seg m2 S' base) as HS2.
  { eapply seg_ext; [|exact HS']. intros x b Hx%Hsub Hb. specialize (HS x Hx). apply Hkeep; lia. }
  assert (hdr m2 bp (next_of S') sz) as Hbp2 by (eapply (hdr_off _ _ _ p); [exact Ho2|lia|done]).
  rw /down. destruct (bend (p, zp) =? bp); destruct H2 as [H2a H2b]; apply seg_app; (split; [done|]); simpl.
  - done.
  - destruct Hbp2. done.
Qed.

Lemma split_last (P : list block) y : last ((base, 0) :: P) = Some y ->
  exists pre, (base, 0) :: P = pre ++ [y].
Proof. intros Hl. apply last_Some in Hl as [pre Hpre]. eauto. Qed.

(** The free blocks after [free]. *)
Lemma freed_blocks h P S bp sz L pre p zp :
  blocks_ok h (P ++ S) ((bp, sz) :: L) -> (base, 0) :: P = pre ++ [(p, zp)] -> base + 16 <= bp -> 1 <= sz ->
  (forall x, x ∈ P -> bend x <= bp) -> (forall y, y ∈ S -> before (bp, sz) y) ->
  exists F', (base, 0) :: F' = pre ++ down (p, zp) bp sz ++ S /\ blocks_ok h F' L /\ units F' = units (P ++ S) + sz /\
    (length F' <= Datatypes.S (length (P ++ S)))%nat /\ (exists x, x ∈ F' /\ x.1 <= bp /\ bp + 16 * sz <= bend x).
Proof.
  intros Hb Epre Hbp Hsz HP HS. destruct P as [|y P _] using rev_ind.
  - destruct pre as [|? pre]; [|by destruct pre]. injection Epre as <- <-.
    exists ((bp, sz) :: S). rw /down /bend /= (proj2 (Z.eqb_neq _ _)); [|lia]. split; [done|]. split_and!; [|lia|lia|].
    + eapply blocks_perm; [exact Hb|by rw /= -Permutation_middle|]. constructor; [apply Hb|by apply Forall_forall].
    + exists (bp, sz). rw /bend /=. split; [by left|lia].
  - rw app_comm_cons in Epre. apply app_inj_tail in Epre as [<- ->].
    assert (bend (p, zp) <= bp) as Hpb by (apply HP, elem_of_app; right; by left).
    assert (p <= bend (p, zp)) as Hpz.
    { destruct Hb as [_ Hb _]. apply Forall_app in Hb as [Hb _]. apply Forall_app in Hb as [Hb _].
      apply Forall_app in Hb as [_ [Hb _]%Forall_cons_1]. destruct Hb as (_ & Hb & _). rw /bend /= in Hb |- *. lia. }
    destruct (down_ok h P (p, zp) S bp sz L Hb Hpb HS) as [Hok Hu].
    exists (P ++ down (p, zp) bp sz ++ S). split_and!; [done|done|done| |].
    + rw /down. case_match; rw !length_app /=; lia.
    + rw /down. destruct (Z.eqb_spec (bend (p, zp)) bp) as [E|E].
      * exists (p, zp + sz). split; [apply elem_of_app; right; by left|]. rw /bend /= in E Hpz |- *. lia.
      * exists (bp, sz). split; [apply elem_of_app; right; right; by left|]. rw /bend /=. lia.
Qed.

(** The place found is below [bp] and its header is apart from the others. *)
Lemma place_facts h P S bp sz L pre p zp : heap_ok h (P ++ S) ((bp, sz) :: L) -> (base, 0) :: P = pre ++ [(p, zp)] ->
  (forall x, x ∈ P -> bend x <= bp) -> base + 16 <= bp ->
  (forall x, x ∈ pre -> x.1 + 16 <= p) /\ (p + 16 <= bp /\ 0 < p /\ p + 16 * zp <= bp /\ 0 <= zp) /\
  forall x, x ∈ L -> p + 16 <= x.1 \/ bend x <= p.
Proof.
  intros Hh Epre HP Hbp. pose proof base_pos.
  assert (forall x, x ∈ P ++ S -> block_ok h x) as Hbok by (intros x; by apply (heap_ok_free _ _ _ x Hh)).
  destruct P as [|y P _] using rev_ind.
  - destruct pre as [|? pre]; [|by destruct pre]. injection Epre as <- <-. split_and!; [by intros ? ?%elem_of_nil|lia..|].
    intros x Hx. destruct (heap_ok_live _ _ _ x Hh ltac:(by right)) as (? & _ & _). by left.
  - rw app_comm_cons in Epre. apply app_inj_tail in Epre as [<- ->].
    destruct (Hbok (p, zp)) as (Hp1 & Hp2 & Hp3).
    { rw -app_assoc elem_of_app elem_of_cons. tauto. }
    specialize (HP (p, zp) ltac:(apply elem_of_app; right; by left)). rw /bend /= in HP Hp1 Hp2 Hp3. split_and!; [|lia..|].
    + intros x [->|Hx]%elem_of_cons; [simpl; lia|]. destruct (Hbok x) as (_ & Hx2 & _); [rw -app_assoc elem_of_app; by left|].
      pose proof (ho_sorted _ _ _ Hh) as Hs. rw -app_assoc in Hs. apply ss_app in Hs as (_ & _ & Hs).
      specialize (Hs x (p, zp) Hx ltac:(by left)). rw /before /bend /= in Hs. lia.
    + intros x Hx. pose proof (ho_apart _ _ _ Hh) as Ha. apply pairwise_app in Ha as (_ & _ & Ha).
      destruct (Ha (p, zp) x) as [?|?]; [rw -app_assoc elem_of_app elem_of_cons; tauto|by right| |by right].
      left. rw /bend /= in H0. lia.
Qed.

Lemma free_wp h F bp sz L n : heap_ok h F ((bp, sz) :: L) -> (length F + 2 < n)%nat ->
  wp (free (bp + 16)) n h (fun _ h' => exists F', heap_ok h' F' L /\ units F' = units F + sz /\ brk h' = brk h /\
    (length F' <= S (length F))%nat /\ (exists x, x ∈ F' /\ x.1 <= bp /\ bp + 16 * sz <= bend x) /\
    forall x b, x ∈ L -> x.1 <= b < bend x -> ld8 (hmem h') b = ld8 (hmem h) b).
Proof.
  intros Hh Hn. pose proof base_pos as Hbase. pose proof (ho_brk _ _ _ Hh) as Hbrk.
  destruct (heap_ok_live h F _ (bp, sz) Hh ltac:(by left)) as (Hb1 & Hb2 & Hb3). rw /bend /= in Hb1 Hb2 Hb3.
  destruct (place_split h F L bp sz Hh) as (P & S & -> & HP & HS).
  assert (forall x, x ∈ P ++ S -> block_ok h x) as Hbok by (intros x; by apply (heap_ok_free _ _ _ x Hh)).
  rw /free /HDR. replace (bp + 16 - 16) with bp by lia. rw u64_small; [|lia].
  apply wp_bind. eapply wp_mono; [apply (free_place_wp h (P ++ S) P S bp n _ Hh); [done|lia| | |done]|].
  { intros x Hx. specialize (HP x Hx). destruct (Hbok x) as (? & ? & ?); [apply elem_of_app; by left|]. rw /bend in HP. lia. }
  { intros x Hx. specialize (HS x Hx). lia. }
  intros p h' (-> & zp & Hlast). destruct (split_last P (p, zp) Hlast) as [pre Epre].
  pose proof (ho_seg _ _ _ Hh) as Hseg. rw app_comm_cons Epre -app_assoc /= in Hseg.
  pose proof Hseg as Hseg'. apply seg_app in Hseg' as [_ (Hpp & Hpz & HsegS)]. fold (next_of S) in Hpp. simpl in Hpp, Hpz.
  apply wp_bind, wp_gets. assert (ld32 (hmem h) (bp + 8) = sz) as Hlsz.
  { pose proof (ho_live _ _ _ Hh) as Hl. by apply Forall_cons_1 in Hl as [? _]. }
  rw Hlsz. apply wp_bind, wp_gets. rw Hpp. apply wp_bind.
  assert (forall x, x ∈ S -> bp + 16 * sz <= x.1 /\ 1 <= x.2 /\ bend x <= 2 ^ 31) as HS'.
  { intros x Hx. specialize (HS x Hx). destruct (Hbok x) as (? & ? & ?); [apply elem_of_app; by right|]. lia. }
  destruct (up_ok h P S bp sz L) as (Hup & Hstrict & Hunits & Hgrow & S0 & ES); [by split; apply Hh|done|].
  eapply (free_up_wp h S bp sz n); [done|done|lia|done|lia|done|].
  intros m1 Hm1 Ho1. set (sz' := (up bp sz S).1) in *. set (S' := (up bp sz S).2) in *.
  destruct (place_facts h P S bp sz L pre p zp Hh Epre HP Hb1) as (Hpre & (Hpb & Hp0 & Hpe & Hzp) & HpL).
  assert (hdr m1 p (next_of S) zp) as Hp1 by (eapply (hdr_off _ _ _ bp); [exact Ho1|lia|done]).
  apply wp_bind, wp_gets. change (hmem (set_hmem m1 h)) with m1. rw (proj2 Hp1). apply wp_bind.
  assert (bp + 16 * sz' <= 2 ^ 31) as Hlim'.
  { destruct Hup as [_ Hup _]. apply Forall_app in Hup as [_ [Hup _]%Forall_cons_1]. destruct Hup as (_ & _ & Hup).
    rw /bend /= in Hup. lia. }
  eapply (free_down_wp (set_hmem m1 h) p zp); [done|exact Hm1|lia..|done|].
  intros m2 Ho2 Hm2. apply wp_modify. simpl in Ho2.
  destruct (freed_blocks h P S' bp sz' L pre p zp) as (F' & EF & Hbl & Hun & Hlen & x & Hx & Hx1 & Hx2); [done|done|lia|lia|done|done|].
  assert (forall y b, y ∈ L -> y.1 <= b < bend y -> ld8 m2 b = ld8 (hmem h) b) as Hkeep.
  { intros y b Hy Hb. destruct (heap_ok_live _ _ _ y Hh ltac:(by right)) as (_ & Hy2 & _).
    assert (apart (bp, sz) y) as Ha.
    { pose proof (ho_apart _ _ _ Hh) as Ha. apply pairwise_app in Ha as (_ & [Ha _] & _). rw Forall_forall in Ha. by apply Ha. }
    rw /apart /bend /= in Ha Hb. rw Ho2; [apply Ho1; lia|]. destruct (HpL y Hy) as [?|?]; rw /bend in H; lia. }
  exists F'. split_and!; [|rw Hun !units_app; lia|done| |exists x; split_and!; [done|done|lia]|].
  - destruct Hbl as [Hbl1 Hbl2 Hbl3]. split; try done.
    + change (seg m2 ((base, 0) :: F') base). rw EF. eapply (relinked (hmem h) m1 m2 pre p zp S S' bp sz'); try done.
      * intros y Hy. rw ES. apply elem_of_app. by right.
      * rw ES in HsegS. by apply seg_app in HsegS as [_ ?].
      * intros y Hy. specialize (HS y Hy). lia.
    + change (p ∈ ((base, 0) :: F').*1). rw EF /down. apply list_elem_of_fmap. case_match; [exists (p, zp + sz')|exists (p, zp)];
        (split; [done|]); rw elem_of_app elem_of_app; right; left; by left.
    + apply Forall_forall. intros y Hy. pose proof (ho_live _ _ _ Hh) as Hl. apply Forall_cons_1 in Hl as [_ Hl].
      rw Forall_forall in Hl. rw -(Hl y Hy). apply ldn_ext. intros b Hb. apply (Hkeep y); [done|].
      destruct (heap_ok_live _ _ _ y Hh ltac:(by right)) as (_ & ? & _). rw /bend. lia.
  - rw ES !length_app in Hlen |- *. lia.
  - done.
Qed.
(** ** [malloc] *)

(** The state after a change of memory that keeps every header named. *)
Lemma heap_ok_mem h F L m f b :
  heap_ok h F L -> seg m ((base, 0) :: F) base -> f ∈ ((base, 0) :: F).*1 -> brk h <= b <= 2 ^ 31 ->
  (forall x, x ∈ L -> ld32 m (x.1 + 8) = x.2) -> heap_ok (Heap m f b) F L.
Proof.
  intros [Hs Hf Hso Hb Ha Hl Hbr] Hm Hf' Hb' Hl'. split; try done.
  - eapply Forall_impl; [exact Hb|]. intros x (H1 & H2 & H3). rw /block_ok /=. lia.
  - by apply Forall_forall.
  - simpl. lia.
Qed.

(** New memory, as a live block above all others. *)
Lemma heap_ok_grow h F L m nu : heap_ok h F L -> 1 <= nu -> brk h + 16 * nu <= 2 ^ 31 ->
  (forall b, b < brk h -> ld8 m b = ld8 (hmem h) b) -> ld32 m (brk h + 8) = nu ->
  heap_ok (Heap m (freep h) (brk h + 16 * nu)) F ((brk h, nu) :: L).
Proof.
  intros Hh Hnu Hlim Hm Hsz. pose proof Hh as [Hs Hf Hso Hb Ha Hl Hbr].
  assert (forall x, x ∈ F ++ L -> block_ok h x) as Hok by by apply Forall_forall.
  assert (heap_ok (Heap m (freep h) (brk h + 16 * nu)) F L) as Hh'.
  { apply (heap_ok_mem h); [done| |done|lia|].
    - eapply seg_ext; [|exact Hs]. intros x b Hx Hb'. apply Hm. apply elem_of_cons in Hx as [->|Hx]; [simpl in Hb'; lia|].
      destruct (Hok x) as (_ & ? & ?); [apply elem_of_app; by left|]. rw /bend in H0. lia.
    - intros x Hx. rw Forall_forall in Hl. rw -(Hl x Hx). apply ldn_ext. intros b Hb'. apply Hm.
      destruct (Hok x) as (_ & ? & ?); [apply elem_of_app; by right|]. rw /bend in H0. lia. }
  destruct Hh' as [Hs' Hf' Hso' Hb' Ha' Hl' Hbr']. split; try done.
  - rw -Permutation_middle. constructor; [|done]. rw /block_ok /bend /=. lia.
  - apply (pairwise_perm ((brk h, nu) :: F ++ L)); [apply Permutation_middle|]. split; [|done].
    apply Forall_forall. intros x Hx. destruct (Hok x Hx) as (_ & _ & ?). right. done.
  - by constructor.
Qed.

Lemma morecore_wp h F L nu n : heap_ok h F L -> 1 <= nu < 2 ^ 27 -> (length F + 2 < n)%nat ->
  wp (morecore nu) n h (fun r h' => r = 0 /\ h' = h \/
    r = freep h' /\ exists F' g, heap_ok h' F' L /\ units F' = units F + g /\ brk h' = brk h + 16 * g /\
      (length F' <= S (length F))%nat /\ (exists x, x ∈ F' /\ nu <= x.2) /\
      forall x b, x ∈ L -> x.1 <= b < bend x -> ld8 (hmem h') b = ld8 (hmem h) b).
Proof.
  intros Hh Hnu Hn. rw /morecore. set (g := if nu <? 4096 then 4096 else nu).
  assert (nu <= g < 2 ^ 27 /\ 1 <= g) as [Hg Hg1] by (rw /g; destruct (Z.ltb_spec nu 4096); lia).
  rw /HDR i32_small; [|lia]. apply wp_bind. eapply wp_mono; [apply sbrk_wp; lia|].
  intros r h1 [[-> ->]|(-> & Hf1 & Hb1 & Hlim & Hm1)]; [by apply wp_ret; left|].
  pose proof (ho_brk _ _ _ Hh). pose proof base_pos. rw (proj2 (Z.eqb_neq _ _)); [|lia].
  apply wp_bind, wp_modify. rw u64_small; [|lia]. apply wp_bind. set (h2 := set_hmem _ h1).
  assert (heap_ok h2 F ((brk h, g) :: L)) as Hh2.
  { rw /h2 /set_hmem Hf1 Hb1 (Z.mul_comm g). apply heap_ok_grow; [done..|lia| |].
    - intros b Hb. rw ld8_stn_out; [by apply Hm1|]. lia.
    - rw ld32_st32_eq u32_small //. lia. }
  eapply wp_mono; [by apply (free_wp h2 F (brk h) g L n)|].
  intros [] h3 (F' & Hh3 & Hu & Hb3 & Hlen & (x & Hx & Hx1 & Hx2) & Hkeep). apply wp_gets. right. split; [done|].
  exists F', g. split_and!; try done.
  - rw Hb3 /h2 /= Hb1. lia.
  - exists x. split; [done|]. rw /bend in Hx2. lia.
  - intros y b Hy Hb. rw (Hkeep y) // /h2 /=. destruct (heap_ok_live _ _ _ y Hh Hy) as (_ & _ & ?). rw ld8_stn_out; [|lia].
    apply Hm1. lia.
Qed.

(** The header of any block of the heap is off the live blocks. *)
Lemma header_off h F L i y x : heap_ok h F L -> ((base, 0) :: F) !! i = Some y -> x ∈ L ->
  y.1 + 16 <= x.1 \/ bend x <= y.1.
Proof.
  intros Hh Hy Hx. destruct (heap_ok_live _ _ _ x Hh Hx) as (Hx1 & Hx2 & _).
  destruct i as [|i]; simpl in Hy; [simplify_eq; by left|]. apply list_elem_of_lookup_2 in Hy.
  destruct (heap_ok_free _ _ _ y Hh Hy) as (_ & Hy2 & _).
  pose proof (ho_apart _ _ _ Hh) as Ha. apply pairwise_app in Ha as (_ & _ & Ha).
  destruct (Ha y x Hy Hx) as [?|?]; [left|by right]. rw /bend in H. lia.
Qed.
(** Headers of different free blocks are apart. *)
Lemma headers_apart h F L i j x y : heap_ok h F L -> (i < j)%nat ->
  ((base, 0) :: F) !! i = Some x -> ((base, 0) :: F) !! j = Some y -> x.1 + 16 <= y.1.
Proof.
  intros Hh Hij Hx Hy. destruct j as [|j]; [lia|]. simpl in Hy. pose proof (list_elem_of_lookup_2 _ _ _ Hy) as Hy'.
  destruct (heap_ok_free _ _ _ y Hh Hy') as (Hby & _ & _). destruct i as [|i]; simpl in Hx; [by simplify_eq|].
  pose proof (list_elem_of_lookup_2 _ _ _ Hx) as Hx'. destruct (heap_ok_free _ _ _ x Hh Hx') as (_ & Hbx & _).
  pose proof (sorted_lookup _ _ _ _ _ _ (ho_sorted _ _ _ Hh) (proj2 (Nat.succ_lt_mono i j) Hij) Hx Hy) as Hb.
  rw /before /bend in Hb. lia.
Qed.

Lemma take_exact h X p z Y q zq L : heap_ok h (X ++ (p, z) :: Y) L -> last ((base, 0) :: X) = Some (q, zq) ->
  let h' := Heap (st64 (hmem h) q (next_of Y)) q (brk h) in
  heap_ok h' (X ++ Y) ((p, z) :: L) /\
  forall x b, x ∈ L -> x.1 <= b < bend x -> ld8 (hmem h') b = ld8 (hmem h) b.
Proof.
  intros Hh Hlast h'. destruct (split_last X (q, zq) Hlast) as [pre Epre].
  pose proof Hh as [Hs Hf Hso Hb Ha Hl Hbr].
  assert (((base, 0) :: X ++ (p, z) :: Y) !! length pre = Some (q, zq)) as Hq.
  { rw app_comm_cons Epre -app_assoc lookup_app_r // Nat.sub_diag //. }
  assert (((base, 0) :: X ++ (p, z) :: Y) !! S (length pre) = Some (p, z)) as Hp.
  { rw app_comm_cons Epre -app_assoc lookup_app_r; [|lia]. by rw Nat.sub_succ_l // Nat.sub_diag. }
  pose proof Hs as Hs'. rw app_comm_cons Epre -app_assoc /= in Hs'. apply seg_app in Hs' as (Hpre & Hq1 & Hq2 & Hp1 & Hp2 & HY).
  simpl in Hpre, Hq1, Hq2, Hp1, Hp2. change (default base _) with (next_of Y) in Hp1.
  assert (0 <= next_of Y < 2 ^ 64) as Hr by (rw -Hp1; apply ld64_range).
  destruct (hdr_set_ptr (hmem h) q p zq (next_of Y) Hr (conj Hq1 Hq2)) as [[Hn1 Hn2] Hoff].
  assert (forall x b, x ∈ L -> x.1 <= b < bend x -> ld8 (hmem h') b = ld8 (hmem h) b) as Hkeep.
  { intros x b Hx Hb'. apply Hoff. destruct (header_off h _ L _ _ x Hh Hq Hx); simpl in H; lia. }
  assert (forall i x b, ((base, 0) :: X ++ (p, z) :: Y) !! i = Some x -> i <> length pre -> x.1 <= b < x.1 + 16 ->
    ld8 (hmem h') b = ld8 (hmem h) b) as Hkf.
  { intros i x b Hx Hi Hb'. apply Hoff. destruct (decide (i < length pre)%nat) as [Hlt|Hge].
    - pose proof (headers_apart h _ L _ _ _ _ Hh Hlt Hx Hq). simpl in H. lia.
    - assert (length pre < i)%nat as Hgt by lia. pose proof (headers_apart h _ L _ _ _ _ Hh Hgt Hq Hx). simpl in H. lia. }
  split; [|done]. split.
  - rw app_comm_cons Epre -app_assoc /=. apply seg_app. simpl. split; [|split_and!; [done|done|]].
    + eapply seg_ext; [|exact Hpre]. intros x b [i Hx]%list_elem_of_lookup Hb'. pose proof (lookup_lt_Some _ _ _ Hx).
      apply (Hkf i x); [|lia|done]. rw app_comm_cons Epre -app_assoc lookup_app_l //.
    + eapply seg_ext; [|exact HY]. intros x b [i Hx]%list_elem_of_lookup Hb'.
      apply (Hkf (length pre + (2 + i))%nat x); [|lia|done]. rw app_comm_cons Epre -app_assoc lookup_app_r; [|lia].
      by replace (length pre + (2 + i) - length pre)%nat with (2 + i)%nat by lia.
  - change (q ∈ ((base, 0) :: X ++ Y).*1). rw app_comm_cons Epre. apply list_elem_of_fmap. exists (q, zq). split; [done|]. rw !elem_of_app. left. right. by left.
  - apply ss_app in Hso as (H1 & H2 & H3). apply StronglySorted_inv in H2 as [H2 _]. apply ss_app. split_and!; [done..|].
    intros x y Hx Hy. apply H3; [done|by right].
  - assert ((X ++ (p, z) :: Y) ++ L ≡ₚ (X ++ Y) ++ (p, z) :: L) as Hp'.
    { rw -!app_assoc /=. apply Permutation_app_head. apply Permutation_middle. }
    by rw -Hp'.
  - eapply pairwise_perm; [|exact Ha]. rw -!app_assoc /=. apply Permutation_app_head. apply Permutation_middle.
  - constructor.
    + simpl. rw -Hp2. apply ldn_ext. intros b Hb'. apply (Hkf (S (length pre)) (p, z)); [done|lia|simpl; lia].
    + apply Forall_forall. intros x Hx. rw Forall_forall in Hl. rw -(Hl x Hx). apply ldn_ext. intros b Hb'. apply (Hkeep x); [done|].
      destruct (heap_ok_live _ _ _ x Hh Hx) as (_ & ? & _). rw /bend. lia.
  - done.
Qed.

Lemma take_split h X p z Y q zq L k : heap_ok h (X ++ (p, z) :: Y) L -> last ((base, 0) :: X) = Some (q, zq) ->
  1 <= k < z ->
  let r := p + 16 * (z - k) in
  let h' := Heap (st32 (st32 (hmem h) (p + 8) (z - k)) (r + 8) k) q (brk h) in
  heap_ok h' (X ++ (p, z - k) :: Y) ((r, k) :: L) /\
  forall x b, x ∈ L -> x.1 <= b < bend x -> ld8 (hmem h') b = ld8 (hmem h) b.
Proof.
  intros Hh Hlast Hk r h'. pose proof Hh as [Hs Hf Hso Hb Ha Hl Hbr]. pose proof base_pos as Hb0.
  set (i := S (length X)). assert (((base, 0) :: X ++ (p, z) :: Y) !! i = Some (p, z)) as Hp.
  { simpl. by rw lookup_app_r // Nat.sub_diag. }
  assert (block_ok h (p, z)) as (Hp1 & _ & Hp3) by (eapply heap_ok_free; [done|by rw elem_of_app elem_of_cons; auto]).
  rw /bend /= in Hp1 Hp3.
  destruct (hdr_set_size (hmem h) p (ld64 (hmem h) p) (z - k) ltac:(lia) eq_refl) as [Hh1 Ho1].
  destruct (hdr_set_size (st32 (hmem h) (p + 8) (z - k)) r _ k ltac:(lia) eq_refl) as [[_ Hr2] Ho2].
  assert (r = p + 16 * (z - k)) as Er by done.
  assert (forall b, ~ p <= b < p + 16 * z -> ld8 (hmem h') b = ld8 (hmem h) b) as Hoff.
  { intros b Hb'. rw /h' /= Ho2; [|lia]. apply Ho1. lia. }
  assert (hdr (hmem h') p (next_of Y) (z - k)) as [Hp' Hz'].
  { eapply (hdr_off _ _ _ r); [exact Ho2|lia|]. assert (ld64 (hmem h) p = next_of Y) as Hnx; [|by rw Hnx in Hh1].
    rw app_comm_cons in Hs. by apply seg_app in Hs as [_ (Hs & _)]. }
  assert (forall x b, x ∈ L -> x.1 <= b < bend x -> ld8 (hmem h') b = ld8 (hmem h) b) as Hkeep.
  { intros x b Hx Hb'. apply Hoff. apply pairwise_app in Ha as (_ & _ & Ha).
    destruct (Ha (p, z) x); [by rw elem_of_app elem_of_cons; auto|done|..]; rw /bend /= in H Hb'; lia. }
  assert (forall j x b, ((base, 0) :: X ++ (p, z) :: Y) !! j = Some x -> j <> i -> x.1 <= b < x.1 + 16 ->
    ld8 (hmem h') b = ld8 (hmem h) b) as Hkf.
  { intros j x b Hx Hi Hb'. apply Hoff. destruct (decide (j < i)%nat) as [Hlt|Hge].
    - pose proof (headers_apart h _ L _ _ _ _ Hh Hlt Hx Hp). simpl in H. lia.
    - assert (i < j)%nat as Hgt by lia. destruct j as [|j]; [lia|]. simpl in Hx.
      pose proof (sorted_lookup _ _ _ _ _ _ Hso (proj2 (Nat.succ_lt_mono (length X) j) Hgt) Hp Hx) as Hbf. rw /before /bend /= in Hbf. lia. }
  split; [|done]. split.
  - rw app_comm_cons in Hs. apply seg_app in Hs as [HX (_ & _ & HY)].
    change (seg (hmem h') (((base, 0) :: X) ++ (p, z - k) :: Y) base). apply seg_app. split; [|split_and!; [done|done|]].
    + eapply seg_ext; [|exact HX]. intros x b [j Hx]%list_elem_of_lookup Hb'. pose proof (lookup_lt_Some _ _ _ Hx) as Hj.
      apply (Hkf j x); [|simpl in Hj; lia|done]. rw app_comm_cons lookup_app_l //.
    + eapply seg_ext; [|exact HY]. intros x b [j Hx]%list_elem_of_lookup Hb'.
      apply (Hkf (i + S j)%nat x); [|lia|done]. rw app_comm_cons lookup_app_r; [|simpl; lia].
      by replace (i + S j - length ((base, 0%Z) :: X))%nat with (S j) by (simpl; lia).
  - change (q ∈ ((base, 0) :: X ++ (p, z - k) :: Y).*1). rw app_comm_cons. apply list_elem_of_fmap. exists (q, zq). split; [done|].
    apply elem_of_app. left. by apply last_Some_elem_of.
  - apply ss_app in Hso as (H1 & H2 & H3). apply StronglySorted_inv in H2 as [H2 H2f]. apply ss_app. split_and!; [done| |].
    + constructor; [done|]. eapply Forall_impl; [exact H2f|]. intros y. rw /before /bend /=. lia.
    + intros x y Hx [->|Hy]%elem_of_cons; [apply (H3 x (p, z)); [done|by left]|apply H3; [done|by right]].
  - assert (Forall (block_ok h) ((X ++ Y) ++ L)) as Hrest.
    { rw -app_assoc /= -Permutation_middle app_assoc in Hb. by apply Forall_cons_1 in Hb as [_ ?]. }
    rw -Permutation_middle -app_assoc /= -Permutation_middle app_assoc. constructor; [|constructor; [|done]]; rw /block_ok /bend /=; lia.
  - apply (pairwise_perm ((p, z - k) :: (r, k) :: (X ++ Y) ++ L)).
    { rw -Permutation_middle -app_assoc /= -Permutation_middle app_assoc. apply perm_swap. }
    apply pairwise_split; [lia|]. eapply pairwise_perm; [|exact Ha]. by rw -!app_assoc /= -Permutation_middle.
  - constructor; [done|]. apply Forall_forall. intros x Hx. rw Forall_forall in Hl. rw -(Hl x Hx). apply ldn_ext.
    intros b Hb'. apply (Hkeep x); [done|]. destruct (heap_ok_live _ _ _ x Hh Hx) as (_ & ? & _). rw /bend. lia.
  - done.
Qed.

(** The loop of [malloc] at position [i], [k] being that of [freep]; [ph]: the
    heap has been extended. *)
Abbreviation full F := (((base, 0) : block) :: F).
Record scan (nu : Z) h F0 L F (k i : nat) (ph : bool) (prevp p : Z) s : Prop := {
  sc_ok : heap_ok s F L;
  sc_freep : exists y, full F !! k = Some y /\ freep s = y.1;
  sc_at : exists x, full F !! i = Some x /\ p = x.1;
  sc_prev : exists j w, full F !! j = Some w /\ prevp = w.1 /\ nxt (length (full F)) j = i;
  sc_one : ph = false -> s = h /\ F = F0;
  sc_two : ph = true -> (length F <= S (length F0))%nat /\
    exists u v, full F !! u = Some v /\ nu <= v.2 /\ (dist (length (full F)) k u <= dist (length (full F)) k i)%nat;
  sc_units : exists g, units F = units F0 + g /\ brk s = brk h + 16 * g;
  sc_live : forall x b, x ∈ L -> x.1 <= b < bend x -> ld8 (hmem s) b = ld8 (hmem h) b;
}.

(** The result: 0 and nothing changed, or a block of [nu] units. *)
Definition malloced (nu : Z) h F L (r : Z) h' : Prop :=
  r = 0 /\ h' = h \/
  exists F' g, heap_ok h' F' ((r - 16, nu) :: L) /\ units F' + nu = units F + g /\ brk h' = brk h + 16 * g /\
    forall x b, x ∈ L -> x.1 <= b < bend x -> ld8 (hmem h') b = ld8 (hmem h) b.

Definition alloc_from (nu prevp p sz : Z) : K heap (Z * Z + Z) :=
  p ← (if sz =? nu then nx ← ptr p; set_ptr prevp nx;; mret p
       else
         set_size p (u32 (sz - nu));;
         sz ← size p;
         let p := u64 (p + sz * HDR) in
         set_size p nu;; mret p);
  modify (set_freep prevp);;
  mret (inr (u64 (p + HDR))).

(** Taking a block from the free block at position [i]. *)
Lemma alloc_from_wp nu h F0 L F k i ph prevp p s x n :
  scan nu h F0 L F k i ph prevp p s -> full F !! i = Some x -> 1 <= nu <= x.2 ->
  wp (alloc_from nu prevp p x.2) n s (fun r h' => exists r', r = inr r' /\ malloced nu h F0 L r' h').
Proof.
  intros Hsc Hx Hnu. pose proof base_pos as Hb0. pose proof (sc_ok _ _ _ _ _ _ _ _ _ _ _ Hsc) as Hh.
  destruct i as [|i]; [simpl in Hx; simplify_eq; simpl in Hnu; lia|]. simpl in Hx.
  destruct (sc_at _ _ _ _ _ _ _ _ _ _ _ Hsc) as (x' & Hx' & ->). simpl in Hx'. rw Hx in Hx'. injection Hx' as <-.
  destruct (sc_prev _ _ _ _ _ _ _ _ _ _ _ Hsc) as (j & w & Hw & -> & Hj).
  assert (j = i) as -> by (rw /nxt in Hj; case_decide; lia).
  pose proof (take_drop_middle _ _ _ Hx) as EF. set (X := take i F) in *. set (Y := drop (S i) F) in *.
  assert (length X = i) as HlX by (apply length_take_le; apply lookup_lt_Some in Hx; lia).
  assert (last (full X) = Some w) as Hlast.
  { rw last_lookup /=. rw -Hw -EF app_comm_cons lookup_app_l /=; [by rw HlX|lia]. }
  destruct (heap_ok_free _ _ _ x Hh ltac:(by eapply list_elem_of_lookup_2)) as (Hx1 & Hx2 & Hx3).
  pose proof (ho_brk _ _ _ Hh) as Hbr. rw /bend in Hx3.
  destruct (sc_units _ _ _ _ _ _ _ _ _ _ _ Hsc) as (g & Hu & Hbg). pose proof (sc_live _ _ _ _ _ _ _ _ _ _ _ Hsc) as Hlive.
  rw -EF in Hh Hu. rw units_app units_cons in Hu. destruct x as [p z], w as [q zq]. cbn [fst snd] in *.
  assert (forall F' r' h', heap_ok h' F' ((r' - 16, nu) :: L) -> units F' + nu = units F0 + g -> brk h' = brk s ->
    (forall x b, x ∈ L -> x.1 <= b < bend x -> ld8 (hmem h') b = ld8 (hmem s) b) -> malloced nu h F0 L r' h') as Hfin.
  { intros F' r' h' Hok Hun Hbk Hkeep. right. exists F', g. split_and!; [done|done|congruence|].
    intros y b Hy Hb. by rw (Hkeep y) // (Hlive y). }
  rw /alloc_from /HDR. destruct (Z.eqb_spec z nu) as [->|Hne].
  - apply wp_bind. apply wp_bind, wp_gets, wp_bind, wp_modify, wp_ret, wp_bind, wp_modify, wp_ret. eexists. split; [done|].
    rw u64_small; [|lia]. destruct (take_exact s X p nu Y q zq L Hh Hlast) as [Hok Hkeep].
    assert (ld64 (hmem s) p = next_of Y) as Hnx.
    { pose proof (ho_seg _ _ _ Hh) as Hs. rw app_comm_cons in Hs. by apply seg_app in Hs as [_ (Hs & _)]. }
    apply (Hfin (X ++ Y)); [|rw units_app; lia|done|].
    + replace (p + 16 - 16) with p by lia. simpl. rw /set_freep /set_hmem /= Hnx. exact Hok.
    + simpl. rw Hnx. exact Hkeep.
  - destruct (take_split s X p z Y q zq L nu Hh Hlast ltac:(lia)) as [Hok Hkeep].
    apply wp_bind. rw (u32_small (z - nu)); [|lia]. apply wp_bind, wp_modify, wp_bind, wp_gets. cbn [hmem set_hmem].
    rw ld32_st32_eq u32_small; [|lia]. rw (Z.mul_comm (z - nu)) (u64_small (p + _)); [|lia].
    apply wp_bind, wp_modify, wp_ret, wp_bind, wp_modify, wp_ret. eexists. split; [done|]. rw u64_small; [|lia].
    apply (Hfin (X ++ (p, z - nu) :: Y)); [|rw units_app units_cons /=; lia|done|exact Hkeep].
    replace (p + 16 * (z - nu) + 16 - 16) with (p + 16 * (z - nu)) by lia. exact Hok.
Qed.

(** The search moves on to the next block. *)
Lemma scan_next nu h F0 L F k i ph prevp p s x : scan nu h F0 L F k i ph prevp p s -> full F !! i = Some x -> x.2 < nu -> i <> k ->
  scan nu h F0 L F k (nxt (length (full F)) i) ph p (ld64 (hmem s) p) s.
Proof.
  intros [Hh [yk [Hk Hfk]] (x' & Hx' & ->) Hprev Hone Htwo Hun Hlive] Hx Hsm Hne. rw Hx in Hx'. injection Hx' as <-.
  pose proof (lookup_lt_Some _ _ _ Hx) as Hilt. pose proof (lookup_lt_Some _ _ _ Hk) as Hklt.
  destruct (seg_lookup _ _ _ _ _ (ho_seg _ _ _ Hh) Hx) as (y & Hy & Hld & _). split; try done; eauto.
  intros Hph. destruct (Htwo Hph) as (Hlen & u & v & Hu & Hnu & Hd). split; [done|]. exists u, v. split_and!; [done..|].
  pose proof (dist_nxt _ _ _ Hilt Hklt Hne) as Hdn. destruct (decide (dist (length (full F)) k u = dist (length (full F)) k i)) as [E|]; [|lia].
  apply dist_inj in E; [|by apply lookup_lt_Some in Hu|done..]. subst u. rw Hx in Hu. injection Hu as <-. lia.
Qed.

(** A fresh scan starts after [freep]. *)
Lemma scan_start nu h F0 L F s (ph : bool) : heap_ok s F L -> (ph = false -> s = h /\ F = F0) ->
  (ph = true -> (length F <= S (length F0))%nat /\ exists x, x ∈ F /\ nu <= x.2) ->
  (exists g, units F = units F0 + g /\ brk s = brk h + 16 * g) ->
  (forall x b, x ∈ L -> x.1 <= b < bend x -> ld8 (hmem s) b = ld8 (hmem h) b) ->
  exists k, (k < length (full F))%nat /\
    scan nu h F0 L F k (nxt (length (full F)) k) ph (freep s) (ld64 (hmem s) (freep s)) s.
Proof.
  intros Hh Hone Htwo Hun Hlive. pose proof (ho_freep _ _ _ Hh) as Hf. apply list_elem_of_fmap in Hf as (y & Ef & Hy).
  apply list_elem_of_lookup in Hy as [k Hk]. pose proof (lookup_lt_Some _ _ _ Hk) as Hklt. exists k. split; [done|].
  destruct (seg_lookup _ _ _ _ _ (ho_seg _ _ _ Hh) Hk) as (y' & Hy' & Hld & _). rw Ef. split; try done.
  - by exists y.
  - exists y'. by rw Hld.
  - exists k, y. done.
  - intros Hph. destruct (Htwo Hph) as (Hlen & x & Hx & Hnu). split; [done|]. apply list_elem_of_lookup in Hx as [u Hu].
    exists (S u), x. split_and!; [done|done|]. apply dist_max; [|done]. simpl. apply lookup_lt_Some in Hu. lia.
Qed.

Lemma malloc_loop_wp nu h F L n : heap_ok h F L -> 1 <= nu < 2 ^ 27 -> (2 * length F + 4 < n)%nat ->
  wp (loop (fun '(prevp, p) =>
    sz ← size p;
    if nu <=? sz then alloc_from nu prevp p sz
    else
      f ← gets freep;
      if p =? f then
        p ← morecore nu;
        if p =? 0 then mret (inr 0) else nx ← ptr p; mret (inl (p, nx))
      else nx ← ptr p; mret (inl (p, nx))) (freep h, ld64 (hmem h) (freep h))) n h (malloced nu h F L).
Proof.
  intros Hh Hnu Hn.
  destruct (scan_start nu h F L F h false) as (k0 & Hk0 & Hsc0); [done|done|done|exists 0; lia|done|].
  apply (wp_loop_ghost (fun '(F', k, i, ph) '(prevp, p) s => scan nu h F L F' k i ph prevp p s)
    (fun '(F', k, i, ph) => (dist (length (full F')) k i + (if (ph : bool) then 0 else length F' + 3))%nat) _ _
    (F, k0, nxt (length (full F)) k0, false)).
  { exact Hsc0. }
  { pose proof (dist_max _ _ _ Hk0 Hk0). cbn [length] in H |- *. lia. }
  intros [[[F' k] i] ph] [prevp p] s Hsc. pose proof (sc_ok _ _ _ _ _ _ _ _ _ _ _ Hsc) as Hs.
  destruct (sc_at _ _ _ _ _ _ _ _ _ _ _ Hsc) as (x & Hx & ->). destruct (sc_freep _ _ _ _ _ _ _ _ _ _ _ Hsc) as (y & Hy & Hfy).
  pose proof (lookup_lt_Some _ _ _ Hx) as Hilt. pose proof (lookup_lt_Some _ _ _ Hy) as Hklt.
  destruct (seg_lookup _ _ _ _ _ (ho_seg _ _ _ Hs) Hx) as (x' & Hx' & Hld & Hsz).
  apply wp_bind, wp_gets. rw Hsz. destruct (Z.leb_spec nu x.2) as [Hbig|Hsmall].
  { eapply wp_mono; [by eapply alloc_from_wp; [..|lia]|]. intros r h' (r' & -> & Hm). exact Hm. }
  apply wp_bind, wp_gets. rw Hfy. destruct (decide (i = k)) as [->|Hne].
  - rw Hx in Hy. injection Hy as <-. rw Z.eqb_refl. destruct ph.
    { destruct (sc_two _ _ _ _ _ _ _ _ _ _ _ Hsc eq_refl) as (_ & u & v & Hu & Hv & Hd). exfalso.
      assert (u = k) as ->; [|rw Hx in Hu; injection Hu as <-; lia].
      apply (dist_inj (length (full F')) k); [by apply lookup_lt_Some in Hu|done..|].
      assert (dist (length (full F')) k k = O) as E by (rw /dist decide_True; lia). lia. }
    destruct (sc_one _ _ _ _ _ _ _ _ _ _ _ Hsc eq_refl) as [-> ->]. apply wp_bind.
    eapply wp_mono; [apply (morecore_wp h F L nu n Hh); lia|].
    intros r h' [[-> ->]|(-> & F1 & g & Hh' & Hu' & Hb' & Hlen' & Hx1 & Hkeep)]; [by apply wp_ret; left|].
    assert (freep h' <> 0) as Hnz.
    { pose proof (ho_freep _ _ _ Hh') as Hf. apply list_elem_of_fmap in Hf as (z & -> & [j Hj]%list_elem_of_lookup).
      pose proof (heap_ok_addr _ _ _ _ _ Hh' Hj). pose proof base_pos. lia. }
    rw (proj2 (Z.eqb_neq _ _) Hnz). apply wp_bind, wp_gets, wp_ret.
    destruct (scan_start nu h F L F1 h' true) as (k1 & Hk1 & Hsc1); [done|done|done|by exists g|done|].
    exists (F1, k1, nxt (length (full F1)) k1, true). split; [exact Hsc1|].
    pose proof (dist_max _ _ _ Hk1 Hk1). cbn [length] in H |- *. lia.
  - rw (proj2 (Z.eqb_neq x.1 y.1)); last first.
    { destruct (decide (i < k)%nat) as [Hlt|Hge].
      - pose proof (heap_ascending _ _ _ _ _ _ _ Hs Hlt Hx Hy). lia.
      - assert (k < i)%nat as Hgt by lia. pose proof (heap_ascending _ _ _ _ _ _ _ Hs Hgt Hy Hx). lia. }
    apply wp_bind, wp_gets, wp_ret. exists (F', k, nxt (length (full F')) i, ph). split; [by eapply scan_next|].
    pose proof (dist_nxt _ _ _ Hilt Hklt Hne). lia.
Qed.

(** A heap before or after its first use. *)
Definition heap_inv h F L : Prop :=
  heap_ok h F L \/ freep h = 0 /\ F = [] /\ L = [] /\ base + 16 <= brk h <= 2 ^ 31.

(** Units for [nb] bytes, with the header. *)
Definition units_for (nb : Z) : Z := (nb + 15) / 16 + 1.
(** The largest request whose size is an [int]. *)
Definition MAXREQ : Z := 2 ^ 31 - 64.
Lemma units_for_range nb : 0 <= nb <= MAXREQ -> 1 <= units_for nb < 2 ^ 27 /\ nb <= 16 * (units_for nb - 1).
Proof.
  rw /MAXREQ /units_for. intros Hnb. pose proof (Z.div_mod (nb + 15) 16 ltac:(done)).
  pose proof (Z.mod_pos_bound (nb + 15) 16 ltac:(done)). lia.
Qed.

(** The first call makes [base] the only block of the list. *)
Lemma malloc_init h F L : heap_inv h F L -> exists h', heap_ok h' F L /\ brk h' = brk h /\
  (forall x b, x ∈ L -> x.1 <= b < bend x -> ld8 (hmem h') b = ld8 (hmem h) b) /\
  (forall n (Q : unit -> heap -> Prop), Q tt h' ->
     wp (f ← gets freep; when (f =? 0) (set_ptr base base;; modify (set_freep base);; set_size base 0)) n h Q).
Proof.
  pose proof base_pos as Hb. intros [Hh|(Hf & -> & -> & Hbr)].
  - exists h. split_and!; [done..|]. intros n Q HQ. apply wp_bind, wp_gets.
    pose proof (ho_freep _ _ _ Hh) as Hf. apply list_elem_of_fmap in Hf as (z & Ez & [j Hj]%list_elem_of_lookup).
    pose proof (heap_ok_addr _ _ _ _ _ Hh Hj). rw (proj2 (Z.eqb_neq _ _)); [|lia]. by apply wp_ret.
  - exists (Heap (st32 (st64 (hmem h) base base) (base + 8) 0) base (brk h)). split_and!; [|done|by intros ? ? ?%elem_of_nil|].
    + split; try done; [|by left|constructor]. simpl. split_and!; [|by rw ld32_st32_eq|done].
      rw ldn_stn_ne; [|lia]. rw ld64_st64_eq u64_small //. lia.
    + intros n Q HQ. apply wp_bind, wp_gets. rw Hf. apply wp_bind, wp_modify, wp_bind, wp_modify, wp_modify. exact HQ.
Qed.

Lemma malloc_wp h F L nb n : heap_inv h F L -> 0 <= nb <= MAXREQ -> (2 * length F + 4 < n)%nat ->
  wp (malloc nb) n h (fun r h' =>
    r = 0 /\ heap_ok h' F L /\ brk h' = brk h \/
    exists F' g, heap_ok h' F' ((r - 16, units_for nb) :: L) /\ units F' + units_for nb = units F + g /\ brk h' = brk h + 16 * g /\
      forall x b, x ∈ L -> x.1 <= b < bend x -> ld8 (hmem h') b = ld8 (hmem h) b).
Proof.
  intros Hi Hnb Hn. destruct (units_for_range nb Hnb) as [Hu _].
  destruct (malloc_init h F L Hi) as (h1 & Hh1 & Hb1 & Hlive1 & Hrun).
  rw /malloc. replace (u32 ((nb + HDR - 1) / HDR + 1)) with (units_for nb); last first.
  { rw /HDR /units_for. replace (nb + 16 - 1) with (nb + 15) by lia. symmetry. apply u32_small. rw /units_for in Hu. lia. }
  pose proof (Hrun n (fun _ h' => h' = h1) eq_refl) as Hw.
  apply wp_bind_inv in Hw. apply wp_bind. eapply wp_mono; [exact Hw|]. intros f hf Hw'. apply wp_bind.
  eapply wp_mono; [exact Hw'|]. intros [] h2 ->. apply wp_bind, wp_gets, wp_bind, wp_gets.
  eapply wp_mono; [by apply (malloc_loop_wp (units_for nb) h1 F L n)|].
  intros r h' [[-> ->]|(F' & g & Hok & Hun & Hbr & Hlive)]; [by left|right].
  exists F', g. split_and!; [done|done|congruence|]. intros x b Hx Hb. by rw (Hlive x) // (Hlive1 x).
Qed.

(** ** Programs using the heap *)

(** The live blocks may be listed in any order. *)
Lemma heap_ok_perm h F L L' : L ≡ₚ L' -> heap_ok h F L -> heap_ok h F L'.
Proof.
  intros Hp [Hs Hf Hso Hb Ha Hl Hbr]. split; try done; [by rw -Hp| |by rw -Hp].
  eapply pairwise_perm; [|exact Ha]. by rw Hp.
Qed.
Lemma units_perm L L' : L ≡ₚ L' -> units L = units L'.
Proof. induction 1 as [|x l l' _ IH|x y l|l1 l2 l3 _ IH1 _ IH2]; rw ?units_cons; lia. Qed.

(** A program allocates, frees live blocks and writes inside them. *)
Inductive hstep (n : nat) : heap * list block -> heap * list block -> Prop :=
| hs_malloc h L nb r h' : 0 <= nb <= MAXREQ -> malloc nb n h = Ok r h' ->
    hstep n (h, L) (h', if r =? 0 then L else (r - 16, units_for nb) :: L)
| hs_free h L1 x L2 h' : free (x.1 + 16) n h = Ok tt h' -> hstep n (h, L1 ++ x :: L2) (h', L1 ++ L2)
| hs_write h L x b v : x ∈ L -> x.1 + 16 <= b < bend x ->
    hstep n (h, L) (set_hmem (st8 (hmem h) b v) h, L).

Lemma heap_ok_write h F L x b v : heap_ok h F L -> x ∈ L -> x.1 + 16 <= b < bend x ->
  heap_ok (set_hmem (st8 (hmem h) b v) h) F L.
Proof.
  intros Hh Hx Hb. pose proof Hh as [Hs Hf Hso Hbl Ha Hl Hbr]. apply (heap_ok_mem h); try done; [|lia|].
  - eapply seg_ext; [|exact Hs]. intros y c [i Hy]%list_elem_of_lookup Hc. rw ld8_st8_ne //.
    destruct (header_off h F L i y x Hh Hy Hx); lia.
  - intros y Hy. rw Forall_forall in Hl. rw -(Hl y Hy). apply ldn_ext. intros c Hc. apply ld8_st8_ne. intros ->.
    destruct (heap_ok_live _ _ _ y Hh Hy) as (_ & Hy2 & _). apply pairwise_app in Ha as (_ & Ha & _).
    apply list_elem_of_lookup in Hx as [i Hi]. apply list_elem_of_lookup in Hy as [j Hj].
    assert (forall l i j (x y : block), pairwise l -> l !! i = Some x -> l !! j = Some y -> i <> j -> apart x y) as Hpw.
    { clear. induction l as [|z l IH]; [done|]. intros [|i] [|j] x y [H1 H2] Hx Hy Hne; simplify_eq/=; try done.
      - rw Forall_lookup in H1. by eapply H1.
      - rw Forall_lookup in H1. apply apart_sym. by eapply H1.
      - eapply IH; [done..|congruence]. }
    destruct (decide (i = j)) as [->|Hne]; [simplify_eq; lia|].
    destruct (Hpw L i j x y Ha Hi Hj Hne); rw /bend in H Hb; lia.
Qed.

(** The state of every program: the invariant, and each unit obtained from
    [sbrk] in exactly one block. *)
Definition heap_state (brk0 : Z) (c : heap * list block) : Prop :=
  exists F, heap_inv c.1 F c.2 /\ 16 * (units F + units c.2) = brk c.1 - brk0 /\ base + 16 <= brk0.

Lemma heap_inv_fuel h F L brk0 : heap_inv h F L -> 16 * (units F + units L) = brk h - brk0 -> base + 16 <= brk0 ->
  Z.of_nat (length F) < 2 ^ 27.
Proof.
  pose proof base_pos. intros Hi Hu Hb0.
  assert (forall l, Forall (block_ok h) l -> Z.of_nat (length l) <= units l) as Hlu.
  { induction 1 as [|x l (_ & Hx & _) _ IH]; [done|]. rw units_cons. simpl. lia. }
  destruct Hi as [Hh|(_ & -> & _ & _)]; [|done]. pose proof (ho_blocks _ _ _ Hh) as Hb. apply Forall_app in Hb as [HF HL].
  pose proof (Hlu F HF). pose proof (Hlu L HL). pose proof (ho_brk _ _ _ Hh). lia.
Qed.

Lemma heap_state_step n brk0 c c' : 2 ^ 28 + 4 < Z.of_nat n -> heap_state brk0 c -> hstep n c c' -> heap_state brk0 c'.
Proof.
  intros Hn (F & Hi & Hu & Hb0) Hst. inversion Hst as [h L nb r h' Hnb Hrun|h L1 x L2 h' Hrun|h L x b v Hx Hb]; subst; simpl in *.
  - pose proof (heap_inv_fuel _ _ _ _ Hi Hu Hb0) as Hf. pose proof (malloc_wp h F L nb n Hi Hnb ltac:(lia)) as Hw.
    rw /wp Hrun in Hw. destruct Hw as [(-> & Hok & Hbr)|(F' & g & Hok & Hun & Hbr & _)].
    + exists F. simpl. split; [by left|]. lia.
    + assert (r <> 0) as Hr.
      { intros ->. destruct (heap_ok_live _ _ _ (0 - 16, units_for nb) Hok ltac:(by left)) as (? & _ & _).
        pose proof base_pos. simpl in H. lia. }
      rw (proj2 (Z.eqb_neq _ _) Hr). exists F'. cbn [fst snd]. split; [by left|]. rw units_cons. cbn [snd]. lia.
  - pose proof (heap_inv_fuel _ _ _ _ Hi Hu Hb0) as Hf. destruct Hi as [Hh|(_ & _ & E & _)]; [|by destruct L1].
    apply (heap_ok_perm _ _ _ (x :: L1 ++ L2)) in Hh; [|symmetry; apply Permutation_middle]. destruct x as [bp sz].
    pose proof (free_wp h F bp sz (L1 ++ L2) n Hh ltac:(lia)) as Hw. rw /wp Hrun in Hw.
    destruct Hw as (F' & Hok & Hun & Hbr & _). exists F'. split; [by left|]. simpl.
    rw (units_perm (L1 ++ (bp, sz) :: L2) ((bp, sz) :: L1 ++ L2)) in Hu; [|symmetry; apply Permutation_middle].
    rw units_cons /= in Hu. rw Hun Hbr. lia.
  - exists F. split; [|done]. destruct Hi as [Hh|(_ & _ & -> & _)]; [|by apply elem_of_nil in Hx].
    left. by eapply heap_ok_write.
Qed.

(** ** Main properties *)

(** C36: [malloc] is correct and terminates.  On a heap whose free blocks are a
    circular list in address order, coalesced and disjoint from the live
    blocks, a request for at most 2^31 - 64 bytes returns 0 and changes no
    block, or a new live block with room for the request, disjoint from all
    others; the free list stays in order, no unit is lost and no byte of
    another live block changes. *)
Theorem malloc_allocates h F L nb n : heap_inv h F L -> 0 <= nb <= MAXREQ -> (2 * length F + 4 < n)%nat ->
  wp (malloc nb) n h (fun r h' =>
    r = 0 /\ heap_ok h' F L /\ brk h' = brk h \/
    exists F' g, heap_ok h' F' ((r - 16, units_for nb) :: L) /\ nb <= 16 * (units_for nb - 1) /\
      units F' + units_for nb = units F + g /\ brk h' = brk h + 16 * g /\
      forall x b, x ∈ L -> x.1 <= b < bend x -> ld8 (hmem h') b = ld8 (hmem h) b).
Proof.
  intros Hi Hnb Hn. eapply wp_mono; [by apply malloc_wp|].
  intros r h' [H|(F' & g & H1 & H2 & H3 & H4)]; [by left|right]. exists F', g. split_and!; try done. by apply units_for_range.
Qed.

(** [free] is correct and terminates.  A live block given back becomes part
    of a free block, joined with its neighbours where they touch; the free list
    stays in address order and coalesced, no unit is lost and no byte of
    another live block changes. *)
Theorem free_releases h F bp sz L n : heap_ok h F ((bp, sz) :: L) -> (length F + 2 < n)%nat ->
  wp (free (bp + 16)) n h (fun _ h' => exists F', heap_ok h' F' L /\ units F' = units F + sz /\ brk h' = brk h /\
    (exists x, x ∈ F' /\ x.1 <= bp /\ bp + 16 * sz <= bend x) /\
    forall x b, x ∈ L -> x.1 <= b < bend x -> ld8 (hmem h') b = ld8 (hmem h) b).
Proof.
  intros Hh Hn. eapply wp_mono; [by apply free_wp|]. intros [] h' (F' & H1 & H2 & H3 & _ & H5 & H6). eauto 10.
Qed.

(** C35: a program that only frees what it holds and writes inside its blocks
    never corrupts the heap: in every reachable state the live blocks are
    disjoint from each other and from the free list, which is intact, every
    unit obtained from [sbrk] is in exactly one block, and every further
    [malloc], and [free] of a live block, returns. *)
Theorem heap_never_corrupted n h0 h L : 2 ^ 28 + 4 < Z.of_nat n -> freep h0 = 0 -> base + 16 <= brk h0 <= 2 ^ 31 ->
  rtc (hstep n) (h0, []) (h, L) ->
  exists F, heap_inv h F L /\ 16 * (units F + units L) = brk h - brk h0 /\
    (forall nb, 0 <= nb <= MAXREQ -> exists r h', malloc nb n h = Ok r h') /\
    (forall x, x ∈ L -> exists h', free (x.1 + 16) n h = Ok tt h').
Proof.
  intros Hn Hf Hb Hr. assert (heap_state (brk h0) (h, L)) as (F & Hi & Hu & Hb0).
  { apply (rtc_ind_r (R := hstep n) (heap_state (brk h0)) (h0, [])); [|by intros; eapply heap_state_step|exact Hr].
    exists []. split; [by right|]. simpl. split; [lia|lia]. }
  simpl in Hi, Hu. pose proof (heap_inv_fuel _ _ _ _ Hi Hu Hb0) as Hlen. exists F. split_and!; [done|done| |].
  - intros nb Hnb. pose proof (malloc_wp h F L nb n Hi Hnb ltac:(lia)) as Hw. apply wp_run in Hw as (r & h' & Hrun & _). eauto.
  - intros [bp sz] Hx. destruct Hi as [Hh|(_ & _ & -> & _)]; [|by apply elem_of_nil in Hx].
    apply list_elem_of_split in Hx as (L1 & L2 & ->).
    apply (heap_ok_perm _ _ _ ((bp, sz) :: L1 ++ L2)) in Hh; [|symmetry; apply Permutation_middle].
    pose proof (free_wp h F bp sz _ n Hh ltac:(lia)) as Hw. apply wp_run in Hw as ([] & h' & Hrun & _). eauto.
Qed.

End heap.

(** ** The theorems on a concrete heap *)

(** [base] at 4096, and a kernel that grants memory up to 2^31. *)
Definition grant (k : Z) : K heap Z := fun _ h =>
  if brk h + k <=? 2 ^ 31 then Ok (brk h) (Heap (hmem h) (freep h) (brk h + k)) else Ok (-1) h.
#[local] Instance demo_env : Heapenv := {| base := 4096; sbrk := grant |}.
#[local] Instance demo_env_ok : HeapenvOk.
Proof.
  split; [done|]. intros k N h Hk. rw /wp /sbrk /= /grant. destruct (Z.leb_spec (brk h + k) (2 ^ 31)); [right|by left].
  split_and!; [done|done|done|simpl; lia|done].
Qed.

Definition heap0 : heap := Heap ∅ 0 65536.
(** One block of 4096 units, live. *)
Definition heap1 : heap :=
  Heap (st32 (st32 (st64 ∅ 4096 4096) 4104 0) 65544 4096) 4096 131072.
Lemma heap1_ok : heap_ok heap1 [] [(65536, 4096)].
Proof.
  split; [by vm_compute|by left|constructor|by repeat constructor|by repeat constructor|by repeat constructor|done].
Qed.

Lemma malloc_allocates_witness :
  wp (malloc 100) 10 heap0 (fun r h' => r = 0 \/ exists F', heap_ok h' F' [(r - 16, 8)]).
Proof.
  eapply wp_mono; [apply (malloc_allocates heap0 [] [] 100 10)|].
  - right. split_and!; reflexivity || done.
  - done.
  - simpl. lia.
  - intros r h' [[E _]|(F' & g & Hok & _)]; [left; exact E|right; exists F'; exact Hok].
Defined.


Lemma heap_never_corrupted_witness :
  exists F, heap_inv heap0 F [] /\ 16 * (units F + 0) = brk heap0 - brk heap0 /\
    (forall nb, 0 <= nb <= MAXREQ -> exists r h', malloc nb (Z.to_nat (2 ^ 29)) heap0 = Ok r h') /\
    (forall x, x ∈ ([] : list block) -> exists h', free (x.1 + 16) (Z.to_nat (2 ^ 29)) heap0 = Ok tt h').
Proof.
  apply (heap_never_corrupted (Z.to_nat (2 ^ 29)) heap0 heap0 []).
  - rw Z2Nat.id; lia.
  - reflexivity.
  - done.
  - apply rtc_refl.
Defined.

(** A request of 2^32 - 1 bytes extends the heap by 16 bytes, since [sbrk] takes
    an [int], and returns a block that ends far above it. *)
Lemma malloc_huge_overruns :
  match malloc (2 ^ 32 - 1) 10%nat heap0 with
  | Ok r h' => brk h' = brk heap0 + 16 /\ r = 65552 /\ ld32 (hmem h') (r - 8) = 2 ^ 28 + 1
  | _ => False
  end.
Proof. by vm_compute. Qed.
