(* ===== verification/Cmds.v ===== *)
(** * The small user programs

    [cat.c], [wc.c], [echo.c], [ls.c], [ln.c], [rm.c], [mkdir.c], [kill.c],
    [init.c] and [zombie.c], over the system calls of [Usys].  [argv] is the
    list of the argument strings, without their NULs; [argv[0]] is its head. *)

From Stdlib Require Import Ascii.
From S2P Require Import Prelude Mem KString Spinlock Machine Printf KState FsFmt Ulib.
Import Ulib.

Section cmds.
Context {S : Type} {sys : Usys S}.

(** A string argument of [printf]. *)
Definition arg_str (s : list Z) : arg := AStr (Some (s ++ [0])).

(** A string function that ran off its array. *)
Definition str {A} (r : option A) : K S A := match r with Some x => mret x | None => undef end.

(** ** [cat.c] *)

Definition cat (fd : Z) : K S unit :=
  n ← loop (fun _ : unit =>
    '(n, bs) ← sys_read fd 512;
    if negb (0 <? n) then mret (inr n) else
    w ← sys_write 1 bs;
    if negb (w =? n) then fprintf 2 ("cat: write error" ++ nl) [];; exit 1
    else mret (inl tt)) tt;
  if n <? 0 then fprintf 2 ("cat: read error" ++ nl) [];; exit 1 else mret tt.

Definition cat_main (argv : list (list Z)) : K S unit :=
  match tail argv with
  | [] => cat 0;; exit 0
  | files =>
    for_each files (fun f =>
      fd ← sys_open f 0;
      if fd <? 0 then fprintf 2 ("cat: cannot open %s" ++ nl) [arg_str f];; exit 1 else
      cat fd;; _ ← sys_close fd; mret tt);;
    exit 0
  end.

(** ** [wc.c] *)

(** [strchr(" \r\t\n\v", c)] *)
Definition blanks : list Z := [32; 13; 9; 10; 11; 0].
Definition wc_byte (st : Z * Z * Z * bool) (b : Z) : K S (Z * Z * Z * bool) :=
  let '(l, w, c, inword) := st in
  let c := i32 (c + 1) in
  let l := if b =? 10 then i32 (l + 1) else l in
  match strchr blanks b with
  | None => undef
  | Some (Some _) => mret (l, w, c, false)
  | Some None => if negb inword then mret (l, i32 (w + 1), c, true) else mret (l, w, c, inword)
  end.

Definition wc (fd : Z) (name : list Z) : K S unit :=
  '(n, st) ← loop (fun st =>
    '(n, bs) ← sys_read fd 512;
    if negb (0 <? n) then mret (inr (n, st)) else
    st ← for_fold bs st wc_byte;
    mret (inl st)) (0, 0, 0, false);
  if n <? 0 then printf ("wc: read error" ++ nl) [];; exit 1 else
  let '(l, w, c, _) := st in
  printf ("%d %d %d %s" ++ nl) [AInt l; AInt w; AInt c; arg_str name].

Definition wc_main (argv : list (list Z)) : K S unit :=
  match tail argv with
  | [] => wc 0 [];; exit 0
  | files =>
    for_each files (fun f =>
      fd ← sys_open f 0;
      if fd <? 0 then printf ("wc: cannot open %s" ++ nl) [arg_str f];; exit 1 else
      wc fd f;; _ ← sys_close fd; mret tt);;
    exit 0
  end.

(** ** [echo.c] *)

Fixpoint echo_args (args : list (list Z)) : K S unit :=
  match args with
  | [] => mret tt
  | a :: rest =>
    _ ← sys_write 1 a;
    _ ← sys_write 1 (match rest with [] => [10] | _ => [32] end);
    echo_args rest
  end.
Definition echo_main (argv : list (list Z)) : K S unit := echo_args (tail argv);; exit 0.

(** ** [ln.c], [rm.c], [mkdir.c], [kill.c] *)

Definition ln_main (argv : list (list Z)) : K S unit :=
  match argv with
  | [_; old; new] =>
    r ← sys_link old new;
    when (r <? 0) (fprintf 2 ("link %s %s: failed" ++ nl) [arg_str old; arg_str new]);;
    exit 0
  | _ => fprintf 2 ("Usage: ln old new" ++ nl) [];; exit 1
  end.

(** Apply [f] to the arguments until it fails. *)
Definition each_file (files : list (list Z)) (f : list Z -> K S Z) (msg : string) : K S unit :=
  _ ← for_exit files (fun x =>
    r ← f x;
    if r <? 0 then fprintf 2 msg [arg_str x];; mret (Some tt) else mret None);
  mret tt.
Definition rm_main (argv : list (list Z)) : K S unit :=
  match tail argv with
  | [] => fprintf 2 ("Usage: rm files..." ++ nl) [];; exit 1
  | files => each_file files sys_unlink ("rm: %s failed to delete" ++ nl);; exit 0
  end.
Definition mkdir_main (argv : list (list Z)) : K S unit :=
  match tail argv with
  | [] => fprintf 2 ("Usage: mkdir files..." ++ nl) [];; exit 1
  | files => each_file files sys_mkdir ("mkdir: %s failed to create" ++ nl);; exit 0
  end.
Definition kill_main (argv : list (list Z)) : K S unit :=
  match tail argv with
  | [] => fprintf 2 ("usage: kill pid..." ++ nl) [];; exit 1
  | pids =>
    for_each pids (fun a => pid ← str (atoi (a ++ [0])); _ ← sys_kill pid; mret tt);;
    exit 0
  end.

(** ** [init.c], [zombie.c] *)

Definition CONSOLE_DEV : Z := 1.
Definition sh_argv : list (list Z) := [bytes_of_string "sh"].

(** The wait of [init] for the shell [pid]. *)
Definition init_wait (pid : Z) : K S unit :=
  loop (fun _ : unit =>
    wpid ← sys_wait;
    if wpid =? pid then mret (inr tt) else
    if wpid <? 0 then printf ("init: wait returned an error" ++ nl) [];; exit 1
    else mret (inl tt)) tt.
Definition init_main : K S unit :=
  fd ← sys_open (bytes_of_string "console") O_RDWR;
  when (fd <? 0) (_ ← sys_mknod (bytes_of_string "console") CONSOLE_DEV 0;
                  _ ← sys_open (bytes_of_string "console") O_RDWR; mret tt);;
  _ ← sys_dup 0; _ ← sys_dup 0;
  loop (fun _ : unit =>
    printf ("init: starting sh" ++ nl) [];;
    pid ← sys_fork;
    if pid <? 0 then printf ("init: fork failed" ++ nl) [];; exit 1 else
    if pid =? 0 then
      _ ← sys_exec (bytes_of_string "sh") sh_argv;
      printf ("init: exec sh failed" ++ nl) [];; exit 1
    else init_wait pid;; mret (inl tt)) tt.

Definition zombie_main : K S unit :=
  pid ← sys_fork;
  when (0 <? pid) (_ ← sys_sleep 5; mret tt);;
  exit 0.

(** ** [ls.c] *)

(** What follows the last slash. *)
Fixpoint after_slash (path : list Z) : list Z :=
  match path with
  | [] => []
  | c :: path' => if existsb (Z.eqb (chr "/")) path then after_slash path' else path
  end.
(** The name padded with blanks, in the static buffer of [DIRSIZ] + 1. *)
Definition fmtname (path : list Z) : list Z :=
  let p := after_slash path in
  if DIRSIZ <=? Z.of_nat (length p) then p
  else p ++ replicate (Z.to_nat DIRSIZ - length p) 32.

Definition ls_entry (path bs : list Z) : K S unit :=
  let de := get_dirent bs in
  if de_inum de =? 0 then mret tt else
  name ← str (cstr (de_name de ++ [0]));
  let buf := path ++ [chr "/"] ++ name in
  '(r, st) ← stat buf;
  match (if r <? 0 then None else st) with
  | None => printf ("ls: cannot stat %s" ++ nl) [arg_str buf]
  | Some st =>
    printf ("%s %d %d %d" ++ nl) [arg_str (fmtname buf); AInt (st_type st); AInt (st_ino st); AInt (st_size st)]
  end.

Definition ls (path : list Z) : K S unit :=
  fd ← sys_open path 0;
  if fd <? 0 then fprintf 2 ("ls: cannot open %s" ++ nl) [arg_str path] else
  '(r, st) ← sys_fstat fd;
  if r <? 0 then fprintf 2 ("ls: cannot stat %s" ++ nl) [arg_str path];; _ ← sys_close fd; mret tt else
  (if st_type st =? T_FILE then
     printf ("%s %d %d %l" ++ nl) [arg_str (fmtname path); AInt (st_type st); AInt (st_ino st); APtr (st_size st)]
   else if st_type st =? T_DIR then
     if 512 <? Z.of_nat (length path) + 1 + DIRSIZ + 1 then printf ("ls: path too long" ++ nl) [] else
     loop (fun _ : unit =>
       '(n, bs) ← sys_read fd 16;
       if negb (n =? 16) then mret (inr tt) else
       ls_entry path bs;; mret (inl tt)) tt
   else mret tt);;
  _ ← sys_close fd; mret tt.
Definition ls_main (argv : list (list Z)) : K S unit :=
  match tail argv with
  | [] => ls (bytes_of_string ".");; exit 0
  | paths => for_each paths ls;; exit 0
  end.

End cmds.
