(* ===== verification/CmdsSpec.v ===== *)
(** * Main properties of the small user programs

    [cat] copies its input and [wc] counts it, however the reads cut it up. *)

From Stdlib Require Import Ascii.
From S2P Require Import Prelude Mem KString Spinlock Machine Printf KState FsFmt Ulib UlibSpec Cmds.

(** ** Words *)

Definition is_blank (c : Z) : bool := bool_decide (c ∈ [32; 13; 9; 10; 11]).

(** The words of a text: the maximal runs of characters that are not blank. *)
Fixpoint split_words (l : list Z) : list Z * list (list Z) :=
  match l with
  | [] => ([], [])
  | c :: l' =>
    let '(w, ws) := split_words l' in
    if is_blank c then ([], if w is [] then ws else w :: ws) else (c :: w, ws)
  end.
Definition words (l : list Z) : list (list Z) :=
  let '(w, ws) := split_words l in if w is [] then ws else w :: ws.
Definition newlines (l : list Z) : list Z := filter (fun c => c = 10) l.

(** Words that begin in [l] when the text before ended inside a word or not. *)
Definition starts (inword : bool) (l : list Z) : Z :=
  Z.of_nat (length (words l)) -
  (if inword && (if head l is Some c then negb (is_blank c) else false) then 1 else 0).
Lemma words_cons c l : Z.of_nat (length (words (c :: l))) =
  if is_blank c then Z.of_nat (length (words l)) else 1 + starts true l.
Proof.
  rw /starts /words /=. destruct l as [|d l]; simpl.
  - destruct (is_blank c); done.
  - destruct (split_words l) as [w ws]. destruct (is_blank d) eqn:Ed, (is_blank c); simpl; try done; destruct w; simpl; lia.
Qed.
Lemma starts_cons b c l : starts b (c :: l) =
  if is_blank c then starts false l else (if b then 0 else 1) + starts true l.
Proof.
  rw {1}/starts words_cons /=. destruct (is_blank c), b; rw /starts /=; try lia.
Qed.
Lemma starts_app b l l' : starts b (l ++ l') =
  starts b l + starts (match last l with Some c => negb (is_blank c) | None => b end) l'.
Proof.
  revert b. induction l as [|c l IH]; intros b; [by destruct b; rw Z.add_comm Z.add_0_r|].
  rw /= !starts_cons. destruct (is_blank c) eqn:Ec; rw IH last_cons; destruct (last l); rw ?Ec /=; lia.
Qed.

(** What [strchr] finds among the blanks. *)
Lemma blank_strchr c : exists k, Ulib.strchr blanks c = Some (if is_blank c then Some k else None).
Proof.
  rw /blanks /is_blank. cbn [Ulib.strchr]. change (32 =? 0) with false. change (13 =? 0) with false. change (9 =? 0) with false.
  change (10 =? 0) with false. change (11 =? 0) with false. change (0 =? 0) with true. cbv iota.
  destruct (Z.eqb_spec 32 c) as [<-|]; [by eexists|]. destruct (Z.eqb_spec 13 c) as [<-|]; [by eexists|].
  destruct (Z.eqb_spec 9 c) as [<-|]; [by eexists|]. destruct (Z.eqb_spec 10 c) as [<-|]; [by eexists|].
  destruct (Z.eqb_spec 11 c) as [<-|]; [by eexists|]. exists O. simpl.
  rw bool_decide_false //. intros H. repeat (apply elem_of_cons in H as [->|H]; [done|]). by apply elem_of_nil in H.
Qed.

Section cmds.
Context {S : Type} {sys : Usys S} {ok : StreamOk S}.
Implicit Types (s : S).

(** ** [cat] *)

Lemma cat_wp fd n s : (length (input fd s) < n)%nat ->
  wp (cat fd) n s (fun _ s' => input fd s' = [] /\ exists ws, output s' = output s ++ ws /\
    Forall (fun w => w.1 = 1) ws /\ concat ws.*2 = input fd s).
Proof.
  intros Hn. apply wp_bind. apply (wp_loop (fun _ s1 => exists ws, output s1 = output s ++ ws /\
    Forall (fun w => w.1 = 1) ws /\ concat ws.*2 ++ input fd s1 = input fd s) (fun _ s1 => length (input fd s1))).
  { exists []. by rw app_nil_r. }
  { done. }
  intros [] s1 (ws & Ho & Hf & Hc). apply wp_bind. eapply wp_mono; [by apply sys_read_wp|].
  intros r s2 (l & -> & Hl & Hin & Hempty & Ho2). cbn beta iota. destruct (Z.ltb_spec 0 (Z.of_nat (length l))) as [Hpos|Hz]; cbn [negb].
  - apply wp_bind. eapply wp_mono; [apply sys_write_wp|]. intros w s3 (-> & Ho3 & Hi3). rw Z.eqb_refl. cbn [negb]. apply wp_ret.
    split; [|rw Hi3 Hin length_app; lia]. exists (ws ++ [(1, l)]). split_and!.
    + by rw Ho3 Ho2 Ho app_assoc.
    + apply Forall_app. split; [done|by constructor].
    + rw fmap_app concat_app /= app_nil_r Hi3 -Hc Hin app_assoc //.
  - destruct l as [|? ?]; [|simpl in Hz; lia]. apply wp_ret. destruct (Hempty eq_refl) as [|Hnil]; [done|].
    simpl in Hin. change (Z.of_nat (length []) <? 0) with false. cbv iota. apply wp_ret. split; [congruence|]. exists ws. split_and!; [congruence|done|].
    by rw -Hc Hnil app_nil_r.
Qed.

(** ** [wc] *)

(** The state of the count after a text. *)
Definition counted (l : list Z) : Z * Z * Z * bool :=
  (Z.of_nat (length (newlines l)), starts false l, Z.of_nat (length l),
   match last l with Some c => negb (is_blank c) | None => false end).

Lemma starts_range l : 0 <= starts false l <= Z.of_nat (length l).
Proof.
  assert (forall b, 0 <= starts b l <= Z.of_nat (length l)) as H; [|done].
  induction l as [|c l IH]; intros b; [by destruct b|]. rw starts_cons /=. pose proof (IH false). pose proof (IH true).
  destruct (is_blank c), b; lia.
Qed.
Lemma newlines_range l : Z.of_nat (length (newlines l)) <= Z.of_nat (length l).
Proof. rw /newlines. pose proof (length_filter (fun c => c = 10) l). lia. Qed.

Lemma wc_byte_run l b n s : Z.of_nat (length l) < 2 ^ 31 - 1 -> wc_byte (counted l) b n s = Ok (counted (l ++ [b])) s.
Proof.
  intros Hl. rw /wc_byte /counted. pose proof (starts_range l). pose proof (newlines_range l).
  destruct (blank_strchr b) as [k ->].
  assert (newlines (l ++ [b]) = newlines l ++ (if b =? 10 then [b] else [])) as ->.
  { rw /newlines filter_app. f_equal. rw filter_cons filter_nil. destruct (Z.eqb_spec b 10); [by rw decide_True|by rw decide_False]. }
  rw starts_app starts_cons last_snoc !length_app. cbn [length].
  assert (i32 (Z.of_nat (length l) + 1) = Z.of_nat (length l + 1)) as -> by (rw i32_small; lia).
  assert ((if b =? 10 then i32 (Z.of_nat (length (newlines l)) + 1) else Z.of_nat (length (newlines l))) =
    Z.of_nat (length (newlines l) + length (if b =? 10 then [b] else []))) as ->.
  { destruct (b =? 10); cbn [length]; [rw i32_small; lia|lia]. }
  assert (starts false [] = 0 /\ starts true [] = 0) as [E1 E2] by done.
  destruct (is_blank b) eqn:Eb; rw ?E1 ?E2; cbn [negb].
  - by rw Z.add_0_r.
  - destruct (match last l with Some c => negb (is_blank c) | None => false end) eqn:El; cbn [negb].
    + by rw !Z.add_0_r.
    + rw i32_small; [|lia]. by rw Z.add_0_r.
Qed.
Lemma wc_bytes_run bs l n s : Z.of_nat (length (l ++ bs)) < 2 ^ 31 -> for_fold bs (counted l) wc_byte n s = Ok (counted (l ++ bs)) s.
Proof.
  revert l. induction bs as [|b bs IH]; intros l Hl; cbn [for_fold]; [by rw app_nil_r|]. rw length_app /= in Hl.
  rw /mbind /K_bind wc_byte_run; [|lia].
  cbn [bindr]. rw IH; [by rw -app_assoc|]. rw !length_app /=. lia.
Qed.

Lemma starts_words l : starts false l = Z.of_nat (length (words l)).
Proof. rw /starts /=. lia. Qed.

(** The line [wc] prints. *)
Lemma wc_line l w c name : 0 <= l < 2 ^ 31 -> 0 <= w < 2 ^ 31 -> 0 <= c < 2 ^ 31 -> Forall (fun c => 0 < c < 256) name ->
  fmt_text false (cstring ("%d %d %d %s" ++ nl)) [AInt l; AInt w; AInt c; arg_str name] =
  Some (int_text 10 true l ++ [32] ++ int_text 10 true w ++ [32] ++ int_text 10 true c ++ [32] ++ name ++ [10]).
Proof.
  intros Hl Hw Hc Hn. change (cstring ("%d %d %d %s" ++ nl)) with [37; 100; 32; 37; 100; 32; 37; 100; 32; 37; 115; 10; 0].
  cbv -[int_text signed_text i32 u8 cstr app fmap list_fmap Z.lt Z.le]. rw !signed_text_small; [|lia..].
  rw cstr_app_nul; [|eapply Forall_impl; [exact Hn|]; simpl; lia].
  trans (Some (int_text 10 true l ++ [32] ++ int_text 10 true w ++ [32] ++ int_text 10 true c ++ [32] ++
    map u8 name ++ [10])); [done|].
  assert (map u8 name = name) as ->; [|done].
  induction Hn as [|x name Hx Hn IH]; [done|]. rw /= IH u8_small //. lia.
Qed.

(** ** Main properties *)

(** [cat] copies its input: it reads the descriptor to its end and what it
    writes to the standard output, in pieces, is the input, byte for byte and in
    order. *)
Theorem cat_copies fd n s : (length (input fd s) < n)%nat ->
  wp (cat fd) n s (fun _ s' => input fd s' = [] /\ exists ws, output s' = output s ++ ws /\
    Forall (fun w => w.1 = 1) ws /\ concat ws.*2 = input fd s).
Proof. apply cat_wp. Qed.

(** [wc] is exact: however the reads cut its input, shorter than 2^31 bytes,
    it prints the number of newlines, of words (maximal runs of characters that
    are not blank) and of bytes, and the name. *)
Theorem wc_counts fd name n s : (length (input fd s) < n)%nat -> Z.of_nat (length (input fd s)) < 2 ^ 31 ->
  Forall (fun c => 0 < c < 256) name ->
  wp (wc fd name) n s (fun _ s' => input fd s' = [] /\
    output s' = output s ++ chars 1 (int_text 10 true (Z.of_nat (length (newlines (input fd s)))) ++ [32] ++
      int_text 10 true (Z.of_nat (length (words (input fd s)))) ++ [32] ++
      int_text 10 true (Z.of_nat (length (input fd s))) ++ [32] ++ name ++ [10])).
Proof.
  intros Hn Hlim Hname. apply wp_bind. apply (wp_loop (fun st s1 => output s1 = output s /\
    exists l, l ++ input fd s1 = input fd s /\ st = counted l) (fun _ s1 => length (input fd s1))).
  { split; [done|]. exists []. done. }
  { done. }
  intros st s1 (Ho & l & Hc & ->). apply wp_bind. eapply wp_mono; [by apply sys_read_wp|].
  intros r s2 (bs & -> & Hl & Hin & Hempty & Ho2). cbn beta iota. destruct (Z.ltb_spec 0 (Z.of_nat (length bs))) as [Hpos|Hz]; cbn [negb].
  - apply wp_bind. rw /wp wc_bytes_run; [|rw length_app; rw -Hc Hin !length_app in Hlim; lia]. apply wp_ret.
    split; [|rw Hin length_app; lia]. split; [congruence|]. exists (l ++ bs). by rw -app_assoc -Hin.
  - destruct bs as [|? ?]; [|simpl in Hz; lia]. apply wp_ret. destruct (Hempty eq_refl) as [|Hnil]; [done|].
    simpl in Hin. rw Hnil app_nil_r in Hc. subst l. cbn beta iota. change (Z.of_nat (length []) <? 0) with false. cbv iota.
    rw /counted starts_words. cbv iota beta.
    pose proof (newlines_range (input fd s)) as Hnr. pose proof (starts_range (input fd s)) as Hsr. rw starts_words in Hsr.
    eapply wp_mono; [eapply (vprintf_writes 1 false (cstring ("%d %d %d %s" ++ nl))); [|apply wc_line; [lia..|done]]; by repeat constructor|].
    intros [] s3 [Ho3 Hi3]. split; [by rw Hi3 -Hin|]. by rw Ho3 Ho2 Ho.
Qed.

End cmds.

(** ** The theorems on concrete inputs *)

