(* ===== verification/Sh.v ===== *)
(** * [user/sh.c]

    The shell.  Its memory is the static line buffer [buf] of [main] and the
    heap of command structures; a [char *] into the line is its offset, a
    [struct cmd *] the number of its structure, and [None] is the null pointer.
    [sh_room] is the number of structures that [malloc] can still provide: the
    constructors do not test its result, so a null result is written through. *)

From Stdlib Require Import Ascii.
From S2P Require Import Prelude Mem KString Spinlock Machine Printf Ulib.
Import Ulib.

Definition MAXARGS : nat := 10.
Definition ptr := option nat.

(** ** Parsed command representation *)

Inductive cmd :=
| EXEC (argv eargv : list ptr)
| REDIR (c : ptr) (file efile : ptr) (mode fd : Z)
| PIPE (left right : ptr)
| LIST (left right : ptr)
| BACK (c : ptr).

Record shell (S : Type) := Shell { sh_sys : S; sh_buf : list Z; sh_cmds : list cmd; sh_room : nat }.
Arguments Shell {S} _ _ _ _.
Arguments sh_sys {S} _.
Arguments sh_buf {S} _.
Arguments sh_cmds {S} _.
Arguments sh_room {S} _.

#[export] Instance shell_sub (S : Type) : Sub S (shell S) := {|
  sget := sh_sys; sput := fun w s => Shell w (sh_buf s) (sh_cmds s) (sh_room s);
  sget_sput := fun _ _ => eq_refl; sput_sget := fun '(Shell _ _ _ _) => eq_refl; sput_sput := fun _ _ _ => eq_refl
|}.
(** The system calls do not touch the memory of the shell. *)
#[export] Instance shell_sys {S} {sys : Usys S} : Usys (shell S) := {|
  sys_read := fun fd n => lift (sys_read fd n);
  sys_write := fun fd l => lift (sys_write fd l);
  sys_open := fun p m => lift (sys_open p m);
  sys_close := fun fd => lift (sys_close fd);
  sys_fstat := fun fd => lift (sys_fstat fd);
  sys_dup := fun fd => lift (sys_dup fd);
  sys_pipe := lift sys_pipe;
  sys_fork := lift sys_fork;
  sys_wait := lift sys_wait;
  sys_exec := fun p a => lift (sys_exec p a);
  sys_kill := fun p => lift (sys_kill p);
  sys_sleep := fun t => lift (sys_sleep t);
  sys_chdir := fun p => lift (sys_chdir p);
  sys_mknod := fun p a b => lift (sys_mknod p a b);
  sys_link := fun p q => lift (sys_link p q);
  sys_unlink := fun p => lift (sys_unlink p);
  sys_mkdir := fun p => lift (sys_mkdir p);
|}.

Section sh.
Context {S : Type} {sys : Usys S}.
Local Abbreviation M := (K (shell S)).

(** ** Memory *)

(** [*s] *)
Definition deref (s : nat) : M Z :=
  buf ← Prelude.gets sh_buf; match buf !! s with Some c => mret c | None => undef end.
(** [*s = c] *)
Definition store (s : nat) (c : Z) : M unit :=
  buf ← Prelude.gets sh_buf;
  if (s <? length buf)%nat then
    modify (fun st => Shell (sh_sys st) (<[s := c]> (sh_buf st)) (sh_cmds st) (sh_room st))
  else undef.
(** The string at [s], and the same as a string argument of [printf]. *)
Definition ustr (s : nat) : M (list Z) :=
  buf ← Prelude.gets sh_buf; match cstr (drop s buf) with Some t => mret t | None => undef end.
Definition rest_of (s : nat) : M arg := buf ← Prelude.gets sh_buf; mret (AStr (Some (drop s buf))).
(** A string function that ran off its array. *)
Definition found {A} (r : option A) : M A := match r with Some x => mret x | None => undef end.
(** A pointer that must not be null. *)
Definition nonnull (p : ptr) : M nat := match p with Some x => mret x | None => undef end.
Definition getc (p : ptr) : M cmd :=
  i ← nonnull p; h ← Prelude.gets sh_cmds; match h !! i with Some c => mret c | None => undef end.
Definition setc (p : ptr) (c : cmd) : M unit :=
  i ← nonnull p;
  modify (fun st => Shell (sh_sys st) (sh_buf st) (<[i := c]> (sh_cmds st)) (sh_room st)).
(** [malloc(sizeof( *cmd))], [memset] and the assignments of a constructor. *)
Definition alloc (c : cmd) : M ptr :=
  st ← Prelude.gets id;
  match sh_room st with
  | O => undef
  | Datatypes.S r =>
    modify (fun st => Shell (sh_sys st) (sh_buf st) (sh_cmds st ++ [c]) r);;
    mret (Some (length (sh_cmds st)))
  end.

(** ** Errors *)

Definition sh_panic {A} (s : string) : M A :=
  fprintf 2 ("%s" ++ nl) [AStr (Some (cstring s))];; exit 1.
Definition fork1 : M Z :=
  pid ← sys_fork;
  when (pid =? -1) (sh_panic "fork");;
  mret pid.

(** ** Constructors *)

Definition execcmd : M ptr := alloc (EXEC (replicate MAXARGS None) (replicate MAXARGS None)).
Definition redircmd (subcmd : ptr) (file efile : ptr) (mode fd : Z) : M ptr :=
  alloc (REDIR subcmd file efile mode fd).
Definition pipecmd (left right : ptr) : M ptr := alloc (PIPE left right).
Definition listcmd (left right : ptr) : M ptr := alloc (LIST left right).
Definition backcmd (subcmd : ptr) : M ptr := alloc (BACK subcmd).

(** ** Parsing

    [*ps] is a local variable of [parsecmd]: the functions that advance it
    return its new value first. *)

Definition whitespace : list Z := [32; 9; 13; 10; 11; 0].
Definition symbols : list Z := cstring "<|>&;()".

(** [while(s < es && strchr(whitespace, *s)) s++;] where [k = es - s]. *)
Fixpoint skip_ws (k : nat) (s : nat) : M nat :=
  match k with
  | O => mret s
  | Datatypes.S k' =>
    c ← deref s;
    r ← found (strchr whitespace c);
    match r with Some _ => skip_ws k' (s + 1)%nat | None => mret s end
  end.
(** [while(s < es && !strchr(whitespace, *s) && !strchr(symbols, *s)) s++;] *)
Fixpoint skip_word (k : nat) (s : nat) : M nat :=
  match k with
  | O => mret s
  | Datatypes.S k' =>
    c ← deref s;
    r ← found (strchr whitespace c);
    match r with Some _ => mret s | None =>
    r ← found (strchr symbols c);
    match r with Some _ => mret s | None => skip_word k' (s + 1)%nat end end
  end.

(** The [switch( *s)] of [gettoken]: the token and the place after it. *)
Definition gettoken_switch (s es : nat) : M (Z * nat) :=
  c ← deref s;
  if c =? 0 then mret (c, s)
  else if existsb (Z.eqb c) (bytes_of_string "|();&<") then mret (c, s + 1)%nat
  else if c =? chr ">" then
    c' ← deref (s + 1)%nat;
    if c' =? chr ">" then mret (chr "+", s + 2)%nat else mret (c, s + 1)%nat
  else
    s ← skip_word (es - s) s;
    mret (chr "a", s).
(** The new [*ps], the token, [q] and [eq]. *)
Definition gettoken (ps es : nat) : M (nat * (Z * (nat * nat))) :=
  q ← skip_ws (es - ps) ps;
  '(ret, eq) ← gettoken_switch q es;
  s ← skip_ws (es - eq) eq;
  mret (s, (ret, (q, eq))).

Definition peek (ps es : nat) (toks : list Z) : M (nat * bool) :=
  s ← skip_ws (es - ps) ps;
  c ← deref s;
  if c =? 0 then mret (s, false) else
  r ← found (strchr toks c);
  mret (s, match r with Some _ => true | None => false end).

Definition parseredirs (c : ptr) (ps es : nat) : M (nat * ptr) :=
  loop (fun '(ps, c) =>
    '(ps, b) ← peek ps es (cstring "<>");
    if negb b then mret (inr (ps, c)) else
    '(ps, (tok, _)) ← gettoken ps es;
    '(ps, (a, (q, eq))) ← gettoken ps es;
    when (negb (a =? chr "a")) (sh_panic "missing file for redirection");;
    c ← (if tok =? chr "<" then redircmd c (Some q) (Some eq) O_RDONLY 0
         else if tok =? chr ">" then
           redircmd c (Some q) (Some eq) (Z.lor (Z.lor O_WRONLY O_CREATE) O_TRUNC) 1
         else if tok =? chr "+" then redircmd c (Some q) (Some eq) (Z.lor O_WRONLY O_CREATE) 1
         else mret c);
    mret (inl (ps, c))) (ps, c).

(** [cmd->argv[argc] = q; cmd->eargv[argc] = eq;] *)
Definition set_arg (c : ptr) (argc : nat) (q eq : ptr) : M unit :=
  x ← getc c;
  match x with
  | EXEC argv eargv =>
    if (argc <? MAXARGS)%nat then setc c (EXEC (<[argc := q]> argv) (<[argc := eq]> eargv)) else undef
  | _ => undef
  end.

(** [parseline], [parsepipe], [parseexec] and [parseblock] call each other;
    [line] below is [parseline]. *)
Definition parseblock (line : nat -> nat -> M (nat * ptr)) (ps es : nat) : M (nat * ptr) :=
  '(ps, b) ← peek ps es (cstring "(");
  when (negb b) (sh_panic "parseblock");;
  '(ps, _) ← gettoken ps es;
  '(ps, c) ← line ps es;
  '(ps, b) ← peek ps es (cstring ")");
  when (negb b) (sh_panic "syntax - missing )");;
  '(ps, _) ← gettoken ps es;
  parseredirs c ps es.

(** The loop over the arguments: the new [*ps], [ret] and [argc]. *)
Definition parseargs (c : ptr) (ps : nat) (ret : ptr) (es : nat) : M (nat * ptr * nat) :=
  loop (fun '(ps, ret, argc) =>
    '(ps, b) ← peek ps es (cstring "|)&;");
    if b : bool then mret (inr (ps, ret, argc)) else
    '(ps, (tok, (q, eq))) ← gettoken ps es;
    if tok =? 0 then mret (inr (ps, ret, argc)) else
    when (negb (tok =? chr "a")) (sh_panic "syntax");;
    set_arg c argc (Some q) (Some eq);;
    let argc := (argc + 1)%nat in
    when (MAXARGS <=? argc)%nat (sh_panic "too many args");;
    '(ps, ret) ← parseredirs ret ps es;
    mret (inl (ps, ret, argc))) (ps, ret, O).
Definition parseexec (line : nat -> nat -> M (nat * ptr)) (ps es : nat) : M (nat * ptr) :=
  '(ps, b) ← peek ps es (cstring "(");
  if b : bool then parseblock line ps es else
  c ← execcmd;
  '(ps, ret) ← parseredirs c ps es;
  '(ps, ret, argc) ← parseargs c ps ret es;
  set_arg c argc None None;;
  mret (ps, ret).

Fixpoint parsepipe (j : nat) (line : nat -> nat -> M (nat * ptr)) (ps es : nat) : M (nat * ptr) :=
  match j with
  | O => spin
  | Datatypes.S j' =>
    '(ps, c) ← parseexec line ps es;
    '(ps, b) ← peek ps es (cstring "|");
    if negb b then mret (ps, c) else
    '(ps, _) ← gettoken ps es;
    '(ps, r) ← parsepipe j' line ps es;
    c ← pipecmd c r;
    mret (ps, c)
  end.

(** [while(peek(ps, es, "&")){ gettoken(ps, es, 0, 0); cmd = backcmd(cmd); }] *)
Definition parsebacks (ps : nat) (c : ptr) (es : nat) : M (nat * ptr) :=
  loop (fun '(ps, c) =>
    '(ps, b) ← peek ps es (cstring "&");
    if negb b then mret (inr (ps, c)) else
    '(ps, _) ← gettoken ps es;
    c ← backcmd c;
    mret (inl (ps, c))) (ps, c).
Fixpoint parseline (j : nat) (ps es : nat) : M (nat * ptr) :=
  match j with
  | O => spin
  | Datatypes.S j' =>
    '(ps, c) ← parsepipe j (parseline j') ps es;
    '(ps, c) ← parsebacks ps c es;
    '(ps, b) ← peek ps es (cstring ";");
    if negb b then mret (ps, c) else
    '(ps, _) ← gettoken ps es;
    '(ps, r) ← parseline j' ps es;
    c ← listcmd c r;
    mret (ps, c)
  end.

(** NUL-terminate all the counted strings. *)
Definition nulargs (argv eargv : list ptr) : M unit :=
  loop (fun i : nat =>
    match argv !! i with
    | None => undef
    | Some None => mret (inr tt)
    | Some (Some _) =>
      match eargv !! i with
      | Some e => e ← nonnull e; store e 0;; mret (inl (i + 1)%nat)
      | None => undef
      end
    end) O.
Fixpoint nulterminate (j : nat) (c : ptr) : M unit :=
  match j with
  | O => spin
  | Datatypes.S j' =>
    match c with
    | None => mret tt
    | Some _ =>
      x ← getc c;
      match x with
      | EXEC argv eargv => nulargs argv eargv
      | REDIR c1 _ efile _ _ => nulterminate j' c1;; e ← nonnull efile; store e 0
      | PIPE l r => nulterminate j' l;; nulterminate j' r
      | LIST l r => nulterminate j' l;; nulterminate j' r
      | BACK c1 => nulterminate j' c1
      end
    end
  end.

(** The recursions are bounded by the iteration bound of the run. *)
Definition parsecmd (s : nat) : M ptr := fun n st =>
  (buf ← Prelude.gets sh_buf;
   len ← found (strlen (drop s buf));
   let es := (s + Z.to_nat len)%nat in
   '(s, c) ← parseline n s es;
   '(s, _) ← peek s es [0];
   when (negb (s =? es)%nat)
     (a ← rest_of s; fprintf 2 ("leftovers: %s" ++ nl) [a];; sh_panic "syntax");;
   nulterminate n c;;
   mret c) n st.

(** ** Running *)

(** The strings of a null-terminated [argv]. *)
Fixpoint strings (argv : list ptr) : M (list (list Z)) :=
  match argv with
  | [] => undef
  | None :: _ => mret []
  | Some p :: argv' => t ← ustr p; ts ← strings argv'; mret (t :: ts)
  end.

(** Execute [c].  Never returns. *)
Fixpoint runcmd (j : nat) (c : ptr) : M unit :=
  match j with
  | O => spin
  | Datatypes.S j' =>
    match c with
    | None => exit 1
    | Some _ =>
      x ← getc c;
      match x with
      | EXEC argv _ =>
        match argv !! O with
        | None => undef
        | Some None => exit 1
        | Some (Some a0) =>
          path ← ustr a0; args ← strings argv;
          _ ← sys_exec path args;
          a ← rest_of a0;
          fprintf 2 ("exec %s failed" ++ nl) [a]
        end
      | REDIR c1 file _ mode fd =>
        _ ← sys_close fd;
        f ← nonnull file;
        path ← ustr f;
        r ← sys_open path mode;
        when (r <? 0) (a ← rest_of f; fprintf 2 ("open %s failed" ++ nl) [a];; exit 1);;
        runcmd j' c1
      | LIST l r =>
        pid ← fork1;
        when (pid =? 0) (runcmd j' l);;
        _ ← sys_wait;
        runcmd j' r
      | PIPE l r =>
        '(e, (p0, p1)) ← sys_pipe;
        when (e <? 0) (sh_panic "pipe");;
        pid ← fork1;
        when (pid =? 0)
          (_ ← sys_close 1; _ ← sys_dup p1; _ ← sys_close p0; _ ← sys_close p1; runcmd j' l);;
        pid ← fork1;
        when (pid =? 0)
          (_ ← sys_close 0; _ ← sys_dup p0; _ ← sys_close p0; _ ← sys_close p1; runcmd j' r);;
        _ ← sys_close p0; _ ← sys_close p1;
        _ ← sys_wait; _ ← sys_wait; mret tt
      | BACK c1 =>
        pid ← fork1;
        when (pid =? 0) (runcmd j' c1)
      end;;
      exit 0
    end
  end.

(** ** [main] *)

(** [memset(buf, 0, nbuf)] and [gets] on the line buffer, of size [nbuf]. *)
Definition getcmd (nbuf : Z) : M Z :=
  fprintf 2 "$ " [];;
  buf ← Prelude.gets sh_buf;
  buf ← Ulib.gets (replicate (length buf) 0) nbuf;
  modify (fun st => Shell (sh_sys st) buf (sh_cmds st) (sh_room st));;
  c ← deref O;
  if c =? 0 then mret (-1) else mret 0.

(** Ensure that three file descriptors are open. *)
Definition open_console : M unit :=
  loop (fun _ : unit =>
    fd ← sys_open (bytes_of_string "console") O_RDWR;
    if fd <? 0 then mret (inr tt) else
    if 3 <=? fd then _ ← sys_close fd; mret (inr tt) else mret (inl tt)) tt.

Definition sh_main : M unit := fun n st =>
  (open_console;;
   loop (fun _ : unit =>
     r ← getcmd 100;
     if r <? 0 then mret (inr tt) else
     c0 ← deref 0%nat; c1 ← deref 1%nat; c2 ← deref 2%nat;
     if (c0 =? chr "c") && (c1 =? chr "d") && (c2 =? chr " ") then
       buf ← Prelude.gets sh_buf;
       len ← found (strlen buf);
       store (Z.to_nat (len - 1)) 0;;
       path ← ustr 3;
       r ← sys_chdir path;
       when (r <? 0) (a ← rest_of 3; fprintf 2 ("cannot cd %s" ++ nl) [a]);;
       mret (inl tt)
     else
       pid ← fork1;
       when (pid =? 0) (c ← parsecmd O; runcmd n c);;
       _ ← sys_wait;
       mret (inl tt)) tt;;
   exit 0) n st.

End sh.
