(* ===== verification/ShGrammar.v ===== *)
(** * The language of the shell

    What [sh.c] parses: the tokens of a line, the grammar of commands, and a
    parser on tokens that decides it.  The parser of [sh.c] itself, which works
    on characters and builds structures on the heap, is compared with it in
    [ShSpec]. *)

From Stdlib Require Import Ascii.
From S2P Require Import Prelude KString Printf Sh.

(** ** Tokens *)

(** A word, or a symbol by its character; ['+'] is [>>]. *)
Inductive tok (W : Type) := TWord (w : W) | TSym (c : Z).
Arguments TWord {W} _.
Arguments TSym {W} _.

Definition is_ws (c : Z) : bool := bool_decide (c ∈ [32; 9; 13; 10; 11]).
Definition is_sym (c : Z) : bool := bool_decide (c ∈ bytes_of_string "<|>&;()").
Definition is_redir (c : Z) : bool := bool_decide (c ∈ bytes_of_string "<>+").
Definition is_stop (c : Z) : bool := bool_decide (c ∈ bytes_of_string "|)&;").

(** A word is where it starts and ends in the line: the maximal run of
    characters that are neither blank nor symbols. *)
Definition span : Type := nat * nat.
Definition glue (pos : nat) (l : list (tok span)) : list (tok span) :=
  match l with
  | TWord (q, e) :: l' => if (q =? S pos)%nat then TWord (pos, e) :: l' else TWord (pos, S pos) :: l
  | _ => TWord (pos, S pos) :: l
  end.
Fixpoint lex (pos : nat) (t : list Z) : list (tok span) :=
  match t with
  | [] => []
  | c :: t' =>
    if is_ws c then lex (S pos) t'
    else if is_sym c then
      match t' with
      | d :: t2 =>
        if (c =? chr ">") && (d =? chr ">") then TSym (chr "+") :: lex (S (S pos)) t2
        else TSym c :: lex (S pos) t'
      | [] => [TSym c]
      end
    else glue pos (lex (S pos) t')
  end.

(** ** Commands *)

Inductive ast (W : Type) :=
| AExec (argv : list W)
| ARedir (a : ast W) (op : Z) (file : W)
| APipe (l r : ast W)
| AList (l r : ast W)
| ABack (a : ast W).
Arguments AExec {W} _.
Arguments ARedir {W} _ _ _.
Arguments APipe {W} _ _.
Arguments AList {W} _ _.
Arguments ABack {W} _.

Fixpoint ast_map {V W} (f : V -> W) (a : ast V) : ast W :=
  match a with
  | AExec l => AExec (f <$> l)
  | ARedir a op w => ARedir (ast_map f a) op (f w)
  | APipe l r => APipe (ast_map f l) (ast_map f r)
  | AList l r => AList (ast_map f l) (ast_map f r)
  | ABack a => ABack (ast_map f a)
  end.
Fixpoint height {W} (a : ast W) : nat :=
  match a with
  | AExec _ => 1
  | ARedir a _ _ | ABack a => S (height a)
  | APipe l r | AList l r => S (Nat.max (height l) (height r))
  end.

Section grammar.
Context {W : Type}.
Implicit Types (ts r : list (tok W)) (a b : ast W) (rs : list (Z * W)).

(** ** The grammar *)

Definition redir_toks rs : list (tok W) := rs ≫= fun '(op, w) => [TSym op; TWord w].
Definition redirect a rs : ast W := fold_left (fun a '(op, w) => ARedir a op w) rs a.
(** The items of a simple command: arguments and redirections, in any order. *)
Definition item_toks (its : list (W + Z * W)) : list (tok W) :=
  its ≫= fun i => match i with inl w => [TWord w] | inr (op, w) => [TSym op; TWord w] end.
Definition item_words (its : list (W + Z * W)) : list W := omap (fun i => if i is inl w then Some w else None) its.
Definition item_redirs (its : list (W + Z * W)) : list (Z * W) := omap (fun i => if i is inr r then Some r else None) its.

Definition redir_ok (r : Z * W) : Prop := is_redir r.1 = true.

Inductive is_line : list (tok W) -> ast W -> Prop :=
| line_pipe ts a k : is_pipe ts a -> is_line (ts ++ replicate k (TSym (chr "&"))) (Nat.iter k ABack a)
| line_list ts a k ts' b : is_pipe ts a -> is_line ts' b ->
    is_line (ts ++ replicate k (TSym (chr "&")) ++ TSym (chr ";") :: ts') (AList (Nat.iter k ABack a) b)
with is_pipe : list (tok W) -> ast W -> Prop :=
| pipe_one ts a : is_exec ts a -> is_pipe ts a
| pipe_more ts a ts' b : is_exec ts a -> is_pipe ts' b -> is_pipe (ts ++ TSym (chr "|") :: ts') (APipe a b)
with is_exec : list (tok W) -> ast W -> Prop :=
| exec_simple its : Forall redir_ok (item_redirs its) -> (length (item_words its) < MAXARGS)%nat ->
    is_exec (item_toks its) (redirect (AExec (item_words its)) (item_redirs its))
| exec_block ts a rs : is_line ts a -> Forall redir_ok rs ->
    is_exec (TSym (chr "(") :: ts ++ TSym (chr ")") :: redir_toks rs) (redirect a rs).

(** ** A parser on tokens *)

Fixpoint predirs ts : option (list (Z * W) * list (tok W)) :=
  match ts with
  | TSym c :: ts' =>
    if is_redir c then
      match ts' with
      | TWord w :: ts2 => '(rs, r) ← predirs ts2; Some ((c, w) :: rs, r)
      | _ => None
      end
    else Some ([], ts)
  | _ => Some ([], ts)
  end.
Fixpoint pargs (argc : nat) ts : option (list W * list (Z * W) * list (tok W)) :=
  match ts with
  | [] => Some ([], [], [])
  | TWord w :: ts' =>
    if (MAXARGS <=? S argc)%nat then None else
    '(ws, rs, r) ← pargs (S argc) ts'; Some (w :: ws, rs, r)
  | TSym c :: ts' =>
    if is_redir c then
      match ts' with
      | TWord w :: ts2 => '(ws, rs, r) ← pargs argc ts2; Some (ws, (c, w) :: rs, r)
      | _ => None
      end
    else if is_stop c then Some ([], [], ts) else None
  end.
Definition is_tok (c : Z) ts : bool := match ts with TSym d :: _ => d =? c | _ => false end.
Definition pexec (pline : list (tok W) -> option (ast W * list (tok W))) ts : option (ast W * list (tok W)) :=
  if is_tok (chr "(") ts then
    '(a, r) ← pline (tail ts);
    if is_tok (chr ")") r then '(rs, r) ← predirs (tail r); Some (redirect a rs, r) else None
  else '(ws, rs, r) ← pargs 0 ts; Some (redirect (AExec ws) rs, r).
Fixpoint ppipe (k : nat) (pline : list (tok W) -> option (ast W * list (tok W))) ts : option (ast W * list (tok W)) :=
  match k with
  | O => None
  | S k' =>
    '(a, r) ← pexec pline ts;
    if is_tok (chr "|") r then '(b, r) ← ppipe k' pline (tail r); Some (APipe a b, r) else Some (a, r)
  end.
Fixpoint pbacks a ts : ast W * list (tok W) :=
  match ts with
  | t :: ts' => if is_tok (chr "&") ts then pbacks (ABack a) ts' else (a, ts)
  | [] => (a, [])
  end.
Fixpoint pline (k : nat) ts : option (ast W * list (tok W)) :=
  match k with
  | O => None
  | S k' =>
    '(a, r) ← ppipe k (pline k') ts;
    let '(a, r) := pbacks a r in
    if is_tok (chr ";") r then '(b, r) ← pline k' (tail r); Some (AList a b, r) else Some (a, r)
  end.

(** ** The parser accepts only the grammar *)

Lemma is_tok_inv c ts : is_tok c ts = true -> ts = TSym c :: tail ts.
Proof. destruct ts as [|[w|d] ts]; simpl; try done. by intros ->%Z.eqb_eq. Qed.

Lemma predirs_sound ts rs r : predirs ts = Some (rs, r) -> ts = redir_toks rs ++ r /\ Forall redir_ok rs.
Proof.
  revert rs. induction ts as [ts IH] using (induction_ltof1 _ length). intros rs.
  destruct ts as [|[w|c] ts]; simpl; [by intros [= <- <-]|by intros [= <- <-]|].
  destruct (is_redir c) eqn:Ec; [|by intros [= <- <-]]. destruct ts as [|[w|d] ts]; [done| |done].
  destruct (predirs ts) as [[rs' r']|] eqn:E; [|done]. intros [= <- <-].
  apply IH in E as [-> Hok]; [|rw /ltof /=; lia]. split; [done|by constructor].
Qed.
Lemma pargs_sound argc ts ws rs r : (argc < MAXARGS)%nat -> pargs argc ts = Some (ws, rs, r) ->
  exists its, ts = item_toks its ++ r /\ ws = item_words its /\ rs = item_redirs its /\
    Forall redir_ok rs /\ (argc + length ws < MAXARGS)%nat.
Proof.
  revert argc ws rs. induction ts as [ts IH] using (induction_ltof1 _ length). intros argc ws rs Ha.
  destruct ts as [|[w|c] ts]; cbn [pargs].
  - intros [= <- <- <-]. exists []. split_and!; [done..|simpl; lia].
  - destruct (MAXARGS <=? S argc)%nat eqn:E; [done|]. apply Nat.leb_gt in E.
    destruct (pargs (S argc) ts) as [[[ws' rs'] r']|] eqn:Ep; [|done]. intros [= <- <- <-].
    apply IH in Ep as (its & -> & -> & -> & Hok & Hl); [|rw /ltof /=; lia|done].
    exists (inl w :: its). split_and!; [done..|simpl; lia].
  - destruct (is_redir c) eqn:Ec.
    + destruct ts as [|[w|d] ts]; [done| |done]. destruct (pargs argc ts) as [[[ws' rs'] r']|] eqn:Ep; [|done].
      intros [= <- <- <-]. apply IH in Ep as (its & -> & -> & -> & Hok & Hl); [|rw /ltof /=; lia|done].
      exists (inr (c, w) :: its). split_and!; [done..|by constructor|done].
    + destruct (is_stop c); [|done]. intros [= <- <- <-]. exists []. split_and!; [done..|simpl; lia].
Qed.
Lemma pbacks_spec a ts b r : pbacks a ts = (b, r) -> exists k, ts = replicate k (TSym (chr "&")) ++ r /\ b = Nat.iter k ABack a.
Proof.
  revert a. induction ts as [|t ts IH]; intros a; [intros [= <- <-]; by exists O|].
  cbn [pbacks]. destruct (is_tok (chr "&") (t :: ts)) eqn:E; [|intros [= <- <-]; by exists O].
  apply is_tok_inv in E as [= ->]. intros (k & -> & ->)%IH. exists (S k). split; [done|]. by rw Nat.iter_succ_r.
Qed.

Lemma pexec_sound (pl : list (tok W) -> option (ast W * list (tok W))) ts a r :
  (forall ts a r, pl ts = Some (a, r) -> exists ts1, ts = ts1 ++ r /\ is_line ts1 a) ->
  pexec pl ts = Some (a, r) -> exists ts1, ts = ts1 ++ r /\ is_exec ts1 a.
Proof.
  intros Hpl. rw /pexec. destruct (is_tok (chr "(") ts) eqn:E.
  - apply is_tok_inv in E as ->. cbn [tail]. destruct (pl (tail ts)) as [[a' r']|] eqn:Ep; [|done]. simpl.
    apply Hpl in Ep as (ts1 & -> & Hl). destruct (is_tok (chr ")") r') eqn:E; [|done]. apply is_tok_inv in E as ->.
    cbn [tail]. destruct (predirs (tail r')) as [[rs r1]|] eqn:Ep; [|done]. intros [= <- <-].
    apply predirs_sound in Ep as [-> Hok]. eexists. split; [|by apply exec_block]. by rw /= -!app_assoc.
  - destruct (pargs 0 ts) as [[[ws rs] r']|] eqn:Ep; [|done]. intros [= <- <-].
    apply pargs_sound in Ep as (its & -> & -> & -> & Hok & Hl); [|rw /MAXARGS; lia].
    eexists. split; [done|by apply exec_simple].
Qed.
Lemma ppipe_sound k pl ts a r :
  (forall ts a r, pl ts = Some (a, r) -> exists ts1, ts = ts1 ++ r /\ is_line ts1 a) ->
  ppipe k pl ts = Some (a, r) -> exists ts1, ts = ts1 ++ r /\ is_pipe ts1 a.
Proof.
  intros Hpl. revert ts a. induction k as [|k IH]; intros ts a; simpl; [done|].
  destruct (pexec pl ts) as [[a1 r1]|] eqn:Ee; [|done]. apply pexec_sound in Ee as (ts1 & -> & He); [|done]. simpl.
  destruct (is_tok (chr "|") r1) eqn:E; [|intros [= <- <-]; eexists; split; [done|by constructor]].
  apply is_tok_inv in E as ->. cbn [tail]. destruct (ppipe k pl (tail r1)) as [[b r2]|] eqn:Ep; [|done].
  intros [= <- <-]. apply IH in Ep as (ts2 & -> & Hp). eexists. split; [|by apply pipe_more]. by rw -app_assoc.
Qed.
Lemma pline_sound k ts a r : pline k ts = Some (a, r) -> exists ts1, ts = ts1 ++ r /\ is_line ts1 a.
Proof.
  revert ts a r. induction k as [|k IH]; intros ts a r; [done|]. cbn [pline].
  destruct (ppipe (S k) (pline k) ts) as [[a1 r1]|] eqn:Ep; [|done]. apply ppipe_sound in Ep as (ts1 & -> & Hp); [|done].
  cbn. destruct (pbacks a1 r1) as [a2 r2] eqn:Eb. apply pbacks_spec in Eb as (j & -> & ->).
  destruct (is_tok (chr ";") r2) eqn:E.
  - apply is_tok_inv in E as ->. cbn [tail]. destruct (pline k (tail r2)) as [[b r3]|] eqn:El; [|done].
    intros [= <- <-]. apply IH in El as (ts2 & -> & Hl). eexists. split; [|by apply line_list]. by rw -!app_assoc.
  - intros [= <- <-]. eexists. split; [|by apply line_pipe]. by rw -app_assoc.
Qed.

(** ** The parser accepts all of the grammar *)

(** What may follow a command, a pipeline and a line. *)
Definition stops ts : Prop := match ts with [] => True | TSym c :: _ => is_stop c = true | TWord _ :: _ => False end.
Definition after_pipe r : Prop := stops r /\ is_tok (chr "|") r = false.
Definition after_line r : Prop := after_pipe r /\ is_tok (chr "&") r = false /\ is_tok (chr ";") r = false.

Lemma redir_not_stop c : is_redir c = true -> is_stop c = false.
Proof.
  intros H%bool_decide_eq_true. apply bool_decide_eq_false. intros Hs.
  repeat (apply elem_of_cons in H as [->|H]; [by apply (bool_decide_eq_true _) in Hs; vm_compute in Hs|]).
  by apply elem_of_nil in H.
Qed.
Lemma stops_not_redir c r : stops (TSym c :: r) -> is_redir c = false.
Proof. simpl. intros H. destruct (is_redir c) eqn:E; [|done]. apply redir_not_stop in E. congruence. Qed.

Lemma predirs_complete rs r : Forall redir_ok rs -> stops r -> predirs (redir_toks rs ++ r) = Some (rs, r).
Proof.
  intros Hok Hr. induction Hok as [|[c w] rs Hc Hok IH]; simpl.
  - destruct r as [|[w|c] r]; [done..|]. simpl. by rw (stops_not_redir c r).
  - by rw /redir_ok /= in Hc; rw Hc IH.
Qed.
Lemma pargs_complete argc its r : Forall redir_ok (item_redirs its) -> (argc + length (item_words its) < MAXARGS)%nat ->
  stops r -> pargs argc (item_toks its ++ r) = Some (item_words its, item_redirs its, r).
Proof.
  intros Hok Hl Hr. revert argc Hok Hl. induction its as [|[w|[c w]] its IH]; intros argc Hok Hl; simpl in Hl.
  - destruct r as [|[w|c] r]; [done..|]. cbn [item_toks mbind list_bind app pargs]. rw (stops_not_redir c r Hr).
    simpl in Hr. by rw Hr.
  - change (item_toks (inl w :: its) ++ r) with (TWord w :: item_toks its ++ r). cbn [pargs].
    rw (proj2 (Nat.leb_gt _ _)); [|lia]. rw IH; [done|done|lia].
  - change (item_toks (inr (c, w) :: its) ++ r) with (TSym c :: TWord w :: item_toks its ++ r). cbn [pargs].
    apply Forall_cons_1 in Hok as [Hc Hok]. rw /redir_ok /= in Hc. rw Hc IH //.
Qed.
Lemma pbacks_complete k a r : is_tok (chr "&") r = false -> pbacks a (replicate k (TSym (chr "&")) ++ r) = (Nat.iter k ABack a, r).
Proof.
  intros Hr. revert a. induction k as [|k IH]; intros a.
  - destruct r as [|t r]; [done|]. cbn [replicate app pbacks]. by rw Hr.
  - change (replicate (S k) (TSym (chr "&")) ++ r) with (TSym (chr "&") :: replicate k (TSym (W:=W) (chr "&")) ++ r).
    cbn [pbacks]. change (is_tok (chr "&") (TSym (chr "&") :: replicate k (TSym (W:=W) (chr "&")) ++ r)) with true.
    cbv iota. rw IH Nat.iter_succ_r //.
Qed.
Lemma simple_not_block its r : Forall redir_ok (item_redirs its) -> stops r -> is_tok (chr "(") (item_toks its ++ r) = false.
Proof.
  intros Hok Hr. destruct its as [|[w|[c w]] its]; simpl.
  - destruct r as [|[w|c] r]; [done..|]. simpl in Hr |- *. by destruct (Z.eqb_spec c (chr "(")) as [->|].
  - done.
  - apply Forall_cons_1 in Hok as [Hc _]. rw /redir_ok /= in Hc. by destruct (Z.eqb_spec c (chr "(")) as [->|].
Qed.

Scheme line_ind' := Minimality for is_line Sort Prop
  with pipe_ind' := Minimality for is_pipe Sort Prop
  with exec_ind' := Minimality for is_exec Sort Prop.
Combined Scheme grammar_ind from line_ind', pipe_ind', exec_ind'.

Lemma parser_complete :
  (forall ts a, is_line ts a -> forall k r, after_line r -> (length ts < k)%nat -> pline k (ts ++ r) = Some (a, r)) /\
  (forall ts a, is_pipe ts a -> forall j k r, after_pipe r -> (length ts < j)%nat -> (length ts <= k)%nat -> ppipe j (pline k) (ts ++ r) = Some (a, r)) /\
  (forall ts a, is_exec ts a -> forall k r, stops r -> (length ts <= k)%nat -> pexec (pline k) (ts ++ r) = Some (a, r)).
Proof.
  apply grammar_ind.
  - intros ts a j _ IH k r (Hp & Hb & Hs) Hk. destruct k as [|k]; [lia|]. cbn [pline]. rw length_app length_replicate in Hk.
    rw -app_assoc IH; [|destruct j; [done|by split]|lia..]. cbn. by rw pbacks_complete // Hs.
  - intros ts a j ts' b _ IH _ IHl k r Hr Hk. destruct k as [|k]; [lia|]. cbn [pline].
    rw !length_app length_replicate /= in Hk. rw -!app_assoc IH; [|destruct j; by split|lia..]. cbn.
    rw pbacks_complete //. cbn. rw IHl //. lia.
  - intros ts a _ IH j k r [Hr Hn] Hj Hk. destruct j as [|j]; [lia|]. cbn [ppipe]. rw IH; [|done|lia]. cbn. by rw Hn.
  - intros ts a ts' b _ IH _ IHp j k r Hr Hj Hk. destruct j as [|j]; [lia|]. cbn [ppipe]. rw length_app /= in Hj, Hk.
    rw -app_assoc IH; [|done|lia]. cbn. rw IHp //; lia.
  - intros its Hok Hl k r Hr _. rw /pexec simple_not_block // pargs_complete //.
  - intros ts a rs _ IH Hok k r Hr Hk. rw /= length_app /= in Hk. rw /pexec /=.
    rw -app_assoc IH; [|by repeat split|lia]. cbn. by rw predirs_complete.
Qed.

(** The parser decides the grammar. *)
Lemma pline_exact k ts a : (length ts < k)%nat -> pline k ts = Some (a, []) <-> is_line ts a.
Proof.
  intros Hk. split.
  - intros (ts1 & -> & Hl)%pline_sound. by rw app_nil_r.
  - intros Hl. rw -{1}(app_nil_r ts). apply parser_complete; [done|by repeat split|done].
Qed.

(** No command is higher than its tokens are many. *)
Lemma height_redirect a rs : height (redirect a rs) = (height a + length rs)%nat.
Proof. rw /redirect. revert a. induction rs as [|[c w] rs IH]; intros a; simpl; [lia|]. rw IH /=. lia. Qed.
Lemma length_redir_toks rs : length (redir_toks rs) = (2 * length rs)%nat.
Proof. induction rs as [|[c w] rs IH]; [done|]. change (S (S (length (redir_toks rs))) = (2 * length ((c, w) :: rs))%nat). rw IH /=. lia. Qed.
Lemma length_item_toks its : (length (item_redirs its) <= length (item_toks its))%nat.
Proof.
  induction its as [|[w|[c w]] its IH]; [done|..].
  - change (length (item_redirs its) <= S (length (item_toks its)))%nat. lia.
  - change (S (length (item_redirs its)) <= S (S (length (item_toks its))))%nat. lia.
Qed.
Lemma height_iter k a : height (Nat.iter k ABack a) = (k + height a)%nat.
Proof. induction k as [|k IH]; simpl; [done|]. by rw IH. Qed.
Lemma height_bound :
  (forall ts a, is_line ts a -> (height a <= S (length ts))%nat) /\
  (forall ts a, is_pipe ts a -> (height a <= S (length ts))%nat) /\
  (forall ts a, is_exec ts a -> (height a <= S (length ts))%nat).
Proof.
  apply grammar_ind; intros; rw ?length_app ?height_redirect; cbn [height length]; rw ?height_iter ?length_app ?length_replicate;
    cbn [length height]; rw ?length_redir_toks; try lia.
  pose proof (length_item_toks its). lia.
Qed.

(** The words of a command are words of the line. *)
Fixpoint ast_words a : list W :=
  match a with
  | AExec ws => ws
  | ARedir a _ w => ast_words a ++ [w]
  | APipe l r | AList l r => ast_words l ++ ast_words r
  | ABack a => ast_words a
  end.
Lemma words_redirect a rs : ast_words (redirect a rs) = ast_words a ++ rs.*2.
Proof.
  rw /redirect. revert a. induction rs as [|[c w] rs IH]; intros a; simpl; [by rw app_nil_r|]. by rw IH /= -app_assoc.
Qed.
Lemma words_iter k a : ast_words (Nat.iter k ABack a) = ast_words a.
Proof. induction k as [|k IH]; [done|]. by rw /= IH. Qed.
Lemma redir_words rs w : w ∈ rs.*2 -> TWord w ∈ redir_toks rs.
Proof.
  induction rs as [|[c x] rs IH]; [by intros ?%elem_of_nil|]. rw fmap_cons. change (redir_toks ((c, x) :: rs)) with (TSym c :: TWord x :: redir_toks rs).
  intros [->|Hw]%elem_of_cons; [right; left|right; right; by apply IH].
Qed.
Lemma item_words_in its w : w ∈ item_words its ++ (item_redirs its).*2 -> TWord w ∈ item_toks its.
Proof.
  induction its as [|[x|[c x]] its IH]; [by intros ?%elem_of_nil|..].
  - change (item_toks (inl x :: its)) with (TWord x :: item_toks its). change (item_words (inl x :: its)) with (x :: item_words its).
    change (item_redirs (inl x :: its)) with (item_redirs its). intros [->|Hw]%elem_of_cons; [left|right; by apply IH].
  - change (item_toks (inr (c, x) :: its)) with (TSym c :: TWord x :: item_toks its). change (item_words (inr (c, x) :: its)) with (item_words its).
    change ((item_redirs (inr (c, x) :: its)).*2) with (x :: (item_redirs its).*2).
    rw elem_of_app elem_of_cons. intros [Hw|[->|Hw]]; [|right; left|]; right; right; apply IH, elem_of_app; auto.
Qed.
Lemma words_in :
  (forall ts a, is_line ts a -> forall w, w ∈ ast_words a -> TWord w ∈ ts) /\
  (forall ts a, is_pipe ts a -> forall w, w ∈ ast_words a -> TWord w ∈ ts) /\
  (forall ts a, is_exec ts a -> forall w, w ∈ ast_words a -> TWord w ∈ ts).
Proof.
  apply grammar_ind; intros *.
  - intros _ IH w. rw words_iter elem_of_app. auto.
  - intros _ IH _ IH' w. rw /= words_iter !elem_of_app elem_of_cons. intros [?|?]; auto.
  - auto.
  - intros _ IH _ IH' w. rw /= !elem_of_app elem_of_cons. intros [?|?]; auto.
  - intros _ _ w. rw words_redirect. apply item_words_in.
  - intros _ IH _ w. rw words_redirect elem_of_cons elem_of_app elem_of_app elem_of_cons.
    intros [?|?%redir_words]; auto.
Qed.
End grammar.
Lemma height_map {V W} (f : V -> W) a : height (ast_map f a) = height a.
Proof. induction a; simpl; congruence. Qed.
