(* ===== verification/ShParse.v ===== *)
(** * Parsing, function by function

    The scanner of [sh.c] on the characters of the line, and what each of its
    parsing functions does: it answers as the parser on tokens of [ShGrammar]
    does, advancing over the tokens that one consumes and building the command
    on the heap, or ends the program where that one refuses. *)

From Stdlib Require Import Ascii.
From S2P Require Import Prelude Mem KString Spinlock Machine Printf Ulib UlibSpec Sh ShGrammar.

(** ** Characters *)

Lemma strchr_spec l c : 0 ∉ l -> exists k, Ulib.strchr (l ++ [0]) c = Some (if bool_decide (c ∈ l) then Some k else None).
Proof.
  induction l as [|x l IH]; intros H0; [by exists O|]. apply not_elem_of_cons in H0 as [Hx H0]. cbn [app Ulib.strchr].
  rw (proj2 (Z.eqb_neq x 0)); [|done]. destruct (Z.eqb_spec x c) as [->|Hxc].
  - exists O. rw bool_decide_true //. by left.
  - destruct (IH H0) as [k ->]. exists (S k). cbn. destruct (decide (c ∈ l)) as [Hc|Hc].
    + rw !bool_decide_true //. by right.
    + rw !bool_decide_false //. by intros [->|?]%elem_of_cons.
Qed.
Lemma strchr_ws c : exists k, Ulib.strchr whitespace c = Some (if is_ws c then Some k else None).
Proof. apply (strchr_spec [32; 9; 13; 10; 11]). by apply (bool_decide_unpack _). Qed.
Lemma strchr_sym c : exists k, Ulib.strchr symbols c = Some (if is_sym c then Some k else None).
Proof. apply (strchr_spec (bytes_of_string "<|>&;()")). by apply (bool_decide_unpack _). Qed.

Definition is_word (c : Z) : bool := negb (is_ws c) && negb (is_sym c).

(** ** The lexer *)

Lemma lex_head pos t q e l : lex pos t = TWord (q, e) :: l -> (pos <= q < e)%nat /\ (q = pos -> exists c, head t = Some c /\ is_word c = true).
Proof.
  revert pos q e l. induction t as [t IH] using (induction_ltof1 _ length). intros pos q e l.
  destruct t as [|c t]; [done|]. cbn [lex]. rw /is_word. destruct (is_ws c) eqn:Ew.
  { intros H. apply IH in H as [H _]; [|rw /ltof /=; lia]. split; [lia|]. lia. }
  destruct (is_sym c) eqn:Es; [destruct t as [|d t]; [done|]; by destruct (_ && _)|].
  intros H. assert (q = pos /\ (pos < e)%nat) as [-> He].
  { destruct (lex (S pos) t) as [|[[q' e']|d] l'] eqn:El; cbn [glue] in H.
    - simplify_eq. lia.
    - apply IH in El as [El _]; [|rw /ltof /=; lia]. destruct (q' =? S pos)%nat; simplify_eq; lia.
    - simplify_eq. lia. }
  split; [lia|]. intros _. exists c. by rw /= Ew Es.
Qed.
Lemma lex_word pos w r : w <> [] -> Forall (fun c => is_word c = true) w ->
  (forall c, head r = Some c -> is_word c = false) ->
  lex pos (w ++ r) = TWord (pos, pos + length w)%nat :: lex (pos + length w) r.
Proof.
  revert pos. induction w as [|c w IH]; intros pos Hne Hw Hr; [done|]. apply Forall_cons_1 in Hw as [Hc Hw].
  rw /is_word in Hc. apply andb_prop in Hc as [Hc1%negb_true_iff Hc2%negb_true_iff].
  cbn [app lex]. rw Hc1 Hc2. destruct w as [|d w].
  - cbn [app length]. rw Nat.add_1_r. destruct (lex (S pos) r) as [|[[q e]|x] l] eqn:El; [done| |done]. cbn [glue].
    destruct (Nat.eqb_spec q (S pos)) as [->|]; [|done]. apply lex_head in El as [_ El].
    destruct (El eq_refl) as (x & Hx & Hx'). rw Hr // in Hx'.
  - rw IH //. cbn [glue length]. rw Nat.eqb_refl.
    by replace (S pos + S (length w))%nat with (pos + S (S (length w)))%nat by lia.
Qed.
Lemma lex_length pos t : (length (lex pos t) <= length t)%nat.
Proof.
  revert pos. induction t as [t IH] using (induction_ltof1 _ length). intros pos. destruct t as [|c t]; [done|].
  cbn [lex length]. pose proof (IH t ltac:(rw /ltof /=; lia) (S pos)) as H1. destruct (is_ws c); [lia|]. destruct (is_sym c).
  - destruct t as [|d t]; [done|]. pose proof (IH t ltac:(rw /ltof /=; lia) (S (S pos))) as H2.
    destruct (_ && _); cbn [length] in *; lia.
  - destruct (lex (S pos) t) as [|[[q e]|x] l]; cbn [glue length] in *; [lia| |lia]. destruct (_ =? _)%nat; cbn [length]; lia.
Qed.
Lemma is_sym_cases c : is_sym c = existsb (Z.eqb c) (bytes_of_string "|();&<") || (c =? chr ">").
Proof.
  destruct (existsb _ _ || _) eqn:E.
  - apply orb_prop in E as [(x & Hx & ->%Z.eqb_eq)%existsb_exists| ->%Z.eqb_eq]; [|done].
    apply list_elem_of_In in Hx. repeat (apply elem_of_cons in Hx as [->|Hx]; [done|]). by apply elem_of_nil in Hx.
  - apply orb_false_elim in E as [E1 E2%Z.eqb_neq]. apply bool_decide_eq_false. intros Hx.
    repeat (apply elem_of_cons in Hx as [->|Hx]; [done|]). by apply elem_of_nil in Hx.
Qed.

(** The character a symbol starts with. *)
Definition first_char (c : Z) : Z := if c =? chr "+" then chr ">" else c.
Definition starts_in (l : list Z) (ts : list (tok span)) : bool :=
  match ts with TSym c :: _ => bool_decide (first_char c ∈ l) | _ => false end.

(** ** Running the scanner *)

Lemma bind_Ok {S A B} (m : K S A) (f : A -> K S B) n s a s' : m n s = Ok a s' -> (m ≫= f) n s = f a n s'.
Proof. rw /mbind /K_bind. by intros ->. Qed.

(** Run the first step of a sequence, known by [H]. *)
Ltac run H := rw (bind_Ok _ _ _ _ _ _ H); clear H.

Section sh.
Context {S : Type} {sys : Usys S} {ok : StreamOk S}.
Context (t z : list Z) (w0 : S) (Ht : 0 ∉ t).
Implicit Types (s : shell S) (ps q e n : nat).

Lemma bind_found {A B} (x : A) (f : A -> K (shell S) B) n s : (found (Some x) ≫= f) n s = f x n s.
Proof. done. Qed.

(** The text of the line, of length [es], is in the buffer, and no system call
    was made since the state [w0]. *)
Definition holds s : Prop := sh_buf s = t ++ 0 :: z /\ sh_sys s = w0.
Let es := length t.
(** The tokens from [ps] on. *)
Definition toks ps : list (tok span) := lex ps (drop ps t).

Lemma deref_text s ps c n : holds s -> t !! ps = Some c -> deref ps n s = Ok c s.
Proof. intros [Hs _] Hc. rw /deref /mbind /K_bind /Prelude.gets /= Hs lookup_app_l; [|by eapply lookup_lt_Some]. by rw Hc. Qed.
Lemma deref_end s n : holds s -> deref es n s = Ok 0 s.
Proof. intros [Hs _]. rw /deref /mbind /K_bind /Prelude.gets /= Hs lookup_app_r // Nat.sub_diag //. Qed.
Lemma text_nonzero ps c : t !! ps = Some c -> c <> 0.
Proof. intros Hc ->. by apply Ht, (list_elem_of_lookup_2 t ps). Qed.
Lemma toks_cons ps c : t !! ps = Some c -> drop ps t = c :: drop (Datatypes.S ps) t.
Proof. intros Hc. by apply drop_S. Qed.
Lemma toks_end : toks es = [].
Proof. rw /toks drop_ge //. Qed.

Lemma skip_ws_run k ps s n : holds s -> (ps + k = es)%nat -> exists ps', skip_ws k ps n s = Ok ps' s /\ (ps <= ps' <= es)%nat /\
  toks ps' = toks ps /\ forall c, t !! ps' = Some c -> is_ws c = false.
Proof.
  intros Hs. revert ps. induction k as [|k IH]; intros ps Hk.
  - exists ps. split_and!; [done|lia..|done|]. intros c Hc. apply lookup_lt_Some in Hc. rw -/es in Hc. lia.
  - destruct (lookup_lt_is_Some_2 t ps) as [c Hc]; [rw -/es; lia|]. cbn [skip_ws].
    rw (bind_Ok _ _ _ _ _ _ (deref_text s ps c n Hs Hc)). destruct (strchr_ws c) as [j ->]. destruct (is_ws c) eqn:Ew.
    + destruct (IH (ps + 1)%nat) as (ps' & Hrun & Hr & HT & Hw); [lia|]. exists ps'. split_and!; [done|lia..| |done].
      rw HT Nat.add_1_r. rw {2}/toks (toks_cons ps c Hc) /= Ew //.
    + exists ps. split_and!; [done|lia..|done|]. intros c' Hc'. by simplify_eq.
Qed.
Lemma skip_word_run k ps s n : holds s -> (ps + k = es)%nat -> exists e, skip_word k ps n s = Ok e s /\ (ps <= e <= es)%nat /\
  (forall i c, (ps <= i < e)%nat -> t !! i = Some c -> is_word c = true) /\ forall c, t !! e = Some c -> is_word c = false.
Proof.
  intros Hs. revert ps. induction k as [|k IH]; intros ps Hk.
  - exists ps. split_and!; [done|lia..|]. intros c Hc. apply lookup_lt_Some in Hc. rw -/es in Hc. lia.
  - destruct (lookup_lt_is_Some_2 t ps) as [c Hc]; [rw -/es; lia|]. cbn [skip_word].
    rw (bind_Ok _ _ _ _ _ _ (deref_text s ps c n Hs Hc)). destruct (strchr_ws c) as [j ->]. rw bind_found. destruct (is_ws c) eqn:Ew.
    { exists ps. split_and!; [done|lia..|]. intros c' Hc'. simplify_eq. by rw /is_word Ew. }
    destruct (strchr_sym c) as [j' ->]. rw bind_found. destruct (is_sym c) eqn:Es.
    { exists ps. split_and!; [done|lia..|]. intros c' Hc'. simplify_eq. by rw /is_word Ew Es. }
    destruct (IH (ps + 1)%nat) as (e & Hrun & Hr & Hi & He); [lia|]. exists e. split_and!; [done|lia..| |done].
    intros i c' Hri Hc'. destruct (decide (i = ps)) as [->|]; [|eapply Hi; [|done]; lia]. simplify_eq. by rw /is_word Ew Es.
Qed.
Lemma toks_word q e : (q < e <= es)%nat -> (forall i c, (q <= i < e)%nat -> t !! i = Some c -> is_word c = true) ->
  (forall c, t !! e = Some c -> is_word c = false) -> toks q = TWord (q, e) :: toks e.
Proof.
  intros He Hi Hc. rw /toks. rw -(take_drop (e - q) (drop q t)). rw drop_drop. replace (q + (e - q))%nat with e by lia.
  assert (length (take (e - q) (drop q t)) = e - q)%nat as Hl by (rw length_take length_drop -/es; lia).
  rw lex_word.
  - rw Hl. by replace (q + (e - q))%nat with e by lia.
  - intros E. rw E /= in Hl. lia.
  - apply Forall_lookup_2. intros i c Hl'. rw lookup_take in Hl'. case_decide; [|done]. rw lookup_drop in Hl'.
    eapply Hi; [|done]. lia.
  - intros c. rw head_lookup lookup_drop Nat.add_0_r. apply Hc.
Qed.

Lemma peek_run l ps s n : holds s -> (ps <= es)%nat -> 0 ∉ l -> Forall (fun c => is_sym c = true) l ->
  exists ps', peek ps es (l ++ [0]) n s = Ok (ps', starts_in l (toks ps)) s /\ (ps <= ps' <= es)%nat /\ toks ps' = toks ps.
Proof.
  intros Hs Hps H0 Hl. destruct (skip_ws_run (es - ps) ps s n) as (ps' & Hrun & Hr & HT & Hw); [done|lia|].
  exists ps'. split; [|done]. rw /peek (bind_Ok _ _ _ _ _ _ Hrun) -HT. destruct (decide (ps' = es)) as [->|Hne].
  { rw (bind_Ok _ _ _ _ _ _ (deref_end s n Hs)) toks_end //. }
  destruct (lookup_lt_is_Some_2 t ps') as [c Hc]; [rw -/es; lia|].
  rw (bind_Ok _ _ _ _ _ _ (deref_text s ps' c n Hs Hc)) (proj2 (Z.eqb_neq c 0)); [|by eapply text_nonzero].
  destruct (strchr_spec l c H0) as [k ->]. rw bind_found.
  rw /toks (toks_cons ps' c Hc). cbn [lex]. rw (Hw c Hc). destruct (is_sym c) eqn:Es.
  - assert (first_char c = c) as Hf by (rw /first_char; destruct (Z.eqb_spec c (chr "+")) as [->|]; done).
    destruct (drop _ t) as [|d t2]; [rw /starts_in Hf; by destruct (bool_decide _)|].
    destruct (_ && _) eqn:E; rw /starts_in; [|rw Hf; by destruct (bool_decide _)].
    apply andb_prop in E as [->%Z.eqb_eq _]. change (first_char (chr "+")) with (chr ">"). by destruct (bool_decide _).
  - assert (c ∉ l) as Hnl by (intros Hin; rw Forall_forall in Hl; apply Hl in Hin; congruence).
    rw bool_decide_false //. rw /starts_in. destruct (lex _ _) as [|[[q e]|x] l']; cbn [glue]; try done.
    by destruct (_ =? _)%nat.
Qed.

(** The token [gettoken] finds. *)
Definition token_is (ts : list (tok span)) (tk : Z) (w : span) (r : list (tok span)) : Prop :=
  match ts with
  | [] => tk = 0 /\ r = []
  | TSym c :: l => tk = c /\ r = l /\ c ∈ bytes_of_string "<|>&;()+"
  | TWord x :: l => tk = chr "a" /\ w = x /\ r = l
  end.
Lemma sym_in c : is_sym c = true -> c ∈ bytes_of_string "<|>&;()+".
Proof. intros H%bool_decide_eq_true. repeat (apply elem_of_cons in H as [->|H]; [by apply (bool_decide_unpack _)|]). by apply elem_of_nil in H. Qed.


(** Symbols in the text. *)
Lemma toks_sym q c : t !! q = Some c -> is_ws c = false -> is_sym c = true ->
  c <> chr ">" \/ t !! (q + 1)%nat <> Some (chr ">") -> toks q = TSym c :: toks (q + 1).
Proof.
  intros Hc Hw Hs Hgt. rw Nat.add_1_r in Hgt |- *. rw {1}/toks (toks_cons q c Hc). cbn [lex]. rw Hw Hs /toks.
  destruct (drop (Datatypes.S q) t) as [|d t2] eqn:Ed; [done|]. destruct (Z.eqb_spec c (chr ">")) as [->|]; [|done].
  destruct (Z.eqb_spec d (chr ">")) as [->|]; [|done]. destruct Hgt as [|Hgt]; [done|]. destruct Hgt.
  by rw -(Nat.add_0_r (Datatypes.S q)) -lookup_drop Ed.
Qed.
Lemma toks_append q : t !! q = Some (chr ">") -> t !! (q + 1)%nat = Some (chr ">") -> toks q = TSym (chr "+") :: toks (q + 2).
Proof.
  intros H1 H2. replace (q + 2)%nat with (Datatypes.S (Datatypes.S q)) by lia. rw Nat.add_1_r in H2.
  by rw /toks (toks_cons _ _ H1) (toks_cons _ _ H2).
Qed.

Lemma switch_run q s n : holds s -> (q <= es)%nat -> (forall c, t !! q = Some c -> is_ws c = false) ->
  exists c e, gettoken_switch q es n s = Ok (c, e) s /\ (q <= e <= es)%nat /\ token_is (toks q) c (q, e) (toks e).
Proof.
  intros Hs Hq Hw. rw /gettoken_switch. destruct (decide (q = es)) as [->|Hne].
  { rw (bind_Ok _ _ _ _ _ _ (deref_end s n Hs)). exists 0, es. split_and!; [done|lia..|by rw toks_end]. }
  destruct (lookup_lt_is_Some_2 t q) as [c Hc]; [rw -/es; lia|]. rw (bind_Ok _ _ _ _ _ _ (deref_text s q c n Hs Hc)).
  rw (proj2 (Z.eqb_neq c 0)); [|by eapply text_nonzero]. pose proof (is_sym_cases c) as Hsym.
  destruct (existsb (Z.eqb c) (bytes_of_string "|();&<")) eqn:E1; [|destruct (Z.eqb_spec c (chr ">")) as [->|Hgt]].
  - exists c, (q + 1)%nat. split_and!; [done|lia..|]. rw (toks_sym q c Hc (Hw c Hc) Hsym); [by split_and!; [..|apply sym_in]|].
    left. by intros ->.
  - destruct (decide (q + 1 = es)%nat) as [Ee|Hne'].
    { rw Ee (bind_Ok _ _ _ _ _ _ (deref_end s n Hs)). exists (chr ">"), es. split_and!; [done|lia..|].
      rw (toks_sym q (chr ">") Hc (Hw _ Hc) Hsym) ?Ee; [by split_and!; [..|apply sym_in]|]. right.
      rw (lookup_ge_None_2 t); [done|]. rw -/es. lia. }
    destruct (lookup_lt_is_Some_2 t (q + 1)) as [d Hd]; [rw -/es; lia|]. rw (bind_Ok _ _ _ _ _ _ (deref_text s _ d n Hs Hd)).
    destruct (Z.eqb_spec d (chr ">")) as [->|Hd'].
    + exists (chr "+"), (q + 2)%nat. split_and!; [done|lia..|]. rw (toks_append q Hc Hd). split_and!; [done..|by apply (bool_decide_unpack _)].
    + exists (chr ">"), (q + 1)%nat. split_and!; [done|lia..|].
      rw (toks_sym q (chr ">") Hc (Hw _ Hc) Hsym); [by split_and!; [..|apply sym_in]|]. right. congruence.
  - destruct (skip_word_run (es - q) q s n) as (e & Hrun & He & Hi & Hend); [done|lia|].
    rw (bind_Ok _ _ _ _ _ _ Hrun). assert (is_word c = true) as Hwc by (by rw /is_word (Hw c Hc) Hsym).
    assert (q <> e) by (intros <-; rw Hend // in Hwc).
    exists (chr "a"), e. split_and!; [done|lia..|]. rw (toks_word q e) //; lia.
Qed.
Lemma gettoken_run ps s n : holds s -> (ps <= es)%nat -> exists ps' tk w,
  gettoken ps es n s = Ok (ps', (tk, w)) s /\ (ps <= ps' <= es)%nat /\ token_is (toks ps) tk w (toks ps').
Proof.
  intros Hs Hps. destruct (skip_ws_run (es - ps) ps s n) as (q & Hrun & Hr & HT & Hw); [done|lia|].
  destruct (switch_run q s n) as (c & e & Hsw & He & Htok); [done|lia|done|].
  destruct (skip_ws_run (es - e) e s n) as (ps' & Hrun' & Hr' & HT' & _); [done|lia|].
  exists ps', c, (q, e). rw -HT HT'. split_and!; [|lia..|done].
  by rw /gettoken (bind_Ok _ _ _ _ _ _ Hrun) (bind_Ok _ _ _ _ _ _ Hsw) (bind_Ok _ _ _ _ _ _ Hrun').
Qed.


(** ** Accepting and refusing *)

(** [r] returns a result related to [x] when the expected answer is [Some x],
    and ends the program with status 1 when it is [None]. *)
Definition outcome {A R} (r : res (shell S) A) (o : option R) (Q : R -> A -> shell S -> Prop) : Prop :=
  match r, o with
  | Ok a s', Some x => Q x a s'
  | Panic e _, None => e = "exit(1)"
  | _, _ => False
  end.
Lemma outcome_mono {A R} (r : res (shell S) A) (o : option R) (P Q : R -> A -> shell S -> Prop) :
  outcome r o P -> (forall x a s, o = Some x -> P x a s -> Q x a s) -> outcome r o Q.
Proof. rw /outcome. destruct r, o; eauto. Qed.
Lemma outcome_bind {A B R R'} (m : K (shell S) A) (f : A -> K (shell S) B) n s (o : option R) (g : R -> option R')
    (P : R -> A -> shell S -> Prop) (Q : R' -> B -> shell S -> Prop) :
  outcome (m n s) o P -> (forall x a s', o = Some x -> P x a s' -> outcome (f a n s') (g x) Q) ->
  outcome ((m ≫= f) n s) (o ≫= g) Q.
Proof.
  rw /outcome /mbind /K_bind. destruct (m n s) as [a s1|e s1|s1| |s1 k], o as [x|]; cbn; intros H1 H2; try done.
  by apply (H2 x a s1).
Qed.

#[local] Instance shell_ok : StreamOk (shell S).
Proof.
  exists (fun fd s => input fd (sh_sys s)) (fun s => output (sh_sys s)).
  - intros fd k N s Hk. apply wp_lift. eapply wp_mono; [by apply sys_read_wp|]. intros r s' H. exact H.
  - intros fd l N s. apply wp_lift. eapply wp_mono; [by apply sys_write_wp|]. intros r s' H. exact H.
Defined.
Lemma sh_panic_out {A R} msg m n s (Q : R -> A -> shell S -> Prop) : cstr (cstring msg) = Some m ->
  outcome (sh_panic msg n s) None Q.
Proof.
  intros Hm. rw /sh_panic.
  assert (wp (Ulib.fprintf 2 ("%s" ++ nl) [AStr (Some (cstring msg))]) n s (fun _ _ => True)) as H.
  { eapply wp_mono; [apply (vprintf_writes 2 false (cstring ("%s" ++ nl)) _ ((u8 <$> m) ++ [10]))|done].
    - by repeat constructor.
    - change (cstring ("%s" ++ nl)) with [37; 115; 10; 0]. cbv -[u8 cstr cstring fmap list_fmap app]. by rw Hm. }
  apply wp_run in H as ([] & s' & Hrun & _). rw (bind_Ok _ _ _ _ _ _ Hrun). done.
Qed.

(** ** Commands on the heap *)

Definition mode_of (op : Z) : Z :=
  if op =? chr "<" then Ulib.O_RDONLY
  else if op =? chr ">" then Z.lor (Z.lor Ulib.O_WRONLY Ulib.O_CREATE) Ulib.O_TRUNC
  else Z.lor Ulib.O_WRONLY Ulib.O_CREATE.
Definition fd_of (op : Z) : Z := if op =? chr "<" then 0 else 1.
Definition args_at (ws : list span) : cmd :=
  let rest := replicate (MAXARGS - length ws) None in
  EXEC ((Some ∘ fst <$> ws) ++ rest) ((Some ∘ snd <$> ws) ++ rest).

(** The structure [p] of the heap [h] is the command [a]. *)
Fixpoint tree (h : list cmd) (p : nat) (a : ast span) : Prop :=
  match a with
  | AExec ws => h !! p = Some (args_at ws) /\ (length ws < MAXARGS)%nat
  | ARedir a op w => exists c, h !! p = Some (REDIR (Some c) (Some w.1) (Some w.2) (mode_of op) (fd_of op)) /\ tree h c a
  | APipe l r => exists x y, h !! p = Some (PIPE (Some x) (Some y)) /\ tree h x l /\ tree h y r
  | AList l r => exists x y, h !! p = Some (LIST (Some x) (Some y)) /\ tree h x l /\ tree h y r
  | ABack a => exists c, h !! p = Some (BACK (Some c)) /\ tree h c a
  end.
Lemma tree_mono h h' p a : h `prefix_of` h' -> tree h p a -> tree h' p a.
Proof.
  intros [k ->]. assert (forall p c, h !! p = Some c -> (h ++ k) !! p = Some c) as Hm by (intros; by apply lookup_app_l_Some).
  revert p. induction a; intros p; simpl; [by intros [? ?]; eauto| |intros (x & y & Hc & Hx & Hy); eauto 10..|]; intros (c & Hc & Hx); eauto.
Qed.

(** Redirections around the structure [x]; the outermost first. *)
Fixpoint chain (h : list cmd) (p : nat) (rrs : list (Z * span)) (x : nat) : Prop :=
  match rrs with
  | [] => p = x
  | (op, w) :: rrs => exists c, h !! p = Some (REDIR (Some c) (Some w.1) (Some w.2) (mode_of op) (fd_of op)) /\ chain h c rrs x
  end.
Lemma chain_mono h h' p l x : h `prefix_of` h' -> chain h p l x -> chain h' p l x.
Proof.
  intros [k ->]. revert p. induction l as [|[op w] l IH]; intros p; simpl; [done|]. intros (c & Hc & H).
  exists c. split; [by apply lookup_app_l_Some|by apply IH].
Qed.
Lemma chain_trans h p l y l' x : chain h p l y -> chain h y l' x -> chain h p (l ++ l') x.
Proof. revert p. induction l as [|[op w] l IH]; intros p; simpl; [by intros ->|]. intros (c & Hc & H) Hx. exists c. eauto. Qed.
Lemma chain_update h p l x argv eargv c : h !! x = Some (EXEC argv eargv) -> chain h p l x -> chain (<[x := c]> h) p l x.
Proof.
  intros Hx. revert p. induction l as [|[op w] l IH]; intros p; simpl; [done|]. intros (d & Hd & H). exists d. split; [|eauto].
  rw list_lookup_insert_ne //. intros ->. congruence.
Qed.
Lemma tree_chain h p rs x a : chain h p (rev rs) x -> tree h x a -> tree h p (redirect a rs).
Proof.
  revert p. induction rs as [|[op w] rs IH] using rev_ind; intros p; [by intros ->|]. rw rev_app_distr /redirect fold_left_app /=.
  intros (c & Hc & H) Hx. exists c. split; [done|by apply IH].
Qed.

(** The heap and the buffer as parsing goes on; at most [k] structures more. *)
Definition grown s s' (k : nat) : Prop :=
  holds s' /\ sh_cmds s `prefix_of` sh_cmds s' /\ (sh_room s <= sh_room s' + k)%nat.
Lemma grown_refl s : holds s -> grown s s 0.
Proof. intros. split_and!; [done..|lia]. Qed.
Lemma grown_trans s1 s2 s3 k k' : grown s1 s2 k -> grown s2 s3 k' -> grown s1 s3 (k + k').
Proof. intros (_ & P1 & R1) (H2 & P2 & R2). split_and!; [done|by etrans|lia]. Qed.
Lemma alloc_run c n s : holds s -> (0 < sh_room s)%nat -> exists s', alloc c n s = Ok (Some (length (sh_cmds s))) s' /\
  grown s s' 1 /\ sh_cmds s' = sh_cmds s ++ [c] /\ sh_cmds s' !! length (sh_cmds s) = Some c.
Proof.
  intros Hs Hr. rw /alloc /mbind /K_bind /=. destruct (sh_room s) as [|r] eqn:E; [lia|]. eexists. split; [done|].
  split_and!; [|done|by rw /= list_lookup_middle]. split_and!; [done|by eexists|simpl; lia].
Qed.


(** One iteration of a loop that, from [a], should answer [spec a]. *)
Definition iteration {A B R} (v : A -> nat) (Pre : A -> shell S -> Prop) (spec : A -> option R) (Q : A -> shell S -> R -> B -> shell S -> Prop)
    (a : A) s (r : res (shell S) (A + B)) : Prop :=
  match r with
  | Ok (inl a') s' => (v a' < v a)%nat /\ Pre a' s' /\ forall r, outcome r (spec a') (Q a' s') -> outcome r (spec a) (Q a s)
  | Ok (inr b) s' => outcome (Ok b s') (spec a) (Q a s)
  | Panic e s' => outcome (Panic e s') (spec a) (Q a s)
  | _ => False
  end.
Lemma outcome_loop {A B R} v Pre spec Q (body : A -> K (shell S) (A + B)) n :
  (forall a s, Pre a s -> iteration (R:=R) v Pre spec Q a s (body a n s)) ->
  forall a s, Pre a s -> (v a < n)%nat -> outcome (loop body a n s) (spec a) (Q a s).
Proof.
  intros Hbody a s. rw /loop. generalize n at 1 2 as j. intros j. revert a s. induction j as [|j IH]; intros a s Hp Hv; [lia|].
  specialize (Hbody a s Hp). rw /iteration in Hbody. cbn [loop_n].
  destruct (body a n s) as [[a'|b] s'|e s'|s'| |s' k]; try done. destruct Hbody as (Hv' & Hp' & Hq). apply Hq, IH; [done|lia].
Qed.
Lemma iteration_panic {A B R} v Pre spec Q (a : A) s s1 msg m n (f : unit -> K (shell S) (A + B)) : spec a = @None R -> cstr (cstring msg) = Some m ->
  iteration (B:=B) v Pre spec Q a s ((when true (sh_panic msg) ≫= f) n s1).
Proof.
  intros Ha Hm. pose proof (sh_panic_out (A:=unit) (R:=unit) msg m n s1 (fun _ _ _ => True) Hm) as H. rw /when /mbind /K_bind.
  destruct (sh_panic msg n s1); try done. cbn. by rw Ha.
Qed.
Lemma when_false {A} (m : K (shell S) unit) (f : unit -> K (shell S) A) n s : (when false m ≫= f) n s = f tt n s.
Proof. done. Qed.

(** ** Redirections *)

Lemma starts_redir ts : starts_in (bytes_of_string "<>") ts = match ts with TSym c :: _ => is_redir c | _ => false end.
Proof.
  destruct ts as [|[w|c] ts]; [done..|]. rw /starts_in /is_redir /first_char. destruct (Z.eqb_spec c (chr "+")) as [->|Hc]; [done|].
  apply bool_decide_ext. change (bytes_of_string "<>+") with (bytes_of_string "<>" ++ [chr "+"]).
  rw elem_of_app list_elem_of_singleton. split; [by left|by intros [|]].
Qed.
Lemma starts_stop ts : starts_in (bytes_of_string "|)&;") ts = match ts with TSym c :: _ => is_stop c | _ => false end.
Proof.
  destruct ts as [|[w|c] ts]; [done..|]. rw /starts_in /is_stop /first_char. by destruct (Z.eqb_spec c (chr "+")) as [->|Hc].
Qed.
Lemma starts_one d ts : d <> chr ">" -> d <> chr "+" -> starts_in [d] ts = is_tok d ts.
Proof.
  intros Hd Hd'. destruct ts as [|[w|c] ts]; [done..|]. rw /starts_in /is_tok /first_char.
  destruct (Z.eqb_spec c (chr "+")) as [->|Hc].
  - rw bool_decide_false; [|by intros H%list_elem_of_singleton]. symmetry. by apply Z.eqb_neq.
  - destruct (Z.eqb_spec c d) as [->|Hcd]; [rw bool_decide_true //; by left|].
    rw bool_decide_false //. by intros H%list_elem_of_singleton.
Qed.

Lemma redircmd_run op c w n s : is_redir op = true -> holds s -> (0 < sh_room s)%nat ->
  exists s' i, (if op =? chr "<" then redircmd (Some c) (Some w.1) (Some w.2) Ulib.O_RDONLY 0
    else if op =? chr ">" then redircmd (Some c) (Some w.1) (Some w.2) (Z.lor (Z.lor Ulib.O_WRONLY Ulib.O_CREATE) Ulib.O_TRUNC) 1
    else if op =? chr "+" then redircmd (Some c) (Some w.1) (Some w.2) (Z.lor Ulib.O_WRONLY Ulib.O_CREATE) 1
    else mret (Some c)) n s = Ok (Some i) s' /\ grown s s' 1 /\ chain (sh_cmds s') i [(op, w)] c.
Proof.
  intros Hop Hs Hr. destruct (alloc_run (REDIR (Some c) (Some w.1) (Some w.2) (mode_of op) (fd_of op)) n s Hs Hr) as (s' & Hrun & Hg & _ & Hl).
  exists s', (length (sh_cmds s)). split_and!; [|done|eexists; split; [exact Hl|done]].
  rw -Hrun /redircmd /mode_of /fd_of. destruct (Z.eqb_spec op (chr "<")); [done|]. destruct (Z.eqb_spec op (chr ">")); [done|].
  destruct (Z.eqb_spec op (chr "+")); [done|]. apply bool_decide_eq_true in Hop.
  repeat (apply elem_of_cons in Hop as [->|Hop]; [done|]). by apply elem_of_nil in Hop.
Qed.

(** What [parseredirs] adds around [c]. *)
Definition redirected s (c : nat) (x : list (Z * span) * list (tok span)) (a : nat * ptr) s' : Prop :=
  toks a.1 = x.2 /\ (a.1 <= es)%nat /\ grown s s' (length x.1) /\
  exists i, a.2 = Some i /\ chain (sh_cmds s') i (rev x.1) c.

Lemma redirected_none s c ps ts : toks ps = ts -> (ps <= es)%nat -> holds s -> redirected s c ([], ts) (ps, Some c) s.
Proof. intros. split_and!; [done..|by apply grown_refl|by exists c]. Qed.
Lemma redirected_more s s1 c i op w x a s' : grown s s1 1 -> chain (sh_cmds s1) i [(op, w)] c ->
  redirected s1 i x a s' -> redirected s c ((op, w) :: x.1, x.2) a s'.
Proof.
  intros Hg Hc (HT & He & Hg' & j & Hj & Hj'). split_and!; [done..|by eapply (grown_trans _ _ _ 1)|]. exists j. split; [done|].
  cbn [rev fst snd]. eapply chain_trans; [done|]. eapply chain_mono; [|done]. apply Hg'.
Qed.
Lemma sym_not_word c : c ∈ bytes_of_string "<|>&;()+" -> (c =? chr "a") = false /\ (c =? 0) = false.
Proof. intros H. repeat (apply elem_of_cons in H as [->|H]; [done|]). by apply elem_of_nil in H. Qed.

Lemma parseredirs_out c ps s n : holds s -> (ps <= es)%nat -> (length (toks ps) < n)%nat -> (length (toks ps) <= 2 * sh_room s)%nat ->
  outcome (parseredirs (Some c) ps es n s) (predirs (toks ps)) (redirected s c).
Proof.
  intros Hs Hps Hn Hr. rw /parseredirs.
  apply (outcome_loop (fun a : nat * ptr => length (toks a.1))
    (fun a s => holds s /\ (a.1 <= es)%nat /\ (length (toks a.1) <= 2 * sh_room s)%nat /\ exists c, a.2 = Some c)
    (fun a => predirs (toks a.1)) (fun a s => if a.2 is Some c then redirected s c else fun _ _ _ => False)) with (a := (ps, Some c));
    [|by eauto|done].
  clear - Ht ok. intros [ps p] s (Hs & Hps & Hr & c & Hp). cbn [fst snd] in *. subst p.
  destruct (peek_run (bytes_of_string "<>") ps s n) as (ps1 & Hpk & Hr1 & HT1); [done|lia|by apply (bool_decide_unpack _)..|].
  run Hpk. rw starts_redir. destruct (toks ps) as [|[w|op] l] eqn:E; cbn [negb].
  1, 2: rw /iteration; cbn [fst snd mret K_ret]; rw E; by apply redirected_none; [|lia|].
  destruct (is_redir op) eqn:Eop; cbn [negb]; [|rw /iteration; cbn [fst snd mret K_ret]; rw E; cbn [predirs]; rw Eop; by apply redirected_none; [|lia|]].
  destruct (gettoken_run ps1 s n) as (ps2 & tk & x0 & Hg & Hr2 & Htok); [done|lia|]. run Hg. rw HT1 in Htok. destruct Htok as (-> & HT2 & _).
  destruct (gettoken_run ps2 s n) as (ps3 & tk & w & Hg & Hr3 & Htok); [done|lia|]. run Hg. rw HT2 in Htok. destruct w as [q e].
  destruct l as [|[x|d] l]; cbn [token_is] in Htok.
  - destruct Htok as [-> _]. eapply iteration_panic; [|done]. cbn [fst]. rw E /= Eop //.
  - destruct Htok as (-> & <- & HT3). cbn [length] in Hr. rw Z.eqb_refl when_false.
    destruct (redircmd_run op c (q, e) n s) as (s1 & i & Hrun & Hgr & Hch); [done..|lia|]. run Hrun. cbn [fst snd].
    rw /iteration. cbn [mret K_ret fst snd]. rw HT3 E. cbn [length predirs]. rw Eop. split; [lia|].
    split; [split_and!; [apply Hgr|lia|destruct Hgr as (_ & _ & ?); lia|by eexists]|]. intros r Ho.
    destruct r as [[ps' p']  s'|? ?|?| |? ?], (predirs l) as [[rs r]|]; try done. cbn in Ho |- *. by eapply redirected_more in Ho.
  - destruct Htok as (-> & _ & Hd). rw (proj1 (sym_not_word d Hd)). eapply iteration_panic; [|done]. cbn [fst]. rw E /= Eop //.
Qed.

(** ** Simple commands *)

Lemma put_end {A B} (f : A -> B) l x y r : <[length l := x]> ((f <$> l) ++ y :: r) = (f <$> l) ++ x :: r.
Proof. rw -(Nat.add_0_r (length l)) -(length_fmap f l) insert_app_r //. Qed.
Lemma args_at_insert ws w : (length ws < MAXARGS)%nat -> exists argv eargv, args_at ws = EXEC argv eargv /\
  EXEC (<[length ws := Some w.1]> argv) (<[length ws := Some w.2]> eargv) = args_at (ws ++ [w]) /\
  EXEC (<[length ws := None]> argv) (<[length ws := None]> eargv) = args_at ws.
Proof.
  intros Hl. eexists _, _. split; [done|]. rw /args_at length_app /=.
  destruct (MAXARGS - length ws)%nat as [|k] eqn:E; [lia|]. replace (MAXARGS - (length ws + 1))%nat with k by lia. cbn [replicate].
  by rw !put_end !fmap_app -!app_assoc.
Qed.
Lemma set_arg_run (x : nat) ws (q e : ptr) (y : cmd) n s : holds s -> sh_cmds s !! x = Some (args_at ws) -> (length ws < MAXARGS)%nat ->
  (q, e, y) = (None, None, args_at ws) \/ (exists w : span, (q, e, y) = (Some w.1, Some w.2, args_at (ws ++ [w]))) ->
  set_arg (Some x) (length ws) q e n s = Ok tt (Shell (sh_sys s) (sh_buf s) (<[x := y]> (sh_cmds s)) (sh_room s)).
Proof.
  intros Hs Hx Hl Hy.
  assert (exists argv eargv, args_at ws = EXEC argv eargv /\ EXEC (<[length ws := q]> argv) (<[length ws := e]> eargv) = y) as (argv & eargv & Ea & Ey).
  { destruct Hy as [Hy|[w Hy]]; simplify_eq; [destruct (args_at_insert ws (O, O) Hl) as (a & b & ? & _ & ?)|
      destruct (args_at_insert ws w Hl) as (a & b & ? & ? & _)]; eauto. }
  rw Ea in Hx. rw /set_arg /getc /setc /mbind /K_bind /=. rw Hx. cbn [mret K_ret bindr].
  rw (proj2 (Nat.ltb_lt _ _) Hl). by rw Ey.
Qed.

(** Redirections first, then the rest of a simple command. *)
Definition no_redir (ts : list (tok span)) : Prop := match ts with TSym c :: _ => is_redir c = false | _ => True end.
Lemma pargs_redirs argc ts : pargs argc ts =
  '(rs, r) ← predirs ts; '(ws, rs', r') ← pargs (W:=span) argc r; Some (ws, rs ++ rs', r').
Proof.
  revert argc. induction ts as [ts IH] using (induction_ltof1 _ length). intros argc.
  destruct ts as [|[w|c] ts]; [done|cbn [predirs mbind option_bind]; by destruct (pargs _ _) as [[[ws rs] r]|]|].
  cbn [predirs]. destruct (is_redir c) eqn:Ec; [|cbn [mbind option_bind]; by destruct (pargs _ _) as [[[ws rs] r]|]].
  cbn [pargs]. rw Ec. destruct ts as [|[w|d] ts]; [done| |done]. rw IH; [|rw /ltof /=; lia].
  destruct (predirs ts) as [[rs r]|]; [|done]. cbn. by destruct (pargs argc r) as [[[ws rs'] r']|].
Qed.
Lemma predirs_no_redir ts rs r : predirs ts = Some (rs, r) -> no_redir r.
Proof.
  revert rs. induction ts as [ts IH] using (induction_ltof1 _ length). intros rs.
  destruct ts as [|[w|c] ts]; simpl; [by intros [= <- <-]|by intros [= <- <-]|]. destruct (is_redir c) eqn:Ec; [|by intros [= <- <-]].
  destruct ts as [|[w|d] ts]; [done| |done]. destruct (predirs ts) as [[rs' r']|] eqn:E; [|done]. intros [= <- <-].
  eapply IH; [|exact E]. rw /ltof /=. lia.
Qed.
Lemma predirs_length ts rs r : predirs (W:=span) ts = Some (rs, r) -> length ts = (2 * length rs + length r)%nat.
Proof. intros [-> _]%predirs_sound. by rw length_app length_redir_toks. Qed.

Section args.
Context (h0 : list cmd).
(** The structure being filled, allocated on the heap [h0]. *)
Let x := length h0.

Definition filling (ws : list span) (rs : list (Z * span)) (p : nat) s : Prop :=
  holds s /\ h0 `prefix_of` sh_cmds s /\ sh_cmds s !! x = Some (args_at ws) /\ chain (sh_cmds s) p (rev rs) x.
Definition args_pre (n : nat) (a : nat * ptr * nat) s : Prop :=
  (a.1.1 <= es)%nat /\ no_redir (toks a.1.1) /\ (length (toks a.1.1) < n)%nat /\ (length (toks a.1.1) <= 2 * sh_room s)%nat /\
  exists ws rs p, a.1.2 = Some p /\ a.2 = length ws /\ (length ws < MAXARGS)%nat /\ filling ws rs p s.
Definition args_post (a : nat * ptr * nat) s (y : list span * list (Z * span) * list (tok span)) (b : nat * ptr * nat) s' : Prop :=
  toks b.1.1 = y.2 /\ (b.1.1 <= es)%nat /\ (sh_room s <= sh_room s' + length y.1.2)%nat /\
  forall ws rs p, a.1.2 = Some p -> a.2 = length ws -> filling ws rs p s ->
    b.2 = length (ws ++ y.1.1) /\ exists p', b.1.2 = Some p' /\ filling (ws ++ y.1.1) (rs ++ y.1.2) p' s'.

Lemma args_done ps ps' p argc s ts : toks ps' = ts -> (ps' <= es)%nat -> args_post (ps, p, argc) s ([], [], ts) (ps', p, argc) s.
Proof. intros HT Hps. split_and!; [done..|cbn; lia|]. intros ws rs q Hq Ha Hf. rw /= !app_nil_r. eauto. Qed.

(** Storing an argument. *)
Lemma filling_arg ws rs p w n s : filling ws rs p s -> (length ws < MAXARGS)%nat -> exists s1,
  set_arg (Some x) (length ws) (Some w.1) (Some w.2) n s = Ok tt s1 /\ sh_room s1 = sh_room s /\ filling (ws ++ [w]) rs p s1.
Proof.
  intros (Hs & Hh & Hx & Hc) Hl. eexists. split; [eapply set_arg_run; [done..|right; by eexists]|]. split; [done|].
  pose proof (lookup_lt_Some _ _ _ Hx) as Hlt. split_and!; [done| |by rw /= list_lookup_insert_eq|].
  - cbn. destruct Hh as [k Hk]. rw Hk. eexists. by rw insert_app_r_alt.
  - cbn. by eapply chain_update.
Qed.
(** Redirections after it. *)
Lemma filling_redirs ws rs p rs1 r a s s' : filling ws rs p s -> redirected s p (rs1, r) a s' ->
  exists p', a.2 = Some p' /\ filling ws (rs ++ rs1) p' s'.
Proof.
  intros (Hs & Hh & Hx & Hc) (_ & _ & (Hs' & Hp & _) & p' & Hp' & Hc'). exists p'. split; [done|]. split_and!; [done|by etrans| |].
  - destruct Hp as [k ->]. by apply lookup_app_l_Some.
  - rw rev_app_distr. eapply chain_trans; [done|]. by eapply chain_mono.
Qed.

(** One more argument, with the redirections behind it. *)
Lemma args_step n ps p argc w l s s1 r :
  toks ps = TWord w :: l -> args_pre n (ps, p, argc) s ->
  (forall ws rs q, p = Some q -> argc = length ws -> filling ws rs q s -> filling (ws ++ [w]) rs q s1) -> sh_room s1 = sh_room s ->
  (Datatypes.S argc < MAXARGS)%nat -> (exists q, p = Some q /\ outcome r (predirs l) (redirected s1 q)) ->
  iteration (fun a => length (toks a.1.1)) (args_pre n) (fun a => pargs a.2 (toks a.1.1)) (args_post) (ps, p, argc) s
    (bindr r (fun a s' => (let '(ps, ret) := a in mret (inl (ps, ret, (argc + 1)%nat)) : K (shell S) (nat * ptr * nat + nat * ptr * nat)) n s')).
Proof.
  intros HT (Hps & Hnr & Hn & Hr & ws & rs & q & Hq & Ha & Hl & Hf) Hfill Hroom Hargc (q' & Hq' & Ho). cbn [fst snd] in *. simplify_eq.
  assert (pargs (length ws) (toks ps) = '(rs1, r1) ← predirs l; '(ws2, rs2, r2) ← pargs (Datatypes.S (length ws)) r1; Some (w :: ws2, rs1 ++ rs2, r2)) as Hsp.
  { rw HT. cbn [pargs]. rw (proj2 (Nat.leb_gt _ _)); [|done]. rw pargs_redirs. destruct (predirs l) as [[rs1 r1]|]; [|done]. cbn.
    by destruct (pargs _ r1) as [[[? ?] ?]|]. }
  rw HT in Hr, Hn, Hnr. cbn [length] in Hr, Hn.
  destruct r as [[ps2 ret2] s2|e s2|s2| |s2 k], (predirs l) as [[rs1 r1]|] eqn:Er; try done; [|cbn in Ho |- *; by rw Hsp].
  pose proof Ho as (HT2 & He2 & Hg & _). cbn [fst snd] in HT2, He2, Hg. apply predirs_length in Er as Hlen.
  destruct (filling_redirs (ws ++ [w]) rs q' rs1 r1 (ps2, ret2) s1 s2) as (p2 & Hp2 & Hf2); [by apply Hfill|done|].
  rw /iteration. cbn [bindr fst snd mret K_ret]. rw HT2 HT. cbn [length]. split; [lia|]. split.
  - destruct Hg as (_ & _ & Hg). split_and!; cbn [fst snd]; [done|rw HT2; by eapply predirs_no_redir|rw HT2; lia..|].
    exists (ws ++ [w]), (rs ++ rs1), p2. rw length_app /=. split_and!; [done|lia|lia|done].
  - intros r Hr'. rw -HT Hsp. cbn [mbind option_bind]. rw Nat.add_1_r in Hr'.
    destruct r as [b s3|? ?|?| |? ?], (pargs (Datatypes.S (length ws)) r1) as [[[ws2 rs2] r2]|]; try done. cbn in Hr' |- *.
    destruct Hr' as (HT3 & He3 & Hrm & Hb). cbn [fst snd] in *. destruct Hg as (_ & _ & Hg).
    split_and!; cbn [fst snd]; [done..|rw length_app; lia|]. intros ws' rs' q'' Hq'' Ha' Hf'. injection Hq'' as <-.
    destruct (filling_redirs (ws' ++ [w]) rs' q' rs1 r1 (ps2, ret2) s1 s2) as (p2' & Hp2' & Hf2'); [by apply Hfill|done|].
    destruct (Hb (ws' ++ [w]) (rs' ++ rs1) p2') as (Hb1 & p3 & Hp3 & Hf3); [done|rw length_app /=; lia|done|].
    rw -!app_assoc /= in Hb1, Hf3. split; [done|]. by exists p3.
Qed.
Lemma parseargs_out n ps p s : args_pre n (ps, p, O) s ->
  outcome (parseargs (Some x) ps p es n s) (pargs 0 (toks ps)) (args_post (ps, p, O) s).
Proof.
  intros Hpre. rw /parseargs. pose proof (proj1 (proj2 (proj2 Hpre))) as Hn. revert Hpre Hn.
  apply (outcome_loop (fun a : nat * ptr * nat => length (toks a.1.1)) (args_pre n) (fun a => pargs a.2 (toks a.1.1)) args_post).
  clear - Ht ok. intros [[ps p] argc] s Hpre. pose proof Hpre as (Hps & Hnr & Hn & Hr & ws & rs & q & Hq & Ha & Hl & Hf). cbn [fst snd] in *. subst p argc.
  pose proof Hf as (Hs & _).
  destruct (peek_run (bytes_of_string "|)&;") ps s n) as (ps1 & Hpk & Hr1 & HT1); [done|lia|by apply (bool_decide_unpack _)..|].
  run Hpk. rw starts_stop. destruct (gettoken_run ps1 s n) as (ps2 & tk & [q1 e1] & Hg & Hr2 & Htok); [done|lia|]. rw HT1 in Htok.
  destruct (toks ps) as [|[w|c] l] eqn:E.
  - run Hg. destruct Htok as [-> HT2]. rw /iteration. cbn [Z.eqb mret K_ret fst snd]. rw E. by apply args_done; [|lia].
  - run Hg. destruct Htok as (-> & <- & HT2). change (chr "a" =? 0) with false. cbv iota. rw Z.eqb_refl when_false.
    destruct (filling_arg ws rs q (q1, e1) n s Hf Hl) as (s1 & Hrun & Hroom & Hf1). pose proof Hrun as Hrun'. run Hrun'.
    rw Nat.add_1_r. destruct (MAXARGS <=? Datatypes.S (length ws))%nat eqn:Em.
    { eapply iteration_panic; [|done]. cbn [fst snd]. rw E. cbn [pargs]. by rw Em. }
    apply Nat.leb_gt in Em. rw when_false -Nat.add_1_r. rw /mbind /K_bind.
    apply (args_step n ps (Some q) (length ws) (q1, e1) l s s1); [done..| |done|done|].
    + intros ws' rs' q' [= <-] Hlen Hf'. destruct (filling_arg ws' rs' q (q1, e1) n s Hf') as (s1' & Hrun' & _ & Hf1'); [lia|].
      rw -Hlen Hrun in Hrun'. by simplify_eq.
    + exists q. split; [done|]. rw -HT2. cbn [length] in Hn, Hr. apply parseredirs_out; [apply Hf1|lia|rw HT2; lia|rw HT2 Hroom; lia].
  - destruct (is_stop c) eqn:Ec.
    + rw /iteration. cbn [mret K_ret fst snd]. rw E. cbn [pargs]. cbn [no_redir] in Hnr. rw Hnr Ec. by apply args_done; [|lia].
    + run Hg. destruct Htok as (-> & _ & Hc). destruct (sym_not_word c Hc) as [-> ->]. cbn [negb]. eapply iteration_panic; [|done].
      cbn [fst snd]. rw E. cbn [pargs]. cbn [no_redir] in Hnr. by rw Hnr Ec.
Qed.
End args.

(** ** Commands, pipelines and lines *)

Lemma outcome_then {A R R'} (r : res (shell S) A) (o : option R) (g : R -> option R')
    (P : R -> A -> shell S -> Prop) (Q : R' -> A -> shell S -> Prop) :
  outcome r o P -> (forall x a s', o = Some x -> P x a s' -> outcome (Ok a s') (g x) Q) -> outcome r (o ≫= g) Q.
Proof. rw /outcome. destruct r as [a s1|e s1|s1| |s1 k], o as [x|]; cbn; intros H1 H2; try done. by apply (H2 x a s1). Qed.
Lemma panic_out {A R} msg m n s (f : unit -> K (shell S) A) (Q : R -> A -> shell S -> Prop) : cstr (cstring msg) = Some m ->
  outcome ((when true (sh_panic msg) ≫= f) n s) None Q.
Proof.
  intros Hm. pose proof (sh_panic_out (A:=unit) (R:=unit) msg m n s (fun _ _ _ => True) Hm) as H. rw /when /mbind /K_bind.
  by destruct (sh_panic msg n s).
Qed.

(** What the parsing functions return: the rest of the tokens, and a command. *)
Definition parsed s (ts : list (tok span)) (x : ast span * list (tok span)) (b : nat * ptr) s' : Prop :=
  toks b.1 = x.2 /\ (b.1 <= es)%nat /\ (length x.2 <= length ts)%nat /\ grown s s' (2 * (length ts - length x.2) + 1) /\
  exists i, b.2 = Some i /\ tree (sh_cmds s') i x.1.
Definition parses (n k : nat) (f : nat -> nat -> K (shell S) (nat * ptr)) (pf : list (tok span) -> option (ast span * list (tok span))) : Prop :=
  forall ps s, holds s -> (ps <= es)%nat -> (length (toks ps) < k)%nat -> (2 * length (toks ps) + 1 <= sh_room s)%nat ->
    outcome (f ps es n s) (pf (toks ps)) (parsed s (toks ps)).

Lemma peek_tok d ps s n : holds s -> (ps <= es)%nat -> is_sym d = true -> d <> chr ">" -> exists ps',
  peek ps es (d :: [0]) n s = Ok (ps', is_tok d (toks ps)) s /\ (ps <= ps' <= es)%nat /\ toks ps' = toks ps.
Proof.
  intros Hs Hps Hd Hgt. destruct (peek_run [d] ps s n) as (ps' & Hrun & Hr & HT); [done..| |by repeat constructor|].
  - intros H%list_elem_of_singleton. by subst d.
  - exists ps'. rw starts_one // in Hrun. by intros ->.
Qed.
Lemma gettoken_tok d ps s n : holds s -> (ps <= es)%nat -> is_tok d (toks ps) = true -> exists ps' tw,
  gettoken ps es n s = Ok (ps', tw) s /\ (ps <= ps' <= es)%nat /\ toks ps' = tail (toks ps) /\ length (toks ps) = Datatypes.S (length (toks ps')).
Proof.
  intros Hs Hps Hd. destruct (gettoken_run ps s n) as (ps' & tk & w & Hrun & Hr & Htok); [done..|].
  exists ps', (tk, w). apply is_tok_inv in Hd. rw Hd in Htok. destruct Htok as (_ & HT & _). split_and!; [done|lia..|done|by rw Hd HT].
Qed.

Lemma parseblock_out n k line pl ps s : parses n k line pl -> holds s -> (ps <= es)%nat -> is_tok (chr "(") (toks ps) = true ->
  (length (toks ps) <= k)%nat -> (length (toks ps) < n)%nat -> (2 * length (toks ps) + 1 <= sh_room s)%nat ->
  outcome (parseblock line ps es n s) (pexec pl (toks ps)) (parsed s (toks ps)).
Proof.
  intros Hline Hs Hps Hb Hk Hn Hr. rw /pexec /parseblock Hb.
  destruct (peek_tok (chr "(") ps s n) as (ps1 & Hpk & Hr1 & HT1); [done..|]. run Hpk. rw Hb when_false.
  destruct (gettoken_tok (chr "(") ps1 s n) as (ps2 & tw & Hg & Hr2 & HT2 & Hl2); [done|lia|by rw HT1|]. run Hg. rw HT1 in HT2, Hl2. destruct tw as [tk w].
  rw -HT2. eapply outcome_bind; [apply Hline; [done|lia..]|]. intros [a r] [ps3 p] s3 _ (HT3 & He3 & Hl3 & Hg3 & i & Hp & Htree).
  cbn [fst snd] in *. subst p. pose proof (proj1 Hg3) as Hs3.
  destruct (peek_tok (chr ")") ps3 s3 n) as (ps4 & Hpk & Hr4 & HT4); [done..|]. run Hpk. rw HT3. destruct (is_tok (chr ")") r) eqn:Ec; [|by eapply panic_out].
  rw when_false. destruct (gettoken_tok (chr ")") ps4 s3 n) as (ps5 & tw & Hg & Hr5 & HT5 & Hl5); [done|lia|by rw HT4 HT3|]. run Hg.
  rw HT4 HT3 in HT5, Hl5. destruct tw. rw -HT5. destruct Hg3 as (_ & Hp3 & Hrm3).
  eapply outcome_then; [apply parseredirs_out; [done|lia..]|]. intros [rs r'] [ps6 p6] s6 Hpr (HT6 & He6 & Hg6 & j & Hj & Hch).
  cbn [fst snd] in *. apply predirs_length in Hpr. split_and!; cbn [fst snd]; [done..|lia| |].
  - destruct Hg6 as (? & ? & ?). split_and!; [done|by etrans|lia].
  - exists j. split; [done|]. eapply tree_chain; [done|]. eapply tree_mono; [|done]. apply Hg6.
Qed.
Lemma simple_out n line ps s : holds s -> (ps <= es)%nat -> is_tok (chr "(") (toks ps) = false ->
  (length (toks ps) < n)%nat -> (2 * length (toks ps) + 1 <= sh_room s)%nat ->
  outcome ((c ← execcmd; '(ps, ret) ← parseredirs c ps es; '(ps, ret, argc) ← parseargs c ps ret es; set_arg c argc None None;; mret (ps, ret)) n s)
    (pexec line (toks ps)) (parsed s (toks ps)).
Proof.
  intros Hs Hps Hb Hn Hr. rw /pexec Hb.
  destruct (alloc_run (args_at []) n s) as (s1 & Hal & (Hs1 & Hp1 & Hr1) & _ & Hx); [done|lia|]. run Hal.
  assert (('(ws, rs, r) ← pargs 0 (toks ps); Some (redirect (AExec ws) rs, r)) =
    '(rs, r) ← predirs (toks ps); '(ws, rs', r') ← pargs 0 r; Some (redirect (AExec ws) (rs ++ rs'), r')) as ->.
  { rw pargs_redirs. destruct (predirs (toks ps)) as [[rs r]|]; [|done]. cbn. by destruct (pargs 0 r) as [[[? ?] ?]|]. }
  eapply outcome_bind; [apply parseredirs_out; [done|done|done|lia]|].
  intros [rs r] [ps2 p2] s2 Hpr Hrd. pose proof Hrd as (HT2 & He2 & (_ & _ & Hr2) & _). cbn [fst snd] in *.
  assert (filling (sh_cmds s) [] [] (length (sh_cmds s)) s1) as Hf1 by (split_and!; done).
  destruct (filling_redirs _ _ _ _ _ _ _ _ _ Hf1 Hrd) as (q2 & Hq2 & Hf2). cbn [snd] in Hq2. subst p2.
  apply predirs_no_redir in Hpr as Hnr. apply predirs_length in Hpr. rw -HT2.
  eapply outcome_bind; [apply (parseargs_out (sh_cmds s)); split_and!; cbn [fst snd]; [done|by rw HT2|rw HT2; lia..|]|].
  { exists [], rs, q2. split_and!; [done|done|cbn; rw /MAXARGS; lia|done..]. }
  intros [[ws rs'] r'] [[ps3 p3] argc] s3 Hpa (HT3 & He3 & Hr3 & Hpost). cbn [fst snd] in *.
  destruct (Hpost [] rs q2) as (-> & p & -> & Hs3 & Hp3 & Hx3 & Hch); [done..|]. cbn [app] in *.
  apply pargs_sound in Hpa as (its & Hits & -> & -> & _ & Hl); [|rw /MAXARGS; lia]. cbn [Nat.add] in Hl.
  assert (length (toks ps2) = length (item_toks its) + length r')%nat as Hlen by (by rw Hits length_app).
  pose proof (length_item_toks its) as Hlen'. pose proof (set_arg_run _ (item_words its) None None _ n s3 Hs3 Hx3 Hl (or_introl eq_refl)) as Hrun.
  rw list_insert_id // in Hrun. run Hrun. split_and!; cbn [fst snd]; [done..|rw HT2 in Hlen; lia| |].
  - split_and!; [done..|]. cbn. rw HT2 in Hlen. lia.
  - exists p. split; [done|]. by eapply tree_chain.
Qed.
Lemma parseexec_out n k line pl ps s : parses n k line pl -> holds s -> (ps <= es)%nat -> (length (toks ps) <= k)%nat ->
  (length (toks ps) < n)%nat -> (2 * length (toks ps) + 1 <= sh_room s)%nat ->
  outcome (parseexec line ps es n s) (pexec pl (toks ps)) (parsed s (toks ps)).
Proof.
  intros Hline Hs Hps Hk Hn Hr. rw /parseexec.
  destruct (peek_tok (chr "(") ps s n) as (ps1 & Hpk & Hr1 & HT1); [done..|]. run Hpk. destruct (is_tok (chr "(") (toks ps)) eqn:Eb.
  - rw -HT1. apply (parseblock_out n k); rw ?HT1; [done..|lia|done|done|done|done].
  - rw -HT1. apply simple_out; rw ?HT1; [done|lia|done..].
Qed.

(** Two commands joined by an operator. *)
Lemma join_parsed (node : ptr -> ptr -> cmd) (join : ast span -> ast span -> ast span) s ts a r i s1 x ps' p s2 n :
  (forall h p x y l r, h !! p = Some (node (Some x) (Some y)) -> tree h x l -> tree h y r -> tree h p (join l r)) ->
  grown s s1 (2 * (length ts - Datatypes.S (length r)) + 1) -> tree (sh_cmds s1) i a -> (length r < length ts)%nat ->
  (2 * length ts + 1 <= sh_room s)%nat ->
  parsed s1 r x (ps', p) s2 ->
  outcome ((c ← alloc (node (Some i) p); mret (ps', c)) n s2) (Some (join a x.1, x.2)) (parsed s ts).
Proof.
  intros Hnode (_ & Hp1 & Hr1) Hi Hl Hroom (HT & He & Hlx & (Hs2 & Hp2 & Hr2) & j & Hj & Htj). cbn [fst snd] in *. subst p.
  destruct (alloc_run (node (Some i) (Some j)) n s2) as (s3 & Hal & (Hs3 & Hp3 & Hr3) & Hc & Hx); [done|lia|]. run Hal.
  split_and!; cbn [fst snd]; [done..|lia| |].
  - split_and!; [done|etrans; [exact Hp1|etrans; [exact Hp2|exact Hp3]]|lia].
  - eexists. split; [done|]. eapply Hnode; [exact Hx|eapply tree_mono; [etrans; [exact Hp2|exact Hp3]|done]|by eapply tree_mono].
Qed.

Lemma parsepipe_out n k line pl j ps s : parses n k line pl -> holds s -> (ps <= es)%nat -> (length (toks ps) <= k)%nat ->
  (length (toks ps) < n)%nat -> (length (toks ps) < j)%nat -> (2 * length (toks ps) + 1 <= sh_room s)%nat ->
  outcome (parsepipe j line ps es n s) (ppipe j pl (toks ps)) (parsed s (toks ps)).
Proof.
  intros Hline. revert ps s. induction j as [|j IH]; intros ps s Hs Hps Hk Hn Hj Hr; [lia|]. cbn [parsepipe ppipe].
  eapply outcome_bind; [by apply (parseexec_out n k)|]. intros [a r] [ps1 p] s1 _ (HT1 & He1 & Hl1 & Hg1 & i & Hp & Hi). cbn [fst snd] in *. subst p.
  pose proof Hg1 as (Hs1 & _ & Hr1). destruct (peek_tok (chr "|") ps1 s1 n) as (ps2 & Hpk & Hr2 & HT2); [done..|]. run Hpk. rw HT1.
  destruct (is_tok (chr "|") r) eqn:Eb; cbn [negb]; [|split_and!; cbn [fst snd]; [by rw HT2|lia|done..|by exists i]].
  destruct (gettoken_tok (chr "|") ps2 s1 n) as (ps3 & tw & Hg & Hr3 & HT3 & Hl3); [done|lia|by rw HT2 HT1|]. run Hg. destruct tw.
  rw HT2 HT1 in HT3, Hl3. rw -HT3. eapply outcome_bind; [apply IH; [done|lia..]|]. intros x [ps4 p4] s4 _ Hx.
  destruct x as [b r']. apply (join_parsed PIPE APipe s (toks ps) a (toks ps3) i s1 (b, r')); [|by rw -Hl3|done|lia|done|done].
  intros h x y y' l' r'' ? ? ?. by exists y, y'.
Qed.

Lemma is_tok_tail d (ts : list (tok span)) : is_tok d ts = true -> length ts = Datatypes.S (length (tail ts)).
Proof. intros ->%is_tok_inv. done. Qed.
Lemma pbacks_step (a : ast span) ts : pbacks a ts = if is_tok (chr "&") ts then pbacks (ABack a) (tail ts) else (a, ts).
Proof. by destruct ts. Qed.
(** Each [&] puts the command in the background once more. *)
Definition backed (a : nat * ptr) s (_ : unit) (b : nat * ptr) s' : Prop := forall i x, a.2 = Some i -> tree (sh_cmds s) i x ->
  let y := pbacks x (toks a.1) in
  toks b.1 = y.2 /\ (b.1 <= es)%nat /\ (length y.2 <= length (toks a.1))%nat /\ grown s s' (length (toks a.1) - length y.2) /\
  exists j, b.2 = Some j /\ tree (sh_cmds s') j y.1.
Lemma backed_step ps b ps2 s s1 i r : is_tok (chr "&") (toks ps) = true -> toks ps2 = tail (toks ps) -> grown s s1 1 ->
  sh_cmds s1 !! length (sh_cmds s) = Some (BACK (Some i)) ->
  backed (ps2, Some (length (sh_cmds s))) s1 tt b r -> backed (ps, Some i) s tt b r.
Proof.
  intros Eb HT (_ & Hp & Hr) Hx H j x [= <-] Hj. cbn [fst snd] in *. apply is_tok_tail in Eb as Hl. rw pbacks_step Eb -HT.
  destruct (H (length (sh_cmds s)) (ABack x)) as (H1 & H2 & H3 & (Hs2 & Hp2 & Hr2) & H5); [done| |].
  { exists i. split; [done|]. by eapply tree_mono. }
  cbn [fst snd] in *. rw -HT in Hl. split_and!; [done..|lia| |done]. split_and!; [done|by etrans|lia].
Qed.
Lemma parsebacks_out n i ps s : holds s -> (ps <= es)%nat -> (length (toks ps) < n)%nat -> (length (toks ps) <= sh_room s)%nat ->
  outcome (parsebacks ps (Some i) es n s) (Some tt) (backed (ps, Some i) s).
Proof.
  intros Hs Hps Hn Hr. rw /parsebacks.
  apply (outcome_loop (fun b : nat * ptr => length (toks b.1))
    (fun b s => holds s /\ (b.1 <= es)%nat /\ (length (toks b.1) <= sh_room s)%nat /\ exists i, b.2 = Some i)
    (fun _ => Some tt) backed) with (a := (ps, Some i)); [|by eauto|done].
  clear - Ht. intros [ps p] s (Hs & Hps & Hr & i & Hp). cbn [fst snd] in *. subst p.
  destruct (peek_tok (chr "&") ps s n) as (ps1 & Hpk & Hr1 & HT1); [done..|]. run Hpk. destruct (is_tok (chr "&") (toks ps)) eqn:Eb; cbn [negb].
  - destruct (gettoken_tok (chr "&") ps1 s n) as (ps2 & tw & Hg & Hr2 & HT2 & Hl2); [done|lia|by rw HT1|]. run Hg. destruct tw. rw HT1 in HT2, Hl2.
    destruct (alloc_run (BACK (Some i)) n s) as (s1 & Hal & Hg1 & Hc & Hx); [done|lia|]. run Hal. pose proof Hg1 as (Hs1 & Hp1 & Hrm).
    rw /iteration. cbn [mret K_ret fst snd]. split; [lia|]. split; [split_and!; [done|lia|lia|by eexists]|].
    intros r Ho. destruct r; try done. cbn in Ho |- *. by eapply backed_step.
  - rw /iteration. cbn [mret K_ret fst snd outcome]. intros i' a' [= <-] Hi'. cbn [fst snd]. rw pbacks_step Eb. cbn [fst snd].
    split_and!; [done|lia..| |by exists i]. rw Nat.sub_diag. by apply grown_refl.
Qed.

Lemma parseline_out n j : (j <= n)%nat -> parses n j (parseline j) (pline j).
Proof.
  induction j as [|j IH]; intros Hjn ps s Hs Hps Hj Hr; [lia|]. specialize (IH ltac:(lia)). cbn [parseline pline].
  eapply outcome_bind; [apply (parsepipe_out n j); [done..|lia|lia|lia|done]|].
  intros [a r] [ps1 p] s1 _ (HT1 & He1 & Hl1 & Hg1 & i & Hp & Hi). cbn [fst snd] in *. subst p. pose proof Hg1 as (Hs1 & Hp1 & Hr1).
  apply (outcome_bind (parsebacks ps1 (Some i) es) _ n s1 (Some tt) (fun _ => let '(a, r) := pbacks a r in
    if is_tok (chr ";") r then '(b, r) ← pline j (tail r); Some (AList a b, r) else Some (a, r)) (backed (ps1, Some i) s1)).
  { rw -HT1 in Hl1. apply parsebacks_out; [done|done|lia|]. rw -HT1 in Hr1. lia. }
  intros [] [ps2 p] s2 _ Hb. specialize (Hb i a eq_refl Hi). cbn [fst snd] in Hb. rw HT1 in Hb.
  destruct (pbacks a r) as [a' r']. cbn [fst snd] in Hb. destruct Hb as (HT2 & He2 & Hl2 & (Hs2 & Hp2 & Hr2) & k & Hk & Htk). subst p.
  assert (grown s s2 (2 * (length (toks ps) - length r') + 1)) as Hg2 by (split_and!; [done|by etrans|lia]).
  destruct (peek_tok (chr ";") ps2 s2 n) as (ps3 & Hpk & Hr3 & HT3); [done..|]. run Hpk. rw HT2.
  destruct (is_tok (chr ";") r') eqn:Eb; cbn [negb]; [|split_and!; cbn [fst snd]; [by rw HT3|lia|lia|done|by exists k]].
  destruct (gettoken_tok (chr ";") ps3 s2 n) as (ps4 & tw & Hg & Hr4 & HT4 & Hl4); [done|lia|by rw HT3 HT2|]. run Hg. destruct tw.
  rw HT3 HT2 in HT4, Hl4. rw -HT4. eapply outcome_bind; [apply IH; [done|lia|lia|destruct Hg2 as (_ & _ & ?); lia]|].
  intros [b r''] [ps5 p5] s5 _ Hx.
  apply (join_parsed LIST AList s (toks ps) a' (toks ps4) k s2 (b, r'')); [|by rw -Hl4|done|lia|done|done].
  intros h x y y' l' r0 ? ? ?. by exists y, y'.
Qed.
End sh.
#[export] Existing Instance shell_ok.
