(* ===== verification/ShSpec.v ===== *)
(** * The shell parses its language

    [parsecmd] of [sh.c], on the characters of the line buffer, accepts exactly
    the lines whose tokens the grammar derives, and builds on the heap the
    command the grammar gives them; afterwards every word of the command is a
    NUL-terminated string in the buffer. *)

From Stdlib Require Import Ascii.
From S2P Require Import Prelude Mem KString Spinlock Machine Printf Ulib UlibSpec Sh ShGrammar ShParse.

(** ** Words in the text *)

Lemma lex_starts pos d r : is_word d = true -> exists e l, lex pos (d :: r) = TWord (pos, e) :: l.
Proof.
  rw /is_word. intros [Hw%negb_true_iff Hs%negb_true_iff]%andb_prop. cbn [lex]. rw Hw Hs.
  destruct (lex (S pos) r) as [|[[q e]|c] l]; cbn [glue]; [by eauto| |by eauto]. destruct (_ =? _)%nat; eauto.
Qed.

(** A maximal run of word characters of [r], which starts at [pos]. *)
Definition word_at (pos : nat) (r : list Z) (w : span) : Prop :=
  (pos <= w.1 < w.2)%nat /\ (forall i, (w.1 <= i < w.2)%nat -> exists c, r !! (i - pos)%nat = Some c /\ is_word c = true) /\
  (forall c, r !! (w.2 - pos)%nat = Some c -> is_word c = false).
Lemma word_at_cons pos c r w : word_at (S pos) r w -> word_at pos (c :: r) w.
Proof.
  intros (Hr & Hi & He). split_and!; [lia..| |].
  - intros i Hi'. replace (i - pos)%nat with (S (i - S pos)) by lia. by apply Hi.
  - intros d. replace (w.2 - pos)%nat with (S (w.2 - S pos)) by lia. apply He.
Qed.
Lemma word_at_one pos c r : is_word c = true -> (forall e l, lex (S pos) r <> TWord (S pos, e) :: l) -> word_at pos (c :: r) (pos, S pos).
Proof.
  intros Hc Hr. split_and!; cbn [fst snd]; [lia..| |].
  - intros i Hi. assert (i = pos) as -> by lia. exists c. by rw Nat.sub_diag.
  - intros d. replace (S pos - pos)%nat with 1%nat by lia. destruct r as [|d' r]; [done|]. intros [= ->].
    destruct (is_word d) eqn:Ed; [|done]. destruct (lex_starts (S pos) d r Ed) as (e & l & E). by apply Hr in E.
Qed.
Lemma word_at_grow pos c r e : is_word c = true -> word_at (S pos) r (S pos, e) -> word_at pos (c :: r) (pos, e).
Proof.
  intros Hc (Hr & Hi & He). cbn [fst snd] in *. split_and!; cbn [fst snd]; [lia..| |].
  - intros i Hi'. destruct (decide (i = pos)) as [->|]; [exists c; by rw Nat.sub_diag|].
    replace (i - pos)%nat with (S (i - S pos)) by lia. apply Hi. lia.
  - intros d. replace (e - pos)%nat with (S (e - S pos)) by lia. apply He.
Qed.
Lemma lex_words pos r w : TWord w ∈ lex pos r -> word_at pos r w.
Proof.
  revert pos w. induction r as [r IH] using (induction_ltof1 _ length). intros pos w. destruct r as [|c r]; [by intros ?%elem_of_nil|].
  assert (forall w, TWord w ∈ lex (S pos) r -> word_at (S pos) r w) as Hr by (intros; apply IH; [rw /ltof /=; lia|done]).
  assert (forall w, TWord w ∈ lex (S pos) r -> word_at pos (c :: r) w) as Hr' by (intros; by apply word_at_cons, Hr).
  cbn [lex]. destruct (is_ws c) eqn:Ew; [apply Hr'|]. destruct (is_sym c) eqn:Es.
  { destruct r as [|d r]; [by intros ?%list_elem_of_singleton|]. destruct (_ && _).
    - intros [?|Hw]%elem_of_cons; [done|]. do 2 apply word_at_cons. apply IH; [rw /ltof /=; lia|done].
    - intros [?|Hw]%elem_of_cons; [done|]. by apply Hr'. }
  assert (is_word c = true) as Hc by by rw /is_word Ew Es. destruct (lex (S pos) r) as [|[[q e]|x] l] eqn:El; cbn [glue].
  - intros [= ->]%list_elem_of_singleton. apply word_at_one; [done|]. by rw El.
  - destruct (Nat.eqb_spec q (S pos)) as [->|Hq].
    + intros [[= ->]|Hw]%elem_of_cons; [|apply Hr'; by right]. apply word_at_grow; [done|]. apply Hr. by left.
    + intros [[= ->]|Hw]%elem_of_cons; [|by apply Hr']. apply word_at_one; [done|]. rw El. by intros ? ? [= ].
  - intros [[= ->]|Hw]%elem_of_cons; [|by apply Hr']. apply word_at_one; [done|]. by rw El.
Qed.

(** ** Terminating the words *)

Definition terminate (ws : list span) (buf : list Z) : list Z := fold_left (fun b w => <[w.2 := 0]> b) ws buf.
Definition word_text (t : list Z) (w : span) : list Z := take (w.2 - w.1) (drop w.1 t).

Lemma length_terminate ws buf : length (terminate ws buf) = length buf.
Proof. rw /terminate. revert buf. induction ws as [|w ws IH]; intros buf; [done|]. by rw /= IH length_insert. Qed.
Lemma terminate_app ws ws' buf : terminate (ws ++ ws') buf = terminate ws' (terminate ws buf).
Proof. apply fold_left_app. Qed.
Lemma terminate_other ws buf i : i ∉ ws.*2 -> terminate ws buf !! i = buf !! i.
Proof.
  rw /terminate. revert buf. induction ws as [|w ws IH]; intros buf H; [done|]. rw fmap_cons in H. apply not_elem_of_cons in H as [Hw H].
  rw /= IH // list_lookup_insert_ne //.
Qed.
Lemma terminate_at ws buf e : e ∈ ws.*2 -> (e < length buf)%nat -> terminate ws buf !! e = Some 0.
Proof.
  revert buf. induction ws as [|w ws IH]; intros buf He Hl; [by apply elem_of_nil in He|].
  change (terminate (w :: ws) buf) with (terminate ws (<[w.2 := 0]> buf)). destruct (decide (e ∈ ws.*2)) as [Hin|Hn].
  - apply IH; [done|]. by rw length_insert.
  - rw terminate_other //. rw fmap_cons in He. apply elem_of_cons in He as [->|He]; [by rw list_lookup_insert_eq|done].
Qed.

(** Once all words are terminated, each is a string of its own. *)
Lemma terminate_word t z ws w : 0 ∉ t -> Forall (word_at 0 t) ws -> w ∈ ws ->
  cstr (drop w.1 (terminate ws (t ++ 0 :: z))) = Some (word_text t w).
Proof.
  intros H0 Hws Hw. pose proof Hws as Hall. rw Forall_forall in Hall. destruct (Hall w Hw) as (Hr & Hi & He).
  set (buf := terminate ws (t ++ 0 :: z)). assert (w.2 <= length t)%nat as Hle.
  { destruct (Hi (w.2 - 1)%nat) as (c & Hc & _); [lia|]. apply lookup_lt_Some in Hc. lia. }
  assert (length buf = length t + S (length z))%nat as Hlb by (rw length_terminate length_app //).
  assert (drop w.1 buf = word_text t w ++ 0 :: drop (S w.2) buf) as ->.
  { rw -(take_drop (w.2 - w.1) (drop w.1 buf)) drop_drop. replace (w.1 + (w.2 - w.1))%nat with w.2 by lia.
    rw (drop_S buf 0 w.2); [|apply terminate_at; [by apply list_elem_of_fmap_2|rw length_app /=; lia]]. f_equal.
    rw /word_text. apply list_eq. intros i. rw !lookup_take. case_decide; [|done]. rw !lookup_drop /buf terminate_other.
    - rw lookup_app_l //. lia.
    - intros (w' & E & Hw')%list_elem_of_fmap. destruct (Hi (w.1 + i)%nat) as (c & Hc & Hwc); [lia|].
      destruct (Hall w' Hw') as (_ & _ & He'). rw !Nat.sub_0_r in Hc, He'. rw -E Hc in He'. by rw He' in Hwc. }
  apply cstr_app_nul. apply Forall_forall. intros c Hc%elem_take_in%elem_drop_in ->. done.
Qed.

Section sh.
Context {S : Type} {sys : Usys S} {ok : StreamOk S}.
Implicit Types (s : shell S) (n : nat).

Definition set_buf s (buf : list Z) : shell S := Shell (sh_sys s) buf (sh_cmds s) (sh_room s).
Lemma store_run e n s : (e < length (sh_buf s))%nat -> store e 0 n s = Ok tt (set_buf s (<[e := 0]> (sh_buf s))).
Proof. intros He. rw /store /mbind /K_bind /= (proj2 (Nat.ltb_lt _ _)) //. Qed.

Lemma nonnull_run p n s : nonnull (Some p) n s = Ok p s.
Proof. done. Qed.
Lemma getc_run i c n s : sh_cmds s !! i = Some c -> getc (Some i) n s = Ok c s.
Proof. intros Hc. by rw /getc /mbind /K_bind /= Hc. Qed.
Lemma args_at_lookup ws i : (length ws < MAXARGS)%nat -> exists argv eargv, args_at ws = EXEC argv eargv /\
  ((i < length ws)%nat -> exists w, ws !! i = Some w /\ argv !! i = Some (Some w.1) /\ eargv !! i = Some (Some w.2)) /\
  argv !! length ws = Some None.
Proof.
  intros Hl. eexists _, _. split; [done|]. split.
  - intros Hi. destruct (lookup_lt_is_Some_2 ws i Hi) as [w Hw]. exists w. by rw !lookup_app_l ?length_fmap // !list_lookup_fmap Hw.
  - rw lookup_app_r length_fmap // Nat.sub_diag. destruct (MAXARGS - length ws)%nat eqn:E; [lia|done].
Qed.
Lemma nulargs_run ws argv eargv n s : args_at ws = EXEC argv eargv -> (length ws < MAXARGS)%nat -> (MAXARGS <= n)%nat ->
  Forall (fun w => (w.2 < length (sh_buf s))%nat) ws ->
  nulargs argv eargv n s = Ok tt (set_buf s (terminate ws (sh_buf s))).
Proof.
  intros Ea Hl Hn Hb. rw /nulargs /loop.
  enough (forall j pre post s, ws = pre ++ post -> (length post < j)%nat -> Forall (fun w => (w.2 < length (sh_buf s))%nat) ws ->
    loop_n j (fun i : nat => match argv !! i with
      | None => undef | Some None => mret (inr tt)
      | Some (Some _) => match eargv !! i with Some e => e ← nonnull e; store e 0;; mret (inl (i + 1)%nat) | None => undef end end) (length pre) n s =
    Ok tt (set_buf s (terminate post (sh_buf s)))) as H by (apply (H n [] ws s); [done|lia|done]).
  clear s Hb Hn. intros j. induction j as [|j IH]; intros pre post s Hws Hj Hb; [lia|]. cbn [loop_n].
  destruct (args_at_lookup ws (length pre) Hl) as (argv' & eargv' & Ea' & Hi & Hend). rw Ea in Ea'. injection Ea' as <- <-.
  destruct post as [|w post].
  - rw app_nil_r in Hws. subst pre. rw Hend. by destruct s.
  - destruct Hi as (w' & Hw & Ha1 & Ha2); [rw Hws length_app /=; lia|].
    rw Hws list_lookup_middle // in Hw. injection Hw as <-. rw Ha1 Ha2.
    rw Forall_forall in Hb.
    assert (w ∈ ws) as Hin by (rw Hws elem_of_app elem_of_cons; auto).
    rw (bind_Ok _ _ _ _ _ _ (nonnull_run w.2 n s)) (bind_Ok _ _ _ _ _ _ (store_run w.2 n s (Hb w Hin))). cbn [mret K_ret bindr].
    specialize (IH (pre ++ [w]) post (set_buf s (<[w.2 := 0]> (sh_buf s)))). rw length_app /= in IH. rw IH; [done| |simpl in Hj; lia|].
    + by rw Hws -app_assoc.
    + apply Forall_forall. intros x Hx. rw length_insert. by apply Hb.
Qed.
Lemma nulterminate_run a j i n s : tree (sh_cmds s) i a -> (height a <= j)%nat -> (MAXARGS <= n)%nat ->
  Forall (fun w => (w.2 < length (sh_buf s))%nat) (ast_words a) ->
  nulterminate j (Some i) n s = Ok tt (set_buf s (terminate (ast_words a) (sh_buf s))).
Proof.
  intros Ht Hj Hn. revert a i s Ht Hj. induction j as [|j IH]; intros a i s Ht Hj Hb; [destruct a; simpl in Hj; lia|].
  cbn [nulterminate]. destruct a as [ws|a op w|l r|l r|a]; cbn [tree height ast_words] in *.
  - destruct Ht as [Hc Hl]. rw (bind_Ok _ _ _ _ _ _ (getc_run _ _ _ _ Hc)). destruct (args_at ws) as [argv eargv| | | |] eqn:Ea; try done.
    by apply nulargs_run.
  - destruct Ht as (c & Hc & Ht). apply Forall_app in Hb as [Hb Hw]. rw Forall_singleton in Hw.
    rw (bind_Ok _ _ _ _ _ _ (getc_run _ _ _ _ Hc)) (bind_Ok _ _ _ _ _ _ (IH a c s Ht ltac:(lia) Hb)).
    rw (bind_Ok _ _ _ _ _ _ (nonnull_run _ _ _)) store_run; [by rw terminate_app|rw /= length_terminate; exact Hw].
  - destruct Ht as (x & y & Hc & Hx & Hy). apply Forall_app in Hb as [Hb Hb'].
    rw (bind_Ok _ _ _ _ _ _ (getc_run _ _ _ _ Hc)) (bind_Ok _ _ _ _ _ _ (IH l x s Hx ltac:(lia) Hb)).
    rw (IH r y (set_buf s (terminate (ast_words l) (sh_buf s))) Hy); [by rw terminate_app|lia|]. by rw /= length_terminate.
  - destruct Ht as (x & y & Hc & Hx & Hy). apply Forall_app in Hb as [Hb Hb'].
    rw (bind_Ok _ _ _ _ _ _ (getc_run _ _ _ _ Hc)) (bind_Ok _ _ _ _ _ _ (IH l x s Hx ltac:(lia) Hb)).
    rw (IH r y (set_buf s (terminate (ast_words l) (sh_buf s))) Hy); [by rw terminate_app|lia|]. by rw /= length_terminate.
  - destruct Ht as (c & Hc & Ht). rw (bind_Ok _ _ _ _ _ _ (getc_run _ _ _ _ Hc)). apply IH; [done|lia|done].
Qed.

(** ** The whole parse *)

(** The command [p] of the heap as [runcmd] sees it: its words are strings. *)
Fixpoint denotes (buf : list Z) (h : list cmd) (p : nat) (a : ast (list Z)) : Prop :=
  match a with
  | AExec ws => exists argv eargv, h !! p = Some (EXEC argv eargv) /\ argv !! length ws = Some None /\
      forall i w, ws !! i = Some w -> exists q, argv !! i = Some (Some q) /\ cstr (drop q buf) = Some w
  | ARedir a op w => exists c q e, h !! p = Some (REDIR (Some c) (Some q) (Some e) (mode_of op) (fd_of op)) /\
      cstr (drop q buf) = Some w /\ denotes buf h c a
  | APipe l r => exists x y, h !! p = Some (PIPE (Some x) (Some y)) /\ denotes buf h x l /\ denotes buf h y r
  | AList l r => exists x y, h !! p = Some (LIST (Some x) (Some y)) /\ denotes buf h x l /\ denotes buf h y r
  | ABack a => exists c, h !! p = Some (BACK (Some c)) /\ denotes buf h c a
  end.
Lemma tree_denotes t buf h p a : (forall w, w ∈ ast_words a -> cstr (drop w.1 buf) = Some (word_text t w)) -> tree h p a ->
  denotes buf h p (ast_map (word_text t) a).
Proof.
  revert p. induction a as [ws|a IH op w|l IHl r IHr|l IHl r IHr|a IH]; intros p Hw; cbn [tree denotes ast_map ast_words] in *.
  - intros [Hc Hl]. destruct (args_at_lookup ws 0 Hl) as (argv & eargv & Ea & _ & Hend). exists argv, eargv.
    split_and!; [by rw -Ea|by rw length_fmap|]. intros i w Hi. rw list_lookup_fmap in Hi. apply fmap_Some in Hi as (x & Hx & ->).
    destruct (args_at_lookup ws i Hl) as (argv' & eargv' & Ea' & Hi & _). rw Ea in Ea'. injection Ea' as <- <-.
    destruct Hi as (x' & Hx' & Ha & _); [by eapply lookup_lt_Some|]. pose proof (eq_trans (eq_sym Hx) Hx') as [= <-]. exists x.1. split; [done|].
    by apply Hw, (list_elem_of_lookup_2 _ i).
  - intros (c & Hc & Ht). exists c, w.1, w.2. split_and!; [done| |].
    + apply Hw, elem_of_app. right. by left.
    + apply IH; [|done]. intros x Hx. apply Hw, elem_of_app. by left.
  - intros (x & y & Hc & Hx & Hy). exists x, y. split_and!; [done|apply IHl|apply IHr]; try done; intros; apply Hw, elem_of_app; auto.
  - intros (x & y & Hc & Hx & Hy). exists x, y. split_and!; [done|apply IHl|apply IHr]; try done; intros; apply Hw, elem_of_app; auto.
  - intros (c & Hc & Ht). exists c. split; [done|]. by apply IH.
Qed.

Lemma strlen_text t z : 0 ∉ t -> Z.of_nat (length t) < 2 ^ 32 -> Ulib.strlen (t ++ 0 :: z) = Some (Z.of_nat (length t)).
Proof.
  intros H0 Hl. rw /Ulib.strlen. assert (forall k, Ulib.strlen_loop k (t ++ 0 :: z) = Some (k + Z.of_nat (length t))) as H.
  { clear Hl. induction t as [|c t IH]; intros k; [by rw /= Z.add_0_r|]. apply not_elem_of_cons in H0 as [Hc H0]. cbn [app Ulib.strlen_loop length].
    rw (proj2 (Z.eqb_neq c 0)) // IH //. f_equal. lia. }
  rw H /= u32_small //. lia.
Qed.
Lemma peek_end t z w0 ps n s : 0 ∉ t -> holds t z w0 s -> (ps <= length t)%nat -> exists ps',
  peek ps (length t) [0] n s = Ok (ps', false) s /\ (ps' <= length t)%nat /\ (ps' = length t <-> toks t ps = []).
Proof.
  intros H0 Hs Hps. destruct (skip_ws_run t z w0 (length t - ps) ps s n) as (ps' & Hrun & Hr & HT & Hw); [done|lia|].
  exists ps'. rw /peek (bind_Ok _ _ _ _ _ _ Hrun) -HT. destruct (decide (ps' = length t)) as [->|Hne].
  - rw (bind_Ok _ _ _ _ _ _ (deref_end t z w0 s n Hs)). split_and!; [done|lia|]. by rw toks_end.
  - destruct (lookup_lt_is_Some_2 t ps') as [c Hc]; [lia|]. rw (bind_Ok _ _ _ _ _ _ (deref_text t z w0 s ps' c n Hs Hc)).
    split_and!; [by destruct (c =? 0)|lia|]. split; [done|]. rw /toks (toks_cons t ps' c Hc). cbn [lex]. rw (Hw c Hc).
    destruct (is_sym c); [destruct (drop _ t) as [|d t2]; [done|]; by destruct (_ && _)|].
    destruct (lex _ _) as [|[[q e]|x] l]; cbn [glue]; try done. by destruct (_ =? _)%nat.
Qed.

Lemma leftovers_text l m : cstr l = Some m -> exists t, fmt_text false (cstring ("leftovers: %s" ++ nl)) [AStr (Some l)] = Some t.
Proof.
  intros Hm. eexists. let x := eval vm_compute in (cstring ("leftovers: %s" ++ nl)) in change (cstring ("leftovers: %s" ++ nl)) with x.
  cbv -[cstr u8 app fmap list_fmap]. rw Hm. reflexivity.
Qed.

(** What follows the parse of the line: the check for leftovers, and the
    termination of the words. *)
Lemma parsecmd_end t z w0 n s ps i a r : 0 ∉ t -> holds t z w0 s -> (ps <= length t)%nat -> toks t ps = r -> tree (sh_cmds s) i a ->
  (height a <= n)%nat -> (MAXARGS <= n)%nat -> Forall (word_at 0 t) (ast_words a) ->
  let rest := ('(s, _) ← peek ps (length t) [0];
    when (negb (s =? length t)%nat) (a ← rest_of s; Ulib.fprintf 2 ("leftovers: %s" ++ nl) [a];; sh_panic "syntax");;
    nulterminate n (Some i);; mret (Some i) : K (shell S) ptr) in
  match r with
  | [] => exists s', rest n s = Ok (Some i) s' /\ sh_sys s' = w0 /\ denotes (sh_buf s') (sh_cmds s') i (ast_map (word_text t) a)
  | _ => exists s', rest n s = Panic "exit(1)" s'
  end.
Proof.
  intros H0 Hs Hps HT Ht Hh Hn Hw. destruct (peek_end t z w0 ps n s) as (ps' & Hpk & Hr & Hend); [done..|]. rw HT in Hend. destruct Hs as [Hs Hsys]. cbn zeta.
  rw (bind_Ok _ _ _ _ _ _ Hpk). destruct r as [|tk r].
  - rw (proj2 Hend eq_refl) Nat.eqb_refl when_false. eexists. split.
    + rw (bind_Ok _ _ _ _ _ _ (nulterminate_run a n i n s Ht Hh Hn _)); [done|]. rw Hs. eapply Forall_impl; [exact Hw|].
      intros w (Hw1 & Hw2 & _). destruct (Hw2 (w.2 - 1)%nat) as (c & Hc & _); [lia|]. apply lookup_lt_Some in Hc. rw length_app /=. lia.
    + split; [done|]. cbn. apply tree_denotes; [|done]. intros w Hin. rw Hs. by apply terminate_word.
  - destruct (Nat.eqb_spec ps' (length t)) as [E|_]; [by apply Hend in E|]. cbn [negb].
    assert (cstr (drop ps' (sh_buf s)) = Some (drop ps' t)) as Hc.
    { rw Hs drop_app_le //. apply cstr_app_nul, Forall_forall. by intros c Hc%elem_drop_in ->. }
    assert (wp (Ulib.fprintf 2 ("leftovers: %s" ++ nl) [AStr (Some (drop ps' (sh_buf s)))]) n s (fun _ _ => True)) as Hp.
    { destruct (leftovers_text _ _ Hc) as [txt Htxt].
      eapply wp_mono; [apply (vprintf_writes (ok := shell_ok) 2 false _ _ txt); [by repeat constructor|exact Htxt]|done]. }
    apply wp_run in Hp as ([] & s1 & Hrun & _).
    pose proof (sh_panic_out (A:=unit) (R:=unit) "syntax" _ n s1 (fun _ _ _ => True) eq_refl) as Hpan.
    rw /when /rest_of /mbind /K_bind. cbn [bindr Prelude.gets mret K_ret]. rw Hrun. cbn [bindr].
    destruct (sh_panic "syntax" n s1) as [| e s2| | |]; try done. cbn in Hpan |- *. subst e. by eexists.
Qed.

(** The outcome of parsing the line [t]. *)
Definition parse_outcome t s (r : res (shell S) ptr) : Prop :=
  match r with
  | Ok p s' => sh_sys s' = sh_sys s /\ exists i a, p = Some i /\ is_line (lex 0 t) a /\
      denotes (sh_buf s') (sh_cmds s') i (ast_map (word_text t) a)
  | Panic e _ => e = "exit(1)" /\ forall a, ~ is_line (lex 0 t) a
  | _ => False
  end.
Lemma parsecmd_out t z n s : 0 ∉ t -> sh_buf s = t ++ 0 :: z -> Z.of_nat (length t) < 2 ^ 32 ->
  (length t + MAXARGS < n)%nat -> (2 * length t + 1 <= sh_room s)%nat -> parse_outcome t s (parsecmd 0 n s).
Proof.
  intros H0 Hbuf Hlen Hn Hroom. rw /parse_outcome. pose proof (lex_length 0 t) as Hlex. assert (toks t 0 = lex 0 t) as HT0 by done.
  rw /parsecmd (bind_Ok _ _ _ _ _ _ (eq_refl : Prelude.gets sh_buf n s = Ok (sh_buf s) s)) Hbuf drop_0 strlen_text // bind_found Nat2Z.id Nat.add_0_l.
  pose proof (parseline_out t z (sh_sys s) H0 n n ltac:(lia) 0%nat s (conj Hbuf eq_refl) ltac:(lia) ltac:(rw HT0; lia) ltac:(rw HT0; lia)) as Ho. rw HT0 in Ho.
  destruct (pline n (lex 0 t)) as [[a r]|] eqn:Ep.
  - apply pline_sound in Ep as Hsound. destruct Hsound as (ts1 & Hts & Hline).
    destruct (parseline n 0 (length t) n s) as [[ps p] s1| | | |] eqn:Er; try done. destruct Ho as (HT & Hps & Hl & (Hs1 & _) & i & Hp & Htree).
    cbn [fst snd] in *. subst p. rw (bind_Ok _ _ _ _ _ _ Er). cbv beta iota.
    pose proof (proj1 height_bound _ _ Hline) as Hh. assert (length ts1 <= length t)%nat by (rw Hts length_app in Hlex; lia).
    assert (Forall (word_at 0 t) (ast_words a)) as Hw.
    { apply Forall_forall. intros w Hin. apply lex_words. rw Hts elem_of_app. left. by eapply (proj1 words_in). }
    pose proof (parsecmd_end t z (sh_sys s) n s1 ps i a r H0 Hs1 Hps HT Htree ltac:(lia) ltac:(lia) Hw) as Hend. cbn zeta in Hend. destruct r as [|tk r].
    + destruct Hend as (s' & Hrun & Hsys & Hd). match goal with |- context [(peek _ _ _ ≫= ?f) _ _] => assert ((peek ps (length t) [0] ≫= f) n s1 = Ok (Some i) s') as -> by exact Hrun end.
      split; [done|]. exists i, a. split_and!; [done| |done]. by rw Hts app_nil_r.
    + destruct Hend as (s' & Hrun). match goal with |- context [(peek _ _ _ ≫= ?f) _ _] => assert ((peek ps (length t) [0] ≫= f) n s1 = Panic "exit(1)" s') as -> by exact Hrun end.
      split; [done|]. intros b Hb. apply (pline_exact n) in Hb; [|lia]. congruence.
  - rw /mbind /K_bind. destruct (parseline n 0 (length t) n s) as [|e s1| | |]; try done. cbn in Ho |- *. subst e. split; [done|].
    intros b Hb. apply (pline_exact n) in Hb; [|lia]. congruence.
Qed.

End sh.
