(* ===== verification/ShRun.v ===== *)
(** * The shell runs the command it parsed

    [runcmd] of [sh.c] follows pointers through the heap of structures and
    reads its words from the line buffer.  [run_ast] is what the abstract
    command means, as a sequence of system calls; the two have the same
    outcomes. *)

From Stdlib Require Import Ascii.
From S2P Require Import Prelude Mem KString Spinlock Machine Printf Ulib UlibSpec Sh ShGrammar ShParse ShSpec.
Import Ulib.

(** ** Printing a string *)

Section print.
Context {S : Type} {sys : Usys S}.
Implicit Types (fd : Z).

Lemma ret_bind {A B} (a : A) (f : A -> K S B) : (mret a ≫= f) = f a.
Proof. done. Qed.
(** Only the characters before the NUL matter. *)
Lemma putstr_cstr fd l w : cstr l = Some w -> putstr fd l = putstr fd (w ++ [0]).
Proof.
  revert w. induction l as [|c l IH]; intros w Hw; [done|]. simpl in Hw. cbn [putstr].
  destruct (Z.eqb_spec c 0) as [->|Hc]; [by simplify_eq|].
  assert (exists w', cstr l = Some w' /\ w = c :: w') as (w' & Hw' & ->).
  { destruct c; [done|..]; destruct (cstr l); simplify_eq/=; eauto. }
  cbn [app putstr]. by rw (proj2 (Z.eqb_neq c 0)) // (IH w').
Qed.
Lemma vprintf_cstr fd st fmt l w : cstr l = Some w ->
  vprintf fd st fmt [AStr (Some l)] = vprintf fd st fmt [AStr (Some (w ++ [0]))].
Proof.
  intros Hw. revert st. induction fmt as [|c fmt IH]; intros st; [done|]. cbn [vprintf]. rw !IH.
  cbn [va_str]. rw !ret_bind. cbn [default from_option]. by rw (putstr_cstr fd l w Hw).
Qed.
End print.

Section run.
Context {S : Type} {sys : Usys S}.
Local Abbreviation M := (K (shell S)).

(** ** What a command means *)

Definition sarg (w : list Z) : arg := AStr (Some (w ++ [0])).
Fixpoint run_ast (a : ast (list Z)) : M unit :=
  match a with
  | AExec [] => exit 1
  | AExec (w :: ws) => _ ← sys_exec w (w :: ws); fprintf 2 ("exec %s failed" ++ nl) [sarg w]
  | ARedir a op w =>
    _ ← sys_close (fd_of op);
    r ← sys_open w (mode_of op);
    when (r <? 0) (fprintf 2 ("open %s failed" ++ nl) [sarg w];; exit 1);;
    run_ast a
  | AList l r =>
    pid ← fork1;
    when (pid =? 0) (run_ast l);;
    _ ← sys_wait;
    run_ast r
  | APipe l r =>
    '(e, (p0, p1)) ← sys_pipe;
    when (e <? 0) (sh_panic "pipe");;
    pid ← fork1;
    when (pid =? 0) (_ ← sys_close 1; _ ← sys_dup p1; _ ← sys_close p0; _ ← sys_close p1; run_ast l);;
    pid ← fork1;
    when (pid =? 0) (_ ← sys_close 0; _ ← sys_dup p0; _ ← sys_close p0; _ ← sys_close p1; run_ast r);;
    _ ← sys_close p0; _ ← sys_close p1; _ ← sys_wait; _ ← sys_wait; mret tt
  | ABack a =>
    pid ← fork1;
    when (pid =? 0) (run_ast a)
  end;;
  exit 0.

(** ** Outcomes over the same memory *)

Context (buf : list Z) (h : list cmd) (room : nat).
Definition mem_is (s : shell S) : Prop := sh_buf s = buf /\ sh_cmds s = h /\ sh_room s = room.

Fixpoint keeps {A} (r : res (shell S) A) : Prop :=
  match r with
  | Ok _ s => mem_is s
  | Sched _ k => forall s, mem_is s -> keeps (k s)
  | _ => True
  end.
(** The same outcome, as long as the memory is the same whenever the process is
    resumed. *)
Fixpoint same {A} (r r' : res (shell S) A) : Prop :=
  match r, r' with
  | Sched s k, Sched s' k' => s = s' /\ forall t, mem_is t -> same (k t) (k' t)
  | _, _ => r = r'
  end.
Lemma same_refl {A} (r : res (shell S) A) : same r r.
Proof. induction r; simpl; auto. Qed.
Lemma same_bind {A B} (r r' : res (shell S) A) (f g : A -> shell S -> res (shell S) B) : same r r' -> keeps r' ->
  (forall a s, mem_is s -> same (f a s) (g a s)) -> same (bindr r f) (bindr r' g).
Proof.
  intros Hr Hk Hfg. revert r' Hr Hk. induction r as [a s|e s|s| |s k IH]; intros r' Hr Hk; destruct r' as [a' s'|e' s'|s'| |s' k'];
    simpl in *; simplify_eq; auto. destruct Hr as [-> Hr]. split; [done|]. auto.
Qed.

(** Computations that leave the memory of the shell alone. *)
Definition Keeps {A} (m : M A) : Prop := forall n s, mem_is s -> keeps (m n s).
Lemma keeps_bindr {A B} (r : res (shell S) A) (f : A -> shell S -> res (shell S) B) :
  keeps r -> (forall a s, mem_is s -> keeps (f a s)) -> keeps (bindr r f).
Proof. intros Hr Hf. induction r as [a s1|e s1|s1| |s1 k IH]; simpl in *; auto. Qed.
Lemma Keeps_bind {A B} (m : M A) (f : A -> M B) : Keeps m -> (forall a, Keeps (f a)) -> Keeps (m ≫= f).
Proof. intros Hm Hf n s Hs. apply keeps_bindr; [by apply Hm|]. intros a s'. apply Hf. Qed.
Lemma Keeps_ret {A} (a : A) : Keeps (mret a).
Proof. by intros n s Hs. Qed.
Lemma Keeps_lift {A} (m : K S A) : Keeps (lift m).
Proof.
  intros n s Hs. rw /lift. generalize (m n (sget s)) as r. intros r. revert s Hs.
  induction r as [a s1|e s1|s1| |s1 k IH]; intros s Hs; simpl; auto.
Qed.
Lemma Keeps_when c (m : M unit) : Keeps m -> Keeps (when c m).
Proof. destruct c; [done|intros _; apply Keeps_ret]. Qed.
Lemma Keeps_panic {A} msg : Keeps (panic msg : M A).
Proof. by intros n s Hs. Qed.
Lemma Keeps_undef {A} : Keeps (undef : M A).
Proof. by intros n s Hs. Qed.
Lemma Keeps_spin {A} : Keeps (spin : M A).
Proof. by intros n s Hs. Qed.
Lemma Keeps_arr_get {A} (l : list A) i : Keeps (arr_get l i : M A).
Proof. intros n s Hs. rw /arr_get. destruct (i <? 0); [done|]. by destruct (l !! _). Qed.
Lemma Keeps_loop {A B} (body : A -> M (A + B)) a : (forall a, Keeps (body a)) -> Keeps (loop body a).
Proof.
  intros Hb n s Hs. rw /loop. generalize n at 1 as j. intros j. revert a s Hs. induction j as [|j IH]; intros a s Hs; [done|].
  cbn [loop_n]. apply keeps_bindr; [by apply Hb|]. intros [a'|b] s' Hs'; [by apply IH|done].
Qed.
Lemma Keeps_putc fd c : Keeps (putc fd c).
Proof. apply Keeps_bind; [apply Keeps_lift|intros; apply Keeps_ret]. Qed.
Lemma Keeps_for_each {A} (l : list A) (f : A -> M unit) : (forall x, Keeps (f x)) -> Keeps (for_each l f).
Proof. intros Hf. induction l as [|x l IH]; cbn [for_each]; [apply Keeps_ret|]. by apply Keeps_bind. Qed.
Lemma Keeps_for_fold {A B} (l : list A) (b : B) (f : B -> A -> M B) : (forall b x, Keeps (f b x)) -> Keeps (for_fold l b f).
Proof. intros Hf. revert b. induction l as [|x l IH]; intros b; cbn [for_fold]; [apply Keeps_ret|]. by apply Keeps_bind. Qed.
Lemma Keeps_printint fd x base sgn : Keeps (printint fd x base sgn).
Proof.
  rw /printint. destruct (_ && (_ =? - 2 ^ 31)); [apply Keeps_undef|]. apply Keeps_bind.
  - generalize 33%nat as fuel. intros fuel. generalize (@nil Z) as b. generalize (if sgn && (i32 x <? 0) then u32 (- i32 x) else u32 (i32 x)) as y.
    induction fuel as [|fuel IH]; intros y b; cbn [printint_loop]; [apply Keeps_spin|]. destruct (negb _); [apply Keeps_undef|].
    apply Keeps_bind; [apply Keeps_arr_get|]. intros d. destruct (negb _); [apply IH|apply Keeps_ret].
  - intros b. destruct (_ && _); [apply Keeps_undef|]. apply Keeps_for_each. intros c. apply Keeps_putc.
Qed.
Lemma Keeps_printptr fd x : Keeps (printptr fd x).
Proof.
  rw /printptr. apply Keeps_bind; [apply Keeps_putc|intros _]. apply Keeps_bind; [apply Keeps_putc|intros _].
  apply Keeps_bind; [|intros _; apply Keeps_ret]. apply Keeps_for_fold. intros y i. apply Keeps_bind; [apply Keeps_arr_get|intros d].
  apply Keeps_bind; [apply Keeps_putc|intros _; apply Keeps_ret].
Qed.
Lemma Keeps_putstr fd l : Keeps (putstr fd l).
Proof.
  induction l as [|c l IH]; cbn [putstr]; [apply Keeps_undef|]. destruct (c =? 0); [apply Keeps_ret|].
  apply Keeps_bind; [apply Keeps_putc|done].
Qed.
Lemma Keeps_va (ap : list arg) : Keeps (va_int ap) /\ Keeps (va_ptr ap) /\ Keeps (va_str ap).
Proof. destruct ap as [|[] ap]; split_and!; apply Keeps_ret || apply Keeps_undef. Qed.
Lemma Keeps_vprintf fd st fmt ap : Keeps (vprintf fd st fmt ap).
Proof.
  revert st ap. induction fmt as [|c fmt IH]; intros st ap; cbn [vprintf]; [apply Keeps_undef|].
  repeat match goal with |- Keeps (if ?b then _ else _) => destruct b end.
  all: repeat first [apply IH | apply Keeps_ret | apply Keeps_putc | apply Keeps_printint | apply Keeps_printptr | apply Keeps_putstr
    | apply Keeps_va | apply Keeps_bind; [|intros [? ?] || intros ?]].
Qed.
Lemma Keeps_put b i c : Keeps (put b i c).
Proof. rw /put. destruct (arr_ok b i); [apply Keeps_ret|apply Keeps_undef]. Qed.
Lemma Keeps_gets b max : Keeps (Ulib.gets b max).
Proof.
  apply Keeps_bind; [|intros [b' i]; apply Keeps_put]. apply Keeps_loop. intros [b' i]. destruct (negb _); [apply Keeps_ret|].
  apply Keeps_bind; [apply Keeps_lift|intros [cc l]]. destruct (cc <? 1); [apply Keeps_ret|].
  apply Keeps_bind; [apply Keeps_arr_get|intros c]. apply Keeps_bind; [apply Keeps_put|intros b2]. destruct (_ || _); apply Keeps_ret.
Qed.
Lemma Keeps_fork1 : Keeps fork1.
Proof.
  apply Keeps_bind; [apply Keeps_lift|intros pid]. apply Keeps_bind; [|intros []; apply Keeps_ret]. apply Keeps_when.
  apply Keeps_bind; [apply Keeps_vprintf|intros; apply Keeps_panic].
Qed.
Lemma Keeps_run_ast a : Keeps (run_ast a).
Proof.
  induction a as [ws|a IH op w|l IHl r IHr|l IHl r IHr|a IH]; cbn [run_ast]; (apply Keeps_bind; [|intros; apply Keeps_panic]).
  1: destruct ws as [|w ws]; [apply Keeps_panic|].
  all: repeat first [apply Keeps_lift | apply Keeps_fork1 | apply Keeps_vprintf | apply Keeps_panic | apply Keeps_ret | done | apply Keeps_when
    | apply Keeps_bind; [|intros [? [? ?]] || intros ?]].
Qed.

(** ** The same computations *)

Definition Same {A} (m m' : M A) : Prop := forall n s, mem_is s -> same (m n s) (m' n s).
Lemma Same_refl {A} (m : M A) : Same m m.
Proof. intros n s _. apply same_refl. Qed.
Lemma Same_bind {A B} (m m' : M A) (f g : A -> M B) : Same m m' -> Keeps m' -> (forall a, Same (f a) (g a)) -> Same (m ≫= f) (m' ≫= g).
Proof. intros Hm Hk Hf n s Hs. apply same_bind; [by apply Hm|by apply Hk|]. intros a s' Hs'. by apply Hf. Qed.
Lemma Same_when c m m' : Same m m' -> Same (when c m) (when c m').
Proof. destruct c; [done|intros _; apply Same_refl]. Qed.
Lemma Same_then {A B} (m m' : M A) (f : A -> M B) : Same m m' -> Same (m ≫= f) (m' ≫= f).
Proof.
  intros Hm n s Hs. specialize (Hm n s Hs). rw /mbind /K_bind. revert Hm. generalize (m n s) (m' n s). clear s Hs.
  intros r. induction r as [a s|e s|s| |s k IH]; intros r' Hr; destruct r' as [a' s'|e' s'|s'| |s' k']; simpl in *; simplify_eq; try done.
  - apply same_refl.
  - destruct Hr as [-> Hr]. split; [done|]. auto.
Qed.
(** A step that only reads the memory. *)
Lemma Same_read {A B} (m : M A) x (f : A -> M B) m' : (forall n s, mem_is s -> m n s = Ok x s) -> Same (f x) m' -> Same (m ≫= f) m'.
Proof. intros Hm Hf n s Hs. rw (bind_Ok _ _ _ _ _ _ (Hm n s Hs)). by apply Hf. Qed.

Lemma getc_mem i c n s : h !! i = Some c -> mem_is s -> getc (Some i) n s = Ok c s.
Proof. intros Hc (_ & Hh & _). apply getc_run. by rw Hh. Qed.
Lemma ustr_mem q w n s : cstr (drop q buf) = Some w -> mem_is s -> ustr q n s = Ok w s.
Proof. intros Hw (Hb & _). by rw /ustr /mbind /K_bind /= Hb Hw. Qed.
Lemma rest_of_mem q n s : mem_is s -> rest_of q n s = Ok (AStr (Some (drop q buf))) s.
Proof. intros (Hb & _). by rw /rest_of /mbind /K_bind /= Hb. Qed.
Lemma strings_mem ws argv n s : mem_is s -> argv !! length ws = Some None ->
  (forall i w, ws !! i = Some w -> exists q, argv !! i = Some (Some q) /\ cstr (drop q buf) = Some w) -> strings argv n s = Ok ws s.
Proof.
  intros Hs. revert argv. induction ws as [|w ws IH]; intros [|p argv] Hend Hw; try done; [by injection Hend as ->|].
  destruct (Hw O w eq_refl) as (q & [= ->] & Hq). cbn [strings]. rw (bind_Ok _ _ _ _ _ _ (ustr_mem q w n s Hq Hs)).
  rw (bind_Ok _ _ _ _ _ _ (IH argv Hend (fun i w => Hw (Datatypes.S i) w))). done.
Qed.
Lemma print_mem q w fmt : cstr (drop q buf) = Some w -> Same (a ← rest_of q; fprintf 2 fmt [a]) (fprintf 2 fmt [sarg w]).
Proof.
  intros Hw. eapply Same_read; [by intros; apply rest_of_mem|]. rw /fprintf (vprintf_cstr _ _ _ _ w Hw). apply Same_refl.
Qed.

Lemma run_exec ws i j : denotes buf h i (AExec ws) -> Same (runcmd (Datatypes.S j) (Some i)) (run_ast (AExec ws)).
Proof.
  intros (argv & eargv & Hc & Hend & Hw). cbn [runcmd run_ast]. eapply Same_read; [by intros; apply getc_mem|]. cbv beta iota.
  apply Same_then. destruct ws as [|w ws]; [rw Hend; apply Same_refl|]. destruct (Hw O w eq_refl) as (q & -> & Hq).
  eapply Same_read; [by intros; apply ustr_mem|]. eapply Same_read; [by intros; eapply (strings_mem (w :: ws))|].
  apply Same_bind; [apply Same_refl|apply Keeps_lift|intros r]. by apply print_mem.
Qed.

(** [runcmd] on the structure of a command does what the command means. *)
Lemma runcmd_same a j i : denotes buf h i a -> (height a <= j)%nat -> Same (runcmd j (Some i)) (run_ast a).
Proof.
  revert j i. induction a as [ws|a IH op w|l IHl r IHr|l IHl r IHr|a IH]; intros j i Hd Hj; (destruct j as [|j]; [simpl in Hj; lia|]); cbn [height] in Hj.
  { by apply run_exec. }
  - destruct Hd as (c & q & e & Hc & Hq & Hd). cbn [runcmd run_ast]. eapply Same_read; [by intros; apply getc_mem|]. apply Same_then.
    apply Same_bind; [apply Same_refl|apply Keeps_lift|intros _]. eapply Same_read; [by intros|].
    eapply Same_read; [by intros; apply ustr_mem|]. apply Same_bind; [apply Same_refl|apply Keeps_lift|intros r].
    apply Same_bind; [|by apply Keeps_when, Keeps_bind; [apply Keeps_vprintf|intros; apply Keeps_panic]|intros []; apply IH; [done|lia]].
    apply Same_when. eapply Same_read; [by intros; apply rest_of_mem|]. rw /fprintf (vprintf_cstr _ _ _ _ w Hq). apply Same_refl.
  - destruct Hd as (x & y & Hc & Hx & Hy). cbn [runcmd run_ast]. eapply Same_read; [by intros; apply getc_mem|]. apply Same_then.
    apply Same_bind; [apply Same_refl|apply Keeps_lift|intros [e [p0 p1]]].
    apply Same_bind; [apply Same_refl|apply Keeps_when, Keeps_bind; [apply Keeps_vprintf|intros; apply Keeps_panic]|intros []].
    apply Same_bind; [apply Same_refl|apply Keeps_fork1|intros pid]. apply Same_bind.
    { apply Same_when. do 4 (apply Same_bind; [apply Same_refl|apply Keeps_lift|intros _]). apply IHl; [done|lia]. }
    { apply Keeps_when. do 4 (apply Keeps_bind; [apply Keeps_lift|intros _]). apply Keeps_run_ast. }
    intros []. apply Same_bind; [apply Same_refl|apply Keeps_fork1|intros pid']. apply Same_then, Same_when.
    do 4 (apply Same_bind; [apply Same_refl|apply Keeps_lift|intros _]). apply IHr; [done|lia].
  - destruct Hd as (x & y & Hc & Hx & Hy). cbn [runcmd run_ast]. eapply Same_read; [by intros; apply getc_mem|]. apply Same_then.
    apply Same_bind; [apply Same_refl|apply Keeps_fork1|intros pid].
    apply Same_bind; [apply Same_when, IHl; [done|lia]|apply Keeps_when, Keeps_run_ast|intros []].
    apply Same_bind; [apply Same_refl|apply Keeps_lift|intros _]. apply IHr; [done|lia].
  - destruct Hd as (c & Hc & Hd). cbn [runcmd run_ast]. eapply Same_read; [by intros; apply getc_mem|]. apply Same_then.
    apply Same_bind; [apply Same_refl|apply Keeps_fork1|intros pid]. apply Same_when, IH; [done|lia].
Qed.
End run.
