(* ===== verification/ShMain.v ===== *)
(** * Main properties of the shell

    Reading a line, parsing it and running it. *)

From Stdlib Require Import Ascii.
From S2P Require Import Prelude Mem KString Spinlock Machine Printf Ulib UlibSpec Sh ShGrammar ShParse ShSpec ShRun.

Section main.
Context {S : Type} {sys : Usys S} {ok : StreamOk S}.
Implicit Types (s : shell S) (n : nat).

(** What a computation that leaves the memory alone returns. *)
Lemma wp_keeps {A} (m : K (shell S) A) n s Q : (forall buf h room, Keeps buf h room m) -> wp m n s Q ->
  wp m n s (fun a s' => Q a s' /\ sh_buf s' = sh_buf s /\ sh_cmds s' = sh_cmds s /\ sh_room s' = sh_room s).
Proof.
  intros Hk. rw /wp. specialize (Hk (sh_buf s) (sh_cmds s) (sh_room s) n s (conj eq_refl (conj eq_refl eq_refl))).
  destruct (m n s); try done.
Qed.

(** The line [getcmd] reads. *)
Lemma getcmd_wp n s : (1 <= length (sh_buf s))%nat -> (length (sh_buf s) < n)%nat ->
  wp (getcmd (Z.of_nat (length (sh_buf s)))) n s (fun r s' => exists l,
    input 0 (sh_sys s) = l ++ input 0 (sh_sys s') /\ sh_buf s' = l ++ replicate (length (sh_buf s) - length l) 0 /\
    (length l < length (sh_buf s))%nat /\ l = first_line (length (sh_buf s) - 1) (input 0 (sh_sys s)) /\
    output (sh_sys s') = output (sh_sys s) ++ chars 2 (bytes_of_string "$ ") /\ sh_room s' = sh_room s /\ r = (if (head (sh_buf s')) is Some 0 then -1 else 0)).
Proof.
  intros Hl Hn. rw /getcmd. apply wp_bind.
  eapply wp_mono; [apply wp_keeps; [intros; apply Keeps_vprintf|]; apply (vprintf_writes 2 false (cstring "$ ") [] [36; 32]); [by constructor|done]|].
  intros [] s1 ([Ho1 Hi1] & Hb1 & _ & Hr1). apply wp_bind, wp_gets. apply wp_bind.
  eapply wp_mono; [apply wp_keeps; [intros; apply Keeps_gets|]; apply gets_wp; [rw length_replicate Hb1; lia|lia]|].
  intros buf s2 ((l & Hin & -> & Hlen & Heol & Hend & Ho2) & Hb2 & _ & Hr2).
  pose proof (first_line_unique _ _ _ Hlen Heol Hend) as Hline. rw -Hin in Hline. apply wp_bind, wp_modify.
  set (N := length (sh_buf s)) in *. assert (length (sh_buf s1) = N) as -> by by rw Hb1.
  assert (0 :: drop (Datatypes.S (length l)) (replicate N 0) = replicate (N - length l) 0) as ->.
  { rw drop_replicate. replace (N - length l)%nat with (Datatypes.S (N - Datatypes.S (length l))) by lia. done. }
  set (s3 := Shell _ _ _ _). assert (exists c, sh_buf s3 !! O = Some c) as [c Hc].
  { apply lookup_lt_is_Some_2. cbn. rw length_app length_replicate. lia. }
  assert (deref O n s3 = Ok c s3) as Hd by (by rw /deref /mbind /K_bind /= Hc).
  apply wp_bind. rw {1}/wp Hd. cbn beta iota.
  assert (head (sh_buf s3) = Some c) as Hh by by rw head_lookup.
  assert (wp (if c =? 0 then mret (-1) else mret 0) n s3 (fun r s' => s' = s3 /\ r = (if (head (sh_buf s3)) is Some 0 then -1 else 0))) as Hw.
  { rw Hh. destruct (Z.eqb_spec c 0) as [->|Hc0]; apply wp_ret; split; try done. by destruct c. }
  eapply wp_mono; [exact Hw|]. intros r s' [-> ->]. pose proof (Hi1 0) as Hi. cbn in Hi, Hin, Hline, Ho1, Ho2 |- *.
  exists l. split_and!; [by rw -Hi Hin|done|lia| |by rw Ho2 Ho1|by rw /= Hr2 Hr1|done].
  rw -Hi. rw Nat2Z.id in Hline. exact Hline.
Qed.

Lemma cstr_split (b : list Z) : 0 ∈ b -> exists t z, b = t ++ 0 :: z /\ 0 ∉ t.
Proof. intros H. apply list_elem_of_split_l in H as (t & z & -> & Ht). eauto. Qed.

(** The text of a line in a buffer filled up with zeros. *)
Lemma text_of_line (l : list Z) k : (0 < k)%nat -> exists t z, l ++ replicate k 0 = t ++ 0 :: z /\ (0 ∉ t) /\ (t = l \/ exists l', l = t ++ 0 :: l').
Proof.
  intros Hk. destruct (decide (0 ∈ l)) as [Hin|Hin].
  - destruct (cstr_split l Hin) as (t & z & -> & Ht). exists t, (z ++ replicate k 0). rw -app_assoc. split_and!; [done|done|by right; exists z].
  - destruct k as [|k]; [lia|]. exists l, (replicate k 0). split_and!; [done|done|by left].
Qed.

(** ** Main properties *)

(** C9: the shell parses exactly its language.  On a line of any characters, of
    which the tokens are the words and symbols, [parsecmd] returns if and only
    if the grammar of commands derives them (with fewer than [MAXARGS] words
    in each command); it then returns the command derived, each word of it a
    NUL-terminated string, having made no system call; otherwise it exits with
    status 1.  It never reads or writes outside the line, and always terminates. *)
Theorem parsecmd_exact t z n s : 0 ∉ t -> sh_buf s = t ++ 0 :: z -> Z.of_nat (length t) < 2 ^ 32 ->
  (length t + MAXARGS < n)%nat -> (2 * length t + 1 <= sh_room s)%nat -> parse_outcome t s (parsecmd 0 n s).
Proof. apply parsecmd_out. Qed.

(** C10: the shell runs what the line means.  When the grammar derives the
    command [a] from a line, parsing it and running the structure it returns
    has the outcomes of [run_ast] on [a]: the same system calls, in the same
    order, with the words of the line. *)
Theorem shell_runs_command t z n s a : 0 ∉ t -> sh_buf s = t ++ 0 :: z -> Z.of_nat (length t) < 2 ^ 32 ->
  (length t + MAXARGS < n)%nat -> (2 * length t + 1 <= sh_room s)%nat -> is_line (lex 0 t) a ->
  exists s', sh_sys s' = sh_sys s /\ same (sh_buf s') (sh_cmds s') (sh_room s')
    ((c ← parsecmd 0; runcmd n c) n s) (run_ast (ast_map (word_text t) a) n s').
Proof.
  intros H0 Hbuf Hlen Hn Hroom Ha. pose proof (parsecmd_out t z n s H0 Hbuf Hlen Hn Hroom) as Ho. pose proof (lex_length 0 t) as Hl.
  rw /parse_outcome in Ho. destruct (parsecmd 0 n s) as [p s'|e s'| | |] eqn:E; try done; [|by destruct (proj2 Ho a)].
  destruct Ho as (Hsys & i & a' & -> & Ha' & Hd). exists s'. split; [done|].
  assert (a' = a) as ->.
  { apply (pline_exact n) in Ha; [|lia]. apply (pline_exact n) in Ha'; [|lia]. congruence. }
  pose proof (proj1 height_bound _ _ Ha) as Hh. rw (bind_Ok _ _ _ _ _ _ E).
  eapply runcmd_same; [done| |done]. rw height_map. lia.
Qed.

(** C34: the shell reads its input line by line.  Whatever the input, [getcmd]
    prints the prompt on the standard error and consumes exactly the first line
    of the input: the characters up to and including the first newline or
    carriage return, at most 99 of them, or all when the input ends before;
    they fill the 100-character buffer, the rest of which is zero.  It answers
    -1 exactly when the text (the line up to a NUL) is empty; otherwise parsing
    the text gives a command or the exit of the child with status 1, never an
    access out of bounds or an endless loop. *)
Theorem shell_handles_line n s : length (sh_buf s) = 100%nat -> (110 < n)%nat -> (201 <= sh_room s)%nat ->
  wp (getcmd 100) n s (fun r s' => exists t, let l := first_line 99 (input 0 (sh_sys s)) in
    input 0 (sh_sys s) = l ++ input 0 (sh_sys s') /\ sh_buf s' = l ++ replicate (100 - length l) 0 /\
    output (sh_sys s') = output (sh_sys s) ++ chars 2 (bytes_of_string "$ ") /\
    t `prefix_of` l /\ (0 ∉ t) /\ (t = l \/ exists l', l = t ++ 0 :: l') /\
    (t = [] /\ r = -1 \/ t <> [] /\ r = 0 /\ parse_outcome t s' (parsecmd 0 n s'))).
Proof.
  intros Hb Hn Hr. change 100 with (Z.of_nat 100). rw -Hb. eapply wp_mono; [apply getcmd_wp; lia|].
  intros r s' (l & Hin & Hbuf & Hl & El & Ho & Hroom & ->). rw Hb in Hbuf, Hl, El. cbn zeta. change (100 - 1)%nat with 99%nat in El. rw -El.
  destruct (text_of_line l (100 - length l)) as (t & z & E & Ht & Hpre); [lia|]. rw -Hbuf in E.
  rw Hb. exists t. split_and!; [done|done|done| |done|done|].
  - destruct Hpre as [-> |[l' ->]]; [done|by eexists].
  - rw E. destruct t as [|c t]; [by left|right]. split; [done|]. split; [cbn; destruct c; [by destruct Ht; left|done..]|].
    assert (length (c :: t) <= length l)%nat by (destruct Hpre as [-> |[l' ->]]; [done|rw length_app; lia]).
    apply (parsecmd_out _ z); [done..|lia|rw /MAXARGS; lia|lia].
Qed.
End main.

(** ** The theorems on concrete inputs *)

Definition demo_line : list Z := bytes_of_string "ls -l | (wc; cat<x) >>out & " ++ [10].
Definition demo_shell (t : list Z) : shell world := Shell two_lines (t ++ replicate (100 - length t) 0) [] 201.

Lemma demo_nonzero : 0 ∉ demo_line.
Proof. by apply (bool_decide_unpack _). Qed.
Definition demo_ast : ast span :=
  ABack (APipe (AExec [(0, 2); (3, 5)]) (ARedir (AList (AExec [(9, 11)]) (ARedir (AExec [(13, 16)]) (chr "<") (17, 18))) (chr "+") (22, 25)))%nat.
(** The line is derived by the grammar, and its words are the words one reads. *)
Lemma demo_derived : is_line (lex 0 demo_line) demo_ast.
Proof. apply (pline_exact 30); [apply Nat.ltb_lt; by vm_compute|by vm_compute]. Qed.
Lemma demo_words : ast_map (word_text demo_line) demo_ast =
  ABack (APipe (AExec [bytes_of_string "ls"; bytes_of_string "-l"])
    (ARedir (AList (AExec [bytes_of_string "wc"]) (ARedir (AExec [bytes_of_string "cat"]) (chr "<") (bytes_of_string "x"))) (chr "+") (bytes_of_string "out"))).
Proof. by vm_compute. Qed.

Lemma parsecmd_exact_witness : parse_outcome demo_line (demo_shell demo_line) (parsecmd 0 50%nat (demo_shell demo_line)).
Proof.
  apply (parsecmd_exact demo_line (replicate (99 - length demo_line) 0) 50 (demo_shell demo_line));
    [apply demo_nonzero|by vm_compute|by vm_compute|apply Nat.ltb_lt; by vm_compute|apply Nat.leb_le; by vm_compute].
Defined.
Lemma shell_runs_command_witness : exists s', sh_sys s' = two_lines /\ same (sh_buf s') (sh_cmds s') (sh_room s')
  ((c ← parsecmd 0; runcmd 50 c) 50%nat (demo_shell demo_line)) (run_ast (ast_map (word_text demo_line) demo_ast) 50%nat s').
Proof.
  apply (shell_runs_command demo_line (replicate (99 - length demo_line) 0) 50 (demo_shell demo_line) demo_ast);
    [apply demo_nonzero|by vm_compute|by vm_compute|apply Nat.ltb_lt; by vm_compute|apply Nat.leb_le; by vm_compute|apply demo_derived].
Defined.
Lemma shell_handles_line_witness :
  wp (getcmd 100) 120 (demo_shell []) (fun r s' => r = 0 /\ input 0 (sh_sys s') = bytes_of_string "cd" ++ [10]).
Proof.
  eapply wp_mono.
  - apply (shell_handles_line 120 (demo_shell [])).
    + by vm_compute.
    + apply Nat.ltb_lt. by vm_compute.
    + apply Nat.leb_le. by vm_compute.
  - intros r s' (t & Hin & Hbuf & _ & _ & _ & Ht & Hr). split.
    + destruct Hr as [[-> _]|(_ & -> & _)]; [|done]. exfalso. destruct Ht as [Ht|[l' Ht]]; vm_compute in Ht; done.
    + vm_compute in Hin. vm_compute. injection Hin as Hin. exact (eq_sym Hin).
Defined.
