(* ===== verification/Grep.v ===== *)
(** * [user/grep.c]

    The matcher of Kernighan and Pike and the loop that splits the input into
    lines.  A pattern or a text is the list of the characters before its NUL. *)

From Stdlib Require Import Ascii.
From S2P Require Import Prelude Mem KString Spinlock Machine Printf Ulib.
Import Ulib.

(** ** The matcher *)

(** [matchhere] calls itself on a shorter pattern; [matchstar] is its loop
    over the text for a pattern [c*re], [here] being [matchhere re]. *)
Fixpoint matchstar (here : list Z -> bool) (c : Z) (text : list Z) : bool :=
  if here text then true else
  match text with
  | [] => false
  | t :: text' => if (t =? c) || (c =? chr ".") then matchstar here c text' else false
  end.
Fixpoint matchhere (re text : list Z) : bool :=
  match re with
  | [] => true
  | r :: re1 =>
      let rest :=
        if (r =? chr "$") && (length re1 =? 0)%nat then (length text =? 0)%nat else
        match text with
        | [] => false
        | t :: text' => if (r =? chr ".") || (r =? t) then matchhere re1 text' else false
        end in
      match re1 with
      | s :: re2 => if s =? chr "*" then matchstar (matchhere re2) r text else rest
      | [] => rest
      end
  end.
(** [do { if(matchhere(re, text)) return 1; } while( *text++ != 0 );] *)
Fixpoint match_any (re text : list Z) : bool :=
  if matchhere re text then true else
  match text with [] => false | _ :: text' => match_any re text' end.
Definition match_ (re text : list Z) : bool :=
  match re with
  | r :: re1 => if r =? chr "^" then matchhere re1 text else match_any re text
  | [] => match_any re text
  end.

(** ** The lines *)

Section grep.
Context {S : Type} {sys : Usys S}.

(** [sizeof(buf)] *)
Definition BUFSZ : Z := 1024.

(** The inner loop, over the lines in [buf] from [p] on; the buffer and the
    place of the first byte after the last newline. *)
Definition grep_lines (pattern : list Z) (buf : list Z) : K S (list Z * Z) :=
  loop (fun '(buf, p) =>
    match strchr (drop (Z.to_nat p) buf) 10 with
    | None => undef
    | Some None => mret (inr (buf, p))
    | Some (Some k) =>
        let q := p + Z.of_nat k in
        let buf := arr_set buf q 0 in
        line ← (match cstr (drop (Z.to_nat p) buf) with Some l => mret l | None => undef end);
        if match_ pattern line then
          let buf := arr_set buf q 10 in
          sys_write 1 (take (Z.to_nat (q + 1 - p)) (drop (Z.to_nat p) buf));;
          mret (inl (buf, q + 1))
        else mret (inl (buf, q + 1))
    end) (buf, 0).

(** [memmove(buf, p, m)] within the buffer. *)
Definition shift (buf : list Z) (p m : Z) : list Z :=
  take (Z.to_nat m) (drop (Z.to_nat p) buf) ++ drop (Z.to_nat m) buf.

(** [buf] is static: it keeps what the previous call left in it. *)
Definition grep (pattern : list Z) (fd : Z) (buf : list Z) : K S (list Z) :=
  loop (fun '(buf, m) =>
    '(n, bs) ← sys_read fd (BUFSZ - m - 1);
    if negb (0 <? n) then mret (inr buf) else
    let buf := take (Z.to_nat m) buf ++ bs ++ drop (Z.to_nat m + length bs) buf in
    let m := m + n in
    buf ← put buf m 0;
    '(buf, p) ← grep_lines pattern buf;
    if 0 <? m then let m := m - p in mret (inl (shift buf p m, m)) else mret (inl (buf, m)))
    (buf, 0).

Definition grep_main (argv : list (list Z)) : K S unit :=
  let buf := replicate 1024 0 in
  match argv with
  | _ :: pattern :: files =>
      match files with
      | [] => _ ← grep pattern 0 buf; exit 0
      | _ =>
        _ ← for_fold files buf (fun buf f =>
          fd ← sys_open f 0;
          if fd <? 0 then printf ("grep: cannot open %s" ++ nl) [AStr (Some (f ++ [0]))];; exit 1
          else buf ← grep pattern fd buf; sys_close fd;; mret buf);
        exit 0
      end
  | _ => fprintf 2 ("usage: grep pattern [file ...]" ++ nl) [];; exit 1
  end.

End grep.
