(* ===== verification/GrepSpec.v ===== *)
(** * [grep] against its specification

    The matcher decides the language its pattern denotes; the loop prints the
    matching lines of its input, however [read] cuts it into pieces. *)

From Stdlib Require Import Ascii.
From S2P Require Import Prelude Mem KString Spinlock Machine Printf Ulib Grep.
Import Ulib.

(** ** Patterns *)

(** One character or any number of them; ["."] fits all. *)
Inductive elem := One (c : Z) | Many (c : Z).
Definition char_ok (c t : Z) : Prop := t = c \/ c = chr ".".

(** A pattern without its ["^"]: its elements, and whether it ends in ["$"]. *)
Fixpoint parse_re (re : list Z) : list elem * bool :=
  match re with
  | [] => ([], false)
  | r :: re1 =>
      match re1 with
      | s :: re2 =>
          if s =? chr "*" then let '(es, a) := parse_re re2 in (Many r :: es, a)
          else let '(es, a) := parse_re re1 in (One r :: es, a)
      | [] => if r =? chr "$" then ([], true) else ([One r], false)
      end
  end.

(** The texts a list of elements stands for. *)
Fixpoint lang (es : list elem) (p : list Z) : Prop :=
  match es with
  | [] => p = []
  | One c :: es' => exists t p', p = t :: p' /\ char_ok c t /\ lang es' p'
  | Many c :: es' => exists p1 p2, p = p1 ++ p2 /\ Forall (char_ok c) p1 /\ lang es' p2
  end.
(** A prefix of [text] is in the language, all of it if anchored. *)
Definition matches_at (ea : list elem * bool) (text : list Z) : Prop :=
  exists p q, text = p ++ q /\ lang ea.1 p /\ (ea.2 = true -> q = []).
(** The meaning of a whole pattern. *)
Definition denotes (re text : list Z) : Prop :=
  match re with
  | r :: re1 => if r =? chr "^" then matches_at (parse_re re1) text
                else exists u v, text = u ++ v /\ matches_at (parse_re re) v
  | [] => exists u v, text = u ++ v /\ matches_at (parse_re re) v
  end.

Lemma matches_one c es a text : matches_at (One c :: es, a) text <->
  exists t text', text = t :: text' /\ char_ok c t /\ matches_at (es, a) text'.
Proof.
  split.
  - intros (p & q & -> & (t & p' & -> & Hc & Hl) & Ha). exists t, (p' ++ q). split_and!; [done..|]. by exists p', q.
  - intros (t & text' & -> & Hc & (p & q & -> & Hl & Ha)). exists (t :: p), q. split_and!; [done| |done]. by exists t, p.
Qed.
Lemma matches_many c es a text : matches_at (Many c :: es, a) text <->
  exists u v, text = u ++ v /\ Forall (char_ok c) u /\ matches_at (es, a) v.
Proof.
  split.
  - intros (p & q & -> & (p1 & p2 & -> & Hf & Hl) & Ha). exists p1, (p2 ++ q). split_and!; [by rw app_assoc|done|]. by exists p2, q.
  - intros (u & v & -> & Hf & (p & q & -> & Hl & Ha)). exists (u ++ p), q. split_and!; [by rw app_assoc| |done]. by exists u, p.
Qed.

Lemma char_test c t : (t =? c) || (c =? chr ".") = true <-> char_ok c t.
Proof. rw orb_true_iff !Z.eqb_eq. done. Qed.

Lemma matchstar_ok here c es a text : (forall t, here t = true <-> matches_at (es, a) t) ->
  matchstar here c text = true <-> matches_at (Many c :: es, a) text.
Proof.
  intros Hh. rw matches_many. induction text as [|t text IH]; simpl.
  - destruct (here []) eqn:E.
    + split; [|done]. intros _. exists [], []. split_and!; [done|apply Forall_nil_2|by apply Hh].
    + split; [done|]. intros (u & v & Euv & _ & Hm). symmetry in Euv. apply app_eq_nil in Euv as [-> ->].
      apply Hh in Hm. congruence.
  - destruct (here (t :: text)) eqn:E.
    + split; [|done]. intros _. exists [], (t :: text). split_and!; [done|apply Forall_nil_2|by apply Hh].
    + destruct ((t =? c) || (c =? chr ".")) eqn:Ec.
      * rw IH. apply char_test in Ec. split; intros (u & v & Euv & Hf & Hm).
        -- exists (t :: u), v. split_and!; [by rw Euv|by constructor|done].
        -- destruct u as [|t' u]; simpl in Euv; [subst v; apply Hh in Hm; congruence|]. simplify_eq.
           apply Forall_cons in Hf as [_ Hf]. by exists u, v.
      * split; [done|]. intros (u & v & Euv & Hf & Hm). destruct u as [|t' u]; simpl in Euv.
        -- subst v. apply Hh in Hm. congruence.
        -- simplify_eq. apply Forall_cons in Hf as [Hc _]. apply char_test in Hc. congruence.
Qed.

Lemma matchhere_ok re text : matchhere re text = true <-> matches_at (parse_re re) text.
Proof.
  enough (forall n re text, (length re <= n)%nat -> (matchhere re text = true <-> matches_at (parse_re re) text)) as H by by eapply H.
  clear re text. induction n as [|n IH]; intros re text Hn.
  { destruct re; simpl in Hn; [|lia]. split; [|done]. intros _. by exists [], text. }
  destruct re as [|r re1]; [split; [|done]; intros _; by exists [], text|]. simpl in Hn.
  assert (forall es a, (forall t, matchhere re1 t = true <-> matches_at (es, a) t) ->
    (match text with [] => false | t :: text' => if (r =? chr ".") || (r =? t) then matchhere re1 text' else false end) = true
    <-> matches_at (One r :: es, a) text) as Hone.
  { intros es a Hre. rw matches_one. destruct text as [|t text]; [split; [done|]; by intros (? & ? & ? & _)|].
    assert ((r =? chr ".") || (r =? t) = (t =? r) || (r =? chr ".")) as -> by by rw orb_comm Z.eqb_sym.
    destruct ((t =? r) || (r =? chr ".")) eqn:Ec.
    - rw Hre. apply char_test in Ec. split; [intros Hm; by exists t, text|]. by intros (? & ? & [= <- <-] & _ & ?).
    - split; [done|]. intros (? & ? & [= <- <-] & Hc & _). apply char_test in Hc. congruence. }
  destruct re1 as [|s re2].
  - cbn [matchhere parse_re length]. destruct (r =? chr "$") eqn:Er; cbn [andb].
    + change ((0 =? 0)%nat) with true. cbn [andb]. rw Nat.eqb_eq. split.
      * intros ->%nil_length_inv. by exists [], [].
      * intros (p & q & -> & Hp & Hq). simpl in Hp, Hq. by rw Hp Hq.
    + apply Hone. intros t. split; [|done]. intros _. by exists [], t.
  - change (parse_re (r :: s :: re2)) with (if s =? chr "*" then let '(es, a) := parse_re re2 in (Many r :: es, a)
      else let '(es, a) := parse_re (s :: re2) in (One r :: es, a)). change (matchhere (r :: s :: re2) text) with
      (if s =? chr "*" then matchstar (matchhere re2) r text else
       if (r =? chr "$") && (length (s :: re2) =? 0)%nat then (length text =? 0)%nat else
       match text with [] => false | t :: text' => if (r =? chr ".") || (r =? t) then matchhere (s :: re2) text' else false end).
    destruct (s =? chr "*") eqn:Es.
    + destruct (parse_re re2) as [es a] eqn:Ep. apply matchstar_ok. intros t. rw -Ep. apply IH. simpl in Hn. lia.
    + rw andb_false_r. destruct (parse_re (s :: re2)) as [es a] eqn:Ep.
      apply Hone. intros t. rw -Ep. apply IH. simpl in Hn |- *. lia.
Qed.

Lemma match_any_ok re text : match_any re text = true <-> exists u v, text = u ++ v /\ matches_at (parse_re re) v.
Proof.
  induction text as [|t text IH]; simpl.
  - destruct (matchhere re []) eqn:E.
    + split; [|done]. intros _. exists [], []. split; [done|by apply matchhere_ok].
    + split; [done|]. intros (u & v & Euv & Hm). symmetry in Euv. apply app_eq_nil in Euv as [-> ->].
      apply matchhere_ok in Hm. congruence.
  - destruct (matchhere re (t :: text)) eqn:E.
    + split; [|done]. intros _. exists [], (t :: text). split; [done|by apply matchhere_ok].
    + rw IH. split; intros (u & v & Euv & Hm).
      * exists (t :: u), v. by rw Euv.
      * destruct u as [|t' u]; simpl in Euv; [subst v; apply matchhere_ok in Hm; congruence|]. simplify_eq. by exists u, v.
Qed.

(** C39: the matcher is exact: [match(re, text)] is 1 when some part of the
    text, the beginning for a pattern that starts with ["^"] and the end for one
    that ends with ["$"], is in the language of the pattern, and 0 otherwise;
    it terminates on every pattern and text. *)
Theorem grep_match_exact re text : match_ re text = true <-> denotes re text.
Proof.
  rw /match_ /denotes. destruct re as [|r re1]; [apply match_any_ok|].
  destruct (r =? chr "^"); [apply matchhere_ok|apply match_any_ok].
Qed.

(** ** Lines *)

(** The complete lines of a text, and what follows the last newline. *)
Fixpoint split_lines (l : list Z) : list (list Z) * list Z :=
  match l with
  | [] => ([], [])
  | c :: l' =>
      let '(ls, r) := split_lines l' in
      if c =? 10 then ([] :: ls, r)
      else match ls with [] => ([], c :: r) | x :: ls' => ((c :: x) :: ls', r) end
  end.
(** The writes [grep] makes for these lines. *)
Definition printed (re : list Z) (ls : list (list Z)) : list (Z * list Z) :=
  (fun x => (1, x ++ [10])) <$> filter (fun x => match_ re x = true) ls.

Lemma split_line a b : 10 ∉ a -> split_lines (a ++ 10 :: b) = (a :: (split_lines b).1, (split_lines b).2).
Proof.
  induction a as [|c a IH]; intros Ha; simpl.
  - by destruct (split_lines b).
  - apply not_elem_of_cons in Ha as [Hc Ha]. rw IH //. by rw (proj2 (Z.eqb_neq c 10)).
Qed.
Lemma split_none a : 10 ∉ a -> split_lines a = ([], a).
Proof.
  induction a as [|c a IH]; intros Ha; simpl; [done|]. apply not_elem_of_cons in Ha as [Hc Ha]. rw IH //.
  by rw (proj2 (Z.eqb_neq c 10)).
Qed.
(** The first newline, if any. *)
Lemma first_line l : 10 ∉ l \/ exists a b, l = a ++ 10 :: b /\ 10 ∉ a.
Proof.
  destruct (decide (10 ∈ l)) as [Hin|Hn]; [right|by left].
  apply list_elem_of_split_l in Hin as (a & b & -> & Ha). eauto.
Qed.
Lemma split_tail l : 10 ∉ (split_lines l).2.
Proof.
  induction l as [|c l IH]; simpl; [apply not_elem_of_nil|]. destruct (split_lines l) as [ls r]. simpl in IH.
  destruct (Z.eqb_spec c 10); [done|]. destruct ls; [|done]. apply not_elem_of_cons. split; [congruence|done].
Qed.
(** Lines of a text that arrives in two pieces. *)
Lemma split_app a b : split_lines (a ++ b) =
  ((split_lines a).1 ++ (split_lines ((split_lines a).2 ++ b)).1, (split_lines ((split_lines a).2 ++ b)).2).
Proof.
  induction a as [|c a IH]; simpl; [by destruct (split_lines b)|]. rw IH. destruct (split_lines a) as [ls r]. simpl.
  destruct (c =? 10) eqn:Ec; [done|]. destruct ls as [|x ls]; [|done]. simpl.
  rw Ec. destruct (split_lines (r ++ b)) as [[|y L] R]; done.
Qed.
Lemma printed_app re ls ls' : printed re (ls ++ ls') = printed re ls ++ printed re ls'.
Proof. by rw /printed filter_app fmap_app. Qed.
Lemma printed_cons re x ls : printed re (x :: ls) = (if match_ re x then [(1, x ++ [10])] else []) ++ printed re ls.
Proof.
  rw /printed filter_cons. destruct (decide (match_ re x = true)) as [E|E]; [by rw E|].
  apply not_true_is_false in E. by rw E. Qed.

(** ** The inner loop *)

Lemma strchr_app a l c : 0 ∉ a -> c ∉ a -> strchr (a ++ c :: l) c = Some (if decide (c = 0) then None else Some (length a)).
Proof.
  induction a as [|x a IH]; intros H0 Hc; simpl.
  - case_decide; [by subst|]. by rw (proj2 (Z.eqb_neq c 0)) // Z.eqb_refl.
  - apply not_elem_of_cons in H0 as [Hx0 H0]. apply not_elem_of_cons in Hc as [Hxc Hc].
    rw (proj2 (Z.eqb_neq x 0)) // (proj2 (Z.eqb_neq x c)) // IH //. by case_decide.
Qed.
Lemma strchr_end a l c : 0 ∉ a -> c ∉ a -> strchr (a ++ 0 :: l) c = Some None.
Proof.
  induction a as [|x a IH]; intros H0 Hc; simpl; [done|].
  apply not_elem_of_cons in H0 as [Hx0 H0]. apply not_elem_of_cons in Hc as [Hxc Hc].
  by rw (proj2 (Z.eqb_neq x 0)) // (proj2 (Z.eqb_neq x c)) // IH.
Qed.
Lemma cstr_app a l : 0 ∉ a -> cstr (a ++ 0 :: l) = Some a.
Proof.
  induction a as [|x a IH]; intros H0; simpl; [done|]. apply not_elem_of_cons in H0 as [Hx0 H0].
  destruct x; [done|by rw IH..].
Qed.

(** Storing at the end of a known part of the array. *)
Lemma drop_set {A} (l a rest : list A) n x y q : drop n l = a ++ y :: rest -> q = Z.of_nat n + Z.of_nat (length a) ->
  drop n (arr_set l q x) = a ++ x :: rest.
Proof.
  intros Hd ->. rw /arr_set. replace (Z.to_nat _) with (n + length a)%nat by lia.
  rw drop_insert_ge; [|lia]. rw Hd. replace (n + length a - n)%nat with (length a + 0)%nat by lia. by rw insert_app_r.
Qed.

Section lines.
Context {S : Type} {sys : Usys S} {sok : StreamOk S}.
Context (re : list Z).
Implicit Types (s : S) (buf : list Z).

Lemma grep_lines_wp buf text junk N s :
  buf = text ++ 0 :: junk -> 0 ∉ text -> (length text < N)%nat ->
  wp (grep_lines re buf) N s (fun '(buf', p) s' =>
    let r := (split_lines text).2 in
    0 <= p /\ p + Z.of_nat (length r) = Z.of_nat (length text) /\ length buf' = length buf /\
    drop (Z.to_nat p) buf' = r ++ 0 :: junk /\
    output s' = output s ++ printed re (split_lines text).1 /\ forall fd, input fd s' = input fd s).
Proof.
  intros Hb H0 HN.
  apply (wp_loop (fun '(buf1, p) s1 => exists pre rem, text = pre ++ rem /\ p = Z.of_nat (length pre) /\
      drop (length pre) buf1 = rem ++ 0 :: junk /\ length buf1 = length buf /\
      (split_lines rem).2 = (split_lines text).2 /\
      output s1 ++ printed re (split_lines rem).1 = output s ++ printed re (split_lines text).1 /\
      forall fd, input fd s1 = input fd s) (fun '(_, p) _ => length text - Z.to_nat p)%nat).
  { exists [], text. rw Hb. done. }
  { simpl. lia. }
  intros [buf1 p] s1 (pre & rem & Et & -> & Hd & Hlen & Er & Eo & Ei). rw Nat2Z.id Hd.
  assert (0 ∉ rem) as H0r by (rw Et in H0; by apply not_elem_of_app in H0 as [_ ?]).
  destruct (first_line rem) as [Hn|(a & b & -> & Ha)].
  - rw strchr_end //. apply wp_ret. rw split_none // in Er, Eo. simpl in Er, Eo. rw -Er. cbv zeta.
    rw Nat2Z.id Hd. split_and!; [lia| |done|done| |done].
    + rw Et length_app. lia.
    + rw -Eo /printed /=. by rw app_nil_r.
  - apply not_elem_of_app in H0r as [H0a H0b]. apply not_elem_of_cons in H0b as [_ H0b].
    rw -app_assoc /= strchr_app //=.
    set (q := Z.of_nat (length pre) + Z.of_nat (length a)).
    rw -app_assoc /= in Hd.
    pose proof (drop_set _ _ _ _ 0 _ q Hd eq_refl) as Hd2. rw Hd2 cstr_app // {1}/mret /K_ret.
    apply wp_bind, wp_ret. rw split_line // in Er, Eo. simpl in Er, Eo. rw printed_cons in Eo.
    assert (text = (pre ++ a ++ [10]) ++ b) as Et' by (rw Et -!app_assoc //).
    assert (q + 1 = Z.of_nat (length (pre ++ a ++ [10]))) as Eq by (rw /q !length_app /=; lia).
    assert (forall buf2 s2, drop (length pre) buf2 = a ++ 10 :: b ++ 0 :: junk \/ drop (length pre) buf2 = a ++ 0 :: b ++ 0 :: junk ->
      length buf2 = length buf -> output s2 ++ printed re (split_lines b).1 = output s ++ printed re (split_lines text).1 ->
      (forall fd, input fd s2 = input fd s) ->
      (exists pre rem, text = pre ++ rem /\ q + 1 = Z.of_nat (length pre) /\ drop (length pre) buf2 = rem ++ 0 :: junk /\
        length buf2 = length buf /\ (split_lines rem).2 = (split_lines text).2 /\
        output s2 ++ printed re (split_lines rem).1 = output s ++ printed re (split_lines text).1 /\
        forall fd, input fd s2 = input fd s) /\ (length text - Z.to_nat (q + 1) < length text - length pre)%nat) as Hnext.
    { intros buf2 s2 Hd3 Hl2 Eo2 Ei2. split; [|rw Et' !length_app /= in Eq |- *; lia].
      exists (pre ++ a ++ [10]), b. split_and!; [done|done| |done|done|done|done].
      rw length_app -drop_drop. destruct Hd3 as [-> | ->]; rw length_app /= drop_app_ge; [|lia| |lia];
        by replace (length a + 1 - length a)%nat with 1%nat by lia. }
    destruct (match_ re a) eqn:Em.
    + apply wp_bind. eapply wp_mono; [apply sys_write_wp|]. intros r s2 (_ & Eo2 & Ei2). apply wp_ret.
      pose proof (drop_set _ _ _ _ 10 _ q Hd2 eq_refl) as Hd3.
      apply Hnext; [by left|by rw /arr_set !length_insert| |by intros; rw Ei2].
      rw Eo2 Hd3 -Eo -!app_assoc. do 4 f_equal. rw /q. replace (Z.to_nat _) with (length a + 1)%nat by lia.
      by rw take_app_add.
    + apply wp_ret. apply Hnext; [by right|by rw /arr_set length_insert|done|done].
Qed.
(** ** The outer loop *)

(** Lines that fit in the buffer. *)
Definition lines_fit (l : list Z) : Prop :=
  Forall (fun x => (length x <= 1022)%nat) ((split_lines l).2 :: (split_lines l).1).

Lemma fit_head r l : 10 ∉ r -> lines_fit (r ++ l) -> (length r <= 1022)%nat.
Proof.
  intros Hr Hf. rw /lines_fit in Hf. destruct (first_line l) as [Hn|(a & b & -> & Ha)].
  - rw split_none in Hf; [|by apply not_elem_of_app]. apply Forall_cons in Hf as [Hf _]. rw /= length_app in Hf. lia.
  - rw app_assoc split_line in Hf; [|by apply not_elem_of_app]. apply Forall_cons in Hf as [_ Hf].
    apply Forall_cons in Hf as [Hf _]. rw length_app in Hf. lia.
Qed.
Lemma fit_tail a l : lines_fit (a ++ l) -> lines_fit ((split_lines a).2 ++ l).
Proof.
  rw /lines_fit split_app /=. intros [H1 H2]%Forall_cons. apply Forall_app in H2 as [_ H2]. by apply Forall_cons.
Qed.

Lemma elem_split_tail x l : x ∈ (split_lines l).2 -> x ∈ l.
Proof.
  induction l as [|c l IH]; simpl; [done|]. destruct (split_lines l) as [ls r]. simpl in IH.
  destruct (c =? 10); [intros; right; by apply IH|]. destruct ls; simpl; [|intros; right; by apply IH].
  intros [->|?]%elem_of_cons; [left|right; by apply IH].
Qed.

(** The buffer after [read] stored [l] behind [r] and a NUL. *)
Lemma refill buf1 (r l : list Z) : take (length r) buf1 = r -> (length (r ++ l) < length buf1)%nat ->
  let buf2 := take (length r) buf1 ++ l ++ drop (length r + length l) buf1 in
  arr_ok buf2 (Z.of_nat (length (r ++ l))) = true /\ length buf2 = length buf1 /\
  exists junk, arr_set buf2 (Z.of_nat (length (r ++ l))) 0 = (r ++ l) ++ 0 :: junk.
Proof.
  intros Hr Hlt buf2. set (text := r ++ l) in *. assert (length text = length r + length l)%nat as Elt by apply length_app.
  assert (buf2 = text ++ drop (length text) buf1) as Eb2 by by rw /buf2 Hr app_assoc Elt.
  assert (length buf2 = length buf1) as Hl2 by (rw Eb2 length_app length_drop; lia).
  split_and!; [rw /arr_ok Hl2; lia|done|]. destruct (drop (length text) buf1) as [|y junk] eqn:Ed.
  { apply (f_equal length) in Ed. rw length_drop /= in Ed. lia. }
  exists junk. by rw /arr_set Nat2Z.id Eb2 -{1}(Nat.add_0_r (length text)) insert_app_r.
Qed.
(** What is left of it after the lines. *)
Lemma shift_tail buf3 p (r junk : list Z) : 0 <= p -> drop (Z.to_nat p) buf3 = r ++ junk -> (length r <= length buf3)%nat ->
  take (length r) (shift buf3 p (Z.of_nat (length r))) = r /\ length (shift buf3 p (Z.of_nat (length r))) = length buf3.
Proof.
  intros Hp Hd Hle. rw /shift Nat2Z.id Hd take_app_length. split; [by rw take_app_length|].
  rw length_app length_drop. lia.
Qed.

(** C40: [grep] prints exactly the lines of its input that match, each with its
    newline and in order, however [read] cuts the input into pieces, and reads
    the input to its end.  The input has no NUL and no line longer than 1022
    characters; characters after the last newline are never printed. *)
Theorem grep_prints_matching_lines fd buf N s :
  length buf = 1024%nat -> 0 ∉ input fd s -> lines_fit (input fd s) -> (1024 + length (input fd s) < N)%nat ->
  wp (grep re fd buf) N s (fun _ s' =>
    output s' = output s ++ printed re (split_lines (input fd s)).1 /\ input fd s' = []).
Proof.
  intros Hbuf H0 Hfit HN. rw /grep.
  apply (wp_loop (fun '(buf1, m) s1 => exists r, take (Z.to_nat m) buf1 = r /\ m = Z.of_nat (length r) /\
      length buf1 = 1024%nat /\ (10 ∉ r) /\ (0 ∉ r ++ input fd s1) /\ lines_fit (r ++ input fd s1) /\
      output s1 ++ printed re (split_lines (r ++ input fd s1)).1 = output s ++ printed re (split_lines (input fd s)).1 /\
      (length (input fd s1) <= length (input fd s))%nat)
    (fun _ s1 => length (input fd s1))).
  { exists []. split_and!; try done. apply not_elem_of_nil. }
  { lia. }
  intros [buf1 m] s1 (r & Hr & -> & Hlen & Hnl & H01 & Hf1 & Eo & Hle). pose proof (fit_head _ _ Hnl Hf1) as Hrl.
  apply wp_bind. eapply wp_mono; [apply sys_read_wp; rw /BUFSZ; lia|].
  intros _ s2 (l & -> & Hll & Ei & Hend & Eo2). rw /BUFSZ in Hll, Hend. rw Nat2Z.id in Hr. rw Nat2Z.id.
  destruct (Z.ltb_spec 0 (Z.of_nat (length l))) as [Hl|Hl]; cbn [negb]; last first.
  { assert (l = []) as -> by (destruct l; [done|simpl in Hl; lia]). destruct (Hend eq_refl) as [?|E]; [lia|].
    apply wp_ret. rw E app_nil_r split_none // /printed /= app_nil_r in Eo. rw Eo2 Eo. split; [done|].
    rw E in Ei. by destruct (input fd s2). }
  rw Ei app_assoc in H01 Hf1 Eo. assert (Hlt : (length (r ++ l) < length buf1)%nat) by (rw length_app; lia).
  destruct (refill buf1 r l Hr Hlt) as (Hok & Hl2 & junk & Eb3). set (buf2 := take _ _ ++ l ++ _) in *.
  replace (Z.of_nat (length r) + Z.of_nat (length l)) with (Z.of_nat (length (r ++ l))) by (rw length_app; lia).
  set (text := r ++ l) in *. assert (length text = length r + length l)%nat as Elt by apply length_app.
  apply not_elem_of_app in H01 as [H0t H0i]. apply wp_bind. rw /put Hok. apply wp_ret.
  apply wp_bind. eapply wp_mono; [apply (grep_lines_wp _ text junk N s2 Eb3 H0t); lia|].
  intros [buf3 p] s3 (Hp & Epl & Hl3 & Hd3 & Eo3 & Ei3). set (r3 := (split_lines text).2) in *.
  destruct (Z.ltb_spec 0 (Z.of_nat (length text))); [|lia]. rw /arr_set length_insert Hl2 in Hl3.
  apply wp_ret. split; [|rw Ei3 Ei length_app; lia].
  exists r3. replace (Z.of_nat (length text) - p) with (Z.of_nat (length r3)) by lia. rw Nat2Z.id Ei3.
  destruct (shift_tail buf3 p r3 (0 :: junk) Hp Hd3) as [Hs1 Hs2]; [lia|].
  split_and!; [done|done|by rw Hs2 Hl3|apply split_tail| |by apply fit_tail| |rw Ei length_app in Hle; lia].
  - apply not_elem_of_app. split; [|done]. by intros ?%elem_split_tail.
  - rw split_app printed_app in Eo. by rw Eo3 Eo2 -app_assoc.
Qed.
End lines.

(** ** Witness *)

(** Three lines, the last one unfinished, in pieces of 2, 1 and 4 characters. *)
Definition grep0 : world := World (bytes_of_string "abc" ++ [10] ++ bytes_of_string "bd" ++ [10] ++ bytes_of_string "b") [1; 0; 3]%nat [].

Lemma grep_prints_matching_lines_witness :
  wp (grep (bytes_of_string "^b") 0 (replicate 1024 0)) 2000%nat grep0 (fun _ s' =>
    w_out s' = [(1, bytes_of_string "bd" ++ [10])]).
Proof.
  eapply wp_mono.
  { apply (grep_prints_matching_lines (bytes_of_string "^b") 0 (replicate 1024 0) 2000%nat grep0); [reflexivity| | |].
    - apply (bool_decide_unpack _). vm_compute. exact I.
    - apply (bool_decide_unpack _). vm_compute. exact I.
    - apply Nat.ltb_lt. vm_compute. reflexivity. }
  intros l s' [H _]. simpl in H. rw H. vm_compute. reflexivity.
Defined.
