(* ===== verification/Mkfs.v ===== *)
(** * [mkfs/mkfs.c]

    The program that builds the disk image: superblock, inodes, one directory
    with the files named on the command line, and the bitmap of used blocks.
    The image is the list of its blocks.  The host's files are given as what
    [read] returns on them, piece by piece ([None] when [open] fails); its
    messages are not modelled.  The host is little endian, like the target. *)

From Stdlib Require Import Ascii.
From S2P Require Import Prelude Mem KString Spinlock Machine KState Printf FsFmt.

Module Mkfs.

Definition NINODES : Z := 200.
Definition FSSIZE : Z := 1000.
Definition nbitmap : Z := FSSIZE / (BSIZE * 8) + 1.
Definition ninodeblocks : Z := NINODES / IPB + 1.
Definition nlog : Z := LOGSIZE.
Definition nmeta : Z := 2 + nlog + ninodeblocks + nbitmap.
Definition nblocks : Z := FSSIZE - nmeta.

(** The image, [sb], [freeinode] and [freeblock]. *)
Record mkfs := MkMkfs { img : list (list Z); msb : superblock; freeinode : Z; freeblock : Z }.
Definition M := K mkfs.
Definition set_img f s := MkMkfs (f (img s)) (msb s) (freeinode s) (freeblock s).
Definition set_msb x s := MkMkfs (img s) x (freeinode s) (freeblock s).
Definition set_freeinode x s := MkMkfs (img s) (msb s) x (freeblock s).
Definition set_freeblock x s := MkMkfs (img s) (msb s) (freeinode s) x.

Definition zeroes : list Z := replicate 1024 0.
Definition exit {A} (n : Z) : M A := panic (if n =? 0 then "exit(0)" else "exit(1)").
Definition assert_ (b : bool) : M unit := if b then mret tt else panic "assert".

(** Convert to intel byte order. *)
Definition xshort (x : Z) : Z := le_val (le_bytes 2 x).
Definition xint (x : Z) : Z := le_val (le_bytes 4 x).

(** ** Sectors *)

(** The block at which [lseek(fsfd, sec * BSIZE, 0)] leaves the file offset. *)
Definition sector (sec : Z) : nat := Z.to_nat (u32 (sec * BSIZE) / BSIZE).
(** Writing past the end of the file leaves a hole of zeros. *)
Definition put_block (i : nat) (b : list Z) (l : list (list Z)) : list (list Z) :=
  if (i <? length l)%nat then <[i := b]> l else l ++ replicate (i - length l) zeroes ++ [b].
Definition wsect (sec : Z) (buf : list Z) : M unit := modify (set_img (put_block (sector sec) buf)).
Definition rsect (sec : Z) : M (list Z) :=
  l ← gets img; match l !! sector sec with Some b => mret b | None => exit 1 end.

(** ** Inodes *)

Definition winode (inum : Z) (ip : dinode) : M unit :=
  sb ← gets msb;
  let bn := IBLOCK inum sb in
  buf ← rsect bn;
  wsect bn (put_dinode buf (inum mod IPB) ip).
Definition rinode (inum : Z) : M dinode :=
  sb ← gets msb;
  buf ← rsect (IBLOCK inum sb);
  mret (get_dinode buf (inum mod IPB)).
Definition zero_dinode : dinode := Dinode 0 0 0 0 0 (replicate 13 0).
Definition ialloc (type : Z) : M Z :=
  inum ← gets freeinode;
  modify (set_freeinode (u32 (inum + 1)));;
  winode inum (Dinode (i16 (xshort type)) 0 0 (i16 (xshort 1)) (xint 0) (di_addrs zero_dinode));;
  mret inum.

(** [freeblock++] *)
Definition newblock : M Z :=
  b ← gets freeblock; modify (set_freeblock (u32 (b + 1)));; mret b.
Definition addr (din : dinode) (k : Z) : M Z := arr_get (di_addrs din) k.
Definition set_daddr (din : dinode) (k v : Z) : dinode :=
  Dinode (di_type din) (di_major din) (di_minor din) (di_nlink din) (di_size din) (arr_set (di_addrs din) k v).
Definition set_dsize (din : dinode) (v : Z) : dinode :=
  Dinode (di_type din) (di_major din) (di_minor din) (di_nlink din) v (di_addrs din).

(** The address of block [fbn] of the file in its indirect block, allocated if
    it is not there. *)
Definition indirect_block (din : dinode) (fbn : Z) : M Z :=
  ib ← addr din NDIRECT;
  indirect ← rsect (xint ib);
  let k := 4 * (fbn - NDIRECT) in
  indirect ←
    (if ldb 4 indirect k =? 0 then
       b ← newblock;
       let indirect := stb 4 indirect k (xint b) in
       wsect (xint ib) indirect;; mret indirect
     else mret indirect);
  mret (xint (ldb 4 indirect k)).
(** The address [x] of block [fbn] of the file, allocated if it is not there:
    the part of the loop of [iappend] before the data are copied. *)
Definition iappend_block (din : dinode) (fbn : Z) : M (dinode * Z) :=
  if fbn <? NDIRECT then
    a ← addr din fbn;
    din ← (if xint a =? 0 then b ← newblock; mret (set_daddr din fbn (xint b)) else mret din);
    a ← addr din fbn;
    mret (din, xint a)
  else
    a ← addr din NDIRECT;
    din ← (if xint a =? 0 then b ← newblock; mret (set_daddr din NDIRECT (xint b)) else mret din);
    x ← indirect_block din fbn;
    mret (din, x).

(** One turn of the loop of [iappend]: [din], [off] and what is left of the data. *)
Definition iappend_step (st : dinode * Z * list Z) : M (dinode * Z * list Z + dinode * Z) :=
  let '(din, off, p) := st in
  match p with
  | [] => mret (inr (din, off))
  | _ =>
    let fbn := off / BSIZE in
    assert_ (fbn <? MAXFILE);;
    '(din, x) ← iappend_block din fbn;
    let n1 := Z.min (Z.of_nat (length p)) (u32 ((fbn + 1) * BSIZE - off)) in
    buf ← rsect x;
    wsect x (splice buf (off - fbn * BSIZE) (take (Z.to_nat n1) p));;
    mret (inl (din, u32 (off + n1), drop (Z.to_nat n1) p))
  end.
Definition iappend (inum : Z) (p : list Z) : M unit :=
  din ← rinode inum;
  '(din, off) ← loop iappend_step (din, xint (di_size din), p);
  winode inum (set_dsize din (xint off)).

(** ** The bitmap *)

Definition set_bit (buf : list Z) (i : Z) : list Z :=
  arr_set buf (i / 8) (u8 (Z.lor (buf !!! Z.to_nat (i / 8)) (Z.shiftl 1 (i mod 8)))).
Definition balloc (used : Z) : M unit :=
  assert_ (used <? BSIZE * 8);;
  let buf := fold_left set_bit (rangeZ (Z.to_nat used)) zeroes in
  sb ← gets msb;
  wsect (sb_bmapstart sb) buf.

(** ** [main] *)

(** A file of the host: its path, and the results of [read] on it. *)
Record hostfile := HostFile { hf_path : list Z; hf_pieces : option (list (list Z)) }.

(** Get rid of "user/"; skip a leading underscore. *)
Definition shortname (path : list Z) : M (list Z) :=
  let u := bytes_of_string "user/" in
  let name := if bool_decide (take 5 path = u) then drop 5 path else path in
  assert_ (negb (existsb (Z.eqb (chr "/")) name));;
  mret name.
Definition skip_underscore (name : list Z) : list Z :=
  match name with c :: name' => if c =? chr "_" then name' else name | [] => [] end.

Definition link_entry (inum : Z) (name : list Z) : dirent := Dirent (xshort inum) name.
Definition dir_name (name : list Z) : M (list Z) :=
  match strncpy (replicate 14 0) (name ++ [0]) DIRSIZ with Some l => mret l | None => undef end.

Definition mkfs_file (rootino : Z) (f : hostfile) : M unit :=
  name ← shortname (hf_path f);
  match hf_pieces f with
  | None => exit 1
  | Some pieces =>
    let name := skip_underscore name in
    inum ← ialloc T_FILE;
    name ← dir_name name;
    iappend rootino (dirent_bytes (link_entry inum name));;
    for_each pieces (iappend inum)
  end.

Definition mkfs_sb : superblock :=
  Superblock FSMAGIC (xint FSSIZE) (xint nblocks) (xint NINODES) (xint nlog) (xint 2) (xint (2 + nlog)) (xint (2 + nlog + ninodeblocks)).

Definition main (files : list hostfile) : M unit :=
  modify (set_msb mkfs_sb);;
  modify (set_freeblock nmeta);;
  for_each (rangeZ (Z.to_nat FSSIZE)) (fun i => wsect i zeroes);;
  wsect 1 (splice zeroes 0 (superblock_bytes mkfs_sb));;
  rootino ← ialloc T_DIR;
  assert_ (rootino =? ROOTINO);;
  dot ← dir_name (bytes_of_string ".");
  iappend rootino (dirent_bytes (link_entry rootino dot));;
  dotdot ← dir_name (bytes_of_string "..");
  iappend rootino (dirent_bytes (link_entry rootino dotdot));;
  for_each files (mkfs_file rootino);;
  din ← rinode rootino;
  let off := xint (di_size din) in
  let off := u32 ((off / BSIZE + 1) * BSIZE) in
  winode rootino (set_dsize din (xint off));;
  b ← gets freeblock;
  balloc b;;
  exit 0.

(** The state when [main] starts: an empty image. *)
Definition mkfs0 : mkfs := MkMkfs [] (Superblock 0 0 0 0 0 0 0 0) 1 0.

End Mkfs.
