(* ===== verification/MkfsSpec.v ===== *)
(** * [mkfs] builds the file system it means to

    The abstract file system is a list of files, each a type and its contents;
    [rep] relates it to the image: superblock fields, inodes, direct and
    indirect blocks.  The operations of [mkfs.c] are steps on the abstract
    system. *)

From Stdlib Require Import Ascii.
From S2P Require Import Prelude Mem KString Spinlock Machine KState Printf FsFmt FsFmtSpec Mkfs.
Import Mkfs.

(** ** Sectors *)

Lemma bind_run {S A B} (m : K S A) (f : A -> K S B) n s a s' : m n s = Ok a s' -> (m ≫= f) n s = f a n s'.
Proof. rw /mbind /K_bind. by intros ->. Qed.
Lemma bind_ret {S A B} (a : A) (f : A -> K S B) : (mret a ≫= f) = f a.
Proof. done. Qed.
Ltac run H := rw (bind_run _ _ _ _ _ _ H); clear H.

Definition disk_ok (im : list (list Z)) : Prop := length im = 1000%nat /\ Forall (fun b => length b = 1024%nat) im.
Lemma disk_lookup im b : disk_ok im -> (b < 1000)%nat -> exists blk, im !! b = Some blk /\ length blk = 1024%nat.
Proof.
  intros [Hl Hb] Hlt. destruct (lookup_lt_is_Some_2 im b) as [blk E]; [lia|]. exists blk. split; [done|].
  by eapply Forall_lookup_1 in Hb.
Qed.
Lemma disk_insert im b blk : disk_ok im -> length blk = 1024%nat -> disk_ok (<[b := blk]> im).
Proof. intros [Hl Hb] Hlen. split; [by rw length_insert|]. by apply Forall_insert. Qed.

Lemma sector_small (b : nat) : (b < 1000)%nat -> sector (Z.of_nat b) = b.
Proof. intros Hb. rw /sector u32_small; [|rw /BSIZE; lia]. rw Z.div_mul; [by rw Nat2Z.id|done]. Qed.
Lemma rsect_run (b : nat) blk n s : (b < 1000)%nat -> img s !! b = Some blk -> rsect (Z.of_nat b) n s = Ok blk s.
Proof. intros Hb E. rw /rsect /mbind /K_bind /= sector_small // E //. Qed.
Lemma wsect_run (b : nat) blk n s : disk_ok (img s) -> (b < 1000)%nat -> wsect (Z.of_nat b) blk n s = Ok tt (set_img (insert b blk) s).
Proof.
  intros [Hl _] Hb. rw /wsect /modify sector_small // /set_img /put_block. by rw (proj2 (Nat.ltb_lt _ _)); [|lia].
Qed.
Lemma newblock_run n s : 0 <= freeblock s < 1000 -> newblock n s = Ok (freeblock s) (set_freeblock (freeblock s + 1) s).
Proof. intros Hb. rw /newblock /mbind /K_bind /= u32_small //. lia. Qed.
Lemma xint_small x : 0 <= x < 2 ^ 32 -> xint x = x.
Proof. intros Hx. rw /xint le_val_bytes. by apply Z.mod_small. Qed.

(** ** Block addresses *)

(** The address of block [k] of a file with the blocks [bl]; 0 when there is none. *)
Definition baddr (bl : list nat) (k : nat) : Z := match bl !! k with Some b => Z.of_nat b | None => 0 end.
Definition addrs_ok (im : list (list Z)) (d : dinode) (ib : nat) (bl : list nat) : Prop :=
  length (di_addrs d) = 13%nat /\ (length bl <= 268)%nat /\ (forall k, (k < 12)%nat -> di_addrs d !! k = Some (baddr bl k)) /\
  di_addrs d !! 12%nat = Some (Z.of_nat ib) /\
  if decide (12 < length bl)%nat then ib <> O /\ exists blk, im !! ib = Some blk /\ forall k, (k < 256)%nat -> ldb 4 blk (4 * Z.of_nat k) = baddr bl (12 + k)
  else ib = O.
(** The blocks a file uses lie in the allocated part of the disk. *)
Definition own (ib : nat) (bl : list nat) : list nat := (if decide (ib = O) then [] else [ib]) ++ bl.
Definition alloced (s : mkfs) (b : nat) : Prop := (46 <= b)%nat /\ Z.of_nat b < freeblock s.

Lemma baddr_lt bl k b : bl !! k = Some b -> baddr bl k = Z.of_nat b.
Proof. rw /baddr. by intros ->. Qed.
Lemma baddr_ge bl k : (length bl <= k)%nat -> baddr bl k = 0.
Proof. intros H. by rw /baddr lookup_ge_None_2. Qed.
Lemma baddr_snoc bl x k : baddr (bl ++ [x]) k = if decide (k = length bl) then Z.of_nat x else baddr bl k.
Proof.
  rw /baddr. case_decide as E; [subst; by rw list_lookup_middle|]. destruct (decide (k < length bl)%nat).
  - by rw lookup_app_l.
  - rw !lookup_ge_None_2 // ?length_app /=; lia.
Qed.
Lemma addr_run d (k : nat) a n s : di_addrs d !! k = Some a -> addr d (Z.of_nat k) n s = Ok a s.
Proof. intros E. rw /addr /arr_get (proj2 (Z.ltb_ge _ _)); [|lia]. by rw Nat2Z.id E. Qed.
Lemma set_daddr_lookup d (k j : nat) v : (k < length (di_addrs d))%nat ->
  di_addrs (set_daddr d (Z.of_nat k) v) !! j = if decide (j = k) then Some v else di_addrs d !! j.
Proof.
  intros Hk. rw /set_daddr /arr_set /= Nat2Z.id. case_decide as E; [subst; by rw list_lookup_insert_eq|]. by rw list_lookup_insert_ne.
Qed.

(** A block the file already has. *)
Lemma block_present d ib bl (fbn b : nat) n s : disk_ok (img s) -> addrs_ok (img s) d ib bl -> Forall (alloced s) (own ib bl) -> freeblock s <= 1000 ->
  bl !! fbn = Some b -> iappend_block d (Z.of_nat fbn) n s = Ok (d, Z.of_nat b) s.
Proof.
  intros Hd (Hl & Hmax & Hdir & Hind & Hib) Ho Hf Hb. apply lookup_lt_Some in Hb as Hlt.
  assert (alloced s b) as [Hb1 Hb2].
  { rw Forall_forall in Ho. apply Ho. rw /own elem_of_app. right. by eapply list_elem_of_lookup_2. }
  rw /iappend_block. destruct (Z.ltb_spec (Z.of_nat fbn) NDIRECT) as [Hk|Hk]; rw /NDIRECT in Hk.
  - assert (di_addrs d !! fbn = Some (Z.of_nat b)) as Ha by (rw Hdir; [by rw (baddr_lt _ _ b)|lia]).
    rw (bind_run _ _ _ _ _ _ (addr_run d fbn _ n s Ha)) xint_small; [|lia]. rw (proj2 (Z.eqb_neq _ _)); [|lia].
    rw bind_ret (bind_run _ _ _ _ _ _ (addr_run d fbn _ n s Ha)) xint_small //. lia.
  - rw decide_True in Hib; [|lia]. destruct Hib as (Hib0 & blk & Hblk & Hldb).
    assert (alloced s ib) as [Hi1 Hi2] by (rw Forall_forall in Ho; apply Ho; rw /own decide_False // elem_of_app; left; left).
    rw (bind_run _ _ _ _ _ _ (addr_run d 12 _ n s Hind)) !xint_small; [|lia..]. rw (proj2 (Z.eqb_neq _ _)); [|lia].
    rw bind_ret. enough (indirect_block d (Z.of_nat fbn) n s = Ok (Z.of_nat b) s) as Hr by (by rw (bind_run _ _ _ _ _ _ Hr)).
    rw /indirect_block (bind_run _ _ _ _ _ _ (addr_run d 12 _ n s Hind)) xint_small; [|lia]. rw (bind_run _ _ _ _ _ _ (rsect_run ib blk n s ltac:(lia) Hblk)).
    assert (ldb 4 blk (4 * (Z.of_nat fbn - NDIRECT)) = Z.of_nat b) as Hx.
    { rw -(baddr_lt bl fbn b Hb). replace (4 * (Z.of_nat fbn - NDIRECT)) with (4 * Z.of_nat (fbn - 12)) by (rw /NDIRECT; lia). rw Hldb; [|lia].
      f_equal. lia. }
    rw Hx (proj2 (Z.eqb_neq _ _)); [|lia]. rw bind_ret Hx xint_small //. lia.
Qed.

(** What changes when a block is added: the list of blocks of the file, the
    place of its indirect block, [freeblock], and the indirect block on disk. *)
Definition added s d ib bl (s' : mkfs) d' ib' (x : nat) : Prop :=
  addrs_ok (img s') d' ib' (bl ++ [x]) /\ disk_ok (img s') /\
  (forall b, b <> ib' \/ ib' = O -> img s' !! b = img s !! b) /\ msb s' = msb s /\ freeinode s' = freeinode s /\
  Z.of_nat x = freeblock s' - 1 /\
  (ib' = ib /\ freeblock s' = freeblock s + 1 \/ ib = O /\ Z.of_nat ib' = freeblock s /\ freeblock s' = freeblock s + 2) /\
  (di_type d', di_major d', di_minor d', di_nlink d', di_size d') = (di_type d, di_major d, di_minor d, di_nlink d, di_size d) /\
  Forall (fun a => 0 <= a < 2 ^ 32) (di_addrs d').

(** A direct block. *)
Lemma block_direct d ib bl n s : disk_ok (img s) -> addrs_ok (img s) d ib bl -> Forall (fun a => 0 <= a < 2 ^ 32) (di_addrs d) ->
  46 <= freeblock s < 1000 -> (length bl < 12)%nat ->
  exists d' s' x, iappend_block d (Z.of_nat (length bl)) n s = Ok (d', Z.of_nat x) s' /\ added s d ib bl s' d' ib x.
Proof.
  intros Hd (Hl & Hmax & Hdir & Hind & Hib) Hrng Hf Hlt. pose proof (Hdir _ Hlt) as Ha. rw baddr_ge // in Ha. set (k := length bl) in *.
  rw /iappend_block (proj2 (Z.ltb_lt _ _)); [|rw /NDIRECT; lia]. rw (bind_run _ _ _ _ _ _ (addr_run d k _ n s Ha)).
  change (xint 0 =? 0) with true. cbv iota. set (v := freeblock s). set (s1 := set_freeblock (v + 1) s). set (d1 := set_daddr d (Z.of_nat k) v).
  assert ((b ← newblock; mret (set_daddr d (Z.of_nat k) (xint b))) n s = Ok d1 s1) as Hnew.
  { rw (bind_run _ _ _ _ _ _ (newblock_run n s ltac:(lia))) xint_small //. rw /v. lia. }
  rw (bind_run _ _ _ _ _ _ Hnew). assert (di_addrs d1 !! k = Some v) as Ha1 by (rw /d1 set_daddr_lookup; [by rw decide_True|lia]).
  rw (bind_run _ _ _ _ _ _ (addr_run d1 k _ n s1 Ha1)) xint_small; [|rw /v; lia]. exists d1, s1, (Z.to_nat v). split; [rw Z2Nat.id; [done|rw /v; lia]|].
  split_and!; [|done|done|done|done|cbn; rw Z2Nat.id /v; lia|by left|done|].
  - split_and!; [by rw /d1 /set_daddr /arr_set /= length_insert|rw length_app /=; lia| | |].
    + intros j Hj. rw /d1 set_daddr_lookup; [|lia]. rw baddr_snoc -/k. destruct (decide (j = k));
      [rw Z2Nat.id; [done|rw /v; lia]|by apply Hdir].
    + rw /d1 set_daddr_lookup; [|lia]. rw decide_False //. lia.
    + rw decide_False in Hib; [|lia]. rw decide_False //. rw length_app /=. lia.
  - apply Forall_insert; [done|rw /v; lia].
Qed.

(** A block in the indirect block, which holds the addresses of [bl]. *)
Lemma indirect_run d ib bl blk n s : disk_ok (img s) -> di_addrs d !! 12%nat = Some (Z.of_nat ib) -> (ib < 1000)%nat ->
  img s !! ib = Some blk -> length blk = 1024%nat -> (forall k, (k < 256)%nat -> ldb 4 blk (4 * Z.of_nat k) = baddr bl (12 + k)) ->
  (12 <= length bl < 268)%nat -> 46 <= freeblock s < 1000 ->
  exists blk' s', indirect_block d (Z.of_nat (length bl)) n s = Ok (freeblock s) s' /\
    s' = set_img (insert ib blk') (set_freeblock (freeblock s + 1) s) /\ length blk' = 1024%nat /\
    forall k, (k < 256)%nat -> ldb 4 blk' (4 * Z.of_nat k) = baddr (bl ++ [Z.to_nat (freeblock s)]) (12 + k).
Proof.
  intros Hd Hind Hib Hblk Hlen Hldb Hbl Hf. set (v := freeblock s) in *. set (k := (length bl - 12)%nat).
  assert (4 * (Z.of_nat (length bl) - NDIRECT) = 4 * Z.of_nat k) as Ek by (rw /NDIRECT; lia).
  assert (fits blk (4 * Z.of_nat k) 4) as Hfit by (split; rw ?Hlen; lia).
  rw /indirect_block (bind_run _ _ _ _ _ _ (addr_run d 12 _ n s Hind)) xint_small; [|lia].
  rw (bind_run _ _ _ _ _ _ (rsect_run ib blk n s Hib Hblk)) Ek Hldb; [|lia]. rw baddr_ge; [|lia]. change (0 =? 0) with true. cbv iota.
  set (blk' := stb 4 blk (4 * Z.of_nat k) v). set (s' := set_img (insert ib blk') (set_freeblock (v + 1) s)).
  assert ((b ← newblock; wsect (Z.of_nat ib) (stb 4 blk (4 * Z.of_nat k) (xint b));; mret (stb 4 blk (4 * Z.of_nat k) (xint b))) n s = Ok blk' s') as Hnew.
  { rw (bind_run _ _ _ _ _ _ (newblock_run n s ltac:(lia))) -/v xint_small; [|lia].
    by rw (bind_run _ _ _ _ _ _ (wsect_run ib _ n (set_freeblock (v + 1) s) Hd Hib)). }
  rw (bind_run _ _ _ _ _ _ Hnew). exists blk', s'.
  assert (ldb 4 blk' (4 * Z.of_nat k) = v) as Hv by (rw /blk' ldb_stb // Z.mod_small //; lia).
  rw Hv xint_small; [|lia]. split_and!; [done|done|by rw /blk' length_stb|]. intros j Hj. rw baddr_snoc. case_decide as E.
  - replace j with k by lia. rw Hv Z2Nat.id //. lia.
  - rw /blk' ldb_stb_ne // ?Hldb //; lia.
Qed.

(** Blocks that were never allocated are still zero. *)
Definition fresh (s : mkfs) : Prop := forall b, freeblock s <= Z.of_nat b < 1000 -> img s !! b = Some zeroes.
Lemma ldb_zeroes k : (k < 256)%nat -> ldb 4 zeroes (4 * Z.of_nat k) = 0.
Proof.
  intros Hk. rw /ldb. assert (take 4 (drop (Z.to_nat (4 * Z.of_nat k)) zeroes) = replicate 4 0) as ->; [|done].
  rw /zeroes drop_replicate take_replicate. f_equal. lia.
Qed.
Lemma block_indirect d ib bl n s : disk_ok (img s) -> fresh s -> addrs_ok (img s) d ib bl -> Forall (fun a => 0 <= a < 2 ^ 32) (di_addrs d) ->
  Forall (alloced s) (own ib bl) -> 46 <= freeblock s -> freeblock s + 1 < 1000 -> (12 <= length bl < 268)%nat ->
  exists d' s' x ib', iappend_block d (Z.of_nat (length bl)) n s = Ok (d', Z.of_nat x) s' /\ added s d ib bl s' d' ib' x.
Proof.
  intros Hd Hz (Hl & Hmax & Hdir & Hind & Hib) Hrng Ho Hf1 Hf2 Hbl. set (v := freeblock s) in *.
  rw /iappend_block (proj2 (Z.ltb_ge _ _)); [|rw /NDIRECT; lia]. rw (bind_run _ _ _ _ _ _ (addr_run d 12 _ n s Hind)).
  destruct (decide (12 < length bl)%nat) as [Hgt|Hle].
  - destruct Hib as (Hib0 & blk & Hblk & Hldb).
    assert (alloced s ib) as [Hi1 Hi2] by (rw Forall_forall in Ho; apply Ho; rw /own decide_False // elem_of_app; left; left).
    rw xint_small; [|lia]. rw (proj2 (Z.eqb_neq _ _)); [|lia]. rw bind_ret.
    destruct (disk_lookup (img s) ib Hd) as (blk0 & E & Hlen); [lia|]. rw Hblk in E. injection E as <-.
    destruct (indirect_run d ib bl blk n s) as (blk' & s' & Hr & Hs' & Hlen' & Hldb'); [done|done|lia|done|done|done|lia|lia|].
    rw (bind_run _ _ _ _ _ _ Hr) -/v. exists d, s', (Z.to_nat v), ib. split; [by rw Z2Nat.id; [|lia]|]. rw -/v in Hs', Hldb'. subst s'.
    split_and!; [|by apply disk_insert| |done|done|cbn; lia|by left|done|done].
    + split_and!; [done|rw length_app /=; lia| |done|].
      * intros k Hk. rw baddr_snoc decide_False; [by apply Hdir|lia].
      * rw decide_True; [|rw length_app /=; lia]. split; [done|]. exists blk'. split; [|done]. cbn. apply list_lookup_insert_eq. rw (proj1 Hd). lia.
    + intros b Hb. cbn. rw list_lookup_insert_ne //. by intros ->; destruct Hb.
  - subst ib. change (xint (Z.of_nat 0) =? 0) with true. cbv iota. set (s1 := set_freeblock (v + 1) s). set (d1 := set_daddr d NDIRECT v).
    assert ((b ← newblock; mret (set_daddr d NDIRECT (xint b))) n s = Ok d1 s1) as Hnew.
    { rw (bind_run _ _ _ _ _ _ (newblock_run n s ltac:(lia))) xint_small //. lia. }
    rw (bind_run _ _ _ _ _ _ Hnew). set (ib := Z.to_nat v). assert (Z.of_nat ib = v) as Ev by (rw /ib; lia).
    assert (forall j, di_addrs d1 !! j = if decide (j = 12%nat) then Some v else di_addrs d !! j) as Ha1 by (intros j; apply (set_daddr_lookup d 12); lia).
    destruct (indirect_run d1 ib bl zeroes n s1) as (blk' & s' & Hr & Hs' & Hlen' & Hldb');
      [done|by rw Ha1 Ev|lia|apply Hz; lia|done| |lia|cbn; lia|].
    { intros k Hk. rw ldb_zeroes // baddr_ge //. lia. }
    rw (bind_run _ _ _ _ _ _ Hr). cbn [freeblock set_freeblock s1] in *. exists d1, s', (Z.to_nat (v + 1)), ib.
    split; [rw Z2Nat.id; [done|lia]|]. subst s'. split_and!; [|by apply disk_insert| |done|done|cbn; lia|right; cbn; lia|done|].
    + split_and!; [by rw /d1 /set_daddr /arr_set /= length_insert|rw length_app /=; lia| |by rw Ha1 Ev|].
      * intros k Hk. rw Ha1 decide_False; [|lia]. rw baddr_snoc decide_False; [by apply Hdir|lia].
      * rw decide_True; [|rw length_app /=; lia]. split; [lia|]. exists blk'. split; [|done]. cbn. apply list_lookup_insert_eq. rw (proj1 Hd). lia.
    + intros b Hb. cbn. rw list_lookup_insert_ne //. intros ->. destruct Hb; [done|lia].
    + apply Forall_insert; [done|lia].
Qed.
Lemma block_added d ib bl n s : disk_ok (img s) -> fresh s -> addrs_ok (img s) d ib bl -> Forall (fun a => 0 <= a < 2 ^ 32) (di_addrs d) ->
  Forall (alloced s) (own ib bl) -> 46 <= freeblock s -> freeblock s + 1 < 1000 -> (length bl < 268)%nat ->
  exists d' s' x ib', iappend_block d (Z.of_nat (length bl)) n s = Ok (d', Z.of_nat x) s' /\ added s d ib bl s' d' ib' x.
Proof.
  intros Hd Hz Ha Hrng Ho Hf1 Hf2 Hbl. destruct (decide (length bl < 12)%nat); [|apply block_indirect; try done; lia].
  destruct (block_direct d ib bl n s) as (d' & s' & x & H); [done..|lia|done|]. eauto 10.
Qed.

(** ** The data of a file *)

Definition blocks (im : list (list Z)) (bl : list nat) : list Z := concat ((fun b => default zeroes (im !! b)) <$> bl).
Definition padded (l : list Z) (k : nat) : list Z := l ++ replicate (1024 * k - length l) 0.
(** [d] is a file with the contents [l] in the blocks [bl], the rest of the last
    block being zero. *)
Definition file (im : list (list Z)) (d : dinode) (ib : nat) (bl : list nat) (l : list Z) : Prop :=
  addrs_ok im d ib bl /\ NoDup (own ib bl) /\ blocks im bl = padded l (length bl) /\ (length l <= 1024 * length bl)%nat.

Lemma blocks_app im bl bl' : blocks im (bl ++ bl') = blocks im bl ++ blocks im bl'.
Proof. by rw /blocks fmap_app concat_app. Qed.
Lemma blocks_ext im im' bl : (forall b, b ∈ bl -> im' !! b = im !! b) -> blocks im' bl = blocks im bl.
Proof.
  intros H. rw /blocks. f_equal. apply list_fmap_ext. intros i b Hb. rw H //. by eapply list_elem_of_lookup_2.
Qed.
Lemma length_blocks im bl : disk_ok im -> length (blocks im bl) = (1024 * length bl)%nat.
Proof.
  intros [_ Hb]. assert (forall b, length (default zeroes (im !! b)) = 1024%nat) as Hlen.
  { intros b. destruct (im !! b) as [blk|] eqn:E; [|done]. exact (Forall_lookup_1 _ _ _ _ Hb E). }
  induction bl as [|b bl IH]; [done|]. rw /blocks fmap_cons in IH |- *. cbn [concat]. rw length_app Hlen. cbn [length]. rw IH. lia.
Qed.

(** Writing [c] at the end of the contents, inside the last block. *)
Lemma splice_padded (l2 c : list Z) (m o : nat) : length l2 = o -> (o + length c <= m)%nat ->
  splice (l2 ++ replicate (m - o) 0) (Z.of_nat o) c = l2 ++ c ++ replicate (m - o - length c) 0.
Proof.
  intros <- Hm. rw /splice Nat2Z.id take_app_length. f_equal. f_equal. rw drop_app_ge; [|lia]. rw drop_replicate. f_equal. lia.
Qed.
Lemma addrs_frame im im' d ib bl : addrs_ok im d ib bl -> (ib <> O -> im' !! ib = im !! ib) -> addrs_ok im' d ib bl.
Proof.
  intros (Hl & Hm & Hdir & Hind & Hib) H. split_and!; [done..|]. case_decide; [|done]. destruct Hib as (Hib0 & blk & Hblk & Hldb).
  split; [done|]. exists blk. split; [by rw H|done].
Qed.
Lemma file_write im d ib pre x l c : disk_ok im -> (x < 1000)%nat -> file im d ib (pre ++ [x]) l ->
  (1024 * length pre <= length l)%nat -> (length l + length c <= 1024 * (length pre + 1))%nat ->
  exists blk, im !! x = Some blk /\ length (splice blk (Z.of_nat (length l - 1024 * length pre)) c) = 1024%nat /\
    file (<[x := splice blk (Z.of_nat (length l - 1024 * length pre)) c]> im) d ib (pre ++ [x]) (l ++ c).
Proof.
  intros Hd Hx (Ha & Hnd & Hb & Hl) Hpre Hc. destruct (disk_lookup im x Hd Hx) as (blk & Hblk & Hlen). exists blk. split; [done|].
  set (o := (length l - 1024 * length pre)%nat). assert (length (splice blk (Z.of_nat o) c) = 1024%nat) as Hls.
  { rw length_splice // /fits Hlen. lia. }
  split; [done|]. apply NoDup_app in Hnd as Hnd'. destruct Hnd' as (_ & Hib & Hnd2). apply NoDup_app in Hnd2 as (_ & Hxp & _).
  assert (x ∉ pre) as Hxpre by (intros Hin; apply (Hxp x Hin); by left).
  assert (ib <> O -> x <> ib) as Hxib.
  { intros H0 ->. rw decide_False // in Hib. apply (Hib ib); [by left|]. rw elem_of_app. right. by left. }
  set (im' := <[x := _]> im). assert (blocks im' pre = blocks im pre) as Hpre'.
  { apply blocks_ext. intros b Hin. apply list_lookup_insert_ne. by intros ->. }
  split_and!; [|done| |rw !length_app in Hl |- *; cbn [length] in *; lia].
  { eapply addrs_frame; [done|]. intros H0. apply list_lookup_insert_ne. by apply Hxib. }
  rw blocks_app Hpre'. rw blocks_app {2}/blocks /= Hblk /= app_nil_r in Hb.
  assert (blocks im' [x] = splice blk (Z.of_nat o) c) as ->.
  { rw /blocks /= /im' list_lookup_insert_eq /= ?app_nil_r //. rw (proj1 Hd). lia. }
  pose proof (length_blocks im pre Hd) as Hlp. rw /padded in Hb |- *. rw (length_app pre [x]) in Hb |- *. cbn [length] in Hb |- *. rw -{1}(take_drop (1024 * length pre) l) -app_assoc in Hb.
  apply app_inj_1 in Hb as [Hb1 Hb2]; [|rw Hlp length_take; lia]. rw Hb1 Hb2.
  replace (1024 * (length pre + 1) - length l)%nat with (1024 - o)%nat by lia.
  rw splice_padded; [|rw length_drop; lia|lia].
  rw app_assoc take_drop -app_assoc. f_equal. f_equal. f_equal. rw length_app. lia.
Qed.

(** The file on a disk that is otherwise in order. *)
Definition file_ok (s : mkfs) (d : dinode) (ib : nat) (bl : list nat) (l : list Z) : Prop :=
  disk_ok (img s) /\ fresh s /\ Forall (alloced s) (own ib bl) /\ Forall (fun a => 0 <= a < 2 ^ 32) (di_addrs d) /\
  46 <= freeblock s <= 1000 /\ file (img s) d ib bl l.
Definition attrs (d : dinode) := (di_type d, di_major d, di_minor d, di_nlink d, di_size d).

(** Adding a block when the last one is full. *)
Lemma file_grow s d ib bl l s' d' ib' x : file_ok s d ib bl l -> length l = (1024 * length bl)%nat -> added s d ib bl s' d' ib' x -> freeblock s' <= 1000 ->
  file_ok s' d' ib' (bl ++ [x]) l /\ (forall b, b ∉ own ib bl -> Z.of_nat b < freeblock s -> img s' !! b = img s !! b) /\
  (forall b, b ∈ own ib' (bl ++ [x]) -> b ∈ own ib bl \/ freeblock s <= Z.of_nat b) /\
  freeblock s' - Z.of_nat (length (own ib' (bl ++ [x]))) = freeblock s - Z.of_nat (length (own ib bl)).
Proof.
  intros (Hd & Hz & Ho & _ & Hf & Ha & Hnd & Hb & Hl) Hfull (Ha' & Hd' & Hfr & Hsb & Hfi & Hx & Hib' & _ & Hrng) Hle.
  assert (forall b, b ∈ own ib bl -> (46 <= b)%nat /\ Z.of_nat b < freeblock s) as Ho' by (by apply Forall_forall).
  assert (freeblock s < freeblock s') as Hlt by lia.
  assert (forall b, b ∈ own ib' (bl ++ [x]) -> b = x \/ b ∈ own ib bl \/ b = ib' /\ Z.of_nat b = freeblock s) as Hown.
  { intros b. rw /own !elem_of_app list_elem_of_singleton. intros [Hin|[Hin|Hin]]; [|by right; left; right|by left].
    destruct (decide (ib' = O)); [by apply elem_of_nil in Hin|]. apply list_elem_of_singleton in Hin as ->. right.
    destruct Hib' as [[-> _]|(_ & ? & _)]; [left; left; rw decide_False //; by left|by right]. }
  assert (x ∉ own ib bl) as Hxn by (intros [_ ?]%Ho'; lia).
  assert (forall b, b ∈ bl -> b <> ib') as Hbl.
  { intros b Hin ->. assert (ib' ∈ own ib bl) as H' by (rw /own elem_of_app; by right). apply Ho' in H' as [H1 H2].
    destruct Hib' as [[-> _]|(_ & ? & _)]; [|lia]. apply NoDup_app in Hnd as (_ & Hnd & _). apply (Hnd ib); [|done].
    rw decide_False; [by left|lia]. }
  assert (x <> ib') as Hxib.
  { intros ->. destruct Hib' as [[-> _]|(_ & ? & ?)]; [|lia]. destruct (decide (ib = O)) as [->|]; [lia|]. apply Hxn. rw /own decide_False // elem_of_app. left. by left. }
  split_and!.
  - split_and!; [done| | |done|lia|lia|split_and!; [done| | |]].
    + intros b Hb'. rw Hfr; [apply Hz; lia|]. left. intros ->. destruct Hib' as [[-> _]|(_ & ? & ?)]; [|lia].
      destruct (decide (ib = O)) as [->|]; [lia|]. assert (ib ∈ own ib bl) as [_ ?]%Ho'; [|lia]. rw /own decide_False // elem_of_app. left. by left.
    + apply Forall_forall. intros b [->|[[? ?]%Ho'|[-> ?]]]%Hown; split; lia.
    + rw /own app_assoc. apply NoDup_app. split_and!; [|intros b Hin ->%list_elem_of_singleton|apply NoDup_singleton].
      * destruct Hib' as [[-> _]|(-> & ? & _)]; [done|]. apply NoDup_app. split_and!; [case_decide; [apply NoDup_nil_2|apply NoDup_singleton]| |exact Hnd].
        intros b Hin Hin'. case_decide; [by apply elem_of_nil in Hin|]. apply list_elem_of_singleton in Hin as ->. by apply (Hbl ib').
      * apply elem_of_app in Hin as [Hin|Hin]; [|apply Hxn; rw /own elem_of_app; by right].
        case_decide; [by apply elem_of_nil in Hin|]. by apply list_elem_of_singleton in Hin.
    + rw blocks_app (blocks_ext (img s) (img s')); [|intros b Hin; apply Hfr; left; by apply Hbl]. rw Hb {1}/blocks /=.
      rw Hfr; [|by left]. rw Hz; [|lia].
      rw app_nil_r /padded Hfull length_app Nat.sub_diag app_nil_r. f_equal. change (default zeroes (Some zeroes)) with zeroes. rw /zeroes. f_equal.
      cbn [length]. lia.
    + rw length_app. cbn [length]. lia.
  - intros b Hnb Hlt'. apply Hfr. destruct (decide (ib' = O)); [by right|left; intros ->]. destruct Hib' as [[-> _]|(_ & ? & _)]; [|lia].
    apply Hnb. rw /own decide_False // elem_of_app. left. by left.
  - intros b [->|[?|[-> ?]]]%Hown; [right; lia|by left|right; lia].
  - rw /own !length_app. cbn [length]. destruct Hib' as [[-> ?]|(-> & ? & ?)]; [case_decide; cbn [length]; lia|].
    destruct (decide (ib' = O)); [lia|]. destruct (decide (0 = 0)%nat); [|done]. cbn [length]. lia.
Qed.

(** ** Appending *)

(** From [s] to [s'] the file went from the blocks [bl] to [bl']: it took only
    new blocks, and no block of another file changed. *)
Definition extends (s : mkfs) (ib : nat) (bl : list nat) (s' : mkfs) (ib' : nat) (bl' : list nat) : Prop :=
  msb s' = msb s /\ freeinode s' = freeinode s /\ freeblock s <= freeblock s' /\
  (forall b, b ∉ own ib bl -> Z.of_nat b < freeblock s -> img s' !! b = img s !! b) /\
  (forall b, b ∈ own ib' bl' -> b ∈ own ib bl \/ freeblock s <= Z.of_nat b) /\
  freeblock s' - Z.of_nat (length (own ib' bl')) = freeblock s - Z.of_nat (length (own ib bl)).
Lemma extends_refl s ib bl : extends s ib bl s ib bl.
Proof. split_and!; auto with lia. Qed.
Lemma extends_trans s ib bl s1 ib1 bl1 s2 ib2 bl2 : extends s ib bl s1 ib1 bl1 -> extends s1 ib1 bl1 s2 ib2 bl2 -> extends s ib bl s2 ib2 bl2.
Proof.
  intros (E1 & E2 & E3 & E4 & E5 & E6) (F1 & F2 & F3 & F4 & F5 & F6). split_and!; [congruence|congruence|lia| | |lia].
  - intros b Hb Hlt. rw F4; [by apply E4| |lia]. intros [?|?]%E5; [done|lia].
  - intros b [[?|?]%E5|?]%F5; [by left|by right|right; lia].
Qed.

(** The part of a turn after the block is there. *)
Lemma append_tail s d ib pre x l p n : file_ok s d ib (pre ++ [x]) l -> (1024 * length pre <= length l < 1024 * (length pre + 1))%nat -> p <> [] ->
  (length pre < 268)%nat ->
  let fbn := Z.of_nat (length l) / BSIZE in
  let n1 := Z.min (Z.of_nat (length p)) (u32 ((fbn + 1) * BSIZE - Z.of_nat (length l))) in
  wp (buf ← rsect (Z.of_nat x); wsect (Z.of_nat x) (splice buf (Z.of_nat (length l) - fbn * BSIZE) (take (Z.to_nat n1) p));;
      mret (inl (d, u32 (Z.of_nat (length l) + n1), drop (Z.to_nat n1) p)) : M (dinode * Z * list Z + dinode * Z)) n s (fun r s' =>
    exists c p', r = inl (d, Z.of_nat (length (l ++ c)), p') /\ p = c ++ p' /\ c <> [] /\ file_ok s' d ib (pre ++ [x]) (l ++ c) /\
      extends s ib (pre ++ [x]) s' ib (pre ++ [x])).
Proof.
  intros (Hd & Hz & Ho & Hrng & Hf & Hfile) Hl Hp Hmax. cbn zeta.
  assert (Z.of_nat (length l) / BSIZE = Z.of_nat (length pre)) as -> by (symmetry; apply (Z.div_unique_pos _ _ _ (Z.of_nat (length l) - 1024 * Z.of_nat (length pre))); rw /BSIZE; lia).
  rw (u32_small ((Z.of_nat (length pre) + 1) * BSIZE - Z.of_nat (length l))); [|rw /BSIZE; lia]. set (n1 := Z.min _ _). set (c := take (Z.to_nat n1) p).
  assert (0 < length p)%nat as Hp0 by (destruct p; [done|simpl; lia]).
  assert (Z.of_nat (length c) = n1 /\ 0 < n1 /\ Z.of_nat (length l) + n1 <= 1024 * (Z.of_nat (length pre) + 1)) as (Hc & Hn1 & Hle).
  { rw /c length_take /n1 /BSIZE. lia. }
  assert (alloced s x) as [Hx1 Hx2] by (rw Forall_forall in Ho; apply Ho; rw /own !elem_of_app; right; right; by left).
  destruct (file_write (img s) d ib pre x l c) as (blk & Hblk & Hlen & Hfile'); [done|lia|done|lia|lia|].
  replace (Z.of_nat (length l) - Z.of_nat (length pre) * BSIZE) with (Z.of_nat (length l - 1024 * length pre)) by (rw /BSIZE; lia).
  set (blk' := splice _ _ _) in *. rw /wp (bind_run _ _ _ _ _ _ (rsect_run x blk n s ltac:(lia) Hblk)).
  rw (bind_run _ _ _ _ _ _ (wsect_run x blk' n s Hd ltac:(lia))). cbn [mret K_ret].
  exists c, (drop (Z.to_nat n1) p). rw length_app u32_small; [|lia]. split_and!; [f_equal; f_equal; f_equal; lia|by rw take_drop|by intros ->; cbn in Hc; lia| |].
  - split_and!; [by apply disk_insert| |done|done|cbn; lia|cbn; lia|exact Hfile'].
    intros b Hb. cbn in Hb |- *. rw list_lookup_insert_ne; [by apply Hz|lia].
  - split_and!; [done|done|cbn; lia| |by left|cbn; lia]. intros b Hb _. cbn. apply list_lookup_insert_ne. intros ->. apply Hb.
    rw /own !elem_of_app. right. right. by left.
Qed.

Definition tight (bl : list nat) (l : list Z) : Prop := (1024 * length bl < length l + 1024)%nat.
Lemma append_step s d ib bl l p n : file_ok s d ib bl l -> tight bl l -> p <> [] -> Z.of_nat (length l) < 268 * 1024 -> freeblock s + 1 < 1000 ->
  wp (iappend_step (d, Z.of_nat (length l), p)) n s (fun r s' => exists d' ib' bl' c p', r = inl (d', Z.of_nat (length (l ++ c)), p') /\
    p = c ++ p' /\ c <> [] /\ file_ok s' d' ib' bl' (l ++ c) /\ tight bl' (l ++ c) /\ attrs d' = attrs d /\ extends s ib bl s' ib' bl').
Proof.
  intros Hok Ht Hp Hmax Hroom. pose proof Hok as (Hd & Hz & Ho & Hrng & Hf & Ha & Hnd & Hb & Hl). rw /tight in Ht. rw /iappend_step.
  destruct p as [|c0 p0]; [done|]. set (p := c0 :: p0) in *. assert (Z.of_nat (length l) / BSIZE < 268) as Hq by (apply Z.div_lt_upper_bound; rw /BSIZE; lia).
  change MAXFILE with 268. rw (proj2 (Z.ltb_lt _ _) Hq). apply wp_bind. rw {1}/wp. cbn beta iota delta [assert_ mret K_ret].
  assert (exists d' s1 ib' pre x, iappend_block d (Z.of_nat (length l) / BSIZE) n s = Ok (d', Z.of_nat x) s1 /\ file_ok s1 d' ib' (pre ++ [x]) l /\
    attrs d' = attrs d /\ extends s ib bl s1 ib' (pre ++ [x]) /\ (1024 * length pre <= length l < 1024 * (length pre + 1))%nat) as
    (d' & s1 & ib' & pre & x & Hrun & Hok' & Hat & Hext & Hpre).
  { destruct (decide (length l = 1024 * length bl)%nat) as [Hfull|Hpart].
    - assert (Z.of_nat (length l) / BSIZE = Z.of_nat (length bl)) as E by (symmetry; apply Z.div_unique_exact; rw /BSIZE; lia). rw E in Hq |- *.
      destruct (block_added d ib bl n s) as (d' & s1 & x & ib' & Hrun & Hadd); [done|done|done|done|done|lia|done|lia|].
      pose proof Hadd as (_ & _ & _ & Hs1 & Hs2 & _ & Hfb & Hat & _).
      destruct (file_grow s d ib bl l s1 d' ib' x) as (Hok' & Hfr & Hown & Hbud); [done|done|done|lia|].
      exists d', s1, ib', bl, x. split_and!; [done..| |lia|lia]. split_and!; [done|done|lia|done|done|done].
    - destruct bl as [|x0 bl0 _] using rev_ind; [cbn in *; lia|]. rw length_app in Hl, Ht, Hpart. cbn [length] in *.
      assert (Z.of_nat (length l) / BSIZE = Z.of_nat (length bl0)) as -> by (symmetry; apply (Z.div_unique_pos _ _ _ (Z.of_nat (length l) - 1024 * Z.of_nat (length bl0))); rw /BSIZE; lia).
      exists d, s, ib, bl0, x0. split_and!; [|done..|apply extends_refl|lia|lia]. eapply block_present; [done|exact Ha|done|lia|]. by rw list_lookup_middle. }
  apply wp_bind. rw {1}/wp Hrun. cbn beta iota. assert (length pre < 268)%nat as Hp268 by lia.
  eapply wp_mono; [by apply (append_tail s1 d' ib' pre x l p n)|]. intros r s2 (c & p' & -> & Hpc & Hc & Hok2 & Hext2).
  exists d', ib', (pre ++ [x]), c, p'. split_and!; [done..| |done|by eapply extends_trans]. rw /tight !length_app. cbn [length].
  assert (0 < length c)%nat by (destruct c; [done|simpl; lia]). lia.
Qed.

(** The blocks a file of [len] bytes takes, its indirect block included. *)
Definition fcost (len : nat) : nat := let k := ((len + 1023) / 1024)%nat in (k + if (12 <? k)%nat then 1 else 0)%nat.
Lemma fcost_blocks (len k : nat) : (len <= 1024 * k < len + 1024)%nat -> ((len + 1023) / 1024)%nat = k.
Proof. intros H. symmetry. apply (Nat.div_unique _ _ _ (len + 1023 - 1024 * k)); lia. Qed.
Lemma fcost_mono a b : (a <= b)%nat -> (fcost a <= fcost b)%nat.
Proof.
  intros H. rw /fcost. pose proof (Nat.Div0.div_le_mono (a + 1023) (b + 1023) 1024 ltac:(lia)) as Hd.
  destruct (12 <? _)%nat eqn:E1; destruct (12 <? (b + 1023) / 1024)%nat eqn:E2; rw ?Nat.ltb_lt ?Nat.ltb_ge in E1; rw ?Nat.ltb_lt ?Nat.ltb_ge in E2; lia.
Qed.
Lemma own_cost s d ib bl l : file_ok s d ib bl l -> tight bl l -> length (own ib bl) = fcost (length l).
Proof.
  intros (_ & _ & _ & _ & _ & (_ & _ & _ & _ & Hib) & _ & _ & Hl) Ht. rw /tight in Ht. rw /fcost (fcost_blocks _ (length bl)); [|lia]. rw /own length_app.
  destruct (decide (12 < length bl)%nat) as [Hgt|Hle].
  - destruct Hib as [Hib _]. rw decide_False // (proj2 (Nat.ltb_lt _ _) Hgt) /=. lia.
  - rw decide_True // (proj2 (Nat.ltb_ge _ _)) /=; lia.
Qed.
Lemma append_loop s0 d0 ib0 bl0 l0 p0 n : file_ok s0 d0 ib0 bl0 l0 -> tight bl0 l0 -> (length p0 < n)%nat ->
  Z.of_nat (length (l0 ++ p0)) <= 268 * 1024 -> freeblock s0 - Z.of_nat (fcost (length l0)) + Z.of_nat (fcost (length (l0 ++ p0))) + 1 < 1000 ->
  wp (loop iappend_step (d0, Z.of_nat (length l0), p0)) n s0 (fun r s => exists d ib bl, r = (d, Z.of_nat (length (l0 ++ p0))) /\
    file_ok s d ib bl (l0 ++ p0) /\ tight bl (l0 ++ p0) /\ attrs d = attrs d0 /\ extends s0 ib0 bl0 s ib bl).
Proof.
  intros Hok0 Ht0 Hn Hmax Hroom.
  apply (wp_loop_ghost (fun (p : list Z) st s => exists d ib bl l, st = (d, Z.of_nat (length l), p) /\ l ++ p = l0 ++ p0 /\
    file_ok s d ib bl l /\ tight bl l /\ attrs d = attrs d0 /\ extends s0 ib0 bl0 s ib bl) length) with (g := p0); [|done|].
  { exists d0, ib0, bl0, l0. split_and!; [done..|apply extends_refl]. }
  intros p st s (d & ib & bl & l & -> & Hlp & Hok & Ht & Hat & Hext). destruct (decide (p = [])) as [->|Hp].
  { rw app_nil_r in Hlp. apply wp_ret. exists d, ib, bl. by rw -Hlp. }
  assert (0 < length p)%nat as Hp0 by (destruct p; [done|simpl; lia]). apply (f_equal length) in Hlp as Hlen. rw length_app in Hlen.
  pose proof (own_cost _ _ _ _ _ Hok Ht) as Hc. pose proof (own_cost _ _ _ _ _ Hok0 Ht0) as Hc0.
  pose proof (fcost_mono (length l) (length (l0 ++ p0)) ltac:(lia)) as Hm. pose proof Hext as (_ & _ & _ & _ & _ & Hbud).
  eapply wp_mono; [apply append_step; [exact Hok|done|done|lia|lia]|].
  intros r s' (d' & ib' & bl' & c & p' & -> & -> & Hcne & Hok' & Ht' & Hat' & Hext').
  exists p'. split; [|rw length_app; destruct c; [done|simpl; lia]]. exists d', ib', bl', (l ++ c). split_and!; [done|by rw -app_assoc|done|done|congruence|by eapply extends_trans].
Qed.

(** ** Inodes on the image *)

Definition iblk (k : nat) : nat := (k / 16 + 32)%nat.
Definition inode_at (im : list (list Z)) (k : nat) : dinode := get_dinode (default zeroes (im !! iblk k)) (Z.of_nat (k mod 16)).
Lemma iblock_val k : (k < 200)%nat -> IBLOCK (Z.of_nat k) mkfs_sb = Z.of_nat (iblk k) /\ (32 <= iblk k < 45)%nat /\ Z.of_nat k mod IPB = Z.of_nat (k mod 16).
Proof.
  intros Hk. assert (k / 16 < 13)%nat as Hd by (apply Nat.Div0.div_lt_upper_bound; lia). rw /IBLOCK /iblk. change IPB with 16. change (sb_inodestart mkfs_sb) with 32.
  assert (Z.of_nat k / 16 = Z.of_nat (k / 16)) as -> by by rw Nat2Z.inj_div. split_and!; [rw u32_small; lia|lia..|by rw Nat2Z.inj_mod].
Qed.
Lemma rinode_run k n s : (k < 200)%nat -> msb s = mkfs_sb -> disk_ok (img s) -> rinode (Z.of_nat k) n s = Ok (inode_at (img s) k) s.
Proof.
  intros Hk Hsb Hd. destruct (iblock_val k Hk) as (E1 & E2 & E3). destruct (disk_lookup (img s) (iblk k) Hd) as (blk & Hblk & _); [lia|].
  rw /rinode (bind_run _ _ _ _ _ _ (eq_refl : gets msb n s = Ok (msb s) s)) Hsb E1 E3 (bind_run _ _ _ _ _ _ (rsect_run (iblk k) blk n s ltac:(lia) Hblk)).
  by rw /inode_at Hblk.
Qed.
Lemma winode_run k d n s : (k < 200)%nat -> msb s = mkfs_sb -> disk_ok (img s) -> dinode_ok d ->
  exists im', winode (Z.of_nat k) d n s = Ok tt (set_img (fun _ => im') s) /\ disk_ok im' /\ inode_at im' k = d /\
    (forall j, (j < 200)%nat -> j <> k -> inode_at im' j = inode_at (img s) j) /\ (forall b, (b < 32 \/ 45 <= b)%nat -> im' !! b = img s !! b).
Proof.
  intros Hk Hsb Hd Hok. destruct (iblock_val k Hk) as (E1 & E2 & E3). destruct (disk_lookup (img s) (iblk k) Hd) as (blk & Hblk & Hlen); [lia|].
  pose proof Hok as (_ & _ & _ & _ & _ & Hl13 & _). assert (0 <= Z.of_nat (k mod 16) < 16) as Hk16 by (pose proof (Nat.mod_upper_bound k 16); lia).
  assert (length (put_dinode blk (Z.of_nat (k mod 16)) d) = 1024%nat) as Hlp.
  { rw /put_dinode length_splice // /fits (length_dinode d Hl13) Hlen /DINODE. lia. }
  eexists. split; [|split_and!].
  - rw /winode (bind_run _ _ _ _ _ _ (eq_refl : gets msb n s = Ok (msb s) s)) Hsb E1 E3 (bind_run _ _ _ _ _ _ (rsect_run (iblk k) blk n s ltac:(lia) Hblk)).
    by rw (wsect_run (iblk k) _ n s Hd ltac:(lia)).
  - by apply disk_insert.
  - rw /inode_at list_lookup_insert_eq; [|rw (proj1 Hd); lia]. by apply get_put_dinode.
  - intros j Hj Hne. rw /inode_at. destruct (decide (iblk j = iblk k)) as [E|E]; [|by rw list_lookup_insert_ne].
    rw E list_lookup_insert_eq; [|rw (proj1 Hd); lia]. rw Hblk. change (default zeroes (Some blk)) with blk. pose proof (Nat.mod_upper_bound j 16 ltac:(lia)).
    apply get_put_dinode_ne; [done|done|lia| |done]. intros Em. apply Hne. rw /iblk in E.
    assert (j / 16 = k / 16)%nat as Eq by lia. assert (k mod 16 = j mod 16)%nat as Em' by lia. by rw (Nat.div_mod_eq j 16) Eq -Em' -Nat.div_mod_eq.
  - intros b Hb. apply list_lookup_insert_ne. lia.
Qed.
