(* ===== verification/MkfsBuild.v ===== *)
(** * The image [mkfs] builds

    [rep] relates the image to a list of files, each a type, a size and its
    contents: the superblock, an empty log, inodes, direct and indirect blocks
    that no two files share.  Each operation of [mkfs.c] is a step on the list,
    and [main] leaves the list [image] computes from its arguments. *)

From Stdlib Require Import Ascii.
From S2P Require Import Prelude Mem KString Spinlock Machine KState Printf FsFmt FsFmtSpec Fs FsBits Mkfs MkfsSpec.
Import Mkfs.

Record afile := AFile { af_type : Z; af_size : Z; af_data : list Z }.
Implicit Types (h : hostfile) (f : afile) (fs : list afile) (s : mkfs) (im : list (list Z)).

Definition cost f : nat := fcost (length (af_data f)).
Definition used fs : nat := sum_list_with cost fs.
Lemma used_app fs fs' : used (fs ++ fs') = (used fs + used fs')%nat.
Proof. apply sum_list_with_app. Qed.
Lemma used_insert fs i f f' : fs !! i = Some f -> (used (<[i := f']> fs) + cost f = used fs + cost f')%nat.
Proof.
  revert i. induction fs as [|g fs IH]; intros [|i] E; [done|done|injection E as ->; cbn; lia|]. specialize (IH i E).
  change (cost g + used (<[i := f']> fs) + cost f = cost g + used fs + cost f')%nat. lia.
Qed.

(** Inode [k] is the file [f], in the blocks [bl] with the indirect block [ib]. *)
Definition inode_ok im (k : nat) f (p : nat * list nat) : Prop :=
  attrs (inode_at im k) = (af_type f, 0, 0, 1, af_size f) /\ Forall (fun a => 0 <= a < 2 ^ 32) (di_addrs (inode_at im k)) /\
  file im (inode_at im k) p.1 p.2 (af_data f) /\ tight p.2 (af_data f).
Definition owns (p : nat * list nat) : list nat := own p.1 p.2.

(** The superblock is in block 1 and the log is empty. *)
Definition meta im : Prop :=
  im !! 1%nat = Some (splice zeroes 0 (superblock_bytes mkfs_sb)) /\ forall b, (b = 0 \/ 2 <= b < 32)%nat -> im !! b = Some zeroes.

(** The files [L] lies in: allocated, and no block in two of them. *)
Definition layout s fs (L : list (nat * list nat)) : Prop :=
  length L = length fs /\
  (forall i j p q, i <> j -> L !! i = Some p -> L !! j = Some q -> owns p ## owns q) /\
  (forall i f p, fs !! i = Some f -> L !! i = Some p -> Forall (alloced s) (owns p) /\ inode_ok (img s) (S i) f p).
Definition rep s fs : Prop :=
  msb s = mkfs_sb /\ disk_ok (img s) /\ meta (img s) /\ fresh s /\ freeinode s = Z.of_nat (length fs) + 1 /\ (length fs < 200)%nat /\
  freeblock s = 46 + Z.of_nat (used fs) /\ freeblock s <= 1000 /\ exists L, layout s fs L.

Lemma inode_at_ext im im' k : (k < 200)%nat -> (forall b, (32 <= b < 45)%nat -> im' !! b = im !! b) -> inode_at im' k = inode_at im k.
Proof. intros Hk H. destruct (iblock_val k Hk) as (_ & Hb & _). by rw /inode_at H. Qed.
(** A file is untouched by writes to other blocks and other inodes. *)
Lemma file_frame im im' d ib bl l : file im d ib bl l -> (forall b, b ∈ own ib bl -> im' !! b = im !! b) -> file im' d ib bl l.
Proof.
  intros (Ha & Hnd & Hb & Hl) H. split_and!; [|done| |done].
  - eapply addrs_frame; [done|]. intros H0. apply H. rw /own elem_of_app decide_False //. left. by left.
  - rw -Hb. apply blocks_ext. intros b Hin. apply H. rw /own elem_of_app. by right.
Qed.
Lemma inode_frame im im' k f p : inode_ok im k f p -> inode_at im' k = inode_at im k -> (forall b, b ∈ owns p -> im' !! b = im !! b) -> inode_ok im' k f p.
Proof. intros (Hat & Hr & Hf & Ht) E H. rw /inode_ok E. split_and!; [done|done|by eapply file_frame|done]. Qed.
Lemma meta_frame im im' : meta im -> (forall b, (b < 32)%nat -> im' !! b = im !! b) -> meta im'.
Proof. intros [H1 H2] H. split; [by rw H; [|lia]|]. intros b Hb. rw H; [by apply H2|lia]. Qed.

(** ** [ialloc] *)

Lemma ialloc_rep ty n s fs : rep s fs -> (length fs < 199)%nat -> 0 <= ty < 2 ^ 15 ->
  wp (ialloc ty) n s (fun r s' => r = Z.of_nat (S (length fs)) /\ rep s' (fs ++ [AFile ty 0 []])).
Proof.
  intros (Hsb & Hd & Hm & Hz & Hfi & Hlt & Hfb & Hle & L & HL & Hdis & Hin) Hn Hty.
  set (d := Dinode (i16 (xshort ty)) 0 0 (i16 (xshort 1)) (xint 0) (di_addrs zero_dinode)).
  assert (i16 (xshort ty) = ty) as Ety by (rw /xshort le_val_bytes; apply i16_of; lia).
  assert (d = Dinode ty 0 0 1 0 (replicate 13 0)) as Ed by by rw /d Ety.
  set (k := S (length fs)). assert (u32 (freeinode s + 1) = Z.of_nat k + 1) as Ek by (rw u32_small; lia).
  destruct (winode_run k d n (set_freeinode (Z.of_nat k + 1) s)) as (im' & Hrun & Hd' & Hat & Hoth & Hfr); [lia|done|done| |].
  { rw Ed. split_and!; cbn; try lia. repeat constructor; lia. }
  rw /wp /ialloc (bind_run _ _ _ _ _ _ (eq_refl : gets freeinode n s = Ok (freeinode s) s)) Ek.
  rw (bind_run _ _ _ _ _ _ (eq_refl : modify _ n s = Ok tt (set_freeinode (Z.of_nat k + 1) s))).
  assert (freeinode s = Z.of_nat k) as -> by lia. rw (bind_run _ _ _ _ _ _ Hrun). cbn beta iota delta [mret K_ret]. split; [done|].
  split_and!; [done|done| | | |rw length_app; cbn [length]; lia|rw used_app; cbn; lia|done|].
  - eapply meta_frame; [done|]. intros b Hb. apply Hfr. lia.
  - intros b Hb. cbn in *. rw Hfr; [by apply Hz|]. lia.
  - cbn. rw length_app. cbn [length]. lia.
  - exists (L ++ [(O, [])]). split_and!; [rw !length_app; cbn [length]; lia| |].
    + intros i j p q Hij [Hp|[? Hp]]%lookup_app_Some [Hq|[? Hq]]%lookup_app_Some.
      * by eapply Hdis.
      * apply list_lookup_singleton_Some in Hq as [_ <-]. intros b _ Hb. by apply elem_of_nil in Hb.
      * apply list_lookup_singleton_Some in Hp as [_ <-]. intros b Hb. by apply elem_of_nil in Hb.
      * apply list_lookup_singleton_Some in Hp as [? _], Hq as [? _]. lia.
    + intros i f p [Hf|[Hl Hf]]%lookup_app_Some Hp.
      * apply lookup_lt_Some in Hf as Hi. rw lookup_app_l in Hp; [|lia]. destruct (Hin i f p Hf Hp) as [Hal Hok]. split; [exact Hal|].
        rw Forall_forall in Hal. eapply inode_frame; [done|apply Hoth; lia|]. intros b Hb. apply Hfr. apply Hal in Hb as [? _]. lia.
      * apply list_lookup_singleton_Some in Hf as [? <-]. rw lookup_app_r in Hp; [|lia]. apply list_lookup_singleton_Some in Hp as [_ <-].
        split; [by apply Forall_nil_2|]. replace (S i) with k by lia. cbn [img set_img]. rw /inode_ok Hat Ed. split_and!; [done|repeat constructor; lia| |rw /tight; cbn [length snd]; lia].
        split_and!; [|apply NoDup_nil_2|done|cbn; lia]. split_and!; [done|cbn; lia| |done|done].
        intros j Hj. rw baddr_ge; [|cbn; lia]. cbn. by apply (lookup_replicate_2 13 0 j); lia.
Qed.

(** ** [iappend] *)

Lemma i16_range z : - 2 ^ 15 <= i16 z < 2 ^ 15.
Proof. rw /i16. pose proof (Z.mod_pos_bound z (2 ^ 16) ltac:(lia)). rw /u16. case_match eqn:E; lia. Qed.

(** One file changes, and takes only blocks that were free. *)
Lemma layout_update s s' fs L i f f' p p' : layout s fs L -> (length fs < 200)%nat -> fs !! i = Some f -> L !! i = Some p -> freeblock s <= freeblock s' ->
  (forall b, b ∉ owns p -> (46 <= b)%nat -> Z.of_nat b < freeblock s -> img s' !! b = img s !! b) ->
  (forall j, (j < 200)%nat -> j <> S i -> inode_at (img s') j = inode_at (img s) j) ->
  (forall b, b ∈ owns p' -> b ∈ owns p \/ freeblock s <= Z.of_nat b) -> Forall (alloced s') (owns p') -> inode_ok (img s') (S i) f' p' ->
  layout s' (<[i := f']> fs) (<[i := p']> L).
Proof.
  intros (HL & Hdis & Hin) Hlt Hi Hp Hle Hfr Hoth Hown Hal Hok. apply lookup_lt_Some in Hi as Hil.
  assert (forall j q, j <> i -> L !! j = Some q -> owns p' ## owns q) as Hd1.
  { intros j q Hj Hq b Hb Hbq. destruct (Hown b Hb) as [Hbp|Hbf]; [by eapply (Hdis i j p q)|].
    apply lookup_lt_Some in Hq as Hjl. destruct (lookup_lt_is_Some_2 fs j) as [g Hg]; [lia|]. destruct (Hin j g q Hg Hq) as [Ha _].
    rw Forall_forall in Ha. apply Ha in Hbq as [_ ?]. lia. }
  split_and!; [by rw !length_insert| |].
  - intros j k q r Hjk Hq Hr. destruct (decide (j = i)) as [->|Hj]; destruct (decide (k = i)) as [->|Hk]; [done| | |].
    + rw list_lookup_insert_eq in Hq; [|lia]. rw list_lookup_insert_ne // in Hr. injection Hq as <-. by eapply Hd1.
    + rw list_lookup_insert_eq in Hr; [|lia]. rw list_lookup_insert_ne // in Hq. injection Hr as <-. intros b Hb Hb'. by eapply (Hd1 j q).
    + rw list_lookup_insert_ne // in Hq. rw list_lookup_insert_ne // in Hr. by eapply (Hdis j k).
  - intros j g q Hg Hq. destruct (decide (j = i)) as [->|Hj].
    + rw list_lookup_insert_eq in Hq; [|lia]. rw list_lookup_insert_eq in Hg; [|lia]. by injection Hg as <-; injection Hq as <-.
    + rw list_lookup_insert_ne // in Hq. rw list_lookup_insert_ne // in Hg. apply lookup_lt_Some in Hg as Hjl. destruct (Hin j g q Hg Hq) as [Ha Hok'].
      split; [eapply Forall_impl; [exact Ha|]; intros b [? ?]; split; lia|]. rw Forall_forall in Ha.
      eapply inode_frame; [done|apply Hoth; lia|]. intros b Hb. destruct (Ha b Hb) as [? ?]. apply Hfr; [|done|done]. intros Hbp. by eapply (Hdis i j p q).
Qed.
Lemma iappend_rep i p n s fs f : rep s fs -> fs !! i = Some f -> af_size f = Z.of_nat (length (af_data f)) ->
  let f' := AFile (af_type f) (Z.of_nat (length (af_data f ++ p))) (af_data f ++ p) in
  Z.of_nat (length (af_data f ++ p)) <= 268 * 1024 -> (used (<[i := f']> fs) < 953)%nat -> (length p < n)%nat ->
  wp (iappend (Z.of_nat (S i)) p) n s (fun _ s' => rep s' (<[i := f']> fs)).
Proof.
  intros (Hsb & Hd & Hm & Hz & Hfi & Hlt & Hfb & Hle & L & Hlay) Hi Hsz f' Hmax Hroom Hn. pose proof Hlay as (HL & _ & Hin).
  apply lookup_lt_Some in Hi as Hil. destruct (lookup_lt_is_Some_2 L i) as [[ib bl] Hp]; [lia|]. destruct (Hin i f _ Hi Hp) as [Hal (Hat & Hrng & Hfile & Ht)].
  cbn [fst snd] in *. pose proof (used_insert fs i f f' Hi) as Hu. rw /cost in Hu. change (af_data f') with (af_data f ++ p) in Hu.
  set (d := inode_at (img s) (S i)) in *. assert (di_size d = Z.of_nat (length (af_data f))) as Hds by (rw -Hsz; by injection Hat).
  assert (file_ok s d ib bl (af_data f)) as Hok0 by (split_and!; [done|done|exact Hal|done|lia|lia|exact Hfile]).
  rw /iappend. apply wp_bind. rw {1}/wp rinode_run //; [|lia]. rw -/d Hds. pose proof (length_app (af_data f) p) as Hlen. rw xint_small; [|lia].
  apply wp_bind. eapply wp_mono; [apply append_loop; [exact Hok0|done|done|lia|lia]|].
  intros r s1 (d1 & ib1 & bl1 & -> & Hok1 & Ht1 & Hat1 & Hext). pose proof Hext as (Hs1 & Hf1 & Hfb1 & Hfr1 & Hown1 & Hbud).
  rw (own_cost _ _ _ _ _ Hok1 Ht1) (own_cost _ _ _ _ _ Hok0 Ht) in Hbud. pose proof Hok1 as (Hd1 & Hz1 & Hal1 & Hrng1 & _ & Hfile1). rw xint_small; [|lia].
  assert (forall b, (b < 46)%nat -> img s1 !! b = img s !! b) as Hlow.
  { intros b Hb. apply Hfr1; [|lia]. intros Hb'. rw Forall_forall in Hal. apply Hal in Hb' as [? _]. lia. }
  destruct (winode_run (S i) (set_dsize d1 (Z.of_nat (length (af_data f ++ p)))) n s1) as (im' & Hrun & Hd' & Hat' & Hoth & Hfr); [lia|congruence|done| |].
  { destruct Hfile1 as ((Hl13 & _) & _). assert (- 2 ^ 15 <= di_type d < 2 ^ 15) as Hty by apply i16_range. clearbody d.
    rw /attrs in Hat1, Hat. injection Hat1 as E1 E2 E3 E4 _. injection Hat as ? ? ? ? _. split_and!; cbn; try lia; done. }
  rw /wp Hrun. split_and!; [cbn; congruence|done| | |cbn; rw length_insert; congruence|by rw length_insert|cbn; lia|cbn; lia|].
  - eapply meta_frame; [exact Hm|]. intros b Hb. rw -Hlow; [apply Hfr; lia|lia].
  - intros b Hb. cbn in *. rw Hfr; [by apply Hz1|lia].
  - exists (<[i := (ib1, bl1)]> L). eapply (layout_update s _ fs L i f f' (ib, bl)); [done|done|done|done|done| | |exact Hown1|exact Hal1|].
    + intros b Hb Hb46 Hbf. cbn. rw Hfr; [by apply Hfr1|lia].
    + intros j Hj Hne. cbn. rw Hoth //. apply inode_at_ext; [done|]. intros b Hb. apply Hlow. lia.
    + rw /inode_ok. cbn [img set_img fst snd]. rw Hat'. split_and!; [|done| |done].
      * rw /attrs in Hat1, Hat |- *. cbn. congruence.
      * apply (file_frame (img s1)); [exact Hfile1|]. intros b Hin'. rw Forall_forall in Hal1. apply Hal1 in Hin' as [? _]. apply Hfr. lia.
Qed.

(** ** The files of the image *)

Definition name14 (name : list Z) : list Z := take 14 name ++ replicate (14 - length name) 0.
Definition entry (inum : nat) (name : list Z) : list Z := dirent_bytes (Dirent (Z.of_nat inum) (name14 name)).
Definition plain (path : list Z) : list Z := if bool_decide (take 5 path = bytes_of_string "user/") then drop 5 path else path.
Definition contents (h : hostfile) : list Z := concat (default [] (hf_pieces h)).
Definition host_ok (h : hostfile) : Prop :=
  (exists pieces, hf_pieces h = Some pieces /\ Forall (fun c => (length c <= 1024)%nat) pieces) /\
  Forall (fun c => c <> 0) (hf_path h) /\ ((chr "/") ∉ plain (hf_path h)) /\ Z.of_nat (length (contents h)) <= 268 * 1024.
(** The directory: "." and "..", then one entry for each file, in order. *)
Definition entries (files : list hostfile) : list Z :=
  entry 1 (bytes_of_string ".") ++ entry 1 (bytes_of_string "..") ++
  concat (imap (fun i h => entry (i + 2) (skip_underscore (plain (hf_path h)))) files).
Definition file_of (h : hostfile) : afile := AFile T_FILE (Z.of_nat (length (contents h))) (contents h).
Definition image (size : Z) (files : list hostfile) : list afile := AFile T_DIR size (entries files) :: (file_of <$> files).
Definition dirsize (files : list hostfile) : Z := Z.of_nat (length (entries files)).

Lemma length_entry k name : length (entry k name) = 16%nat.
Proof. rw /entry /dirent_bytes /name14 /= length_app length_take length_replicate. lia. Qed.
Lemma link_bytes (k : nat) name : (k < 1000)%nat -> dirent_bytes (link_entry (Z.of_nat k) (name14 name)) = entry k name.
Proof. intros Hk. rw /link_entry /entry /xshort le_val_bytes Z.mod_small //. lia. Qed.
#[local] Opaque entry.
Lemma length_entries files : length (entries files) = (16 * (2 + length files))%nat.
Proof.
  rw /entries length_app length_entry length_app length_entry. enough (forall k, length (concat (imap (fun i h => entry (k + i) (skip_underscore (plain (hf_path h)))) files)) = (16 * length files)%nat) as H.
  { rw (imap_ext _ (fun i h => entry (2 + i) (skip_underscore (plain (hf_path h))))); [rw (H 2%nat); lia|]. intros i h _. by rw Nat.add_comm. }
  induction files as [|h files IH]; intros k; [done|]. rw imap_cons. cbn [concat]. rw length_app length_entry. cbn [length].
  rw (imap_ext _ (fun i h => entry (S k + i) (skip_underscore (plain (hf_path h))))); [rw (IH (S k)); lia|]. intros i g _. rw /compose. f_equal. lia.
Qed.
Lemma entries_snoc files h : entries (files ++ [h]) = entries files ++ entry (S (S (length files))) (skip_underscore (plain (hf_path h))).
Proof.
  rw /entries imap_app concat_app. generalize (entry 1 (bytes_of_string ".")) (entry 1 (bytes_of_string "..")). intros a b.
  cbn [imap concat]. rw (app_nil_r (entry _ _)) -!app_assoc. do 4 f_equal. lia.
Qed.
Lemma dir_name_run name n s : Forall (fun c => c <> 0) name -> dir_name name n s = Ok (name14 name) s.
Proof.
  intros Hn. assert (cstr (name ++ [0]) = Some name) as Hc.
  { induction Hn as [|c name Hc _ IH]; [done|]. cbn. rw IH. by destruct c. }
  rw /dir_name /strncpy (strncpy_loop_spec _ _ _ Hc). change (Z.to_nat DIRSIZ) with 14%nat. rw -/(name14 name). cbn [mbind option_bind].
  assert (length (name14 name) = 14%nat) as Hl by (rw /name14 length_app length_take length_replicate; lia).
  rw Hl. rw drop_ge; [|done]. by rw app_nil_r.
Qed.

(** ** [mkfs_file] *)

Lemma plain_nz path : Forall (fun c => c <> 0) path -> Forall (fun c => c <> 0) (skip_underscore (plain path)).
Proof.
  intros H. assert (Forall (fun c => c <> 0) (plain path)) as Hp by (rw /plain; case_match; [by apply Forall_drop|done]).
  destruct Hp as [|c l Hc Hl]; [done|]. cbn. case_match; [done|by constructor].
Qed.
Lemma shortname_run path n s : ((chr "/") ∉ plain path) -> shortname path n s = Ok (plain path) s.
Proof.
  intros H. rw /shortname -/(plain path). assert (existsb (Z.eqb (chr "/")) (plain path) = false) as ->; [|done].
  apply not_true_is_false. intros (x & Hx & <-%Z.eqb_eq)%existsb_exists. apply H. by apply list_elem_of_In.
Qed.
Lemma used_cons f fs : used (f :: fs) = (cost f + used fs)%nat.
Proof. done. Qed.
Lemma image_snoc size files h : image size (files ++ [h]) = AFile T_DIR size (entries (files ++ [h])) :: (file_of <$> files) ++ [file_of h].
Proof. by rw /image fmap_app. Qed.
Lemma used_mono l l' ty sz ty' sz' : (length l <= length l')%nat -> (cost (AFile ty sz l) <= cost (AFile ty' sz' l'))%nat.
Proof. apply fcost_mono. Qed.

(** The contents, piece by piece. *)
Lemma pieces_rep f0 fs pieces n s : rep s (f0 :: fs ++ [AFile T_FILE 0 []]) -> Forall (fun c => (length c <= 1024)%nat) pieces -> (1024 < n)%nat ->
  Z.of_nat (length (concat pieces)) <= 268 * 1024 -> (used (f0 :: fs ++ [AFile T_FILE (Z.of_nat (length (concat pieces))) (concat pieces)]) < 953)%nat ->
  wp (for_each pieces (iappend (Z.of_nat (S (S (length fs)))))) n s (fun _ s' =>
    rep s' (f0 :: fs ++ [AFile T_FILE (Z.of_nat (length (concat pieces))) (concat pieces)])).
Proof.
  intros Hrep Hp Hn Hmax Hroom.
  apply (wp_for_each (fun pre s => rep s (f0 :: fs ++ [AFile T_FILE (Z.of_nat (length (concat pre))) (concat pre)]))); [done| |done].
  intros pre x rest s1 -> Hrep1. assert (concat (pre ++ [x]) = concat pre ++ x) as Ec by by rw concat_app /= app_nil_r.
  set (l := concat pre) in *. rw concat_app length_app in Hmax. rw concat_app in Hroom. rw -/l in Hmax, Hroom. cbn [concat] in Hmax, Hroom. rw length_app in Hmax.
  assert (length x <= 1024)%nat as Hx by (rw Forall_app Forall_cons in Hp; tauto).
  assert ((f0 :: fs ++ [AFile T_FILE (Z.of_nat (length l)) l]) !! S (length fs) = Some (AFile T_FILE (Z.of_nat (length l)) l)) as Hi by by rw /= list_lookup_middle.
  rw Ec. replace (f0 :: fs ++ [AFile T_FILE (Z.of_nat (length (l ++ x))) (l ++ x)]) with
    (<[S (length fs) := AFile T_FILE (Z.of_nat (length (l ++ x))) (l ++ x)]> (f0 :: fs ++ [AFile T_FILE (Z.of_nat (length l)) l])) in * .
  2: { cbn. f_equal. rw insert_app_r_alt; [|lia]. by rw Nat.sub_diag. }
  apply (iappend_rep _ _ _ _ _ _ Hrep1 Hi); [done|cbn; rw length_app; lia| |lia].
  eapply Nat.le_lt_trans; [|exact Hroom]. pose proof (used_insert _ _ _ (AFile T_FILE (Z.of_nat (length (l ++ x))) (l ++ x)) Hi) as Hu.
  rw used_cons used_app in Hu |- *. cbn [af_type af_data] in *. rw used_cons used_app.
  pose proof (used_mono (l ++ x) (l ++ x ++ concat rest) T_FILE (Z.of_nat (length (l ++ x))) T_FILE (Z.of_nat (length (l ++ x ++ concat rest)))) as Hm.
  rw !length_app in Hm. specialize (Hm ltac:(lia)). rw /used /= in Hu |- *. rw !length_app in Hu |- *. lia.
Qed.

Lemma mkfs_file_rep files h n s : rep s (image (dirsize files) files) -> host_ok h -> (length files < 198)%nat -> (1024 < n)%nat ->
  (used (image (dirsize (files ++ [h])) (files ++ [h])) < 953)%nat ->
  wp (mkfs_file 1 h) n s (fun _ s' => rep s' (image (dirsize (files ++ [h])) (files ++ [h]))).
Proof.
  intros Hrep ((pieces & Hpc & Hsz) & Hnz & Hsl & Hmax) Hlen Hn Hroom. rw /mkfs_file. apply wp_bind. rw {1}/wp shortname_run // Hpc.
  rw /contents Hpc in Hmax. cbn [default from_option] in Hmax. assert (contents h = concat pieces) as Ec by by rw /contents Hpc.
  assert (file_of h = AFile T_FILE (Z.of_nat (length (concat pieces))) (concat pieces)) as Ef by by rw /file_of Ec.
  rw image_snoc Ef in Hroom |- *. apply wp_bind.
  eapply wp_mono; [apply (ialloc_rep T_FILE n s _ Hrep); [cbn; rw length_fmap; lia|done]|]. intros r s1 (-> & Hrep1). cbn [image length] in Hrep1 |- *. rw length_fmap.
  apply wp_bind. rw {1}/wp dir_name_run; [|by apply plain_nz]. cbn beta iota. apply wp_bind. rw link_bytes; [|lia].
  set (e := entry _ _). pose proof (entries_snoc files h) as Ee. rw -/e in Ee. rw used_cons used_app in Hroom.
  eapply wp_mono; [apply (iappend_rep 0 e n s1 _ (AFile T_DIR (dirsize files) (entries files)) Hrep1 eq_refl eq_refl)|].
  - cbn [af_data]. rw -Ee length_entries length_app. cbn [length]. lia.
  - cbn [af_data af_type insert list_insert]. rw -Ee -/(dirsize (files ++ [h])). 
    change (used (AFile T_DIR (dirsize (files ++ [h])) (entries (files ++ [h])) :: (file_of <$> files) ++ [AFile T_FILE 0 []]) < 953)%nat.
    rw used_cons used_app. change (used [AFile T_FILE 0 []]) with O. lia.
  - rw /e length_entry. lia.
  - intros [] s2 Hrep2. cbn [af_data af_type insert list_insert] in Hrep2. rw -Ee -/(dirsize (files ++ [h])) in Hrep2.
    rw -(length_fmap file_of files). apply pieces_rep; [exact Hrep2|done|done|done|]. rw used_cons used_app. exact Hroom.
Qed.

(** ** The bitmap *)

Lemma set_bit_bit buf i b : length buf = 1024%nat -> 0 <= i < 8192 -> 0 <= b < 8192 -> bit (set_bit buf i) b = (b =? i) || bit buf b.
Proof.
  intros Hl Hi Hb. destruct (byte_at i Hi) as [Hqi Him]. rw /set_bit /arr_set /u8 bit_update //. case_decide as E.
  - rw Z.lor_spec Z.shiftl_1_l Z.pow2_bits_eqb; [|lia]. by rw same_bit // /bit E orb_comm.
  - rw (proj2 (Z.eqb_neq b i)) //. by intros ->.
Qed.
Lemma set_bit_length buf i : length (set_bit buf i) = length buf.
Proof. by rw /set_bit /arr_set length_insert. Qed.
Lemma bitmap_bits (k : nat) : Z.of_nat k <= 8192 -> let buf := fold_left set_bit (rangeZ k) zeroes in
  length buf = 1024%nat /\ forall b, 0 <= b < 8192 -> bit buf b = (b <? Z.of_nat k).
Proof.
  induction k as [|k IH]; intros Hk; cbn zeta.
  { split; [done|]. intros b Hb. rw (proj2 (Z.ltb_ge _ _)); [|lia]. rw /bit /zeroes.
    assert (b / 8 < 1024) by (apply Z.div_lt_upper_bound; lia). pose proof (Z.div_pos b 8 ltac:(lia) ltac:(lia)).
    rw lookup_total_replicate_2; [by rw Z.bits_0|lia]. }
  destruct (IH ltac:(lia)) as [Hl Hb]. rw rangeZ_S fold_left_app. cbn [fold_left]. split; [by rw set_bit_length|].
  intros b Hb0. rw set_bit_bit // ?Hb //; [|lia..]. destruct (Z.eqb_spec b (Z.of_nat k)); destruct (Z.ltb_spec b (Z.of_nat k)); destruct (Z.ltb_spec b (Z.of_nat (S k))); try done; lia.
Qed.

(** ** [main] *)

(** [mkfs] ends with [exit(0)]. *)
Definition ends {A} (m : M A) n s (Q : mkfs -> Prop) : Prop := exists s', m n s = Panic "exit(0)" s' /\ Q s'.
Lemma ends_bind {A B} (m : M A) (k : A -> M B) n s P Q : wp m n s P -> (forall a s', P a s' -> ends (k a) n s' Q) -> ends (m ≫= k) n s Q.
Proof. intros (a & s1 & Hrun & HP)%wp_run Hk. destruct (Hk a s1 HP) as (s2 & H2 & HQ). exists s2. by rw (bind_run _ _ _ _ _ _ Hrun). Qed.
Lemma ends_run {A B} (m : M A) (k : A -> M B) n s a s' Q : m n s = Ok a s' -> ends (k a) n s' Q -> ends (m ≫= k) n s Q.
Proof. intros Hrun (s2 & H2 & HQ). exists s2. by rw (bind_run _ _ _ _ _ _ Hrun). Qed.

(** Zeroing the image. *)
Lemma zero_run n s : img s = [] ->
  wp (for_each (rangeZ (Z.to_nat FSSIZE)) (fun i => wsect i zeroes)) n s (fun _ s' => s' = set_img (fun _ => replicate 1000 zeroes) s).
Proof.
  intros H0. change (Z.to_nat FSSIZE) with 1000%nat. apply (wp_for_each_range (fun i s' => s' = set_img (fun _ => replicate i zeroes) s)); [|clear|done].
  { destruct s as [i a b c]. cbn in H0. by rw H0. }
  intros i s' Hi ->. rw /wp /wsect /modify sector_small //. rw /set_img /= /put_block length_replicate Nat.ltb_irrefl Nat.sub_diag. f_equal.
  by rw -(replicate_add i 1) Nat.add_1_r.
Qed.
Definition sb_block : list Z := splice zeroes 0 (superblock_bytes mkfs_sb).
(** The image before the first inode: nothing but the superblock. *)
Lemma empty_rep s : msb s = mkfs_sb -> img s = <[1%nat := sb_block]> (replicate 1000 zeroes) -> freeinode s = 1 -> freeblock s = 46 -> rep s [].
Proof.
  intros Hsb Him Hfi Hfb. assert (forall b, (b < 1000)%nat -> b <> 1%nat -> img s !! b = Some zeroes) as Hz.
  { intros b Hb Hne. rw Him list_lookup_insert_ne //. by apply lookup_replicate_2. }
  split_and!; [done| | | |by rw Hfi|cbn; lia|done|lia|].
  - rw Him. apply disk_insert; [|done]. split; [done|]. by apply Forall_replicate.
  - split; [rw Him list_lookup_insert_eq; [done|rw length_replicate; lia]|]. intros b Hb. apply Hz; lia.
  - intros b Hb. apply Hz; lia.
  - exists []. split_and!; [done|by intros ? ? ? ? _ ?|by intros ? ? ? ?].
Qed.
(** The rounding of the size of the directory. *)
Lemma resize_rep f fs sz n s : rep s (f :: fs) -> 0 <= sz < 2 ^ 32 ->
  wp (winode 1 (set_dsize (inode_at (img s) 1) sz)) n s (fun _ s' => rep s' (AFile (af_type f) sz (af_data f) :: fs)).
Proof.
  intros (Hsb & Hd & Hm & Hz & Hfi & Hlt & Hfb & Hle & L & Hlay) Hsz. pose proof Hlay as (HL & _ & Hin).
  destruct L as [|p L]; [done|]. destruct (Hin 0%nat f p eq_refl eq_refl) as [Hal Hok]. pose proof Hok as (Hat & Hrng & Hfile & Ht).
  set (d := inode_at (img s) 1) in *.
  destruct (winode_run 1 (set_dsize d sz) n s) as (im' & Hrun & Hd' & Hat' & Hoth & Hfr); [lia|done|done| |].
  { destruct Hfile as ((Hl13 & _) & _). assert (- 2 ^ 15 <= di_type d < 2 ^ 15) as Hty by apply i16_range. clearbody d.
    rw /attrs in Hat. injection Hat as ? ? ? ? _. split_and!; cbn; try lia; done. }
  rw /wp Hrun. rw Forall_forall in Hal. split_and!; [done|done| | |done|done|done|done|].
  - eapply meta_frame; [exact Hm|]. intros b Hb. apply Hfr. lia.
  - intros b Hb. cbn in *. rw Hfr; [by apply Hz|lia].
  - exists (p :: L). change (p :: L) with (<[0%nat := p]> (p :: L)). change (AFile _ _ _ :: fs) with (<[0%nat := AFile (af_type f) sz (af_data f)]> (f :: fs)).
    eapply (layout_update s); [done|done|done|done|cbn; lia| |exact Hoth|by left|by apply Forall_forall|].
    + intros b _ Hb _. apply Hfr. lia.
    + rw /inode_ok. cbn [img set_img]. rw Hat'. split_and!; [|done| |done].
      * change (((attrs d).1, sz) = (af_type f, 0, 0, 1, sz)). by rw Hat.
      * apply (file_frame (img s)); [exact Hfile|]. intros b [? _]%Hal. apply Hfr. lia.
Qed.
(** The bitmap is not part of any file. *)
Lemma balloc_rep n s fs : rep s fs -> wp (balloc (freeblock s)) n s (fun _ s' => rep s' fs /\ freeblock s' = freeblock s /\
  exists blk, img s' !! 45%nat = Some blk /\ length blk = 1024%nat /\ forall b, 0 <= b < 8192 -> bit_set blk b = (b <? freeblock s)).
Proof.
  intros (Hsb & Hd & Hm & Hz & Hfi & Hlt & Hfb & Hle & L & HL & Hdis & Hin). destruct (bitmap_bits (Z.to_nat (freeblock s))) as [Hlen Hbits]; [lia|].
  rw /balloc (proj2 (Z.ltb_lt _ _)); [|change (BSIZE * 8) with 8192; lia]. set (buf := fold_left _ _ _) in *.
  apply wp_bind. rw {1}/wp. cbn beta iota delta [assert_ mret K_ret]. apply wp_bind, wp_gets. rw Hsb. change (sb_bmapstart mkfs_sb) with (Z.of_nat 45).
  rw /wp wsect_run //; [|lia]. set (s' := set_img (insert 45%nat buf) s).
  assert (forall b, b <> 45%nat -> img s' !! b = img s !! b) as Hfr by (intros b Hb; cbn; by rw list_lookup_insert_ne).
  split_and!; [split_and!; [done|by apply disk_insert| | |done|done|done|done|]|done|].
  - eapply meta_frame; [exact Hm|]. intros b Hb. apply Hfr. lia.
  - intros b Hb. cbn [freeblock s' set_img] in Hb. rw Hfr; [by apply Hz|lia].
  - exists L. split_and!; [done|done|]. intros i f p Hf Hp. apply lookup_lt_Some in Hf as Hi. destruct (Hin i f p Hf Hp) as [Hal Hok]. split; [exact Hal|].
    rw Forall_forall in Hal. eapply inode_frame; [done|apply inode_at_ext; [lia|]|]; intros b Hb; apply Hfr; [lia|]. apply Hal in Hb as [? _]. lia.
  - exists buf. split_and!; [cbn; apply list_lookup_insert_eq; rw (proj1 Hd); lia|done|]. intros b Hb. rw kernel_bit // Hbits //. f_equal. lia.
Qed.
Lemma root_run n s f fs : rep s (f :: fs) -> wp (rinode 1) n s (fun d s' => s' = s /\ d = inode_at (img s) 1 /\ di_size d = af_size f).
Proof.
  intros (Hsb & Hd & _ & _ & _ & _ & _ & _ & L & HL & _ & Hin). rw /wp (rinode_run 1) //; [|lia]. split_and!; [done|done|].
  destruct L as [|p L]; [done|]. destruct (Hin 0%nat f p eq_refl eq_refl) as [_ (Hat & _)]. exact (f_equal snd Hat).
Qed.
Lemma sb_readable : get_superblock sb_block = mkfs_sb.
Proof. by vm_compute. Qed.

(** The size of the directory in the finished image: a whole number of blocks. *)
Definition rounded (files : list hostfile) : Z := (dirsize files / 1024 + 1) * 1024.

(** The directory with its first two entries. *)
Lemma dots_rep {B} (k : unit -> M B) n s Q : rep s [AFile T_DIR 0 []] -> (1024 < n)%nat -> (forall s', rep s' (image (dirsize []) []) -> ends (k tt) n s' Q) ->
  ends (dot ← dir_name (bytes_of_string "."); iappend 1 (dirent_bytes (link_entry 1 dot));;
        dotdot ← dir_name (bytes_of_string ".."); iappend 1 (dirent_bytes (link_entry 1 dotdot)) ≫= k) n s Q.
Proof.
  intros H1 Hn Hk. eapply ends_run; [by apply dir_name_run; repeat constructor|].
  eapply ends_bind; [rw (link_bytes 1); [|lia]; apply (iappend_rep 0 _ n s _ _ H1 eq_refl eq_refl)|].
  { cbn [af_data app]. rw length_entry. lia. }
  { vm_compute. lia. }
  { rw length_entry. lia. }
  intros [] s2 H2. eapply ends_run; [by apply dir_name_run; repeat constructor|].
  eapply ends_bind; [rw (link_bytes 1); [|lia]; apply (iappend_rep 0 _ n s2 _ _ H2 eq_refl)|].
  { done. }
  { by vm_compute. }
  { vm_compute. lia. }
  { rw length_entry. lia. }
  intros [] s3 H3. by apply Hk.
Qed.
Lemma used_size sz sz' files : used (image sz files) = used (image sz' files).
Proof. done. Qed.
Lemma used_prefix files rest : (used (image 0 files) <= used (image 0 (files ++ rest)))%nat.
Proof.
  rw /image fmap_app !used_cons used_app. pose proof (used_mono (entries files) (entries (files ++ rest)) T_DIR 0 T_DIR 0) as H.
  rw !length_entries length_app in H. specialize (H ltac:(lia)). lia.
Qed.
Lemma files_rep files n s : Forall host_ok files -> (length files <= 198)%nat -> (used (image 0 files) < 953)%nat -> (1024 < n)%nat ->
  rep s (image (dirsize []) []) -> wp (for_each files (mkfs_file 1)) n s (fun _ s' => rep s' (image (dirsize files) files)).
Proof.
  intros Hf Hlen Hroom Hn H0. apply (wp_for_each (fun pre s => rep s (image (dirsize pre) pre))); [done| |done].
  intros pre h rest s' -> Hrep. rw Forall_app Forall_cons in Hf. destruct Hf as (_ & Hh & _). rw length_app in Hlen. cbn [length] in Hlen.
  apply mkfs_file_rep; [done|done|lia|done|]. rw (used_size _ 0). pose proof (used_prefix (pre ++ [h]) rest) as Hu. rw -app_assoc in Hu.
  cbn [app] in Hu. lia.
Qed.

(** C11: [mkfs] on files that can be read, have no NUL or slash in their names,
    fit the block budget and are at most 198, ends with [exit(0)], and the image
    it leaves is the file system meant: the kernel's decoders find the
    superblock in block 1, an empty log, inode 1 a directory whose entries name
    the files in order, inode [i + 2] file [i] with exactly the bytes read from
    the host, no block in two files, and the bitmap bit of block [b] set just
    when [b] lies below the first block never allocated. *)
Theorem mkfs_builds files n : Forall host_ok files -> (length files <= 198)%nat -> (used (image 0 files) < 953)%nat -> (1024 < n)%nat ->
  exists s, main files n mkfs0 = Panic "exit(0)" s /\ rep s (image (rounded files) files) /\
    (exists blk, img s !! 1%nat = Some blk /\ get_superblock blk = mkfs_sb) /\
    exists blk, img s !! 45%nat = Some blk /\ forall b, 0 <= b < 8192 -> bit_set blk b = (b <? freeblock s).
Proof.
  intros Hf Hlen Hroom Hn. rw /main. do 2 (eapply ends_run; [reflexivity|]). eapply ends_bind; [by apply zero_run|]. intros [] s ->.
  eapply ends_bind with (P := fun _ s' => rep s' []).
  { rw /wp (wsect_run 1); [|by split; [|apply Forall_replicate]|lia]. by apply empty_rep. }
  intros [] s H0. eapply ends_bind; [apply (ialloc_rep T_DIR n s [] H0); [cbn; lia|done]|]. intros r s1 [-> H1]. cbn [app length] in H1.
  eapply ends_run; [reflexivity|]. apply dots_rep; [exact H1|done|]. intros s2 H2. eapply ends_bind; [by apply files_rep|]. intros [] s3 H3.
  eapply ends_bind; [exact (root_run n s3 _ _ H3)|]. intros d s4 (-> & -> & Hsz). cbn zeta. rw Hsz. cbn [af_size].
  pose proof (length_entries files) as Hle. assert (0 <= dirsize files / 1024 <= 10) as Hq.
  { rw /dirsize Hle. split; [apply Z.div_pos; lia|]. apply Z.div_le_upper_bound; lia. }
  rw (xint_small (dirsize files)); [|rw /dirsize Hle; lia]. rw u32_small; [|rw /BSIZE; lia]. rw xint_small; [|rw /BSIZE; lia].
  change ((dirsize files / BSIZE + 1) * BSIZE) with (rounded files).
  eapply ends_bind; [apply (resize_rep _ _ (rounded files) n s3 H3); rw /rounded; lia|]. intros [] s5 H5. eapply ends_run; [reflexivity|].
  eapply ends_bind; [exact (balloc_rep n s5 _ H5)|]. intros [] s6 (H6 & Hfb & blk & Hblk & _ & Hbits). exists s6. split; [done|].
  split_and!; [exact H6| |exists blk; split; [done|by rw Hfb]]. exists sb_block. split; [|exact sb_readable]. by destruct H6 as (_ & _ & [Hm _] & _).
Qed.
Lemma mkfs_builds_witness : exists s,
  main [HostFile (bytes_of_string "user/_cat") (Some [[1; 2; 3]; [4]])] 1025%nat mkfs0 = Panic "exit(0)" s /\ freeblock s = 48.
Proof.
  set (files := [HostFile (bytes_of_string "user/_cat") (Some [[1; 2; 3]; [4]])]).
  assert (Forall host_ok files) as Hf.
  { constructor; [|constructor]. split_and!.
    - exists [[1; 2; 3]; [4]]. split; [done|]. repeat constructor.
    - by repeat constructor.
    - vm_compute. intros H. repeat (apply elem_of_cons in H as [H|H]; [done|]). by apply elem_of_nil in H.
    - done. }
  destruct (mkfs_builds files 1025%nat Hf) as (s & Hrun & Hrep & _); [cbn; lia|vm_compute; lia|lia|]. exists s. split; [exact Hrun|].
  destruct Hrep as (_ & _ & _ & _ & _ & _ & -> & _). by vm_compute.
Defined.
